(* ===== verification/_CoqProject ===== *)
-Q . S2P
Prelude.v
Bits.v
Varint.v
Util.v
Probe.v
Vfs.v
Aws.v
WalTypes.v
WalFormat.v
WalIndex.v
WalState.v
WalRecover.v
WalRead.v
WalWrite.v
WalCommit.v
WalSort.v
WalUpload.v
WalCkpt.v
WalClose.v
Bitvec.v
Rowset.v
Mem.v
BtPage.v
BtSpace.v
BtDefrag.v
BtCells.v
BtList.v
MakeRecord.v
Compare.v
RecordCompare.v
BtPages.v
BtFree.v
BtAlloc.v
BtOvfl.v
BtStore.v
BtMove.v
BtTree.v
BtSeek.v
