(* ===== verification/Prelude.v ===== *)
(** * The write-ahead log of SQLite and its uploads to S3

    This library models the C code of this repository that makes commits
    durable: the write-ahead log of SQLite (src/src/src/wal.c) with what the
    repository adds to it, a copy of the log, or of the text of the
    statements, that is sent to an S3 object after each commit; and the
    self-contained parts of SQLite that this code stands on.

    ** Files

    - Prelude.v: machine integers ([u8] .. [i64] wrap a [Z] the way C does),
      arrays with bounds ([l.[i]] is [None] out of bounds), bytes, automation.
    - Bits.v: bit operations as arithmetic.
    - Util.v: big-endian words and checked 64-bit arithmetic (util.c).
    - Varint.v: the variable-length integers of the file format (util.c).
    - Probe.v: open-addressed hash tables, as the wal-index uses them.
    - Vfs.v: a file, as the class [VFile]; [ByteFile] is an instance.
    - Aws.v: the upload buffer ([Aws]: the globals [aws_ptr], [aws_off],
      [cur_aws_off], [awsfile] of main.c), the statement log (vdbeapi.c), the
      upload commands (wal.c); the store is the class [S3].
    - WalTypes.v: [WalIndexHdr], [WalCkptInfo], [Wal] and the constants.
    - WalFormat.v: checksums and frames ([walChecksumBytes], [walEncodeFrame],
      [walDecodeFrame]).
    - WalIndex.v: the pages of the wal-index: [walIndexAppend],
      [walCleanupHash], [sqlite3WalFindFrame].
    - WalState.v: the world of a connection, locks, barriers, the two copies of
      the header ([walIndexWriteHdr], [walIndexTryHdr], [walRestartHdr]), and
      the weakest preconditions [wp] in which the later files reason.
    - WalRecover.v: [walIndexRecover].
    - WalRead.v: read transactions ([walIndexReadHdr], [walTryBeginRead],
      [sqlite3WalBeginReadTransaction]) and reading pages.
    - WalWrite.v: write transactions ([sqlite3WalBeginWriteTransaction],
      [sqlite3WalUndo], the savepoints, [sqlite3WalFrames]).
    - WalCommit.v: what a commit leaves, and that it survives a crash.
    - WalSort.v: the iterator of a checkpoint ([walMergesort],
      [walIteratorInit], [walIteratorNext]).
    - WalUpload.v: [sqlite3WalCallback] and the history of the uploads.
    - WalCkpt.v: checkpoints ([sqlite3WalCheckpoint], [walCheckpoint]).
    - WalClose.v: opening and closing a handle, exclusive mode.
    - Bitvec.v: sets of page numbers (bitvec.c).
    - Rowset.v: sets of row ids (rowset.c).
    - Mem.v: two-byte words, [memcpy], [memmove] and [memset] on a buffer.
    - BtPage.v: a B-tree page in memory ([MemPage]), its cells and its header
      (btree.c): parsing, sizes, [btreeInitPage], [btreeComputeFreeSpace].
    - BtSpace.v: its free blocks: [freeSpace], [pageFindSlot].
    - BtDefrag.v: [defragmentPage].
    - BtCells.v: [allocateSpace], [insertCell], [insertCellFast], [dropCell].
    - BtList.v: a page as a list of cells.
    - MakeRecord.v: records: [OP_MakeRecord] (vdbe.c) and
      [sqlite3VdbeRecordUnpack] (vdbeaux.c).
    - Compare.v: comparing values ([sqlite3MemCompare], vdbeaux.c).
    - RecordCompare.v: comparing encoded records with unpacked ones
      ([sqlite3VdbeRecordCompare], its fast versions).
    - BtPages.v: the pages of a database ([Bt]: the fields of [BtShared] that
      allocation uses, and the contents of the pages), the pager as the class
      [Pager], the pointer map ([ptrmapPut], [ptrmapGet]) and the pages whose
      content a rollback needs; the monad and the rules of [wp] in which the
      files below reason.
    - BtFree.v: [allocateBtreePage], [freePage2] and the list of free pages.
    - BtAlloc.v: what a client of both sees.
    - BtOvfl.v: overflow pages: [fillInCell], [accessPayload],
      [clearCellOverflow], [getOverflowPage].
    - BtStore.v: the entries of a leaf page with their overflow pages:
      [sqlite3BtreeInsert] and [sqlite3BtreeDelete] at the cursor, and reading.

    ** How the code is modelled

    A C function becomes a Coq function with its name; a loop, or a branch
    that would make a function unreadable, becomes a function of its own.
    Values have the width of their C type where it matters.  [None] is
    undefined behaviour: a read or a write out of bounds, an offset past the
    buffer.  Functions of wal.c that use the system run in the monad [M] of
    WalState.v, over a [World]: the handle, the shared memory, the log file,
    the database file, the upload buffer, and the state of the system.  Files,
    locks, random bytes, allocations and pauses are the classes [VFile] and
    [WalOS]: their laws say what a successful call did, so every theorem covers
    failing calls too.  Other connections act through [xShmLock], [xShmBarrier]
    and [xSleep], which may return any shared memory; theorems about a single
    connection take [os_quiet] (nothing else changes the shared memory) or
    [os_grants] (and every lock is granted).

    Loops that the C code ends by a condition on its data carry fuel that is
    the length of the data they run over ([recover_frames], [merge_loop],
    [pad_loop], [fill_loop], [access_loop]); 4, as no more than two pages in a
    row hold no data ([next_ordinary]); or 101, the number of attempts after
    which [walTryBeginRead] gives up ([begin_read_loop]).  The theorems show
    that the fuel suffices, since they exclude [None].

    ** What the theorems show

    A commit appends valid frames with the data of its pages and publishes
    exactly these ([commit_correct]); recovery of any file that begins with
    the log finds them ([commit_survives_crash]), because recovery on any log
    rebuilds the valid frames up to the first that is not
    ([walIndexRecover_correct]) and validation accepts exactly what the
    encoder writes ([walDecodeFrame_exact], [frame_roundtrip]).  Readers get a
    consistent snapshot whatever the other connections do
    ([read_snapshot_safe]) after a bounded number of attempts
    ([read_retries_end]) and read each page from its last frame
    ([read_page_correct], [sqlite3WalFindFrame_correct]).  Rolling back leaves
    exactly the frames before the transaction or the savepoint.  In upload
    mode 2 the object is the stream of the frames ([commit_uploaded],
    [uploads_replicate]) as long as no upload fails; one that does is never
    made up for ([upload_failure_permanent]).
    A checkpoint changes no byte that a reader of the whole log, or one with a
    read mark, finds ([checkpoint_correct], [checkpoint_keeps_readers]), and
    closing deletes the log only when nothing in it is needed any more
    ([close_keeps_data]).
    A bit vector is a set of numbers in every one of its representations
    ([bitvec_well_formed], [bitvec_refines_set]); a row set answers tests by
    batches and is read in order ([rowset_tests_batches],
    [rowset_next_sorted]).
    A page of a B-tree is a list of cells ([page_refines_list]): the content
    area is described as blocks, cells and free blocks in order, and what they
    leave out are fragments ([space]); each operation on the bytes keeps this
    description.  Sizes agree with parsing ([cell_size_is_parsed_size]),
    reading a page again rebuilds what was in memory ([reload_page],
    [btreeComputeFreeSpace_exact]), and defragmentation is invisible
    ([defragmentPage_correct]).
    The values of a record are those that were stored ([record_roundtrip]).
    Values are compared exactly and in a total order ([MemCompare_orders]),
    and an encoded record compares with an unpacked one as their values do,
    whichever function is chosen for it ([RecordCompare_orders]).
    Pages are allocated and freed as a map from pages in use to contents would
    be ([run_refines]): the list of free pages is described by the chain of
    its trunk pages and their leaves ([free_list]), the pages in use by a map
    ([pages]) that says where every page of the file that may hold data is.
    On top of that a leaf page with the overflow pages of its entries is a
    list of keys and payloads ([leaf_page_refines]): an entry is the bytes of
    its cell and a chain of pages of its own ([entry_cell], [stored]), and the
    pointer map names the page before each overflow page ([maps]), which is
    what lets [getOverflowPage] guess.  A pager that fails may stop an
    operation anywhere; with one that does not ([QuietPager]) only lack of
    memory does.

    ** What is not modelled

    Builds with SQLITE_ENABLE_SNAPSHOT, SQLITE_ENABLE_SETLK_TIMEOUT and
    SQLITE_USE_SEH; tracing and assertions; the operating-system layers; the
    pager; of the B-tree, balancing, moving a cursor, overwriting an entry of
    the same size ([btreeOverwriteCell]), transactions, and reading overflow
    pages directly from the file (SQLITE_DIRECT_OVERFLOW_READ); the virtual
    machine (affinities included), the SQL compiler and the extensions, except
    for the functions named above.  Overwriting a payload ([accessPayload])
    is modelled, but only reading is proved.  The pointer map that
    [insertCell] updates with auto-vacuum is an argument, its result code;
    [insert_cell] of BtStore.v makes the update. *)
From stdpp Require Export base tactics option list gmap sets numbers.
From Stdlib Require Export ZArith Lia Bool.

#[export] Set Default Goal Selector "!".

Open Scope Z_scope.

(** * Machine integers

    A C integer is a [Z]; the type of the expression is written as the wrap
    function that C applies when a value is stored in it. *)

Definition u8 (x : Z) : Z := x mod 2 ^ 8.
Definition u16 (x : Z) : Z := x mod 2 ^ 16.
Definition u32 (x : Z) : Z := x mod 2 ^ 32.
Definition u64 (x : Z) : Z := x mod 2 ^ 64.
Definition i32 (x : Z) : Z := (x + 2 ^ 31) mod 2 ^ 32 - 2 ^ 31.
Definition i64 (x : Z) : Z := (x + 2 ^ 63) mod 2 ^ 64 - 2 ^ 63.

Lemma u8_range x : 0 <= u8 x < 256.
Proof. unfold u8. apply Z.mod_pos_bound. lia. Qed.

Lemma u16_range x : 0 <= u16 x < 65536.
Proof. unfold u16. apply Z.mod_pos_bound. lia. Qed.

Lemma u32_range x : 0 <= u32 x < 4294967296.
Proof. unfold u32. apply Z.mod_pos_bound. lia. Qed.

Lemma u64_range x : 0 <= u64 x < 18446744073709551616.
Proof. unfold u64. apply Z.mod_pos_bound. lia. Qed.

Lemma u8_small x : 0 <= x < 256 -> u8 x = x.
Proof. intros. unfold u8. apply Z.mod_small. lia. Qed.

Lemma u16_small x : 0 <= x < 65536 -> u16 x = x.
Proof. intros. unfold u16. apply Z.mod_small. lia. Qed.

Lemma u32_small x : 0 <= x < 4294967296 -> u32 x = x.
Proof. intros. unfold u32. apply Z.mod_small. lia. Qed.

Lemma u64_small x : 0 <= x < 18446744073709551616 -> u64 x = x.
Proof. intros. unfold u64. apply Z.mod_small. lia. Qed.

Lemma i32_small x : - 2147483648 <= x < 2147483648 -> i32 x = x.
Proof. intros. unfold i32. rewrite Z.mod_small; lia. Qed.

Lemma i64_small x :
  - 9223372036854775808 <= x < 9223372036854775808 -> i64 x = x.
Proof. intros. unfold i64. rewrite Z.mod_small; lia. Qed.

Lemma i64_range x : - 9223372036854775808 <= i64 x < 9223372036854775808.
Proof.
  unfold i64. pose proof (Z.mod_pos_bound (x + 2 ^ 63) (2 ^ 64)). lia.
Qed.

(** * Arrays indexed by machine integers

    [l .[ i ]] reads a C array; reading outside the array is undefined
    behaviour, the value [None].  [zset] is the assignment [l[i] = x]. *)

Definition zlen {A} (l : list A) : Z := Z.of_nat (length l).

Definition zget {A} (l : list A) (i : Z) : option A :=
  if i <? 0 then None else l !! Z.to_nat i.

Definition zset {A} (l : list A) (i : Z) (x : A) : option (list A) :=
  if (0 <=? i) && (i <? zlen l) then Some (<[Z.to_nat i := x]> l) else None.

Declare Scope carray_scope.
Delimit Scope carray_scope with carray.
Notation "l .[ i ]" := (zget l i)
  (at level 1, left associativity, format "l .[ i ]") : carray_scope.
Notation "l .[ i <- x ]" := (zset l i x)
  (at level 1, left associativity, format "l .[ i  <-  x ]") : carray_scope.
Open Scope carray_scope.

(** The assignment as a total function, for positions known to exist. *)
Definition zupd {A} (l : list A) (i : Z) (x : A) : list A :=
  <[Z.to_nat i := x]> l.

Section arrays.
Context {A : Type}.
Implicit Types (l k : list A) (i j : Z) (x y : A).

Lemma zlen_nonneg l : 0 <= zlen l.
Proof. unfold zlen. lia. Qed.

Lemma zlen_nil : zlen (@nil A) = 0.
Proof. reflexivity. Qed.

Lemma zlen_cons x l : zlen (x :: l) = zlen l + 1.
Proof. unfold zlen. rewrite length_cons. lia. Qed.

Lemma zlen_app l k : zlen (l ++ k) = zlen l + zlen k.
Proof. unfold zlen. rewrite length_app. lia. Qed.

Lemma zlen_replicate (n : nat) x : zlen (replicate n x) = Z.of_nat n.
Proof. unfold zlen. by rewrite length_replicate. Qed.

Lemma zget_lookup l (n : nat) : l .[ Z.of_nat n ] = l !! n.
Proof.
  unfold zget. destruct (Z.ltb_spec (Z.of_nat n) 0); [lia|].
  by rewrite Nat2Z.id.
Qed.

Lemma zget_to_nat l i : 0 <= i -> l .[ i ] = l !! Z.to_nat i.
Proof. intros. unfold zget. destruct (Z.ltb_spec i 0); [lia|done]. Qed.

Lemma zget_range l i x : l .[ i ] = Some x -> 0 <= i < zlen l.
Proof.
  unfold zget, zlen. destruct (Z.ltb_spec i 0); [done|].
  intros Hl%lookup_lt_Some. lia.
Qed.

Lemma zget_some l i : 0 <= i < zlen l -> exists x, l .[ i ] = Some x.
Proof.
  unfold zlen. intros. rewrite zget_to_nat by lia.
  apply lookup_lt_is_Some_2. lia.
Qed.

Lemma zget_neg l i : i < 0 -> l .[ i ] = None.
Proof. intros Hi. unfold zget. by rewrite (proj2 (Z.ltb_lt _ _) Hi). Qed.

Lemma zget_none l i : zlen l <= i -> l .[ i ] = None.
Proof.
  intros. pose proof (zlen_nonneg l). rewrite zget_to_nat by lia.
  apply lookup_ge_None_2. unfold zlen in *. lia.
Qed.

Lemma zget_cons_0 x l : (x :: l) .[ 0 ] = Some x.
Proof. done. Qed.

Lemma zget_cons_pos x l i : 0 < i -> (x :: l) .[ i ] = l .[ i - 1 ].
Proof.
  intros. rewrite !zget_to_nat by lia.
  by replace (Z.to_nat i) with (S (Z.to_nat (i - 1))) by lia.
Qed.

Lemma zget_app_l l k i : i < zlen l -> (l ++ k) .[ i ] = l .[ i ].
Proof.
  unfold zget, zlen. intros. destruct (Z.ltb_spec i 0); [done|].
  apply lookup_app_l. lia.
Qed.

Lemma zget_app_r l k i : zlen l <= i -> (l ++ k) .[ i ] = k .[ i - zlen l ].
Proof.
  pose proof (zlen_nonneg l). unfold zlen in *. intros.
  rewrite !zget_to_nat by lia.
  rewrite lookup_app_r by lia. f_equal. lia.
Qed.

Lemma zget_snoc l x j y :
  (l ++ [x]) .[ j ] = Some y -> (0 <= j < zlen l /\ l .[ j ] = Some y) \/ (j = zlen l /\ y = x).
Proof.
  intros H. pose proof (zget_range _ _ _ H) as Hr. rewrite zlen_app in Hr.
  change (zlen [x]) with 1 in Hr. destruct (Z.lt_ge_cases j (zlen l)).
  - rewrite zget_app_l in H by done. left. split; [lia|done].
  - right. assert (j = zlen l) as -> by lia. rewrite zget_app_r, Z.sub_diag in H by lia.
    injection H as ->. done.
Qed.

Lemma zget_replicate (n : nat) x i :
  0 <= i < Z.of_nat n -> (replicate n x) .[ i ] = Some x.
Proof.
  intros. rewrite zget_to_nat by lia. apply lookup_replicate_2. lia.
Qed.

Lemma zget_fmap {B} (f : A -> B) l i : (f <$> l) .[ i ] = f <$> l .[ i ].
Proof. unfold zget. destruct (i <? 0); [done|]. apply list_lookup_fmap. Qed.

Lemma zlen_fmap {B} (f : A -> B) l : zlen (f <$> l) = zlen l.
Proof. unfold zlen. by rewrite length_fmap. Qed.

Lemma zlen_take l i : 0 <= i <= zlen l -> zlen (take (Z.to_nat i) l) = i.
Proof. unfold zlen. intros. rewrite length_take. lia. Qed.

Lemma zget_take l i j : j < i -> (take (Z.to_nat i) l) .[ j ] = l .[ j ].
Proof.
  unfold zget. intros. destruct (Z.ltb_spec j 0); [done|].
  apply lookup_take_lt. lia.
Qed.

Lemma zget_drop l i j : 0 <= i -> 0 <= j -> (drop (Z.to_nat i) l) .[ j ] = l .[ i + j ].
Proof.
  intros. rewrite !zget_to_nat by lia. rewrite lookup_drop. f_equal. lia.
Qed.

Lemma zset_zupd l i x : 0 <= i < zlen l -> l .[ i <- x ] = Some (zupd l i x).
Proof.
  intros. unfold zset.
  destruct (Z.leb_spec 0 i), (Z.ltb_spec i (zlen l)); done || lia.
Qed.

Lemma zset_inv l i x k :
  l .[ i <- x ] = Some k -> 0 <= i < zlen l /\ k = zupd l i x.
Proof.
  unfold zset.
  destruct (Z.leb_spec 0 i), (Z.ltb_spec i (zlen l)); simpl; intros; try done.
  by simplify_eq.
Qed.

Lemma zlen_zupd l i x : zlen (zupd l i x) = zlen l.
Proof. unfold zlen, zupd. by rewrite length_insert. Qed.

Lemma zget_zupd_eq l i x : 0 <= i < zlen l -> (zupd l i x) .[ i ] = Some x.
Proof.
  unfold zlen, zupd. intros. rewrite zget_to_nat by lia.
  apply list_lookup_insert_eq. lia.
Qed.

Lemma zget_zupd_ne l i j x : 0 <= i -> i <> j -> (zupd l i x) .[ j ] = l .[ j ].
Proof.
  unfold zget, zupd. intros. destruct (Z.ltb_spec j 0); [done|].
  apply list_lookup_insert_ne. lia.
Qed.

Lemma zget_zupd l i j x :
  0 <= i < zlen l ->
  (zupd l i x) .[ j ] = if decide (i = j) then Some x else l .[ j ].
Proof.
  intros. case_decide; subst; [by apply zget_zupd_eq|].
  apply zget_zupd_ne; lia.
Qed.

Lemma zget_elem_of l i x : l .[ i ] = Some x -> x ∈ l.
Proof.
  intros H. pose proof (zget_range _ _ _ H). rewrite zget_to_nat in H by lia.
  by eapply list_elem_of_lookup_2.
Qed.

Lemma elem_of_zget l x : x ∈ l -> exists i, l .[ i ] = Some x.
Proof.
  intros [n Hn]%list_elem_of_lookup. exists (Z.of_nat n).
  by rewrite zget_lookup.
Qed.

Lemma Forall_zget (P : A -> Prop) l i x :
  Forall P l -> l .[ i ] = Some x -> P x.
Proof.
  intros H1 H2. pose proof (zget_range _ _ _ H2).
  rewrite zget_to_nat in H2 by lia. by eapply Forall_lookup_1.
Qed.

Lemma Forall_zupd (P : A -> Prop) l i x :
  Forall P l -> P x -> Forall P (zupd l i x).
Proof. intros. by apply Forall_insert. Qed.
End arrays.

Create HintDb carray.
Create Rewrite HintDb carray.
#[export] Hint Rewrite @zlen_nil @zlen_cons @zlen_app @zlen_zupd
  @zlen_replicate : carray.
#[export] Hint Resolve zlen_nonneg u8_range u16_range u32_range u64_range
  : carray.

(** * Bytes *)

Definition byte_ok (b : Z) : Prop := 0 <= b < 256.
Abbreviation bytes_ok := (Forall byte_ok).

#[export] Instance byte_ok_dec b : Decision (byte_ok b).
Proof. unfold byte_ok. apply _. Defined.

Lemma u8_ok x : byte_ok (u8 x).
Proof. apply u8_range. Qed.
#[export] Hint Resolve u8_ok : carray.

(** * Allocation *)

(** An allocator is the list of answers it has still to give; it grants every
    request when the list ends. *)
Definition Alloc : Type := list bool.
Definition malloc (a : Alloc) : bool * Alloc :=
  match a with [] => (true, []) | b :: a => (b, a) end.
