(* ===== verification/Bits.v ===== *)
(** A reflective decision procedure for equations between expressions built
    from masks, shifts, bitwise or and truncations.  The code that packs and
    unpacks bytes (varints, big-endian words, UTF-8, page headers) is made of
    such expressions; [bits_solve] proves that two of them are the same number
    by computing, for each bit, the set of input bits it is the disjunction
    of. *)
From S2P Require Import Prelude.
Open Scope Z_scope.

Lemma testbit_above n x i : 0 <= x < 2 ^ n -> n <= i -> Z.testbit x i = false.
Proof.
  intros Hx Hi. destruct (Z.ltb_spec n 0).
  - rewrite Z.pow_neg_r in Hx by done. lia.
  - rewrite <- (Z.mod_small x (2 ^ n)) by done. by apply Z.mod_pow2_bits_high.
Qed.

(** Expressions over numbered inputs. *)
Inductive bexp : Type :=
| BZero
| BVar (k : nat)
| BAnd (e : bexp) (m : Z)
| BOr (e1 e2 : bexp)
| BShl (e : bexp) (n : Z)
| BShr (e : bexp) (n : Z)
| BMod (e : bexp) (n : Z).

(** The inputs: each number with a width it fits in. *)
Definition benv := list (Z * Z).
Definition benv_ok (env : benv) : Prop :=
  Forall (fun p => 0 <= p.1 < 2 ^ p.2) env.

Definition bval (env : benv) (k : nat) : Z := (nth k env (0, 0)).1.
Definition bwid (env : benv) (k : nat) : Z := (nth k env (0, 0)).2.

Fixpoint bdenote (env : benv) (e : bexp) : Z :=
  match e with
  | BZero => 0
  | BVar k => bval env k
  | BAnd e m => Z.land (bdenote env e) m
  | BOr e1 e2 => Z.lor (bdenote env e1) (bdenote env e2)
  | BShl e n => Z.shiftl (bdenote env e) n
  | BShr e n => Z.shiftr (bdenote env e) n
  | BMod e n => bdenote env e mod 2 ^ n
  end.

(** The input bits whose disjunction is bit [i] of the value. *)
Fixpoint bsources (env : benv) (e : bexp) (i : Z) : list (nat * Z) :=
  match e with
  | BZero => []
  | BVar k => if i <? bwid env k then [(k, i)] else []
  | BAnd e m => if Z.testbit m i then bsources env e i else []
  | BOr e1 e2 => bsources env e1 i ++ bsources env e2 i
  | BShl e n => if i <? n then [] else bsources env e (i - n)
  | BShr e n => bsources env e (i + n)
  | BMod e n => if i <? n then bsources env e i else []
  end.

(** Shifts are by literal non-negative amounts. *)
Fixpoint bshape (e : bexp) : bool :=
  match e with
  | BZero | BVar _ => true
  | BAnd e _ => bshape e
  | BOr e1 e2 => bshape e1 && bshape e2
  | BShl e n | BShr e n | BMod e n => (0 <=? n) && bshape e
  end.

(** No bit at or above this position can be set. *)
Fixpoint bwidth (env : benv) (e : bexp) : Z :=
  match e with
  | BZero => 0
  | BVar k => bwid env k
  | BAnd e _ => bwidth env e
  | BOr e1 e2 => Z.max (bwidth env e1) (bwidth env e2)
  | BShl e n => bwidth env e + n
  | BShr e n => bwidth env e - n
  | BMod e n => Z.min n (bwidth env e)
  end.

Definition bsource_bit (env : benv) (s : nat * Z) : bool :=
  Z.testbit (bval env s.1) s.2.

Lemma bvar_range env k :
  benv_ok env -> 0 <= bval env k < 2 ^ bwid env k.
Proof.
  intros H. unfold bval, bwid.
  destruct (nth_in_or_default k env (0, 0)) as [Hin| ->]; [|done].
  apply List.Forall_forall with (1 := H) (2 := Hin).
Qed.

Lemma bsources_spec env e i :
  benv_ok env -> bshape e = true -> 0 <= i ->
  Z.testbit (bdenote env e) i = existsb (bsource_bit env) (bsources env e i).
Proof.
  intros Henv. revert i.
  induction e as [|k|e IHe m|e1 IHe1 e2 IHe2|e IHe n|e IHe n|e IHe n];
    intros i Hs Hi; simpl in *;
    rewrite ?andb_true_iff, ?Z.leb_le in Hs; destruct_and?.
  - apply Z.bits_0.
  - destruct (Z.ltb_spec i (bwid env k)); simpl; [by rewrite orb_false_r|].
    by eapply testbit_above, H; apply bvar_range.
  - rewrite Z.land_spec. destruct (Z.testbit m i); simpl.
    + rewrite andb_true_r. by apply IHe.
    + apply andb_false_r.
  - rewrite Z.lor_spec, existsb_app. by rewrite IHe1, IHe2.
  - rewrite Z.shiftl_spec by done. destruct (Z.ltb_spec i n); simpl.
    + apply Z.testbit_neg_r. lia.
    + apply IHe; [done|lia].
  - rewrite Z.shiftr_spec by done. apply IHe; [done|lia].
  - rewrite Z.testbit_mod_pow2 by done.
    destruct (Z.ltb_spec i n); simpl; [by apply IHe|done].
Qed.

Lemma bwidth_spec env e i :
  bshape e = true -> bwidth env e <= i -> bsources env e i = [].
Proof.
  revert i.
  induction e as [|k|e IHe m|e1 IHe1 e2 IHe2|e IHe n|e IHe n|e IHe n];
    intros i Hs Hi; simpl in *;
    rewrite ?andb_true_iff, ?Z.leb_le in Hs; destruct_and?.
  - done.
  - destruct (Z.ltb_spec i (bwid env k)); [lia|done].
  - destruct (Z.testbit m i); [|done]. by apply IHe.
  - rewrite IHe1, IHe2; (done || lia).
  - destruct (Z.ltb_spec i n); [done|]. apply IHe; [done|lia].
  - apply IHe; [done|lia].
  - destruct (Z.ltb_spec i n); [|done]. apply IHe; [done|lia].
Qed.

Definition bsource_eqb (s1 s2 : nat * Z) : bool :=
  Nat.eqb s1.1 s2.1 && (s1.2 =? s2.2).

Definition bincl (l1 l2 : list (nat * Z)) : bool :=
  forallb (fun s => existsb (bsource_eqb s) l2) l1.

Lemma bincl_spec env l1 l2 :
  bincl l1 l2 = true ->
  existsb (bsource_bit env) l1 = true -> existsb (bsource_bit env) l2 = true.
Proof.
  unfold bincl. rewrite forallb_forall, !existsb_exists.
  intros H ([k j] & Hin & Hbit). specialize (H _ Hin).
  apply existsb_exists in H as ([k' j'] & Hin' & Heq).
  unfold bsource_eqb in Heq. simpl in Heq.
  apply andb_true_iff in Heq as [->%Nat.eqb_eq ->%Z.eqb_eq].
  by exists (k', j').
Qed.

Definition bequal (env : benv) (e1 e2 : bexp) : bool :=
  bshape e1 && bshape e2 &&
  forallb (fun i => bincl (bsources env e1 i) (bsources env e2 i) &&
                    bincl (bsources env e2 i) (bsources env e1 i))
    (seqZ 0 (Z.max 0 (Z.max (bwidth env e1) (bwidth env e2)))).

Theorem bequal_sound env e1 e2 :
  benv_ok env -> bequal env e1 e2 = true ->
  bdenote env e1 = bdenote env e2.
Proof.
  unfold bequal. rewrite !andb_true_iff, forallb_forall.
  intros Henv [[Hs1 Hs2] H]. apply Z.bits_inj'. intros i Hi.
  rewrite !bsources_spec by done.
  destruct (Z.ltb_spec i (Z.max 0 (Z.max (bwidth env e1) (bwidth env e2)))).
  - assert (Hin : In i (seqZ 0 (Z.max 0 (Z.max (bwidth env e1) (bwidth env e2))))).
    { apply list_elem_of_In, elem_of_seqZ. lia. }
    apply H in Hin. apply andb_true_iff in Hin as [H1 H2].
    apply eq_true_iff_eq. split; by apply bincl_spec.
  - by rewrite !bwidth_spec by (done || lia).
Qed.

(** ** Reification *)

Ltac bits_index x env :=
  lazymatch env with
  | (x, _) :: _ => constr:(O)
  | _ :: ?env' => let n := bits_index x env' in constr:(S n)
  end.

Ltac bits_mem x env :=
  lazymatch env with
  | [] => constr:(false)
  | (x, _) :: _ => constr:(true)
  | _ :: ?env' => bits_mem x env'
  end.

(** The width of an input, from the hypotheses. *)
Ltac bits_wid x :=
  match goal with
  | _ : 0 <= x < ?n |- _ => let w := eval vm_compute in (Z.log2_up n) in w
  | _ : byte_ok x |- _ => constr:(8)
  end.

Ltac bits_vars env t :=
  lazymatch t with
  | 0 => env
  | Z.land ?a _ => bits_vars env a
  | Z.lor ?a ?b => let env := bits_vars env a in bits_vars env b
  | Z.shiftl ?a _ => bits_vars env a
  | Z.shiftr ?a _ => bits_vars env a
  | u8 ?a => bits_vars env a
  | u16 ?a => bits_vars env a
  | u32 ?a => bits_vars env a
  | u64 ?a => bits_vars env a
  | ?x =>
      lazymatch bits_mem x env with
      | true => env
      | false => let w := bits_wid x in constr:((x, w) :: env)
      end
  end.

Ltac bits_quote env t :=
  lazymatch t with
  | 0 => constr:(BZero)
  | Z.land ?a ?m => let a := bits_quote env a in constr:(BAnd a m)
  | Z.lor ?a ?b =>
      let a := bits_quote env a in
      let b := bits_quote env b in constr:(BOr a b)
  | Z.shiftl ?a ?n => let a := bits_quote env a in constr:(BShl a n)
  | Z.shiftr ?a ?n => let a := bits_quote env a in constr:(BShr a n)
  | u8 ?a => let a := bits_quote env a in constr:(BMod a 8)
  | u16 ?a => let a := bits_quote env a in constr:(BMod a 16)
  | u32 ?a => let a := bits_quote env a in constr:(BMod a 32)
  | u64 ?a => let a := bits_quote env a in constr:(BMod a 64)
  | ?x => let k := bits_index x env in constr:(BVar k)
  end.

Ltac bits_solve :=
  lazymatch goal with
  | |- ?x = ?y =>
      let env := bits_vars (@nil (Z * Z)) x in
      let env := bits_vars env y in
      let ex := bits_quote env x in
      let ey := bits_quote env y in
      change (bdenote env ex = bdenote env ey);
      apply bequal_sound;
      [ repeat (apply List.Forall_cons; [unfold byte_ok in *; simpl; lia|]);
        apply List.Forall_nil
      | vm_compute; reflexivity ]
  end.

(** ** Facts about masks used by branch conditions *)

Lemma land_bit_zero x n :
  0 <= n -> (Z.land x (2 ^ n) =? 0) = negb (Z.testbit x n).
Proof.
  intros Hn. apply eq_true_iff_eq. rewrite Z.eqb_eq, negb_true_iff. split.
  - intros H. assert (Z.testbit (Z.land x (2 ^ n)) n = false) as Hb.
    { rewrite H. apply Z.bits_0. }
    rewrite Z.land_spec, Z.pow2_bits_true, andb_true_r in Hb; done.
  - intros H. apply Z.bits_inj'. intros i Hi.
    rewrite Z.land_spec, Z.bits_0. destruct (decide (i = n)) as [->|].
    + by rewrite H.
    + rewrite Z.pow2_bits_false by done. apply andb_false_r.
Qed.

Lemma byte_testbit_7 b : byte_ok b -> Z.testbit b 7 = negb (b <? 128).
Proof.
  unfold byte_ok. intros Hb. destruct (Z.ltb_spec b 128).
  - rewrite (testbit_above 7 b 7) by lia. done.
  - replace b with (128 + (b - 128)) by lia.
    rewrite Z.testbit_true by lia.
    replace (128 + (b - 128)) with (1 * 2 ^ 7 + (b - 128)) by lia.
    rewrite Z.div_add_l by lia. rewrite Z.div_small by lia. done.
Qed.

Lemma lor_range x y n :
  0 <= n -> 0 <= x < 2 ^ n -> 0 <= y < 2 ^ n -> 0 <= Z.lor x y < 2 ^ n.
Proof.
  intros Hn Hx Hy.
  assert (0 <= Z.lor x y) by (apply Z.lor_nonneg; lia).
  split; [done|].
  replace (Z.lor x y) with ((Z.lor x y) mod 2 ^ n).
  { apply Z.mod_pos_bound. lia. }
  apply Z.bits_inj'. intros i Hi. rewrite Z.testbit_mod_pow2 by done.
  rewrite Z.lor_spec. destruct (Z.ltb_spec i n); [done|].
  by rewrite (testbit_above n x), (testbit_above n y).
Qed.

Lemma lxor_range x y n :
  0 <= n -> 0 <= x < 2 ^ n -> 0 <= y < 2 ^ n -> 0 <= Z.lxor x y < 2 ^ n.
Proof.
  intros Hn Hx Hy. assert (0 <= Z.lxor x y) by (apply Z.lxor_nonneg; lia). split; [done|].
  replace (Z.lxor x y) with ((Z.lxor x y) mod 2 ^ n); [apply Z.mod_pos_bound; lia|].
  apply Z.bits_inj'. intros i Hi. rewrite Z.testbit_mod_pow2 by done.
  rewrite Z.lxor_spec. destruct (Z.ltb_spec i n); [done|].
  by rewrite (testbit_above n x), (testbit_above n y).
Qed.

Lemma lor_disjoint_add x y n :
  0 <= n -> 0 <= y < 2 ^ n -> Z.lor (Z.shiftl x n) y = x * 2 ^ n + y.
Proof.
  intros Hn Hy. rewrite Z.shiftl_mul_pow2 by done.
  symmetry. rewrite Z.add_nocarry_lxor.
  - apply Z.lxor_lor. apply Z.bits_inj'. intros i Hi.
    rewrite Z.land_spec, Z.bits_0. destruct (Z.ltb_spec i n).
    + by rewrite Z.mul_pow2_bits_low.
    + by rewrite (testbit_above n y), andb_false_r.
  - apply Z.bits_inj'. intros i Hi.
    rewrite Z.land_spec, Z.bits_0. destruct (Z.ltb_spec i n).
    + by rewrite Z.mul_pow2_bits_low.
    + by rewrite (testbit_above n y), andb_false_r.
Qed.

Lemma lxor_disjoint_add x y n :
  0 <= n -> 0 <= y < 2 ^ n -> Z.lxor (Z.shiftl x n) y = x * 2 ^ n + y.
Proof.
  intros Hn Hy. rewrite <- lor_disjoint_add by done.
  apply Z.lxor_lor. apply Z.bits_inj'. intros i Hi. rewrite Z.land_spec, Z.bits_0.
  destruct (Z.ltb_spec i n).
  - by rewrite Z.shiftl_spec_low.
  - by rewrite (testbit_above n y), andb_false_r.
Qed.

(** [acc*128 + b mod 128] as the code writes it. *)
Lemma shift7_add x b :
  x * 128 + b mod 128 = Z.lor (Z.shiftl x 7) (Z.land b 0x7f).
Proof.
  change 0x7f with (Z.ones 7). rewrite Z.land_ones by lia.
  rewrite lor_disjoint_add; [done|lia|]. apply Z.mod_pos_bound. lia.
Qed.

Lemma shift8_add x b :
  byte_ok b -> x * 256 + b = Z.lor (Z.shiftl x 8) b.
Proof. intros. by rewrite lor_disjoint_add. Qed.

(** The test [!(x & 0x80)] on a register whose low byte is [b]. *)
Lemma low_byte_flag x b k :
  7 < k -> byte_ok b ->
  (Z.land (Z.lor (u32 (Z.shiftl x k)) b) 0x80 =? 0) = (b <? 128).
Proof.
  intros Hk Hb. change 0x80 with (2 ^ 7).
  rewrite land_bit_zero by lia. unfold u32.
  rewrite Z.lor_spec, Z.testbit_mod_pow2, Z.shiftl_spec by lia.
  rewrite Z.testbit_neg_r by lia.
  rewrite andb_false_r, byte_testbit_7 by done. simpl. apply negb_involutive.
Qed.

Lemma byte_flag b : byte_ok b -> (Z.land b 0x80 =? 0) = (b <? 128).
Proof.
  intros Hb. change 0x80 with (2 ^ 7).
  rewrite land_bit_zero, byte_testbit_7, negb_involutive by (done || lia). done.
Qed.
