(* ===== verification/Varint.v ===== *)
(** Variable-length integers (util.c): [sqlite3PutVarint], the unrolled decoders
    [sqlite3GetVarint] and [sqlite3GetVarint32], and [sqlite3VarintLen]. *)
From S2P Require Import Prelude.
From S2P Require Import Bits.
Open Scope Z_scope.

(** [buf[n++] = (u8)((v & 0x7f) | 0x80); v >>= 7] until [v] is zero: the
    groups of seven bits of [v], least significant first, flag bit set. *)
Fixpoint varint_groups (fuel : nat) (v : Z) : list Z :=
  match fuel with
  | O => []
  | S fuel =>
      let b := u8 (Z.lor (Z.land v 0x7f) 0x80) in
      let v := Z.shiftr v 7 in
      b :: (if v =? 0 then [] else varint_groups fuel v)
  end.

(** The loop [for(i=7; i>=0; i--){ p[i] = ...; v >>= 7; }]. *)
Fixpoint varint_fill (n : nat) (v : Z) (acc : list Z) : list Z :=
  match n with
  | O => acc
  | S n =>
      varint_fill n (Z.shiftr v 7) (u8 (Z.lor (Z.land v 0x7f) 0x80) :: acc)
  end.

Definition putVarint64 (v : Z) : list Z :=
  if negb (Z.land v (Z.shiftl 0xff000000 32) =? 0) then
    varint_fill 8 (Z.shiftr v 8) [u8 v]
  else
    match varint_groups 10 v with
    | [] => []
    | b0 :: bs => rev (Z.land b0 0x7f :: bs)
    end.

(** The bytes written at [p]; the C function returns their number. *)
Definition sqlite3PutVarint (v : Z) : list Z :=
  if v <=? 0x7f then [Z.land v 0x7f]
  else if v <=? 0x3fff then
    [Z.lor (Z.land (Z.shiftr v 7) 0x7f) 0x80; Z.land v 0x7f]
  else putVarint64 v.

Definition SLOT_2_0 : Z := 0x001fc07f.
Definition SLOT_4_2_0 : Z := 0xf01fc07f.

(** [*v = ((u64)s)<<32 | a] *)
Definition join32 (s a : Z) : Z := Z.lor (u64 (Z.shiftl s 32)) a.

Definition sqlite3GetVarint (p : list Z) : option (Z * Z) :=
  p0 ← p.[0];
  if p0 <? 0x80 then Some (1, p0) else
  p1 ← p.[1];
  if p1 <? 0x80 then
    Some (2, Z.lor (Z.shiftl (Z.land p0 0x7f) 7) p1)
  else
  p2 ← p.[2];
  let a := u32 (Z.shiftl p0 14) in
  let b := p1 in
  let a := Z.lor a p2 in
  if Z.land a 0x80 =? 0 then
    let a := Z.land a SLOT_2_0 in
    let b := Z.land b 0x7f in
    let b := u32 (Z.shiftl b 7) in
    let a := Z.lor a b in
    Some (3, a)
  else
  let a := Z.land a SLOT_2_0 in
  p3 ← p.[3];
  let b := u32 (Z.shiftl b 14) in
  let b := Z.lor b p3 in
  if Z.land b 0x80 =? 0 then
    let b := Z.land b SLOT_2_0 in
    let a := u32 (Z.shiftl a 7) in
    let a := Z.lor a b in
    Some (4, a)
  else
  let b := Z.land b SLOT_2_0 in
  let s := a in
  p4 ← p.[4];
  let a := u32 (Z.shiftl a 14) in
  let a := Z.lor a p4 in
  if Z.land a 0x80 =? 0 then
    let b := u32 (Z.shiftl b 7) in
    let a := Z.lor a b in
    let s := Z.shiftr s 18 in
    Some (5, join32 s a)
  else
  let s := u32 (Z.shiftl s 7) in
  let s := Z.lor s b in
  p5 ← p.[5];
  let b := u32 (Z.shiftl b 14) in
  let b := Z.lor b p5 in
  if Z.land b 0x80 =? 0 then
    let a := Z.land a SLOT_2_0 in
    let a := u32 (Z.shiftl a 7) in
    let a := Z.lor a b in
    let s := Z.shiftr s 18 in
    Some (6, join32 s a)
  else
  p6 ← p.[6];
  let a := u32 (Z.shiftl a 14) in
  let a := Z.lor a p6 in
  if Z.land a 0x80 =? 0 then
    let a := Z.land a SLOT_4_2_0 in
    let b := Z.land b SLOT_2_0 in
    let b := u32 (Z.shiftl b 7) in
    let a := Z.lor a b in
    let s := Z.shiftr s 11 in
    Some (7, join32 s a)
  else
  let a := Z.land a SLOT_2_0 in
  p7 ← p.[7];
  let b := u32 (Z.shiftl b 14) in
  let b := Z.lor b p7 in
  if Z.land b 0x80 =? 0 then
    let b := Z.land b SLOT_4_2_0 in
    let a := u32 (Z.shiftl a 7) in
    let a := Z.lor a b in
    let s := Z.shiftr s 4 in
    Some (8, join32 s a)
  else
  p8 ← p.[8];
  let a := u32 (Z.shiftl a 15) in
  let a := Z.lor a p8 in
  let b := Z.land b SLOT_2_0 in
  let b := u32 (Z.shiftl b 8) in
  let a := Z.lor a b in
  let s := u32 (Z.shiftl s 4) in
  let b := p4 in
  let b := Z.land b 0x7f in
  let b := Z.shiftr b 3 in
  let s := Z.lor s b in
  Some (9, join32 s a).

(** The compiled body of [sqlite3GetVarint32]: the macro [getVarint32] is
    defined, so the one-byte case is not part of the function. *)
Definition sqlite3GetVarint32 (p : list Z) : option (Z * Z) :=
  a ← p.[0];
  b ← p.[1];
  if Z.land b 0x80 =? 0 then
    let a := Z.land a 0x7f in
    let a := u32 (Z.shiftl a 7) in
    Some (2, Z.lor a b)
  else
  p2 ← p.[2];
  let a := u32 (Z.shiftl a 14) in
  let a := Z.lor a p2 in
  if Z.land a 0x80 =? 0 then
    let a := Z.land a (Z.lor (Z.shiftl 0x7f 14) 0x7f) in
    let b := Z.land b 0x7f in
    let b := u32 (Z.shiftl b 7) in
    Some (3, Z.lor a b)
  else
  '(n, v64) ← sqlite3GetVarint p;
  if negb (Z.land v64 0xffffffff =? v64) then Some (n, 0xffffffff)
  else Some (n, u32 v64).

(** The macro every caller uses. *)
Definition getVarint32 (p : list Z) : option (Z * Z) :=
  a ← p.[0];
  if a <? 0x80 then Some (1, a) else sqlite3GetVarint32 p.

(** [for(i=1; (v >>= 7)!=0; i++)] *)
Fixpoint varint_len_loop (fuel : nat) (v i : Z) : Z :=
  match fuel with
  | O => i
  | S fuel =>
      let v := Z.shiftr v 7 in
      if v =? 0 then i else varint_len_loop fuel v (i + 1)
  end.

Definition sqlite3VarintLen (v : Z) : Z := varint_len_loop 10 v 1.

(** * Reference decoding

    The file format's description: base-128 digits, most significant first,
    with the high bit of a byte telling that more digits follow; a ninth byte
    carries eight bits. *)

Fixpoint varint_ref (more : nat) (len acc : Z) (p : list Z) : option (Z * Z) :=
  match p with
  | [] => None
  | b :: p =>
      match more with
      | O => Some (len, acc * 256 + b)
      | S more =>
          let acc := acc * 128 + b mod 128 in
          if b <? 128 then Some (len, acc) else varint_ref more (len + 1) acc p
      end
  end.

Definition varint_decode (p : list Z) : option (Z * Z) := varint_ref 8 1 0 p.

Lemma varint_ref_app more : forall len acc l l' r, varint_ref more len acc l = Some r -> varint_ref more len acc (l ++ l') = Some r.
Proof.
  induction more as [|more IH]; intros len acc [|b l] l' r; cbn [varint_ref app]; try done. case_match; [done|]. apply IH.
Qed.

Lemma varint_ref_S more len acc b p :
  varint_ref (S more) len acc (b :: p) =
  if b <? 128 then Some (len, acc * 128 + b mod 128)
  else varint_ref more (len + 1) (acc * 128 + b mod 128) p.
Proof. done. Qed.

Ltac zget_eval :=
  repeat match goal with
  | |- context [@zget ?A (?x :: ?l) ?i] =>
      let v := eval lazy in (@zget A (x :: l) i) in
      lazymatch v with Some _ => change (@zget A (x :: l) i) with v end
  end; cbn [mbind option_bind].

(** One byte of the unrolled decoder: the byte [b] ends the number, and the
    registers hold the same bits as the reference, or it does not. *)
Ltac varint_case b :=
  rewrite varint_ref_S; try (rewrite low_byte_flag by (done || lia));
  destruct (Z.ltb_spec b 128);
  [ assert (0 <= b < 128) by (unfold byte_ok in *; lia);
    do 2 f_equal; rewrite ?shift7_add; unfold join32, SLOT_2_0, SLOT_4_2_0; bits_solve
  | ].

Ltac varint_byte p Hp b Hb :=
  destruct p as [|b p]; [done|apply Forall_cons_1 in Hp as [Hb Hp]];
  zget_eval; varint_case b.

Lemma getVarint_decode p :
  bytes_ok p -> sqlite3GetVarint p = varint_decode p.
Proof.
  intros Hp. unfold sqlite3GetVarint, varint_decode.
  varint_byte p Hp p0 B0.
  varint_byte p Hp p1 B1.
  varint_byte p Hp p2 B2.
  varint_byte p Hp p3 B3.
  varint_byte p Hp p4 B4.
  varint_byte p Hp p5 B5.
  varint_byte p Hp p6 B6.
  varint_byte p Hp p7 B7.
  destruct p as [|p8 p]; [done|apply Forall_cons_1 in Hp as [B8 Hp]].
  zget_eval. cbn [varint_ref]. rewrite shift8_add, !shift7_add by done.
  do 2 f_equal. unfold join32, SLOT_2_0. bits_solve.
Qed.

(** * Writing a varint and reading it back *)

(** Everything the proofs need to know about one written byte. *)
Lemma varint_flag_byte v :
  u8 (Z.lor (Z.land v 0x7f) 0x80) = 128 + v mod 128.
Proof.
  pose proof (Z.mod_pos_bound v 128 ltac:(lia)).
  assert (Z.lor 128 (v mod 128) = 128 + v mod 128) as E.
  { apply (lor_disjoint_add 1 (v mod 128) 7); lia. }
  rewrite Z.lor_comm. change 0x7f with (Z.ones 7).
  rewrite Z.land_ones by lia. change (2 ^ 7) with 128.
  rewrite E. apply u8_small. lia.
Qed.

Lemma varint_last_byte v : Z.land v 0x7f = v mod 128.
Proof. change 0x7f with (Z.ones 7). by rewrite Z.land_ones by lia. Qed.

Lemma varint_shift v : Z.shiftr v 7 = v / 128.
Proof. by rewrite Z.shiftr_div_pow2 by lia. Qed.

Lemma varint_ref_flag more len acc v p :
  varint_ref (S more) len acc (128 + v mod 128 :: p) =
  varint_ref more (len + 1) (acc * 128 + v mod 128) p.
Proof.
  rewrite varint_ref_S. pose proof (Z.mod_pos_bound v 128).
  destruct (Z.ltb_spec (128 + v mod 128) 128); [lia|].
  f_equal. f_equal. replace (128 + v mod 128) with (v mod 128 + 1 * 128) by lia.
  by rewrite Z.mod_add, Z.mod_mod by lia.
Qed.

Lemma varint_groups_S fuel v :
  varint_groups (S fuel) v =
  (128 + v mod 128) :: (if v / 128 =? 0 then [] else varint_groups fuel (v / 128)).
Proof. cbn [varint_groups]. by rewrite varint_flag_byte, varint_shift. Qed.

(** Reading the flagged digits of [v] appends them to the accumulator. *)
Lemma varint_ref_fill n more v len acc p :
  0 <= v < 128 ^ Z.of_nat n ->
  varint_ref (n + more) len acc (varint_fill n v p) =
  varint_ref more (len + Z.of_nat n) (acc * 128 ^ Z.of_nat n + v) p.
Proof.
  revert v more p. induction n as [|n IH]; intros v more p Hv.
  { simpl. change (128 ^ Z.of_nat 0) with 1 in *. f_equal; lia. }
  rewrite Nat2Z.inj_succ, Z.pow_succ_r in * by lia.
  cbn [varint_fill]. rewrite varint_flag_byte, varint_shift.
  replace (S n + more)%nat with (n + S more)%nat by lia.
  rewrite IH, varint_ref_flag.
  - f_equal; [lia|]. pose proof (Z.div_mod v 128). lia.
  - split; [apply Z.div_pos; lia|apply Z.div_lt_upper_bound; lia].
Qed.

Lemma varint_ref_groups fuel v more len acc p :
  (fuel <= more)%nat -> 0 <= v < 128 ^ Z.of_nat fuel -> (0 < fuel)%nat ->
  exists n : nat,
  ((n <= fuel)%nat /\ length (varint_groups fuel v) = n) /\
  varint_ref more len acc (rev (varint_groups fuel v) ++ p) =
  varint_ref (more - n) (len + Z.of_nat n) (acc * 128 ^ Z.of_nat n + v) p.
Proof.
  revert v more p. induction fuel as [|fuel IH]; intros v more p Hm Hv Hf; [lia|].
  cbn [varint_groups]. rewrite varint_flag_byte, varint_shift.
  rewrite Nat2Z.inj_succ, Z.pow_succ_r in Hv by lia.
  destruct (Z.eqb_spec (v / 128) 0) as [E|E].
  - exists 1%nat. split; [split; [lia|done]|].
    destruct more as [|more]; [lia|].
    cbn [rev app]. rewrite varint_ref_flag.
    replace (S more - 1)%nat with more by lia.
    f_equal. change (128 ^ Z.of_nat 1) with 128.
    pose proof (Z.div_mod v 128). lia.
  - assert (0 < fuel)%nat.
    { destruct fuel; [|lia]. change (128 ^ Z.of_nat 0) with 1 in Hv.
      rewrite Z.div_small in E; lia. }
    assert (0 <= v / 128 < 128 ^ Z.of_nat fuel) as Hv'.
    { split; [apply Z.div_pos; lia|apply Z.div_lt_upper_bound; lia]. }
    destruct (IH (v / 128) more (128 + v mod 128 :: p)) as (n & [Hn Hl] & Heq);
      [lia|done..|].
    exists (S n). split; [split; [lia|simpl; by rewrite Hl]|].
    cbn [rev]. rewrite <- app_assoc. cbn [app]. rewrite Heq.
    destruct (more - n)%nat as [|m] eqn:Hmn; [lia|].
    rewrite varint_ref_flag. rewrite Nat2Z.inj_succ, Z.pow_succ_r by lia.
    replace (more - S n)%nat with m by lia. f_equal; [lia|].
    pose proof (Z.div_mod v 128). lia.
Qed.

(** The guard of the nine-byte form: a bit of the top byte is set. *)
Lemma varint_top_byte v :
  0 <= v < 2 ^ 64 ->
  (Z.land v (Z.shiftl 0xff000000 32) =? 0) = (v <? 2 ^ 56).
Proof.
  intros Hv. change (Z.shiftl 0xff000000 32) with (Z.shiftl (Z.ones 8) 56).
  assert (Z.land v (Z.shiftl (Z.ones 8) 56) = Z.shiftl (Z.shiftr v 56) 56) as ->.
  { apply Z.bits_inj'. intros i Hi. rewrite Z.land_spec.
    rewrite !Z.shiftl_spec by done. destruct (Z.ltb_spec i 56).
    { rewrite !(Z.testbit_neg_r _ (i - 56)) by lia. apply andb_false_r. }
    rewrite Z.shiftr_spec by lia. replace (i - 56 + 56) with i by lia.
    destruct (Z.ltb_spec i 64).
    - rewrite Z.ones_spec_low by lia. apply andb_true_r.
    - rewrite (testbit_above 64 v i) by lia. done. }
  rewrite Z.shiftl_mul_pow2, Z.shiftr_div_pow2 by lia.
  destruct (Z.ltb_spec v (2 ^ 56)).
  - rewrite Z.div_small by lia. done.
  - apply Z.eqb_neq. assert (1 <= v / 2 ^ 56); [|lia].
    apply Z.div_le_lower_bound; lia.
Qed.

Lemma zlen_varint_fill n v p : zlen (varint_fill n v p) = Z.of_nat n + zlen p.
Proof.
  revert v p. induction n as [|n IH]; intros v p; cbn [varint_fill]; [lia|].
  rewrite IH, zlen_cons. lia.
Qed.

(** Fuel beyond the number of digits is not used. *)
Lemma varint_groups_fuel n k v :
  0 <= v < 128 ^ Z.of_nat n -> (0 < n)%nat ->
  varint_groups (n + k) v = varint_groups n v.
Proof.
  revert v. induction n as [|n IH]; intros v Hv Hn; [lia|].
  cbn [Nat.add varint_groups]. rewrite varint_shift.
  rewrite Nat2Z.inj_succ, Z.pow_succ_r in Hv by lia.
  f_equal. destruct (Z.eqb_spec (v / 128) 0) as [E|E]; [done|].
  apply IH.
  - split; [apply Z.div_pos; lia|apply Z.div_lt_upper_bound; lia].
  - destruct n; [|lia]. change (128 ^ Z.of_nat 0) with 1 in Hv.
    rewrite Z.div_small in E; lia.
Qed.

Lemma putVarint64_decode v p :
  0x3fff < v < 2 ^ 64 ->
  varint_decode (putVarint64 v ++ p) = Some (zlen (putVarint64 v), v).
Proof.
  intros Hv. unfold varint_decode, putVarint64.
  rewrite varint_top_byte by lia. destruct (Z.ltb_spec v (2 ^ 56)) as [H|H]; simpl negb; cbv iota.
  - rewrite (varint_groups_S 9). destruct (Z.eqb_spec (v / 128) 0) as [E|E].
    { assert (1 <= v / 128); [apply Z.div_le_lower_bound|]; lia. }
    assert (Hq : 0 <= v / 128 < 128 ^ Z.of_nat 7).
    { split; [apply Z.div_pos|apply Z.div_lt_upper_bound]; lia. }
    change 9%nat with (7 + 2)%nat.
    rewrite (varint_groups_fuel 7 2) by (done || lia).
    rewrite varint_last_byte.
    replace (128 + v mod 128) with (v mod 128 + 1 * 128) by lia.
    rewrite Z.mod_add, Z.mod_mod by lia.
    cbn [rev]. rewrite <- app_assoc. cbn [app].
    destruct (varint_ref_groups 7 (v / 128) 8 1 0 (v mod 128 :: p))
      as (n & [Hn Hlen] & ->); [lia|done|lia|].
    destruct (8 - n)%nat as [|m] eqn:Hm; [lia|].
    rewrite varint_ref_S. pose proof (Z.mod_pos_bound v 128 ltac:(lia)).
    destruct (Z.ltb_spec (v mod 128) 128); [|lia].
    unfold zlen. rewrite length_app, length_rev, Hlen. cbn [length].
    rewrite Z.mod_mod by lia. pose proof (Z.div_mod v 128).
    do 2 f_equal; lia.
  - assert (Happ : forall n w l, varint_fill n w l ++ p = varint_fill n w (l ++ p)).
    { intros n. induction n as [|n IH]; intros w l; [done|].
      cbn [varint_fill]. by rewrite IH. }
    rewrite Happ, zlen_varint_fill. clear Happ. cbn [app].
    assert (Hq : 0 <= v / 2 ^ 8 < 128 ^ Z.of_nat 8).
    { split; [apply Z.div_pos|apply Z.div_lt_upper_bound]; lia. }
    rewrite Z.shiftr_div_pow2 by lia.
    rewrite (varint_ref_fill 8 0) by done. cbn [varint_ref].
    unfold u8. pose proof (Z.div_mod v (2 ^ 8)). do 2 f_equal; lia.
Qed.

Lemma putVarint_bytes v : 0 <= v -> bytes_ok (sqlite3PutVarint v).
Proof.
  assert (Hlow : forall w, 0 <= w mod 128 < 128)
    by (intros; apply Z.mod_pos_bound; lia).
  assert (Hflag : forall w, byte_ok (u8 (Z.lor (Z.land w 0x7f) 0x80)))
    by (intros; apply u8_ok).
  assert (Hfill : forall n w l, bytes_ok l -> bytes_ok (varint_fill n w l)).
  { intros n. induction n as [|n IH]; intros w l Hl; [done|].
    cbn [varint_fill]. apply IH. by constructor. }
  assert (Hgrp : forall n w, bytes_ok (varint_groups n w)).
  { intros n. induction n as [|n IH]; intros w; [constructor|].
    cbn [varint_groups]. constructor; [done|]. by case_match; [constructor|]. }
  intros Hv. unfold sqlite3PutVarint, putVarint64.
  destruct (Z.leb_spec v 0x7f); [|destruct (Z.leb_spec v 0x3fff)].
  - repeat constructor; rewrite varint_last_byte; pose proof (Hlow v); lia.
  - pose proof (varint_flag_byte (Z.shiftr v 7)) as E.
    pose proof (Hlow (Z.shiftr v 7)). pose proof (Hlow v).
    rewrite u8_small in E.
    + rewrite E, varint_last_byte. repeat constructor; lia.
    + apply (lor_range _ _ 8); [lia| |lia].
      rewrite varint_last_byte. lia.
  - case_match; [apply Hfill; repeat constructor; apply u8_ok|].
    specialize (Hgrp 10%nat v). destruct (varint_groups 10 v) as [|b bs]; [done|].
    apply Forall_cons_1 in Hgrp as [Hb Hbs].
    rewrite varint_last_byte. apply Forall_rev.
    constructor; [|done]. pose proof (Hlow b). unfold byte_ok. lia.
Qed.

Lemma putVarint_decode v p :
  0 <= v < 2 ^ 64 ->
  varint_decode (sqlite3PutVarint v ++ p) = Some (zlen (sqlite3PutVarint v), v).
Proof.
  intros Hv. unfold sqlite3PutVarint.
  destruct (Z.leb_spec v 0x7f); [|destruct (Z.leb_spec v 0x3fff)].
  - rewrite varint_last_byte, Z.mod_small by lia.
    unfold varint_decode. cbn [app varint_ref].
    destruct (Z.ltb_spec v 128); [|lia].
    rewrite Z.mod_small by lia. done.
  - rewrite varint_last_byte.
    pose proof (varint_flag_byte (Z.shiftr v 7)) as E.
    pose proof (Z.mod_pos_bound v 128 ltac:(lia)).
    pose proof (Z.div_mod v 128 ltac:(lia)).
    assert (v / 128 < 128) by (apply Z.div_lt_upper_bound; lia).
    assert (0 <= v / 128) by (apply Z.div_pos; lia).
    rewrite u8_small in E; rewrite varint_shift, ?varint_last_byte in *.
    2: { apply (lor_range _ _ 8); [lia| |lia]. rewrite Z.mod_small; lia. }
    rewrite E. unfold varint_decode. cbn [app].
    rewrite varint_ref_flag, varint_ref_S.
    destruct (Z.ltb_spec (v mod 128) 128); [|lia].
    rewrite (Z.mod_small (v / 128)), Z.mod_mod by lia.
    unfold zlen. cbn [length]. do 2 f_equal; lia.
  - apply putVarint64_decode. lia.
Qed.

(** ** The 32-bit reader *)

Lemma varint_ref_nonneg more len acc p n v :
  0 <= acc -> bytes_ok p -> varint_ref more len acc p = Some (n, v) -> 0 <= v.
Proof.
  revert len acc p. induction more as [|more IH]; intros len acc p Ha Hp;
    (destruct p as [|b p]; [done|]); apply Forall_cons_1 in Hp as [Hb Hp];
    unfold byte_ok in Hb; cbn [varint_ref]; [intros; simplify_eq; lia|].
  pose proof (Z.mod_pos_bound b 128 ltac:(lia)).
  case_match; [intros; simplify_eq; lia|]. apply IH; [lia|done].
Qed.

Lemma getVarint32_min p :
  bytes_ok p ->
  getVarint32 p =
  '(n, v) ← varint_decode p; Some (n, Z.min v 0xffffffff).
Proof.
  intros Hp. pose proof (getVarint_decode p Hp) as Hget.
  unfold getVarint32, sqlite3GetVarint32. unfold varint_decode in *.
  destruct p as [|p0 p]; [done|].
  pose proof Hp as Hp'. apply Forall_cons_1 in Hp' as [B0 Hp0].
  pose proof (Z.mod_pos_bound p0 128 ltac:(lia)).
  zget_eval. rewrite varint_ref_S.
  destruct (Z.ltb_spec p0 128); cbn [mbind option_bind].
  { rewrite Z.mod_small by (unfold byte_ok in *; lia). do 2 f_equal. lia. }
  destruct p as [|p1 p]; [done|]. apply Forall_cons_1 in Hp0 as [B1 Hp1].
  pose proof (Z.mod_pos_bound p1 128 ltac:(lia)).
  zget_eval. rewrite varint_ref_S, byte_flag by done.
  destruct (Z.ltb_spec p1 128); cbn [mbind option_bind].
  { rewrite Z.min_l by lia. assert (0 <= p1 < 128) by (unfold byte_ok in *; lia).
    do 2 f_equal. rewrite !shift7_add. bits_solve. }
  destruct p as [|p2 p]; [done|]. apply Forall_cons_1 in Hp1 as [B2 Hp2].
  pose proof (Z.mod_pos_bound p2 128 ltac:(lia)).
  zget_eval. rewrite varint_ref_S, low_byte_flag by (done || lia).
  destruct (Z.ltb_spec p2 128); cbn [mbind option_bind].
  { rewrite Z.min_l by lia. assert (0 <= p2 < 128) by (unfold byte_ok in *; lia).
    do 2 f_equal. rewrite !shift7_add. bits_solve. }
  rewrite Hget, !varint_ref_S.
  destruct (Z.ltb_spec p0 128), (Z.ltb_spec p1 128), (Z.ltb_spec p2 128); try lia.
  destruct (varint_ref 5 _ _ p) as [[n v]|] eqn:E; [|done].
  cbn [mbind option_bind].
  assert (0 <= v) by (eapply varint_ref_nonneg; [|apply Hp2|apply E]; lia).
  change 0xffffffff with (Z.ones 32). rewrite Z.land_ones by lia.
  destruct (Z.eqb_spec (v mod 2 ^ 32) v) as [Em|Em]; simpl negb; cbv iota.
  - pose proof (Z.mod_pos_bound v (2 ^ 32) ltac:(lia)).
    unfold u32. rewrite Em, Z.min_l; [done|]. change (Z.ones 32) with (2 ^ 32 - 1). lia.
  - rewrite Z.min_r; [done|]. change (Z.ones 32) with (2 ^ 32 - 1).
    destruct (Z.ltb_spec v (2 ^ 32)); [|lia].
    destruct Em. apply Z.mod_small. lia.
Qed.

(** ** Lengths *)

Lemma varint_len_loop_S fuel v i :
  varint_len_loop (S fuel) v i =
  if v / 128 =? 0 then i else varint_len_loop fuel (v / 128) (i + 1).
Proof. cbn [varint_len_loop]. by rewrite varint_shift. Qed.

Lemma varint_len_loop_groups fuel v i :
  varint_len_loop (S fuel) v i = i - 1 + zlen (varint_groups (S fuel) v) \/
  128 ^ (Z.of_nat fuel + 1) <= v \/ v < 0.
Proof.
  revert v i. induction fuel as [|fuel IH]; intros v i;
    rewrite varint_len_loop_S, varint_groups_S.
  - destruct (Z.eqb_spec (v / 128) 0) as [E|E]; [left; rewrite zlen_cons, zlen_nil; lia|].
    right. destruct (Z.ltb_spec v 0); [by right|left].
    change (128 ^ (Z.of_nat 0 + 1)) with 128.
    destruct (Z.ltb_spec v 128); [|done]. by rewrite Z.div_small in E.
  - destruct (Z.eqb_spec (v / 128) 0) as [E|E]; [left; rewrite zlen_cons, zlen_nil; lia|].
    destruct (IH (v / 128) (i + 1)) as [H|[H|H]].
    + left. rewrite H, zlen_cons. lia.
    + right. left. rewrite Nat2Z.inj_succ.
      replace (Z.succ (Z.of_nat fuel) + 1) with (Z.succ (Z.of_nat fuel + 1)) by lia.
      rewrite Z.pow_succ_r by lia. pose proof (Z.div_mod v 128).
      pose proof (Z.mod_pos_bound v 128). lia.
    + right. right. destruct (Z.ltb_spec v 0); [done|].
      pose proof (Z.div_pos v 128). lia.
Qed.

(** Lower bounds on a value force the loop to run. *)
Lemma varint_len_loop_ge n fuel v i :
  (n <= fuel)%nat -> 128 ^ Z.of_nat n <= v ->
  varint_len_loop (S fuel) v i = varint_len_loop (S fuel - n) (v / 128 ^ Z.of_nat n) (i + Z.of_nat n).
Proof.
  revert fuel v i. induction n as [|n IH]; intros fuel v i Hf Hv.
  { change (128 ^ Z.of_nat 0) with 1 in *. rewrite Z.div_1_r, Z.add_0_r. done. }
  rewrite Nat2Z.inj_succ, Z.pow_succ_r in * by lia.
  assert (0 < 128 ^ Z.of_nat n) by (apply Z.pow_pos_nonneg; lia).
  rewrite varint_len_loop_S.
  assert (128 ^ Z.of_nat n <= v / 128) by (apply Z.div_le_lower_bound; lia).
  destruct (Z.eqb_spec (v / 128) 0); [lia|].
  destruct fuel as [|fuel]; [lia|].
  rewrite IH by lia. rewrite Z.div_div by lia. f_equal; lia.
Qed.

Lemma putVarint_len v :
  0 <= v < 2 ^ 64 ->
  zlen (sqlite3PutVarint v) = if v <? 2 ^ 63 then sqlite3VarintLen v else 9.
Proof.
  intros Hv. unfold sqlite3VarintLen.
  assert (Hle : forall n, zlen (varint_groups (S n) v) = varint_len_loop (S n) v 1 \/
              128 ^ (Z.of_nat n + 1) <= v).
  { intros n. destruct (varint_len_loop_groups n v 1) as [?|[?|?]]; lia. }
  destruct (Z.ltb_spec v (2 ^ 56)).
  - destruct (Z.ltb_spec v (2 ^ 63)); [|lia].
    destruct (Hle 9%nat) as [E|E]; [|change (128 ^ _) with (2 ^ 70) in E; lia].
    rewrite <- E. unfold sqlite3PutVarint.
    destruct (Z.leb_spec v 0x7f); [|destruct (Z.leb_spec v 0x3fff)].
    + rewrite varint_groups_S, Z.div_small by lia. done.
    + rewrite !varint_groups_S. rewrite (Z.div_small (v / 128) 128).
      * assert (1 <= v / 128) by (apply Z.div_le_lower_bound; lia).
        by destruct (Z.eqb_spec (v / 128) 0); [lia|].
      * split; [apply Z.div_pos|apply Z.div_lt_upper_bound]; lia.
    + unfold putVarint64. rewrite varint_top_byte by lia.
      destruct (Z.ltb_spec v (2 ^ 56)); [|lia]. simpl negb. cbv iota.
      destruct (varint_groups 10 v); [done|].
      unfold zlen. by rewrite length_rev.
  - unfold sqlite3PutVarint, putVarint64. rewrite varint_top_byte by lia.
    destruct (Z.leb_spec v 0x7f), (Z.leb_spec v 0x3fff), (Z.ltb_spec v (2 ^ 56)); try lia.
    simpl negb. cbv iota. rewrite zlen_varint_fill.
    destruct (Z.ltb_spec v (2 ^ 63)); [|done].
    rewrite (varint_len_loop_ge 8 9) by (change (128 ^ Z.of_nat 8) with (2 ^ 56); lia).
    cbn [Nat.sub]. rewrite varint_len_loop_S. change (128 ^ Z.of_nat 8) with (2 ^ 56).
    rewrite Z.div_div, (Z.div_small v) by lia. done.
Qed.

Lemma varint_len_below k v : (0 < k <= 9)%nat -> 0 <= v < 128 ^ Z.of_nat k -> 1 <= sqlite3VarintLen v <= Z.of_nat k.
Proof.
  intros Hk Hv. unfold sqlite3VarintLen.
  assert (H : forall fuel n w i, (0 < n <= fuel)%nat -> 0 <= w < 128 ^ Z.of_nat n -> i <= varint_len_loop fuel w i <= i + Z.of_nat n - 1).
  { clear. induction fuel as [|fuel IH]; intros n w i Hn Hw; [lia|]. rewrite varint_len_loop_S.
    destruct (Z.eqb_spec (w / 128) 0) as [|Hz]; [lia|]. destruct n as [|[|n]]; [lia| |].
    - change (128 ^ Z.of_nat 1) with 128 in Hw. rewrite Z.div_small in Hz by lia. lia.
    - rewrite (Nat2Z.inj_succ (S n)), Z.pow_succ_r in Hw by lia.
      specialize (IH (S n) (w / 128) (i + 1) ltac:(lia)). rewrite !Nat2Z.inj_succ in *.
      assert (0 <= w / 128 < 128 ^ Z.succ (Z.of_nat n)) by (split; [apply Z.div_pos; lia|apply Z.div_lt_upper_bound; lia]).
      specialize (IH ltac:(done)). lia. }
  specialize (H 10%nat k v 1 ltac:(lia) Hv). lia.
Qed.

Lemma varint_one t : 0 <= t < 128 -> sqlite3PutVarint t = [t].
Proof using.
  intros Ht. unfold sqlite3PutVarint. rewrite (proj2 (Z.leb_le _ _)) by lia. rewrite varint_last_byte, Z.mod_small; done.
Qed.

(** For the values with the top bit set the length is one too many. *)
Lemma varintLen_top v : 2 ^ 63 <= v < 2 ^ 64 -> sqlite3VarintLen v = 10.
Proof.
  intros Hv. unfold sqlite3VarintLen.
  rewrite (varint_len_loop_ge 9 9) by (change (128 ^ Z.of_nat 9) with (2 ^ 63); lia).
  cbn [Nat.sub]. rewrite varint_len_loop_S. change (128 ^ Z.of_nat 9) with (2 ^ 63).
  rewrite Z.div_div, (Z.div_small v) by lia. done.
Qed.

(** * Properties *)

(** C22.  Variable-length integers: every 64-bit value is written in one to
    nine bytes and read back exactly, with the number of bytes written,
    whatever follows it in the buffer; [sqlite3VarintLen] announces that
    number for every value below [2^63]. *)
Theorem varint_roundtrip v p :
  0 <= v < 2 ^ 64 -> bytes_ok p ->
  sqlite3GetVarint (sqlite3PutVarint v ++ p) = Some (zlen (sqlite3PutVarint v), v) /\
  bytes_ok (sqlite3PutVarint v) /\
  (v < 2 ^ 63 -> sqlite3VarintLen v = zlen (sqlite3PutVarint v)).
Proof.
  intros Hv Hp. rewrite getVarint_decode, putVarint_decode; try done.
  - split_and!; [done|apply putVarint_bytes; lia|]. intros Hlt.
    rewrite putVarint_len by done. by destruct (Z.ltb_spec v (2 ^ 63)); [|lia].
  - apply Forall_app_2; [apply putVarint_bytes; lia|done].
Qed.

Lemma varint_roundtrip_witness :
  sqlite3GetVarint (sqlite3PutVarint (2 ^ 63 - 1) ++ [1; 2]) =
    Some (zlen (sqlite3PutVarint (2 ^ 63 - 1)), 2 ^ 63 - 1) /\
  bytes_ok (sqlite3PutVarint (2 ^ 63 - 1)) /\
  (2 ^ 63 - 1 < 2 ^ 63 -> sqlite3VarintLen (2 ^ 63 - 1) = zlen (sqlite3PutVarint (2 ^ 63 - 1))).
Proof. apply (varint_roundtrip (2 ^ 63 - 1) [1; 2]); [done|]. repeat constructor; done. Defined.

(** C23.  The two unrolled decoders agree with the format on every buffer,
    including the ones that are too short: [sqlite3GetVarint] computes the
    value byte by byte as the file format defines it, and [getVarint32] is
    that value cut to [0xffffffff], with the same length. *)
Theorem getVarint_reference p :
  bytes_ok p ->
  sqlite3GetVarint p = varint_decode p /\
  getVarint32 p = ('(n, v) ← varint_decode p; Some (n, Z.min v 0xffffffff)).
Proof. intros Hp. split; [by apply getVarint_decode|by apply getVarint32_min]. Qed.

Lemma getVarint_reference_witness :
  sqlite3GetVarint [129; 130; 3] = varint_decode [129; 130; 3] /\
  getVarint32 [129; 130; 3] =
    ('(n, v) ← varint_decode [129; 130; 3]; Some (n, Z.min v 0xffffffff)).
Proof. apply (getVarint_reference [129; 130; 3]). repeat constructor; done. Defined.
