(* ===== verification/Util.v ===== *)
(** The number helpers of util.c: four-byte big-endian words, the
    overflow-checked 64-bit arithmetic behind SQL integers, logarithmic
    estimates and hexadecimal digits.  The compiler-specific branches
    ([__builtin_bswap32], [__builtin_add_overflow]) are documented to be the
    portable ones that are modelled here. *)
From S2P Require Import Prelude.
From S2P Require Import Bits.
Open Scope Z_scope.

(** * Four-byte big-endian words *)

Definition sqlite3Get4byte (p : list Z) : option Z :=
  p0 ← p.[0]; p1 ← p.[1]; p2 ← p.[2]; p3 ← p.[3];
  Some (Z.lor (Z.lor (Z.lor (u32 (Z.shiftl p0 24)) (Z.shiftl p1 16))
                     (Z.shiftl p2 8)) p3).

(** The four bytes written at [p]. *)
Definition sqlite3Put4byte (v : Z) : list Z :=
  [u8 (Z.shiftr v 24); u8 (Z.shiftr v 16); u8 (Z.shiftr v 8); u8 v].

Lemma Put4byte_bytes v : bytes_ok (sqlite3Put4byte v).
Proof. repeat constructor; apply u8_ok. Qed.
#[export] Hint Resolve Put4byte_bytes : carray.

Lemma length_Put4byte v : length (sqlite3Put4byte v) = 4%nat.
Proof. done. Qed.

Lemma Get4byte_Put4byte v p :
  0 <= v < 2 ^ 32 -> sqlite3Get4byte (sqlite3Put4byte v ++ p) = Some v.
Proof.
  intros Hv. change (2 ^ 32) with 4294967296 in Hv.
  unfold sqlite3Get4byte, sqlite3Put4byte. cbn [app].
  change ((Some (Z.lor (Z.lor (Z.lor (u32 (Z.shiftl (u8 (Z.shiftr v 24)) 24))
      (Z.shiftl (u8 (Z.shiftr v 16)) 16)) (Z.shiftl (u8 (Z.shiftr v 8)) 8))
      (u8 v))) = Some v).
  f_equal. bits_solve.
Qed.

Lemma Put4byte_Get4byte b0 b1 b2 b3 p :
  byte_ok b0 -> byte_ok b1 -> byte_ok b2 -> byte_ok b3 ->
  exists v, sqlite3Get4byte (b0 :: b1 :: b2 :: b3 :: p) = Some v /\
            0 <= v < 2 ^ 32 /\ sqlite3Put4byte v = [b0; b1; b2; b3].
Proof.
  intros H0 H1 H2 H3. eexists. split; [reflexivity|].
  assert (Hlt : forall b k, byte_ok b -> 0 <= k <= 24 -> 0 <= Z.shiftl b k < 2 ^ 32).
  { intros b k Hb Hk. unfold byte_ok in Hb. rewrite Z.shiftl_mul_pow2 by lia.
    assert (0 < 2 ^ k <= 2 ^ 24); [|nia].
    split; [apply Z.pow_pos_nonneg|apply Z.pow_le_mono_r]; lia. }
  split.
  - repeat apply lor_range; try lia; try (by apply Hlt).
    + apply u32_range.
    + unfold byte_ok in H3. lia.
  - unfold sqlite3Put4byte. repeat f_equal; bits_solve.
Qed.

(** * Overflow-checked 64-bit arithmetic

    Each function returns the flag (1 on overflow) and the value left in
    [*pA]. *)

Definition LARGEST_INT64 : Z := Z.lor 0xffffffff (Z.shiftl 0x7fffffff 32).
Definition SMALLEST_INT64 : Z := -1 - LARGEST_INT64.

Definition sqlite3AddInt64 (pA iB : Z) : Z * Z :=
  let iA := pA in
  if iB >=? 0 then
    if (iA >? 0) && (i64 (LARGEST_INT64 - iA) <? iB) then (1, pA)
    else (0, i64 (pA + iB))
  else
    if (iA <? 0) && (i64 (- i64 (iA + LARGEST_INT64)) >? i64 (iB + 1)) then (1, pA)
    else (0, i64 (pA + iB)).

Definition sqlite3SubInt64 (pA iB : Z) : Z * Z :=
  if iB =? SMALLEST_INT64 then
    if pA >=? 0 then (1, pA) else (0, i64 (pA - iB))
  else sqlite3AddInt64 pA (i64 (- iB)).

(** C division truncates: [Z.quot]. *)
Definition sqlite3MulInt64 (pA iB : Z) : Z * Z :=
  let iA := pA in
  if iB >? 0 then
    if iA >? Z.quot LARGEST_INT64 iB then (1, pA)
    else if iA <? Z.quot SMALLEST_INT64 iB then (1, pA)
    else (0, i64 (iA * iB))
  else if iB <? 0 then
    if iA >? 0 then
      if iB <? Z.quot SMALLEST_INT64 iA then (1, pA) else (0, i64 (iA * iB))
    else if iA <? 0 then
      if iB =? SMALLEST_INT64 then (1, pA)
      else if iA =? SMALLEST_INT64 then (1, pA)
      else if i64 (- iA) >? Z.quot LARGEST_INT64 (i64 (- iB)) then (1, pA)
      else (0, i64 (iA * iB))
    else (0, i64 (iA * iB))
  else (0, i64 (iA * iB)).

Definition sqlite3AbsInt32 (x : Z) : Z :=
  if x >=? 0 then x
  else if x =? i32 0x80000000 then 0x7fffffff
  else i32 (- x).

Definition int64_ok (x : Z) : Prop := SMALLEST_INT64 <= x <= LARGEST_INT64.

(** The contract: the exact result when it fits, otherwise the flag and the
    old value. *)
Definition checked64 (old exact : Z) : Z * Z :=
  if (SMALLEST_INT64 <=? exact) && (exact <=? LARGEST_INT64)
  then (0, exact) else (1, old).

Lemma LARGEST_INT64_eq : LARGEST_INT64 = 9223372036854775807.
Proof. reflexivity. Qed.
Lemma SMALLEST_INT64_eq : SMALLEST_INT64 = -9223372036854775808.
Proof. reflexivity. Qed.

Ltac int64_lia :=
  unfold int64_ok, checked64 in *;
  rewrite ?SMALLEST_INT64_eq, ?LARGEST_INT64_eq in *; lia.

(** Splits a [checked64] goal on which side of the range the result is. *)
Ltac checked_cases :=
  unfold checked64;
  repeat match goal with
  | |- context [?a <=? ?b] => destruct (Z.leb_spec a b)
  end; simpl.

Ltac i64_simpl :=
  repeat match goal with
  | |- context [i64 ?x] => rewrite (i64_small x) by lia
  end.

(** Case analysis on every comparison of the code. *)
Ltac int64_cases :=
  repeat (simpl; i64_simpl;
    match goal with
    | |- context [?x =? ?y] => destruct (Z.eqb_spec x y)
    | |- context [?x <? ?y] => destruct (Z.ltb_spec x y)
    | |- context [?x >? ?y] => destruct (Z.gtb_spec x y)
    | |- context [?x <=? ?y] => destruct (Z.leb_spec x y)
    | |- context [?x >=? ?y] => destruct (Z.geb_spec x y)
    end; try lia); simpl; i64_simpl.

Lemma AddInt64_checked a b :
  int64_ok a -> int64_ok b -> sqlite3AddInt64 a b = checked64 a (a + b).
Proof.
  intros Ha Hb. unfold sqlite3AddInt64, checked64, int64_ok in *.
  rewrite SMALLEST_INT64_eq, LARGEST_INT64_eq in *.
  destruct (Z.geb_spec b 0), (Z.gtb_spec a 0), (Z.ltb_spec a 0); try lia;
    int64_cases; (done || lia).
Qed.

Lemma SubInt64_checked a b :
  int64_ok a -> int64_ok b -> sqlite3SubInt64 a b = checked64 a (a - b).
Proof.
  intros Ha Hb. unfold sqlite3SubInt64.
  destruct (Z.eqb_spec b SMALLEST_INT64).
  - unfold checked64, int64_ok in *. rewrite SMALLEST_INT64_eq, LARGEST_INT64_eq in *.
    int64_cases; (done || lia).
  - unfold int64_ok in *. rewrite SMALLEST_INT64_eq, LARGEST_INT64_eq in *.
    rewrite i64_small by lia. rewrite AddInt64_checked.
    + done.
    + int64_lia.
    + int64_lia.
Qed.

(** Truncated division against an exact product. *)
Lemma quot_bounds a b :
  0 < b -> (0 <= a -> b * (a ÷ b) <= a < b * (a ÷ b) + b) /\
           (a <= 0 -> b * (a ÷ b) - b < a <= b * (a ÷ b)).
Proof.
  intros Hb. pose proof (Z.quot_rem' a b).
  split; intros Ha.
  - pose proof (Z.rem_bound_pos a b Ha Hb). lia.
  - pose proof (Z.rem_bound_pos (- a) b ltac:(lia) Hb) as Hr.
    rewrite Z.rem_opp_l in Hr by lia. lia.
Qed.

Lemma MulInt64_checked a b :
  int64_ok a -> int64_ok b -> sqlite3MulInt64 a b = checked64 a (a * b).
Proof.
  intros Ha Hb. unfold sqlite3MulInt64, checked64, int64_ok in *.
  rewrite SMALLEST_INT64_eq, LARGEST_INT64_eq in *.
  destruct (Z.gtb_spec b 0) as [B|B].
  - pose proof (quot_bounds 9223372036854775807 b ltac:(lia)) as [Q1 _].
    pose proof (quot_bounds (-9223372036854775808) b ltac:(lia)) as [_ Q2].
    specialize (Q1 ltac:(lia)). specialize (Q2 ltac:(lia)).
    destruct (Z.gtb_spec a (9223372036854775807 ÷ b)).
    { rewrite (proj2 (Z.leb_gt (a * b) 9223372036854775807)) by nia.
      by rewrite andb_false_r. }
    destruct (Z.ltb_spec a (-9223372036854775808 ÷ b)).
    { by rewrite (proj2 (Z.leb_gt (-9223372036854775808) (a * b))) by nia. }
    assert (-9223372036854775808 <= a * b <= 9223372036854775807) by nia.
    rewrite (proj2 (Z.leb_le _ _)), (proj2 (Z.leb_le _ _)) by lia.
    simpl. by rewrite i64_small by lia.
  - destruct (Z.ltb_spec b 0) as [B'|B'].
    2: { replace b with 0 by lia. by rewrite Z.mul_0_r. }
    destruct (Z.gtb_spec a 0) as [A|A].
    + pose proof (quot_bounds (-9223372036854775808) a ltac:(lia)) as [_ Q2].
      specialize (Q2 ltac:(lia)).
      destruct (Z.ltb_spec b (-9223372036854775808 ÷ a)).
      { by rewrite (proj2 (Z.leb_gt (-9223372036854775808) (a * b))) by nia. }
      assert (-9223372036854775808 <= a * b <= 9223372036854775807) by nia.
      rewrite (proj2 (Z.leb_le _ _)), (proj2 (Z.leb_le _ _)) by lia.
      simpl. by rewrite i64_small by lia.
    + destruct (Z.ltb_spec a 0) as [A'|A'].
      2: { replace a with 0 by lia. done. }
      destruct (Z.eqb_spec b (-9223372036854775808)).
      { rewrite (proj2 (Z.leb_gt (a * b) 9223372036854775807)) by nia.
        by rewrite andb_false_r. }
      destruct (Z.eqb_spec a (-9223372036854775808)).
      { rewrite (proj2 (Z.leb_gt (a * b) 9223372036854775807)) by nia.
        by rewrite andb_false_r. }
      rewrite !i64_small by lia.
      pose proof (quot_bounds 9223372036854775807 (- b) ltac:(lia)) as [Q1 _].
      specialize (Q1 ltac:(lia)).
      destruct (Z.gtb_spec (- a) (9223372036854775807 ÷ - b)).
      { rewrite (proj2 (Z.leb_gt (a * b) 9223372036854775807)) by nia.
        by rewrite andb_false_r. }
      assert (-9223372036854775808 <= a * b <= 9223372036854775807) by nia.
      rewrite (proj2 (Z.leb_le _ _)), (proj2 (Z.leb_le _ _)) by lia.
      simpl. by rewrite i64_small by lia.
Qed.

Lemma AbsInt32_spec x :
  - 2 ^ 31 <= x < 2 ^ 31 ->
  sqlite3AbsInt32 x = Z.min (Z.abs x) (2 ^ 31 - 1).
Proof.
  intros Hx. unfold sqlite3AbsInt32. change (i32 0x80000000) with (- 2 ^ 31).
  destruct (Z.geb_spec x 0); [lia|].
  destruct (Z.eqb_spec x (- 2 ^ 31)); [lia|]. rewrite i32_small; lia.
Qed.

(** * Properties *)


