(* ===== verification/Probe.v ===== *)
(** Open addressing with linear probing, as the wal-index hash tables and the
    bit vectors use it: a table of [N] slots in which 0 is a free slot, and
    the sequence of slots visited from a start position.  The lemmas here say
    when the sequence reaches a free slot, which is what makes the loops of
    both components terminate. *)
From S2P Require Import Prelude.
Open Scope Z_scope.

Section probe.
Context (N : Z) (HN : 0 < N).

(** The slot at distance [d] from [h]. *)
Definition slot (h d : Z) : Z := (h + d) mod N.

Lemma slot_range h d : 0 <= slot h d < N.
Proof using HN. apply Z.mod_pos_bound. lia. Qed.

Lemma slot_0 h : 0 <= h < N -> slot h 0 = h.
Proof using HN. intros. unfold slot. rewrite Z.add_0_r. by apply Z.mod_small. Qed.

Lemma slot_slot h d e : slot (slot h d) e = slot h (d + e).
Proof using HN.
  unfold slot. rewrite Z.add_mod_idemp_l by lia. f_equal. lia.
Qed.

Lemma slot_next h d : (slot h d + 1) mod N = slot h (d + 1).
Proof using HN. apply (slot_slot h d 1). Qed.

Lemma slot_inj h d e :
  0 <= d < N -> 0 <= e < N -> slot h d = slot h e -> d = e.
Proof using HN.
  unfold slot. intros Hd He H.
  pose proof (Z.div_mod (h + d) N ltac:(lia)) as E1.
  pose proof (Z.div_mod (h + e) N ltac:(lia)) as E2.
  assert (d - e = N * ((h + d) / N - (h + e) / N)) as Hq by lia.
  assert ((h + d) / N - (h + e) / N = 0) by nia. nia.
Qed.

(** Every slot is met within [N] steps. *)
Lemma slot_onto h s : 0 <= s < N -> exists d, 0 <= d < N /\ slot h d = s.
Proof using HN.
  intros Hs. exists ((s - h) mod N). split; [by apply Z.mod_pos_bound|].
  unfold slot. rewrite Z.add_mod_idemp_r by lia.
  replace (h + (s - h)) with s by lia. by apply Z.mod_small.
Qed.

Context (T : list Z) (HT : zlen T = N).

Lemma slot_get h d : exists v, T.[slot h d] = Some v.
Proof using HN HT. apply zget_some. rewrite HT. apply slot_range. Qed.

(** All slots at distances below [d] hold values that satisfy [P]. *)
Definition chain (P : Z -> Prop) (h d : Z) : Prop :=
  forall e, 0 <= e < d -> exists v, T.[slot h e] = Some v /\ P v.

Lemma chain_S P h d v :
  0 <= d -> chain P h d -> T.[slot h d] = Some v -> P v -> chain P h (d + 1).
Proof.
  intros Hd Hc Hv HP e He. destruct (decide (e = d)) as [->|]; [by exists v|].
  apply Hc. lia.
Qed.

Lemma chain_weaken (P Q : Z -> Prop) h d e :
  e <= d -> (forall v, P v -> Q v) -> chain P h d -> chain Q h e.
Proof.
  intros He HPQ Hc k Hk. destruct (Hc k ltac:(lia)) as (v & ? & ?). eauto.
Qed.

(** A free slot somewhere is found from everywhere. *)
Lemma probe_free h s :
  T.[s] = Some 0 ->
  exists d, 0 <= d < N /\ T.[slot h d] = Some 0 /\ chain (fun v => v <> 0) h d.
Proof using HN HT.
  intros Hs. pose proof (zget_range _ _ _ Hs) as Hr. rewrite HT in Hr.
  destruct (slot_onto h s Hr) as (d0 & Hd0 & E). rewrite <- E in Hs.
  assert (forall n : nat, (exists d, 0 <= d < Z.of_nat n /\ T.[slot h d] = Some 0 /\
            chain (fun v => v <> 0) h d) \/
          chain (fun v => v <> 0) h (Z.of_nat n)) as Hall.
  { induction n as [|n IH].
    - right. intros e He. lia.
    - destruct IH as [(d & Hd & ?)|IH]; [left; exists d; split; [lia|done]|].
      destruct (slot_get h (Z.of_nat n)) as [v Hv].
      rewrite Nat2Z.inj_succ, <- Z.add_1_r.
      destruct (decide (v = 0)) as [->|].
      + left. exists (Z.of_nat n). split; [lia|done].
      + right. by apply chain_S with v; [lia| |..]. }
  destruct (Hall (Z.to_nat (d0 + 1))) as [(d & Hd & ?)|Hc].
  - exists d. split; [lia|done].
  - destruct (Hc d0 ltac:(lia)) as (v & Hv & Hne). congruence.
Qed.

(** Fewer distinct values than slots leave a slot free. *)
Lemma exists_free (K : Z) :
  0 <= K < N ->
  (forall s v, T.[s] = Some v -> 0 <= v <= K) ->
  (forall s t v, v <> 0 -> T.[s] = Some v -> T.[t] = Some v -> s = t) ->
  exists s, T.[s] = Some 0.
Proof using HN HT.
  intros HK Hrange Hinj.
  destruct (decide (0 ∈ T)) as [H0|H0]; [by apply elem_of_zget|exfalso].
  assert (Hnd : NoDup T).
  { apply NoDup_alt. intros i j x Hi Hj.
    assert (x <> 0).
    { intros ->. apply H0. by eapply list_elem_of_lookup_2. }
    rewrite <- zget_lookup in Hi, Hj.
    specialize (Hinj _ _ _ H Hi Hj). lia. }
  assert (Hsub : T ⊆ seqZ 1 K).
  { intros x Hx. apply elem_of_seqZ. destruct (elem_of_zget _ _ Hx) as [i Hi].
    apply Hrange in Hi. assert (x <> 0) by congruence. lia. }
  pose proof (NoDup_submseteq _ _ Hnd (fun x Hx => Hsub x Hx)) as Hlen.
  apply submseteq_length in Hlen. rewrite length_seqZ in Hlen.
  unfold zlen in HT. lia.
Qed.

(** Distinct values from [1..K] fill at most [K] slots of a chain. *)
Lemma chain_bound K h d :
  0 <= d <= N -> 0 <= K ->
  (forall s t v, v <> 0 -> T.[s] = Some v -> T.[t] = Some v -> s = t) ->
  chain (fun v => 1 <= v <= K) h d -> d <= K.
Proof using HN HT.
  intros Hd HK Hinj Hc.
  set (f := fun e => default 0 (T.[slot h e])).
  assert (Hf : forall e, e ∈ seqZ 0 d ->
            T.[slot h e] = Some (f e) /\ 1 <= f e <= K).
  { intros e He%elem_of_seqZ. destruct (Hc e ltac:(lia)) as (v & Hv & Hr).
    unfold f. rewrite Hv. done. }
  assert (Hnd : NoDup (f <$> seqZ 0 d)).
  { apply NoDup_fmap_2_strong; [|apply NoDup_seqZ].
    intros x y Hx Hy E. destruct (Hf x Hx) as [Ex ?], (Hf y Hy) as [Ey _].
    apply elem_of_seqZ in Hx, Hy. apply (slot_inj h); [lia|lia|].
    apply (Hinj _ _ (f x)); [lia|done|]. by rewrite E. }
  assert (Hsub : f <$> seqZ 0 d ⊆ seqZ 1 K).
  { intros v Hv. apply list_elem_of_fmap in Hv as (e & -> & He).
    apply elem_of_seqZ. destruct (Hf e He). lia. }
  pose proof (NoDup_submseteq _ _ Hnd (fun x Hx => Hsub x Hx)) as Hlen.
  apply submseteq_length in Hlen. rewrite length_fmap, !length_seqZ in Hlen. lia.
Qed.
End probe.

(** Writing a slot keeps the chains that do not cross it, and keeps all of
    them when the written value satisfies the predicate. *)
Lemma chain_zupd N T (P Q : Z -> Prop) h d s x :
  0 <= s < zlen T -> (forall v, P v -> Q v) -> Q x ->
  chain N T P h d -> chain N (zupd T s x) Q h d.
Proof.
  intros Hs HPQ Hx Hc e He. destruct (Hc e He) as (v & Hv & HP).
  rewrite zget_zupd by done. case_decide; [by exists x|]. eauto.
Qed.
