(* ===== verification/Vfs.v ===== *)
(** The file interface the storage layers are written against: the methods of
    [sqlite3_io_methods] with the behaviour sqlite.h documents for them.  A
    method returns its result code with the new state of the file; nothing is
    promised about the state after an error.  WAL theorems are proved for
    every instance of [VFile]; [ByteFile] below is the simplest one. *)
From S2P Require Import Prelude.
Open Scope Z_scope.

(** * Result codes *)

Definition SQLITE_OK : Z := 0.
Definition SQLITE_ERROR : Z := 1.
Definition SQLITE_BUSY : Z := 5.
Definition SQLITE_NOMEM : Z := 7.
Definition SQLITE_READONLY : Z := 8.
Definition SQLITE_IOERR : Z := 10.
Definition SQLITE_CORRUPT : Z := 11.
Definition SQLITE_FULL : Z := 13.
Definition SQLITE_CANTOPEN : Z := 14.
Definition SQLITE_PROTOCOL : Z := 15.
Definition SQLITE_IOERR_SHORT_READ : Z := Z.lor SQLITE_IOERR (Z.shiftl 2 8).
Definition SQLITE_BUSY_RECOVERY : Z := Z.lor SQLITE_BUSY (Z.shiftl 1 8).
Definition SQLITE_BUSY_SNAPSHOT : Z := Z.lor SQLITE_BUSY (Z.shiftl 2 8).
Definition SQLITE_READONLY_CANTINIT : Z := Z.lor SQLITE_READONLY (Z.shiftl 5 8).

(** * Byte ranges *)

(** [amt] bytes of [l] from offset [off]. *)
Definition slice (off amt : Z) (l : list Z) : list Z :=
  take (Z.to_nat amt) (drop (Z.to_nat off) l).

(** [b] written over [l] at [off]; a gap before [off] reads as zeros. *)
Definition splice (l : list Z) (off : Z) (b : list Z) : list Z :=
  let o := Z.to_nat off in
  take o (l ++ replicate (o - length l) 0) ++ b ++ drop (o + length b) l.

Lemma length_slice off amt l :
  0 <= off -> 0 <= amt -> off + amt <= zlen l -> zlen (slice off amt l) = amt.
Proof.
  unfold slice, zlen. intros. rewrite length_take, length_drop. lia.
Qed.

Lemma slice_app_l off amt l k :
  0 <= off -> 0 <= amt -> off + amt <= zlen l ->
  slice off amt (l ++ k) = slice off amt l.
Proof.
  unfold slice, zlen. intros. rewrite drop_app_le by lia.
  rewrite take_app_le; [done|]. rewrite length_drop. lia.
Qed.

Lemma slice_app_r off amt l k :
  zlen l <= off -> slice off amt (l ++ k) = slice (off - zlen l) amt k.
Proof.
  unfold slice, zlen. intros. rewrite drop_app_ge by lia.
  f_equal. f_equal. lia.
Qed.

Lemma slice_full l : slice 0 (zlen l) l = l.
Proof. unfold slice, zlen. rewrite Nat2Z.id. simpl. apply firstn_all. Qed.

Lemma slice_prefix l k : slice 0 (zlen l) (l ++ k) = l.
Proof.
  pose proof (zlen_nonneg l). rewrite slice_app_l by lia. apply slice_full.
Qed.

Lemma zlen_splice l off b :
  0 <= off -> zlen (splice l off b) = Z.max (zlen l) (off + zlen b).
Proof.
  unfold splice, zlen. intros.
  rewrite !length_app, length_take, length_app, length_replicate, length_drop.
  lia.
Qed.

(** Appending is writing at the end. *)
Lemma splice_end l b : splice l (zlen l) b = l ++ b.
Proof.
  unfold splice, zlen. rewrite Nat2Z.id, Nat.sub_diag. simpl.
  rewrite app_nil_r, firstn_all, drop_ge by lia. by rewrite app_nil_r.
Qed.

Lemma slice_splice_same l off b :
  0 <= off -> slice off (zlen b) (splice l off b) = b.
Proof.
  intros. unfold slice, splice, zlen.
  rewrite drop_app_ge; rewrite length_take, length_app, length_replicate; [|lia].
  replace (Z.to_nat off - Z.to_nat off `min` (length l + (Z.to_nat off - length l)))%nat
    with 0%nat by lia.
  rewrite drop_0, Nat2Z.id. by rewrite take_app_length.
Qed.

(** Bytes before the write are unchanged. *)
Lemma slice_splice_before l off b o amt :
  0 <= o -> 0 <= amt -> o + amt <= off -> o + amt <= zlen l ->
  slice o amt (splice l off b) = slice o amt l.
Proof.
  intros. unfold splice. rewrite slice_app_l; try lia.
  - unfold slice, zlen in *.
    rewrite skipn_firstn_comm, take_take.
    rewrite drop_app_le by lia. rewrite take_app_le; [|rewrite length_drop; lia].
    f_equal. lia.
  - unfold zlen in *. rewrite length_take, length_app, length_replicate. lia.
Qed.

(** Bytes after the write are unchanged. *)
Lemma slice_splice_after l off b o amt :
  0 <= off -> off + zlen b <= o -> off <= zlen l ->
  slice o amt (splice l off b) = slice o amt l.
Proof.
  intros. unfold slice, splice, zlen in *. f_equal.
  rewrite drop_app_ge; rewrite length_take, length_app, length_replicate; [|lia].
  rewrite drop_app_ge by lia. rewrite drop_drop. f_equal. lia.
Qed.

(** * The interface *)

Class VFile (F : Type) := {
  content : F -> list Z;
  xRead : F -> Z -> Z -> Z * list Z;      (** file, amount, offset *)
  xWrite : F -> list Z -> Z -> Z * F;     (** file, bytes, offset *)
  xTruncate : F -> Z -> Z * F;
  xSync : F -> Z -> Z * F;                (** file, flags *)
  xFileSize : F -> Z * Z;
  xRead_ok f amt off b :
    0 <= amt -> 0 <= off -> xRead f amt off = (SQLITE_OK, b) ->
    off + amt <= zlen (content f) /\ b = slice off amt (content f);
  xWrite_ok f b off f' :
    0 <= off -> xWrite f b off = (SQLITE_OK, f') ->
    content f' = splice (content f) off b;
  xTruncate_ok f n f' :
    0 <= n -> xTruncate f n = (SQLITE_OK, f') ->
    content f' = take (Z.to_nat n)
                   (content f ++ replicate (Z.to_nat n - length (content f)) 0);
  xSync_ok f flags f' :
    xSync f flags = (SQLITE_OK, f') -> content f' = content f;
  xFileSize_ok f n :
    xFileSize f = (SQLITE_OK, n) -> n = zlen (content f);
}.

(** * A file that is its bytes

    Reads past the end return the bytes there are, padded with zeros, and
    [SQLITE_IOERR_SHORT_READ]; nothing else fails. *)

Record ByteFile := byte_file { bytes : list Z }.

Definition bf_read (f : ByteFile) (amt off : Z) : Z * list Z :=
  let b := slice off amt (bytes f) in
  if off + amt <=? zlen (bytes f) then (SQLITE_OK, b)
  else (SQLITE_IOERR_SHORT_READ, b ++ replicate (Z.to_nat amt - length b) 0).

Definition bf_truncate (f : ByteFile) (n : Z) : ByteFile :=
  byte_file (take (Z.to_nat n)
    (bytes f ++ replicate (Z.to_nat n - length (bytes f)) 0)).

#[export] Program Instance ByteFile_VFile : VFile ByteFile := {
  content := bytes;
  xRead := bf_read;
  xWrite f b off := (SQLITE_OK, byte_file (splice (bytes f) off b));
  xTruncate f n := (SQLITE_OK, bf_truncate f n);
  xSync f _ := (SQLITE_OK, f);
  xFileSize f := (SQLITE_OK, zlen (bytes f));
}.
Next Obligation.
  unfold bf_read. intros f amt off b Ha Ho.
  destruct (Z.leb_spec (off + amt) (zlen (bytes f))); intros H'.
  - by injection H' as <-.
  - exfalso. apply (f_equal fst) in H'. done.
Qed.
Next Obligation. intros f b off f' _ H. cbn in H. by injection H as <-. Qed.
Next Obligation. intros f n f' _ H. cbn in H. by injection H as <-. Qed.
Next Obligation. intros f n f' H. cbn in H. by injection H as <-. Qed.
Next Obligation. intros f n H. cbn in H. by injection H as <-. Qed.
