(* ===== verification/Aws.v ===== *)
(** The copy of the log that this repository keeps in an S3 object: the buffer
    shared by wal.c, pager.c and vdbeapi.c, the statement log of
    [sqlite3_step], and the uploads of [sqlite3WalCallback].

    [AWS_S3_RECV] is a macro of the build: 1 uploads the whole log, 2 the part
    written since the last upload, 3 the text of the statements. *)
From Stdlib Require Import Strings.String Strings.Ascii.
From S2P Require Import Prelude.
Open Scope Z_scope.

(** * Text *)

(** The bytes of a C string, without its terminator. *)
Fixpoint str (s : string) : list Z :=
  match s with
  | EmptyString => []
  | String c s => Z.of_N (N_of_ascii c) :: str s
  end.

Definition quote : list Z := [34].

(** [%ld] *)
Fixpoint digits (fuel : nat) (n : Z) (acc : list Z) : list Z :=
  match fuel with
  | O => acc
  | S fuel =>
      let acc := (48 + n mod 10) :: acc in
      if n <? 10 then acc else digits fuel (n / 10) acc
  end.

Definition format_ld (n : Z) : list Z :=
  if n <? 0 then 45 :: digits 20 (- n) [] else digits 20 n [].

(** * The globals *)

Definition AWS_FILESZ : Z := 1024 * 1024.

(** The mapped buffer ([] before a file is mapped), the bytes pending in it,
    the bytes uploaded before, the name of the mapped file.  [awsfile] is an
    array of 128 bytes. *)
Record Aws := mkAws {
  aws_ptr : list Z;
  aws_off : Z;
  cur_aws_off : Z;
  awsfile : list Z;
}.

Definition aws_init : Aws := mkAws [] 0 0 [].

(** The part of [sqlite3PagerOpen] that creates the buffer; the offsets are
    not reset.  [None]: the name does not fit its array. *)
Definition aws_open (AWS_S3_RECV : Z) (zPathname : list Z) (a : Aws) : option Aws :=
  if AWS_S3_RECV >? 1 then
    let name := zPathname ++ str "-aws" in
    if zlen name <? 128
    then Some (mkAws (replicate (Z.to_nat AWS_FILESZ) 0) (aws_off a) (cur_aws_off a) name)
    else None
  else Some a.

(** [memcpy(aws_ptr+aws_off, p, n); aws_off += n;] *)
Definition aws_append (b : list Z) (a : Aws) : option Aws :=
  if aws_off a + zlen b <=? zlen (aws_ptr a) then
    Some (mkAws (take (Z.to_nat (aws_off a)) (aws_ptr a) ++ b ++
                 drop (Z.to_nat (aws_off a + zlen b)) (aws_ptr a))
                (u64 (aws_off a + zlen b)) (cur_aws_off a) (awsfile a))
  else None.

(** * The statement log *)

Definition toupper (c : Z) : Z := if (97 <=? c) && (c <=? 122) then c - 32 else c.
Definition to_upper (s : list Z) : list Z := toupper <$> s.

Fixpoint is_prefix (p s : list Z) : bool :=
  match p, s with
  | [], _ => true
  | x :: p, y :: s => (x =? y) && is_prefix p s
  | _ :: _, [] => false
  end.

(** [strstr(s, p) != NULL] *)
Fixpoint strstr (s p : list Z) : bool :=
  is_prefix p s || match s with [] => false | _ :: s => strstr s p end.

Definition check_sql (sql : list Z) : bool :=
  strstr sql (str "INSERT") || strstr sql (str "UPDATE") ||
  strstr sql (str "DELETE") || strstr sql (str "CREATE").

(** The lines [sqlite3_step] starts with; [full_sql] is the result of
    [sqlite3_expanded_sql]. *)
Definition step_capture (AWS_S3_RECV : Z) (full_sql : option (list Z)) (a : Aws) : option Aws :=
  if AWS_S3_RECV =? 3 then
    match full_sql with
    | None => Some a
    | Some sql =>
        let sql := to_upper sql in
        if check_sql sql then a ← aws_append sql a; aws_append (str ";") a
        else Some a
    end
  else Some a.

(** * Uploads *)

(** A call of the command-line client: the object's key, the file to send,
    and for an append the offset and the length. *)
Record Command := mkCommand {
  c_key : list Z;
  c_body : list Z;
  c_range : option (Z * Z);
}.

Definition command_text (c : Command) : list Z :=
  str "aws s3api put-object --bucket ku-express-test--use1-az6--x-s3 --key " ++
  c_key c ++ str " --body " ++ quote ++ c_body c ++ quote ++
  match c_range c with
  | None => []
  | Some (ofst, len) => str " --write-offset-bytes " ++ format_ld (i64 ofst) ++
                        str " --content-length " ++ format_ld (i64 len)
  end ++ str " > /dev/null".

(** [sprintf(command, ...)] into an array of 256 bytes. *)
Definition sprintf_command (c : Command) : option Command :=
  if zlen (command_text c) <? 256 then Some c else None.

(** The store behind the client.  An append succeeds only at the end of the
    object, an object that does not exist having length 0; a put replaces the
    object. *)
Class S3 (OS : Type) := {
  s3_object : OS -> list Z -> option (list Z);
  xSystem : OS -> Command -> list Z -> Z * OS;
  xSystem_append o key file ofst len body o' :
    xSystem o (mkCommand key file (Some (ofst, len))) body = (0, o') ->
    ofst = zlen (default [] (s3_object o key)) /\
    s3_object o' key = Some (default [] (s3_object o key) ++ body);
  xSystem_put o key file body o' :
    xSystem o (mkCommand key file None) body = (0, o') ->
    s3_object o' key = Some body;
}.

Definition KEY_WAL : list Z := str "wal-file/sqlite.wal".
Definition KEY_PARTIAL : list Z := str "wal-file/wal-partial.log".
Definition KEY_SQL : list Z := str "sql-file/sql.log".

Section upload.
Context {OS : Type} `{S3 OS}.

(** [ftruncate], the upload, and the reset that follows it whatever its
    result. *)
Definition aws_flush (key : list Z) (a : Aws) (o : OS) : option (Aws * OS) :=
  let body := take (Z.to_nat (aws_off a)) (aws_ptr a) in
  c ← sprintf_command (mkCommand key (awsfile a) (Some (cur_aws_off a, aws_off a)));
  let '(_, o) := xSystem o c body in
  Some (mkAws (replicate (Z.to_nat AWS_FILESZ) 0) 0 (u64 (cur_aws_off a + aws_off a))
          (awsfile a), o).

(** The part of [sqlite3WalCallback] before [iCallback] is read; the log file
    has a name and holds [log]. *)
Definition aws_callback (AWS_S3_RECV : Z) (zWalName log : list Z) (a : Aws) (o : OS)
    : option (Aws * OS) :=
  if AWS_S3_RECV =? 1 then
    c ← sprintf_command (mkCommand KEY_WAL zWalName None);
    let '(_, o) := xSystem o c log in Some (a, o)
  else if AWS_S3_RECV =? 2 then aws_flush KEY_PARTIAL a o
  else if AWS_S3_RECV =? 3 then
    if negb (aws_off a =? cur_aws_off a) && negb (aws_off a =? 0)
    then aws_flush KEY_SQL a o else Some (a, o)
  else Some (a, o).
End upload.

(** * The pending bytes *)

Definition pending (a : Aws) : list Z := take (Z.to_nat (aws_off a)) (aws_ptr a).

(** There is room for [n] more bytes. *)
Definition aws_room (n : Z) (a : Aws) : Prop :=
  0 <= aws_off a /\ aws_off a + n <= zlen (aws_ptr a) /\ zlen (aws_ptr a) = AWS_FILESZ.

Lemma zlen_pending n a : 0 <= n -> aws_room n a -> zlen (pending a) = aws_off a.
Proof. intros Hn (H1 & H2 & _). unfold pending. apply zlen_take. lia. Qed.

(** Appending within the buffer: the bytes follow the pending ones. *)
Lemma aws_append_ok b a n :
  aws_room (zlen b + n) a -> 0 <= n ->
  exists a', aws_append b a = Some a' /\ pending a' = pending a ++ b /\
    aws_off a' = aws_off a + zlen b /\ cur_aws_off a' = cur_aws_off a /\
    awsfile a' = awsfile a /\ aws_room n a'.
Proof.
  intros (H1 & H2 & H3) Hn. pose proof (zlen_nonneg b). unfold AWS_FILESZ in H3.
  unfold aws_append. rewrite (proj2 (Z.leb_le _ _)) by lia.
  assert (Hl : length (take (Z.to_nat (aws_off a)) (aws_ptr a)) = Z.to_nat (aws_off a)).
  { rewrite length_take. unfold zlen in *. lia. }
  eexists. split; [done|]. rewrite u64_small by lia. split_and!; cbn; try done.
  - unfold pending. cbn [aws_off aws_ptr]. rewrite app_assoc.
    rewrite take_app_le; [apply take_ge|]; rewrite length_app, Hl; unfold zlen in *; lia.
  - unfold aws_room, AWS_FILESZ. cbn [aws_off aws_ptr].
    rewrite !zlen_app. unfold zlen in *. rewrite Hl, length_drop. split_and!; lia.
Qed.

Lemma aws_room_weaken n m a : n <= m -> aws_room m a -> aws_room n a.
Proof. intros Hle (H1 & H2 & H3). split_and!; lia || done. Qed.
