(* ===== verification/WalTypes.v ===== *)
(** The data of wal.c: the wal-index header, the checkpoint information, the
    handle of an open log, the layout constants, and the byte images the code
    computes checksums and comparisons on. *)
From S2P Require Import Prelude.
From S2P Require Import Bits.
From S2P Require Import Util.
From S2P Require Import Vfs.
Open Scope Z_scope.

(** * Constants *)

Definition WAL_MAX_VERSION : Z := 3007000.
Definition WALINDEX_MAX_VERSION : Z := 3007000.
Definition WAL_FRAME_HDRSIZE : Z := 24.
Definition WAL_HDRSIZE : Z := 32.
Definition WAL_MAGIC : Z := 0x377f0682.
Definition READMARK_NOT_USED : Z := 0xffffffff.
Definition SQLITE_SHM_NLOCK : Z := 8.
Definition WAL_NREADER : Z := SQLITE_SHM_NLOCK - 3.
Definition SQLITE_MAX_PAGE_SIZE : Z := 65536.

(** [sizeof(WalIndexHdr)*2 + sizeof(WalCkptInfo)] *)
Definition WALINDEX_HDR_SIZE : Z := 48 * 2 + 40.
Definition HASHTABLE_NPAGE : Z := 4096.
Definition HASHTABLE_HASH_1 : Z := 383.
Definition HASHTABLE_NSLOT : Z := HASHTABLE_NPAGE * 2.
Definition HASHTABLE_NPAGE_ONE : Z := HASHTABLE_NPAGE - WALINDEX_HDR_SIZE / 4.

Definition walFrameOffset (iFrame szPage : Z) : Z :=
  WAL_HDRSIZE + (iFrame - 1) * (szPage + WAL_FRAME_HDRSIZE).

(** * The wal-index header

    [aSalt] is kept as the eight bytes it is copied from and to. *)

Record WalIndexHdr := mkHdr {
  h_iVersion : Z;
  h_unused : Z;
  h_iChange : Z;
  h_isInit : Z;
  h_bigEndCksum : Z;
  h_szPage : Z;
  h_mxFrame : Z;
  h_nPage : Z;
  h_aFrameCksum : Z * Z;
  h_aSalt : list Z;
  h_aCksum : Z * Z;
}.

#[export] Instance WalIndexHdr_eq_dec : EqDecision WalIndexHdr.
Proof. solve_decision. Defined.

(** [memset(&pWal->hdr, 0, sizeof(WalIndexHdr))] *)
Definition hdr_zero : WalIndexHdr :=
  mkHdr 0 0 0 0 0 0 0 0 (0, 0) (replicate 8 0) (0, 0).

Record WalCkptInfo := mkCkpt {
  nBackfill : Z;
  aReadMark : list Z;
  nBackfillAttempted : Z;
}.

(** * The handle *)

Record Wal := mkWal {
  iCallback : Z;
  mxWalSize : Z;
  szPage : Z;
  readLock : Z;
  exclusiveMode : Z;
  writeLock : bool;
  ckptLock : bool;
  readOnly : Z;
  truncateOnCommit : bool;
  syncHeader : bool;
  padToSectorBoundary : bool;
  bShmUnreliable : bool;
  hdr : WalIndexHdr;
  minFrame : Z;
  iReCksum : Z;
  nCkpt : Z;
}.

(** Assignments to fields of the handle and of its header. *)
Definition set_iCallback (x : Z) (w : Wal) : Wal :=
  mkWal x (mxWalSize w) (szPage w) (readLock w) (exclusiveMode w) (writeLock w)
    (ckptLock w) (readOnly w) (truncateOnCommit w) (syncHeader w)
    (padToSectorBoundary w) (bShmUnreliable w) (hdr w) (minFrame w) (iReCksum w)
    (nCkpt w).
Definition set_szPage (x : Z) (w : Wal) : Wal :=
  mkWal (iCallback w) (mxWalSize w) x (readLock w) (exclusiveMode w) (writeLock w)
    (ckptLock w) (readOnly w) (truncateOnCommit w) (syncHeader w)
    (padToSectorBoundary w) (bShmUnreliable w) (hdr w) (minFrame w) (iReCksum w)
    (nCkpt w).
Definition set_readLock (x : Z) (w : Wal) : Wal :=
  mkWal (iCallback w) (mxWalSize w) (szPage w) x (exclusiveMode w) (writeLock w)
    (ckptLock w) (readOnly w) (truncateOnCommit w) (syncHeader w)
    (padToSectorBoundary w) (bShmUnreliable w) (hdr w) (minFrame w) (iReCksum w)
    (nCkpt w).
Definition set_writeLock (x : bool) (w : Wal) : Wal :=
  mkWal (iCallback w) (mxWalSize w) (szPage w) (readLock w) (exclusiveMode w) x
    (ckptLock w) (readOnly w) (truncateOnCommit w) (syncHeader w)
    (padToSectorBoundary w) (bShmUnreliable w) (hdr w) (minFrame w) (iReCksum w)
    (nCkpt w).
Definition set_readOnly (x : Z) (w : Wal) : Wal :=
  mkWal (iCallback w) (mxWalSize w) (szPage w) (readLock w) (exclusiveMode w)
    (writeLock w) (ckptLock w) x (truncateOnCommit w) (syncHeader w)
    (padToSectorBoundary w) (bShmUnreliable w) (hdr w) (minFrame w) (iReCksum w)
    (nCkpt w).
Definition set_truncateOnCommit (x : bool) (w : Wal) : Wal :=
  mkWal (iCallback w) (mxWalSize w) (szPage w) (readLock w) (exclusiveMode w)
    (writeLock w) (ckptLock w) (readOnly w) x (syncHeader w)
    (padToSectorBoundary w) (bShmUnreliable w) (hdr w) (minFrame w) (iReCksum w)
    (nCkpt w).
Definition set_hdr (x : WalIndexHdr) (w : Wal) : Wal :=
  mkWal (iCallback w) (mxWalSize w) (szPage w) (readLock w) (exclusiveMode w)
    (writeLock w) (ckptLock w) (readOnly w) (truncateOnCommit w) (syncHeader w)
    (padToSectorBoundary w) (bShmUnreliable w) x (minFrame w) (iReCksum w)
    (nCkpt w).
Definition set_minFrame (x : Z) (w : Wal) : Wal :=
  mkWal (iCallback w) (mxWalSize w) (szPage w) (readLock w) (exclusiveMode w)
    (writeLock w) (ckptLock w) (readOnly w) (truncateOnCommit w) (syncHeader w)
    (padToSectorBoundary w) (bShmUnreliable w) (hdr w) x (iReCksum w) (nCkpt w).
Definition set_iReCksum (x : Z) (w : Wal) : Wal :=
  mkWal (iCallback w) (mxWalSize w) (szPage w) (readLock w) (exclusiveMode w)
    (writeLock w) (ckptLock w) (readOnly w) (truncateOnCommit w) (syncHeader w)
    (padToSectorBoundary w) (bShmUnreliable w) (hdr w) (minFrame w) x (nCkpt w).
Definition set_nCkpt (x : Z) (w : Wal) : Wal :=
  mkWal (iCallback w) (mxWalSize w) (szPage w) (readLock w) (exclusiveMode w)
    (writeLock w) (ckptLock w) (readOnly w) (truncateOnCommit w) (syncHeader w)
    (padToSectorBoundary w) (bShmUnreliable w) (hdr w) (minFrame w) (iReCksum w) x.

Definition set_exclusiveMode (x : Z) (w : Wal) : Wal :=
  mkWal (iCallback w) (mxWalSize w) (szPage w) (readLock w) x (writeLock w)
    (ckptLock w) (readOnly w) (truncateOnCommit w) (syncHeader w)
    (padToSectorBoundary w) (bShmUnreliable w) (hdr w) (minFrame w) (iReCksum w)
    (nCkpt w).
Definition set_bShmUnreliable (x : bool) (w : Wal) : Wal :=
  mkWal (iCallback w) (mxWalSize w) (szPage w) (readLock w) (exclusiveMode w)
    (writeLock w) (ckptLock w) (readOnly w) (truncateOnCommit w) (syncHeader w)
    (padToSectorBoundary w) x (hdr w) (minFrame w) (iReCksum w) (nCkpt w).
Definition set_ckptLock (x : bool) (w : Wal) : Wal :=
  mkWal (iCallback w) (mxWalSize w) (szPage w) (readLock w) (exclusiveMode w)
    (writeLock w) x (readOnly w) (truncateOnCommit w) (syncHeader w)
    (padToSectorBoundary w) (bShmUnreliable w) (hdr w) (minFrame w) (iReCksum w)
    (nCkpt w).
Definition set_mxWalSize (x : Z) (w : Wal) : Wal :=
  mkWal (iCallback w) x (szPage w) (readLock w) (exclusiveMode w) (writeLock w)
    (ckptLock w) (readOnly w) (truncateOnCommit w) (syncHeader w)
    (padToSectorBoundary w) (bShmUnreliable w) (hdr w) (minFrame w) (iReCksum w)
    (nCkpt w).

Definition hset_bigEndCksum (x : Z) (h : WalIndexHdr) : WalIndexHdr :=
  mkHdr (h_iVersion h) (h_unused h) (h_iChange h) (h_isInit h) x (h_szPage h)
    (h_mxFrame h) (h_nPage h) (h_aFrameCksum h) (h_aSalt h) (h_aCksum h).
Definition hset_szPage (x : Z) (h : WalIndexHdr) : WalIndexHdr :=
  mkHdr (h_iVersion h) (h_unused h) (h_iChange h) (h_isInit h) (h_bigEndCksum h) x
    (h_mxFrame h) (h_nPage h) (h_aFrameCksum h) (h_aSalt h) (h_aCksum h).
Definition hset_mxFrame (x : Z) (h : WalIndexHdr) : WalIndexHdr :=
  mkHdr (h_iVersion h) (h_unused h) (h_iChange h) (h_isInit h) (h_bigEndCksum h)
    (h_szPage h) x (h_nPage h) (h_aFrameCksum h) (h_aSalt h) (h_aCksum h).
Definition hset_nPage (x : Z) (h : WalIndexHdr) : WalIndexHdr :=
  mkHdr (h_iVersion h) (h_unused h) (h_iChange h) (h_isInit h) (h_bigEndCksum h)
    (h_szPage h) (h_mxFrame h) x (h_aFrameCksum h) (h_aSalt h) (h_aCksum h).
Definition hset_iChange (x : Z) (h : WalIndexHdr) : WalIndexHdr :=
  mkHdr (h_iVersion h) (h_unused h) x (h_isInit h) (h_bigEndCksum h)
    (h_szPage h) (h_mxFrame h) (h_nPage h) (h_aFrameCksum h) (h_aSalt h)
    (h_aCksum h).
Definition hset_aFrameCksum (x : Z * Z) (h : WalIndexHdr) : WalIndexHdr :=
  mkHdr (h_iVersion h) (h_unused h) (h_iChange h) (h_isInit h) (h_bigEndCksum h)
    (h_szPage h) (h_mxFrame h) (h_nPage h) x (h_aSalt h) (h_aCksum h).
Definition hset_aSalt (x : list Z) (h : WalIndexHdr) : WalIndexHdr :=
  mkHdr (h_iVersion h) (h_unused h) (h_iChange h) (h_isInit h) (h_bigEndCksum h)
    (h_szPage h) (h_mxFrame h) (h_nPage h) (h_aFrameCksum h) x (h_aCksum h).
Definition hset_init (h : WalIndexHdr) : WalIndexHdr :=
  mkHdr WALINDEX_MAX_VERSION (h_unused h) (h_iChange h) 1 (h_bigEndCksum h)
    (h_szPage h) (h_mxFrame h) (h_nPage h) (h_aFrameCksum h) (h_aSalt h)
    (h_aCksum h).
Definition hset_aCksum (x : Z * Z) (h : WalIndexHdr) : WalIndexHdr :=
  mkHdr (h_iVersion h) (h_unused h) (h_iChange h) (h_isInit h) (h_bigEndCksum h)
    (h_szPage h) (h_mxFrame h) (h_nPage h) (h_aFrameCksum h) (h_aSalt h) x.

(** * Page sizes in sixteen bits *)

(** [(u16)((szPage&0xff00) | (szPage>>16))], how a size is stored. *)
Definition pagesize_field (szPage : Z) : Z :=
  u16 (Z.lor (Z.land szPage 0xff00) (Z.shiftr szPage 16)).

Definition walPagesize (w : Wal) : Z :=
  Z.land (h_szPage (hdr w)) 0xfe00 +
  Z.shiftl (Z.land (h_szPage (hdr w)) 0x0001) 16.

(** The sizes SQLite accepts: powers of two from 512 to 65536. *)
Definition page_size_ok (n : Z) : Prop := exists k, 9 <= k <= 16 /\ n = 2 ^ k.

Lemma page_size_cases n :
  page_size_ok n ->
  n = 512 \/ n = 1024 \/ n = 2048 \/ n = 4096 \/ n = 8192 \/ n = 16384 \/
  n = 32768 \/ n = 65536.
Proof.
  intros (k & Hk & ->).
  assert (k = 9 \/ k = 10 \/ k = 11 \/ k = 12 \/ k = 13 \/ k = 14 \/ k = 15 \/ k = 16)
    as Hc by lia.
  destruct Hc as [->|[->|[->|[->|[->|[->|[->| ->]]]]]]]; lia.
Qed.

Lemma page_size_mult8 n : page_size_ok n -> n mod 8 = 0 /\ 512 <= n <= 65536.
Proof.
  intros H%page_size_cases.
  destruct H as [->|[->|[->|[->|[->|[->|[->| ->]]]]]]]; done.
Qed.

(** The field gives the size back, 65536 included. *)
Lemma walPagesize_field w n :
  page_size_ok n -> h_szPage (hdr w) = pagesize_field n -> walPagesize w = n.
Proof.
  intros H%page_size_cases Hf. unfold walPagesize. rewrite Hf.
  destruct H as [->|[->|[->|[->|[->|[->|[->| ->]]]]]]]; done.
Qed.
