(* ===== verification/WalFormat.v ===== *)
(** The on-disk format of the log: the Fibonacci checksum, frame headers and
    their validation.  Every function takes the byte order of the host it is
    compiled for ([bigendian], the macro SQLITE_BIGENDIAN), because the code
    reads the buffers it sums as native words. *)
From S2P Require Import Prelude.
From S2P Require Import Bits.
From S2P Require Import Util.
From S2P Require Import Vfs.
From S2P Require Import WalTypes.
Open Scope Z_scope.

(** * Checksums *)

Definition BYTESWAP32 (x : Z) : Z :=
  u32 (u32 (Z.shiftl (Z.land x 0x000000FF) 24) +
       u32 (Z.shiftl (Z.land x 0x0000FF00) 8) +
       Z.shiftr (Z.land x 0x00FF0000) 8 +
       Z.shiftr (Z.land x 0xFF000000) 24).

(** The word a host reads from four bytes of memory. *)
Definition word_be (b0 b1 b2 b3 : Z) : Z :=
  Z.lor (Z.lor (Z.lor (Z.shiftl b0 24) (Z.shiftl b1 16)) (Z.shiftl b2 8)) b3.
Definition word_le (b0 b1 b2 b3 : Z) : Z := word_be b3 b2 b1 b0.

Definition word_at (bigend : bool) : Z -> Z -> Z -> Z -> Z :=
  if bigend then word_be else word_le.

(** [(u32* )a]: the complete words of a buffer. *)
Fixpoint words (bigend : bool) (a : list Z) : list Z :=
  match a with
  | b0 :: b1 :: b2 :: b3 :: a => word_at bigend b0 b1 b2 b3 :: words bigend a
  | _ => []
  end.

(** [s1 += x + s2; s2 += y + s1;] *)
Definition cksum_pair (s : Z * Z) (x y : Z) : Z * Z :=
  let s1 := u32 (s.1 + u32 (x + s.2)) in
  let s2 := u32 (s.2 + u32 (y + s1)) in
  (s1, s2).

(** The three loops: byte-swapped words, eight pairs at a time, one pair at a
    time. *)
Fixpoint cksum_swapped (s : Z * Z) (ws : list Z) : Z * Z :=
  match ws with
  | x :: y :: ws => cksum_swapped (cksum_pair s (BYTESWAP32 x) (BYTESWAP32 y)) ws
  | _ => s
  end.

Fixpoint cksum_unrolled (s : Z * Z) (ws : list Z) : Z * Z :=
  match ws with
  | x0 :: y0 :: x1 :: y1 :: x2 :: y2 :: x3 :: y3 ::
    x4 :: y4 :: x5 :: y5 :: x6 :: y6 :: x7 :: y7 :: ws =>
      let s := cksum_pair s x0 y0 in
      let s := cksum_pair s x1 y1 in
      let s := cksum_pair s x2 y2 in
      let s := cksum_pair s x3 y3 in
      let s := cksum_pair s x4 y4 in
      let s := cksum_pair s x5 y5 in
      let s := cksum_pair s x6 y6 in
      let s := cksum_pair s x7 y7 in
      cksum_unrolled s ws
  | _ => s
  end.

Fixpoint cksum_native (s : Z * Z) (ws : list Z) : Z * Z :=
  match ws with
  | x :: y :: ws => cksum_native (cksum_pair s x y) ws
  | _ => s
  end.

(** The buffer must hold [nByte] bytes, a positive multiple of eight; the
    loops read past it otherwise. *)
Definition walChecksumBytes (bigendian nativeCksum : bool) (a : list Z)
    (nByte : Z) (aIn : option (Z * Z)) : option (Z * Z) :=
  let s := default (0, 0) aIn in
  if (nByte <? 8) || negb (Z.land nByte 7 =? 0) || (zlen a <? nByte) then None
  else
    let aData := words bigendian (slice 0 nByte a) in
    Some (if negb nativeCksum then cksum_swapped s aData
          else if nByte mod 64 =? 0 then cksum_unrolled s aData
          else cksum_native s aData).

(** ** Reference: the sum over words of a stated byte order *)

Definition cksum_spec (bigend : bool) (s : Z * Z) (a : list Z) : Z * Z :=
  cksum_native s (words bigend a).

Lemma word_be_sum b0 b1 b2 b3 :
  byte_ok b1 -> byte_ok b2 -> byte_ok b3 ->
  word_be b0 b1 b2 b3 = b0 * 2 ^ 24 + b1 * 2 ^ 16 + b2 * 2 ^ 8 + b3.
Proof.
  unfold byte_ok. intros H1 H2 H3.
  assert (word_be b0 b1 b2 b3 =
          Z.lor (Z.shiftl (Z.lor (Z.shiftl (Z.lor (Z.shiftl b0 8) b1) 8) b2) 8) b3)
    as ->.
  { unfold word_be. rewrite !Z.shiftl_lor, !Z.shiftl_shiftl by lia. done. }
  rewrite !lor_disjoint_add by lia. lia.
Qed.

Lemma word_at_range bigend b0 b1 b2 b3 :
  byte_ok b0 -> byte_ok b1 -> byte_ok b2 -> byte_ok b3 ->
  0 <= word_at bigend b0 b1 b2 b3 < 2 ^ 32.
Proof.
  intros. unfold word_at, word_le.
  destruct bigend; rewrite word_be_sum by done; unfold byte_ok in *; lia.
Qed.

Lemma BYTESWAP32_word bigend b0 b1 b2 b3 :
  byte_ok b0 -> byte_ok b1 -> byte_ok b2 -> byte_ok b3 ->
  BYTESWAP32 (word_at bigend b0 b1 b2 b3) = word_at (negb bigend) b0 b1 b2 b3.
Proof.
  assert (Hsw : forall c0 c1 c2 c3, byte_ok c0 -> byte_ok c1 -> byte_ok c2 ->
            byte_ok c3 -> BYTESWAP32 (word_be c0 c1 c2 c3) = word_be c3 c2 c1 c0).
  { intros c0 c1 c2 c3 H0 H1 H2 H3.
    rewrite (word_be_sum c3) by done. unfold BYTESWAP32, word_be.
    set (x := Z.lor _ c3).
    assert (Z.land x 255 = c3) as -> by (unfold x; bits_solve).
    assert (Z.land x 65280 = Z.shiftl c2 8) as -> by (unfold x; bits_solve).
    assert (Z.shiftr (Z.land x 16711680) 8 = Z.shiftl c1 8) as ->
      by (unfold x; bits_solve).
    assert (Z.shiftr (Z.land x 4278190080) 24 = c0) as -> by (unfold x; bits_solve).
    rewrite Z.shiftl_shiftl by lia. rewrite !Z.shiftl_mul_pow2 by lia.
    unfold byte_ok in *. rewrite (u32_small (c3 * _)), (u32_small (c2 * _)) by lia.
    rewrite u32_small; lia. }
  intros. destruct bigend; simpl; unfold word_le; by rewrite Hsw.
Qed.

(** Induction on the two words a step consumes. *)
Lemma pair_ind (P : list Z -> Prop) :
  P [] -> (forall x, P [x]) -> (forall x y l, P l -> P (x :: y :: l)) ->
  forall l, P l.
Proof.
  intros H0 H1 H2 l.
  assert (P l /\ forall x, P (x :: l)) as [? _]; [|done].
  induction l as [|y l [IH1 IH2]]; split; auto.
Qed.

(** Induction on the four bytes of a word. *)
Lemma word_ind (P : list Z -> Prop) :
  (forall a, (length a < 4)%nat -> P a) ->
  (forall b0 b1 b2 b3 a, P a -> P (b0 :: b1 :: b2 :: b3 :: a)) ->
  forall a, P a.
Proof.
  intros H0 H1 a.
  remember (length a) as n eqn:Hn. revert a Hn.
  induction n as [n IH] using lt_wf_ind. intros a ->.
  destruct a as [|b0 [|b1 [|b2 [|b3 a]]]]; try (apply H0; simpl; lia).
  apply H1. eapply IH; [|done]. simpl. lia.
Qed.

Lemma cksum_swapped_native s ws :
  cksum_swapped s ws = cksum_native s (BYTESWAP32 <$> ws).
Proof.
  revert s. induction ws as [|x|x y ws IH] using pair_ind; intros s; [done..|].
  simpl. apply IH.
Qed.

Lemma words_swap bigend a :
  bytes_ok a -> BYTESWAP32 <$> words bigend a = words (negb bigend) a.
Proof.
  induction a as [a Hlen|b0 b1 b2 b3 a IH] using word_ind; intros Ha.
  - by destruct a as [|? [|? [|? [|]]]]; [..|simpl in Hlen; lia].
  - repeat match goal with
    | H : bytes_ok (_ :: _) |- _ => apply Forall_cons_1 in H as [??]
    end.
    csimpl. rewrite BYTESWAP32_word by done. by rewrite IH.
Qed.

Lemma length_words bigend a : length (words bigend a) = (length a / 4)%nat.
Proof.
  induction a as [a Hlen|b0 b1 b2 b3 a IH] using word_ind.
  - rewrite Nat.div_small by done.
    by destruct a as [|? [|? [|? [|]]]]; [..|simpl in Hlen; lia].
  - cbn [words length]. rewrite IH.
    replace (S (S (S (S (length a)))))%nat with (length a + 1 * 4)%nat by lia.
    rewrite Nat.div_add by lia. lia.
Qed.

(** Unrolling does not change the sum when the word count is a multiple of
    sixteen. *)
Lemma cksum_unrolled_native n s ws :
  length ws = (n * 16)%nat -> cksum_unrolled s ws = cksum_native s ws.
Proof.
  revert s ws. induction n as [|n IH]; intros s ws Hn.
  { by destruct ws. }
  do 16 (destruct ws as [|? ws]; [simpl in Hn; lia|]).
  cbn [cksum_unrolled cksum_native]. apply IH. simpl in Hn. lia.
Qed.

Lemma cksum_native_app s l k :
  Nat.Even (length l) -> cksum_native s (l ++ k) = cksum_native (cksum_native s l) k.
Proof.
  revert s. induction l as [|x|x y l IH] using pair_ind; intros s [n Hn].
  - done.
  - simpl in Hn. lia.
  - simpl. apply IH. exists (n - 1)%nat. simpl in Hn. lia.
Qed.

(** The checksum does not depend on which loop runs nor on the host: it is the
    sum over words of the byte order that [nativeCksum] selects. *)
Theorem walChecksum_spec bigendian native a n aIn :
  bytes_ok a -> 8 <= n <= zlen a -> n mod 8 = 0 ->
  walChecksumBytes bigendian native a n aIn =
  Some (cksum_spec (Bool.eqb native bigendian) (default (0, 0) aIn) (slice 0 n a)).
Proof.
  intros Ha Hn Hm. unfold walChecksumBytes.
  destruct (Z.ltb_spec n 8), (Z.ltb_spec (zlen a) n); try lia. simpl.
  assert (Z.land n 7 = 0) as ->.
  { change 7 with (Z.ones 3). by rewrite Z.land_ones. }
  simpl. f_equal. unfold cksum_spec.
  assert (Hs : bytes_ok (slice 0 n a)).
  { unfold slice. by apply Forall_take, Forall_drop. }
  destruct native; simpl.
  - destruct (Z.eqb_spec (n mod 64) 0) as [H64|].
    + destruct bigendian; simpl;
        (apply (cksum_unrolled_native (Z.to_nat (n / 64)));
         rewrite length_words; unfold slice, zlen in *; rewrite length_take, drop_0;
         pose proof (Z.div_mod n 64);
         rewrite Nat.min_l by lia;
         replace (Z.to_nat n) with (Z.to_nat (n / 64) * 16 * 4)%nat by lia;
         by rewrite Nat.div_mul).
    + by destruct bigendian.
  - rewrite cksum_swapped_native, words_swap by done. by destruct bigendian.
Qed.

(** So the flag computed from the header byte makes every host agree. *)
Corollary walChecksum_portable bigendian b a n aIn :
  bytes_ok a -> 8 <= n <= zlen a -> n mod 8 = 0 ->
  walChecksumBytes bigendian (Bool.eqb b bigendian) a n aIn =
  Some (cksum_spec b (default (0, 0) aIn) (slice 0 n a)).
Proof.
  intros. rewrite walChecksum_spec by done. by destruct b, bigendian.
Qed.

(** * Frames *)

(** [&a[off]] *)
Definition at_off (off : Z) (a : list Z) : list Z := drop (Z.to_nat off) a.

(** [walChecksumBytes] on the running checksum of the handle. *)
Definition walCksumRun (bigendian : bool) (pWal : Wal) (s : Z * Z) (a : list Z)
    (nByte : Z) : option (Z * Z) :=
  let nativeCksum := h_bigEndCksum (hdr pWal) =? Z.b2z bigendian in
  walChecksumBytes bigendian nativeCksum a nByte (Some s).

(** The 24 bytes of the frame header, and the handle with its running
    checksum moved on. *)
Definition walEncodeFrame (bigendian : bool) (pWal : Wal) (iPage nTruncate : Z)
    (aData : list Z) : option (list Z * Wal) :=
  let aFrame := sqlite3Put4byte iPage ++ sqlite3Put4byte nTruncate in
  if iReCksum pWal =? 0 then
    let aFrame := aFrame ++ h_aSalt (hdr pWal) in
    aCksum ← walCksumRun bigendian pWal (h_aFrameCksum (hdr pWal)) aFrame 8;
    aCksum ← walCksumRun bigendian pWal aCksum aData (szPage pWal);
    Some (aFrame ++ sqlite3Put4byte aCksum.1 ++ sqlite3Put4byte aCksum.2,
          set_hdr (hset_aFrameCksum aCksum (hdr pWal)) pWal)
  else Some (aFrame ++ replicate 16 0, pWal).

(** The page number and database size of a valid frame.  The running checksum
    is moved on even when the frame turns out to be invalid. *)
Definition walDecodeFrame (bigendian : bool) (pWal : Wal) (aData aFrame : list Z)
    : option (option (Z * Z) * Wal) :=
  if negb (bool_decide (h_aSalt (hdr pWal) = slice 8 8 aFrame))
  then Some (None, pWal) else
  pgno ← sqlite3Get4byte aFrame;
  if pgno =? 0 then Some (None, pWal) else
  aCksum ← walCksumRun bigendian pWal (h_aFrameCksum (hdr pWal)) aFrame 8;
  aCksum ← walCksumRun bigendian pWal aCksum aData (szPage pWal);
  let pWal := set_hdr (hset_aFrameCksum aCksum (hdr pWal)) pWal in
  c0 ← sqlite3Get4byte (at_off 16 aFrame);
  c1 ← sqlite3Get4byte (at_off 20 aFrame);
  if negb (aCksum.1 =? c0) || negb (aCksum.2 =? c1) then Some (None, pWal) else
  nTruncate ← sqlite3Get4byte (at_off 4 aFrame);
  Some (Some (pgno, nTruncate), pWal).

(** ** Specification *)

Definition cksum_ok (s : Z * Z) : Prop :=
  0 <= s.1 < 2 ^ 32 /\ 0 <= s.2 < 2 ^ 32.

(** The byte order the log was created with. *)
Definition log_order (h : WalIndexHdr) : bool := h_bigEndCksum h =? 1.

Definition frame_cksum (b : bool) (s : Z * Z) (aFrame aData : list Z) : Z * Z :=
  cksum_spec b (cksum_spec b s (take 8 aFrame)) aData.

(** What a handle must satisfy for frames to be written and read. *)
Record wal_ok (w : Wal) : Prop := {
  wal_ok_page : page_size_ok (szPage w);
  wal_ok_order : h_bigEndCksum (hdr w) = 0 \/ h_bigEndCksum (hdr w) = 1;
  wal_ok_salt : bytes_ok (h_aSalt (hdr w)) /\ length (h_aSalt (hdr w)) = 8%nat;
  wal_ok_cksum : cksum_ok (h_aFrameCksum (hdr w));
}.

Lemma cksum_pair_ok s x y : cksum_ok (cksum_pair s x y).
Proof. split; cbn; apply u32_range. Qed.

Lemma cksum_native_ok s ws : cksum_ok s -> cksum_ok (cksum_native s ws).
Proof.
  revert s. induction ws as [|x|x y l IH] using pair_ind; intros s Hs; [done..|].
  cbn [cksum_native]. apply IH, cksum_pair_ok.
Qed.

Lemma cksum_spec_ok b s a : cksum_ok s -> cksum_ok (cksum_spec b s a).
Proof. apply cksum_native_ok. Qed.
#[export] Hint Resolve cksum_spec_ok : carray.

Lemma frame_cksum_ok b s f d : cksum_ok s -> cksum_ok (frame_cksum b s f d).
Proof. intros. by do 2 apply cksum_spec_ok. Qed.

Lemma wal_ok_run w s :
  wal_ok w -> cksum_ok s -> wal_ok (set_hdr (hset_aFrameCksum s (hdr w)) w).
Proof. intros [] ?. by constructor. Qed.

Lemma walCksumRun_spec bigendian w s a n :
  wal_ok w -> bytes_ok a -> 8 <= n <= zlen a -> n mod 8 = 0 ->
  walCksumRun bigendian w s a n =
  Some (cksum_spec (log_order (hdr w)) s (slice 0 n a)).
Proof.
  intros Hw Ha Hn Hm. unfold walCksumRun.
  replace (h_bigEndCksum (hdr w) =? Z.b2z bigendian)
    with (Bool.eqb (log_order (hdr w)) bigendian).
  { by rewrite walChecksum_portable. }
  unfold log_order. by destruct (wal_ok_order _ Hw) as [-> | ->], bigendian.
Qed.

(** Both checksum steps of a frame at once. *)
Lemma frame_cksum_run {A} bigendian w s f d (k : Z * Z -> option A) :
  wal_ok w -> bytes_ok f -> 8 <= zlen f -> bytes_ok d -> zlen d = szPage w ->
  (c ← walCksumRun bigendian w s f 8;
   c ← walCksumRun bigendian w c d (szPage w); k c) =
  k (frame_cksum (log_order (hdr w)) s f d).
Proof.
  intros Hw Hf Hl Hd Hp. pose proof (page_size_mult8 _ (wal_ok_page _ Hw)) as [? ?].
  rewrite walCksumRun_spec by (done || lia). cbn [mbind option_bind].
  rewrite walCksumRun_spec by (done || lia). cbn [mbind option_bind].
  unfold frame_cksum. do 2 f_equal.
  rewrite <- Hp. apply slice_full.
Qed.

(** Big-endian words read back at any position. *)
Lemma Get4byte_at a v c off :
  zlen a = off -> 0 <= v < 2 ^ 32 ->
  sqlite3Get4byte (at_off off (a ++ sqlite3Put4byte v ++ c)) = Some v.
Proof.
  intros <- Hv. unfold at_off, zlen. rewrite Nat2Z.id, drop_app_length.
  by apply Get4byte_Put4byte.
Qed.

Definition frame_image (w : Wal) (pgno nTruncate : Z) (s : Z * Z) : list Z :=
  sqlite3Put4byte pgno ++ sqlite3Put4byte nTruncate ++ h_aSalt (hdr w) ++
  sqlite3Put4byte s.1 ++ sqlite3Put4byte s.2.

(** The checksum a frame of this page would carry. *)
Definition next_cksum (w : Wal) (pgno nTruncate : Z) (d : list Z) : Z * Z :=
  frame_cksum (log_order (hdr w)) (h_aFrameCksum (hdr w))
    (sqlite3Put4byte pgno ++ sqlite3Put4byte nTruncate) d.

Lemma walEncodeFrame_spec bigendian w pgno nTruncate d :
  wal_ok w -> iReCksum w = 0 -> bytes_ok d -> zlen d = szPage w ->
  let s := next_cksum w pgno nTruncate d in
  walEncodeFrame bigendian w pgno nTruncate d =
  Some (frame_image w pgno nTruncate s,
        set_hdr (hset_aFrameCksum s (hdr w)) w).
Proof.
  intros Hw Hr Hd Hp s. unfold walEncodeFrame. rewrite Hr. cbn [Z.eqb].
  destruct (wal_ok_salt _ Hw) as [Hs1 Hs2].
  rewrite frame_cksum_run; [done|done| | |done|done].
  - repeat apply Forall_app_2; auto with carray.
  - rewrite !zlen_app. pose proof (zlen_nonneg (h_aSalt (hdr w))).
    unfold zlen. rewrite !length_Put4byte. lia.
Qed.

(** A frame that the encoder would write after the frames summed so far. *)
Definition valid_frame (w : Wal) (f d : list Z) (pgno nTruncate : Z) : Prop :=
  0 < pgno < 2 ^ 32 /\ 0 <= nTruncate < 2 ^ 32 /\
  f = frame_image w pgno nTruncate (next_cksum w pgno nTruncate d).

Lemma split4 (f : list Z) :
  (4 <= length f)%nat -> exists a b c d k, f = a :: b :: c :: d :: k.
Proof.
  destruct f as [|a [|b [|c [|d k]]]]; simpl; try lia. by exists a, b, c, d, k.
Qed.

(** Four bytes are the image of the word they hold. *)
Lemma Get4byte_front f :
  bytes_ok f -> (4 <= length f)%nat ->
  exists v k, sqlite3Get4byte f = Some v /\ 0 <= v < 2 ^ 32 /\
              f = sqlite3Put4byte v ++ k /\ bytes_ok k /\
              length f = (4 + length k)%nat.
Proof.
  intros Hb Hl. destruct (split4 f Hl) as (a & b & c & d & k & ->).
  repeat match goal with
  | H : bytes_ok (_ :: _) |- _ => apply Forall_cons_1 in H as [??]
  end.
  destruct (Put4byte_Get4byte a b c d k) as (v & -> & Hv & E); [done..|].
  exists v, k. rewrite E. split_and!; (done || lia).
Qed.

(** A frame header is two words, eight bytes and two words. *)
Lemma frame_parse f :
  bytes_ok f -> length f = 24%nat ->
  exists p t salt c0 c1,
    f = sqlite3Put4byte p ++ sqlite3Put4byte t ++ salt ++
        sqlite3Put4byte c0 ++ sqlite3Put4byte c1 /\
    length salt = 8%nat /\ bytes_ok salt /\
    0 <= p < 2 ^ 32 /\ 0 <= t < 2 ^ 32 /\ 0 <= c0 < 2 ^ 32 /\ 0 <= c1 < 2 ^ 32.
Proof.
  intros Hb Hl.
  destruct (Get4byte_front f) as (p & f1 & _ & Hp & -> & Hb1 & Hl1); [done|lia|].
  destruct (Get4byte_front f1) as (t & f2 & _ & Ht & -> & Hb2 & Hl2); [done|lia|].
  destruct (Get4byte_front (drop 8 f2)) as (c0 & f3 & _ & Hc0 & E & Hb3 & Hl3).
  { by apply Forall_drop. }
  { rewrite length_drop. lia. }
  rewrite length_drop in Hl3.
  destruct (Get4byte_front f3) as (c1 & f4 & _ & Hc1 & -> & _ & Hl4); [done|lia|].
  destruct f4; [|simpl in *; lia].
  exists p, t, (take 8 f2), c0, c1. split_and!; try lia.
  - do 2 f_equal. rewrite <- (take_drop 8 f2) at 1. rewrite E.
    rewrite app_nil_r. by rewrite <- ?app_assoc.
  - rewrite length_take. lia.
  - by apply Forall_take.
Qed.

Lemma frame_image_inj w p t s p' t' salt c0 c1 :
  0 <= p < 2 ^ 32 -> 0 <= t < 2 ^ 32 -> 0 <= p' < 2 ^ 32 -> 0 <= t' < 2 ^ 32 ->
  0 <= c0 < 2 ^ 32 -> 0 <= c1 < 2 ^ 32 -> cksum_ok s ->
  length salt = length (h_aSalt (hdr w)) ->
  sqlite3Put4byte p ++ sqlite3Put4byte t ++ salt ++
    sqlite3Put4byte c0 ++ sqlite3Put4byte c1 = frame_image w p' t' s ->
  p = p' /\ t = t' /\ salt = h_aSalt (hdr w) /\ c0 = s.1 /\ c1 = s.2.
Proof.
  assert (Hinj : forall u v a b, 0 <= u < 2 ^ 32 -> 0 <= v < 2 ^ 32 ->
            sqlite3Put4byte u ++ a = sqlite3Put4byte v ++ b -> u = v /\ a = b).
  { intros u v a b Hu Hv E.
    pose proof (Get4byte_Put4byte u a Hu) as E1. rewrite E in E1.
    rewrite Get4byte_Put4byte in E1 by done. split; [congruence|].
    by eapply (f_equal (drop 4)) in E. }
  intros ?????? [? ?] Hl E. unfold frame_image in E.
  apply Hinj in E as [-> E]; [|done..]. apply Hinj in E as [-> E]; [|done..].
  apply app_inj_1 in E as [-> E]; [|done]. apply Hinj in E as [-> E]; [|done..].
  rewrite <- (app_nil_r (sqlite3Put4byte c1)), <- (app_nil_r (sqlite3Put4byte s.2)) in E.
  apply Hinj in E as [-> _]; done.
Qed.

(** Decoding, on the five fields of a header. *)
Lemma walDecodeFrame_fields bigendian w d p t salt c0 c1 :
  wal_ok w -> bytes_ok d -> zlen d = szPage w ->
  length salt = 8%nat -> bytes_ok salt ->
  0 <= p < 2 ^ 32 -> 0 <= t < 2 ^ 32 -> 0 <= c0 < 2 ^ 32 -> 0 <= c1 < 2 ^ 32 ->
  let f := sqlite3Put4byte p ++ sqlite3Put4byte t ++ salt ++
           sqlite3Put4byte c0 ++ sqlite3Put4byte c1 in
  let s := next_cksum w p t d in
  let w' := set_hdr (hset_aFrameCksum s (hdr w)) w in
  walDecodeFrame bigendian w d f =
  Some (if negb (bool_decide (h_aSalt (hdr w) = salt)) then (None, w)
        else if p =? 0 then (None, w)
        else if (s.1 =? c0) && (s.2 =? c1) then (Some (p, t), w') else (None, w')).
Proof.
  intros Hw Hd Hp Hl Hb Hpr Htr H0 H1 f s w'. unfold walDecodeFrame.
  assert (slice 8 8 f = salt) as ->.
  { unfold f. rewrite app_assoc. unfold slice. change (Z.to_nat 8) with 8%nat.
    rewrite drop_app_length'; [|done]. by rewrite take_app_length'. }
  case_bool_decide; [|done]. cbn [negb].
  assert (sqlite3Get4byte f = Some p) as ->.
  { apply Get4byte_Put4byte. done. }
  cbn [mbind option_bind]. destruct (p =? 0); [done|].
  rewrite frame_cksum_run; [|done| | |done|done].
  2:{ unfold f. repeat apply Forall_app_2; auto with carray. }
  2:{ unfold f, zlen. rewrite !length_app, !length_Put4byte. lia. }
  assert (frame_cksum (log_order (hdr w)) (h_aFrameCksum (hdr w)) f d = s) as ->
    by done.
  fold w'.
  assert (sqlite3Get4byte (at_off 16 f) = Some c0) as ->.
  { unfold f. rewrite !(app_assoc _ _ (_ ++ _)).
    apply Get4byte_at; [|done]. unfold zlen. rewrite !length_app, Hl. done. }
  assert (sqlite3Get4byte (at_off 20 f) = Some c1) as ->.
  { unfold f. rewrite !(app_assoc _ _ (_ ++ _)). rewrite app_assoc.
    rewrite <- (app_nil_r (sqlite3Put4byte c1)).
    apply Get4byte_at; [|done]. unfold zlen. rewrite !length_app, Hl. done. }
  assert (sqlite3Get4byte (at_off 4 f) = Some t) as ->.
  { unfold f. apply Get4byte_at; done. }
  cbn [mbind option_bind]. by destruct (s.1 =? c0), (s.2 =? c1).
Qed.

(** Decoding never reads outside its buffers, and accepts a header exactly
    when it is the one the encoder writes. *)
Lemma walDecodeFrame_iff bigendian w d f :
  wal_ok w -> bytes_ok d -> zlen d = szPage w -> bytes_ok f -> length f = 24%nat ->
  exists r w', walDecodeFrame bigendian w d f = Some (r, w') /\
    (forall p t, r = Some (p, t) -> 
       w' = set_hdr (hset_aFrameCksum (next_cksum w p t d) (hdr w)) w) /\
    (forall p t, r = Some (p, t) <-> valid_frame w f d p t) /\
    wal_ok w'.
Proof.
  intros Hw Hd Hp Hf Hl.
  destruct (frame_parse f Hf Hl) as (p & t & salt & c0 & c1 & -> & ? & ? & ? & ? & ? & ?).
  rewrite walDecodeFrame_fields by done. cbv zeta.
  set (s := next_cksum w p t d).
  assert (Hok : wal_ok (set_hdr (hset_aFrameCksum s (hdr w)) w)).
  { apply wal_ok_run; [done|]. by apply frame_cksum_ok, wal_ok_cksum. }
  assert (Hv : forall p' t',
    valid_frame w (sqlite3Put4byte p ++ sqlite3Put4byte t ++ salt ++
      sqlite3Put4byte c0 ++ sqlite3Put4byte c1) d p' t' ->
    p = p' /\ t = t' /\ salt = h_aSalt (hdr w) /\ c0 = s.1 /\ c1 = s.2 /\ p <> 0).
  { intros p' t' (? & ? & E). apply frame_image_inj in E; [|try done; try lia..].
    - destruct E as (-> & -> & ? & ? & ?). split_and!; try done. lia.
    - by apply frame_cksum_ok, wal_ok_cksum.
    - by rewrite (proj2 (wal_ok_salt _ Hw)). }
  case_bool_decide as Hsalt; cbn [negb].
  2:{ eexists _, _. split_and!; [reflexivity|done| |done]. intros p' t'. split; [done|].
      intros (_ & _ & ? & _)%Hv. by subst. }
  destruct (Z.eqb_spec p 0).
  { eexists _, _. split_and!; [reflexivity|done| |done]. intros p' t'. split; [done|].
    by intros (_ & _ & _ & _ & _ & ?)%Hv. }
  destruct (Z.eqb_spec s.1 c0), (Z.eqb_spec s.2 c1); cbn [andb];
    (eexists _, _; split_and!; [reflexivity|try done; intros; by simplify_eq| |done]);
    intros p' t'; split; try done; try (by intros (_ & _ & _ & ? & ? & _)%Hv).
  - intros [= <- <-]. subst. split; [lia|]. split; [done|]. done.
  - by intros (-> & -> & _)%Hv.
Qed.

(** What one host encodes the other decodes. *)
Lemma frame_decodes be1 be2 w pgno nTruncate d :
  wal_ok w -> iReCksum w = 0 -> 0 < pgno < 2 ^ 32 -> 0 <= nTruncate < 2 ^ 32 ->
  bytes_ok d -> zlen d = szPage w ->
  exists f w', walEncodeFrame be1 w pgno nTruncate d = Some (f, w') /\
               length f = 24%nat /\
               walDecodeFrame be2 w d f = Some (Some (pgno, nTruncate), w').
Proof.
  intros Hw Hr Hp Ht Hd Hl. rewrite walEncodeFrame_spec by done. cbv zeta.
  set (s := next_cksum w pgno nTruncate d).
  destruct (wal_ok_salt _ Hw) as [Hs1 Hs2].
  destruct (frame_cksum_ok (log_order (hdr w)) (h_aFrameCksum (hdr w))
              (sqlite3Put4byte pgno ++ sqlite3Put4byte nTruncate) d) as [Hc0 Hc1].
  { by apply wal_ok_cksum. }
  eexists _, _. split_and!; [done|..].
  - unfold frame_image. rewrite !length_app, Hs2. done.
  - unfold frame_image. rewrite walDecodeFrame_fields by (done || lia).
    rewrite bool_decide_true by done. fold s. rewrite !Z.eqb_refl.
    cbn [negb andb]. by destruct (Z.eqb_spec pgno 0); [lia|].
Qed.

(** * Properties *)

(** C20.  A frame written by a host of either byte order is accepted by a host
    of either byte order that has summed the same frames before it: it gives
    back the page number and the database size, and leaves both handles with
    the same running checksum. *)
Theorem frame_roundtrip be1 be2 w pgno nTruncate d :
  wal_ok w -> iReCksum w = 0 -> 0 < pgno < 2 ^ 32 -> 0 <= nTruncate < 2 ^ 32 ->
  bytes_ok d -> zlen d = szPage w ->
  exists f w', walEncodeFrame be1 w pgno nTruncate d = Some (f, w') /\
               length f = 24%nat /\
               walDecodeFrame be2 w d f = Some (Some (pgno, nTruncate), w').
Proof. apply frame_decodes. Qed.

(** C21.  Validation is exact: on any header of 24 bytes it terminates without
    reading out of bounds, it accepts the header exactly when it is the one
    the encoder would have written at this position of this log (salt, page
    number, size and chained checksum), and the handle then carries the
    checksum of that frame. *)
Theorem walDecodeFrame_exact bigendian w d f :
  wal_ok w -> bytes_ok d -> zlen d = szPage w -> bytes_ok f -> length f = 24%nat ->
  exists r w', walDecodeFrame bigendian w d f = Some (r, w') /\
    (forall p t, r = Some (p, t) ->
       w' = set_hdr (hset_aFrameCksum (next_cksum w p t d) (hdr w)) w) /\
    forall p t, r = Some (p, t) <-> valid_frame w f d p t.
Proof.
  intros Hw Hd Hp Hf Hl.
  destruct (walDecodeFrame_iff bigendian w d f) as (r & w' & E & H1 & H2 & _); eauto.
Qed.

(** A handle on a log of 512-byte pages. *)
Definition sample_wal : Wal :=
  mkWal 0 (-1) 512 0 0 true false 0 false true true false
    (hset_aSalt [1; 2; 3; 4; 5; 6; 7; 8] (hset_bigEndCksum 1 hdr_zero)) 0 0 0.

Lemma sample_wal_ok : wal_ok sample_wal.
Proof.
  constructor.
  - exists 9. done.
  - by right.
  - split; [|done]. repeat constructor; done.
  - done.
Defined.

Lemma frame_roundtrip_witness :
  exists f w', walEncodeFrame false sample_wal 7 9 (replicate 512 65) = Some (f, w') /\
               length f = 24%nat /\
               walDecodeFrame true sample_wal (replicate 512 65) f = Some (Some (7, 9), w').
Proof.
  apply (frame_roundtrip false true sample_wal 7 9 (replicate 512 65));
    [apply sample_wal_ok|done..| |done]. by apply Forall_replicate.
Defined.

Lemma walDecodeFrame_exact_witness :
  exists r w', walDecodeFrame false sample_wal (replicate 512 0) (replicate 24 1)
               = Some (r, w') /\
    (forall p t, r = Some (p, t) ->
       w' = set_hdr (hset_aFrameCksum
              (next_cksum sample_wal p t (replicate 512 0)) (hdr sample_wal)) sample_wal) /\
    forall p t, r = Some (p, t) <->
      valid_frame sample_wal (replicate 24 1) (replicate 512 0) p t.
Proof.
  apply (walDecodeFrame_exact false sample_wal (replicate 512 0) (replicate 24 1));
    [apply sample_wal_ok| |done| |done]; by apply Forall_replicate.
Defined.
