(* ===== verification/WalIndex.v ===== *)
(** The wal-index: the hash tables that map database pages to frames of the
    log.  Each 32 KB page of the index holds an array of page numbers and a
    table of 8192 slots, open-addressed with linear probing; a slot holds the
    position of a frame in the array of its page. *)
From S2P Require Import Prelude.
From S2P Require Import Probe.
From S2P Require Import Vfs.
From S2P Require Import WalTypes.
Open Scope Z_scope.

(** * Data *)

(** The collision counter of the lookup, as a number of iterations. *)
Definition nslot : nat := Z.to_nat HASHTABLE_NSLOT.

Lemma nslot_Z : Z.of_nat nslot = 8192.
Proof. unfold nslot. by rewrite Z2Nat.id. Qed.
#[global] Opaque nslot.

(** One page of the index, its header excepted. *)
Record WiPage := wiPage {
  aPgno : list Z;
  aHash : list Z;
}.

(** [pWal->apWiData] and [pWal->nWiData]: the pages mapped so far. *)
Record WalIdx := walIdx {
  apWiData : gmap Z WiPage;
  nWiData : Z;
}.

Definition wi_set (x : WalIdx) (i : Z) (pg : WiPage) : WalIdx :=
  walIdx (<[i := pg]> (apWiData x)) (nWiData x).

(** The number of page numbers that page [i] holds. *)
Definition pg_cap (i : Z) : Z :=
  if i =? 0 then HASHTABLE_NPAGE_ONE else HASHTABLE_NPAGE.

Definition zero_page (i : Z) : WiPage :=
  wiPage (replicate (Z.to_nat (pg_cap i)) 0)
         (replicate (Z.to_nat HASHTABLE_NSLOT) 0).

(** What the code asks the system for: mapping a page of shared memory (the
    result code and the page, with the write lock as the permission to
    extend), growing the array of pages, and a zeroed page on the heap. *)
Class ShmEnv := {
  xShmMap : Z -> bool -> Z * option WiPage;
  xRealloc : Z -> bool;
  xMallocZero : Z -> bool;
}.

Definition WAL_HEAPMEMORY_MODE : Z := 2.
Definition WAL_SHM_RDONLY : Z := 2.

(** * Hashing and placement *)

Definition walHash (iPage : Z) : Z :=
  Z.land (u32 (iPage * HASHTABLE_HASH_1)) (HASHTABLE_NSLOT - 1).

Definition walNextHash (iPriorHash : Z) : Z :=
  Z.land (iPriorHash + 1) (HASHTABLE_NSLOT - 1).

(** [HASHTABLE_NPAGE_ONE] is of type [size_t]: the subtractions are made in 64
    bits. *)
Definition walFramePage (iFrame : Z) : Z :=
  i32 (u64 (u64 (u32 (iFrame + HASHTABLE_NPAGE) - HASHTABLE_NPAGE_ONE) - 1)
       / HASHTABLE_NPAGE).

(** The frame before the first frame of page [iHash]. *)
Definition hash_iZero (iHash : Z) : Z :=
  if iHash =? 0 then 0
  else u32 (u64 (HASHTABLE_NPAGE_ONE + i32 (i32 (iHash - 1) * HASHTABLE_NPAGE))).

Definition walFramePgno (x : WalIdx) (iFrame : Z) : option Z :=
  let iHash := walFramePage iFrame in
  pg ← apWiData x !! iHash;
  if iHash =? 0 then (aPgno pg).[iFrame - 1]
  else (aPgno pg).[u64 (u32 (iFrame - 1) - HASHTABLE_NPAGE_ONE) mod HASHTABLE_NPAGE].

Section index.
Context `{ShmEnv}.

Definition walIndexPageRealloc (pWal : Wal) (x : WalIdx) (iPage : Z)
    : Z * option WiPage * Wal * WalIdx :=
  if (nWiData x <=? iPage) && negb (xRealloc (iPage + 1))
  then (SQLITE_NOMEM, None, pWal, x) else
  let x := if nWiData x <=? iPage then walIdx (apWiData x) (iPage + 1) else x in
  let '(rc, pp) :=
    if exclusiveMode pWal =? WAL_HEAPMEMORY_MODE then
      if xMallocZero iPage then (SQLITE_OK, Some (zero_page iPage))
      else (SQLITE_NOMEM, None)
    else xShmMap iPage (writeLock pWal) in
  let x := match pp with Some pg => wi_set x iPage pg | None => x end in
  if negb (exclusiveMode pWal =? WAL_HEAPMEMORY_MODE) && negb (rc =? SQLITE_OK)
     && (Z.land rc 0xff =? SQLITE_READONLY)
  then (if rc =? SQLITE_READONLY then SQLITE_OK else rc, pp,
        set_readOnly (Z.lor (readOnly pWal) WAL_SHM_RDONLY) pWal, x)
  else (rc, pp, pWal, x).

Definition walIndexPage (pWal : Wal) (x : WalIdx) (iPage : Z)
    : Z * option WiPage * Wal * WalIdx :=
  if nWiData x <=? iPage then walIndexPageRealloc pWal x iPage
  else match apWiData x !! iPage with
       | None => walIndexPageRealloc pWal x iPage
       | Some pg => (SQLITE_OK, Some pg, pWal, x)
       end.

(** The location is the page and the frame before its first one. *)
Definition walHashGet (pWal : Wal) (x : WalIdx) (iHash : Z)
    : Z * option (Z * WiPage) * Wal * WalIdx :=
  let '(rc, pp, pWal, x) := walIndexPage pWal x iHash in
  match pp with
  | Some pg => (rc, Some (hash_iZero iHash, pg), pWal, x)
  | None => (if rc =? SQLITE_OK then SQLITE_ERROR else rc, None, pWal, x)
  end.

(** * Clean-up *)

(** On the page itself: forget the entries beyond [iLimit]. *)
Definition cleanup_page (iLimit : Z) (pg : WiPage) : WiPage :=
  wiPage (take (Z.to_nat iLimit) (aPgno pg) ++
            replicate (length (aPgno pg) - Z.to_nat iLimit) 0)
         ((fun v => if v >? iLimit then 0 else v) <$> aHash pg).

Definition walCleanupHash (pWal : Wal) (x : WalIdx) : Wal * WalIdx :=
  let mx := h_mxFrame (hdr pWal) in
  if mx =? 0 then (pWal, x) else
  let '(i, loc, pWal, x) := walHashGet pWal x (walFramePage mx) in
  match loc with
  | Some (iZero, pg) =>
      if negb (i =? 0) then (pWal, x)
      else (pWal, wi_set x (walFramePage mx) (cleanup_page (i32 (u32 (mx - iZero))) pg))
  | None => (pWal, x)
  end.

(** * Appending *)

(** The first free slot from [iKey], or [None] when more than [nCollide]
    slots are taken. *)
Fixpoint append_probe (tbl : list Z) (nCollide : nat) (iKey : Z)
    : option (option Z) :=
  v ← tbl.[iKey];
  if v =? 0 then Some (Some iKey)
  else match nCollide with
       | O => Some None
       | S n => append_probe tbl n (walNextHash iKey)
       end.

Definition walIndexAppend (pWal : Wal) (x : WalIdx) (iFrame iPage : Z)
    : option (Z * Wal * WalIdx) :=
  let iHash := walFramePage iFrame in
  let '(rc, loc, pWal, x) := walHashGet pWal x iHash in
  if negb (rc =? SQLITE_OK) then Some (rc, pWal, x) else
  '(iZero, _) ← loc;
  let idx := i32 (u32 (iFrame - iZero)) in
  let x := if idx =? 1 then wi_set x iHash (zero_page iHash) else x in
  pg ← apWiData x !! iHash;
  old ← (aPgno pg).[idx - 1];
  let '(pWal, x) := if old =? 0 then (pWal, x) else walCleanupHash pWal x in
  pg ← apWiData x !! iHash;
  slot ← append_probe (aHash pg) (Z.to_nat idx) (walHash iPage);
  match slot with
  | None => Some (SQLITE_CORRUPT, pWal, x)
  | Some iKey =>
      aPgno' ← (aPgno pg).[idx - 1 <- iPage];
      aHash' ← (aHash pg).[iKey <- u16 idx];
      Some (SQLITE_OK, pWal, wi_set x iHash (wiPage aPgno' aHash'))
  end.

(** * Lookup *)

(** The walk along one hash table: result code and last match. *)
Fixpoint find_loop (pWal : Wal) (pgno iZero : Z) (pg : WiPage) (nCollide : nat)
    (iKey iRead : Z) : option (Z * Z) :=
  iH ← (aHash pg).[iKey];
  if iH =? 0 then Some (SQLITE_OK, iRead) else
  let iFrame := u32 (iH + iZero) in
  iRead ←
    (if (iFrame <=? h_mxFrame (hdr pWal)) && (iFrame >=? minFrame pWal) then
       p ← (aPgno pg).[iH - 1];
       Some (if p =? pgno then iFrame else iRead)
     else Some iRead);
  match nCollide with
  | O => Some (SQLITE_CORRUPT, iRead)
  | S n => find_loop pWal pgno iZero pg n (walNextHash iKey) iRead
  end.

(** The tables from [iHash] down, [n] of them. *)
Fixpoint find_tables (n : nat) (pWal : Wal) (x : WalIdx) (pgno iHash : Z)
    : option (Z * Z * Wal * WalIdx) :=
  match n with
  | O => Some (SQLITE_OK, 0, pWal, x)
  | S n =>
      let '(rc, loc, pWal, x) := walHashGet pWal x iHash in
      if negb (rc =? SQLITE_OK) then Some (rc, 0, pWal, x) else
      '(iZero, pg) ← loc;
      '(rc, iRead) ← find_loop pWal pgno iZero pg nslot (walHash pgno) 0;
      if negb (rc =? SQLITE_OK) then Some (rc, 0, pWal, x)
      else if negb (iRead =? 0) then Some (SQLITE_OK, iRead, pWal, x)
      else find_tables n pWal x pgno (iHash - 1)
  end.

(** Result code and [*piRead]. *)
Definition sqlite3WalFindFrame (pWal : Wal) (x : WalIdx) (pgno : Z)
    : option (Z * Z * Wal * WalIdx) :=
  let iLast := h_mxFrame (hdr pWal) in
  if (iLast =? 0) || ((readLock pWal =? 0) && negb (bShmUnreliable pWal))
  then Some (SQLITE_OK, 0, pWal, x)
  else
    let iMinHash := walFramePage (minFrame pWal) in
    let iHash := walFramePage iLast in
    find_tables (Z.to_nat (iHash + 1 - iMinHash)) pWal x pgno iHash.
End index.

(** * Placement of frames *)

(** No log grows that long: such a log has over 10^12 bytes. *)
Definition FRAME_MAX : Z := 2 ^ 31 - 4096.
Definition NSLOT : Z := 8192.

Lemma walFramePage_eq f : 0 <= f < 2 ^ 31 -> walFramePage f = (f + 33) / 4096.
Proof.
  unfold walFramePage. intros Hf.
  change HASHTABLE_NPAGE_ONE with 4062. change HASHTABLE_NPAGE with 4096.
  rewrite u32_small, (u64_small (f + 4096 - 4062)), u64_small by lia.
  replace (f + 4096 - 4062 - 1) with (f + 33) by lia.
  apply i32_small. pose proof (Z.div_mod (f + 33) 4096).
  pose proof (Z.mod_pos_bound (f + 33) 4096). lia.
Qed.

Lemma hash_iZero_eq i :
  0 <= i <= 2 ^ 19 -> hash_iZero i = if i =? 0 then 0 else i * 4096 - 34.
Proof.
  unfold hash_iZero. intros Hi. destruct (Z.eqb_spec i 0); [done|].
  change HASHTABLE_NPAGE_ONE with 4062. change HASHTABLE_NPAGE with 4096.
  rewrite (i32_small (i - 1)), i32_small, u64_small, u32_small by lia. lia.
Qed.

Lemma pg_cap_eq i : pg_cap i = if i =? 0 then 4062 else 4096.
Proof. reflexivity. Qed.

(** Positions within the page of a frame. *)
Lemma frame_page_idx f :
  1 <= f < FRAME_MAX ->
  0 <= walFramePage f < 2 ^ 19 /\
  1 <= f - hash_iZero (walFramePage f) <= pg_cap (walFramePage f).
Proof.
  unfold FRAME_MAX. intros Hf. rewrite walFramePage_eq by lia.
  pose proof (Z.div_mod (f + 33) 4096). pose proof (Z.mod_pos_bound (f + 33) 4096).
  assert (0 <= (f + 33) / 4096 < 2 ^ 19) by lia.
  split; [done|]. rewrite hash_iZero_eq, pg_cap_eq by lia.
  destruct (Z.eqb_spec ((f + 33) / 4096) 0); lia.
Qed.

Lemma frame_page_of i idx :
  0 <= i < 2 ^ 19 -> 1 <= idx <= pg_cap i ->
  walFramePage (hash_iZero i + idx) = i.
Proof.
  intros Hi. rewrite pg_cap_eq, hash_iZero_eq by lia.
  intros Hx.
  rewrite walFramePage_eq
    by (destruct (Z.eqb_spec i 0); [subst|]; lia).
  symmetry. destruct (Z.eqb_spec i 0) as [->|].
  - apply Z.div_unique_pos with (idx + 33); lia.
  - apply Z.div_unique_pos with (idx - 1); lia.
Qed.

Lemma iZero_next i :
  0 <= i < 2 ^ 19 -> hash_iZero (i + 1) = hash_iZero i + pg_cap i.
Proof.
  intros. rewrite !hash_iZero_eq, pg_cap_eq by lia.
  destruct (Z.eqb_spec i 0), (Z.eqb_spec (i + 1) 0); lia.
Qed.

Lemma pg_cap_range i : 4062 <= pg_cap i <= 4096.
Proof. rewrite pg_cap_eq. destruct (i =? 0); lia. Qed.

Lemma walHash_range p : 0 <= walHash p < NSLOT.
Proof.
  unfold walHash. change (HASHTABLE_NSLOT - 1) with (Z.ones 13).
  rewrite Z.land_ones by lia. apply Z.mod_pos_bound. done.
Qed.

Lemma walNextHash_slot h d : walNextHash (slot NSLOT h d) = slot NSLOT h (d + 1).
Proof.
  unfold walNextHash. change (HASHTABLE_NSLOT - 1) with (Z.ones 13).
  rewrite Z.land_ones by lia. by apply slot_next.
Qed.

(** * The invariant of one hash table

    [es] are the page numbers of the frames of this page, in order. *)

Definition pgno_ok (p : Z) : Prop := 0 < p < 2 ^ 32.

Definition reach (tbl : list Z) (p idx : Z) : Prop :=
  exists d, 0 <= d < NSLOT /\ tbl.[slot NSLOT (walHash p) d] = Some idx /\
            chain NSLOT tbl (fun v => 1 <= v < idx) (walHash p) d.

Definition distinct (tbl : list Z) (K : Z) : Prop :=
  forall s t v, 1 <= v <= K -> tbl.[s] = Some v -> tbl.[t] = Some v -> s = t.

(** The writer's view: the table holds these frames and nothing else. *)
Record hash_ok (i : Z) (pg : WiPage) (es : list Z) : Prop := {
  ho_cap : zlen es <= pg_cap i;
  ho_es : Forall pgno_ok es;
  ho_pgno : aPgno pg = es ++ replicate (Z.to_nat (pg_cap i - zlen es)) 0;
  ho_len : zlen (aHash pg) = NSLOT;
  ho_range : forall s v, (aHash pg).[s] = Some v -> 0 <= v <= zlen es;
  ho_distinct : distinct (aHash pg) (zlen es);
  ho_reach : forall idx p, es.[idx - 1] = Some p -> reach (aHash pg) p idx;
}.

(** A reader's view: these frames are indexed; later entries may be anything
    a writer is in the middle of storing. *)
Record hash_view (i : Z) (pg : WiPage) (es : list Z) : Prop := {
  hv_pgno : forall idx p, es.[idx - 1] = Some p -> (aPgno pg).[idx - 1] = Some p;
  hv_len : zlen (aHash pg) = NSLOT;
  hv_range : forall s v, (aHash pg).[s] = Some v -> 0 <= v <= pg_cap i;
  hv_free : exists s, (aHash pg).[s] = Some 0;
  hv_distinct : distinct (aHash pg) (zlen es);
  hv_reach : forall idx p, es.[idx - 1] = Some p -> reach (aHash pg) p idx;
}.

Lemma hash_ok_nonzero_inj i pg es :
  hash_ok i pg es ->
  forall s t v, v <> 0 -> (aHash pg).[s] = Some v -> (aHash pg).[t] = Some v -> s = t.
Proof.
  intros Ho s t v Hv Hs Ht. apply (ho_distinct _ _ _ Ho s t v); [|done..].
  pose proof (ho_range _ _ _ Ho s v Hs). lia.
Qed.

Lemma hash_ok_free i pg es : hash_ok i pg es -> exists s, (aHash pg).[s] = Some 0.
Proof.
  intros Ho. pose proof (pg_cap_range i). pose proof (ho_cap _ _ _ Ho).
  pose proof (zlen_nonneg es).
  apply (exists_free NSLOT ltac:(done) (aHash pg) (ho_len _ _ _ Ho) (zlen es)).
  - unfold NSLOT. lia.
  - apply (ho_range _ _ _ Ho).
  - eapply hash_ok_nonzero_inj, Ho.
Qed.

(** Earlier readers keep seeing their frames. *)
Lemma hash_ok_view i pg es rem : hash_ok i pg (es ++ rem) -> hash_view i pg es.
Proof.
  intros Ho. pose proof (ho_cap _ _ _ Ho) as Hc. pose proof (pg_cap_range i).
  pose proof (zlen_nonneg rem). rewrite zlen_app in Hc.
  assert (Hes : forall idx p, es.[idx - 1] = Some p -> (es ++ rem).[idx - 1] = Some p).
  { intros idx p Hp. pose proof (zget_range _ _ _ Hp). by rewrite zget_app_l by lia. }
  constructor.
  - intros idx p Hp%Hes. rewrite (ho_pgno _ _ _ Ho).
    pose proof (zget_range _ _ _ Hp). by rewrite zget_app_l by lia.
  - apply (ho_len _ _ _ Ho).
  - intros s v Hs. pose proof (ho_range _ _ _ Ho s v Hs) as Hr.
    rewrite zlen_app in Hr. lia.
  - by eapply hash_ok_free.
  - intros s t v Hv. apply (ho_distinct _ _ _ Ho). rewrite zlen_app. lia.
  - intros idx p Hp. by apply (ho_reach _ _ _ Ho), Hes.
Qed.

Lemma hash_ok_zero i : hash_ok i (zero_page i) [].
Proof.
  pose proof (pg_cap_range i). constructor; cbn [zero_page aPgno aHash].
  - rewrite (@zlen_nil Z). lia.
  - done.
  - cbn [app]. f_equal. rewrite (@zlen_nil Z). lia.
  - rewrite zlen_replicate. done.
  - intros s v Hs. pose proof (zget_range _ _ _ Hs) as Hr. rewrite zlen_replicate in Hr.
    rewrite zget_replicate in Hs by done. injection Hs as <-. unfold zlen. simpl. lia.
  - intros s t v Hv. rewrite (@zlen_nil Z) in Hv. lia.
  - intros idx p Hp. apply zget_range in Hp. rewrite (@zlen_nil Z) in Hp. lia.
Qed.

Lemma hash_ok_cleanup i pg es n :
  hash_ok i pg es -> 0 <= n <= zlen es ->
  hash_ok i (cleanup_page n pg) (take (Z.to_nat n) es).
Proof.
  intros Ho Hn. pose proof (ho_cap _ _ _ Ho) as Hc.
  assert (Hl : zlen (take (Z.to_nat n) es) = n) by (by apply zlen_take).
  assert (Hget : forall s v, (aHash (cleanup_page n pg)).[s] = Some v ->
            0 <= v <= n /\ (v <> 0 -> (aHash pg).[s] = Some v)).
  { intros s v. cbn [cleanup_page aHash]. rewrite zget_fmap.
    destruct ((aHash pg).[s]) as [u|] eqn:E; [|done]. intros [= <-].
    pose proof (ho_range _ _ _ Ho s u E). destruct (Z.gtb_spec u n); [lia|].
    split; [lia|done]. }
  constructor.
  - rewrite Hl. lia.
  - apply Forall_take, (ho_es _ _ _ Ho).
  - rewrite Hl. cbn [cleanup_page aPgno]. rewrite (ho_pgno _ _ _ Ho).
    rewrite take_app_le by (unfold zlen in *; lia). f_equal. f_equal.
    rewrite length_app, length_replicate. unfold zlen in *. lia.
  - cbn [cleanup_page aHash]. rewrite zlen_fmap. apply (ho_len _ _ _ Ho).
  - rewrite Hl. intros s v Hs. by apply (Hget s v).
  - rewrite Hl. intros s t v Hv Hs Ht. destruct (Hget s v Hs), (Hget t v Ht).
    apply (ho_distinct _ _ _ Ho s t v); [lia|auto with lia..].
  - intros idx p Hp. pose proof (zget_range _ _ _ Hp) as Hr. rewrite Hl in Hr.
    rewrite zget_take in Hp by lia.
    destruct (ho_reach _ _ _ Ho idx p Hp) as (d & Hd & Hs & Hch).
    assert (Hkeep : forall s v, 1 <= v <= n -> (aHash pg).[s] = Some v ->
              (aHash (cleanup_page n pg)).[s] = Some v).
    { intros s v Hv E. cbn [cleanup_page aHash]. rewrite zget_fmap, E. csimpl.
      destruct (Z.gtb_spec v n); [lia|done]. }
    exists d. split; [done|]. split; [by apply Hkeep; [lia|]|].
    intros e He. destruct (Hch e He) as (v & Hv & Hvr).
    exists v. split; [apply Hkeep; [lia|done]|lia].
Qed.

(** * The probe for a free slot *)

Lemma append_probe_chain tbl h D n :
  tbl.[slot NSLOT h D] = Some 0 -> chain NSLOT tbl (fun v => v <> 0) h D ->
  forall k : nat, (0 <= D - Z.of_nat k) -> (k <= n)%nat ->
  append_probe tbl n (slot NSLOT h (D - Z.of_nat k)) = Some (Some (slot NSLOT h D)).
Proof.
  intros H0 Hc. induction n as [|n IH]; intros k Hk Hn.
  - replace (D - Z.of_nat k) with D by lia. simpl. by rewrite H0.
  - destruct k as [|k].
    + replace (D - Z.of_nat 0) with D by lia. simpl. by rewrite H0.
    + destruct (Hc (D - Z.of_nat (S k)) ltac:(lia)) as (v & Hv & Hne).
      cbn [append_probe]. rewrite Hv. cbn [mbind option_bind].
      destruct (Z.eqb_spec v 0); [done|]. rewrite walNextHash_slot.
      replace (D - Z.of_nat (S k) + 1) with (D - Z.of_nat k) by lia.
      apply IH; lia.
Qed.

(** There is always room, and the collision counter never runs out. *)
Lemma append_probe_ok i pg es p n :
  hash_ok i pg es -> zlen es <= Z.of_nat n ->
  exists d, 0 <= d < NSLOT /\
    append_probe (aHash pg) n (walHash p) = Some (Some (slot NSLOT (walHash p) d)) /\
    (aHash pg).[slot NSLOT (walHash p) d] = Some 0 /\
    chain NSLOT (aHash pg) (fun v => 1 <= v <= zlen es) (walHash p) d.
Proof.
  intros Ho Hn. destruct (hash_ok_free _ _ _ Ho) as [s Hs].
  destruct (probe_free NSLOT ltac:(done) (aHash pg) (ho_len _ _ _ Ho) (walHash p) s Hs)
    as (d & Hd & H0 & Hc).
  assert (Hc' : chain NSLOT (aHash pg) (fun v => 1 <= v <= zlen es) (walHash p) d).
  { intros e He. destruct (Hc e He) as (v & Hv & Hne). exists v. split; [done|].
    pose proof (ho_range _ _ _ Ho _ _ Hv). lia. }
  assert (d <= zlen es).
  { apply (chain_bound NSLOT ltac:(done) (aHash pg) (ho_len _ _ _ Ho) (zlen es) (walHash p) d).
    - lia.
    - apply zlen_nonneg.
    - eapply hash_ok_nonzero_inj, Ho.
    - done. }
  exists d. split_and!; try done; try lia.
  rewrite <- (slot_0 NSLOT ltac:(done) (walHash p)) at 1 by apply walHash_range.
  replace 0 with (d - Z.of_nat (Z.to_nat d)) by lia.
  apply append_probe_chain; [done|done|lia|lia].
Qed.

(** Storing a new entry at the free slot the probe found. *)
Definition insert_page (pg : WiPage) (es : list Z) (p s : Z) : WiPage :=
  wiPage (zupd (aPgno pg) (zlen es) p) (zupd (aHash pg) s (zlen es + 1)).

Lemma zupd_app_replicate (l : list Z) n x :
  (0 < n)%nat ->
  zupd (l ++ replicate n 0) (zlen l) x = (l ++ [x]) ++ replicate (n - 1) 0.
Proof.
  intros Hn. destruct n as [|n]; [lia|]. unfold zupd, zlen.
  rewrite Nat2Z.id, <- app_assoc. simpl. rewrite Nat.sub_0_r.
  rewrite insert_app_r_alt by lia. by rewrite Nat.sub_diag.
Qed.

Lemma hash_ok_insert i pg es p d :
  hash_ok i pg es -> zlen es < pg_cap i -> pgno_ok p ->
  0 <= d < NSLOT ->
  (aHash pg).[slot NSLOT (walHash p) d] = Some 0 ->
  chain NSLOT (aHash pg) (fun v => 1 <= v <= zlen es) (walHash p) d ->
  hash_ok i (insert_page pg es p (slot NSLOT (walHash p) d)) (es ++ [p]).
Proof.
  intros Ho Hc Hp Hd H0 Hch. set (s := slot NSLOT (walHash p) d) in *.
  pose proof (slot_range NSLOT ltac:(done) (walHash p) d) as Hsr. fold s in Hsr.
  pose proof (ho_len _ _ _ Ho) as Hl. pose proof (zlen_nonneg es).
  assert (Hlen : zlen (es ++ [p]) = zlen es + 1) by (rewrite zlen_app; done).
  assert (Hget : forall t, (zupd (aHash pg) s (zlen es + 1)).[t] =
            if decide (s = t) then Some (zlen es + 1) else (aHash pg).[t]).
  { intros t. apply zget_zupd. lia. }
  constructor; cbn [insert_page aPgno aHash].
  - lia.
  - apply Forall_app_2; [apply (ho_es _ _ _ Ho)|by constructor].
  - rewrite (ho_pgno _ _ _ Ho), zupd_app_replicate by lia. f_equal. f_equal. lia.
  - by rewrite zlen_zupd.
  - intros t v. rewrite Hget, Hlen. case_decide; [intros [= <-]; lia|].
    intros Hv%(ho_range _ _ _ Ho). lia.
  - rewrite Hlen. intros t u v Hv. rewrite !Hget. repeat case_decide; subst; try done.
    + intros [= <-] Hu%(ho_range _ _ _ Ho). lia.
    + intros Ht%(ho_range _ _ _ Ho) [= <-]. lia.
    + intros Ht Hu. pose proof (ho_range _ _ _ Ho _ _ Ht).
      apply (ho_distinct _ _ _ Ho t u v); [lia|done..].
  - intros idx q Hq. destruct (decide (idx - 1 < zlen es)) as [Hlt|Hge].
    + rewrite zget_app_l in Hq by done.
      destruct (ho_reach _ _ _ Ho idx q Hq) as (e & He & Hs & Hce).
      apply zget_range in Hq.
      assert (Hkeep : forall t v, 1 <= v -> (aHash pg).[t] = Some v ->
                (zupd (aHash pg) s (zlen es + 1)).[t] = Some v).
      { intros t v Hv E. rewrite Hget. case_decide; [|done]. subst t. rewrite H0 in E. injection E. lia. }
      exists e. split; [done|]. split; [apply Hkeep; [lia|done]|].
      intros k Hk. destruct (Hce k Hk) as (v & Hv & Hvr).
      exists v. split; [apply Hkeep; [lia|done]|lia].
    + pose proof (zget_range _ _ _ Hq) as Hr. rewrite Hlen in Hr.
      assert (idx = zlen es + 1) as -> by lia.
      rewrite zget_app_r in Hq by lia.
      replace (zlen es + 1 - 1 - zlen es) with 0 in Hq by lia. injection Hq as <-.
      exists d. split; [done|]. split.
      * fold s. rewrite Hget. by rewrite decide_True.
      * intros e He. destruct (Hch e He) as (v & Hv & Hvr).
        exists v. rewrite Hget. case_decide as E; [|split; [done|lia]].
        rewrite <- E in Hv. rewrite H0 in Hv. injection Hv as <-. lia.
Qed.

(** * The index of a log

    [pgs] are the page numbers of the frames of the log, frame 1 first. *)

Definition page_frames (i : Z) (pgs : list Z) : list Z :=
  slice (hash_iZero i) (pg_cap i) pgs.

Definition mapped (x : WalIdx) (i : Z) (pg : WiPage) : Prop :=
  apWiData x !! i = Some pg /\ i < nWiData x.

(** Every page that indexes a frame of the log is mapped and [P] of it. *)
Definition all_pages (P : Z -> WiPage -> list Z -> Prop) (x : WalIdx) (pgs : list Z) : Prop :=
  forall i, 0 <= i < 2 ^ 19 -> hash_iZero i < zlen pgs ->
    exists pg, mapped x i pg /\ P i pg (page_frames i pgs).

(** The index holds the frames and nothing after them; it holds them, perhaps
    followed by what an unfinished transaction left; a reader of these frames
    is served. *)
Definition wi_clean : WalIdx -> list Z -> Prop := all_pages hash_ok.
Definition wi_ok : WalIdx -> list Z -> Prop :=
  all_pages (fun i pg es => exists rem, hash_ok i pg (es ++ rem)).
Definition wi_view : WalIdx -> list Z -> Prop := all_pages hash_view.

Lemma all_pages_impl (P Q : Z -> WiPage -> list Z -> Prop) x pgs :
  (forall i pg es, P i pg es -> Q i pg es) -> all_pages P x pgs -> all_pages Q x pgs.
Proof. intros HPQ Hx i Hi Hz. destruct (Hx i Hi Hz) as (pg & ? & ?). eauto. Qed.

Lemma wi_clean_ok x pgs : wi_clean x pgs -> wi_ok x pgs.
Proof.
  apply all_pages_impl. intros i pg es Ho. exists []. by rewrite app_nil_r.
Qed.

Lemma wi_ok_view x pgs : wi_ok x pgs -> wi_view x pgs.
Proof. apply all_pages_impl. intros i pg es [rem Ho]. by eapply hash_ok_view. Qed.

Lemma zlen_page_frames i pgs :
  0 <= i < 2 ^ 19 ->
  zlen (page_frames i pgs) = Z.max 0 (Z.min (pg_cap i) (zlen pgs - hash_iZero i)).
Proof.
  intros Hi. unfold page_frames, slice, zlen.
  pose proof (pg_cap_range i).
  assert (0 <= hash_iZero i).
  { rewrite hash_iZero_eq by lia. destruct (Z.eqb_spec i 0); lia. }
  rewrite length_take, length_drop. lia.
Qed.

Lemma page_frames_get i pgs j :
  0 <= i < 2 ^ 19 -> 0 <= j < pg_cap i ->
  (page_frames i pgs).[j] = pgs.[hash_iZero i + j].
Proof.
  intros Hi Hj. unfold page_frames, slice. rewrite zget_take by lia.
  apply zget_drop; [|lia].
  rewrite hash_iZero_eq by lia. destruct (Z.eqb_spec i 0); lia.
Qed.

Lemma iZero_nonneg i : 0 <= i < 2 ^ 19 -> 0 <= hash_iZero i.
Proof.
  intros. rewrite hash_iZero_eq by lia. destruct (Z.eqb_spec i 0); lia.
Qed.

Lemma iZero_mono i j :
  0 <= i < 2 ^ 19 -> 0 <= j < 2 ^ 19 -> i < j ->
  hash_iZero i + pg_cap i <= hash_iZero j.
Proof.
  intros. rewrite !hash_iZero_eq, pg_cap_eq by lia.
  destruct (Z.eqb_spec i 0), (Z.eqb_spec j 0); lia.
Qed.

(** One more frame changes the frames of its page only. *)
Lemma page_frames_snoc_same i pgs p :
  0 <= i < 2 ^ 19 -> 0 <= zlen pgs - hash_iZero i < pg_cap i ->
  page_frames i (pgs ++ [p]) = page_frames i pgs ++ [p].
Proof.
  intros Hi Hr. pose proof (iZero_nonneg i Hi).
  unfold page_frames, slice, zlen in *.
  rewrite drop_app_le by lia. rewrite !firstn_all2; [done| |];
    rewrite ?length_app, ?length_drop; simpl; lia.
Qed.

Lemma page_frames_snoc_before i pgs p :
  0 <= i < 2 ^ 19 -> hash_iZero i + pg_cap i <= zlen pgs ->
  page_frames i (pgs ++ [p]) = page_frames i pgs.
Proof.
  intros Hi Hr. pose proof (iZero_nonneg i Hi). pose proof (pg_cap_range i).
  unfold page_frames. apply slice_app_l; lia.
Qed.

(** * Mapping pages *)

Section mapping.
Context `{ShmEnv}.

(** Mapping a page leaves the handle's header and the pages already mapped
    alone. *)
Definition wal_same (w w' : Wal) : Prop :=
  hdr w' = hdr w /\ minFrame w' = minFrame w /\ readLock w' = readLock w /\
  bShmUnreliable w' = bShmUnreliable w /\ szPage w' = szPage w /\
  writeLock w' = writeLock w /\ exclusiveMode w' = exclusiveMode w /\
  iReCksum w' = iReCksum w /\ nCkpt w' = nCkpt w /\ ckptLock w' = ckptLock w.

Definition idx_extends (x x' : WalIdx) : Prop :=
  forall i pg, mapped x i pg -> mapped x' i pg.

Lemma wal_same_refl w : wal_same w w.
Proof. by repeat split. Qed.

Lemma idx_extends_refl x : idx_extends x x.
Proof. by intros i pg. Qed.

Lemma walIndexPage_mapped w x i pg :
  mapped x i pg -> walIndexPage w x i = (SQLITE_OK, Some pg, w, x).
Proof.
  intros [E Hi]. unfold walIndexPage. destruct (Z.leb_spec (nWiData x) i); [lia|].
  by rewrite E.
Qed.

Lemma walHashGet_mapped w x i pg :
  mapped x i pg -> walHashGet w x i = (SQLITE_OK, Some (hash_iZero i, pg), w, x).
Proof. intros Hm. unfold walHashGet. by rewrite (walIndexPage_mapped w x i pg). Qed.

Lemma walIndexPageRealloc_inv w x i rc pp w' x' :
  (forall pg, ~ mapped x i pg) ->
  walIndexPageRealloc w x i = (rc, pp, w', x') ->
  wal_same w w' /\ idx_extends x x' /\ (forall pg, pp = Some pg -> mapped x' i pg).
Proof.
  intros Hnm. unfold walIndexPageRealloc.
  destruct ((nWiData x <=? i) && _); [intros [= <- <- <- <-]; by split_and!; [apply wal_same_refl|apply idx_extends_refl|]|].
  set (x1 := if nWiData x <=? i then _ else _).
  assert (Hx1 : apWiData x1 = apWiData x /\ i < nWiData x1 /\ nWiData x <= nWiData x1).
  { unfold x1. destruct (Z.leb_spec (nWiData x) i); cbn; split_and!; (done || lia). }
  destruct Hx1 as (Hap & Hi & Hn).
  set (c := if exclusiveMode w =? _ then _ else _). destruct c as [rc1 pp1].
  set (x2 := match pp1 with Some pg => _ | None => _ end).
  assert (Hext : idx_extends x x2).
  { intros j pg [Hj Hlt]. unfold x2, mapped. destruct pp1 as [pg1|]; cbn; rewrite Hap.
    - rewrite lookup_insert_ne; [split; [done|lia]|].
      intros ->. by apply (Hnm pg).
    - split; [done|lia]. }
  assert (Hpp : forall pg, pp1 = Some pg -> mapped x2 i pg).
  { intros pg ->. unfold x2, mapped. cbn. by rewrite lookup_insert_eq. }
  destruct (negb _ && _ && _); intros [= <- <- <- <-]; by split_and!.
Qed.

Lemma walIndexPage_inv w x i rc pp w' x' :
  walIndexPage w x i = (rc, pp, w', x') ->
  wal_same w w' /\ idx_extends x x' /\ (forall pg, pp = Some pg -> mapped x' i pg).
Proof.
  unfold walIndexPage. destruct (Z.leb_spec (nWiData x) i) as [Hle|Hlt].
  { intros E. eapply walIndexPageRealloc_inv, E. intros pg [??]. lia. }
  destruct (apWiData x !! i) as [pg|] eqn:E.
  - intros [= <- <- <- <-].
    split_and!; [apply wal_same_refl|apply idx_extends_refl|].
    by intros ? [= <-].
  - apply walIndexPageRealloc_inv. intros pg [??]. congruence.
Qed.

(** What the VFS promises a connection that may extend the shared memory: a
    mapping that succeeds, or that is only read-only, yields the page. *)
Definition shm_map_law : Prop :=
  forall i rc, xShmMap i true = (rc, None) -> rc <> SQLITE_OK /\ rc <> SQLITE_READONLY.

Lemma walIndexPage_some w x i pp w' x' :
  shm_map_law -> writeLock w = true ->
  walIndexPage w x i = (SQLITE_OK, pp, w', x') -> pp <> None.
Proof.
  intros Hlaw Hw. unfold walIndexPage.
  assert (Hr : walIndexPageRealloc w x i = (SQLITE_OK, pp, w', x') -> pp <> None).
  { unfold walIndexPageRealloc. rewrite Hw.
    destruct (_ && negb (xRealloc _)); [done|].
    destruct (exclusiveMode w =? WAL_HEAPMEMORY_MODE); cbn [negb andb].
    - by destruct (xMallocZero i); intros [= <- _ _] || intros [=].
    - destruct (xShmMap i true) as [rc1 [pg1|]] eqn:E; cbn [negb andb].
      + destruct (_ && _); by intros [= _ <- _ _].
      + destruct (Hlaw i rc1 E) as [Hl1 Hl2].
        destruct (Z.eqb_spec rc1 SQLITE_OK), (Z.eqb_spec rc1 SQLITE_READONLY); try done.
        destruct (_ && _); by intros [= ? _ _ _]. }
  destruct (nWiData x <=? i); [done|].
  destruct (apWiData x !! i); [by intros [= <- _ _]|done].
Qed.

Lemma walHashGet_inv w x i rc loc w' x' :
  walHashGet w x i = (rc, loc, w', x') ->
  wal_same w w' /\ idx_extends x x' /\
  (rc = SQLITE_OK -> exists pg, loc = Some (hash_iZero i, pg) /\ mapped x' i pg).
Proof.
  unfold walHashGet, walIndexPage.
  destruct (Z.leb_spec (nWiData x) i) as [Hle|Hlt].
  2: destruct (apWiData x !! i) as [pg|] eqn:E.
  2:{ intros [= <- <- <- <-].
      split_and!; [apply wal_same_refl|apply idx_extends_refl|].
      intros _. by exists pg. }
  all: destruct (walIndexPageRealloc w x i) as [[[rc1 pp1] w1] x1] eqn:Er;
    apply walIndexPageRealloc_inv in Er as (Hs & He & Hp);
      [|intros pg [??]; lia || congruence];
    destruct pp1 as [pg|]; intros [= <- <- <- <-]; split_and!; try done;
    intros Hrc; [exists pg; auto|by destruct (Z.eqb_spec rc1 SQLITE_OK)].
Qed.
End mapping.

Lemma idx_extends_clean x x' pgs :
  idx_extends x x' -> wi_clean x pgs -> wi_clean x' pgs.
Proof. intros He Hx i Hi Hl. destruct (Hx i Hi Hl) as (pg & ? & ?). eauto. Qed.

(** * Appending a frame *)

Lemma mapped_set x i pg0 pg : mapped x i pg0 -> mapped (wi_set x i pg) i pg.
Proof. intros [_ Hi]. split; [|done]. cbn. by rewrite lookup_insert_eq. Qed.

Lemma mapped_set_ne x i j pg pg' :
  mapped x j pg -> j <> i -> mapped (wi_set x i pg') j pg.
Proof. intros [E Hj] Hne. split; [|done]. cbn. by rewrite lookup_insert_ne. Qed.

(** A page beyond the last frame may hold anything. *)
Lemma wi_clean_set x i pg pgs :
  wi_clean x pgs -> zlen pgs <= hash_iZero i -> wi_clean (wi_set x i pg) pgs.
Proof.
  intros Hx Hz j Hj Hl. destruct (Hx j Hj Hl) as (pgj & Hm & Ho).
  exists pgj. split; [|done]. apply mapped_set_ne; [done|]. intros ->. lia.
Qed.

Lemma wi_set_lookup x i pg : apWiData (wi_set x i pg) !! i = Some pg.
Proof. cbn. by rewrite lookup_insert_eq. Qed.

Lemma idx_of_frame i idx :
  0 <= i < 2 ^ 19 -> 1 <= idx <= pg_cap i ->
  i32 (u32 (hash_iZero i + idx - hash_iZero i)) = idx.
Proof.
  intros Hi Hx. pose proof (pg_cap_range i).
  replace (hash_iZero i + idx - hash_iZero i) with idx by lia.
  rewrite u32_small by lia. apply i32_small. lia.
Qed.

Section append.
Context `{ShmEnv}.

Lemma walCleanupHash_mapped w x i n pg :
  0 <= i < 2 ^ 19 -> 1 <= n <= pg_cap i ->
  h_mxFrame (hdr w) = hash_iZero i + n -> mapped x i pg ->
  walCleanupHash w x = (w, wi_set x i (cleanup_page n pg)).
Proof.
  intros Hi Hn Hmx Hm. unfold walCleanupHash. rewrite Hmx.
  pose proof (iZero_nonneg i Hi).
  destruct (Z.eqb_spec (hash_iZero i + n) 0); [lia|].
  rewrite frame_page_of by done. rewrite (walHashGet_mapped w x i pg Hm).
  cbn [Z.eqb negb SQLITE_OK]. by rewrite idx_of_frame.
Qed.

(** The last part of the append, once the position is known to be free. *)
Lemma append_store i pg es p idx :
  hash_ok i pg es -> zlen es = idx - 1 -> idx <= pg_cap i -> pgno_ok p ->
  exists a t iKey,
    hash_ok i (wiPage a t) (es ++ [p]) /\
    append_probe (aHash pg) (Z.to_nat idx) (walHash p) = Some (Some iKey) /\
    (aPgno pg).[idx - 1 <- p] = Some a /\
    (aHash pg).[iKey <- u16 idx] = Some t.
Proof.
  intros Ho Hz Hc Hp. pose proof (pg_cap_range i). pose proof (zlen_nonneg es).
  destruct (append_probe_ok i pg es p (Z.to_nat idx) Ho) as (d & Hd & Hpr & Hfree & Hch);
    [lia|].
  eexists _, _, _. split_and!.
  - apply (hash_ok_insert i pg es p d); (done || lia).
  - done.
  - rewrite Hz. apply zset_zupd.
    rewrite (ho_pgno _ _ _ Ho), zlen_app, zlen_replicate. lia.
  - rewrite u16_small by lia. replace idx with (zlen es + 1) by lia.
    apply zset_zupd. rewrite (ho_len _ _ _ Ho). by apply slot_range.
Qed.

Lemma walIndexAppend_core w x i idx p pg0 w' x' es rem :
  0 <= i < 2 ^ 19 -> 1 <= idx <= pg_cap i -> pgno_ok p ->
  walHashGet w x i = (SQLITE_OK, Some (hash_iZero i, pg0), w', x') ->
  mapped x' i pg0 -> zlen es = idx - 1 ->
  (idx <> 1 -> hash_ok i pg0 (es ++ rem) /\
               (rem = [] \/ h_mxFrame (hdr w') = hash_iZero i + (idx - 1))) ->
  exists x'' pg', walIndexAppend w x (hash_iZero i + idx) p = Some (SQLITE_OK, w', x'') /\
    mapped x'' i pg' /\ hash_ok i pg' (es ++ [p]) /\
    (forall j pg, j <> i -> mapped x' j pg -> mapped x'' j pg).
Proof.
  intros Hi Hx Hp Hget Hm Hes Hrem. unfold walIndexAppend.
  rewrite frame_page_of by done. rewrite Hget. cbn [Z.eqb negb SQLITE_OK mbind option_bind].
  rewrite idx_of_frame by done.
  destruct (Z.eqb_spec idx 1) as [->|Hne].
  - rewrite wi_set_lookup. cbn [mbind option_bind].
    assert (es = []) as -> by (destruct es; [done|rewrite zlen_cons in Hes;
                               pose proof (zlen_nonneg es); lia]).
    replace (1 - 1) with 0 by lia. pose proof (pg_cap_range i).
    assert ((aPgno (zero_page i)).[0] = Some 0) as ->.
    { cbn [zero_page aPgno]. apply zget_replicate. lia. }
    cbn [mbind option_bind Z.eqb]. rewrite wi_set_lookup. cbn [mbind option_bind].
    edestruct (append_store i (zero_page i) [] p 1) as (a & t & iKey & Ho & E & Ea & Et);
      [apply hash_ok_zero|done|lia|done|].
    replace (1 - 1) with 0 in Ea by lia.
    rewrite E; cbn [mbind option_bind]; rewrite Ea; cbn [mbind option_bind];
        rewrite Et; cbn [mbind option_bind]. eexists _, (wiPage a t). split_and!; [done| |done|].
    + eapply mapped_set, mapped_set, Hm.
    + intros j pg Hj Hmj. eauto using mapped_set_ne.
  - destruct (Hrem Hne) as [Ho Hor]. destruct Hm as [Hap Hn]. rewrite Hap.
    assert (Hm : mapped x' i pg0) by done.
    cbn [mbind option_bind]. pose proof (ho_cap _ _ _ Ho) as Hc.
    rewrite (ho_pgno _ _ _ Ho).
    destruct rem as [|q rem].
    + rewrite app_nil_r in Ho |- *. 
      rewrite zget_app_r, zget_replicate by lia. cbn [mbind option_bind Z.eqb].
      rewrite Hap. cbn [mbind option_bind].
      edestruct (append_store i pg0 es p idx) as (a & t & iKey & Ho' & E & Ea & Et); [done|done|lia|done|].
      rewrite E; cbn [mbind option_bind]; rewrite Ea; cbn [mbind option_bind];
        rewrite Et; cbn [mbind option_bind]. eexists _, (wiPage a t). split_and!; [done| |done|].
      * by eapply mapped_set.
      * intros j pg Hj Hmj. eauto using mapped_set_ne.
    + destruct Hor as [?|Hmx]; [done|].
      rewrite <- app_assoc, zget_app_r by lia. rewrite Hes, Z.sub_diag. cbn [app].
      rewrite zget_cons_0. cbn [mbind option_bind].
      assert (Hq : pgno_ok q).
      { pose proof (ho_es _ _ _ Ho) as Hf. apply Forall_app in Hf as [_ Hf].
        by apply Forall_cons_1 in Hf as [? _]. }
      destruct (Z.eqb_spec q 0) as [->|]; [unfold pgno_ok in Hq; lia|].
      rewrite zlen_app in Hc. pose proof (zlen_nonneg (q :: rem)).
      rewrite (walCleanupHash_mapped w' x' i (idx - 1) pg0) by (done || lia).
      rewrite wi_set_lookup. cbn [mbind option_bind].
      assert (Hclean : hash_ok i (cleanup_page (idx - 1) pg0) es).
      { assert (take (Z.to_nat (idx - 1)) (es ++ q :: rem) = es) as Et.
        { rewrite <- Hes. unfold zlen. rewrite Nat2Z.id. apply take_app_length. }
        rewrite <- Et. apply hash_ok_cleanup; [done|rewrite zlen_app; lia]. }
      destruct (append_store i _ es p idx Hclean Hes ltac:(lia) Hp)
        as (a & t & iKey & Ho' & E & Ea & Et).
      rewrite E; cbn [mbind option_bind]; rewrite Ea; cbn [mbind option_bind];
        rewrite Et; cbn [mbind option_bind]. eexists _, (wiPage a t). split_and!; [done| |done|].
      * by eapply mapped_set, mapped_set.
      * intros j pg Hj Hmj. eauto using mapped_set_ne.
Qed.
End append.

(** * Finding a frame *)

Section lookup.
Context (w : Wal) (pgno i : Z) (pg : WiPage) (es : list Z).
Context (Hi : 0 <= i < 2 ^ 19) (Hv : hash_view i pg es).
(** Entries beyond [es] are beyond the reader's snapshot. *)
Context (Hlast : forall v, 1 <= v <= pg_cap i ->
           (hash_iZero i + v <= h_mxFrame (hdr w) <-> v <= zlen es)).

Local Abbreviation h := (walHash pgno).
Local Abbreviation tbl := (aHash pg).

(** Entry [v] is a frame the reader may use. *)
Definition match_at (v : Z) : Prop :=
  es.[v - 1] = Some pgno /\ minFrame w <= hash_iZero i + v.

Definition last_match (d r : Z) : Prop :=
  (r = 0 /\ forall e v, 0 <= e < d -> tbl.[slot NSLOT h e] = Some v -> ~ match_at v) \/
  exists v, r = hash_iZero i + v /\ match_at v /\
    forall e u, 0 <= e < d -> tbl.[slot NSLOT h e] = Some u -> match_at u -> u <= v.

Lemma match_range v : match_at v -> 1 <= v <= zlen es.
Proof. intros [E _]. apply zget_range in E. lia. Qed.

(** Along the walk, the entries of one page number come in order. *)
Lemma match_order e v e' v' :
  0 <= e < e' -> e' < NSLOT -> tbl.[slot NSLOT h e] = Some v ->
  tbl.[slot NSLOT h e'] = Some v' -> match_at v' -> v < v'.
Proof using Hv.
  intros He He' E E' Hm. pose proof (match_range _ Hm).
  destruct Hm as [Hes _]. destruct (hv_reach _ _ _ Hv v' pgno Hes) as (d & Hd & Hs & Hc).
  assert (d = e') as ->.
  { apply (slot_inj NSLOT ltac:(done) h); [lia|lia|].
    by apply (hv_distinct _ _ _ Hv _ _ v'); [lia|..]. }
  destruct (Hc e ltac:(lia)) as (u & Hu & ?). rewrite E in Hu. injection Hu as ->. lia.
Qed.

(** One iteration moves the invariant on. *)
Lemma last_match_S d r v :
  0 <= d < NSLOT -> last_match d r -> tbl.[slot NSLOT h d] = Some v ->
  last_match (d + 1)
    (if decide (match_at v) then hash_iZero i + v else r).
Proof using Hv.
  intros Hd Hl Hs. case_decide as Hm.
  - right. exists v. split_and!; [done|done|]. intros e u He Hu Hmu.
    destruct (decide (e = d)) as [->|]; [rewrite Hs in Hu; injection Hu as ->; lia|].
    enough (u < v) by lia. by apply (match_order e u d v); [lia|lia|..].
  - destruct Hl as [[-> Hno]|(u & -> & Hmu & Hmax)].
    + left. split; [done|]. intros e u He Hu.
      destruct (decide (e = d)) as [->|]; [congruence|]. apply (Hno e u); [lia|done].
    + right. exists u. split_and!; [done|done|]. intros e u' He Hu'.
      destruct (decide (e = d)) as [->|]; [rewrite Hs in Hu'; congruence|].
      apply (Hmax e u'); [lia|done].
Qed.

Lemma find_loop_walk D :
  0 <= D < NSLOT -> tbl.[slot NSLOT h D] = Some 0 ->
  chain NSLOT tbl (fun v => v <> 0) h D ->
  forall n d r, 0 <= d <= D -> D - d < Z.of_nat n -> last_match d r ->
  exists r', find_loop w pgno (hash_iZero i) pg n (slot NSLOT h d) r = Some (SQLITE_OK, r') /\
             last_match D r'.
Proof using Hi Hv Hlast.
  intros HD H0 Hc n. induction n as [|n IH]; intros d r Hd Hn Hl; [lia|].
  cbn [find_loop]. destruct (decide (d = D)) as [->|Hne].
  { rewrite H0. cbn [mbind option_bind Z.eqb]. eauto. }
  destruct (Hc d ltac:(lia)) as (v & Hs & Hv0). rewrite Hs. cbn [mbind option_bind].
  destruct (Z.eqb_spec v 0); [done|]. pose proof (hv_range _ _ _ Hv _ _ Hs) as Hr.
  pose proof (iZero_nonneg i Hi). pose proof (pg_cap_range i).
  pose proof (hash_iZero_eq i ltac:(lia)) as Ez.
  rewrite (u32_small (v + hash_iZero i)) by (destruct (i =? 0); lia).
  rewrite (Z.add_comm v).
  assert (Hstep : (if (hash_iZero i + v <=? h_mxFrame (hdr w)) &&
                      (hash_iZero i + v >=? minFrame w)
                   then (aPgno pg).[v - 1] ≫=
                        fun p => Some (if p =? pgno then hash_iZero i + v else r)
                   else Some r) =
            Some (if decide (match_at v) then hash_iZero i + v else r)).
  { pose proof (Hlast v ltac:(lia)) as Hiff.
    destruct (Z.leb_spec (hash_iZero i + v) (h_mxFrame (hdr w))) as [Hle|Hgt]; cbn [andb].
    - apply Hiff in Hle. destruct (zget_some es (v - 1)) as [p Hp]; [lia|].
      rewrite (hv_pgno _ _ _ Hv v p Hp). cbn [mbind option_bind].
      unfold match_at. rewrite Z.geb_leb.
      destruct (Z.leb_spec (minFrame w) (hash_iZero i + v)).
      + destruct (Z.eqb_spec p pgno) as [->|]; [by rewrite decide_True|].
        rewrite decide_False; [done|]. intros [? _]. congruence.
      + rewrite decide_False; [done|]. lia.
    - rewrite decide_False; [done|]. intros Hm%match_range. lia. }
  rewrite Hstep. cbn [mbind option_bind].
  rewrite walNextHash_slot. apply IH; [lia|lia|]. by apply last_match_S; [lia|..].
Qed.

(** The walk returns the last usable frame of this page number. *)
Lemma find_loop_correct :
  exists r, find_loop w pgno (hash_iZero i) pg nslot h 0 =
              Some (SQLITE_OK, r) /\
    ((r = 0 /\ forall v, ~ match_at v) \/
     exists v, r = hash_iZero i + v /\ match_at v /\ forall u, match_at u -> u <= v).
Proof using Hi Hv Hlast.
  destruct (hv_free _ _ _ Hv) as [s Hs].
  destruct (probe_free NSLOT ltac:(done) tbl (hv_len _ _ _ Hv) h s Hs)
    as (D & HD & H0 & Hc).
  destruct (find_loop_walk D HD H0 Hc nslot 0 0) as (r & E & Hl).
  { lia. } { rewrite nslot_Z. unfold NSLOT in HD. lia. }
  { left. split; [done|]. intros. lia. }
  rewrite slot_0 in E by (done || apply walHash_range).
  exists r. split; [done|].
  assert (Hall : forall v, match_at v -> exists e, 0 <= e < D /\ tbl.[slot NSLOT h e] = Some v).
  { intros v Hm. pose proof (match_range _ Hm). destruct Hm as [Hes _].
    destruct (hv_reach _ _ _ Hv v pgno Hes) as (d & Hd & Hsd & Hcd).
    exists d. split; [|done]. destruct (decide (d < D)) as [|Hge]; [lia|exfalso].
    destruct (decide (d = D)) as [->|].
    - rewrite H0 in Hsd. injection Hsd as <-. lia.
    - destruct (Hcd D ltac:(lia)) as (u & Hu & ?). rewrite H0 in Hu.
      injection Hu as <-. lia. }
  destruct Hl as [[-> Hno]|(v & -> & Hm & Hmax)].
  - left. split; [done|]. intros v Hm. destruct (Hall v Hm) as (e & He & Hse).
    by apply (Hno e v He Hse).
  - right. exists v. split_and!; [done|done|]. intros u Hu.
    destruct (Hall u Hu) as (e & He & Hse). by apply (Hmax e u He Hse).
Qed.
End lookup.

(** * The operations on a log *)

Definition frame_of (pgs : list Z) (f : Z) : option Z := pgs.[f - 1].

(** The last frame of [lo..hi] that holds the page, 0 if none does. *)
Definition last_frame (pgs : list Z) (pgno lo hi r : Z) : Prop :=
  (r = 0 /\ forall f, lo <= f <= hi -> frame_of pgs f <> Some pgno) \/
  (lo <= r <= hi /\ frame_of pgs r = Some pgno /\
   forall f, r < f <= hi -> frame_of pgs f <> Some pgno).

Section log.
Context `{ShmEnv}.

(** The position of frame [f] in its page. *)
Lemma frame_locate f :
  1 <= f < FRAME_MAX ->
  exists i idx, 0 <= i < 2 ^ 19 /\ 1 <= idx <= pg_cap i /\
                f = hash_iZero i + idx /\ walFramePage f = i.
Proof.
  intros Hf. destruct (frame_page_idx f Hf) as [Hi Hx].
  exists (walFramePage f), (f - hash_iZero (walFramePage f)).
  split_and!; (lia || done).
Qed.

Lemma walFramePgno_ok x pgs f :
  wi_view x pgs -> 1 <= f <= zlen pgs -> zlen pgs < FRAME_MAX ->
  walFramePgno x f = frame_of pgs f.
Proof.
  intros Hx Hf Hmax. destruct (frame_locate f) as (i & idx & Hi & Hidx & -> & Hp); [lia|].
  unfold walFramePgno. rewrite Hp.
  destruct (Hx i Hi ltac:(lia)) as (pg & [Hap _] & Hv). rewrite Hap.
  cbn [mbind option_bind]. unfold frame_of.
  destruct (zget_some pgs (hash_iZero i + idx - 1)) as [p Hpg]; [lia|].
  assert ((aPgno pg).[idx - 1] = Some p) as E.
  { apply (hv_pgno _ _ _ Hv). rewrite page_frames_get by lia. rewrite <- Hpg.
    f_equal. lia. }
  rewrite Hpg, <- E. rewrite hash_iZero_eq in * by lia. rewrite pg_cap_eq in Hidx.
  unfold FRAME_MAX in Hmax.
  destruct (Z.eqb_spec i 0) as [->|]; [f_equal; lia|].
  change HASHTABLE_NPAGE_ONE with 4062. change HASHTABLE_NPAGE with 4096.
  rewrite u32_small, u64_small by lia. f_equal.
  symmetry. apply Z.mod_unique_pos with (i - 1); lia.
Qed.

(** Taking frames off the end. *)
Lemma walCleanupHash_ok w x pgs rest :
  wi_ok x (pgs ++ rest) -> h_mxFrame (hdr w) = zlen pgs ->
  zlen pgs < FRAME_MAX ->
  exists x', walCleanupHash w x = (w, x') /\ wi_clean x' pgs.
Proof.
  intros Hx Hmx Hmax. pose proof (zlen_nonneg rest).
  destruct (decide (zlen pgs = 0)) as [Hz|Hz].
  { exists x. unfold walCleanupHash. rewrite Hmx, Hz. split; [done|].
    intros i Hi Hl. pose proof (iZero_nonneg i Hi). lia. }
  pose proof (zlen_nonneg pgs).
  destruct (frame_locate (zlen pgs)) as (i & n & Hi & Hn & Hf & Hp); [lia|].
  destruct (Hx i Hi) as (pg & Hm & rem & Ho); [rewrite zlen_app; lia|].
  exists (wi_set x i (cleanup_page n pg)). split.
  { apply walCleanupHash_mapped; [done|done|lia|done]. }
  assert (Hpre : forall j, 0 <= j < 2 ^ 19 -> exists k,
            page_frames j (pgs ++ rest) = page_frames j pgs ++ k).
  { intros j Hj. unfold page_frames, slice.
    pose proof (iZero_nonneg j Hj). rewrite drop_app.
    destruct (decide (hash_iZero j <= zlen pgs)).
    - rewrite take_app. eauto.
    - rewrite (drop_ge pgs) by (unfold zlen in *; lia). rewrite take_nil. eauto. }
  intros j Hj Hl. destruct (decide (j = i)) as [->|Hne].
  - exists (cleanup_page n pg). split; [by eapply mapped_set|].
    destruct (Hpre i Hi) as [k Hk]. rewrite Hk, <- app_assoc in Ho.
    pose proof (zlen_page_frames i pgs Hi) as Hlen.
    assert (zlen (page_frames i pgs) = n) as Hzn by lia.
    replace (page_frames i pgs) with
      (take (Z.to_nat n) (page_frames i pgs ++ k ++ rem)).
    + apply hash_ok_cleanup; [done|]. rewrite zlen_app, Hzn.
      pose proof (zlen_nonneg (k ++ rem)). lia.
    + rewrite <- Hzn. unfold zlen. rewrite Nat2Z.id. apply take_app_length.
  - assert (j < i) as Hlt.
    { destruct (decide (i < j)); [|lia]. pose proof (iZero_mono i j Hi Hj). lia. }
    pose proof (iZero_mono j i Hj Hi Hlt) as Hbef.
    destruct (Hx j Hj) as (pgj & Hmj & remj & Hoj); [rewrite zlen_app; lia|].
    exists pgj. split; [by apply mapped_set_ne|].
    assert (Hpj : page_frames j (pgs ++ rest) = page_frames j pgs).
    { unfold page_frames. pose proof (pg_cap_range j). pose proof (iZero_nonneg j Hj).
      apply slice_app_l; lia. }
    rewrite Hpj in Hoj. pose proof (ho_cap _ _ _ Hoj) as Hc. rewrite zlen_app in Hc.
    pose proof (zlen_page_frames j pgs Hj). pose proof (zlen_nonneg remj).
    assert (remj = []) as ->.
    { destruct remj as [|r0 remj]; [done|]. rewrite zlen_cons in Hc.
      pose proof (zlen_nonneg remj). pose proof (pg_cap_range j). lia. }
    by rewrite app_nil_r in Hoj.
Qed.

(** Adding a frame at the end. *)
Lemma walIndexAppend_ok w x pgs p :
  wi_ok x pgs -> zlen pgs + 1 < FRAME_MAX -> pgno_ok p ->
  (wi_clean x pgs \/ h_mxFrame (hdr w) = zlen pgs) ->
  exists rc w' x', walIndexAppend w x (zlen pgs + 1) p = Some (rc, w', x') /\
    wal_same w w' /\
    (rc = SQLITE_OK -> wi_clean x' (pgs ++ [p])) /\
    (rc <> SQLITE_OK -> wi_ok x' pgs) /\
    (forall pg, mapped x (walFramePage (zlen pgs + 1)) pg -> rc = SQLITE_OK).
Proof.
  intros Hx Hmax Hp Hor. pose proof (zlen_nonneg pgs).
  destruct (frame_locate (zlen pgs + 1)) as (i & idx & Hi & Hidx & Hf & Hpage); [lia|].
  rewrite Hf in Hpage |- *.
  destruct (walHashGet w x i) as [[[rc loc] w'] x'] eqn:Hget.
  pose proof (walHashGet_inv _ _ _ _ _ _ _ Hget) as (Hsame & Hext & Hok).
  destruct (decide (rc = SQLITE_OK)) as [->|Hrc].
  2:{ exists rc, w', x'. split_and!; try done.
      - unfold walIndexAppend. rewrite Hpage, Hget. by destruct (Z.eqb_spec rc SQLITE_OK).
      - intros _ j Hj Hl. destruct (Hx j Hj Hl) as (pg & Hm & Ho). eauto.
      - rewrite Hpage. intros pg Hm. rewrite (walHashGet_mapped w x i pg Hm) in Hget.
        by injection Hget as <-. }
  destruct (Hok eq_refl) as (pg0 & -> & Hm0).
  pose proof (zlen_page_frames i pgs Hi) as Hlen. pose proof (pg_cap_range i).
  assert (Hold : idx <> 1 -> exists rem, hash_ok i pg0 (page_frames i pgs ++ rem) /\
            (rem = [] \/ h_mxFrame (hdr w') = hash_iZero i + (idx - 1))).
  { intros Hne. destruct Hsame as (-> & _). destruct Hor as [Hcl|Hmx].
    - destruct (Hcl i Hi ltac:(lia)) as (pg & Hm & Ho).
      apply Hext in Hm. destruct Hm as [E1 _], Hm0 as [E2 _]. rewrite E1 in E2.
      injection E2 as ->. exists []. rewrite app_nil_r. auto.
    - destruct (Hx i Hi ltac:(lia)) as (pg & Hm & rem & Ho).
      apply Hext in Hm. destruct Hm as [E1 _], Hm0 as [E2 _]. rewrite E1 in E2.
      injection E2 as ->. exists rem. split; [done|right; lia]. }
  assert (exists rem, idx <> 1 -> hash_ok i pg0 (page_frames i pgs ++ rem) /\
            (rem = [] \/ h_mxFrame (hdr w') = hash_iZero i + (idx - 1))) as [rem Hrem].
  { destruct (decide (idx = 1)); [by exists []|]. destruct Hold as [rem ?]; eauto. }
  destruct (walIndexAppend_core w x i idx p pg0 w' x' (page_frames i pgs) rem)
    as (x'' & pg' & E & Hm' & Ho' & Hothers); try done; [lia|].
  exists SQLITE_OK, w', x''. split_and!; try done.
  intros _ j Hj Hl. rewrite zlen_app in Hl. change (zlen [p]) with 1 in Hl.
  destruct (decide (j = i)) as [->|Hne].
  - exists pg'. split; [done|]. rewrite page_frames_snoc_same by lia. done.
  - assert (j < i) as Hlt.
    { destruct (decide (i < j)); [|lia]. pose proof (iZero_mono i j Hi Hj). lia. }
    pose proof (iZero_mono j i Hj Hi Hlt) as Hbef. pose proof (pg_cap_range j).
    rewrite page_frames_snoc_before by lia.
    destruct (Hx j Hj ltac:(lia)) as (pgj & Hmj & remj & Hoj).
    exists pgj. split; [by apply Hothers, Hext|].
    pose proof (ho_cap _ _ _ Hoj) as Hc. rewrite zlen_app in Hc.
    pose proof (zlen_page_frames j pgs Hj).
    destruct remj as [|r0 remj]; [by rewrite app_nil_r in Hoj|].
    rewrite zlen_cons in Hc. pose proof (zlen_nonneg remj). lia.
Qed.
End log.

Section find_step.
Context `{ShmEnv}.

Lemma find_tables_S n pWal x pgno iHash :
  find_tables (S n) pWal x pgno iHash =
    let '(rc, loc, pWal, x) := walHashGet pWal x iHash in
    if negb (rc =? SQLITE_OK) then Some (rc, 0, pWal, x) else
    '(iZero, pg) ← loc;
    '(rc, iRead) ← find_loop pWal pgno iZero pg nslot (walHash pgno) 0;
    if negb (rc =? SQLITE_OK) then Some (rc, 0, pWal, x)
    else if negb (iRead =? 0) then Some (SQLITE_OK, iRead, pWal, x)
    else find_tables n pWal x pgno (iHash - 1).
Proof. reflexivity. Qed.

Lemma find_tables_step w x pgno n i z pg r :
  walHashGet w x i = (SQLITE_OK, Some (z, pg), w, x) ->
  find_loop w pgno z pg nslot (walHash pgno) 0 = Some (SQLITE_OK, r) ->
  find_tables (S n) w x pgno i =
  if negb (r =? 0) then Some (SQLITE_OK, r, w, x) else find_tables n w x pgno (i - 1).
Proof.
  intros E1 E2. rewrite find_tables_S, E1.
  transitivity
    (match find_loop w pgno z pg nslot (walHash pgno) 0 with
     | Some res =>
         (fun '(rc, iRead) =>
            if negb (rc =? SQLITE_OK) then Some (rc, 0, w, x)
            else if negb (iRead =? 0) then Some (SQLITE_OK, iRead, w, x)
            else find_tables n w x pgno (i - 1)) res
     | None => None
     end); [reflexivity|].
  by rewrite E2.
Qed.
End find_step.

Section find.
Context `{ShmEnv} (w : Wal) (x : WalIdx) (pgs : list Z) (pgno : Z).
Context (Hx : wi_view x pgs) (Hmax : zlen pgs < FRAME_MAX).
Context (Hmx : h_mxFrame (hdr w) = zlen pgs) (Hmin : 1 <= minFrame w).

Lemma match_frame i v :
  0 <= i < 2 ^ 19 -> 1 <= v <= pg_cap i ->
  match_at w pgno i (page_frames i pgs) v <->
  frame_of pgs (hash_iZero i + v) = Some pgno /\ minFrame w <= hash_iZero i + v.
Proof.
  intros Hi Hv. unfold match_at, frame_of. rewrite page_frames_get by lia.
  by replace (hash_iZero i + (v - 1)) with (hash_iZero i + v - 1) by lia.
Qed.

(** From table [i] down, nothing having been found above it. *)
Lemma find_tables_ok n i :
  -1 <= i < 2 ^ 19 -> (0 <= i -> hash_iZero i < zlen pgs) ->
  0 <= walFramePage (minFrame w) -> Z.of_nat n = Z.max 0 (i + 1 - walFramePage (minFrame w)) ->
  minFrame w < FRAME_MAX ->
  (forall f, hash_iZero (i + 1) < f <= zlen pgs -> minFrame w <= f ->
     frame_of pgs f <> Some pgno) ->
  exists r, find_tables n w x pgno i = Some (SQLITE_OK, r, w, x) /\
            last_frame pgs pgno (minFrame w) (zlen pgs) r.
Proof using Hx Hmax Hmx Hmin.
  revert i. induction n as [|n IH]; intros i Hi Hne Hlo Hn Hmf Hno.
  - exists 0. split; [done|]. left. split; [done|]. intros f Hf Hfr.
    destruct (frame_locate f) as (j & idx & Hj & Hidx & -> & Hp); [lia|].
    destruct (frame_locate (minFrame w)) as (m & k & Hm & Hk & Hmm & Hpm); [lia|].
    rewrite Hpm in Hn.
    apply (Hno (hash_iZero j + idx)); [|lia|done]. split; [|lia].
    destruct (decide (i + 1 = j)) as [->|]; [lia|].
    assert (m <= j). 
    { destruct (decide (j < m)); [|lia]. pose proof (iZero_mono j m Hj Hm). lia. }
    pose proof (iZero_mono (i + 1) j). pose proof (pg_cap_range (i + 1)). lia.
  - destruct (decide (0 <= i)) as [Hi0|]; [|lia].
    specialize (Hne Hi0).
    destruct (Hx i ltac:(lia) Hne) as (pg & Hm & Hv).
    pose proof (walHashGet_mapped w x i pg Hm) as Eg.
    pose proof (zlen_page_frames i pgs ltac:(lia)) as Hlen.
    pose proof (pg_cap_range i).
    destruct (find_loop_correct w pgno i pg (page_frames i pgs)) as (r & E & Hr);
      [lia|done| |].
    { intros v Hvr. rewrite Hmx, Hlen. lia. }
    rewrite (find_tables_step w x pgno n i _ pg r Eg E).
    pose proof (iZero_nonneg i ltac:(lia)).
    pose proof (iZero_next i) as Hnext.
    assert (Hup : forall f, hash_iZero i < f <= zlen pgs -> minFrame w <= f ->
              frame_of pgs f = Some pgno ->
              match_at w pgno i (page_frames i pgs) (f - hash_iZero i)).
    { intros f Hf Hfm Hfr.
      destruct (decide (f <= hash_iZero i + pg_cap i)).
      - apply match_frame; [lia|lia|]. split; [|lia].
        by replace (hash_iZero i + (f - hash_iZero i)) with f by lia.
      - exfalso. apply (Hno f); [|done|done]. rewrite Hnext by lia. lia. }
    destruct Hr as [[-> Hnone]|(v & -> & Hmv & Hmaxv)].
    + cbn [Z.eqb negb]. apply IH; try lia.
      * intros Hi'. pose proof (iZero_mono (i - 1) i). pose proof (pg_cap_range (i - 1)). lia.
      * replace (i - 1 + 1) with i by lia. intros f Hf Hfm Hfr.
        by apply (Hnone (f - hash_iZero i)), Hup.
    + pose proof (match_range _ _ _ _ _ Hmv) as Hvr.
      destruct (Z.eqb_spec (hash_iZero i + v) 0); [lia|]. cbn [negb].
      exists (hash_iZero i + v). split; [done|]. right.
      apply match_frame in Hmv as [Hfr Hge]; [|lia|lia].
      split_and!; [lia|lia|done|]. intros f Hf Hff.
      specialize (Hmaxv (f - hash_iZero i)).
      assert (f - hash_iZero i <= v); [|lia]. apply Hmaxv, Hup; [lia|lia|done].
Qed.

Lemma FindFrame_ok :
  minFrame w < FRAME_MAX -> readLock w <> 0 \/ bShmUnreliable w = true ->
  exists r, sqlite3WalFindFrame w x pgno = Some (SQLITE_OK, r, w, x) /\
            last_frame pgs pgno (minFrame w) (zlen pgs) r.
Proof using Hx Hmax Hmx Hmin.
  intros Hmf Hrd. unfold sqlite3WalFindFrame. rewrite Hmx.
  destruct (Z.eqb_spec (zlen pgs) 0) as [Hz|Hz]; cbn [orb].
  { exists 0. split; [done|]. left. split; [done|]. intros f Hf Hff.
    apply zget_range in Hff. lia. }
  assert (((readLock w =? 0) && negb (bShmUnreliable w)) = false) as ->.
  { destruct Hrd as [Hr| ->]; [|by rewrite andb_false_r].
    by destruct (Z.eqb_spec (readLock w) 0). }
  pose proof (zlen_nonneg pgs).
  destruct (frame_locate (zlen pgs)) as (i & idx & Hi & Hidx & Hf & Hp); [lia|].
  destruct (frame_locate (minFrame w)) as (m & k & Hm & Hk & Hmm & Hpm); [lia|].
  rewrite Hp. apply find_tables_ok; try lia.
  intros f Hff. rewrite iZero_next in Hff by lia. lia.
Qed.
End find.

(** * Several frames, and readers of an older log *)

Lemma wi_ok_prefix x pgs rest : wi_ok x (pgs ++ rest) -> wi_ok x pgs.
Proof.
  intros Hx i Hi Hl. pose proof (zlen_nonneg rest).
  destruct (Hx i Hi) as (pg & Hm & rem & Ho); [rewrite zlen_app; lia|].
  exists pg. split; [done|].
  assert (exists k, page_frames i (pgs ++ rest) = page_frames i pgs ++ k) as [k Hk].
  { unfold page_frames, slice. pose proof (iZero_nonneg i Hi).
    rewrite drop_app_le by (unfold zlen in *; lia). rewrite take_app. eauto. }
  exists (k ++ rem). by rewrite app_assoc, <- Hk.
Qed.

(** Two answers to the same question are the same. *)
Lemma last_frame_unique pgs pgno lo hi r r' :
  1 <= lo -> last_frame pgs pgno lo hi r -> last_frame pgs pgno lo hi r' -> r = r'.
Proof.
  intros Hlo [[-> H1]|(H1 & H2 & H3)] [[-> H4]|(H4 & H5 & H6)].
  - done.
  - by destruct (H1 r').
  - by destruct (H4 r).
  - destruct (decide (r < r')); [by destruct (H3 r'); [lia|]|].
    destruct (decide (r' < r)); [by destruct (H6 r); [lia|]|lia].
Qed.

Section batch.
Context `{ShmEnv}.

(** Appending the frames of a list of pages, stopping at the first error. *)
Fixpoint append_all (pWal : Wal) (x : WalIdx) (iFrame : Z) (ps : list Z)
    : option (Z * Wal * WalIdx) :=
  match ps with
  | [] => Some (SQLITE_OK, pWal, x)
  | p :: ps =>
      '(rc, pWal, x) ← walIndexAppend pWal x (iFrame + 1) p;
      if negb (rc =? SQLITE_OK) then Some (rc, pWal, x)
      else append_all pWal x (iFrame + 1) ps
  end.

Lemma wal_same_trans w1 w2 w3 : wal_same w1 w2 -> wal_same w2 w3 -> wal_same w1 w3.
Proof. unfold wal_same. intuition congruence. Qed.

Lemma append_all_clean ps w x pgs :
  wi_clean x pgs -> zlen pgs + zlen ps < FRAME_MAX -> Forall pgno_ok ps ->
  exists rc w' x', append_all w x (zlen pgs) ps = Some (rc, w', x') /\
    wal_same w w' /\
    (rc = SQLITE_OK -> wi_clean x' (pgs ++ ps)) /\ wi_ok x' pgs.
Proof.
  revert w x pgs. induction ps as [|p ps IH]; intros w x pgs Hx Hmax Hps.
  - exists SQLITE_OK, w, x. rewrite app_nil_r.
    split_and!; [done|apply wal_same_refl|done|by apply wi_clean_ok].
  - apply Forall_cons_1 in Hps as [Hp Hps]. rewrite zlen_cons in Hmax.
    pose proof (zlen_nonneg ps).
    destruct (walIndexAppend_ok w x pgs p) as (rc & w1 & x1 & E & Hs & Hok & Hbad & _);
      [by apply wi_clean_ok|lia|done|by left|].
    cbn [append_all]. rewrite E. cbn [mbind option_bind].
    destruct (Z.eqb_spec rc SQLITE_OK) as [->|Hrc]; cbn [negb].
    + specialize (Hok eq_refl).
      destruct (IH w1 x1 (pgs ++ [p])) as (rc' & w2 & x2 & E2 & Hs2 & Hok2 & Hpre);
        [done|rewrite zlen_app; change (zlen [p]) with 1; lia|done|].
      rewrite zlen_app in E2. change (zlen [p]) with 1 in E2.
      rewrite <- app_assoc in Hok2. cbn [app] in Hok2.
      exists rc', w2, x2. split_and!;
        [done|by eapply wal_same_trans|done|by eapply wi_ok_prefix].
    + exists rc, w1, x1. split_and!; [done|done|done|auto].
Qed.

Lemma append_all_ok p ps w x pgs :
  wi_ok x pgs -> h_mxFrame (hdr w) = zlen pgs ->
  zlen pgs + zlen (p :: ps) < FRAME_MAX -> Forall pgno_ok (p :: ps) ->
  exists rc w' x', append_all w x (zlen pgs) (p :: ps) = Some (rc, w', x') /\
    wal_same w w' /\
    (rc = SQLITE_OK -> wi_clean x' (pgs ++ p :: ps)) /\ wi_ok x' pgs.
Proof.
  intros Hx Hmx Hmax Hps. apply Forall_cons_1 in Hps as [Hp Hps].
  rewrite zlen_cons in Hmax. pose proof (zlen_nonneg ps).
  destruct (walIndexAppend_ok w x pgs p) as (rc & w1 & x1 & E & Hs & Hok & Hbad & _);
    [done|lia|done|by right|].
  cbn [append_all]. rewrite E. cbn [mbind option_bind].
  destruct (Z.eqb_spec rc SQLITE_OK) as [->|Hrc]; cbn [negb].
  - specialize (Hok eq_refl).
    destruct (append_all_clean ps w1 x1 (pgs ++ [p]))
      as (rc' & w2 & x2 & E2 & Hs2 & Hok2 & Hpre);
      [done|rewrite zlen_app; change (zlen [p]) with 1; lia|done|].
    rewrite zlen_app in E2. change (zlen [p]) with 1 in E2.
    rewrite <- app_assoc in Hok2. cbn [app] in Hok2.
    exists rc', w2, x2. split_and!;
      [done|by eapply wal_same_trans|done|by eapply wi_ok_prefix].
  - exists rc, w1, x1. split_and!; [done|done|done|auto].
Qed.
End batch.

(** * Properties *)

Section properties.
Context `{ShmEnv}.

(** C7.  Lookup is correct: for a reader whose snapshot is the log [pgs],
    [sqlite3WalFindFrame] returns without error the number of the last frame
    at or after [minFrame] that holds the page, and 0 exactly when there is
    none.  The index may hold entries of later transactions, or of one that
    is being written: they never change the answer, and the loops always
    end before the collision counter does. *)
Theorem sqlite3WalFindFrame_correct w x pgs pgno :
  wi_view x pgs -> zlen pgs < FRAME_MAX -> h_mxFrame (hdr w) = zlen pgs ->
  1 <= minFrame w < FRAME_MAX -> readLock w <> 0 \/ bShmUnreliable w = true ->
  exists r, sqlite3WalFindFrame w x pgno = Some (SQLITE_OK, r, w, x) /\
            last_frame pgs pgno (minFrame w) (zlen pgs) r /\
            forall r', last_frame pgs pgno (minFrame w) (zlen pgs) r' -> r' = r.
Proof.
  intros Hx Hmax Hmx Hmin Hrd.
  destruct (FindFrame_ok w x pgs pgno Hx Hmax Hmx) as (r & E & Hr); [lia|lia|done|].
  exists r. split_and!; [done|done|]. intros r' Hr'.
  by eapply last_frame_unique; [|done|done]; lia.
Qed.

(** C8.  Appending frames keeps the index correct: whatever an unfinished
    transaction left behind the log [pgs], indexing the pages of a
    transaction either succeeds, and the index then holds exactly the
    longer log, or stops at an error of the system; in both cases the
    frames of [pgs] stay indexed for the readers that use them.  The hash
    table never reports corruption. *)
Theorem walIndexAppend_correct w x pgs p ps :
  wi_ok x pgs -> h_mxFrame (hdr w) = zlen pgs ->
  zlen pgs + zlen (p :: ps) < FRAME_MAX -> Forall pgno_ok (p :: ps) ->
  exists rc w' x', append_all w x (zlen pgs) (p :: ps) = Some (rc, w', x') /\
    wal_same w w' /\
    (rc = SQLITE_OK -> wi_clean x' (pgs ++ p :: ps)) /\ wi_view x' pgs.
Proof.
  intros Hx Hmx Hmax Hps.
  destruct (append_all_ok p ps w x pgs) as (rc & w' & x' & E & Hs & Hok & Hpre); try done.
  exists rc, w', x'. split_and!; try done. by apply wi_ok_view.
Qed.

(** Rolling back: after [mxFrame] is moved back, [walCleanupHash] leaves
    an index that holds the frames up to it and nothing else. *)
Theorem walCleanupHash_correct w x pgs rest :
  wi_ok x (pgs ++ rest) -> h_mxFrame (hdr w) = zlen pgs -> zlen pgs < FRAME_MAX ->
  exists x', walCleanupHash w x = (w, x') /\ wi_clean x' pgs.
Proof. apply walCleanupHash_ok. Qed.
End properties.

(** ** Instances *)

(** A system where every page can be mapped, full of old content. *)
Definition sample_env : ShmEnv := {|
  xShmMap i _ := (SQLITE_OK,
    Some (wiPage (replicate (Z.to_nat (pg_cap i)) 77)
                 (replicate (Z.to_nat HASHTABLE_NSLOT) 5)));
  xRealloc _ := true;
  xMallocZero _ := true;
|}.

Definition reader_wal (mx : Z) : Wal :=
  mkWal 0 (-1) 512 1 0 true false 0 false true true false
    (hset_mxFrame mx hdr_zero) 1 0 0.

Definition sample_idx (ps : list Z) : WalIdx :=
  match @append_all sample_env (reader_wal 0) (walIdx ∅ 0) 0 ps with
  | Some (_, _, x) => x
  | None => walIdx ∅ 0
  end.

Lemma sample_idx_clean : wi_clean (sample_idx [7; 9; 7]) [7; 9; 7].
Proof.
  destruct (@append_all_clean sample_env [7; 9; 7] (reader_wal 0) (walIdx ∅ 0) [])
    as (rc & w & x & E & _ & Hok & _).
  - intros i Hi Hl. pose proof (iZero_nonneg i Hi).
    rewrite (@zlen_nil Z) in Hl. lia.
  - done.
  - repeat constructor; done.
  - unfold sample_idx. change (zlen []) with 0 in E. rewrite E. apply Hok.
    assert (fst <$> (fst <$> @append_all sample_env (reader_wal 0) (walIdx ∅ 0) 0 [7; 9; 7])
            = Some SQLITE_OK) as Hrc by (vm_compute; reflexivity).
    rewrite E in Hrc. by injection Hrc.
Qed.

Lemma sqlite3WalFindFrame_correct_witness :
  exists r, @sqlite3WalFindFrame sample_env (reader_wal 3) (sample_idx [7; 9; 7]) 7
              = Some (SQLITE_OK, r, reader_wal 3, sample_idx [7; 9; 7]) /\
            last_frame [7; 9; 7] 7 1 3 r /\
            forall r', last_frame [7; 9; 7] 7 1 3 r' -> r' = r.
Proof.
  apply (@sqlite3WalFindFrame_correct sample_env (reader_wal 3) (sample_idx [7; 9; 7])
           [7; 9; 7] 7).
  - apply wi_ok_view, wi_clean_ok, sample_idx_clean.
  - done.
  - done.
  - done.
  - left. done.
Defined.

Lemma walIndexAppend_correct_witness :
  exists rc w' x',
    @append_all sample_env (reader_wal 3) (sample_idx [7; 9; 7]) 3 [9; 4] = Some (rc, w', x') /\
    wal_same (reader_wal 3) w' /\
    (rc = SQLITE_OK -> wi_clean x' [7; 9; 7; 9; 4]) /\ wi_view x' [7; 9; 7].
Proof.
  apply (@walIndexAppend_correct sample_env (reader_wal 3) (sample_idx [7; 9; 7])
           [7; 9; 7] 9 [4]).
  - apply wi_clean_ok, sample_idx_clean.
  - done.
  - done.
  - repeat constructor; done.
Defined.

Lemma walCleanupHash_correct_witness :
  exists x', @walCleanupHash sample_env (reader_wal 1) (sample_idx [7; 9; 7])
               = (reader_wal 1, x') /\ wi_clean x' [7].
Proof.
  apply (@walCleanupHash_correct sample_env (reader_wal 1) (sample_idx [7; 9; 7]) [7] [9; 7]).
  - apply wi_clean_ok, sample_idx_clean.
  - done.
  - done.
Defined.
