(* ===== verification/WalState.v ===== *)
(** The world a connection to a log runs in, and the operations every part of
    wal.c shares: locks, barriers, the header of the wal-index.

    The header copies, the checkpoint information and the index pages are
    shared memory: whenever the connection calls the system for a lock or a
    barrier, other connections may have run, so those calls return the shared
    memory as they leave it.  A computation is a function of the world that
    returns a value and the new world, or [None] where the C code would have
    undefined behaviour. *)
From S2P Require Import Prelude.
From S2P Require Import Bits.
From S2P Require Import Util.
From S2P Require Import Vfs.
From S2P Require Import Aws.
From S2P Require Import WalTypes.
From S2P Require Import WalFormat.
From S2P Require Import WalIndex.
Open Scope Z_scope.

(** * Constants *)

Definition WAL_WRITE_LOCK : Z := 0.
Definition WAL_ALL_BUT_WRITE : Z := 1.
Definition WAL_CKPT_LOCK : Z := 1.
Definition WAL_RECOVER_LOCK : Z := 2.
Definition WAL_READ_LOCK (i : Z) : Z := 3 + i.

Definition SQLITE_SHM_UNLOCK : Z := 1.
Definition SQLITE_SHM_LOCK : Z := 2.
Definition SQLITE_SHM_SHARED : Z := 4.
Definition SQLITE_SHM_EXCLUSIVE : Z := 8.

Definition WAL_NORMAL_MODE : Z := 0.
Definition WAL_EXCLUSIVE_MODE : Z := 1.

Definition WAL_RETRY : Z := -1.

(** * Shared memory, the system and the world *)

Record Shared := mkShared {
  sh_hdr0 : WalIndexHdr;
  sh_hdr1 : WalIndexHdr;
  sh_ckpt : WalCkptInfo;
  sh_idx : WalIdx;
}.

(** The calls to the system: a lock request (first lock, number of locks,
    flags), a memory barrier, random bytes, an allocation of some bytes, the
    sector size of the log file, a pause, what the start of the shared memory
    holds when it is mapped, the result code of an attempt to map it, and
    unmapping it; whether the database connection was interrupted, and whether
    that is for want of memory; a request for the exclusive lock of the
    database file; the setting that keeps the log when it is closed, and the
    deletion of the log. *)
Class WalOS (OS : Type) := {
  xShmLock : OS -> Shared -> Z -> Z -> Z -> Z * Shared * OS;
  xShmBarrier : OS -> Shared -> Shared * OS;
  xRandomness : OS -> Z -> list Z * OS;
  xMalloc : OS -> Z -> bool * OS;
  xSectorSize : OS -> Z;
  xSleep : OS -> Z -> Shared -> Shared * OS;
  xShmHeader : OS -> WalIndexHdr * WalIndexHdr * WalCkptInfo;
  xShmProbe : OS -> Z * OS;
  xShmUnmap : OS -> bool -> OS;
  xInterrupted : OS -> bool * bool * OS;
  xLockExclusive : OS -> Z * OS;
  xPersistWal : OS -> Z;
  xDeleteLog : OS -> OS;
}.

Record World (F OS : Type) := mkWorld {
  w_wal : Wal;
  w_sh : Shared;
  w_log : F;
  w_db : F;
  w_aws : Aws;
  w_os : OS;
}.
Arguments mkWorld {F OS}.
Arguments w_wal {F OS}.
Arguments w_sh {F OS}.
Arguments w_log {F OS}.
Arguments w_db {F OS}.
Arguments w_aws {F OS}.
Arguments w_os {F OS}.

Definition sh_set_hdr0 (h : WalIndexHdr) (s : Shared) : Shared :=
  mkShared h (sh_hdr1 s) (sh_ckpt s) (sh_idx s).
Definition sh_set_hdr1 (h : WalIndexHdr) (s : Shared) : Shared :=
  mkShared (sh_hdr0 s) h (sh_ckpt s) (sh_idx s).
Definition sh_set_ckpt (c : WalCkptInfo) (s : Shared) : Shared :=
  mkShared (sh_hdr0 s) (sh_hdr1 s) c (sh_idx s).
Definition sh_set_idx (x : WalIdx) (s : Shared) : Shared :=
  mkShared (sh_hdr0 s) (sh_hdr1 s) (sh_ckpt s) x.

Definition ck_set_nBackfill (n : Z) (c : WalCkptInfo) : WalCkptInfo :=
  mkCkpt n (aReadMark c) (nBackfillAttempted c).
Definition ck_set_attempted (n : Z) (c : WalCkptInfo) : WalCkptInfo :=
  mkCkpt (nBackfill c) (aReadMark c) n.
Definition ck_set_marks (m : list Z) (c : WalCkptInfo) : WalCkptInfo :=
  mkCkpt (nBackfill c) m (nBackfillAttempted c).

(** * Computations *)

Section monad.
Context {F OS : Type}.

Definition M (A : Type) : Type := World F OS -> option (A * World F OS).

#[export] Instance M_ret : MRet M := fun A x s => Some (x, s).
#[export] Instance M_bind : MBind M := fun A B k m s =>
  match m s with
  | Some (x, s') => k x s'
  | None => None
  end.

Definition fail {A} : M A := fun _ => None.

(** A value that C would read out of bounds. *)
Definition of_option {A} (o : option A) : M A := fun s =>
  match o with Some x => Some (x, s) | None => None end.

Definition gets {A} (f : World F OS -> A) : M A := fun s => Some (f s, s).

Definition upd_wal (f : Wal -> Wal) : M unit := fun s =>
  Some (tt, mkWorld (f (w_wal s)) (w_sh s) (w_log s) (w_db s) (w_aws s) (w_os s)).
Definition upd_sh (f : Shared -> Shared) : M unit := fun s =>
  Some (tt, mkWorld (w_wal s) (f (w_sh s)) (w_log s) (w_db s) (w_aws s) (w_os s)).
Definition put_log (f : F) : M unit := fun s =>
  Some (tt, mkWorld (w_wal s) (w_sh s) f (w_db s) (w_aws s) (w_os s)).
Definition put_db (f : F) : M unit := fun s =>
  Some (tt, mkWorld (w_wal s) (w_sh s) (w_log s) f (w_aws s) (w_os s)).
Definition upd_hdr (f : WalIndexHdr -> WalIndexHdr) : M unit :=
  upd_wal (fun w => set_hdr (f (hdr w)) w).

(** The buffer of the uploads. *)
Definition upd_aws (f : Aws -> option Aws) : M unit := fun s =>
  match f (w_aws s) with
  | Some a => Some (tt, mkWorld (w_wal s) (w_sh s) (w_log s) (w_db s) a (w_os s))
  | None => None
  end.

Definition get_wal : M Wal := gets w_wal.
Definition get_hdr : M WalIndexHdr := gets (fun s => hdr (w_wal s)).
Definition get_ckpt : M WalCkptInfo := gets (fun s => sh_ckpt (w_sh s)).

(** [AtomicLoad(pInfo->aReadMark+i)] and the store. *)
Definition readMark (i : Z) : M Z :=
  c ← get_ckpt; of_option ((aReadMark c).[i]).
Definition setReadMark (i x : Z) : M unit :=
  c ← get_ckpt; m ← of_option ((aReadMark c).[i <- x]);
  upd_sh (sh_set_ckpt (ck_set_marks m c)).

(** The functions on the index pages, run on this world. *)
Definition with_idx {A} (f : Wal -> WalIdx -> option (A * Wal * WalIdx)) : M A := fun s =>
  match f (w_wal s) (sh_idx (w_sh s)) with
  | Some (r, w, x) =>
      Some (r, mkWorld w (sh_set_idx x (w_sh s)) (w_log s) (w_db s) (w_aws s) (w_os s))
  | None => None
  end.

(** * The system *)

Context `{VFile F} `{WalOS OS}.

Definition os_lock (ofst n flags : Z) : M Z := fun s =>
  let '(rc, sh, o) := xShmLock (w_os s) (w_sh s) ofst n flags in
  Some (rc, mkWorld (w_wal s) sh (w_log s) (w_db s) (w_aws s) o).

Definition os_barrier : M unit := fun s =>
  let '(sh, o) := xShmBarrier (w_os s) (w_sh s) in
  Some (tt, mkWorld (w_wal s) sh (w_log s) (w_db s) (w_aws s) o).

Definition sqlite3_randomness (n : Z) : M (list Z) := fun s =>
  let '(b, o) := xRandomness (w_os s) n in
  Some (b, mkWorld (w_wal s) (w_sh s) (w_log s) (w_db s) (w_aws s) o).

Definition sqlite3_malloc (n : Z) : M bool := fun s =>
  let '(b, o) := xMalloc (w_os s) n in
  Some (b, mkWorld (w_wal s) (w_sh s) (w_log s) (w_db s) (w_aws s) o).

Definition sqlite3OsSleep (n : Z) : M unit := fun s =>
  let '(sh, o) := xSleep (w_os s) n (w_sh s) in
  Some (tt, mkWorld (w_wal s) sh (w_log s) (w_db s) (w_aws s) o).

Definition os_shm_probe : M Z := fun s =>
  let '(rc, o) := xShmProbe (w_os s) in
  Some (rc, mkWorld (w_wal s) (w_sh s) (w_log s) (w_db s) (w_aws s) o).

Definition os_shm_unmap (isDelete : bool) : M unit := fun s =>
  Some (tt, mkWorld (w_wal s) (w_sh s) (w_log s) (w_db s) (w_aws s)
              (xShmUnmap (w_os s) isDelete)).

Definition os_interrupted : M (bool * bool) := fun s =>
  let '(b, o) := xInterrupted (w_os s) in
  Some (b, mkWorld (w_wal s) (w_sh s) (w_log s) (w_db s) (w_aws s) o).

Definition os_lock_exclusive : M Z := fun s =>
  let '(rc, o) := xLockExclusive (w_os s) in
  Some (rc, mkWorld (w_wal s) (w_sh s) (w_log s) (w_db s) (w_aws s) o).

Definition os_delete_log : M unit := fun s =>
  Some (tt, mkWorld (w_wal s) (w_sh s) (w_log s) (w_db s) (w_aws s) (xDeleteLog (w_os s))).

Definition log_read (amt off : Z) : M (Z * list Z) :=
  f ← gets w_log; mret (xRead f amt off).
Definition log_write (b : list Z) (off : Z) : M Z :=
  f ← gets w_log; let '(rc, f') := xWrite f b off in put_log f';; mret rc.
Definition log_sync (flags : Z) : M Z :=
  f ← gets w_log; let '(rc, f') := xSync f flags in put_log f';; mret rc.
Definition log_truncate (n : Z) : M Z :=
  f ← gets w_log; let '(rc, f') := xTruncate f n in put_log f';; mret rc.
Definition log_size : M (Z * Z) := f ← gets w_log; mret (xFileSize f).

Definition db_read (amt off : Z) : M (Z * list Z) :=
  f ← gets w_db; mret (xRead f amt off).
Definition db_write (b : list Z) (off : Z) : M Z :=
  f ← gets w_db; let '(rc, f') := xWrite f b off in put_db f';; mret rc.
Definition db_sync (flags : Z) : M Z :=
  f ← gets w_db; let '(rc, f') := xSync f flags in put_db f';; mret rc.
Definition db_truncate (n : Z) : M Z :=
  f ← gets w_db; let '(rc, f') := xTruncate f n in put_db f';; mret rc.
Definition db_size : M (Z * Z) := f ← gets w_db; mret (xFileSize f).

(** * Locks *)

Definition walLockShared (lockIdx : Z) : M Z :=
  w ← get_wal;
  if negb (exclusiveMode w =? 0) then mret SQLITE_OK
  else os_lock lockIdx 1 (Z.lor SQLITE_SHM_LOCK SQLITE_SHM_SHARED).

Definition walUnlockShared (lockIdx : Z) : M unit :=
  w ← get_wal;
  if negb (exclusiveMode w =? 0) then mret tt
  else _ ← os_lock lockIdx 1 (Z.lor SQLITE_SHM_UNLOCK SQLITE_SHM_SHARED); mret tt.

Definition walLockExclusive (lockIdx n : Z) : M Z :=
  w ← get_wal;
  if negb (exclusiveMode w =? 0) then mret SQLITE_OK
  else os_lock lockIdx n (Z.lor SQLITE_SHM_LOCK SQLITE_SHM_EXCLUSIVE).

Definition walUnlockExclusive (lockIdx n : Z) : M unit :=
  w ← get_wal;
  if negb (exclusiveMode w =? 0) then mret tt
  else _ ← os_lock lockIdx n (Z.lor SQLITE_SHM_UNLOCK SQLITE_SHM_EXCLUSIVE); mret tt.

Definition walShmBarrier : M unit :=
  w ← get_wal;
  if negb (exclusiveMode w =? WAL_HEAPMEMORY_MODE) then os_barrier else mret tt.

(** A busy handler is the list of answers it has still to give; it answers 0
    when the list ends.  No handler is the empty list. *)
Definition BusyHandler : Type := list bool.

(** The result code, and the handler as the calls leave it. *)
Fixpoint walBusyLock (xBusy : BusyHandler) (lockIdx n : Z) : M (Z * BusyHandler) :=
  rc ← walLockExclusive lockIdx n;
  if rc =? SQLITE_BUSY then
    match xBusy with
    | [] => mret (rc, [])
    | true :: xBusy => walBusyLock xBusy lockIdx n
    | false :: xBusy => mret (rc, xBusy)
    end
  else mret (rc, xBusy).

(** * The header of the wal-index *)

Definition word_bytes (bigendian : bool) (v : Z) : list Z :=
  if bigendian then sqlite3Put4byte v else reverse (sqlite3Put4byte v).

Definition half_bytes (bigendian : bool) (v : Z) : list Z :=
  if bigendian then [u8 (Z.shiftr v 8); u8 v] else [u8 v; u8 (Z.shiftr v 8)].

(** The bytes of the structure before [aCksum], as this host stores them. *)
Definition hdr_image (bigendian : bool) (h : WalIndexHdr) : list Z :=
  word_bytes bigendian (h_iVersion h) ++ word_bytes bigendian (h_unused h) ++
  word_bytes bigendian (h_iChange h) ++ [u8 (h_isInit h); u8 (h_bigEndCksum h)] ++
  half_bytes bigendian (h_szPage h) ++ word_bytes bigendian (h_mxFrame h) ++
  word_bytes bigendian (h_nPage h) ++ word_bytes bigendian (h_aFrameCksum h).1 ++
  word_bytes bigendian (h_aFrameCksum h).2 ++ h_aSalt h.

Definition hdr_cksum (bigendian : bool) (h : WalIndexHdr) : option (Z * Z) :=
  walChecksumBytes bigendian true (hdr_image bigendian h) 40 None.

Context (bigendian : bool).

Definition walIndexWriteHdr : M unit :=
  upd_hdr hset_init;;
  h ← get_hdr;
  c ← of_option (hdr_cksum bigendian h);
  upd_hdr (hset_aCksum c);;
  h ← get_hdr;
  upd_sh (sh_set_hdr1 h);;
  walShmBarrier;;
  upd_sh (sh_set_hdr0 h).

(** 0 when the header was read, 1 otherwise; and [*pChanged]. *)
Definition walIndexTryHdr (pChanged : bool) : M (Z * bool) :=
  h1 ← gets (fun s => sh_hdr0 (w_sh s));
  walShmBarrier;;
  h2 ← gets (fun s => sh_hdr1 (w_sh s));
  if negb (bool_decide (h1 = h2)) then mret (1, pChanged) else
  if h_isInit h1 =? 0 then mret (1, pChanged) else
  aCksum ← of_option (hdr_cksum bigendian h1);
  if negb (aCksum.1 =? (h_aCksum h1).1) || negb (aCksum.2 =? (h_aCksum h1).2)
  then mret (1, pChanged) else
  h ← get_hdr;
  if negb (bool_decide (h = h1)) then
    upd_wal (fun w =>
      set_szPage (Z.land (h_szPage h1) 0xfe00 +
                  Z.shiftl (Z.land (h_szPage h1) 0x0001) 16) (set_hdr h1 w));;
    mret (0, true)
  else mret (0, pChanged).

(** [1 + sqlite3Get4byte(&aSalt[0])] in the first salt, [salt1] in the
    second. *)
Definition walRestartHdr (salt1 : list Z) : M unit :=
  upd_wal (fun w => set_nCkpt (u32 (nCkpt w + 1)) w);;
  upd_hdr (hset_mxFrame 0);;
  h ← get_hdr;
  s0 ← of_option (sqlite3Get4byte (h_aSalt h));
  upd_hdr (hset_aSalt (sqlite3Put4byte (u32 (1 + s0)) ++ take 4 salt1));;
  walIndexWriteHdr;;
  upd_sh (fun s => sh_set_ckpt (ck_set_nBackfill 0 (sh_ckpt s)) s);;
  upd_sh (fun s => sh_set_ckpt (ck_set_attempted 0 (sh_ckpt s)) s);;
  setReadMark 1 0;;
  setReadMark 2 READMARK_NOT_USED;;
  setReadMark 3 READMARK_NOT_USED;;
  setReadMark 4 READMARK_NOT_USED.

End monad.

(** * Reasoning about computations

    [wp m Q s]: from [s] the computation [m] has no undefined behaviour, and
    [Q] holds of its result. *)

Section wp.
Context {F OS : Type}.

Definition wp {A} (m : @M F OS A) (Q : A -> World F OS -> Prop) (s : World F OS) : Prop :=
  match m s with Some (x, s') => Q x s' | None => False end.

Lemma wp_bind {A B} (m : @M F OS A) (k : A -> @M F OS B) Q s :
  wp (m ≫= k) Q s = wp m (fun x s' => wp (k x) Q s') s.
Proof. unfold wp, mbind, M_bind. by destruct (m s) as [[x s']|]. Qed.

Lemma wp_ret {A} (x : A) Q (s : World F OS) : wp (mret x) Q s = Q x s.
Proof. reflexivity. Qed.

Lemma wp_gets {A} (f : World F OS -> A) Q s : wp (gets f) Q s = Q (f s) s.
Proof. reflexivity. Qed.

Lemma wp_of_option {A} (o : option A) x Q (s : World F OS) :
  o = Some x -> wp (of_option o) Q s = Q x s.
Proof. by intros ->. Qed.

Lemma wp_upd_wal f Q (s : World F OS) :
  wp (upd_wal f) Q s = Q tt (mkWorld (f (w_wal s)) (w_sh s) (w_log s) (w_db s) (w_aws s) (w_os s)).
Proof. reflexivity. Qed.

Lemma wp_upd_hdr f Q (s : World F OS) :
  wp (upd_hdr f) Q s =
  Q tt (mkWorld (set_hdr (f (hdr (w_wal s))) (w_wal s)) (w_sh s) (w_log s) (w_db s) (w_aws s) (w_os s)).
Proof. reflexivity. Qed.

Lemma wp_upd_sh f Q (s : World F OS) :
  wp (upd_sh f) Q s = Q tt (mkWorld (w_wal s) (f (w_sh s)) (w_log s) (w_db s) (w_aws s) (w_os s)).
Proof. reflexivity. Qed.

Lemma wp_put_log f Q (s : World F OS) :
  wp (put_log f) Q s = Q tt (mkWorld (w_wal s) (w_sh s) f (w_db s) (w_aws s) (w_os s)).
Proof. reflexivity. Qed.

Lemma wp_put_db f Q (s : World F OS) :
  wp (put_db f) Q s = Q tt (mkWorld (w_wal s) (w_sh s) (w_log s) f (w_aws s) (w_os s)).
Proof. reflexivity. Qed.

Lemma wp_mono {A} (m : @M F OS A) (P Q : A -> World F OS -> Prop) s :
  (forall x s', P x s' -> Q x s') -> wp m P s -> wp m Q s.
Proof. unfold wp. intros HPQ. destruct (m s) as [[x s']|]; auto. Qed.

(** With the outcome named. *)
Lemma wp_run {A} (m : @M F OS A) Q s :
  wp m Q s -> exists x s', m s = Some (x, s') /\ Q x s'.
Proof. unfold wp. destruct (m s) as [[x s']|]; [eauto|done]. Qed.

Lemma run_wp {A} (m : @M F OS A) (Q : A -> World F OS -> Prop) s x s' :
  m s = Some (x, s') -> Q x s' -> wp m Q s.
Proof. unfold wp. by intros ->. Qed.
End wp.

(** ** Reading a run backwards

    What is known when a computation returned, whatever the system did. *)

Section inversion.
Context {F OS : Type}.

Lemma bind_inv {A B} (m : @M F OS A) (k : A -> @M F OS B) s y s'' :
  (m ≫= k) s = Some (y, s'') ->
  exists x s', m s = Some (x, s') /\ k x s' = Some (y, s'').
Proof.
  unfold mbind, M_bind. destruct (m s) as [[x s']|]; [|done]. intros E. by exists x, s'.
Qed.

Lemma ret_inv {A} (x y : A) (s s' : World F OS) :
  (mret x : @M F OS A) s = Some (y, s') -> y = x /\ s' = s.
Proof. by intros [= <- <-]. Qed.

Lemma gets_inv {A} (f : World F OS -> A) s y s' :
  gets f s = Some (y, s') -> y = f s /\ s' = s.
Proof. by intros [= <- <-]. Qed.

Lemma of_option_inv {A} (o : option A) y (s s' : World F OS) :
  of_option o s = Some (y, s') -> o = Some y /\ s' = s.
Proof. unfold of_option. destruct o; [|done]. by intros [= <- <-]. Qed.

Lemma upd_wal_inv f y (s s' : World F OS) :
  upd_wal f s = Some (y, s') ->
  s' = mkWorld (f (w_wal s)) (w_sh s) (w_log s) (w_db s) (w_aws s) (w_os s).
Proof. by intros [= _ <-]. Qed.

Lemma upd_sh_inv f y (s s' : World F OS) :
  upd_sh f s = Some (y, s') ->
  s' = mkWorld (w_wal s) (f (w_sh s)) (w_log s) (w_db s) (w_aws s) (w_os s).
Proof. by intros [= _ <-]. Qed.
End inversion.

(** Splits every run in the context into its steps; stops at tests and at
    calls. *)
Ltac run_inv :=
  repeat match goal with
  | E : mbind _ _ _ = Some _ |- _ => apply bind_inv in E as (? & ? & ? & E)
  | E : mret _ _ = Some _ |- _ => apply ret_inv in E as [-> ->] || apply ret_inv in E as [? ->]
  | E : gets _ _ = Some _ |- _ => apply gets_inv in E as [-> ->] || apply gets_inv in E as [? ->]
  | E : get_wal _ = Some _ |- _ => apply gets_inv in E as [-> ->]
  | E : get_hdr _ = Some _ |- _ => apply gets_inv in E as [-> ->]
  | E : get_ckpt _ = Some _ |- _ => apply gets_inv in E as [-> ->]
  | E : of_option _ _ = Some _ |- _ => apply of_option_inv in E as [E ->]
  | E : upd_wal _ _ = Some _ |- _ => apply upd_wal_inv in E as ->
  | E : upd_sh _ _ = Some _ |- _ => apply upd_sh_inv in E as ->
  | E : Some _ = Some _ |- _ => injection E as ? ?; subst
  end; cbn [w_wal w_sh w_log w_db w_aws w_os] in *.

(** Projections of records that were just built. *)
Ltac world_simpl :=
  cbn [w_wal w_sh w_log w_db w_aws w_os sh_hdr0 sh_hdr1 sh_ckpt sh_idx
       sh_set_hdr0 sh_set_hdr1 sh_set_ckpt sh_set_idx
       ck_set_marks ck_set_nBackfill ck_set_attempted
       nBackfill aReadMark nBackfillAttempted
       hdr set_hdr hset_aFrameCksum h_mxFrame h_nPage h_szPage h_aSalt h_bigEndCksum
       h_aFrameCksum szPage].
Tactic Notation "world_simpl" "in" hyp(H) :=
  cbn [w_wal w_sh w_log w_db w_aws w_os sh_hdr0 sh_hdr1 sh_ckpt sh_idx
       sh_set_hdr0 sh_set_hdr1 sh_set_ckpt sh_set_idx
       ck_set_marks ck_set_nBackfill ck_set_attempted
       nBackfill aReadMark nBackfillAttempted
       hdr set_hdr hset_aFrameCksum h_mxFrame h_nPage h_szPage h_aSalt h_bigEndCksum
       h_aFrameCksum szPage] in H.

Create Rewrite HintDb wp.
#[export] Hint Rewrite @wp_bind @wp_ret @wp_gets @wp_upd_wal @wp_upd_hdr @wp_upd_sh
  @wp_put_log @wp_put_db : wp.

(** Runs the computation up to the next test or call of the system. *)
Ltac wp_pure := autorewrite with wp; cbn beta; cbn [w_wal w_sh w_log w_db w_aws w_os].

(** * The image of a header *)

Lemma word_bytes_ok be v : bytes_ok (word_bytes be v) /\ length (word_bytes be v) = 4%nat.
Proof.
  unfold word_bytes. destruct be; [split; [apply Put4byte_bytes|done]|].
  split; [apply Forall_reverse, Put4byte_bytes|done].
Qed.

Lemma half_bytes_ok be v : bytes_ok (half_bytes be v) /\ length (half_bytes be v) = 2%nat.
Proof. unfold half_bytes. destruct be; split; try done; repeat constructor; apply u8_ok. Qed.

Lemma hdr_image_ok be h :
  bytes_ok (h_aSalt h) -> length (h_aSalt h) = 8%nat ->
  bytes_ok (hdr_image be h) /\ zlen (hdr_image be h) = 40.
Proof.
  intros Hs Hl. unfold hdr_image. split.
  - repeat apply Forall_app_2; try apply word_bytes_ok; try apply half_bytes_ok; [|done].
    repeat constructor; apply u8_ok.
  - unfold zlen. rewrite !length_app.
    rewrite !(proj2 (word_bytes_ok be _)), (proj2 (half_bytes_ok be _)), Hl. done.
Qed.

(** The checksum of a header is defined, and it is the native sum of its
    image. *)
Lemma hdr_cksum_some be h :
  bytes_ok (h_aSalt h) -> length (h_aSalt h) = 8%nat ->
  hdr_cksum be h = Some (cksum_spec be (0, 0) (hdr_image be h)).
Proof.
  intros Hs Hl. destruct (hdr_image_ok be h Hs Hl) as [Hb Hz].
  unfold hdr_cksum. rewrite walChecksum_spec by (done || lia).
  rewrite <- Hz at 1. rewrite slice_full. by destruct be.
Qed.

(** * A system where nothing else runs *)

Section quiet.
Context {F OS : Type} `{VFile F} `{WalOS OS}.

(** No other connection changes the shared memory while this one runs: it
    holds the locks that forbid it. *)
Definition os_quiet : Prop :=
  (forall o sh a n f, exists rc o', xShmLock o sh a n f = (rc, sh, o')) /\
  (forall o sh, exists o', xShmBarrier o sh = (sh, o')).

Context (Hq : os_quiet).

(** What a lock request leaves alone. *)
Definition same_but_os (s s' : World F OS) : Prop :=
  w_wal s' = w_wal s /\ w_sh s' = w_sh s /\ w_log s' = w_log s /\ w_db s' = w_db s /\
  w_aws s' = w_aws s.

Lemma same_but_os_refl s : same_but_os s s.
Proof. by split_and!. Qed.

Lemma wp_lock_excl a n (Q : Z -> World F OS -> Prop) s :
  (forall rc s', same_but_os s s' -> Q rc s') -> wp (walLockExclusive a n) Q s.
Proof using Hq.
  intros HQ. unfold walLockExclusive, get_wal. wp_pure.
  destruct (negb _); wp_pure; [apply HQ, same_but_os_refl|].
  destruct (proj1 Hq (w_os s) (w_sh s) a n (Z.lor SQLITE_SHM_LOCK SQLITE_SHM_EXCLUSIVE))
    as (rc & o & E).
  eapply run_wp; [unfold os_lock; rewrite E; reflexivity|]. apply HQ. by split_and!.
Qed.

Lemma wp_unlock_excl a n (Q : unit -> World F OS -> Prop) s :
  (forall s', same_but_os s s' -> Q tt s') -> wp (walUnlockExclusive a n) Q s.
Proof using Hq.
  intros HQ. unfold walUnlockExclusive, get_wal. wp_pure.
  destruct (negb _); wp_pure; [apply HQ, same_but_os_refl|].
  destruct (proj1 Hq (w_os s) (w_sh s) a n (Z.lor SQLITE_SHM_UNLOCK SQLITE_SHM_EXCLUSIVE))
    as (rc & o & E).
  eapply run_wp; [unfold os_lock; rewrite E; reflexivity|]. wp_pure. apply HQ. by split_and!.
Qed.

Lemma wp_malloc n (Q : bool -> World F OS -> Prop) s :
  (forall b s', same_but_os s s' -> Q b s') -> wp (sqlite3_malloc n) Q s.
Proof.
  intros HQ. destruct (xMalloc (w_os s) n) as [b o] eqn:E.
  eapply run_wp; [unfold sqlite3_malloc; rewrite E; reflexivity|]. apply HQ. by split_and!.
Qed.

Lemma wp_barrier (Q : unit -> World F OS -> Prop) s :
  (forall s', same_but_os s s' -> Q tt s') -> wp walShmBarrier Q s.
Proof using Hq.
  intros HQ. unfold walShmBarrier, get_wal. wp_pure.
  destruct (negb _); wp_pure; [|apply HQ, same_but_os_refl].
  destruct (proj2 Hq (w_os s) (w_sh s)) as (o & E).
  eapply run_wp; [unfold os_barrier; rewrite E; reflexivity|]. apply HQ. by split_and!.
Qed.

(** Writing the header: both copies hold it, its checksum is right. *)
Definition hdr_sealed (be : bool) (h : WalIndexHdr) : Prop :=
  h_isInit h = 1 /\ h_iVersion h = WALINDEX_MAX_VERSION /\
  hdr_cksum be h = Some (h_aCksum h).

Definition seal (be : bool) (h : WalIndexHdr) : WalIndexHdr :=
  hset_aCksum (cksum_spec be (0, 0) (hdr_image be (hset_init h))) (hset_init h).

Lemma seal_sealed be h :
  bytes_ok (h_aSalt h) -> length (h_aSalt h) = 8%nat -> hdr_sealed be (seal be h).
Proof.
  intros Hs Hl. split_and!; [done|done|]. unfold seal.
  change (hdr_cksum be (hset_aCksum ?c (hset_init h))) with (hdr_cksum be (hset_init h)).
  by rewrite hdr_cksum_some.
Qed.

Lemma wp_walIndexWriteHdr be (Q : unit -> World F OS -> Prop) s :
  bytes_ok (h_aSalt (hdr (w_wal s))) -> length (h_aSalt (hdr (w_wal s))) = 8%nat ->
  (forall s', w_wal s' = set_hdr (seal be (hdr (w_wal s))) (w_wal s) ->
     w_sh s' = mkShared (seal be (hdr (w_wal s))) (seal be (hdr (w_wal s)))
                 (sh_ckpt (w_sh s)) (sh_idx (w_sh s)) ->
     w_log s' = w_log s -> w_db s' = w_db s -> w_aws s' = w_aws s -> Q tt s') ->
  wp (walIndexWriteHdr be) Q s.
Proof using Hq.
  intros Hs Hl HQ. unfold walIndexWriteHdr, get_hdr. wp_pure.
  rewrite (wp_of_option _ (cksum_spec be (0, 0) (hdr_image be (hset_init (hdr (w_wal s))))))
    by (cbn; by rewrite hdr_cksum_some).
  wp_pure. apply wp_barrier. intros s' (E1 & E2 & E3 & E4 & E5). wp_pure.
  apply HQ; cbn [w_wal w_sh w_log w_db w_aws].
  - rewrite E1. cbn. unfold seal. by destruct (w_wal s).
  - rewrite E2. cbn. done.
  - done.
  - done.
  - done.
Qed.
End quiet.

(** * A system that also grants every lock *)

Section grants.
Context {F OS : Type} `{VFile F} `{WalOS OS}.

Definition os_grants : Prop :=
  os_quiet (OS := OS) /\
  forall o sh a n f, (xShmLock o sh a n f).1.1 = SQLITE_OK.

Context (Hg : os_grants).

Lemma granted_lock o sh a n f : exists o', xShmLock o sh a n f = (SQLITE_OK, sh, o').
Proof using Hg.
  destruct Hg as [[Hq _] Hok]. destruct (Hq o sh a n f) as (rc & o' & E).
  specialize (Hok o sh a n f). rewrite E in Hok |- *. cbn in Hok. subst rc. eauto.
Qed.

Lemma wp_grant_excl a n (Q : Z -> World F OS -> Prop) s :
  (forall s', same_but_os s s' -> Q SQLITE_OK s') -> wp (walLockExclusive a n) Q s.
Proof using Hg.
  intros HQ. unfold walLockExclusive, get_wal. wp_pure.
  destruct (negb _); wp_pure; [apply HQ, same_but_os_refl|].
  destruct (granted_lock (w_os s) (w_sh s) a n (Z.lor SQLITE_SHM_LOCK SQLITE_SHM_EXCLUSIVE))
    as (o & E).
  eapply run_wp; [unfold os_lock; rewrite E; reflexivity|]. apply HQ. by split_and!.
Qed.

Lemma wp_grant_shared a (Q : Z -> World F OS -> Prop) s :
  (forall s', same_but_os s s' -> Q SQLITE_OK s') -> wp (walLockShared a) Q s.
Proof using Hg.
  intros HQ. unfold walLockShared, get_wal. wp_pure.
  destruct (negb _); wp_pure; [apply HQ, same_but_os_refl|].
  destruct (granted_lock (w_os s) (w_sh s) a 1 (Z.lor SQLITE_SHM_LOCK SQLITE_SHM_SHARED))
    as (o & E).
  eapply run_wp; [unfold os_lock; rewrite E; reflexivity|]. apply HQ. by split_and!.
Qed.

Lemma wp_release_shared a (Q : unit -> World F OS -> Prop) s :
  (forall s', same_but_os s s' -> Q tt s') -> wp (walUnlockShared a) Q s.
Proof using Hg.
  intros HQ. unfold walUnlockShared, get_wal. wp_pure.
  destruct (negb _); wp_pure; [apply HQ, same_but_os_refl|].
  destruct (granted_lock (w_os s) (w_sh s) a 1 (Z.lor SQLITE_SHM_UNLOCK SQLITE_SHM_SHARED))
    as (o & E).
  eapply run_wp; [unfold os_lock; rewrite E; reflexivity|]. wp_pure. apply HQ. by split_and!.
Qed.
End grants.

(** ** A single connection

    The simplest system: every lock is granted, nothing else runs. *)

#[export] Instance unit_os : WalOS unit := {
  xShmLock _ sh _ _ _ := (SQLITE_OK, sh, tt);
  xShmBarrier _ sh := (sh, tt);
  xRandomness _ n := (replicate (Z.to_nat n) 7, tt);
  xMalloc _ _ := (true, tt);
  xSectorSize _ := 4096;
  xSleep _ _ sh := (sh, tt);
  xShmHeader _ := (hdr_zero, hdr_zero, mkCkpt 0 (replicate 5 0) 0);
  xShmProbe _ := (SQLITE_OK, tt);
  xShmUnmap _ _ := tt;
  xInterrupted _ := (false, false, tt);
  xLockExclusive _ := (SQLITE_OK, tt);
  xPersistWal _ := 0;
  xDeleteLog _ := tt;
}.

Lemma unit_os_quiet : os_quiet (OS := unit).
Proof. split; eauto. Qed.

Lemma unit_os_grants : os_grants (OS := unit).
Proof. split; [apply unit_os_quiet|done]. Qed.
