(* ===== verification/WalRecover.v ===== *)
(** Recovery: rebuilding the wal-index by reading the log
    ([walIndexRecover]).  The frames are read in order until one is invalid;
    the header is set to the last commit among them, and every valid frame is
    indexed. *)
From S2P Require Import Prelude.
From S2P Require Import Util.
From S2P Require Import Vfs.
From S2P Require Import Aws.
From S2P Require Import WalTypes.
From S2P Require Import WalFormat.
From S2P Require Import WalIndex.
From S2P Require Import WalState.
Open Scope Z_scope.

Section recover.
Context {F OS : Type} `{VFile F} `{WalOS OS} `{ShmEnv} (bigendian : bool).
Local Abbreviation M := (@M F OS).

(** What the private buffer of the hash pages holds before page [i] is
    indexed: it is not initialised by the code. *)
Context (aPrivate : Z -> WiPage).

(** The header of the log: the result of the checks before the first frame. *)
Inductive hdr_check :=
  | hdr_invalid                  (** no valid content: [goto finished] *)
  | hdr_version                  (** [SQLITE_CANTOPEN] *)
  | hdr_valid (szPage : Z).

Definition recover_header (aBuf : list Z) : M hdr_check :=
  magic ← of_option (sqlite3Get4byte aBuf);
  szPage ← of_option (sqlite3Get4byte (at_off 8 aBuf));
  let szPage := i32 szPage in
  if negb (Z.land magic 0xFFFFFFFE =? WAL_MAGIC)
     || negb (Z.land szPage (i32 (szPage - 1)) =? 0)
     || (szPage >? SQLITE_MAX_PAGE_SIZE) || (szPage <? 512)
  then mret hdr_invalid else
  upd_hdr (hset_bigEndCksum (Z.land magic 1));;
  upd_wal (set_szPage szPage);;
  n ← of_option (sqlite3Get4byte (at_off 12 aBuf));
  upd_wal (set_nCkpt n);;
  upd_hdr (hset_aSalt (slice 16 8 aBuf));;
  h ← get_hdr;
  c ← of_option (walChecksumBytes bigendian (h_bigEndCksum h =? Z.b2z bigendian)
                   aBuf (WAL_HDRSIZE - 2 * 4) None);
  upd_hdr (hset_aFrameCksum c);;
  c0 ← of_option (sqlite3Get4byte (at_off 24 aBuf));
  c1 ← of_option (sqlite3Get4byte (at_off 28 aBuf));
  if negb (c.1 =? c0) || negb (c.2 =? c1) then mret hdr_invalid else
  version ← of_option (sqlite3Get4byte (at_off 4 aBuf));
  if negb (version =? WAL_MAX_VERSION) then mret hdr_version
  else mret (hdr_valid szPage).

(** The frames [iFrame..iLast] of one page, [n] of them: the result code, the
    first frame that was not taken and the checksum of the last commit. *)
Fixpoint recover_frames (n : nat) (szPage iFrame : Z) (ck : Z * Z)
    : M (Z * Z * (Z * Z)) :=
  match n with
  | O => mret (SQLITE_OK, iFrame, ck)
  | S n =>
      '(rc, aFrame) ← log_read (szPage + WAL_FRAME_HDRSIZE) (walFrameOffset iFrame szPage);
      if negb (rc =? SQLITE_OK) then mret (rc, iFrame, ck) else
      w ← get_wal;
      '(r, w) ← of_option (walDecodeFrame bigendian w (at_off WAL_FRAME_HDRSIZE aFrame)
                             (take 24 aFrame));
      upd_wal (fun _ => w);;
      match r with
      | None => mret (SQLITE_OK, iFrame, ck)
      | Some (pgno, nTruncate) =>
          rc ← with_idx (fun w x => walIndexAppend w x iFrame pgno);
          if negb (rc =? SQLITE_OK) then mret (rc, iFrame, ck) else
          if negb (nTruncate =? 0) then
            upd_hdr (fun h => hset_szPage (pagesize_field szPage)
                                (hset_nPage nTruncate (hset_mxFrame iFrame h)));;
            h ← get_hdr;
            recover_frames n szPage (iFrame + 1) (h_aFrameCksum h)
          else recover_frames n szPage (iFrame + 1) ck
      end
  end.

(** The pages of the index from [iPg] on, [n] of them. *)
Fixpoint recover_pages (n : nat) (szPage iLastFrame iPg rc : Z) (ck : Z * Z)
    : M (Z * (Z * Z)) :=
  match n with
  | O => mret (rc, ck)
  | S n =>
      let iLast := u32 (Z.min iLastFrame (HASHTABLE_NPAGE_ONE + iPg * HASHTABLE_NPAGE)) in
      let iFirst := u32 (1 + (if iPg =? 0 then 0
                              else HASHTABLE_NPAGE_ONE + (iPg - 1) * HASHTABLE_NPAGE)) in
      '(rc, aShare) ← with_idx (fun w x =>
         let '(rc, pp, w, x) := walIndexPage w x iPg in Some ((rc, pp), w, x));
      match aShare with
      | None => mret (rc, ck)
      | Some _ =>
          upd_sh (fun s => sh_set_idx (wi_set (sh_idx s) iPg (aPrivate iPg)) s);;
          '(rc', iFrame, ck) ← recover_frames (Z.to_nat (iLast + 1 - iFirst)) szPage iFirst ck;
          let rc := if iFirst <=? iLast then rc' else rc in
          if iFrame <=? iLast then mret (rc, ck)
          else recover_pages n szPage iLastFrame (iPg + 1) rc ck
      end
  end.

(** Read-mark slots 1 to [WAL_NREADER-1]: the error that ends the function,
    or the result code of the last lock. *)
Fixpoint recover_marks (n : nat) (i rc : Z) : M (Z * bool) :=
  match n with
  | O => mret (rc, true)
  | S n =>
      rc ← walLockExclusive (WAL_READ_LOCK i) 1;
      if rc =? SQLITE_OK then
        h ← get_hdr;
        setReadMark i (if (i =? 1) && negb (h_mxFrame h =? 0) then h_mxFrame h
                       else READMARK_NOT_USED);;
        walUnlockExclusive (WAL_READ_LOCK i) 1;;
        recover_marks n (i + 1) rc
      else if negb (rc =? SQLITE_BUSY) then mret (rc, false)
      else recover_marks n (i + 1) rc
  end.

(** The part labelled [finished]. *)
Definition recover_finish (rc : Z) (ck : Z * Z) : M Z :=
  if negb (rc =? SQLITE_OK) then mret rc else
  upd_hdr (hset_aFrameCksum ck);;
  walIndexWriteHdr bigendian;;
  h ← get_hdr;
  upd_sh (fun s => sh_set_ckpt (ck_set_nBackfill 0 (sh_ckpt s)) s);;
  upd_sh (fun s => sh_set_ckpt (ck_set_attempted (h_mxFrame h) (sh_ckpt s)) s);;
  setReadMark 0 0;;
  '(rc, _) ← recover_marks 4 1 rc;
  mret rc.

(** The body between the locks. *)
Definition recover_body : M Z :=
  upd_wal (set_hdr hdr_zero);;
  '(rc, nSize) ← log_size;
  if negb (rc =? SQLITE_OK) then mret rc else
  if negb (nSize >? WAL_HDRSIZE) then recover_finish SQLITE_OK (0, 0) else
  '(rc, aBuf) ← log_read WAL_HDRSIZE 0;
  if negb (rc =? SQLITE_OK) then mret rc else
  chk ← recover_header aBuf;
  match chk with
  | hdr_invalid => recover_finish SQLITE_OK (0, 0)
  | hdr_version => recover_finish SQLITE_CANTOPEN (0, 0)
  | hdr_valid szPage =>
      let szFrame := szPage + WAL_FRAME_HDRSIZE in
      ok ← sqlite3_malloc (szFrame + 32768);
      if negb ok then mret SQLITE_NOMEM else
      let iLastFrame := u32 (Z.quot (nSize - WAL_HDRSIZE) szFrame) in
      '(rc, ck) ← recover_pages (Z.to_nat (walFramePage iLastFrame + 1))
                    szPage iLastFrame 0 rc (0, 0);
      recover_finish rc ck
  end.

Definition walIndexRecover : M Z :=
  w ← get_wal;
  let iLock := WAL_ALL_BUT_WRITE + Z.b2z (ckptLock w) in
  rc ← walLockExclusive iLock (WAL_READ_LOCK 0 - iLock);
  if negb (rc =? SQLITE_OK) then mret rc else
  rc ← recover_body;
  walUnlockExclusive iLock (WAL_READ_LOCK 0 - iLock);;
  mret rc.
End recover.

(** * Specification: the valid prefix of a log

    A frame is judged from the page size, the byte order and the salt of the
    log and the checksum of the frame before it, and nothing else. *)

Definition log_handle (sz ord : Z) (salt : list Z) (c : Z * Z) : Wal :=
  mkWal 0 0 sz 0 0 false false 0 false false false false
    (hset_aFrameCksum c (hset_aSalt salt (hset_bigEndCksum ord hdr_zero))) 0 0 0.

#[local] Opaque sqlite3Get4byte walChecksumBytes.

Lemma walDecodeFrame_handle be w d f :
  walDecodeFrame be w d f =
  '(r, w') ← walDecodeFrame be
      (log_handle (szPage w) (h_bigEndCksum (hdr w)) (h_aSalt (hdr w))
         (h_aFrameCksum (hdr w))) d f;
  Some (r, set_hdr (hset_aFrameCksum (h_aFrameCksum (hdr w')) (hdr w)) w).
Proof.
  assert (Hw : set_hdr (hset_aFrameCksum (h_aFrameCksum (hdr w)) (hdr w)) w = w)
    by (by destruct w as [????????????[]]).
  unfold walDecodeFrame, log_handle, walCksumRun. cbn.
  destruct (bool_decide _); cbn; [|by rewrite Hw].
  destruct (sqlite3Get4byte f) as [p|]; cbn; [|done].
  destruct (p =? 0); cbn; [by rewrite Hw|].
  destruct (walChecksumBytes _ _ f _ _) as [c|]; cbn; [|done].
  destruct (walChecksumBytes _ _ d _ _) as [c'|]; cbn; [|done].
  destruct (sqlite3Get4byte (at_off 16 f)) as [c0|]; cbn; [|done].
  destruct (sqlite3Get4byte (at_off 20 f)) as [c1|]; cbn; [|done].
  destruct (negb _ || negb _); cbn; [done|].
  by destruct (sqlite3Get4byte (at_off 4 f)).
Qed.

Section spec.
Context (be : bool) (sz ord : Z) (salt : list Z) (L : list Z).

(** Frame [k] of the log [L], after a frame with checksum [c]: its page, the
    size it commits (0 if it does not) and its checksum. *)
Definition next_frame (c : Z * Z) (k : Z) : option (Z * Z * (Z * Z)) :=
  let f := slice (walFrameOffset k sz) (sz + WAL_FRAME_HDRSIZE) L in
  '(r, w) ← walDecodeFrame be (log_handle sz ord salt c)
              (at_off WAL_FRAME_HDRSIZE f) (take 24 f);
  '(p, t) ← r;
  Some (p, t, h_aFrameCksum (hdr w)).

(** The valid frames from [k] on, at most [n]. *)
Fixpoint scan_log (n : nat) (c : Z * Z) (k : Z) : list (Z * Z * (Z * Z)) :=
  match n with
  | O => []
  | S n => match next_frame c k with
           | Some (p, t, c) => (p, t, c) :: scan_log n c (k + 1)
           | None => []
           end
  end.
End spec.

(** Number, database size and checksum of the last commit frame. *)
Fixpoint last_commit (k : Z) (fs : list (Z * Z * (Z * Z))) (acc : Z * Z * (Z * Z))
    : Z * Z * (Z * Z) :=
  match fs with
  | [] => acc
  | (p, t, c) :: fs => last_commit (k + 1) fs (if t =? 0 then acc else (k, t, c))
  end.

Lemma last_commit_snoc k fs acc p t c :
  last_commit k (fs ++ [(p, t, c)]) acc =
  if t =? 0 then last_commit k fs acc else (k + zlen fs, t, c).
Proof.
  revert k acc. induction fs as [|[[p' t'] c'] fs IH]; intros k acc.
  - cbn. destruct (t =? 0); [done|]. do 2 f_equal. rewrite (@zlen_nil (Z * Z * (Z * Z))). lia.
  - cbn [app last_commit]. rewrite IH. destruct (t =? 0); [done|].
    rewrite zlen_cons. do 2 f_equal. lia.
Qed.

Definition frame_pgno (f : Z * Z * (Z * Z)) : Z := f.1.1.

(** The last commit is one of the frames, and no later frame commits. *)
Lemma last_commit_spec fs m n c :
  last_commit 1 fs (0, 0, (0, 0)) = (m, n, c) ->
  (m = 0 /\ n = 0 /\ c = (0, 0) /\ forall j p t c', fs.[j] = Some (p, t, c') -> t = 0) \/
  (exists p, fs.[m - 1] = Some (p, n, c) /\ n <> 0 /\
             forall j p' t' c', m <= j -> fs.[j] = Some (p', t', c') -> t' = 0).
Proof.
  revert m n c. induction fs as [|[[p t] c0] fs IH] using rev_ind; intros m n c.
  - intros [= <- <- <-]. left. split_and!; try done.
    intros j p t c' Hj. apply zget_range in Hj.
    rewrite (@zlen_nil (Z * Z * (Z * Z))) in Hj. lia.
  - rewrite last_commit_snoc. destruct (Z.eqb_spec t 0) as [->|Ht].
    + intros Hl. apply IH in Hl as [(-> & -> & -> & Hno)|(q & Hq & Hn & Hno)].
      * left. split_and!; try done. intros j p' t' c' [[_ Hj]|[_ Hj]]%zget_snoc.
        -- by eapply Hno.
        -- by simplify_eq.
      * right. exists q. pose proof (zget_range _ _ _ Hq) as Hr.
        rewrite zget_app_l by lia. split_and!; [done|done|].
        intros j p' t' c' Hmj [[_ Hj]|[_ Hj]]%zget_snoc.
        -- by eapply Hno.
        -- by simplify_eq.
    + intros [= <- <- <-]. right. exists p.
      replace (1 + zlen fs - 1) with (zlen fs) by lia.
      rewrite zget_app_r, Z.sub_diag by lia. split_and!; [done|done|].
      intros j p' t' c' Hmj [[Hr _]|[Hr _]]%zget_snoc; lia.
Qed.

(** * Correctness *)

Lemma wal_ok_same w w' : wal_same w w' -> wal_ok w -> wal_ok w'.
Proof.
  intros (Eh & _ & _ & _ & Es & _) []. constructor; rewrite ?Eh, ?Es; done.
Qed.

Section correct.
Context {F OS : Type} `{VFile F} `{WalOS OS} `{ShmEnv} (be : bool).
Context (aPrivate : Z -> WiPage).
Local Abbreviation W := (World F OS).

(** The log being recovered: its bytes, page size, byte order, salt, the
    checksum of its header and the number of complete frames. *)
Context (L : list Z) (HL : bytes_ok L) (sz ord : Z) (salt : list Z) (c0 : Z * Z).
Context (N : nat) (HN : Z.of_nat N + 1 < FRAME_MAX).
Context (Hord : ord = 0 \/ ord = 1) (Hsz : page_size_ok sz).
Context (fl : F) (Hfile : content fl = L) (ck0 : WalCkptInfo).

Local Abbreviation scan := (scan_log be sz ord salt L).

Definition total : list (Z * Z * (Z * Z)) := scan N c0 1.

(** The frames [fs] have been taken. *)
Record recovering (s : W) (fs : list (Z * Z * (Z * Z))) (ck : Z * Z) : Prop := {
  rv_sz : szPage (w_wal s) = sz;
  rv_ok : wal_ok (w_wal s);
  rv_ord : h_bigEndCksum (hdr (w_wal s)) = ord;
  rv_salt : h_aSalt (hdr (w_wal s)) = salt;
  rv_len : (length fs <= N)%nat;
  rv_clean : wi_clean (sh_idx (w_sh s)) (frame_pgno <$> fs);
  rv_commit : last_commit 1 fs (0, 0, (0, 0)) =
              (h_mxFrame (hdr (w_wal s)), h_nPage (hdr (w_wal s)), ck);
  rv_page : h_mxFrame (hdr (w_wal s)) <> 0 ->
            h_szPage (hdr (w_wal s)) = pagesize_field sz;
  rv_file : w_log s = fl;
  rv_ckpt : sh_ckpt (w_sh s) = ck0;
  rv_write : writeLock (w_wal s) = true;
}.

(** More frames may follow. *)
Definition more (s : W) (fs : list (Z * Z * (Z * Z))) : Prop :=
  total = fs ++ scan (N - length fs) (h_aFrameCksum (hdr (w_wal s))) (zlen fs + 1).

Lemma zlen_frames (fs : list (Z * Z * (Z * Z))) : zlen (frame_pgno <$> fs) = zlen fs.
Proof. apply zlen_fmap. Qed.

(** The decoder on a frame that was read in full. *)
Lemma decode_next s fs ck f :
  recovering s fs ck -> more s fs -> (length fs < N)%nat ->
  walFrameOffset (zlen fs + 1) sz + (sz + 24) <= zlen L ->
  f = slice (walFrameOffset (zlen fs + 1) sz) (sz + 24) L ->
  exists r c, walDecodeFrame be (w_wal s) (at_off 24 f) (take 24 f) =
                Some (r, set_hdr (hset_aFrameCksum c (hdr (w_wal s))) (w_wal s)) /\
    cksum_ok c /\ (r = None -> total = fs) /\
    (forall p t, r = Some (p, t) ->
       pgno_ok p /\
       total = (fs ++ [(p, t, c)]) ++ scan (N - S (length fs)) c (zlen fs + 2)).
Proof using HL Hsz.
  intros Hr Hm Hlt Hoff ->. pose proof (page_size_mult8 sz Hsz) as [_ Hszr].
  set (f := slice _ _ L). pose proof (zlen_nonneg fs).
  assert (Hpos : 0 <= walFrameOffset (zlen fs + 1) sz).
  { unfold walFrameOffset, WAL_HDRSIZE, WAL_FRAME_HDRSIZE. nia. }
  assert (Hfl : zlen f = sz + 24) by (apply length_slice; lia).
  assert (Hfb : bytes_ok f).
  { unfold f, slice. by apply Forall_take, Forall_drop. }
  destruct (walDecodeFrame_iff be (w_wal s) (at_off 24 f) (take 24 f))
    as (r & w' & E & Hw' & Hiff & Hok).
  - apply (rv_ok _ _ _ Hr).
  - by apply Forall_drop.
  - rewrite (rv_sz _ _ _ Hr). unfold at_off, zlen in *. rewrite length_drop. lia.
  - by apply Forall_take.
  - unfold zlen in Hfl. rewrite length_take. lia.
  - pose proof E as E2. rewrite walDecodeFrame_handle in E2.
    rewrite (rv_sz _ _ _ Hr), (rv_ord _ _ _ Hr), (rv_salt _ _ _ Hr) in E2.
    unfold more in Hm. replace (N - length fs)%nat with (S (N - S (length fs))) in Hm by lia.
    cbn [scan_log] in Hm. unfold next_frame in Hm.
    change (sz + WAL_FRAME_HDRSIZE) with (sz + 24) in Hm. fold f in Hm.
    change WAL_FRAME_HDRSIZE with 24 in Hm.
    set (c := h_aFrameCksum (hdr (w_wal s))) in *.
    destruct (walDecodeFrame be (log_handle sz ord salt c) (at_off 24 f) (take 24 f))
      as [[r2 wh]|]; [|done].
    cbn [mbind option_bind] in E2, Hm. injection E2 as -> <-.
    exists r, (h_aFrameCksum (hdr wh)). rewrite E. split_and!; [done|..].
    + apply (wal_ok_cksum _ Hok).
    + intros ->. cbn [mbind option_bind] in Hm. by rewrite app_nil_r in Hm.
    + intros p t ->. cbn [mbind option_bind] in Hm.
      destruct (proj1 (Hiff p t) eq_refl) as (Hp & _ & _).
      split; [done|]. rewrite Hm, <- app_assoc. cbn [app]. do 3 f_equal. lia.
Qed.

Lemma recovering_next s fs ck p t c x :
  recovering s fs ck -> (length fs < N)%nat -> cksum_ok c ->
  wi_clean x (frame_pgno <$> (fs ++ [(p, t, c)])) ->
  forall w, wal_same (set_hdr (hset_aFrameCksum c (hdr (w_wal s))) (w_wal s)) w ->
  let w' := if t =? 0 then w else
              set_hdr (hset_szPage (pagesize_field sz)
                (hset_nPage t (hset_mxFrame (zlen fs + 1) (hdr w)))) w in
  recovering (mkWorld w' (sh_set_idx x (w_sh s)) (w_log s) (w_db s) (w_aws s) (w_os s))
    (fs ++ [(p, t, c)]) (if t =? 0 then ck else c).
Proof.
  intros Hr Hlt Hc Hcl w Hs w'. pose proof (wal_ok_run _ _ (rv_ok _ _ _ Hr) Hc) as Hwok.
  pose proof (wal_ok_same _ _ Hs Hwok) as Hwok'.
  destruct Hs as (Eh & _ & _ & _ & Es & Ewl & _). cbn in Es, Ewl.
  assert (Ew : szPage w' = sz /\ wal_ok w' /\ h_bigEndCksum (hdr w') = ord /\
               h_aSalt (hdr w') = salt).
  { unfold w'. destruct (t =? 0); cbn; rewrite ?Eh, ?Es; cbn.
    - split_and!; [apply (rv_sz _ _ _ Hr)|done|apply (rv_ord _ _ _ Hr)|apply (rv_salt _ _ _ Hr)].
    - split_and!; [apply (rv_sz _ _ _ Hr)|..|apply (rv_ord _ _ _ Hr)|apply (rv_salt _ _ _ Hr)].
      destruct Hwok' as [G1 G2 G3 G4]. rewrite Eh in G2, G3, G4. by constructor; cbn. }
  destruct Ew as (? & ? & ? & ?).
  constructor; cbn [w_wal w_sh w_log]; try done.
  - rewrite length_app. simpl. lia.
  - rewrite last_commit_snoc, (rv_commit _ _ _ Hr). unfold w'.
    destruct (t =? 0); cbn; rewrite ?Eh; cbn; [done|]. do 2 f_equal. lia.
  - unfold w'. destruct (t =? 0); cbn; rewrite ?Eh; cbn; [apply (rv_page _ _ _ Hr)|done].
  - apply (rv_file _ _ _ Hr).
  - apply (rv_ckpt _ _ _ Hr).
  - unfold w'. destruct (t =? 0); cbn; rewrite Ewl; apply (rv_write _ _ _ Hr).
Qed.

(** A frame beyond the complete ones would be cut off. *)
Context (HNL : 32 + Z.of_nat N * (sz + 24) <= zlen L).

Lemma frame_in_log k : 1 <= k <= Z.of_nat N -> walFrameOffset k sz + (sz + 24) <= zlen L.
Proof using HNL Hsz.
  pose proof (page_size_mult8 sz Hsz) as [_ ?]. intros Hk.
  unfold walFrameOffset, WAL_HDRSIZE, WAL_FRAME_HDRSIZE. nia.
Qed.

Definition frames_post (fs : list (Z * Z * (Z * Z))) (n : Z) (r : Z * Z * (Z * Z)) (s' : W)
    : Prop :=
  let '(rc, iF, ck') := r in
  zlen fs + 1 <= iF /\ (rc <> SQLITE_OK -> iF < zlen fs + 1 + n) /\
  (rc = SQLITE_OK -> exists fs', recovering s' fs' ck' /\ iF = zlen fs' + 1 /\
    zlen fs <= zlen fs' <= zlen fs + n /\
    ((total = fs' /\ zlen fs' < zlen fs + n) \/ (zlen fs' = zlen fs + n /\ more s' fs'))).

Lemma recover_frames_ok n : forall s fs ck iPg pg,
  recovering s fs ck -> more s fs -> 0 <= iPg < 2 ^ 19 ->
  hash_iZero iPg <= zlen fs -> zlen fs + Z.of_nat n <= hash_iZero iPg + pg_cap iPg ->
  (length fs + n <= N)%nat -> mapped (sh_idx (w_sh s)) iPg pg ->
  wp (recover_frames be n sz (zlen fs + 1) ck) (frames_post fs (Z.of_nat n)) s.
Proof using HL Hsz HN HNL Hfile.
  induction n as [|n IH]; intros s fs ck iPg pg Hr Hm Hi Hz Hcap Hlen Hmap.
  { wp_pure. split_and!; [lia|done|]. intros _. exists fs.
    split_and!; [done|done|lia|lia|]. right. split; [lia|done]. }
  cbn [recover_frames]. unfold log_read. wp_pure.
  destruct (xRead (w_log s) _ _) as [rc f] eqn:Eread. cbv iota beta.
  destruct (Z.eqb_spec rc SQLITE_OK) as [->|Hne]; cbn [negb].
  2:{ wp_pure. split_and!; [lia|lia|done]. }
  pose proof (page_size_mult8 sz Hsz) as [_ Hszr]. pose proof (zlen_nonneg fs).
  assert (Hin : walFrameOffset (zlen fs + 1) sz + (sz + 24) <= zlen L)
    by (apply frame_in_log; unfold zlen; lia).
  apply xRead_ok in Eread as [_ Ef]; [|unfold WAL_FRAME_HDRSIZE; lia|
    unfold walFrameOffset, WAL_HDRSIZE, WAL_FRAME_HDRSIZE; nia].
  rewrite (rv_file _ _ _ Hr), Hfile in Ef.
  destruct (decode_next s fs ck f Hr Hm ltac:(lia) Hin Ef) as (r & c & Ed & Hc & Hnone & Hsome).
  unfold get_wal. wp_pure. change WAL_FRAME_HDRSIZE with 24. rewrite (wp_of_option _ _ _ _ Ed).
  wp_pure. destruct r as [[p t]|].
  2:{ wp_pure. split_and!; [lia|done|]. intros _. exists fs.
      split_and!; [|done|lia|lia|left; split; [auto|lia]].
      pose proof (wal_ok_run _ _ (rv_ok _ _ _ Hr) Hc). destruct Hr. by constructor. }
  destruct (Hsome p t eq_refl) as [Hp Htot].
  destruct (walIndexAppend_ok
              (set_hdr (hset_aFrameCksum c (hdr (w_wal s))) (w_wal s))
              (sh_idx (w_sh s)) (frame_pgno <$> fs) p)
    as (rc & w2 & x2 & Ea & Hsame & Hok & _ & Hmapped).
  { apply wi_clean_ok, (rv_clean _ _ _ Hr). }
  { rewrite zlen_frames. unfold zlen. lia. }
  { done. } { left. apply (rv_clean _ _ _ Hr). }
  rewrite zlen_frames in Ea, Hmapped.
  assert (rc = SQLITE_OK) as ->.
  { apply (Hmapped pg). replace (walFramePage (zlen fs + 1)) with iPg; [done|].
    symmetry. replace (zlen fs + 1) with (hash_iZero iPg + (zlen fs + 1 - hash_iZero iPg)) by lia.
    apply frame_page_of; lia. }
  specialize (Hok eq_refl).
  assert (Hcl : wi_clean x2 (frame_pgno <$> (fs ++ [(p, t, c)]))) by (by rewrite fmap_app).
  pose proof (recovering_next s fs ck p t c x2 Hr ltac:(lia) Hc Hcl w2 Hsame) as Hr2.
  wp_pure. eapply run_wp.
  { unfold with_idx. cbn [w_wal w_sh]. rewrite Ea. reflexivity. }
  cbn [negb Z.eqb SQLITE_OK].
  assert (Hpg : exists pg', mapped x2 iPg pg').
  { destruct (Hcl iPg Hi) as (pg' & ? & _); [|eauto].
    rewrite zlen_frames, zlen_app, zlen_cons. pose proof (zlen_nonneg (@nil (Z * Z * (Z * Z)))). lia. }
  destruct Hpg as [pg' Hmap'].
  assert (Hzl : zlen (fs ++ [(p, t, c)]) = zlen fs + 1)
    by (rewrite zlen_app; change (zlen [(p, t, c)]) with 1; lia).
  assert (Hgo : forall s2 ck2, recovering s2 (fs ++ [(p, t, c)]) ck2 ->
            h_aFrameCksum (hdr (w_wal s2)) = c -> sh_idx (w_sh s2) = x2 ->
            wp (recover_frames be n sz (zlen fs + 1 + 1) ck2)
               (frames_post fs (Z.of_nat (S n))) s2).
  { intros s2 ck2 Hr' Hc' Hx'. rewrite <- Hzl.
    eapply wp_mono; [|apply (IH s2 (fs ++ [(p, t, c)]) ck2 iPg pg'); try done; try lia].
    - intros [[rc' iF] ck'] s' (Hge & Hlt & Hpost). split; [lia|]. split; [intros Hn; specialize (Hlt Hn); lia|].
      intros Hrc. destruct (Hpost Hrc) as (fs' & ? & ? & ? & Hd).
      exists fs'. split_and!; [done|done|lia|lia|].
      destruct Hd as [[? ?]|[? ?]]; [left|right]; (split; [done || lia|done || lia]).
    - unfold more. rewrite Htot, Hc', Hzl, length_app. cbn [length].
      do 2 f_equal; lia.
    - rewrite length_app. cbn [length]. lia.
    - by rewrite Hx'. }
  destruct Hsame as (Eh & _).
  assert (Ec : h_aFrameCksum (hdr w2) = c) by (by rewrite Eh).
  destruct (Z.eqb_spec t 0) as [Ht|Ht]; cbn [negb].
  - by apply Hgo.
  - unfold get_hdr. wp_pure. cbn [w_wal w_sh]. cbn. rewrite Ec. by apply Hgo.
Qed.

Lemma iZero_succ i : 0 <= i < 2 ^ 19 -> HASHTABLE_NPAGE_ONE + i * HASHTABLE_NPAGE = hash_iZero (i + 1).
Proof.
  intros. rewrite hash_iZero_eq by lia. destruct (Z.eqb_spec (i + 1) 0); [lia|].
  change HASHTABLE_NPAGE_ONE with 4062. change HASHTABLE_NPAGE with 4096. lia.
Qed.

Lemma iFirst_eq i :
  0 <= i < 2 ^ 19 ->
  u32 (1 + (if i =? 0 then 0 else HASHTABLE_NPAGE_ONE + (i - 1) * HASHTABLE_NPAGE)) =
  hash_iZero i + 1.
Proof.
  intros Hi. rewrite hash_iZero_eq by lia.
  change HASHTABLE_NPAGE_ONE with 4062. change HASHTABLE_NPAGE with 4096.
  destruct (Z.eqb_spec i 0); rewrite u32_small; lia.
Qed.

Context (Hlaw : shm_map_law).

Lemma recovering_same s fs ck w x :
  recovering s fs ck -> wal_same (w_wal s) w -> wi_clean x (frame_pgno <$> fs) ->
  recovering (mkWorld w (sh_set_idx x (w_sh s)) (w_log s) (w_db s) (w_aws s) (w_os s)) fs ck.
Proof.
  intros Hr Hs Hx. pose proof (wal_ok_same _ _ Hs (rv_ok _ _ _ Hr)).
  destruct Hs as (Eh & _ & _ & _ & Es & Ewl & _).
  constructor; cbn [w_wal w_sh w_log]; rewrite ?Eh, ?Es, ?Ewl; try done; apply Hr.
Qed.

Lemma recover_pages_ok n : forall s fs ck iPg rc,
  recovering s fs ck ->
  (n = 0%nat /\ total = fs) \/
  (more s fs /\ 0 <= iPg /\ zlen fs = hash_iZero iPg /\
   Z.of_nat n = walFramePage (Z.of_nat N) + 1 - iPg /\ (0 < n)%nat) ->
  wp (recover_pages be aPrivate n sz (Z.of_nat N) iPg rc ck)
     (fun r s' => r.1 = SQLITE_OK -> recovering s' total r.2) s.
Proof using HL Hsz HN HNL Hlaw Hfile.
  induction n as [|n IH]; intros s fs ck iPg rc0 Hr Hcase.
  { destruct Hcase as [[_ ->]|(? & ? & ? & ? & ?)]; [|lia]. wp_pure. by intros _. }
  destruct Hcase as [[? _]|(Hm & Hi0 & Hz & Hn & _)]; [done|].
  assert (HNp : Z.of_nat N = 0 /\ walFramePage (Z.of_nat N) = 0 \/
                exists i idx, 0 <= i < 2 ^ 19 /\ 1 <= idx <= pg_cap i /\
                  Z.of_nat N = hash_iZero i + idx /\ walFramePage (Z.of_nat N) = i).
  { destruct (decide (Z.of_nat N = 0)) as [E|].
    - left. split; [done|]. by rewrite E.
    - right. apply frame_locate. lia. }
  assert (Hi : 0 <= iPg < 2 ^ 19 /\ iPg <= walFramePage (Z.of_nat N)).
  { destruct HNp as [[? E]|(i & idx & ? & ? & ? & E)]; lia. }
  assert (HzN : hash_iZero iPg <= Z.of_nat N).
  { destruct HNp as [[? E]|(i & idx & ? & ? & ? & E)].
    - rewrite hash_iZero_eq by lia. destruct (Z.eqb_spec iPg 0); lia.
    - destruct (decide (iPg = i)) as [->|]; [lia|].
      pose proof (iZero_mono iPg i). pose proof (pg_cap_range iPg). lia. }
  pose proof (iZero_nonneg iPg (proj1 Hi)). pose proof (pg_cap_range iPg).
  cbn [recover_pages]. rewrite iZero_succ, iFirst_eq by lia.
  rewrite iZero_next by lia.
  assert (u32 (Z.min (Z.of_nat N) (hash_iZero iPg + pg_cap iPg)) =
          Z.min (Z.of_nat N) (hash_iZero iPg + pg_cap iPg)) as ->.
  { apply u32_small. unfold FRAME_MAX in HN. lia. }
  set (iLast := Z.min _ _).
  destruct (walIndexPage (w_wal s) (sh_idx (w_sh s)) iPg) as [[[rc pp] w1] x1] eqn:Epg.
  wp_pure. eapply run_wp; [unfold with_idx; by rewrite Epg|]. cbn beta iota.
  destruct (walIndexPage_inv _ _ _ _ _ _ _ Epg) as (Hsame & Hext & Hpp).
  destruct pp as [pg|].
  2:{ wp_pure. cbn [fst snd]. intros ->. exfalso.
      by eapply walIndexPage_some; [done|apply (rv_write _ _ _ Hr)|apply Epg|]. }
  assert (Hcl1 : wi_clean (wi_set x1 iPg (aPrivate iPg)) (frame_pgno <$> fs)).
  { apply wi_clean_set; [eapply idx_extends_clean; [done|apply (rv_clean _ _ _ Hr)]|].
    rewrite zlen_frames. lia. }
  pose proof (recovering_same s fs ck w1 (wi_set x1 iPg (aPrivate iPg)) Hr Hsame Hcl1) as Hr1.
  wp_pure. cbn [w_wal w_sh w_log w_db w_aws w_os sh_idx sh_set_idx sh_hdr0 sh_hdr1 sh_ckpt].
  rewrite <- Hz. assert (HiL : iLast = Z.min (Z.of_nat N) (zlen fs + pg_cap iPg)) by lia.
  assert (Hmid : wp (recover_frames be (Z.to_nat (iLast + 1 - (zlen fs + 1))) sz (zlen fs + 1) ck)
                    (frames_post fs (Z.of_nat (Z.to_nat (iLast + 1 - (zlen fs + 1)))))
                    (mkWorld w1 (sh_set_idx (wi_set x1 iPg (aPrivate iPg)) (w_sh s))
                       (w_log s) (w_db s) (w_aws s) (w_os s))).
  { apply (recover_frames_ok _ _ _ _ iPg (aPrivate iPg)); try done; try lia.
    - unfold more in *. cbn [w_wal]. by rewrite (proj1 Hsame).
    - unfold zlen in *. lia.
    - eapply mapped_set. by apply Hpp. }
  eapply wp_mono; [|exact Hmid].
  intros [[rc' iF] ck'] s' (Hge & Hlt & Hpost). cbn beta iota.
  rewrite Z2Nat.id in Hlt, Hpost by lia.
  destruct (Z.leb_spec iF iLast) as [Hle|Hgt].
  - wp_pure. cbn [fst snd]. destruct (Z.leb_spec (zlen fs + 1) iLast); [|lia].
    intros Hrc. destruct (Hpost Hrc) as (fs' & Hr' & -> & _ & [[-> _]|[? _]]); [done|lia].
  - assert (rc' = SQLITE_OK) as ->.
    { destruct (decide (rc' = SQLITE_OK)) as [|Hn']; [done|]. specialize (Hlt Hn'). lia. }
    destruct (Hpost eq_refl) as (fs' & Hr' & -> & Hlen & Hd).
    destruct Hd as [[_ ?]|[Hfull Hmore]]; [lia|].
    apply (IH s' fs' ck'); [done|].
    destruct (decide (walFramePage (Z.of_nat N) = iPg)) as [Elast|].
    + left. split; [lia|].
      assert (zlen fs' = Z.of_nat N).
      { destruct HNp as [[? ?]|(i & idx & ? & ? & ? & ?)]; [unfold zlen in *; lia|].
        subst i. rewrite Elast in *. lia. }
      unfold more in Hmore. replace (N - length fs')%nat with 0%nat in Hmore by (unfold zlen in *; lia).
      cbn [scan_log] in Hmore. by rewrite app_nil_r in Hmore.
    + right. split_and!; [done|lia| |lia|lia]. rewrite iZero_next by lia.
      destruct HNp as [[? ?]|(i & idx & ? & ? & ? & ?)]; [lia|].
      pose proof (iZero_mono iPg i). lia.
Qed.
End correct.

(** ** The header of the log *)

(** The header is that of a log with these parameters. *)
Record good_header (L : list Z) (sz ord : Z) (salt : list Z) (c : Z * Z) : Prop := {
  gh_magic : exists magic, sqlite3Get4byte (slice 0 32 L) = Some magic /\
               Z.land magic 0xFFFFFFFE = WAL_MAGIC /\ ord = Z.land magic 1;
  gh_version : sqlite3Get4byte (at_off 4 (slice 0 32 L)) = Some WAL_MAX_VERSION;
  gh_size : sqlite3Get4byte (at_off 8 (slice 0 32 L)) = Some sz /\ page_size_ok sz;
  gh_salt : salt = slice 16 8 (slice 0 32 L);
  gh_cksum : c = cksum_spec (ord =? 1) (0, 0) (slice 0 24 (slice 0 32 L));
  gh_cksum0 : sqlite3Get4byte (at_off 24 (slice 0 32 L)) = Some c.1;
  gh_cksum1 : sqlite3Get4byte (at_off 28 (slice 0 32 L)) = Some c.2;
}.

Lemma power_of_two n :
  512 <= n <= 65536 -> Z.land n (n - 1) = 0 -> page_size_ok n.
Proof.
  intros Hn Hl. exists (Z.log2 n).
  pose proof (Z.log2_spec n ltac:(lia)) as [H1 H2].
  assert (9 <= Z.log2 n <= 16).
  { split; [apply (Z.log2_le_mono 512)|apply (Z.log2_le_mono n 65536)]; lia. }
  split; [done|]. destruct (decide (n = 2 ^ Z.log2 n)) as [|Hne]; [done|exfalso].
  assert (Z.log2 (n - 1) = Z.log2 n) as E by (apply Z.log2_unique; lia).
  assert (Z.testbit (Z.land n (n - 1)) (Z.log2 n) = true) as Hb.
  { rewrite Z.land_spec, Z.bit_log2 by lia. rewrite <- E at 1. by rewrite Z.bit_log2 by lia. }
  rewrite Hl, Z.bits_0 in Hb. done.
Qed.

Lemma power_of_two_check n :
  page_size_ok n -> Z.land n (i32 (n - 1)) = 0 /\ (n >? SQLITE_MAX_PAGE_SIZE) = false /\
                    (n <? 512) = false /\ i32 n = n.
Proof.
  intros H%page_size_cases.
  destruct H as [->|[->|[->|[->|[->|[->|[->| ->]]]]]]]; split_and!; reflexivity.
Qed.

Lemma Get4byte_some a :
  bytes_ok a -> (4 <= length a)%nat -> exists v, sqlite3Get4byte a = Some v /\ 0 <= v < 2 ^ 32.
Proof.
  intros Hb Hl. destruct (Get4byte_front a Hb Hl) as (v & _ & E & Hv & _). eauto.
Qed.

Section header.
Context {F OS : Type} `{VFile F} `{WalOS OS} (be : bool).
Local Abbreviation W := (World F OS).

(** Only the handle changes. *)
Definition same_but_wal (s s' : W) : Prop :=
  w_sh s' = w_sh s /\ w_log s' = w_log s /\ w_db s' = w_db s /\ w_os s' = w_os s /\
  writeLock (w_wal s') = writeLock (w_wal s) /\
  exclusiveMode (w_wal s') = exclusiveMode (w_wal s) /\
  ckptLock (w_wal s') = ckptLock (w_wal s).

Definition no_frames (h : WalIndexHdr) : Prop :=
  h_mxFrame h = 0 /\ h_nPage h = 0 /\ length (h_aSalt h) = 8%nat /\ bytes_ok (h_aSalt h).

Lemma recover_header_ok s L :
  bytes_ok L -> 32 <= zlen L -> hdr (w_wal s) = hdr_zero ->
  wp (recover_header be (slice 0 32 L)) (fun chk s' =>
      same_but_wal s s' /\ no_frames (hdr (w_wal s')) /\
      match chk with
      | hdr_valid sz => exists ord salt c, good_header L sz ord salt c /\
          szPage (w_wal s') = sz /\ wal_ok (w_wal s') /\
          h_bigEndCksum (hdr (w_wal s')) = ord /\ h_aSalt (hdr (w_wal s')) = salt /\
          h_aFrameCksum (hdr (w_wal s')) = c
      | _ => forall sz ord salt c, ~ good_header L sz ord salt c
      end) s.
Proof.
  intros HL Hlen Hz.
  set (B := slice 0 32 L).
  assert (HB : bytes_ok B) by (by apply Forall_take, Forall_drop).
  assert (HBl : length B = 32%nat).
  { pose proof (length_slice 0 32 L ltac:(lia) ltac:(lia) ltac:(lia)). unfold zlen, B in *. lia. }
  assert (Hget : forall k, 0 <= k <= 28 -> exists v, sqlite3Get4byte (at_off k B) = Some v /\
            0 <= v < 2 ^ 32).
  { intros k Hk. apply Get4byte_some; [by apply Forall_drop|].
    unfold at_off. rewrite length_drop. lia. }
  destruct (Hget 0) as (magic & Em & Hm); [lia|].
  change (at_off 0 B) with B in Em.
  destruct (Hget 4) as (ver & Ev & _); [lia|]. destruct (Hget 8) as (sz & Es & Hsz); [lia|].
  destruct (Hget 12) as (nck & En & _); [lia|].
  destruct (Hget 24) as (c0 & E0 & _); [lia|]. destruct (Hget 28) as (c1 & E1 & _); [lia|].
  unfold recover_header. fold B. wp_pure.
  rewrite (wp_of_option _ _ _ _ Em). wp_pure. rewrite (wp_of_option _ _ _ _ Es). wp_pure.
  assert (Hnf0 : no_frames (hdr (w_wal s))).
  { rewrite Hz. split_and!; [done..|]. by apply Forall_replicate. }
  assert (Hs0 : same_but_wal s s) by (by split_and!).
  destruct (negb _ || _ || _ || _) eqn:Echk.
  - wp_pure. split_and!; [done|done|].
    intros sz' ord' salt' c' [(m & Em' & Hmag & _) _ [Es' Hps] _ _ _ _]. fold B in Em', Es'.
    rewrite Em in Em'. injection Em' as <-. rewrite Es in Es'. injection Es' as <-.
    destruct (power_of_two_check sz Hps) as (P1 & P2 & P3 & P4).
    rewrite P4, P1, P2, P3, Hmag in Echk. by cbn in Echk.
  - apply orb_false_elim in Echk as [Echk E4]. apply orb_false_elim in Echk as [Echk E3].
    apply orb_false_elim in Echk as [E5 E2].
    apply negb_false_iff, Z.eqb_eq in E5, E2. rewrite Z.gtb_ltb in E3.
    apply Z.ltb_ge in E3, E4. unfold SQLITE_MAX_PAGE_SIZE in E3.
    assert (i32 sz = sz) as Ei.
    { unfold i32 in *. pose proof (Z.div_mod (sz + 2 ^ 31) (2 ^ 32)).
      pose proof (Z.mod_pos_bound (sz + 2 ^ 31) (2 ^ 32)).
      destruct (decide (sz < 2 ^ 31)); [rewrite Z.mod_small; lia|].
      assert ((sz + 2 ^ 31) / 2 ^ 32 = 1) by (symmetry; apply Z.div_unique_pos with (sz - 2 ^ 31); lia).
      lia. }
    rewrite Ei in E2, E3, E4 |- *. rewrite (i32_small (sz - 1)) in E2 by lia.
    pose proof (power_of_two sz ltac:(lia) E2) as Hps.
    wp_pure. rewrite (wp_of_option _ _ _ _ En). unfold get_hdr. wp_pure. cbn [w_wal].
    assert (Hord : Z.land magic 1 = 0 \/ Z.land magic 1 = 1).
    { pose proof (Z.land_ones magic 1 ltac:(lia)) as E. change (Z.ones 1) with 1 in E.
      rewrite E. pose proof (Z.mod_pos_bound magic (2 ^ 1)). lia. }
    set (ord := Z.land magic 1) in *.
    assert (Eck : walChecksumBytes be (ord =? Z.b2z be) B (WAL_HDRSIZE - 2 * 4) None =
              Some (cksum_spec (ord =? 1) (0, 0) (slice 0 24 B))).
    { replace (ord =? Z.b2z be) with (Bool.eqb (ord =? 1) be)
        by (destruct Hord as [-> | ->], be; reflexivity).
      apply walChecksum_portable; [done|unfold zlen; rewrite HBl; cbn; lia|done]. }
    cbn [hdr h_bigEndCksum hset_aSalt hset_bigEndCksum set_hdr set_szPage set_nCkpt].
    rewrite (wp_of_option _ _ _ _ Eck). wp_pure.
    rewrite (wp_of_option _ _ _ _ E0). wp_pure. rewrite (wp_of_option _ _ _ _ E1). wp_pure.
    set (c := cksum_spec _ _ _).
    set (w' := set_hdr _ _).
    assert (Hc : cksum_ok c) by (by apply cksum_spec_ok).
    assert (Hw' : szPage w' = sz /\ wal_ok w' /\ h_bigEndCksum (hdr w') = ord /\
                  h_aSalt (hdr w') = slice 16 8 B /\ h_aFrameCksum (hdr w') = c /\
                  no_frames (hdr w')).
    { assert (bytes_ok (slice 16 8 B) /\ length (slice 16 8 B) = 8%nat) as [Hs1 Hs2].
      { split; [by apply Forall_take, Forall_drop|].
        unfold slice. rewrite length_take, length_drop. lia. }
      unfold w'. cbn. split_and!; try done.
      unfold no_frames; cbn; rewrite Hz. by split_and!. }
    destruct Hw' as (? & ? & ? & ? & ? & ?).
    set (s1 := mkWorld _ _ _ _ _ _).
    assert (Hs1 : same_but_wal s s1) by (by split_and!).
    assert (Hgood : forall sz' ord' salt' c', good_header L sz' ord' salt' c' ->
              c0 = c.1 /\ c1 = c.2 /\ ver = WAL_MAX_VERSION).
    { intros sz' ord' salt' c' [(m & Em' & _ & ->) Gv _ _ Gc G0 G1]. fold B in Em', Gv, Gc, G0, G1.
      rewrite Em in Em'. injection Em' as <-. fold ord c in Gc. subst c'.
      rewrite E0 in G0. rewrite E1 in G1. rewrite Ev in Gv. by simplify_eq. }
    destruct (Z.eqb_spec c.1 c0) as [<-|Hn0]; cbn [negb orb].
    2:{ wp_pure. split_and!; [done|done|]. intros ? ? ? ? Hg%Hgood. by destruct Hg. }
    destruct (Z.eqb_spec c.2 c1) as [<-|Hn1]; cbn [negb orb].
    2:{ wp_pure. split_and!; [done|done|]. intros ? ? ? ? Hg%Hgood. by destruct Hg as (_ & ? & _). }
    wp_pure. rewrite (wp_of_option _ _ _ _ Ev). wp_pure.
    destruct (Z.eqb_spec ver WAL_MAX_VERSION) as [->|Hnv]; cbn [negb]; wp_pure.
    + split_and!; [done|done|]. exists ord, (slice 16 8 B), c. split_and!; try done.
      constructor; try done. exists magic. done.
    + split_and!; [done|done|]. intros ? ? ? ? Hg%Hgood. by destruct Hg as (_ & _ & ?).
Qed.
End header.

(** Recovery of the log [L]: the valid frames after its header, the last
    commit among them, and the index of all of them. *)
Definition log_frames (be : bool) (L : list Z) (sz ord : Z) (salt : list Z) (c : Z * Z)
    : list (Z * Z * (Z * Z)) :=
  scan_log be sz ord salt L (Z.to_nat ((zlen L - 32) / (sz + 24))) c 1.

Section finish.
Context {F OS : Type} `{VFile F} `{WalOS OS} (be : bool) (Hq : os_quiet (OS := OS)).
Local Abbreviation W := (World F OS).

(** A read mark is in its initial state, or it was in use. *)
Definition mark_reset (mx i : Z) (m m' : list Z) : Prop :=
  m'.[i] = Some (if (i =? 1) && negb (mx =? 0) then mx else READMARK_NOT_USED) \/
  m'.[i] = m.[i].

Record marks_reset (mx : Z) (s s' : W) : Prop := {
  mr_wal : w_wal s' = w_wal s;
  mr_log : w_log s' = w_log s;
  mr_sh : exists m', w_sh s' = sh_set_ckpt (ck_set_marks m' (sh_ckpt (w_sh s))) (w_sh s) /\
            length m' = length (aReadMark (sh_ckpt (w_sh s))) /\
            m'.[0] = (aReadMark (sh_ckpt (w_sh s))).[0] /\
            forall i, 1 <= i < WAL_NREADER ->
              mark_reset mx i (aReadMark (sh_ckpt (w_sh s))) m';
}.

Lemma recover_marks_ok n : forall i rc s,
  1 <= i -> i + Z.of_nat n = WAL_NREADER ->
  length (aReadMark (sh_ckpt (w_sh s))) = 5%nat ->
  wp (recover_marks n i rc) (fun _ s' => marks_reset (h_mxFrame (hdr (w_wal s))) s s') s.
Proof using Hq.
  set (P := fun (s s' : W) => marks_reset (h_mxFrame (hdr (w_wal s))) s s').
  assert (Hrefl : forall s : W, P s s).
  { intros s. constructor; [done|done|]. exists (aReadMark (sh_ckpt (w_sh s))).
    split_and!; [by destruct s as [? [? ? []] ? ?]|done|done|]. intros. by right. }
  induction n as [|n IH]; intros i rc s Hi Hn Hl; [wp_pure; apply Hrefl|].
  cbn [recover_marks]. wp_pure. apply wp_lock_excl; [done|]. intros rc1 s1 (E1 & E2 & E3 & _).
  assert (Hl1 : length (aReadMark (sh_ckpt (w_sh s1))) = 5%nat) by (by rewrite E2).
  assert (HP1 : forall s', P s1 s' -> P s s').
  { intros s' [G1 G2 G3]. rewrite E1, E2, E3 in *. by constructor. }
  destruct (rc1 =? SQLITE_OK).
  - unfold get_hdr, setReadMark, get_ckpt. wp_pure.
    set (x := if _ && _ then _ else _).
    assert (Hr : 0 <= i < zlen (aReadMark (sh_ckpt (w_sh s1)))).
    { unfold zlen. rewrite Hl1. unfold WAL_NREADER, SQLITE_SHM_NLOCK in Hn. lia. }
    rewrite (wp_of_option _ _ _ _ (zset_zupd _ i x Hr)). wp_pure.
    apply wp_unlock_excl; [done|]. intros s2 (F1 & F2 & F3 & _). cbn [w_wal w_sh w_log] in *.
    eapply wp_mono; [|apply IH; [lia|lia|]].
    + intros _ s' [G1 G2 (m' & Gs & Gl & G0 & Gm)]. apply HP1.
      rewrite F1 in G1. rewrite F3 in G2. rewrite F2 in Gs, Gl, G0, Gm.
      world_simpl in Gs. world_simpl in Gl. world_simpl in G0. world_simpl in Gm.
      constructor; [done|done|]. exists m'. split_and!.
      * rewrite Gs. by destruct (w_sh s1) as [? ? []].
      * rewrite Gl. unfold zupd. by rewrite length_insert.
      * rewrite G0. apply zget_zupd_ne; lia.
      * intros j Hj. destruct (Gm j Hj) as [Hs|Hs].
        -- left. rewrite Hs. by rewrite F1.
        -- rewrite zget_zupd in Hs by done. case_decide; [|by right].
           subst j. left. rewrite Hs. unfold x. done.
    + rewrite F2. cbn. unfold zupd. by rewrite length_insert.
  - destruct (negb (rc1 =? SQLITE_BUSY)); [wp_pure; apply HP1, Hrefl|].
    eapply wp_mono; [|apply IH; [lia|lia|done]]. intros r s'. apply HP1.
Qed.

(** What the last part leaves, from the frames that were taken. *)
Record finished (s s' : W) (ck : Z * Z) : Prop := {
  fi_hdr : hdr (w_wal s') = seal be (hset_aFrameCksum ck (hdr (w_wal s)));
  fi_szPage : szPage (w_wal s') = szPage (w_wal s);
  fi_hdr0 : sh_hdr0 (w_sh s') = hdr (w_wal s');
  fi_hdr1 : sh_hdr1 (w_sh s') = hdr (w_wal s');
  fi_idx : sh_idx (w_sh s') = sh_idx (w_sh s);
  fi_log : w_log s' = w_log s;
  fi_backfill : nBackfill (sh_ckpt (w_sh s')) = 0;
  fi_attempted : nBackfillAttempted (sh_ckpt (w_sh s')) = h_mxFrame (hdr (w_wal s));
  fi_mark0 : (aReadMark (sh_ckpt (w_sh s'))).[0] = Some 0;
  fi_marks : forall i, 1 <= i < WAL_NREADER ->
    mark_reset (h_mxFrame (hdr (w_wal s))) i (aReadMark (sh_ckpt (w_sh s)))
      (aReadMark (sh_ckpt (w_sh s')));
}.

Lemma recover_finish_ok s ck :
  bytes_ok (h_aSalt (hdr (w_wal s))) -> length (h_aSalt (hdr (w_wal s))) = 8%nat ->
  length (aReadMark (sh_ckpt (w_sh s))) = 5%nat ->
  wp (recover_finish be SQLITE_OK ck) (fun _ s' => finished s s' ck) s.
Proof using Hq.
  intros Hs Hl Hm. unfold recover_finish. cbn [negb Z.eqb SQLITE_OK]. wp_pure.
  apply wp_walIndexWriteHdr; [done|done|done|]. intros s1 E1 E2 E3 E4 _.
  cbn [w_wal w_sh w_log w_db] in *. unfold get_hdr, setReadMark, get_ckpt. wp_pure.
  assert (Hr : 0 <= 0 < zlen (aReadMark (sh_ckpt (w_sh s1)))).
  { rewrite E2. cbn. unfold zlen. rewrite Hm. lia. }
  rewrite (wp_of_option _ _ _ _ (zset_zupd _ 0 0 Hr)). wp_pure.
  eapply wp_mono; [|apply recover_marks_ok; [lia|done|]].
  2:{ cbn. unfold zupd. rewrite length_insert, E2. done. }
  intros rc s' [G1 G2 (m' & Gs & Gl & G0 & Gm)]. destruct rc as [rc ok]. wp_pure.
  cbn [w_wal w_sh w_log] in *. rewrite E2 in Gs, Gl, G0, Gm.
  rewrite E1 in G1, Gm.
  world_simpl in Gs. world_simpl in Gl. world_simpl in G0. world_simpl in Gm.
  constructor; rewrite ?Gs, ?G1, ?G2; world_simpl; try done.
  - by rewrite E1.
  - rewrite G0. apply zget_zupd_eq. unfold zlen. rewrite Hm. lia.
  - intros i Hi. destruct (Gm i Hi) as [Hx|Hx]; [by left|right].
    rewrite Hx. apply zget_zupd_ne; lia.
Qed.
End finish.

Section body.
Context {F OS : Type} `{VFile F} `{WalOS OS} `{ShmEnv} (be : bool).
Context (aPrivate : Z -> WiPage) (Hq : os_quiet (OS := OS)) (Hlaw : shm_map_law).
Local Abbreviation W := (World F OS).

(** The header of the wal-index after recovery. *)
Inductive recovered_hdr (L : list Z) (h : WalIndexHdr) (x : WalIdx) : Prop :=
  | recovered_empty :
      zlen L <= 32 \/ (forall sz ord salt c, ~ good_header L sz ord salt c) ->
      h_mxFrame h = 0 -> h_nPage h = 0 -> h_aFrameCksum h = (0, 0) ->
      recovered_hdr L h x
  | recovered_log sz ord salt c :
      good_header L sz ord salt c -> 32 < zlen L ->
      last_commit 1 (log_frames be L sz ord salt c) (0, 0, (0, 0)) =
        (h_mxFrame h, h_nPage h, h_aFrameCksum h) ->
      (h_mxFrame h <> 0 -> h_szPage h = pagesize_field sz) ->
      h_aSalt h = salt -> h_bigEndCksum h = ord ->
      wi_clean x (frame_pgno <$> log_frames be L sz ord salt c) ->
      recovered_hdr L h x.

Record recovered (L : list Z) (s s' : W) : Prop := {
  rec_hdr : recovered_hdr L (hdr (w_wal s')) (sh_idx (w_sh s'));
  rec_sealed : hdr_sealed be (hdr (w_wal s'));
  rec_hdr0 : sh_hdr0 (w_sh s') = hdr (w_wal s');
  rec_hdr1 : sh_hdr1 (w_sh s') = hdr (w_wal s');
  rec_log : w_log s' = w_log s;
  rec_backfill : nBackfill (sh_ckpt (w_sh s')) = 0;
  rec_attempted : nBackfillAttempted (sh_ckpt (w_sh s')) = h_mxFrame (hdr (w_wal s'));
  rec_mark0 : (aReadMark (sh_ckpt (w_sh s'))).[0] = Some 0;
}.

Lemma recover_finish_error rc ck s (P : Z -> W -> Prop) :
  rc <> SQLITE_OK -> P rc s -> wp (recover_finish be rc ck) P s.
Proof.
  intros Hrc HP. unfold recover_finish.
  destruct (Z.eqb_spec rc SQLITE_OK); [done|]. by cbn [negb]; wp_pure.
Qed.

Lemma finished_recovered L s s1 s' ck :
  finished be s1 s' ck -> w_log s1 = w_log s ->
  bytes_ok (h_aSalt (hdr (w_wal s1))) -> length (h_aSalt (hdr (w_wal s1))) = 8%nat ->
  recovered_hdr L (seal be (hset_aFrameCksum ck (hdr (w_wal s1)))) (sh_idx (w_sh s1)) ->
  recovered L s s'.
Proof.
  intros Hf El Hs Hl Hh. pose proof (fi_hdr _ _ _ _ Hf) as E.
  constructor.
  - by rewrite E, (fi_idx _ _ _ _ Hf).
  - rewrite E. by apply seal_sealed.
  - apply (fi_hdr0 _ _ _ _ Hf).
  - apply (fi_hdr1 _ _ _ _ Hf).
  - by rewrite (fi_log _ _ _ _ Hf).
  - apply (fi_backfill _ _ _ _ Hf).
  - rewrite E. apply (fi_attempted _ _ _ _ Hf).
  - apply (fi_mark0 _ _ _ _ Hf).
Qed.

(** Preconditions: the write lock is held, the shared area has its five read
    marks, the log is shorter than 2^40 bytes. *)
Record recover_pre (s : W) : Prop := {
  rp_write : writeLock (w_wal s) = true;
  rp_marks : length (aReadMark (sh_ckpt (w_sh s))) = 5%nat;
  rp_bytes : bytes_ok (content (w_log s));
  rp_size : zlen (content (w_log s)) < 2 ^ 40;
}.

Lemma frame_count (L : list Z) sz :
  page_size_ok sz -> 32 < zlen L < 2 ^ 40 ->
  let N := Z.to_nat ((zlen L - 32) / (sz + 24)) in
  u32 (Z.quot (zlen L - WAL_HDRSIZE) (sz + WAL_FRAME_HDRSIZE)) = Z.of_nat N /\
  Z.of_nat N + 1 < FRAME_MAX /\ 32 + Z.of_nat N * (sz + 24) <= zlen L.
Proof.
  intros Hs HL N. pose proof (page_size_mult8 sz Hs) as [_ ?].
  pose proof (Z.div_mod (zlen L - 32) (sz + 24)).
  pose proof (Z.mod_pos_bound (zlen L - 32) (sz + 24)).
  assert (0 <= (zlen L - 32) / (sz + 24) <= 2 ^ 31 - 4098).
  { split; [apply Z.div_pos; lia|]. enough ((zlen L - 32) / (sz + 24) < 2 ^ 31 - 4097) by lia.
    apply Z.div_lt_upper_bound; nia. }
  unfold N, WAL_HDRSIZE, WAL_FRAME_HDRSIZE, FRAME_MAX. rewrite Z2Nat.id by lia.
  rewrite Z.quot_div_nonneg, u32_small by lia. split_and!; [done|lia|nia].
Qed.

Lemma recover_body_ok s :
  recover_pre s ->
  wp (recover_body be aPrivate) (fun rc s' =>
    rc = SQLITE_OK -> recovered (content (w_log s)) s s') s.
Proof using Hq Hlaw.
  intros Hpre. set (L := content (w_log s)). unfold recover_body, log_size, log_read. wp_pure.
  set (s0 := mkWorld _ _ _ _ _ _).
  assert (Hempty : zlen L <= 32 \/ (forall sz ord salt c, ~ good_header L sz ord salt c) ->
            forall s1, w_sh s1 = w_sh s -> w_log s1 = w_log s -> no_frames (hdr (w_wal s1)) ->
            wp (recover_finish be SQLITE_OK (0, 0)) (fun rc s' =>
              rc = SQLITE_OK -> recovered L s s') s1).
  { intros Hc s1 E1 E2 (N1 & N2 & N3 & N4).
    eapply wp_mono; [|apply recover_finish_ok; [done|done|done|]].
    - intros rc s' Hf _. apply (finished_recovered L s s1 s' (0, 0)); try done.
      apply recovered_empty; done.
    - rewrite E1. apply (rp_marks _ Hpre). }
  destruct (xFileSize (w_log s)) as [rc n] eqn:En. cbn beta iota.
  destruct (Z.eqb_spec rc SQLITE_OK) as [->|Hrc]; cbn [negb]; [|wp_pure; done].
  apply xFileSize_ok in En. fold L in En. subst n.
  assert (Hz : hdr (w_wal s0) = hdr_zero) by done.
  assert (Hnf : no_frames (hdr (w_wal s0))).
  { rewrite Hz. split_and!; [done..|]. by apply Forall_replicate. }
  rewrite Z.gtb_ltb. unfold WAL_HDRSIZE at 1.
  destruct (Z.ltb_spec 32 (zlen L)) as [Hlen|Hlen]; cbn [negb]; [|by apply Hempty; [left|..]].
  wp_pure. change (w_log s0) with (w_log s).
  destruct (xRead (w_log s) WAL_HDRSIZE 0) as [rc b] eqn:Er. cbn beta iota.
  destruct (Z.eqb_spec rc SQLITE_OK) as [->|Hrc]; cbn [negb]; [|wp_pure; done].
  apply xRead_ok in Er as [_ ->]; [|unfold WAL_HDRSIZE; lia|lia]. fold L. change WAL_HDRSIZE with 32.
  wp_pure. eapply wp_mono;
    [|apply (recover_header_ok be s0 L); [apply (rp_bytes _ Hpre)|lia|done]].
  intros chk s1 (Hs1 & Hnf1 & Hchk). destruct Hs1 as (Es & El & Ed & Eo & Ew & _).
  destruct chk as [| |sz]; [by apply Hempty; [by right|..]| |].
  { by apply recover_finish_error. }
  destruct Hchk as (ord & salt & c & Hg & Hsz & Hok & Hord & Hsalt & Hc).
  pose proof (proj2 (gh_size _ _ _ _ _ Hg)) as Hps.
  destruct (frame_count L sz Hps) as (HN1 & HN2 & HN3); [split; [lia|apply (rp_size _ Hpre)]|].
  set (N := Z.to_nat _) in *.
  wp_pure. apply wp_malloc. intros ok s2 (G1 & G2 & G3 & _).
  destruct ok; cbn [negb]; [|by wp_pure]. change 32 with WAL_HDRSIZE. rewrite HN1. wp_pure.
  assert (Hr2 : recovering sz ord salt N (w_log s) (sh_ckpt (w_sh s)) s2 [] (0, 0)).
  { constructor; rewrite ?G1, ?G2, ?G3, ?Es, ?El; try done.
    - simpl. lia.
    - intros i Hi Hl. pose proof (iZero_nonneg i Hi).
      rewrite zlen_frames, (@zlen_nil (Z * Z * (Z * Z))) in Hl. lia.
    - destruct Hnf1 as (-> & -> & _). done.
    - by destruct Hnf1 as (-> & _).
    - rewrite Ew. apply (rp_write _ Hpre). }
  assert (Ht : total be L sz ord salt c N = log_frames be L sz ord salt c) by done.
  eapply wp_mono; [|apply (recover_pages_ok be aPrivate L (rp_bytes _ Hpre) sz ord salt c N HN2
                             Hps (w_log s) eq_refl (sh_ckpt (w_sh s)) HN3 Hlaw _ s2 [] (0, 0) 0 SQLITE_OK Hr2)].
  2:{ right. unfold more. rewrite G1, Hc. split_and!; try done; try lia.
      - cbn [app length]. by rewrite Nat.sub_0_r.
      - pose proof (walFramePage_eq (Z.of_nat N)). unfold FRAME_MAX in HN2.
        rewrite walFramePage_eq by lia. pose proof (Z.div_pos (Z.of_nat N + 33) 4096). lia.
      - unfold FRAME_MAX in HN2.
        rewrite walFramePage_eq by lia. pose proof (Z.div_pos (Z.of_nat N + 33) 4096). lia. }
  intros [rc ck] s3 Hpost. cbn [fst snd] in Hpost.
  destruct (decide (rc = SQLITE_OK)) as [->|Hrc]; [|by apply recover_finish_error].
  specialize (Hpost eq_refl). rewrite Ht in Hpost.
  destruct Hpost as [P1 P2 P3 P4 _ P5 P6 P7 P8 P9 _].
  destruct (wal_ok_salt _ P2) as [Hs3 Hl3].
  eapply wp_mono; [|apply recover_finish_ok; [done|done|done|rewrite P9; apply (rp_marks _ Hpre)]].
  intros rc' s4 Hf _. apply (finished_recovered L s s3 s4 ck); try done.
  by apply (recovered_log L _ _ sz ord salt c).
Qed.
End body.

(** * Properties *)

Section properties.
Context {F OS : Type} `{VFile F} `{WalOS OS} `{ShmEnv}.

(** Recovery between its locks. *)
Lemma walIndexRecover_ok be aPrivate (s : World F OS) :
  os_quiet (OS := OS) -> shm_map_law -> recover_pre s ->
  wp (walIndexRecover be aPrivate) (fun rc s' =>
    rc = SQLITE_OK -> recovered be (content (w_log s)) s s') s.
Proof.
  intros Hq Hlaw Hpre. unfold walIndexRecover, get_wal. wp_pure.
  apply wp_lock_excl; [done|]. intros rc s1 (E1 & E2 & E3 & _).
  destruct (Z.eqb_spec rc SQLITE_OK) as [->|]; cbn [negb]; wp_pure; [|done].
  assert (recover_pre s1) as Hpre1.
  { destruct Hpre. constructor; rewrite ?E1, ?E2, ?E3; done. }
  eapply wp_mono; [|by apply recover_body_ok].
  intros rc' s2 Hrec. wp_pure. apply wp_unlock_excl; [done|]. intros s3 (F1 & F2 & F3 & _).
  wp_pure. intros Hrc. specialize (Hrec Hrc). rewrite E3 in Hrec.
  destruct Hrec. constructor; rewrite ?F1, ?F2, ?F3; congruence || done.
Qed.

(** C3.  Recovery is correct: called with the write lock held, on any log file
    and whatever the wal-index holds, [walIndexRecover] ends without
    undefined behaviour; when it returns [SQLITE_OK] the header and the index
    are those of the log: the frames that are valid one after the other from
    the header on are indexed, [mxFrame], the database size and the running
    checksum are those of the last commit among them (or of the empty log when
    there is none or the file header is not valid), both copies of the header
    are sealed with its checksum, and the checkpoint information says that
    nothing has been copied to the database. *)
Theorem walIndexRecover_correct be aPrivate (s : World F OS) :
  os_quiet (OS := OS) -> shm_map_law -> recover_pre s ->
  wp (walIndexRecover be aPrivate) (fun rc s' =>
    rc = SQLITE_OK -> recovered be (content (w_log s)) s s') s.
Proof. apply walIndexRecover_ok. Qed.
End properties.

(** ** An instance: a log with two transactions and a torn tail *)

Definition sample_header : list Z :=
  let h := sqlite3Put4byte (WAL_MAGIC + 1) ++ sqlite3Put4byte WAL_MAX_VERSION ++
           sqlite3Put4byte 512 ++ sqlite3Put4byte 3 ++ [1; 2; 3; 4; 5; 6; 7; 8] in
  let c := cksum_spec true (0, 0) h in
  h ++ sqlite3Put4byte c.1 ++ sqlite3Put4byte c.2.

(** The frames of the list, encoded one after the other. *)
Fixpoint sample_frames (w : Wal) (fs : list (Z * Z)) : list Z :=
  match fs with
  | [] => []
  | (p, t) :: fs =>
      match walEncodeFrame false w p t (replicate 512 p) with
      | Some (f, w) => f ++ replicate 512 p ++ sample_frames w fs
      | None => []
      end
  end.

Definition sample_log : list Z :=
  sample_header ++
  sample_frames (set_hdr (hset_aFrameCksum
                  (cksum_spec true (0, 0) (take 24 sample_header)) (hdr sample_wal)) sample_wal)
    [(1, 0); (2, 2); (1, 2); (4, 0)] ++ replicate 700 3.

Definition empty_shared : Shared :=
  mkShared hdr_zero hdr_zero (mkCkpt 9 [9; 9; 9; 9; 9] 9) (walIdx ∅ 0).

Definition sample_world : World ByteFile unit :=
  mkWorld sample_wal empty_shared (byte_file sample_log) (byte_file []) aws_init tt.

Definition sample_recover : option (Z * World ByteFile unit) :=
  @walIndexRecover ByteFile unit _ _ sample_env false zero_page sample_world.

Example sample_recover_result :
  (fun r => (r.1, h_mxFrame (hdr (w_wal r.2)), h_nPage (hdr (w_wal r.2)),
             aReadMark (sh_ckpt (w_sh r.2)),
             walFramePgno (sh_idx (w_sh r.2)) 4)) <$> sample_recover =
  Some (SQLITE_OK, 3, 2, [0; 3; READMARK_NOT_USED; READMARK_NOT_USED; READMARK_NOT_USED], Some 4).
Proof. vm_compute. reflexivity. Qed.

Lemma sample_env_law : @shm_map_law sample_env.
Proof. by intros i rc [=]. Qed.

Lemma sample_world_pre : recover_pre sample_world.
Proof.
  constructor; [done|done| |done].
  apply (bool_decide_unpack _). vm_compute. exact I.
Qed.

Lemma walIndexRecover_correct_witness :
  wp (@walIndexRecover ByteFile unit _ _ sample_env false zero_page) (fun rc s' =>
    rc = SQLITE_OK -> recovered false (content (w_log sample_world)) sample_world s')
    sample_world.
Proof.
  exact (@walIndexRecover_correct ByteFile unit _ _ sample_env false zero_page sample_world
           unit_os_quiet sample_env_law sample_world_pre).
Defined.
