(* ===== verification/WalRead.v ===== *)
(** Read transactions: reading the header of the wal-index, taking a snapshot
    under a read lock while other connections write and checkpoint, reading a
    frame, ending the transaction. *)
From S2P Require Import Prelude.
From S2P Require Import Util.
From S2P Require Import Vfs.
From S2P Require Import Aws.
From S2P Require Import WalTypes.
From S2P Require Import WalFormat.
From S2P Require Import WalIndex.
From S2P Require Import WalState.
From S2P Require Import WalRecover.
Open Scope Z_scope.

Definition SQLITE_READONLY_RECOVERY : Z := Z.lor SQLITE_READONLY (Z.shiftl 1 8).

Section read.
Context {F OS : Type} `{VFile F} `{WalOS OS} `{ShmEnv} (bigendian : bool).
Context (aPrivate : Z -> WiPage).
Local Abbreviation M := (@M F OS).

(** * The header *)

(** [walIndexPage(pWal, 0, &page0)]: when the page is mapped by this call, the
    header is what the page holds, zeros on the heap. *)
Definition walIndexPage0 : M (Z * bool) :=
  x ← gets (fun s => sh_idx (w_sh s));
  '(rc, pp) ← with_idx (fun w x =>
     let '(rc, pp, w, x) := walIndexPage w x 0 in Some ((rc, pp), w, x));
  w ← get_wal;
  copies ← gets (fun s => if exclusiveMode w =? WAL_HEAPMEMORY_MODE
                          then (hdr_zero, hdr_zero, mkCkpt 0 (replicate 5 0) 0)
                          else xShmHeader (w_os s));
  (match pp with
   | Some _ => if (nWiData x <=? 0) || bool_decide (apWiData x !! 0 = None)
               then upd_sh (fun s => mkShared copies.1.1 copies.1.2 copies.2 (sh_idx s))
               else mret tt
   | None => mret tt
   end);;
  mret (rc, bool_decide (pp <> None)).

Definition walIndexClose (isDelete : bool) : M unit :=
  w ← get_wal;
  (if (exclusiveMode w =? WAL_HEAPMEMORY_MODE) || bShmUnreliable w
   then upd_sh (fun s => sh_set_idx (walIdx ∅ (nWiData (sh_idx s))) s)
   else mret tt);;
  if negb (exclusiveMode w =? WAL_HEAPMEMORY_MODE) then os_shm_unmap isDelete else mret tt.

(** The part under the write lock, after a header that could not be read. *)
Definition readhdr_locked (pChanged : bool) : M (Z * Z * bool) :=
  '(rc, page0) ← walIndexPage0;
  if rc =? SQLITE_OK then
    '(badHdr, pChanged) ← (if page0 : bool then walIndexTryHdr bigendian pChanged else fail);
    if negb (badHdr =? 0) then
      rc ← walIndexRecover bigendian aPrivate;
      mret (rc, badHdr, true)
    else mret (rc, badHdr, pChanged)
  else mret (rc, 1, pChanged).

Definition readhdr_retry (rc : Z) (pChanged : bool) : M (Z * Z * bool) :=
  w ← get_wal;
  if negb (bShmUnreliable w) && negb (Z.land (readOnly w) WAL_SHM_RDONLY =? 0) then
    rc ← walLockShared WAL_WRITE_LOCK;
    if rc =? SQLITE_OK then
      walUnlockShared WAL_WRITE_LOCK;;
      mret (SQLITE_READONLY_RECOVERY, 1, pChanged)
    else mret (rc, 1, pChanged)
  else
    let bWriteLock := writeLock w in
    rc ← (if bWriteLock : bool then mret SQLITE_OK else walLockExclusive WAL_WRITE_LOCK 1);
    if rc =? SQLITE_OK then
      upd_wal (set_writeLock true);;
      '(rc, badHdr, pChanged) ← readhdr_locked pChanged;
      (if negb bWriteLock then
         upd_wal (set_writeLock false);;
         walUnlockExclusive WAL_WRITE_LOCK 1
       else mret tt);;
      mret (rc, badHdr, pChanged)
    else mret (rc, 1, pChanged).

(** After the attempts: the version, and the end of heap-memory mode. *)
Definition readhdr_finish (rc badHdr : Z) (pChanged : bool) : M (Z * bool) :=
  h ← get_hdr;
  let rc := if (badHdr =? 0) && negb (h_iVersion h =? WALINDEX_MAX_VERSION)
            then SQLITE_CANTOPEN else rc in
  w ← get_wal;
  if bShmUnreliable w then
    rc ← (if negb (rc =? SQLITE_OK) then
            walIndexClose false;;
            upd_wal (set_bShmUnreliable false);;
            mret (if rc =? SQLITE_IOERR_SHORT_READ then WAL_RETRY else rc)
          else mret rc);
    upd_wal (set_exclusiveMode WAL_NORMAL_MODE);;
    mret (rc, pChanged)
  else mret (rc, pChanged).

(** The result code and [*pChanged]. *)
Definition walIndexReadHdr (pChanged : bool) : M (Z * bool) :=
  '(rc, page0) ← walIndexPage0;
  if negb (rc =? SQLITE_OK) && negb (rc =? SQLITE_READONLY_CANTINIT)
  then mret (rc, pChanged) else
  pChanged ← (if negb (rc =? SQLITE_OK) then
                upd_wal (set_bShmUnreliable true);;
                upd_wal (set_exclusiveMode WAL_HEAPMEMORY_MODE);;
                mret true
              else mret pChanged);
  '(badHdr, pChanged) ←
    (if page0 : bool then walIndexTryHdr bigendian pChanged else mret (1, pChanged));
  '(rc, badHdr, pChanged) ←
    (if negb (badHdr =? 0) then readhdr_retry rc pChanged else mret (rc, badHdr, pChanged));
  readhdr_finish rc badHdr pChanged.

(** * Ending a transaction *)

Definition sqlite3WalEndWriteTransaction : M Z :=
  w ← get_wal;
  if writeLock w then
    walUnlockExclusive WAL_WRITE_LOCK 1;;
    upd_wal (set_writeLock false);;
    upd_wal (set_iReCksum 0);;
    upd_wal (set_truncateOnCommit false);;
    mret SQLITE_OK
  else mret SQLITE_OK.

Definition sqlite3WalEndReadTransaction : M unit :=
  _ ← sqlite3WalEndWriteTransaction;
  w ← get_wal;
  if readLock w >=? 0 then
    walUnlockShared (WAL_READ_LOCK (readLock w));;
    upd_wal (set_readLock (-1))
  else mret tt.

(** * Read-only shared memory *)

(** The frames after the last commit the wal-index knows: [n] at most. *)
Fixpoint unreliable_loop (n : nat) (szWal szFrame iOffset rc : Z) : M Z :=
  match n with
  | O => fail
  | S n =>
      if iOffset + szFrame <=? szWal then
        '(rc, aFrame) ← log_read szFrame iOffset;
        if negb (rc =? SQLITE_OK) then mret rc else
        w ← get_wal;
        '(r, w) ← of_option (walDecodeFrame bigendian w (at_off WAL_FRAME_HDRSIZE aFrame)
                               (take 24 aFrame));
        upd_wal (fun _ => w);;
        match r with
        | None => mret rc
        | Some (_, nTruncate) =>
            if negb (nTruncate =? 0) then mret WAL_RETRY
            else unreliable_loop n szWal szFrame (iOffset + szFrame) rc
        end
      else mret rc
  end.

(** Everything before the label [begin_unreliable_shm_out]. *)
Definition unreliable_checks (pChanged : bool) : M (Z * bool) :=
  rc ← walLockShared (WAL_READ_LOCK 0);
  if negb (rc =? SQLITE_OK)
  then mret (if rc =? SQLITE_BUSY then WAL_RETRY else rc, pChanged) else
  upd_wal (set_readLock 0);;
  rc ← os_shm_probe;
  if negb (rc =? SQLITE_READONLY_CANTINIT)
  then mret (if rc =? SQLITE_READONLY then WAL_RETRY else rc, pChanged) else
  h ← gets (fun s => sh_hdr0 (w_sh s));
  upd_wal (set_hdr h);;
  '(rc, szWal) ← log_size;
  if negb (rc =? SQLITE_OK) then mret (rc, pChanged) else
  if szWal <? WAL_HDRSIZE
  then mret (if h_mxFrame h =? 0 then SQLITE_OK else WAL_RETRY, true) else
  '(rc, aBuf) ← log_read WAL_HDRSIZE 0;
  if negb (rc =? SQLITE_OK) then mret (rc, pChanged) else
  if negb (bool_decide (h_aSalt h = slice 16 8 aBuf)) then mret (WAL_RETRY, pChanged) else
  w ← get_wal;
  let szFrame := szPage w + WAL_FRAME_HDRSIZE in
  ok ← sqlite3_malloc szFrame;
  if negb ok then mret (SQLITE_NOMEM, pChanged) else
  rc ← unreliable_loop (S (Z.to_nat szWal)) szWal szFrame
         (walFrameOffset (u32 (h_mxFrame h + 1)) (szPage w)) rc;
  upd_hdr (hset_aFrameCksum (h_aFrameCksum h));;
  mret (rc, pChanged).

Definition walBeginShmUnreliable (pChanged : bool) : M (Z * bool) :=
  '(rc, pChanged) ← unreliable_checks pChanged;
  if negb (rc =? SQLITE_OK) then
    upd_sh (fun s => sh_set_idx (walIdx ∅ (nWiData (sh_idx s))) s);;
    upd_wal (set_bShmUnreliable false);;
    sqlite3WalEndReadTransaction;;
    mret (rc, true)
  else mret (rc, pChanged).

(** * Taking a snapshot *)

(** The largest mark that does not exceed [mxFrame], in slots [i..], [n] of
    them: the mark and its slot. *)
Fixpoint mark_scan (n : nat) (i mxFrame : Z) (best : Z * Z) : M (Z * Z) :=
  match n with
  | O => mret best
  | S n =>
      thisMark ← readMark i;
      mark_scan n (i + 1) mxFrame
        (if (best.1 <=? thisMark) && (thisMark <=? mxFrame) then (thisMark, i) else best)
  end.

(** Setting the first slot that can be locked: the last result code, the mark
    and the slot; and whether an error ends the function. *)
Fixpoint mark_claim (n : nat) (i mxFrame rc : Z) (best : Z * Z) : M (Z * (Z * Z) * bool) :=
  match n with
  | O => mret (rc, best, false)
  | S n =>
      rc ← walLockExclusive (WAL_READ_LOCK i) 1;
      if rc =? SQLITE_OK then
        setReadMark i mxFrame;;
        walUnlockExclusive (WAL_READ_LOCK i) 1;;
        mret (rc, (mxFrame, i), false)
      else if negb (rc =? SQLITE_BUSY) then mret (rc, best, true)
      else mark_claim n (i + 1) mxFrame rc best
  end.

(** The database file alone: under lock 0. [None]: the log is needed. *)
Definition begin_no_wal (useWal : bool) : M (option Z * Z) :=
  c ← get_ckpt; h ← get_hdr;
  if negb useWal && (nBackfill c =? h_mxFrame h) then
    rc ← walLockShared (WAL_READ_LOCK 0);
    walShmBarrier;;
    if rc =? SQLITE_OK then
      live ← gets (fun s => sh_hdr0 (w_sh s)); h ← get_hdr;
      if negb (bool_decide (live = h)) then
        walUnlockShared (WAL_READ_LOCK 0);;
        mret (Some WAL_RETRY, rc)
      else
        upd_wal (set_readLock 0);;
        mret (Some SQLITE_OK, rc)
    else if negb (rc =? SQLITE_BUSY) then mret (Some rc, rc)
    else mret (None, rc)
  else mret (None, SQLITE_OK).

(** The part that uses the log. *)
Definition begin_wal (rc : Z) : M Z :=
  h ← get_hdr; w ← get_wal;
  let mxFrame := h_mxFrame h in
  best ← mark_scan 4 1 mxFrame (0, 0);
  '(rc, best, stop) ←
    (if (Z.land (readOnly w) WAL_SHM_RDONLY =? 0) && ((best.1 <? mxFrame) || (best.2 =? 0))
     then mark_claim 4 1 mxFrame rc best
     else mret (rc, best, false));
  if stop : bool then mret rc else
  let '(mxReadMark, mxI) := best in
  if mxI =? 0
  then mret (if rc =? SQLITE_BUSY then WAL_RETRY else SQLITE_READONLY_CANTINIT) else
  rc ← walLockShared (WAL_READ_LOCK mxI);
  if negb (rc =? SQLITE_OK) then mret (if rc =? SQLITE_BUSY then WAL_RETRY else rc) else
  c ← get_ckpt;
  upd_wal (set_minFrame (u32 (nBackfill c + 1)));;
  walShmBarrier;;
  mark ← readMark mxI;
  live ← gets (fun s => sh_hdr0 (w_sh s)); h ← get_hdr;
  if negb (mark =? mxReadMark) || negb (bool_decide (live = h)) then
    walUnlockShared (WAL_READ_LOCK mxI);;
    mret WAL_RETRY
  else
    upd_wal (set_readLock mxI);;
    mret rc.

(** A [BUSY] from reading the header: is somebody recovering? *)
Definition begin_busy (rc : Z) : M Z :=
  if rc =? SQLITE_BUSY then
    page0 ← gets (fun s => apWiData (sh_idx (w_sh s)) !! 0);
    match page0 with
    | None => mret WAL_RETRY
    | Some _ =>
        rc ← walLockShared WAL_RECOVER_LOCK;
        if rc =? SQLITE_OK then
          walUnlockShared WAL_RECOVER_LOCK;;
          mret WAL_RETRY
        else mret (if rc =? SQLITE_BUSY then SQLITE_BUSY_RECOVERY else rc)
    end
  else mret rc.

Definition begin_pause (cnt : Z) : M unit :=
  if cnt >? 5
  then sqlite3OsSleep (if cnt >=? 10 then (cnt - 9) * (cnt - 9) * 39 else 1)
  else mret tt.

Definition walTryBeginRead (pChanged useWal : bool) (cnt : Z) : M (Z * bool) :=
  if cnt >? 100 then mret (SQLITE_PROTOCOL, pChanged) else
  begin_pause cnt;;
  '(rc, pChanged, unreliable) ←
    (if negb useWal then
       w ← get_wal;
       '(rc, pChanged) ← (if negb (bShmUnreliable w) then walIndexReadHdr pChanged
                          else mret (SQLITE_OK, pChanged));
       rc ← begin_busy rc;
       w ← get_wal;
       mret (rc, pChanged, bShmUnreliable w)
     else mret (SQLITE_OK, pChanged, false));
  if negb (rc =? SQLITE_OK) then mret (rc, pChanged) else
  if unreliable : bool then walBeginShmUnreliable pChanged else
  '(r, rc) ← begin_no_wal useWal;
  match r with
  | Some rc => mret (rc, pChanged)
  | None => rc ← begin_wal rc; mret (rc, pChanged)
  end.

(** [do rc = walTryBeginRead(pWal, pChanged, useWal, ++cnt); while rc==WAL_RETRY] *)
Fixpoint begin_read_loop (fuel : nat) (pChanged useWal : bool) (cnt : Z) : M (Z * bool) :=
  match fuel with
  | O => fail
  | S fuel =>
      '(rc, pChanged) ← walTryBeginRead pChanged useWal (cnt + 1);
      if rc =? WAL_RETRY then begin_read_loop fuel pChanged useWal (cnt + 1)
      else mret (rc, pChanged)
  end.

Definition sqlite3WalBeginReadTransaction (pChanged : bool) : M (Z * bool) :=
  begin_read_loop 101 pChanged false 0.

(** * Reading *)

Definition sqlite3WalReadFrame (iRead nOut : Z) : M (Z * list Z) :=
  h ← get_hdr;
  let sz := h_szPage h in
  let sz := Z.land sz 0xfe00 + Z.shiftl (Z.land sz 0x0001) 16 in
  log_read (if nOut >? sz then sz else nOut) (walFrameOffset iRead sz + WAL_FRAME_HDRSIZE).

(** The part of [readDbPage] of pager.c that chooses between the log and the
    database file. *)
Definition read_page_content (pgno pageSize : Z) : M (Z * list Z) :=
  '(rc, iFrame) ← with_idx (fun w x =>
     '(rc, iFrame, w, x) ← sqlite3WalFindFrame w x pgno; Some ((rc, iFrame), w, x));
  if negb (rc =? SQLITE_OK) then mret (rc, []) else
  if negb (iFrame =? 0) then sqlite3WalReadFrame iFrame pageSize
  else
    '(rc, b) ← db_read pageSize ((pgno - 1) * pageSize);
    mret (if rc =? SQLITE_IOERR_SHORT_READ then SQLITE_OK else rc, b).

Definition sqlite3WalDbsize : M Z :=
  w ← get_wal;
  mret (if readLock w >=? 0 then h_nPage (hdr w) else 0).
End read.

(** * Safety of a snapshot

    The other connections may do anything whenever this one calls the system;
    all that is assumed is that a lock that was granted stays held until it
    is released, and that shared memory found to be read-only stays so. *)

Section safety.
Context {F OS : Type} `{VFile F} `{WalOS OS} `{ShmEnv} (bigendian : bool).
Context (aPrivate : Z -> WiPage).
Context (holds : OS -> Z -> Prop).

(** What the locking of the VFS promises about [holds]. *)
Record lock_law : Prop := {
  ll_shared o sh i sh' o' :
    xShmLock o sh i 1 (Z.lor SQLITE_SHM_LOCK SQLITE_SHM_SHARED) = (SQLITE_OK, sh', o') ->
    holds o' i;
  ll_barrier o sh sh' o' i : xShmBarrier o sh = (sh', o') -> holds o i -> holds o' i;
  ll_malloc o n b o' i : xMalloc o n = (b, o') -> holds o i -> holds o' i;
  ll_probe o rc o' i :
    xShmProbe o = (rc, o') -> rc <> SQLITE_OK /\ (holds o i -> holds o' i);
}.
Context (Hll : lock_law).

(** The lock is held; in exclusive mode the lock on the database stands for
    it. *)
Definition locked (s : World F OS) (i : Z) : Prop :=
  exclusiveMode (w_wal s) = 0 -> holds (w_os s) i.

(** A snapshot: the lock of the slot is held, the header of the wal-index is
    still the one that was read, and the mark under the lock does not exceed
    it. *)
Definition snapshot (s : World F OS) : Prop :=
  let w := w_wal s in
  0 <= readLock w < WAL_NREADER /\ locked s (WAL_READ_LOCK (readLock w)) /\
  sh_hdr0 (w_sh s) = hdr w /\
  (readLock w <> 0 -> exists m, (aReadMark (sh_ckpt (w_sh s))).[readLock w] = Some m /\
                                m <= h_mxFrame (hdr w)).

Lemma locked_wal (s s' : World F OS) i :
  w_os s' = w_os s -> exclusiveMode (w_wal s') = exclusiveMode (w_wal s) ->
  locked s i -> locked s' i.
Proof. unfold locked. by intros -> ->. Qed.

Lemma lockShared_inv i rc (s s' : World F OS) :
  walLockShared i s = Some (rc, s') ->
  w_wal s' = w_wal s /\ (rc = SQLITE_OK -> locked s' i).
Proof using Hll.
  unfold walLockShared, locked. intros E. run_inv.
  destruct (negb _) eqn:Hx; run_inv.
  - split; [done|]. intros _ Hm. by rewrite Hm in Hx.
  - unfold os_lock in E. destruct (xShmLock _ _ _ _ _) as [[rc' sh'] o'] eqn:El.
    injection E as <- <-. cbn. split; [done|]. intros -> _. by eapply (ll_shared Hll).
Qed.

Lemma barrier_inv i y (s s' : World F OS) :
  walShmBarrier s = Some (y, s') -> w_wal s' = w_wal s /\ (locked s i -> locked s' i).
Proof using Hll.
  unfold walShmBarrier, locked. intros E. run_inv. destruct (negb _); run_inv; [|done].
  unfold os_barrier in E. destruct (xShmBarrier _ _) as [sh' o'] eqn:El.
  injection E as <- <-. cbn. split; [done|]. intros Hl Hx. by eapply (ll_barrier Hll); [|apply Hl].
Qed.

Lemma probe_inv i rc (s s' : World F OS) :
  os_shm_probe s = Some (rc, s') ->
  w_wal s' = w_wal s /\ w_sh s' = w_sh s /\ rc <> SQLITE_OK /\
  (locked s i -> locked s' i).
Proof using Hll.
  unfold os_shm_probe, locked. destruct (xShmProbe _) as [rc' o'] eqn:El.
  intros [= <- <-]. cbn. destruct (ll_probe Hll _ _ _ i El) as [Hne Hk].
  split_and!; try done. intros Hl Hx. by apply Hk, Hl.
Qed.

Lemma malloc_inv i n b (s s' : World F OS) :
  sqlite3_malloc n s = Some (b, s') ->
  w_wal s' = w_wal s /\ w_sh s' = w_sh s /\ (locked s i -> locked s' i).
Proof using Hll.
  unfold sqlite3_malloc, locked. destruct (xMalloc _ _) as [b' o'] eqn:El.
  intros [= <- <-]. cbn. split_and!; try done. intros Hl Hx. by eapply (ll_malloc Hll); [|apply Hl].
Qed.

Lemma begin_no_wal_safe useWal r rc s s' :
  begin_no_wal useWal s = Some ((r, rc), s') -> r = Some SQLITE_OK -> snapshot s'.
Proof using Hll.
  unfold begin_no_wal. intros E Hr. run_inv.
  destruct (negb useWal && _); run_inv; [|by simplify_eq].
  match goal with E : walLockShared _ _ = _ |- _ => apply lockShared_inv in E as [Ew1 Hl1] end.
  match goal with E : walShmBarrier _ = _ |- _ =>
    apply (barrier_inv (WAL_READ_LOCK 0)) in E as [Ew2 Hl2] end.
  case_match eqn:Hok; run_inv.
  - case_match eqn:Hh; run_inv; [by simplify_eq|].
    apply negb_false_iff, bool_decide_eq_true in Hh. apply Z.eqb_eq in Hok.
    unfold snapshot. cbn. split_and!; [done|done| |done|done].
    apply Hl2 in Hl1; [|done]. by eapply locked_wal; [..|exact Hl1].
  - case_match; run_inv; by simplify_eq.
Qed.

(** The scan finds a mark that does not exceed the header. *)
Lemma mark_scan_inv n i mxFrame best b (s s' : World F OS) :
  mark_scan n i mxFrame best s = Some (b, s') ->
  0 <= i -> 0 <= best.2 < i -> (best.2 <> 0 -> best.1 <= mxFrame) ->
  s' = s /\ 0 <= b.2 < i + Z.of_nat n /\ (b.2 <> 0 -> b.1 <= mxFrame).
Proof.
  revert i best. induction n as [|n IH]; intros i best E Hi Hb Hm; cbn [mark_scan] in E.
  - run_inv. split_and!; try done; lia.
  - run_inv. unfold readMark in *. run_inv.
    apply IH in E; [|lia| |].
    + destruct E as (-> & ? & ?). split_and!; try done; lia.
    + destruct (_ && _); cbn; lia.
    + destruct (_ && _) eqn:Hc; cbn; [|done]. intros _.
      apply andb_true_iff in Hc as [_ Hc]. by apply Z.leb_le.
Qed.

Lemma lockExclusive_wal a n rc (s s' : World F OS) :
  walLockExclusive a n s = Some (rc, s') -> w_wal s' = w_wal s.
Proof.
  unfold walLockExclusive. intros E. run_inv. destruct (negb _); run_inv; [done|].
  unfold os_lock in E. destruct (xShmLock _ _ _ _ _) as [[? ?] ?]. by injection E as _ <-.
Qed.

Lemma unlockExclusive_wal a n y (s s' : World F OS) :
  walUnlockExclusive a n s = Some (y, s') -> w_wal s' = w_wal s.
Proof.
  unfold walUnlockExclusive. intros E. run_inv. destruct (negb _); run_inv; [done|].
  match goal with E : os_lock _ _ _ _ = _ |- _ => unfold os_lock in E end.
  destruct (xShmLock _ _ _ _ _) as [[? ?] ?]. by simplify_eq.
Qed.

Lemma setReadMark_wal i x y (s s' : World F OS) :
  setReadMark i x s = Some (y, s') -> w_wal s' = w_wal s.
Proof. unfold setReadMark. intros E. run_inv. done. Qed.

Lemma mark_claim_inv n i mxFrame rc best rc' b stop (s s' : World F OS) :
  mark_claim n i mxFrame rc best s = Some (rc', b, stop, s') ->
  0 < i -> 0 <= best.2 < WAL_NREADER -> i + Z.of_nat n <= WAL_NREADER ->
  (best.2 <> 0 -> best.1 <= mxFrame) ->
  w_wal s' = w_wal s /\ (stop = true -> rc' <> SQLITE_OK) /\
  0 <= b.2 < WAL_NREADER /\ (b.2 <> 0 -> b.1 <= mxFrame).
Proof.
  revert i rc s. induction n as [|n IH]; intros i rc s E Hi Hb Hn Hm; cbn [mark_claim] in E.
  - run_inv. simplify_eq. split_and!; done || lia.
  - run_inv. match goal with E : walLockExclusive _ _ _ = _ |- _ =>
      apply lockExclusive_wal in E as Ew end.
    destruct (Z.eqb_spec x SQLITE_OK) as [->|Hne]; run_inv.
    + match goal with E : setReadMark _ _ _ = _ |- _ => apply setReadMark_wal in E as Ew2 end.
      match goal with E : walUnlockExclusive _ _ _ = _ |- _ =>
        apply unlockExclusive_wal in E as Ew3 end.
      simplify_eq. split_and!; cbn; try done; try lia. congruence.
    + destruct (negb _); run_inv; [simplify_eq; split_and!; done || lia|].
      apply IH in E as (E1 & E2); [|lia|lia|lia|done]. split; [congruence|done].
Qed.

Lemma begin_wal_safe rc0 rc s s' :
  begin_wal rc0 s = Some (rc, s') -> rc = SQLITE_OK -> snapshot s'.
Proof using Hll.
  unfold begin_wal. intros E Hr. run_inv.
  match goal with E : mark_scan _ _ _ _ _ = _ |- _ =>
    apply mark_scan_inv in E as (-> & Hb & Hm); [|lia|cbn; lia|done] end.
  cbn in Hb.
  match goal with E : (if ?c then mark_claim _ _ _ _ _ else _) _ = Some (?x, ?s1) |- _ =>
    assert (w_wal s1 = w_wal s /\ (x.2 = true -> x.1.1 <> SQLITE_OK) /\
            0 <= x.1.2.2 < WAL_NREADER /\ (x.1.2.2 <> 0 -> x.1.2.1 <= h_mxFrame (hdr (w_wal s))))
      as (Ew & Hstop & Hb' & Hm')
  end.
  { match goal with E : (if ?c then _ else _) _ = Some (?x, _) |- _ =>
      destruct c; [destruct x as [[rc1 b] stop]; apply mark_claim_inv in E;
        change WAL_NREADER with 5 in *; cbn; try done; try lia|]
    end.
    run_inv. change WAL_NREADER with 5. cbn. split_and!; try done; lia. }
  destruct x5 as [[rc1 [mxReadMark mxI]] stop]. cbn [fst snd] in *.
  destruct stop; run_inv; [by specialize (Hstop eq_refl)|].
  destruct (Z.eqb_spec mxI 0) as [|HmxI]; run_inv; [destruct (rc1 =? SQLITE_BUSY); discriminate|].
  match goal with E : walLockShared _ _ = _ |- _ => apply lockShared_inv in E as [Ew1 Hl1] end.
  case_match eqn:Hok; run_inv.
  { apply negb_true_iff, Z.eqb_neq in Hok. destruct (Z.eqb_spec x SQLITE_BUSY); done. }
  apply negb_false_iff, Z.eqb_eq in Hok.
  match goal with E : walShmBarrier _ = _ |- _ =>
    apply (barrier_inv (WAL_READ_LOCK mxI)) in E as [Ew2 Hl2] end.
  unfold readMark in *. run_inv.
  case_match eqn:Hc; run_inv; [done|].
  apply orb_false_iff in Hc as [Hc1 Hc2].
  apply negb_false_iff, Z.eqb_eq in Hc1. apply negb_false_iff, bool_decide_eq_true in Hc2.
  cbn in Ew2. unfold snapshot. cbn. rewrite Ew2 in Hc2 |- *. cbn in Hc2 |- *.
  split_and!; try done; try lia.
  - apply Hl1 in Hok as Hl. apply (locked_wal x8); [done|cbn; by rewrite Ew2|].
    by apply Hl2, (locked_wal x0).
  - intros _. eexists. split; [done|]. rewrite Ew1, Ew. subst. by apply Hm'.
Qed.

(** Looking at later frames changes the running checksum only. *)
Definition cksum_moved (s s' : World F OS) : Prop :=
  w_sh s' = w_sh s /\ w_os s' = w_os s /\
  exists c, w_wal s' = set_hdr (hset_aFrameCksum c (hdr (w_wal s))) (w_wal s).

Lemma cksum_moved_refl s : cksum_moved s s.
Proof.
  split_and!; try done. exists (h_aFrameCksum (hdr (w_wal s))).
  by destruct s as [[????????????[]] ?????].
Qed.

Lemma decode_moved w d f r w' :
  walDecodeFrame bigendian w d f = Some (r, w') ->
  exists c, w' = set_hdr (hset_aFrameCksum c (hdr w)) w.
Proof.
  rewrite walDecodeFrame_handle. intros E.
  destruct (walDecodeFrame _ _ _ _) as [[r' w'']|]; [|done]. injection E as <- <-. eauto.
Qed.

Lemma unreliable_loop_inv n szWal szFrame iOffset rc0 rc s s' :
  unreliable_loop bigendian n szWal szFrame iOffset rc0 s = Some (rc, s') -> cksum_moved s s'.
Proof.
  revert iOffset rc0 s. induction n as [|n IH]; intros iOffset rc0 s E;
    cbn [unreliable_loop] in E; [done|].
  destruct (_ <=? _); run_inv; [|apply cksum_moved_refl].
  unfold log_read in *. run_inv.
  destruct (xRead (w_log s) szFrame iOffset) as [rc1 aFrame].
  destruct (negb _); run_inv; [apply cksum_moved_refl|].
  match goal with p : option _ * Wal |- _ => destruct p as [r w] end. run_inv.
  match goal with E : walDecodeFrame _ _ _ _ = _ |- _ => apply decode_moved in E as [c ->] end.
  assert (Hm : cksum_moved s (mkWorld (set_hdr (hset_aFrameCksum c (hdr (w_wal s))) (w_wal s))
                 (w_sh s) (w_log s) (w_db s) (w_aws s) (w_os s))).
  { split_and!; try done. by exists c. }
  destruct r as [[p t]|]; run_inv; [|done]. destruct (negb _); run_inv; [done|].
  apply IH in E as (E1 & E2 & c' & E3). split; [done|]. split; [done|]. exists c'.
  by rewrite E3.
Qed.

Lemma unreliable_checks_safe pc rc ch s s' :
  unreliable_checks bigendian pc s = Some ((rc, ch), s') -> rc = SQLITE_OK -> snapshot s'.
Proof using Hll.
  unfold unreliable_checks, log_size, log_read. intros E ->. run_inv.
  match goal with E : walLockShared _ _ = _ |- _ => apply lockShared_inv in E as [Ew1 Hl1] end.
  case_match eqn:Hok; run_inv.
  { apply negb_true_iff, Z.eqb_neq in Hok. by case_match; simplify_eq. }
  apply negb_false_iff, Z.eqb_eq in Hok.
  match goal with E : os_shm_probe _ = _ |- _ =>
    apply (probe_inv (WAL_READ_LOCK 0)) in E as (Ew2 & Es2 & Hne & Hl2) end.
  cbn in Ew2, Es2. case_match eqn:Hok2; run_inv; [by case_match; simplify_eq|].
  destruct (xFileSize _) as [rcs szWal]. case_match eqn:Hok3; run_inv; [by simplify_eq|].
  assert (Hl : forall s', w_wal s' = set_hdr (sh_hdr0 (w_sh x4)) (w_wal x4) ->
            w_sh s' = w_sh x4 -> (locked x4 (WAL_READ_LOCK 0) -> locked s' (WAL_READ_LOCK 0)) ->
            snapshot s').
  { intros s1 E1 E2 Hk. unfold snapshot. rewrite E1, E2, Ew2. cbn. split_and!; try done.
    apply Hk, Hl2. by apply (locked_wal x0), Hl1. }
  case_match; run_inv.
  { apply Hl; [done|done|]. by apply locked_wal. }
  destruct (xRead _ _ _) as [rc1 aBuf]. case_match; run_inv; [by simplify_eq|].
  case_match; run_inv; [done|].
  match goal with E : sqlite3_malloc _ _ = _ |- _ =>
    apply (malloc_inv (WAL_READ_LOCK 0)) in E as (Ew3 & Es3 & Hl3) end.
  case_match; run_inv; [done|].
  match goal with E : unreliable_loop _ _ _ _ _ _ _ = _ |- _ =>
    apply unreliable_loop_inv in E as (Es4 & Eo4 & c & Ew4) end.
  unfold upd_hdr in *. run_inv. apply Hl; cbn.
  - rewrite Ew4, Ew3. cbn. by destruct (w_wal x4), (sh_hdr0 (w_sh x4)).
  - by rewrite Es4, Es3.
  - intros Hk. apply (locked_wal x8); [done|cbn; by rewrite Ew4|].
    by apply Hl3, (locked_wal x4).
Qed.

Lemma walTryBeginRead_safe pc useWal cnt rc ch s s' :
  walTryBeginRead bigendian aPrivate pc useWal cnt s = Some ((rc, ch), s') ->
  rc = SQLITE_OK -> snapshot s'.
Proof using Hll.
  unfold walTryBeginRead. intros E Hrc. case_match; run_inv; [by simplify_eq|].
  match goal with E : match ?x with (_, _) => _ end _ = Some _ |- _ =>
    destruct x as [[rc1 pc1] unrel] end.
  case_match eqn:Hok; run_inv; [simplify_eq; by rewrite Z.eqb_refl in Hok|].
  destruct unrel; run_inv.
  - unfold walBeginShmUnreliable in *. run_inv.
    match goal with E : unreliable_checks _ _ _ = Some (?x, _) |- _ => destruct x as [rc2 ch2] end.
    case_match eqn:Hok2; run_inv; [simplify_eq; by rewrite Z.eqb_refl in Hok2|].
    simplify_eq. by eapply unreliable_checks_safe.
  - match goal with E : begin_no_wal _ _ = Some (?x, _) |- _ => destruct x as [r rc2] end.
    destruct r; run_inv.
    + simplify_eq. by eapply begin_no_wal_safe.
    + simplify_eq. by eapply begin_wal_safe.
Qed.

Lemma begin_read_loop_safe n pc useWal cnt rc ch s s' :
  begin_read_loop bigendian aPrivate n pc useWal cnt s = Some ((rc, ch), s') ->
  rc <> WAL_RETRY /\ (rc = SQLITE_OK -> snapshot s').
Proof using Hll.
  revert pc cnt s. induction n as [|n IH]; intros pc cnt s E; cbn [begin_read_loop] in E; [done|].
  run_inv. match goal with E : walTryBeginRead _ _ _ _ _ _ = Some (?x, _) |- _ =>
    destruct x as [rc1 ch1] end.
  case_match eqn:Hr; run_inv; [by eapply IH|]. simplify_eq. split.
  - intros ->. by rewrite Z.eqb_refl in Hr.
  - intros ->. by eapply walTryBeginRead_safe.
Qed.
End safety.

(** * The retries end *)

Section retries.
Context {F OS : Type} `{VFile F} `{WalOS OS} `{ShmEnv} (bigendian : bool).
Context (aPrivate : Z -> WiPage).
Local Abbreviation loop := (begin_read_loop (F := F) (OS := OS) bigendian aPrivate).

Lemma begin_read_loop_S n pc useWal cnt (s : World F OS) :
  loop (S n) pc useWal cnt s =
  ('(rc, ch) ← walTryBeginRead bigendian aPrivate pc useWal (cnt + 1);
   if rc =? WAL_RETRY then loop n ch useWal (cnt + 1) else mret (rc, ch)) s.
Proof. reflexivity. Qed.

(** More than 101 - [cnt] attempts make no difference. *)
Lemma begin_read_loop_fuel n pc useWal cnt (s : World F OS) :
  0 <= cnt <= 100 -> (Z.to_nat (101 - cnt) <= n)%nat ->
  loop n pc useWal cnt s = loop (Z.to_nat (101 - cnt)) pc useWal cnt s.
Proof.
  revert pc cnt s. induction n as [|n IH]; intros pc cnt s Hc Hn; [lia|].
  replace (Z.to_nat (101 - cnt)) with (S (Z.to_nat (100 - cnt))) by lia.
  rewrite !begin_read_loop_S. unfold mbind, M_bind.
  destruct (walTryBeginRead bigendian aPrivate pc useWal (cnt + 1) s) as [[[rc ch] s']|] eqn:E; [|done].
  destruct (Z.eqb_spec rc WAL_RETRY) as [->|]; [|done].
  destruct (decide (cnt = 100)) as [->|].
  - exfalso. unfold walTryBeginRead in E. by injection E.
  - rewrite IH by lia. f_equal. lia.
Qed.
End retries.

(** * A read that meets no other connection *)

Section ready.
Context {F OS : Type} `{VFile F} `{WalOS OS} `{ShmEnv} (be : bool).
Context (aPrivate : Z -> WiPage) (Hq : os_quiet (OS := OS)).
Local Abbreviation W := (World F OS).

(** Shared memory with a header that was written completely. *)
Record index_ready (s : W) (h : WalIndexHdr) : Prop := {
  ir_page0 : exists pg, mapped (sh_idx (w_sh s)) 0 pg;
  ir_hdr0 : sh_hdr0 (w_sh s) = h;
  ir_hdr1 : sh_hdr1 (w_sh s) = h;
  ir_sealed : hdr_sealed be h;
  ir_marks : zlen (aReadMark (sh_ckpt (w_sh s))) = WAL_NREADER;
  ir_reliable : bShmUnreliable (w_wal s) = false;
  ir_writable : Z.land (readOnly (w_wal s)) WAL_SHM_RDONLY = 0;
}.

Lemma index_ready_same s s' h : same_but_os s s' -> index_ready s h -> index_ready s' h.
Proof. intros (Ew & Es & _) []. constructor; rewrite ?Ew, ?Es; done. Qed.

(** Only the handle changed. *)
Definition wal_only (s s' : W) : Prop :=
  w_sh s' = w_sh s /\ w_log s' = w_log s /\ w_db s' = w_db s /\ w_aws s' = w_aws s.

(** The handle after it has read the header [h]. *)
Definition with_hdr (h : WalIndexHdr) (w : Wal) : Wal :=
  if bool_decide (hdr w = h) then w
  else set_szPage (Z.land (h_szPage h) 0xfe00 + Z.shiftl (Z.land (h_szPage h) 0x0001) 16)
         (set_hdr h w).

Lemma wp_walIndexTryHdr ch h (Q : Z * bool -> W -> Prop) s :
  index_ready s h ->
  (forall s', wal_only s s' -> w_wal s' = with_hdr h (w_wal s) ->
     Q (0, ch || negb (bool_decide (hdr (w_wal s) = h))) s') ->
  wp (walIndexTryHdr be ch) Q s.
Proof using Hq.
  intros [_ E0 E1 [Hi [Hv Hc]] _ _ _] HQ. unfold walIndexTryHdr, get_hdr. wp_pure.
  apply (wp_barrier Hq). intros s1 (Ew & Es & El & Ed & Ea). wp_pure.
  rewrite E0, Es, E1. rewrite (bool_decide_true (h = h)) by done. cbn [negb].
  rewrite (proj2 (Z.eqb_neq (h_isInit h) 0)) by lia. wp_pure.
  rewrite (wp_of_option _ _ _ _ Hc).
  rewrite !Z.eqb_refl. cbn [negb orb]. wp_pure. rewrite Ew. unfold with_hdr in HQ.
  destruct (decide (hdr (w_wal s) = h)) as [E|E].
  - rewrite bool_decide_true in HQ |- * by done. cbn [negb]. wp_pure.
    rewrite orb_false_r in HQ. by apply HQ; [split_and!; congruence|].
  - rewrite bool_decide_false in HQ |- * by done. cbn [negb]. wp_pure.
    rewrite orb_true_r in HQ. by apply HQ; [split_and!; cbn; congruence|cbn; by rewrite Ew].
Qed.

Lemma wp_walIndexReadHdr ch h (Q : Z * bool -> W -> Prop) s :
  index_ready s h ->
  (forall s', wal_only s s' -> w_wal s' = with_hdr h (w_wal s) ->
     Q (SQLITE_OK, ch || negb (bool_decide (hdr (w_wal s) = h))) s') ->
  wp (walIndexReadHdr be aPrivate ch) Q s.
Proof using Hq.
  intros Hr HQ. unfold walIndexReadHdr, walIndexPage0, get_wal. wp_pure.
  destruct (ir_page0 _ _ Hr) as (pg & Hm).
  eapply run_wp.
  { unfold with_idx. rewrite (walIndexPage_mapped _ _ _ pg Hm). reflexivity. }
  wp_pure. destruct Hm as [Hm Hn].
  rewrite (proj2 (Z.leb_gt _ _)) by lia. rewrite Hm. rewrite (bool_decide_false (Some pg = None)) by done.
  cbn [orb]. wp_pure. cbn [negb Z.eqb SQLITE_OK andb]. wp_pure.
  rewrite bool_decide_true by done.
  apply (wp_walIndexTryHdr _ h).
  { destruct Hr. constructor; try done. }
  intros s' (E1 & E2 & E3 & E4) Ew. wp_pure. cbn [negb Z.eqb].
  wp_pure. unfold readhdr_finish, get_hdr, get_wal. wp_pure.
  cbn in E1, Ew, E2, E3, E4.
  assert (hdr (w_wal s') = h) as ->.
  { rewrite Ew. unfold with_hdr. by case_bool_decide. }
  rewrite (proj1 (proj2 (ir_sealed _ _ Hr))), Z.eqb_refl. cbn [negb andb Z.eqb].
  wp_pure.
  assert (bShmUnreliable (w_wal s') = false) as ->.
  { rewrite Ew. unfold with_hdr. case_bool_decide; apply (ir_reliable _ _ Hr). }
  wp_pure. apply HQ; [split_and!|]; try done. rewrite E1. by destruct (w_sh s).
Qed.
End ready.

Section alone.
Context {F OS : Type} `{VFile F} `{WalOS OS} `{ShmEnv} (be : bool).
Context (aPrivate : Z -> WiPage) (Hg : os_grants (OS := OS)).
Local Abbreviation W := (World F OS).
Local Abbreviation marks s := (aReadMark (sh_ckpt (w_sh s))).

Lemma wp_mark_scan n i mx best (Q : Z * Z -> W -> Prop) s :
  zlen (marks s) = 5 -> 0 < i -> i + Z.of_nat n <= 5 ->
  0 <= best.2 < i -> (best.2 <> 0 -> (marks s).[best.2] = Some best.1 /\ best.1 <= mx) ->
  (forall b, 0 <= b.2 < 5 -> (b.2 <> 0 -> (marks s).[b.2] = Some b.1 /\ b.1 <= mx) -> Q b s) ->
  wp (mark_scan n i mx best) Q s.
Proof.
  revert i best. induction n as [|n IH]; intros i best Hl Hi Hn Hb Hm HQ; cbn [mark_scan].
  - wp_pure. apply HQ; [lia|done].
  - unfold readMark, get_ckpt. wp_pure.
    destruct (zget_some (marks s) i) as [m Em]; [lia|].
    rewrite (wp_of_option _ _ _ _ Em). apply IH; try done; try lia.
    + destruct (_ && _); cbn; lia.
    + destruct (_ && _) eqn:Hc; cbn; [|done]. intros _. split; [done|].
      apply andb_true_iff in Hc as [_ Hc]. by apply Z.leb_le.
Qed.

Lemma wp_setReadMark i x (Q : unit -> W -> Prop) s :
  0 <= i < zlen (marks s) ->
  Q tt (mkWorld (w_wal s)
          (sh_set_ckpt (ck_set_marks (zupd (marks s) i x) (sh_ckpt (w_sh s))) (w_sh s))
          (w_log s) (w_db s) (w_aws s) (w_os s)) ->
  wp (setReadMark i x) Q s.
Proof.
  intros Hi HQ. unfold setReadMark, get_ckpt. wp_pure.
  rewrite (wp_of_option _ _ _ _ (zset_zupd _ i x Hi)). by wp_pure.
Qed.

(** What a snapshot through the log leaves: a read mark may have been set. *)
Definition wal_and_marks (s s' : W) : Prop :=
  w_log s' = w_log s /\ w_db s' = w_db s /\ w_aws s' = w_aws s /\
  exists m, w_sh s' = sh_set_ckpt (ck_set_marks m (sh_ckpt (w_sh s))) (w_sh s) /\
            zlen m = 5.

Lemma wp_mark_claim mx rc best (Q : Z * (Z * Z) * bool -> W -> Prop) s :
  zlen (marks s) = 5 ->
  (forall s', wal_and_marks s s' -> w_wal s' = w_wal s -> (marks s').[1] = Some mx ->
     Q (SQLITE_OK, (mx, 1), false) s') ->
  wp (mark_claim 4 1 mx rc best) Q s.
Proof using Hg.
  intros Hl HQ. cbn [mark_claim]. wp_pure. apply (wp_grant_excl Hg).
  intros s1 (Ew & Es & El & Ed & Ea). cbn [Z.eqb SQLITE_OK]. wp_pure.
  apply wp_setReadMark; [rewrite Es; lia|]. wp_pure.
  apply (wp_unlock_excl (proj1 Hg)). intros s2 (Ew2 & Es2 & El2 & Ed2 & Ea2). wp_pure.
  cbn [w_wal w_sh w_log w_db w_aws w_os] in *. apply HQ.
  - split_and!; try congruence. exists (zupd (marks s) 1 mx). rewrite Es2, Es. split; [done|].
    by rewrite zlen_zupd.
  - congruence.
  - rewrite Es2, Es. world_simpl. apply zget_zupd_eq. lia.
Qed.

(** Both ways to the mark. *)
Lemma wp_choose_mark ro mx rc (Q : Z * (Z * Z) * bool -> W -> Prop) s best :
  zlen (marks s) = 5 -> ro = 0 -> 0 <= best.2 < 5 ->
  (best.2 <> 0 -> (marks s).[best.2] = Some best.1 /\ best.1 <= mx) ->
  (forall s' rc' m i, wal_and_marks s s' -> w_wal s' = w_wal s -> 1 <= i < 5 ->
     (marks s').[i] = Some m -> m <= mx -> Q (rc', (m, i), false) s') ->
  wp (if (ro =? 0) && ((best.1 <? mx) || (best.2 =? 0)) then mark_claim 4 1 mx rc best
      else mret (rc, best, false)) Q s.
Proof using Hg.
  intros Hl -> Hb Hm HQ. cbn [Z.eqb andb].
  destruct (_ || _) eqn:Hc.
  - apply wp_mark_claim; [done|]. intros s' H1' H2' H3'. by apply HQ.
  - apply orb_false_iff in Hc as [_ Hne%Z.eqb_neq]. destruct (Hm Hne) as [Em Hle].
    wp_pure. destruct best as [m i]. cbn [fst snd] in *. apply HQ; try done; [|lia].
    split_and!; try done. exists (marks s). split; [|done]. by destruct (w_sh s) as [? ? []].
Qed.

Lemma wp_begin_wal rc h (Q : Z -> W -> Prop) s :
  hdr (w_wal s) = h -> sh_hdr0 (w_sh s) = h -> zlen (marks s) = 5 ->
  Z.land (readOnly (w_wal s)) WAL_SHM_RDONLY = 0 ->
  (forall s' i m, wal_and_marks s s' -> 1 <= i < 5 ->
     w_wal s' = set_readLock i
                  (set_minFrame (u32 (nBackfill (sh_ckpt (w_sh s)) + 1)) (w_wal s)) ->
     (marks s').[i] = Some m -> m <= h_mxFrame h -> Q SQLITE_OK s') ->
  wp (begin_wal rc) Q s.
Proof using Hg.
  intros Hh Hh0 Hl Hro HQ. unfold begin_wal, get_hdr, get_wal, get_ckpt. wp_pure.
  apply wp_mark_scan; [done|lia|lia|cbn; lia|done|]. intros best Hb Hm. wp_pure.
  apply wp_choose_mark; [done|done|done|done|].
  intros s1 rc' m i (El & Ed & Ea & mk & Es & Hmk) Ew Hi Emark Hmle. wp_pure.
  rewrite (proj2 (Z.eqb_neq i 0)) by lia. wp_pure. apply (wp_grant_shared Hg).
  intros s2 (Ew2 & Es2 & El2 & Ed2 & Ea2). cbn [negb Z.eqb SQLITE_OK]. wp_pure.
  apply (wp_barrier (proj1 Hg)). intros s3 (Ew3 & Es3 & El3 & Ed3 & Ea3). wp_pure.
  cbn [w_wal w_sh w_log w_db w_aws] in *. unfold readMark, get_ckpt. wp_pure.
  rewrite Es3, Es2. rewrite (wp_of_option _ _ _ _ Emark). wp_pure.
  assert (bool_decide (sh_hdr0 (w_sh s3) = hdr (w_wal s3)) = true) as ->.
  { apply bool_decide_eq_true. rewrite Es3, Es2, Es, Ew3, Ew2. cbn. by rewrite Ew, Hh, Hh0. }
  rewrite Z.eqb_refl. cbn [negb orb]. wp_pure.
  apply (HQ _ i m); world_simpl.
  - split_and!; world_simpl; try congruence. exists mk. split; [congruence|done].
  - done.
  - rewrite Ew3, Ew2. world_simpl. rewrite Ew, Es2, Es. done.
  - rewrite Es3, Es2. done.
  - by rewrite <- Hh.
Qed.

(** The snapshot that a lone reader gets. *)
Record got_snapshot (s s' : W) (h : WalIndexHdr) (ch : bool) : Prop := {
  gs_same : wal_and_marks s s';
  gs_changed : ch = true \/ hdr (w_wal s) = h;
  gs_slot : exists i, 0 <= i < WAL_NREADER /\
    (i = 0 <-> nBackfill (sh_ckpt (w_sh s)) = h_mxFrame h) /\
    w_wal s' = set_readLock i
      (if i =? 0 then with_hdr h (w_wal s)
       else set_minFrame (u32 (nBackfill (sh_ckpt (w_sh s)) + 1)) (with_hdr h (w_wal s))) /\
    (i <> 0 -> exists m, (marks s').[i] = Some m /\ m <= h_mxFrame h);
}.

Lemma with_hdr_hdr h w : hdr (with_hdr h w) = h.
Proof. unfold with_hdr. by case_bool_decide. Qed.

Lemma with_hdr_readOnly h w : readOnly (with_hdr h w) = readOnly w.
Proof. unfold with_hdr. by case_bool_decide. Qed.

Lemma with_hdr_reliable h w : bShmUnreliable (with_hdr h w) = bShmUnreliable w.
Proof. unfold with_hdr. by case_bool_decide. Qed.

Lemma wal_only_marks s s' : zlen (marks s) = 5 -> wal_only s s' -> wal_and_marks s s'.
Proof.
  intros Hl (E1 & E2 & E3 & E4). split_and!; try done. exists (marks s). split; [|done].
  rewrite E1. by destruct (w_sh s) as [? ? []].
Qed.

Lemma wp_walTryBeginRead ch cnt h (Q : Z * bool -> W -> Prop) s :
  index_ready be s h -> cnt <= 5 ->
  (forall s' ch', got_snapshot s s' h ch' -> Q (SQLITE_OK, ch') s') ->
  wp (walTryBeginRead be aPrivate ch false cnt) Q s.
Proof using Hg.
  intros Hr Hcnt HQ. unfold walTryBeginRead, begin_pause, get_wal.
  assert ((cnt >? 100) = false) as -> by lia. assert ((cnt >? 5) = false) as -> by lia. wp_pure.
  cbn [negb]. wp_pure. rewrite (ir_reliable _ _ _ Hr). cbn [negb]. wp_pure.
  apply (wp_walIndexReadHdr be aPrivate (proj1 Hg) _ h); [done|]. intros s1 Ho Ew. wp_pure. unfold begin_busy.
  cbn [Z.eqb SQLITE_OK SQLITE_BUSY]. wp_pure.
  rewrite Ew, with_hdr_reliable, (ir_reliable _ _ _ Hr). cbn [negb Z.eqb SQLITE_OK].
  set (ch' := ch || _). pose proof (ir_marks _ _ _ Hr) as Hm. change WAL_NREADER with 5 in Hm.
  assert (Hch : ch' = true \/ hdr (w_wal s) = h).
  { unfold ch'. destruct (decide (hdr (w_wal s) = h)); [by right|left].
    rewrite bool_decide_false by done. apply orb_true_r. }
  pose proof Ho as (Es1 & El1 & Ed1 & Ea1).
  unfold begin_no_wal, get_ckpt, get_hdr. wp_pure. cbn [negb andb].
  rewrite Es1, Ew, with_hdr_hdr.
  destruct (Z.eqb_spec (nBackfill (sh_ckpt (w_sh s))) (h_mxFrame h)) as [Hb|Hb].
  - wp_pure. apply (wp_grant_shared Hg). intros s2 (Ew2 & Es2 & El2 & Ed2 & Ea2). wp_pure.
    apply (wp_barrier (proj1 Hg)). intros s3 (Ew3 & Es3 & El3 & Ed3 & Ea3). wp_pure.
    cbn [Z.eqb SQLITE_OK]. wp_pure.
    assert (bool_decide (sh_hdr0 (w_sh s3) = hdr (w_wal s3)) = true) as ->.
    { apply bool_decide_eq_true.
      rewrite Es3, Es2, Es1, Ew3, Ew2, Ew, with_hdr_hdr. apply (ir_hdr0 _ _ _ Hr). }
    cbn [negb]. wp_pure. apply HQ. constructor; [|done|].
    + apply wal_only_marks; [done|]. split_and!; cbn; congruence.
    + exists 0. split_and!; try done. cbn. by rewrite Ew3, Ew2, Ew.
  - wp_pure. apply (wp_begin_wal _ h).
    + by rewrite Ew, with_hdr_hdr.
    + rewrite Es1. apply (ir_hdr0 _ _ _ Hr).
    + by rewrite Es1.
    + rewrite Ew, with_hdr_readOnly. apply (ir_writable _ _ _ Hr).
    + intros s2 i m (El & Ed & Ea & mk & Es & Hmk) Hi Ew2 Em Hle. wp_pure.
      rewrite Es1 in *. rewrite Ew in Ew2. apply HQ. constructor; [|done|].
      * split_and!; try congruence. by exists mk.
      * exists i. change WAL_NREADER with 5. split; [lia|]. split; [lia|]. split.
        -- rewrite (proj2 (Z.eqb_neq i 0)) by lia. done.
        -- intros _. by exists m.
Qed.

Lemma wp_BeginRead ch h (Q : Z * bool -> W -> Prop) s :
  index_ready be s h ->
  (forall s' ch', got_snapshot s s' h ch' -> Q (SQLITE_OK, ch') s') ->
  wp (sqlite3WalBeginReadTransaction be aPrivate ch) Q s.
Proof using Hg.
  intros Hr HQ. unfold sqlite3WalBeginReadTransaction. 
  change 101%nat with (S 100). cbn [begin_read_loop]. wp_pure.
  apply (wp_walTryBeginRead _ _ h); [done|lia|]. intros s' ch' Hs. wp_pure.
  cbn [Z.eqb SQLITE_OK WAL_RETRY]. wp_pure. by apply HQ.
Qed.
End alone.

(** * Properties *)

Section properties.
Context {F OS : Type} `{VFile F} `{WalOS OS} `{ShmEnv} (be : bool).
Context (aPrivate : Z -> WiPage).

(** C4.  Whatever the other connections do while a transaction is opened, a
    transaction that opens has a consistent snapshot: the lock of its slot is
    held, the header of the wal-index is the one it read, and its read mark
    is at or below it, so that no checkpoint writes a later frame into the
    database and no writer restarts the log. *)
Theorem read_snapshot_safe holds ch rc ch' (s s' : World F OS) :
  lock_law holds ->
  sqlite3WalBeginReadTransaction be aPrivate ch s = Some ((rc, ch'), s') ->
  rc = SQLITE_OK -> snapshot holds s'.
Proof. intros Hll E. by eapply (begin_read_loop_safe be aPrivate holds Hll). Qed.


(** C5.  A connection that meets no other opens its transaction and reads
    every page right: the last frame of the log that holds the page, among
    those that were not copied to the database, or else the database. *)
Theorem read_page_correct h pgs sz pgno ch (s : World F OS) :
  os_grants (OS := OS) -> index_ready be s h -> wi_view (sh_idx (w_sh s)) pgs ->
  zlen pgs < FRAME_MAX -> h_mxFrame h = zlen pgs -> page_size_ok sz ->
  h_szPage h = pagesize_field sz -> 0 <= nBackfill (sh_ckpt (w_sh s)) <= zlen pgs ->
  exists r, last_frame pgs pgno (nBackfill (sh_ckpt (w_sh s)) + 1) (zlen pgs) r /\
    wp (_ ← sqlite3WalBeginReadTransaction be aPrivate ch; read_page_content pgno sz)
       (fun res s' => hdr (w_wal s') = h /\ w_log s' = w_log s /\ w_db s' = w_db s /\
          if r =? 0 then
            let '(rc, b) := xRead (w_db s) sz ((pgno - 1) * sz) in
            res = (if rc =? SQLITE_IOERR_SHORT_READ then SQLITE_OK else rc, b)
          else res = xRead (w_log s) sz (walFrameOffset r sz + WAL_FRAME_HDRSIZE)) s.
Proof.
  intros Hg Hr Hx Hmax Hmx Hsz Hf Hb. set (nb := nBackfill _) in *.
  assert (exists r, last_frame pgs pgno (nb + 1) (zlen pgs) r /\
    forall s' ch', got_snapshot s s' h ch' ->
      sqlite3WalFindFrame (w_wal s') (sh_idx (w_sh s')) pgno
        = Some (SQLITE_OK, r, w_wal s', sh_idx (w_sh s'))) as (r & Hlast & Hfind).
  { destruct (decide (nb = zlen pgs)) as [E|Hne].
    - exists 0. split; [left; split; [done|]; intros f Hf'; lia|].
      intros s' ch' [_ _ (i & Hi & Hi0 & Ew & _)].
      assert (i = 0) as -> by (apply Hi0; lia). unfold sqlite3WalFindFrame. rewrite Ew. cbn.
      rewrite with_hdr_hdr, with_hdr_reliable, (ir_reliable _ _ _ Hr). cbn.
      by rewrite orb_true_r.
    - destruct (FindFrame_ok (set_readLock 1 (set_minFrame (nb + 1) (with_hdr h (w_wal s))))
                  (sh_idx (w_sh s)) pgs pgno Hx Hmax) as (r & _ & Hlast);
        [cbn; by rewrite with_hdr_hdr|cbn; lia|cbn; unfold FRAME_MAX in *; lia|by left|].
      exists r. split; [exact Hlast|].
      intros s' ch' [(_ & _ & _ & mk & Es & _) _ (i & Hi & Hi0 & Ew & _)].
      assert (i <> 0) as Hne0 by (intros ->; apply Hne; rewrite <- Hmx; by apply Hi0).
      rewrite (proj2 (Z.eqb_neq i 0) Hne0) in Ew.
      fold nb in Ew. rewrite u32_small in Ew by (unfold FRAME_MAX in Hmax; lia).
      rewrite Ew, Es. world_simpl.
      edestruct (FindFrame_ok (set_readLock i (set_minFrame (nb + 1) (with_hdr h (w_wal s))))
                  (sh_idx (w_sh s)) pgs pgno Hx Hmax) as (r' & -> & Hlast');
        [cbn; by rewrite with_hdr_hdr|cbn; lia|cbn; unfold FRAME_MAX in *; lia|by left|].
      cbn in Hlast'. assert (r' = r) as -> by (eapply last_frame_unique; [|done|done]; lia).
      done. }
  exists r. split; [done|]. rewrite wp_bind. apply (wp_BeginRead be aPrivate Hg _ h); [done|].
  intros s1 ch1 Hs. pose proof (Hfind s1 ch1 Hs) as Ef. unfold read_page_content. rewrite wp_bind.
  eapply run_wp; [unfold with_idx; rewrite Ef; reflexivity|].
  cbn [negb Z.eqb SQLITE_OK]. destruct Hs as [(El & Ed & _) _ (i & _ & _ & Ew & _)].
  assert (hdr (w_wal s1) = h) as Eh.
  { rewrite Ew. destruct (i =? 0); cbn; apply with_hdr_hdr. }
  destruct (Z.eqb_spec r 0) as [->|Hr0]; cbn [negb].
  - unfold db_read. wp_pure. rewrite Ed. destruct (xRead (w_db s) _ _) as [rc b]. wp_pure.
    split_and!; try done; cbn; congruence.
  - unfold sqlite3WalReadFrame, get_hdr, log_read. wp_pure. rewrite Eh, El.
    assert (Z.land (h_szPage h) 0xfe00 + Z.shiftl (Z.land (h_szPage h) 0x0001) 16 = sz) as ->.
    { rewrite <- Eh. apply (walPagesize_field (w_wal s1)); [done|]. by rewrite Eh. }
    rewrite Z.gtb_ltb, Z.ltb_irrefl. split_and!; try done; cbn; congruence.
Qed.
End properties.

(** ** Instances *)

(** A system that keeps the locks it granted. *)
#[export] Instance lock_os : WalOS (list Z) := {
  xShmLock o sh a n f :=
    (SQLITE_OK, sh, if Z.land f SQLITE_SHM_UNLOCK =? 0 then a :: o
                    else filter (fun b => b <> a) o);
  xShmBarrier o sh := (sh, o);
  xRandomness o n := (replicate (Z.to_nat n) 7, o);
  xMalloc o _ := (true, o);
  xSectorSize _ := 4096;
  xSleep o _ sh := (sh, o);
  xShmHeader _ := (hdr_zero, hdr_zero, mkCkpt 0 (replicate 5 0) 0);
  xShmProbe o := (SQLITE_READONLY, o);
  xShmUnmap o _ := o;
  xInterrupted o := (false, false, o);
  xLockExclusive o := (SQLITE_OK, o);
  xPersistWal _ := 0;
  xDeleteLog o := o;
}.

Definition held (o : list Z) (i : Z) : Prop := i ∈ o.

Lemma lock_os_law : lock_law held.
Proof.
  constructor; unfold held; cbn.
  - intros o sh i sh' o' [= _ <-]. by left.
  - by intros o sh sh' o' i [= _ <-].
  - by intros o n b o' i [= _ <-].
  - by intros o rc o' i [= <- <-].
Qed.

Lemma lock_os_grants : os_grants (OS := list Z).
Proof. split; [split|]; eauto. Qed.

Definition reader_hdr : WalIndexHdr :=
  seal false (hset_mxFrame 3 (hset_nPage 9 (hset_szPage (pagesize_field 512) hdr_zero))).

Definition reader_world : World ByteFile (list Z) :=
  mkWorld (set_readLock (-1) (reader_wal 0))
    (mkShared reader_hdr reader_hdr (mkCkpt 1 [0; 3; 0; 0; 0] 1) (sample_idx [7; 9; 7]))
    (byte_file sample_log) (byte_file (replicate 512 5)) aws_init [].

Lemma reader_ready : index_ready false reader_world reader_hdr.
Proof.
  constructor; try done.
  - destruct (sample_idx_clean 0 ltac:(lia) ltac:(vm_compute; reflexivity)) as (pg & Hm & _).
    by exists pg.
Qed.

Lemma read_snapshot_safe_witness :
  exists s', @sqlite3WalBeginReadTransaction ByteFile (list Z) _ _ sample_env false zero_page
               false reader_world = Some ((SQLITE_OK, true), s') /\ snapshot held s'.
Proof.
  destruct (@sqlite3WalBeginReadTransaction ByteFile (list Z) _ _ sample_env false zero_page
              false reader_world) as [[[rc ch] s']|] eqn:E.
  - assert (Some (rc, ch) = Some (SQLITE_OK, true)) as Hrc.
    { transitivity (fst <$> @sqlite3WalBeginReadTransaction ByteFile (list Z) _ _ sample_env
                      false zero_page false reader_world).
      - by rewrite E.
      - vm_compute. reflexivity. }
    injection Hrc as -> ->. exists s'. split; [done|].
    exact (@read_snapshot_safe ByteFile (list Z) _ _ sample_env false zero_page held false
             SQLITE_OK true reader_world s' lock_os_law E eq_refl).
  - exfalso. assert (fst <$> @sqlite3WalBeginReadTransaction ByteFile (list Z) _ _ sample_env
                      false zero_page false reader_world = Some (SQLITE_OK, true)) as Hrc
      by (vm_compute; reflexivity).
    rewrite E in Hrc. discriminate Hrc.
Defined.


Lemma read_page_correct_witness :
  exists r, last_frame [7; 9; 7] 7 2 3 r /\
    wp (_ ← @sqlite3WalBeginReadTransaction ByteFile (list Z) _ _ sample_env false zero_page false;
        @read_page_content ByteFile (list Z) _ sample_env 7 512)
       (fun res s' => hdr (w_wal s') = reader_hdr /\ w_log s' = w_log reader_world /\
          w_db s' = w_db reader_world /\
          if r =? 0 then
            let '(rc, b) := xRead (w_db reader_world) 512 ((7 - 1) * 512) in
            res = (if rc =? SQLITE_IOERR_SHORT_READ then SQLITE_OK else rc, b)
          else res = xRead (w_log reader_world) 512 (walFrameOffset r 512 + WAL_FRAME_HDRSIZE))
       reader_world.
Proof.
  exact (@read_page_correct ByteFile (list Z) _ _ sample_env false zero_page reader_hdr [7; 9; 7]
           512 7 false reader_world lock_os_grants reader_ready
           (wi_ok_view _ _ (wi_clean_ok _ _ sample_idx_clean)) eq_refl eq_refl
           ltac:(exists 9; split; [lia|reflexivity]) eq_refl
           ltac:(change (zlen [7; 9; 7]) with 3; cbn [reader_world w_sh sh_ckpt nBackfill]; lia)).
Defined.
