(* ===== verification/WalWrite.v ===== *)
(** Write transactions: beginning and ending them, rolling back, restarting
    the log, and [sqlite3WalFrames], which writes the pages of a transaction
    to the log, and to the upload buffer of this repository. *)
From S2P Require Import Prelude.
From S2P Require Import Util.
From S2P Require Import Vfs.
From S2P Require Import Aws.
From S2P Require Import WalTypes.
From S2P Require Import WalFormat.
From S2P Require Import WalIndex.
From S2P Require Import WalState.
From S2P Require Import WalRecover.
From S2P Require Import WalRead.
Open Scope Z_scope.

(** A dirty page: the list is linked by [pDirty]; the flag is
    [PGHDR_WAL_APPEND]. *)
Record PgHdr := mkPg {
  pg_pgno : Z;
  pg_data : list Z;
  pg_append : bool;
}.

Definition pg_set_append (b : bool) (p : PgHdr) : PgHdr := mkPg (pg_pgno p) (pg_data p) b.

Record WalWriter := mkWriter {
  iSyncPoint : Z;
  syncFlags : Z;
  wr_szPage : Z;
}.

Definition WAL_SYNC_FLAGS (x : Z) : Z := Z.land x 3.
Definition CKPT_SYNC_FLAGS (x : Z) : Z := Z.land (Z.shiftr x 2) 3.

Section write.
Context {F OS : Type} `{VFile F} `{WalOS OS} `{ShmEnv} (bigendian : bool).
Context (aPrivate : Z -> WiPage) (AWS_S3_RECV : Z).
Local Abbreviation M := (@M F OS).

Definition live_hdr : M WalIndexHdr := gets (fun s => sh_hdr0 (w_sh s)).

Definition find_frame (pgno : Z) : M (Z * Z) :=
  with_idx (fun w x =>
    '(rc, iFrame, w, x) ← sqlite3WalFindFrame w x pgno; Some ((rc, iFrame), w, x)).

Definition index_append (iFrame pgno : Z) : M Z :=
  with_idx (fun w x => walIndexAppend w x iFrame pgno).

Definition cleanup_hash : M unit :=
  with_idx (fun w x => let '(w, x) := walCleanupHash w x in Some (tt, w, x)).

(** * Beginning and rolling back *)

Definition sqlite3WalBeginWriteTransaction : M Z :=
  w ← get_wal;
  if negb (readOnly w =? 0) then mret SQLITE_READONLY else
  rc ← walLockExclusive WAL_WRITE_LOCK 1;
  if negb (rc =? SQLITE_OK) then mret rc else
  upd_wal (set_writeLock true);;
  h ← get_hdr; live ← live_hdr;
  if negb (bool_decide (h = live)) then
    walUnlockExclusive WAL_WRITE_LOCK 1;;
    upd_wal (set_writeLock false);;
    mret SQLITE_BUSY_SNAPSHOT
  else mret rc.

(** The calls of [xUndo]: the callback [undo] is given every page of the
    frames [iFrame..], [n] of them. *)
Fixpoint undo_loop (n : nat) (undo : Z -> Z) (iFrame rc : Z) : M Z :=
  match n with
  | O => mret rc
  | S n =>
      if rc =? SQLITE_OK then
        pgno ← (x ← gets (fun s => sh_idx (w_sh s)); of_option (walFramePgno x iFrame));
        undo_loop n undo (iFrame + 1) (undo pgno)
      else mret rc
  end.

Definition sqlite3WalUndo (undo : Z -> Z) : M Z :=
  w ← get_wal;
  if writeLock w then
    let iMax := h_mxFrame (hdr w) in
    live ← live_hdr;
    upd_wal (set_hdr live);;
    rc ← undo_loop (Z.to_nat (iMax - h_mxFrame live)) undo (h_mxFrame live + 1) SQLITE_OK;
    (if negb (iMax =? h_mxFrame live) then cleanup_hash else mret tt);;
    mret rc
  else mret SQLITE_OK.

(** [aWalData] *)
Definition sqlite3WalSavepoint : M (Z * (Z * Z) * Z) :=
  w ← get_wal;
  mret (h_mxFrame (hdr w), h_aFrameCksum (hdr w), nCkpt w).

(** The result code, and [aWalData] as it is left. *)
Definition sqlite3WalSavepointUndo (aWalData : Z * (Z * Z) * Z) : M (Z * (Z * (Z * Z) * Z)) :=
  let '(mx, ck, n) := aWalData in
  w ← get_wal;
  let '(mx, n) := if negb (n =? nCkpt w) then (0, nCkpt w) else (mx, n) in
  (if mx <? h_mxFrame (hdr w) then
     upd_hdr (hset_mxFrame mx);;
     upd_hdr (hset_aFrameCksum ck);;
     cleanup_hash
   else mret tt);;
  mret (SQLITE_OK, (mx, ck, n)).

(** * Restarting the log *)

Definition walRestartLog : M Z :=
  w ← get_wal;
  if negb (readLock w =? 0) then mret SQLITE_OK else
  c ← get_ckpt;
  stop ← (if nBackfill c >? 0 then
            salt1 ← sqlite3_randomness 4;
            rc ← walLockExclusive (WAL_READ_LOCK 1) (WAL_NREADER - 1);
            if rc =? SQLITE_OK then
              walRestartHdr bigendian salt1;;
              walUnlockExclusive (WAL_READ_LOCK 1) (WAL_NREADER - 1);;
              mret None
            else if negb (rc =? SQLITE_BUSY) then mret (Some rc) else mret None
          else mret None);
  match stop with
  | Some rc => mret rc
  | None =>
      walUnlockShared (WAL_READ_LOCK 0);;
      upd_wal (set_readLock (-1));;
      '(rc, _) ← begin_read_loop bigendian aPrivate 101 false true 0;
      mret rc
  end.

(** * Writing frames *)

(** The last lines of [walWriteToLog]. *)
Definition write_rest (pContent : list Z) (iOffset : Z) : M Z :=
  rc ← log_write pContent iOffset;
  (if AWS_S3_RECV =? 2 then upd_aws (aws_append pContent) else mret tt);;
  mret rc.

(** [pContent] is [iAmt] bytes. *)
Definition walWriteToLog (p : WalWriter) (pContent : list Z) (iOffset : Z) : M Z :=
  let iAmt := zlen pContent in
  if (iOffset <? iSyncPoint p) && (iOffset + iAmt >=? iSyncPoint p) then
    let iFirstAmt := i32 (iSyncPoint p - iOffset) in
    rc ← log_write (take (Z.to_nat iFirstAmt) pContent) iOffset;
    if negb (rc =? SQLITE_OK) then mret rc else
    rc ← log_sync (WAL_SYNC_FLAGS (syncFlags p));
    if (iAmt - iFirstAmt =? 0) || negb (rc =? SQLITE_OK) then mret rc
    else write_rest (drop (Z.to_nat iFirstAmt) pContent) (iOffset + iFirstAmt)
  else write_rest pContent iOffset.

(** The first [n] bytes of a buffer. *)
Definition buffer (n : Z) (p : list Z) : option (list Z) :=
  if n <=? zlen p then Some (take (Z.to_nat n) p) else None.

Definition walWriteOneFrame (p : WalWriter) (pPage : PgHdr) (nTruncate iOffset : Z) : M Z :=
  w ← get_wal;
  '(aFrame, w) ← of_option (walEncodeFrame bigendian w (pg_pgno pPage) nTruncate (pg_data pPage));
  upd_wal (fun _ => w);;
  rc ← walWriteToLog p aFrame iOffset;
  if negb (rc =? SQLITE_OK) then mret rc else
  pData ← of_option (buffer (wr_szPage p) (pg_data pPage));
  walWriteToLog p pData (iOffset + WAL_FRAME_HDRSIZE).

(** The frames [iRead..], [n] of them. *)
Fixpoint rewrite_loop (n : nat) (szPage iRead rc : Z) : M Z :=
  match n with
  | O => mret rc
  | S n =>
      if rc =? SQLITE_OK then
        let iOff := walFrameOffset iRead szPage in
        '(rc, aBuf) ← log_read (szPage + WAL_FRAME_HDRSIZE) iOff;
        if rc =? SQLITE_OK then
          iPgno ← of_option (sqlite3Get4byte aBuf);
          nDbSize ← of_option (sqlite3Get4byte (at_off 4 aBuf));
          w ← get_wal;
          '(aFrame, w) ← of_option (walEncodeFrame bigendian w iPgno nDbSize
                                      (at_off WAL_FRAME_HDRSIZE aBuf));
          upd_wal (fun _ => w);;
          rc ← log_write aFrame iOff;
          rewrite_loop n szPage (iRead + 1) rc
        else mret rc
      else mret rc
  end.

(** After a failed read the checksum is what the buffer happens to hold, 0
    here: it is not used. *)
Definition walRewriteChecksums (iLast : Z) : M Z :=
  w ← get_wal;
  ok ← sqlite3_malloc (szPage w + WAL_FRAME_HDRSIZE);
  if negb ok then mret SQLITE_NOMEM else
  let iCksumOff := if iReCksum w =? 1 then 24
                   else walFrameOffset (iReCksum w - 1) (szPage w) + 16 in
  '(rc, aBuf) ← log_read 8 iCksumOff;
  upd_hdr (hset_aFrameCksum (default 0 (sqlite3Get4byte aBuf),
                             default 0 (sqlite3Get4byte (at_off 4 aBuf))));;
  upd_wal (set_iReCksum 0);;
  rewrite_loop (Z.to_nat (iLast + 1 - iReCksum w)) (szPage w) (iReCksum w) rc.

Definition walLimitSize (nMax : Z) : M unit :=
  '(rx, sz) ← log_size;
  if (rx =? SQLITE_OK) && (sz >? nMax) then _ ← log_truncate nMax; mret tt else mret tt.

(** The header of a new log. *)
Definition write_wal_header (szPage sync_flags : Z) : M Z :=
  w ← get_wal;
  (if nCkpt w =? 0 then
     salt ← sqlite3_randomness 8;
     upd_hdr (hset_aSalt (take 8 salt))
   else mret tt);;
  h ← get_hdr;
  let aWalHdr := sqlite3Put4byte (Z.lor WAL_MAGIC (Z.b2z bigendian)) ++
                 sqlite3Put4byte WAL_MAX_VERSION ++ sqlite3Put4byte szPage ++
                 sqlite3Put4byte (nCkpt w) ++ h_aSalt h in
  aCksum ← of_option (walChecksumBytes bigendian true aWalHdr (WAL_HDRSIZE - 2 * 4) None);
  let aWalHdr := aWalHdr ++ sqlite3Put4byte aCksum.1 ++ sqlite3Put4byte aCksum.2 in
  upd_wal (set_szPage szPage);;
  upd_hdr (hset_bigEndCksum (Z.b2z bigendian));;
  upd_hdr (hset_aFrameCksum aCksum);;
  upd_wal (set_truncateOnCommit true);;
  rc ← log_write aWalHdr 0;
  if negb (rc =? SQLITE_OK) then mret rc else
  w ← get_wal;
  if syncHeader w then log_sync (CKPT_SYNC_FLAGS sync_flags) else mret SQLITE_OK.

(** What the loop over the pages carries: the last frame written, where the
    next one goes, the last page appended. *)
Record Writing := mkWriting {
  wg_iFrame : Z;
  wg_iOffset : Z;
  wg_pLast : option PgHdr;
}.

(** One page that is overwritten in place: the result of [sqlite3WalFindFrame]
    is the frame, 0 when it fails. *)
Definition find_overwrite (iFirst : Z) (last isCommit : bool) (pgno : Z) : M Z :=
  if negb (iFirst =? 0) && (negb last || negb isCommit) then
    '(_, iWrite) ← find_frame pgno;
    mret (if iWrite >=? iFirst then iWrite else 0)
  else mret 0.

(** The pages of the list: the result code, the list with its flags, and
    where the writing stands. *)
Fixpoint write_frames (p : WalWriter) (szPage nTruncate : Z) (isCommit : bool) (iFirst : Z)
    (g : Writing) (pList : list PgHdr) : M (Z * list PgHdr * Writing) :=
  match pList with
  | [] => mret (SQLITE_OK, [], g)
  | pg :: rest =>
      let last := bool_decide (rest = []) in
      iWrite ← find_overwrite iFirst last isCommit (pg_pgno pg);
      if negb (iWrite =? 0) then
        upd_wal (fun w => if (iReCksum w =? 0) || (iWrite <? iReCksum w)
                          then set_iReCksum iWrite w else w);;
        pData ← of_option (buffer szPage (pg_data pg));
        rc ← log_write pData (walFrameOffset iWrite szPage + WAL_FRAME_HDRSIZE);
        if negb (rc =? SQLITE_OK) then mret (rc, pList, g) else
        '(rc, rest, g) ← write_frames p szPage nTruncate isCommit iFirst g rest;
        mret (rc, pg_set_append false pg :: rest, g)
      else
        let nDbSize := if isCommit && last then nTruncate else 0 in
        rc ← walWriteOneFrame p pg nDbSize (wg_iOffset g);
        if negb (rc =? SQLITE_OK) then mret (rc, pList, g) else
        let pg := pg_set_append true pg in
        let g := mkWriting (u32 (wg_iFrame g + 1))
                   (wg_iOffset g + (szPage + WAL_FRAME_HDRSIZE)) (Some pg) in
        '(rc, rest, g) ← write_frames p szPage nTruncate isCommit iFirst g rest;
        mret (rc, pg :: rest, g)
  end.

(** The padding: [fuel] copies at most; the result code, the offset and
    [nExtra]. *)
Fixpoint pad_loop (fuel : nat) (p : WalWriter) (nTruncate szFrame : Z) (pLast : option PgHdr)
    (iOffset nExtra : Z) : M (Z * Z * Z) :=
  match fuel with
  | O => fail
  | S fuel =>
      if iOffset <? iSyncPoint p then
        pg ← of_option pLast;
        rc ← walWriteOneFrame p pg nTruncate iOffset;
        if negb (rc =? SQLITE_OK) then mret (rc, iOffset, nExtra)
        else pad_loop fuel p nTruncate szFrame pLast (iOffset + szFrame) (nExtra + 1)
      else mret (SQLITE_OK, iOffset, nExtra)
  end.

(** The end of a transaction: padding and syncing.  The result code,
    [nExtra], and whether a failed write ends the function. *)
Definition finish_frames (p : WalWriter) (szPage nTruncate : Z) (g : Writing)
    : M (Z * Z * bool) :=
  w ← get_wal;
  '(rc, nExtra, bSync) ←
    (if padToSectorBoundary w then
       sectorSize ← gets (fun s => xSectorSize (w_os s));
       let sp := Z.quot (wg_iOffset g + sectorSize - 1) sectorSize * sectorSize in
       '(rc, iOffset, nExtra) ←
         pad_loop (S (Z.to_nat (sp - wg_iOffset g))) (mkWriter sp (syncFlags p) (wr_szPage p))
           nTruncate (szPage + WAL_FRAME_HDRSIZE) (wg_pLast g) (wg_iOffset g) 0;
       mret (rc, nExtra, sp =? wg_iOffset g)
     else mret (SQLITE_OK, 0, true));
  if negb (rc =? SQLITE_OK) then mret (rc, nExtra, true) else
  if bSync : bool then
    rc ← log_sync (WAL_SYNC_FLAGS (syncFlags p)); mret (rc, nExtra, false)
  else mret (rc, nExtra, false).

(** The pages added to the index: those whose flag is set; the result code
    and the last frame. *)
Fixpoint index_frames (iFrame rc : Z) (pList : list PgHdr) : M (Z * Z) :=
  match pList with
  | [] => mret (rc, iFrame)
  | pg :: rest =>
      if rc =? SQLITE_OK then
        if pg_append pg then
          rc ← index_append (u32 (iFrame + 1)) (pg_pgno pg);
          index_frames (u32 (iFrame + 1)) rc rest
        else index_frames iFrame rc rest
      else mret (rc, iFrame)
  end.

Fixpoint index_extra (n : nat) (iFrame rc : Z) (pLast : option PgHdr) : M (Z * Z) :=
  match n with
  | O => mret (rc, iFrame)
  | S n =>
      if rc =? SQLITE_OK then
        pg ← of_option pLast;
        rc ← index_append (u32 (iFrame + 1)) (pg_pgno pg);
        index_extra n (u32 (iFrame + 1)) rc pLast
      else mret (rc, iFrame)
  end.

(** From the index on: the new header. *)
Definition publish_frames (szPage nTruncate : Z) (isCommit : bool) (rc nExtra : Z)
    (pList : list PgHdr) (pLast : option PgHdr) : M Z :=
  h ← get_hdr;
  '(rc, iFrame) ← index_frames (h_mxFrame h) rc pList;
  '(rc, iFrame) ← index_extra (Z.to_nat nExtra) iFrame rc pLast;
  if rc =? SQLITE_OK then
    upd_hdr (hset_szPage (pagesize_field szPage));;
    upd_hdr (hset_mxFrame iFrame);;
    (if isCommit then
       upd_hdr (fun h => hset_iChange (u32 (h_iChange h + 1)) h);;
       upd_hdr (hset_nPage nTruncate);;
       walIndexWriteHdr bigendian;;
       upd_wal (set_iCallback iFrame)
     else mret tt);;
    mret rc
  else mret rc.

(** From the test of the page size on, with [iFrame] frames in the log. *)
Definition frames_body (sz : Z) (pList : list PgHdr) (nTruncate : Z) (isCommit : bool)
    (sync_flags iFirst iFrame : Z) : M (Z * list PgHdr) :=
  w ← get_wal;
  if negb (i32 (szPage w) =? sz) then mret (SQLITE_CORRUPT, pList) else
  let p := mkWriter 0 sync_flags sz in
  '(rc, pList, g) ← write_frames p sz nTruncate isCommit iFirst
                      (mkWriting iFrame (walFrameOffset (u32 (iFrame + 1)) sz) None) pList;
  if negb (rc =? SQLITE_OK) then mret (rc, pList) else
  w ← get_wal;
  rc ← (if isCommit && negb (iReCksum w =? 0) then walRewriteChecksums (wg_iFrame g)
        else mret SQLITE_OK);
  if negb (rc =? SQLITE_OK) then mret (rc, pList) else
  '(rc, nExtra, stop) ←
    (if isCommit && negb (WAL_SYNC_FLAGS sync_flags =? 0)
     then finish_frames p sz nTruncate g
     else mret (SQLITE_OK, 0, false));
  if stop : bool then mret (rc, pList) else
  w ← get_wal;
  (if isCommit && truncateOnCommit w && (mxWalSize w >=? 0) then
     let ofst := walFrameOffset (u32 (wg_iFrame g + nExtra + 1)) sz in
     walLimitSize (if ofst >? mxWalSize w then ofst else mxWalSize w);;
     upd_wal (set_truncateOnCommit false)
   else mret tt);;
  rc ← publish_frames sz nTruncate isCommit rc nExtra pList (wg_pLast g);
  mret (rc, pList).

(** The result code, and the pages with their flags. *)
Definition sqlite3WalFrames (sz : Z) (pList : list PgHdr) (nTruncate : Z) (isCommit : bool)
    (sync_flags : Z) : M (Z * list PgHdr) :=
  live ← live_hdr; h ← get_hdr;
  let iFirst := if negb (bool_decide (h = live)) then u32 (h_mxFrame live + 1) else 0 in
  rc ← walRestartLog;
  if negb (rc =? SQLITE_OK) then mret (rc, pList) else
  h ← get_hdr;
  let iFrame := h_mxFrame h in
  rc ← (if iFrame =? 0 then write_wal_header sz sync_flags else mret SQLITE_OK);
  if negb (rc =? SQLITE_OK) then mret (rc, pList) else
  frames_body sz pList nTruncate isCommit sync_flags iFirst iFrame.
End write.

(** * Rolling back *)

Section rollback.
Context {F OS : Type} `{VFile F} `{WalOS OS} `{ShmEnv}.
Local Abbreviation W := (World F OS).

(** Only the index pages and the handle change. *)
Definition files_same (s s' : W) : Prop :=
  w_log s' = w_log s /\ w_db s' = w_db s /\ w_aws s' = w_aws s /\ w_os s' = w_os s /\
  sh_hdr0 (w_sh s') = sh_hdr0 (w_sh s) /\ sh_hdr1 (w_sh s') = sh_hdr1 (w_sh s) /\
  sh_ckpt (w_sh s') = sh_ckpt (w_sh s).

Lemma wp_cleanup_hash pgs rest (Q : unit -> W -> Prop) s :
  wi_ok (sh_idx (w_sh s)) (pgs ++ rest) -> h_mxFrame (hdr (w_wal s)) = zlen pgs ->
  zlen pgs < FRAME_MAX ->
  (forall s', files_same s s' -> w_wal s' = w_wal s -> wi_clean (sh_idx (w_sh s')) pgs -> Q tt s') ->
  wp cleanup_hash Q s.
Proof.
  intros Hx Hmx Hmax HQ.
  destruct (walCleanupHash_ok (w_wal s) (sh_idx (w_sh s)) pgs rest Hx Hmx Hmax) as (x' & E & Hc).
  eapply run_wp; [unfold cleanup_hash, with_idx; rewrite E; reflexivity|].
  apply HQ; [by split_and!|done|done].
Qed.

(** The callback is given the pages of the frames, in order, while it
    succeeds. *)
Lemma wp_undo_loop undo n : forall iFrame rc (Q : Z -> W -> Prop) s all,
  wi_view (sh_idx (w_sh s)) all -> zlen all < FRAME_MAX ->
  1 <= iFrame -> iFrame + Z.of_nat n <= zlen all + 1 ->
  (forall rc', (rc = SQLITE_OK -> (forall f p, iFrame <= f < iFrame + Z.of_nat n ->
                  frame_of all f = Some p -> undo p = SQLITE_OK) -> rc' = SQLITE_OK) -> Q rc' s) ->
  wp (undo_loop n undo iFrame rc) Q s.
Proof.
  induction n as [|n IH]; intros iFrame rc Q s all Hx Hmax Hi Hn HQ; cbn [undo_loop].
  - wp_pure. apply HQ. done.
  - destruct (Z.eqb_spec rc SQLITE_OK) as [->|Hne]; wp_pure; [|apply HQ; done].
    destruct (zget_some all (iFrame - 1)) as [p Ep]; [lia|].
    assert (walFramePgno (sh_idx (w_sh s)) iFrame = Some p) as Ef.
    { rewrite (walFramePgno_ok _ all) by (done || lia). done. }
    rewrite (wp_of_option _ _ _ _ Ef). apply (IH _ _ _ _ all); try done; [lia|lia|].
    intros rc' Hrc. apply HQ. intros _ Hall. apply Hrc.
    + apply (Hall iFrame); [lia|done].
    + intros f q Hf. apply Hall. lia.
Qed.

(** C9.  Rolling back a transaction: [sqlite3WalUndo] restores the header that
    the other connections see and removes the frames of the transaction from
    the index, and only those; the callback is given each of their pages and
    its success is the success of the function. *)
Theorem sqlite3WalUndo_correct undo pgs rest (s : W) :
  writeLock (w_wal s) = true ->
  wi_ok (sh_idx (w_sh s)) (pgs ++ rest) -> zlen (pgs ++ rest) < FRAME_MAX ->
  h_mxFrame (hdr (w_wal s)) = zlen (pgs ++ rest) ->
  h_mxFrame (sh_hdr0 (w_sh s)) = zlen pgs ->
  wp (sqlite3WalUndo undo) (fun rc s' =>
    w_wal s' = set_hdr (sh_hdr0 (w_sh s)) (w_wal s) /\ files_same s s' /\
    wi_ok (sh_idx (w_sh s')) pgs /\ (rest <> [] -> wi_clean (sh_idx (w_sh s')) pgs) /\
    ((forall p, p ∈ rest -> undo p = SQLITE_OK) -> rc = SQLITE_OK)) s.
Proof.
  intros Hw Hx Hmax Hmx Hlive. unfold sqlite3WalUndo, live_hdr, get_wal. wp_pure.
  rewrite Hw. wp_pure. rewrite Hmx, Hlive. pose proof (zlen_nonneg rest) as Hrest.
  pose proof (zlen_nonneg pgs). rewrite zlen_app in *.
  apply (wp_undo_loop undo _ _ _ _ _ (pgs ++ rest)); world_simpl.
  - by apply wi_ok_view.
  - by rewrite zlen_app.
  - lia.
  - rewrite zlen_app. lia.
  - intros rc Hrc.
    assert (Hrc' : (forall p, p ∈ rest -> undo p = SQLITE_OK) -> rc = SQLITE_OK).
    { intros Hall. apply Hrc; [done|]. intros f p Hf Hp. apply Hall.
      unfold frame_of in Hp. rewrite zget_app_r in Hp by lia. by eapply zget_elem_of. }
    destruct (Z.eqb_spec (zlen pgs + zlen rest) (zlen pgs)) as [E|Hne]; cbn [negb]; wp_pure.
    + split_and!; try done; [by apply wi_ok_prefix in Hx|].
      intros Hr. destruct rest; [done|]. rewrite zlen_cons in E. pose proof (zlen_nonneg rest). lia.
    + apply (wp_cleanup_hash pgs rest); world_simpl; try done; [lia|].
      intros s' Hs Ew Hc. wp_pure. split_and!; try done; try apply Hs.
      by apply wi_clean_ok.
Qed.

(** C10.  Rolling back to a savepoint: the handle is back at the frame and the
    checksum it had when the savepoint was opened, and the index holds the
    frames up to there and no others; if the log was restarted since, it is
    empty. *)
Theorem sqlite3WalSavepointUndo_correct mx ck n pgs rest (s : W) :
  wi_ok (sh_idx (w_sh s)) (pgs ++ rest) -> zlen (pgs ++ rest) < FRAME_MAX ->
  h_mxFrame (hdr (w_wal s)) = zlen (pgs ++ rest) -> rest <> [] ->
  zlen pgs = (if n =? nCkpt (w_wal s) then mx else 0) ->
  wp (sqlite3WalSavepointUndo (mx, ck, n)) (fun r s' =>
    r = (SQLITE_OK, (zlen pgs, ck, nCkpt (w_wal s))) /\ files_same s s' /\
    h_mxFrame (hdr (w_wal s')) = zlen pgs /\ h_aFrameCksum (hdr (w_wal s')) = ck /\
    wi_clean (sh_idx (w_sh s')) pgs) s.
Proof.
  intros Hx Hmax Hmx Hne Hn. unfold sqlite3WalSavepointUndo, get_wal. wp_pure.
  assert ((if negb (n =? nCkpt (w_wal s)) then (0, nCkpt (w_wal s)) else (mx, n))
          = (zlen pgs, nCkpt (w_wal s))) as ->.
  { rewrite Hn. by destruct (Z.eqb_spec n (nCkpt (w_wal s))) as [->|]. }
  rewrite zlen_app in *. pose proof (zlen_nonneg pgs).
  assert (0 < zlen rest).
  { destruct rest; [done|]. rewrite zlen_cons. pose proof (zlen_nonneg rest). lia. }
  rewrite Hmx. rewrite (proj2 (Z.ltb_lt _ _)) by lia. wp_pure.
  apply (wp_cleanup_hash pgs rest); world_simpl; try done; [lia|].
  intros s' Hs Ew Hc. wp_pure. rewrite Ew. by split_and!.
Qed.
End rollback.

(** * Beginning *)

Section begin.
Context {F OS : Type} `{VFile F} `{WalOS OS}.

(** C11.  Beginning to write, whatever the other connections do: the function
    always returns; when it returns [SQLITE_OK] the connection holds the write
    lock and its snapshot is the current state of the log; otherwise it is not
    a writer, and after [SQLITE_BUSY_SNAPSHOT] it has released the lock. *)
Theorem begin_write_correct (holds : OS -> Z -> Prop) (s : World F OS) :
  (forall o sh sh' o', xShmLock o sh WAL_WRITE_LOCK 1 (Z.lor SQLITE_SHM_LOCK SQLITE_SHM_EXCLUSIVE)
                         = (SQLITE_OK, sh', o') -> holds o' WAL_WRITE_LOCK) ->
  (forall o sh r, xShmLock o sh WAL_WRITE_LOCK 1 (Z.lor SQLITE_SHM_UNLOCK SQLITE_SHM_EXCLUSIVE) = r ->
                    ~ holds r.2 WAL_WRITE_LOCK) ->
  writeLock (w_wal s) = false ->
  wp sqlite3WalBeginWriteTransaction (fun rc s' =>
    hdr (w_wal s') = hdr (w_wal s) /\ writeLock (w_wal s') = bool_decide (rc = SQLITE_OK) /\
    (rc = SQLITE_OK -> readOnly (w_wal s) = 0 /\ sh_hdr0 (w_sh s') = hdr (w_wal s) /\
       (exclusiveMode (w_wal s) = 0 -> holds (w_os s') WAL_WRITE_LOCK)) /\
    (rc = SQLITE_BUSY_SNAPSHOT -> exclusiveMode (w_wal s) = 0 -> readOnly (w_wal s) = 0 ->
       (xShmLock (w_os s) (w_sh s) WAL_WRITE_LOCK 1
          (Z.lor SQLITE_SHM_LOCK SQLITE_SHM_EXCLUSIVE)).1.1 = SQLITE_OK ->
       ~ holds (w_os s') WAL_WRITE_LOCK)) s.
Proof.
  intros Hexcl Hrel Hwl. unfold sqlite3WalBeginWriteTransaction, live_hdr, get_wal, get_hdr. wp_pure.
  destruct (Z.eqb_spec (readOnly (w_wal s)) 0) as [Hro|Hro]; cbn [negb]; wp_pure.
  2:{ split_and!; try done. }
  unfold walLockExclusive, walUnlockExclusive, get_wal. wp_pure.
  destruct (Z.eqb_spec (exclusiveMode (w_wal s)) 0) as [Hx|Hx]; cbn [negb]; wp_pure.
  - destruct (xShmLock (w_os s) (w_sh s) WAL_WRITE_LOCK 1
                (Z.lor SQLITE_SHM_LOCK SQLITE_SHM_EXCLUSIVE)) as [[rc sh1] o1] eqn:El.
    eapply run_wp; [unfold os_lock; rewrite El; reflexivity|]. wp_pure.
    destruct (Z.eqb_spec rc SQLITE_OK) as [->|Hne]; cbn [negb]; wp_pure; world_simpl.
    2:{ rewrite bool_decide_false by done. split_and!; done. }
    case_bool_decide as Hh; cbn [negb]; wp_pure.
    + split_and!; try done. intros _. split_and!; try done. intros _. by eapply Hexcl.
    + cbn [set_writeLock exclusiveMode]. rewrite Hx. cbn [Z.eqb negb]. wp_pure.
      destruct (xShmLock o1 sh1 WAL_WRITE_LOCK 1 (Z.lor SQLITE_SHM_UNLOCK SQLITE_SHM_EXCLUSIVE))
        as [[rc2 sh2] o2] eqn:El2.
      eapply run_wp; [unfold os_lock; cbn; rewrite El2; reflexivity|]. wp_pure.
      split_and!; try done. intros _ _ _ _. by apply (Hrel _ _ _ El2).
  - cbn [Z.eqb negb SQLITE_OK]. wp_pure. world_simpl.
    case_bool_decide as Hh; cbn [negb]; wp_pure.
    + split_and!; try done.
    + cbn [set_writeLock exclusiveMode]. rewrite (proj2 (Z.eqb_neq _ _) Hx). cbn [negb]. wp_pure.
      split_and!; try done.
Qed.
End begin.

(** ** Instances *)

Definition rollback_world : World ByteFile (list Z) :=
  mkWorld (reader_wal 3)
    (mkShared (hset_mxFrame 1 hdr_zero) (hset_mxFrame 1 hdr_zero) (mkCkpt 0 [0; 1; 0; 0; 0] 0)
       (sample_idx [7; 9; 7])) (byte_file []) (byte_file []) aws_init [].

Lemma sqlite3WalUndo_correct_witness :
  wp (@sqlite3WalUndo ByteFile (list Z) sample_env (fun _ => SQLITE_OK)) (fun rc s' =>
    w_wal s' = set_hdr (sh_hdr0 (w_sh rollback_world)) (w_wal rollback_world) /\
    files_same rollback_world s' /\
    wi_ok (sh_idx (w_sh s')) [7] /\ ([9; 7] <> [] -> wi_clean (sh_idx (w_sh s')) [7]) /\
    ((forall p, p ∈ [9; 7] -> SQLITE_OK = SQLITE_OK) -> rc = SQLITE_OK)) rollback_world.
Proof.
  exact (@sqlite3WalUndo_correct ByteFile (list Z) sample_env (fun _ => SQLITE_OK) [7] [9; 7]
           rollback_world eq_refl (wi_clean_ok _ _ sample_idx_clean) eq_refl eq_refl eq_refl).
Defined.

Lemma sqlite3WalSavepointUndo_correct_witness :
  wp (@sqlite3WalSavepointUndo ByteFile (list Z) sample_env (1, (4, 5), 0)) (fun r s' =>
    r = (SQLITE_OK, (zlen [7], (4, 5), nCkpt (w_wal rollback_world))) /\
    files_same rollback_world s' /\
    h_mxFrame (hdr (w_wal s')) = zlen [7] /\ h_aFrameCksum (hdr (w_wal s')) = (4, 5) /\
    wi_clean (sh_idx (w_sh s')) [7]) rollback_world.
Proof.
  exact (@sqlite3WalSavepointUndo_correct ByteFile (list Z) sample_env 1 (4, 5) 0 [7] [9; 7]
           rollback_world (wi_clean_ok _ _ sample_idx_clean) eq_refl eq_refl
           ltac:(discriminate) eq_refl).
Defined.

Lemma begin_write_correct_witness :
  let s := mkWorld (set_writeLock false (reader_wal 3)) (w_sh rollback_world) (byte_file [])
             (byte_file []) aws_init [] in
  wp (@sqlite3WalBeginWriteTransaction ByteFile (list Z) _) (fun rc s' =>
    hdr (w_wal s') = hdr (w_wal s) /\ writeLock (w_wal s') = bool_decide (rc = SQLITE_OK) /\
    (rc = SQLITE_OK -> readOnly (w_wal s) = 0 /\ sh_hdr0 (w_sh s') = hdr (w_wal s) /\
       (exclusiveMode (w_wal s) = 0 -> held (w_os s') WAL_WRITE_LOCK)) /\
    (rc = SQLITE_BUSY_SNAPSHOT -> exclusiveMode (w_wal s) = 0 -> readOnly (w_wal s) = 0 ->
       (xShmLock (w_os s) (w_sh s) WAL_WRITE_LOCK 1
          (Z.lor SQLITE_SHM_LOCK SQLITE_SHM_EXCLUSIVE)).1.1 = SQLITE_OK ->
       ~ held (w_os s') WAL_WRITE_LOCK)) s.
Proof.
  intros s. apply (@begin_write_correct ByteFile (list Z) _ held).
  - intros o sh sh' o' E. injection E as <- <-. by left.
  - intros o sh r <- Hin.
    assert (WAL_WRITE_LOCK ∈ filter (fun b => b <> WAL_WRITE_LOCK) o)
      as [Hne _]%list_elem_of_filter by exact Hin. by apply Hne.
  - reflexivity.
Defined.
