(* ===== verification/WalCommit.v ===== *)
(** Commits: what [sqlite3WalFrames] leaves in the log file, in the wal-index
    and in the upload buffer, and that recovery finds it there. *)
From S2P Require Import Prelude.
From S2P Require Import Util.
From S2P Require Import Vfs.
From S2P Require Import Aws.
From S2P Require Import WalTypes.
From S2P Require Import WalFormat.
From S2P Require Import WalIndex.
From S2P Require Import WalState.
From S2P Require Import WalRecover.
From S2P Require Import WalRead.
From S2P Require Import WalWrite.
Open Scope Z_scope.

#[local] Opaque sqlite3Get4byte walChecksumBytes.
Local Abbreviation last := stdpp.list_basics.list.last.

(** * Bytes of a file that is written in pieces *)

Lemma slice_app_adj (L : list Z) off n m :
  0 <= off -> 0 <= n -> 0 <= m ->
  slice off n L ++ slice (off + n) m L = slice off (n + m) L.
Proof.
  intros. unfold slice. rewrite Z2Nat.inj_add, (Z2Nat.inj_add n) by lia.
  rewrite <- drop_drop. rewrite <- take_take_drop. done.
Qed.

(** Two writes next to each other are one. *)
Lemma splice_adj (L : list Z) off a b :
  0 <= off -> splice (splice L off a) (off + zlen a) b = splice L off (a ++ b).
Proof.
  intros Ho. set (o := Z.to_nat off). set (L0 := L ++ replicate (o - length L) 0).
  set (X := take o L0). set (D := drop (o + length a) L).
  assert (E : splice L off a = X ++ a ++ D) by done.
  assert (Hl : length (X ++ a) = (o + length a)%nat).
  { unfold X, L0. rewrite length_app, length_take, length_app, length_replicate. lia. }
  rewrite E. unfold splice.
  assert (Hz : Z.to_nat (off + zlen a) = (o + length a)%nat) by (unfold zlen, o; lia).
  rewrite Hz. fold o L0 X. rewrite !app_assoc. rewrite <- (app_assoc (X ++ a) D).
  rewrite take_app_length' by done. rewrite <- !app_assoc. do 3 f_equal.
  rewrite app_assoc, drop_app_ge by lia. rewrite Hl. unfold D. rewrite drop_drop. f_equal.
  rewrite length_app. lia.
Qed.

Lemma splice_bytes L off b : bytes_ok L -> bytes_ok b -> bytes_ok (splice L off b).
Proof.
  intros HL Hb. unfold splice. apply Forall_app_2; [|apply Forall_app_2; [done|by apply Forall_drop]].
  apply Forall_take, Forall_app_2; [done|]. apply Forall_replicate. unfold byte_ok. lia.
Qed.

(** * The frames of a log *)

Section chain.
Context (be : bool) (sz ord : Z) (salt : list Z).

(** [fs] are valid frames of [L] from number [k] on, after a frame with
    checksum [c]. *)
Fixpoint chain (L : list Z) (c : Z * Z) (k : Z) (fs : list (Z * Z * (Z * Z))) : Prop :=
  match fs with
  | [] => True
  | (p, t, c') :: fs => next_frame be sz ord salt L c k = Some (p, t, c') /\ chain L c' (k + 1) fs
  end.

(** The checksum after them. *)
Fixpoint lastck (c : Z * Z) (fs : list (Z * Z * (Z * Z))) : Z * Z :=
  match fs with
  | [] => c
  | (_, _, c') :: fs => lastck c' fs
  end.

Lemma chain_app L fs1 fs2 : forall c k,
  chain L c k (fs1 ++ fs2) <-> chain L c k fs1 /\ chain L (lastck c fs1) (k + zlen fs1) fs2.
Proof.
  induction fs1 as [|[[p t] c'] fs1 IH]; intros c k; cbn [app chain lastck].
  - rewrite (@zlen_nil (Z * Z * (Z * Z))), Z.add_0_r. naive_solver.
  - rewrite IH, zlen_cons. replace (k + (zlen fs1 + 1)) with (k + 1 + zlen fs1) by lia.
    naive_solver.
Qed.

Lemma lastck_app c fs1 fs2 : lastck c (fs1 ++ fs2) = lastck (lastck c fs1) fs2.
Proof. revert c. induction fs1 as [|[[p t] c'] fs1 IH]; intros c; [done|]. apply IH. Qed.

(** A scan finds them first. *)
Lemma chain_scan L fs : forall c k n,
  chain L c k fs -> (length fs <= n)%nat ->
  scan_log be sz ord salt L n c k =
  fs ++ scan_log be sz ord salt L (n - length fs) (lastck c fs) (k + zlen fs).
Proof.
  induction fs as [|[[p t] c'] fs IH]; intros c k n Hc Hn; cbn [app chain lastck] in *.
  - rewrite (@zlen_nil (Z * Z * (Z * Z))), Z.add_0_r. cbn [length]. by rewrite Nat.sub_0_r.
  - destruct Hc as [E Hc]. cbn [length] in Hn. destruct n as [|n]; [lia|].
    cbn [scan_log length Nat.sub]. rewrite E. f_equal.
    rewrite (IH c' (k + 1) n Hc ltac:(lia)). rewrite zlen_cons.
    by replace (k + 1 + zlen fs) with (k + (zlen fs + 1)) by lia.
Qed.

Lemma next_frame_same L L' c k :
  slice (walFrameOffset k sz) (sz + WAL_FRAME_HDRSIZE) L =
  slice (walFrameOffset k sz) (sz + WAL_FRAME_HDRSIZE) L' ->
  next_frame be sz ord salt L c k = next_frame be sz ord salt L' c k.
Proof. unfold next_frame. by intros ->. Qed.

Lemma frameOffset_S k : walFrameOffset (k + 1) sz = walFrameOffset k sz + (sz + 24).
Proof. unfold walFrameOffset, WAL_FRAME_HDRSIZE. lia. Qed.

Lemma frameOffset_mono j k : 0 <= sz -> j <= k -> walFrameOffset j sz <= walFrameOffset k sz.
Proof. unfold walFrameOffset, WAL_FRAME_HDRSIZE. nia. Qed.

Lemma frameOffset_pos k : 0 <= sz -> 1 <= k -> 32 <= walFrameOffset k sz.
Proof. unfold walFrameOffset, WAL_HDRSIZE, WAL_FRAME_HDRSIZE. nia. Qed.

(** Writing behind the frames leaves them alone. *)
Lemma chain_splice L off b fs : forall c k,
  0 <= sz -> 1 <= k -> walFrameOffset (k + zlen fs) sz <= off ->
  walFrameOffset (k + zlen fs) sz <= zlen L -> chain L c k fs -> chain (splice L off b) c k fs.
Proof.
  induction fs as [|[[p t] c'] fs IH]; intros c k Hsz Hk Hoff Hlen Hc; [done|].
  rewrite zlen_cons in *. pose proof (zlen_nonneg fs). destruct Hc as [E Hc].
  pose proof (frameOffset_pos k Hsz Hk).
  pose proof (frameOffset_mono (k + 1) (k + (zlen fs + 1)) Hsz ltac:(lia)) as Hm.
  rewrite frameOffset_S in Hm. split.
  - rewrite <- E. apply next_frame_same. unfold WAL_FRAME_HDRSIZE.
    apply slice_splice_before; lia.
  - apply IH; try done; try lia; by replace (k + 1 + zlen fs) with (k + (zlen fs + 1)) by lia.
Qed.

(** A frame that the encoder produced is valid where it was written. *)
Lemma encode_next w p t d L k f w' :
  wal_ok w -> iReCksum w = 0 -> szPage w = sz -> h_bigEndCksum (hdr w) = ord ->
  h_aSalt (hdr w) = salt -> 0 < p < 2 ^ 32 -> 0 <= t < 2 ^ 32 -> bytes_ok d -> zlen d = sz ->
  walEncodeFrame be w p t d = Some (f, w') ->
  slice (walFrameOffset k sz) (sz + 24) L = f ++ d ->
  zlen f = 24 /\ next_frame be sz ord salt L (h_aFrameCksum (hdr w)) k
    = Some (p, t, h_aFrameCksum (hdr w')).
Proof.
  intros Hw Hr Es Eo Ea Hp Ht Hd Hl E Esl.
  destruct (frame_decodes be be w p t d) as (f' & w'' & E' & Hf & Hdec); try done; [by rewrite Es|].
  rewrite E in E'. injection E' as <- <-. split; [unfold zlen; lia|].
  unfold next_frame, WAL_FRAME_HDRSIZE. rewrite Esl.
  unfold at_off. change (Z.to_nat 24) with 24%nat.
  rewrite drop_app_length', take_app_length' by done.
  rewrite walDecodeFrame_handle, Es, Eo, Ea in Hdec.
  destruct (walDecodeFrame be (log_handle sz ord salt _) d f) as [[r w2]|]; [|done].
  injection Hdec as -> <-. done.
Qed.
End chain.

(** * Writing to the log *)

Section writing.
Context {F OS : Type} `{VFile F} `{WalOS OS} (AWS : Z).
Local Abbreviation W := (World F OS).

Lemma wp_log_write b off (Q : Z -> W -> Prop) s :
  0 <= off ->
  (forall rc f', (rc = SQLITE_OK -> content f' = splice (content (w_log s)) off b) ->
     Q rc (mkWorld (w_wal s) (w_sh s) f' (w_db s) (w_aws s) (w_os s))) ->
  wp (log_write b off) Q s.
Proof.
  intros Ho HQ. unfold log_write. wp_pure.
  destruct (xWrite (w_log s) b off) as [rc f'] eqn:E. wp_pure. apply HQ.
  intros ->. by apply (xWrite_ok (w_log s)).
Qed.

Lemma wp_log_sync fl (Q : Z -> W -> Prop) s :
  (forall rc f', (rc = SQLITE_OK -> content f' = content (w_log s)) ->
     Q rc (mkWorld (w_wal s) (w_sh s) f' (w_db s) (w_aws s) (w_os s))) ->
  wp (log_sync fl) Q s.
Proof.
  intros HQ. unfold log_sync. wp_pure.
  destruct (xSync (w_log s) fl) as [rc f'] eqn:E. wp_pure. apply HQ.
  intros ->. by eapply xSync_ok.
Qed.

(** The write is split by the sync point. *)
Definition splits (p : WalWriter) (b : list Z) (off : Z) : bool :=
  (off <? iSyncPoint p) && (off + zlen b >=? iSyncPoint p).

(** What of [b] reaches the upload buffer: all of it, or what follows the sync
    point. *)
Definition copied (p : WalWriter) (b : list Z) (off : Z) : list Z :=
  if splits p b off then drop (Z.to_nat (iSyncPoint p - off)) b else b.

Definition room (n : Z) (s : W) : Prop := AWS = 2 -> aws_room n (w_aws s).

(** The upload buffer after bytes were copied to it. *)
Definition uploaded (b : list Z) (n : Z) (a a' : Aws) : Prop :=
  if AWS =? 2 then
    pending a' = pending a ++ b /\ aws_off a' = aws_off a + zlen b /\
    cur_aws_off a' = cur_aws_off a /\ awsfile a' = awsfile a /\ aws_room n a'
  else a' = a.

Lemma wp_write_rest b off n (Q : Z -> W -> Prop) s :
  0 <= off -> 0 <= n -> room (zlen b + n) s ->
  (forall rc f' a', (rc = SQLITE_OK -> content f' = splice (content (w_log s)) off b) ->
     uploaded b n (w_aws s) a' ->
     Q rc (mkWorld (w_wal s) (w_sh s) f' (w_db s) a' (w_os s))) ->
  wp (write_rest AWS b off) Q s.
Proof.
  intros Ho Hn Hroom HQ. unfold write_rest. wp_pure. apply wp_log_write; [done|].
  intros rc f' Hf. wp_pure. unfold uploaded in HQ.
  destruct (Z.eqb_spec AWS 2) as [E|Hne].
  - destruct (aws_append_ok b (w_aws s) n (Hroom E) Hn)
      as (a' & Ea & Hp & Hof & Hc & Hfile & Hr).
    eapply run_wp; [unfold upd_aws; cbn [w_aws]; rewrite Ea; reflexivity|]. wp_pure.
    apply HQ; [done|]. by split_and!.
  - wp_pure. by apply HQ.
Qed.

Lemma wp_walWriteToLog p b off n (Q : Z -> W -> Prop) s :
  0 <= off -> 0 <= n -> zlen b < 2 ^ 31 -> room (zlen b + n) s ->
  (forall rc f' a', (rc = SQLITE_OK -> content f' = splice (content (w_log s)) off b) ->
     (rc = SQLITE_OK -> uploaded (copied p b off) n (w_aws s) a') ->
     Q rc (mkWorld (w_wal s) (w_sh s) f' (w_db s) a' (w_os s))) ->
  wp (walWriteToLog AWS p b off) Q s.
Proof.
  intros Ho Hn Hb Hroom HQ. unfold walWriteToLog. pose proof (zlen_nonneg b).
  unfold copied, splits in HQ.
  destruct ((off <? iSyncPoint p) && (off + zlen b >=? iSyncPoint p)) eqn:Hs.
  - apply andb_true_iff in Hs as [Hs1%Z.ltb_lt Hs2%Z.geb_le].
    set (k := iSyncPoint p - off) in *. rewrite (i32_small k) by lia.
    assert (Hzt : zlen (take (Z.to_nat k) b) = k) by (apply zlen_take; lia).
    wp_pure. apply wp_log_write; [done|]. intros rc f1 Hf1. wp_pure.
    destruct (Z.eqb_spec rc SQLITE_OK) as [->|Hne]; cbn [negb]; wp_pure.
    2:{ apply HQ; done. }
    apply wp_log_sync. intros rc2 f2 Hf2. cbn [w_log] in Hf2.
    specialize (Hf1 eq_refl).
    destruct (Z.eqb_spec (zlen b - k) 0) as [Hz|Hz]; cbn [orb].
    + wp_pure. apply HQ.
      * intros ->. rewrite Hf2, Hf1 by done. f_equal. apply take_ge. unfold zlen in *. lia.
      * intros _. rewrite drop_ge by (unfold zlen in *; lia). unfold uploaded, room in *.
        destruct (Z.eqb_spec AWS 2) as [E|]; [|done]. rewrite app_nil_r, (@zlen_nil Z), Z.add_0_r.
        split_and!; try done. eapply aws_room_weaken; [|by apply Hroom]. lia.
    + destruct (Z.eqb_spec rc2 SQLITE_OK) as [->|Hne]; cbn [negb]; wp_pure.
      2:{ apply HQ; done. }
      assert (Hzd : zlen (drop (Z.to_nat k) b) = zlen b - k).
      { unfold zlen in *. rewrite length_drop. lia. }
      apply (wp_write_rest _ _ n); [lia|done| |].
      * intros E. rewrite Hzd. eapply aws_room_weaken; [|by apply Hroom]. lia.
      * intros rc f' a' Hf' Ha. apply HQ; [|by intros _].
        intros ->. rewrite Hf' by done. cbn [w_log]. rewrite Hf2, Hf1 by done.
        rewrite <- Hzt at 2. rewrite splice_adj by done. by rewrite take_drop.
  - apply (wp_write_rest _ _ n); try done. intros rc f' a' Hf' Ha. apply HQ; [done|by intros _].
Qed.
End writing.

(** * Frames *)

Definition page_ok (sz : Z) (pg : PgHdr) : Prop :=
  0 < pg_pgno pg < 2 ^ 32 /\ bytes_ok (pg_data pg) /\ zlen (pg_data pg) = sz.

Section frames.
Context {F OS : Type} `{VFile F} `{WalOS OS} (be : bool) (AWS : Z).
Local Abbreviation W := (World F OS).
Local Abbreviation log s := (content (w_log s)).

(** The log: page size, byte order, salt, checksum of its header. *)
Context (sz ord : Z) (salt : list Z) (c0 : Z * Z).

(** The end of [n] frames. *)
Definition frames_end (n : Z) : Z := walFrameOffset (n + 1) sz.

(** The handle [s] has written the frames [fs] to the log. *)
Record logging (s : W) (fs : list (Z * Z * (Z * Z))) : Prop := {
  lg_sz : szPage (w_wal s) = sz;
  lg_ok : wal_ok (w_wal s);
  lg_re : iReCksum (w_wal s) = 0;
  lg_ord : h_bigEndCksum (hdr (w_wal s)) = ord;
  lg_salt : h_aSalt (hdr (w_wal s)) = salt;
  lg_bytes : bytes_ok (log s);
  lg_len : frames_end (zlen fs) <= zlen (log s);
  lg_hdr : good_header (log s) sz ord salt c0;
  lg_chain : chain be sz ord salt (log s) c0 1 fs;
  lg_ck : h_aFrameCksum (hdr (w_wal s)) = lastck c0 fs;
}.

(** The upload buffer holds [P0] and the bytes of the frames after the first
    [k0]. *)
Definition mirror (k0 : Z) (P0 : list Z) (s : W) (fs : list (Z * Z * (Z * Z))) : Prop :=
  AWS = 2 -> 0 <= k0 <= zlen fs /\
    pending (w_aws s) = P0 ++ slice (frames_end k0) (frames_end (zlen fs) - frames_end k0) (log s).

(** What writing frames leaves alone. *)
Definition frames_only (s s' : W) : Prop :=
  (exists c, w_wal s' = set_hdr (hset_aFrameCksum c (hdr (w_wal s))) (w_wal s)) /\
  w_sh s' = w_sh s /\ w_db s' = w_db s /\ w_os s' = w_os s /\
  cur_aws_off (w_aws s') = cur_aws_off (w_aws s) /\ awsfile (w_aws s') = awsfile (w_aws s).

Lemma frames_only_refl s : frames_only s s.
Proof.
  split_and!; try done. exists (h_aFrameCksum (hdr (w_wal s))).
  by destruct s as [[????????????[]] ?????].
Qed.

Lemma frames_only_trans s1 s2 s3 : frames_only s1 s2 -> frames_only s2 s3 -> frames_only s1 s3.
Proof.
  intros ([c E] & E1 & E2 & E3 & E4 & E5) ([c' E'] & E1' & E2' & E3' & E4' & E5').
  split_and!; try congruence. exists c'. rewrite E', E. done.
Qed.

Lemma uploaded_meta b n a a' :
  uploaded AWS b n a a' -> cur_aws_off a' = cur_aws_off a /\ awsfile a' = awsfile a.
Proof. unfold uploaded. destruct (AWS =? 2); [by intros (_ & _ & ? & ? & _)|by intros ->]. Qed.

Lemma uploaded_room b n a a' : uploaded AWS b n a a' -> AWS = 2 -> aws_room n a'.
Proof. unfold uploaded. intros Hu ->. by destruct Hu as (_ & _ & _ & _ & ?). Qed.

(** The header survives writes behind it. *)
Lemma good_header_splice (L : list Z) off b :
  32 <= off -> 32 <= zlen L -> good_header L sz ord salt c0 ->
  good_header (splice L off b) sz ord salt c0.
Proof.
  intros Ho HL Hg. assert (slice 0 32 (splice L off b) = slice 0 32 L) as E
    by (apply slice_splice_before; lia).
  destruct Hg. by constructor; rewrite ?E.
Qed.

Lemma mirror_step k0 P0 s s' fs fr f d :
  0 <= sz -> mirror k0 P0 s fs -> zlen f = 24 -> zlen d = sz ->
  frames_end (zlen fs) <= zlen (log s) ->
  log s' = splice (log s) (frames_end (zlen fs)) (f ++ d) ->
  (AWS = 2 -> pending (w_aws s') = pending (w_aws s) ++ f ++ d) ->
  mirror k0 P0 s' (fs ++ [fr]).
Proof.
  intros Hsz Hm Hf Hd Hl El Hp HA. destruct (Hm HA) as [Hk E]. pose proof (zlen_nonneg fs).
  rewrite zlen_app. change (zlen [fr]) with 1. split; [lia|].
  rewrite Hp, E, <- app_assoc by done. f_equal.
  assert (Hk2 : frames_end k0 <= frames_end (zlen fs)) by (apply frameOffset_mono; lia).
  assert (Hk1 : 32 <= frames_end k0) by (apply frameOffset_pos; lia).
  assert (He : frames_end (zlen fs + 1) = frames_end (zlen fs) + (sz + 24)) by apply frameOffset_S.
  rewrite He. replace (frames_end (zlen fs) + (sz + 24) - frames_end k0)
    with (frames_end (zlen fs) - frames_end k0 + (24 + sz)) by lia.
  rewrite <- slice_app_adj by lia. f_equal.
  - rewrite El. symmetry. apply slice_splice_before; lia.
  - replace (frames_end k0 + (frames_end (zlen fs) - frames_end k0)) with (frames_end (zlen fs)) by lia.
    rewrite El. replace (24 + sz) with (zlen (f ++ d)) by (rewrite zlen_app; lia).
    by rewrite slice_splice_same by lia.
Qed.

(** The first [n] frames are as they were. *)
Definition keeps (n : Z) (s s' : W) : Prop :=
  forall o m, 0 <= o -> 0 <= m -> o + m <= frames_end n -> slice o m (log s') = slice o m (log s).

(** The frames after the first [k] hold the pages [ps]. *)
Definition holds_pages (k : Z) (ps : list PgHdr) (s : W) : Prop :=
  forall i pg, ps !! i = Some pg ->
    slice (frames_end (k + Z.of_nat i) + WAL_FRAME_HDRSIZE) sz (log s) = pg_data pg.

Lemma keeps_trans n m s1 s2 s3 :
  0 <= sz -> n <= m -> keeps n s1 s2 -> keeps m s2 s3 -> keeps n s1 s3.
Proof.
  intros Hsz Hnm H1 H2 o l Ho Hl Hol.
  assert (frames_end n <= frames_end m) by (apply frameOffset_mono; lia).
  rewrite H2 by lia. by apply H1.
Qed.

Lemma holds_pages_keep k m ps s s' :
  0 <= sz -> 0 <= k -> k + zlen ps <= m -> keeps m s s' -> holds_pages k ps s -> holds_pages k ps s'.
Proof.
  intros Hsz Hk Hm Hkeep Hp i pg Hi. rewrite <- (Hp i pg Hi).
  apply lookup_lt_Some in Hi. unfold zlen in Hm.
  pose proof (frameOffset_mono sz (k + Z.of_nat i + 1 + 1) (m + 1) Hsz ltac:(lia)) as Hmo.
  rewrite frameOffset_S in Hmo.
  pose proof (frameOffset_pos sz (k + Z.of_nat i + 1) Hsz ltac:(lia)).
  apply Hkeep; unfold frames_end, WAL_FRAME_HDRSIZE in *; lia.
Qed.

Lemma keeps_same n s s' : log s' = log s -> keeps n s s'.
Proof. intros E o m _ _ _. by rewrite E. Qed.

(** What one more frame means for [s]. *)
Record framed (p : WalWriter) (n : Z) (s s' : W) (fs : list (Z * Z * (Z * Z)))
    (fr : Z * Z * (Z * Z)) (data : list Z) : Prop := {
  fr_logging : logging s' (fs ++ [fr]);
  fr_only : frames_only s s';
  fr_room : room AWS n s';
  fr_mirror k0 P0 : iSyncPoint p <= frames_end (zlen fs) -> mirror k0 P0 s fs ->
    mirror k0 P0 s' (fs ++ [fr]);
  fr_keeps : keeps (zlen fs) s s';
  fr_data : slice (frames_end (zlen fs) + WAL_FRAME_HDRSIZE) sz (log s') = data;
}.

Lemma wp_walWriteOneFrame p pg t n fs (Q : Z -> W -> Prop) s :
  logging s fs -> page_ok sz pg -> 0 <= t < 2 ^ 32 -> wr_szPage p = sz -> 0 <= n ->
  room AWS (sz + 24 + n) s ->
  (forall rc s', (rc = SQLITE_OK -> exists c, framed p n s s' fs (pg_pgno pg, t, c) (pg_data pg)) -> Q rc s') ->
  wp (walWriteOneFrame be AWS p pg t (frames_end (zlen fs))) Q s.
Proof.
  intros Hlg (Hpg & Hd & Hdl) Ht Hsz Hn Hroom HQ. unfold walWriteOneFrame, get_wal. wp_pure.
  pose proof (page_size_mult8 _ (wal_ok_page _ (lg_ok _ _ Hlg))) as [_ Hszr].
  rewrite (lg_sz _ _ Hlg) in Hszr. pose proof (zlen_nonneg fs).
  set (ck := next_cksum (w_wal s) (pg_pgno pg) t (pg_data pg)).
  set (f := frame_image (w_wal s) (pg_pgno pg) t ck).
  set (w' := set_hdr (hset_aFrameCksum ck (hdr (w_wal s))) (w_wal s)).
  assert (Eenc : walEncodeFrame be (w_wal s) (pg_pgno pg) t (pg_data pg) = Some (f, w')).
  { apply walEncodeFrame_spec; [apply (lg_ok _ _ Hlg)|apply (lg_re _ _ Hlg)|done|].
    by rewrite (lg_sz _ _ Hlg). }
  rewrite (wp_of_option _ _ _ _ Eenc). wp_pure.
  assert (Hoff : 32 <= frames_end (zlen fs)) by (apply frameOffset_pos; lia).
  destruct (wal_ok_salt _ (lg_ok _ _ Hlg)) as [Hsb Hsl].
  assert (Hfl : zlen f = 24).
  { unfold f, frame_image, zlen. rewrite !length_app, !length_Put4byte, Hsl. done. }
  assert (Hfb : bytes_ok f).
  { unfold f, frame_image. repeat apply Forall_app_2; auto with carray. }
  apply (wp_walWriteToLog AWS p f _ (sz + n)); [lia|lia|lia| |].
  { intros HA. rewrite Hfl. replace (24 + (sz + n)) with (sz + 24 + n) by lia. by apply Hroom. }
  intros rc f1 a1 Hf1 Ha1. wp_pure.
  destruct (Z.eqb_spec rc SQLITE_OK) as [->|Hne]; cbn [negb]; wp_pure.
  2:{ apply HQ. done. }
  specialize (Hf1 eq_refl). specialize (Ha1 eq_refl). cbn [w_log w_aws] in Hf1, Ha1.
  unfold buffer. rewrite Hsz. rewrite (proj2 (Z.leb_le _ _)) by lia.
  rewrite (wp_of_option _ _ _ _ eq_refl). rewrite <- Hdl at 1.
  rewrite take_ge by (unfold zlen; lia).
  apply (wp_walWriteToLog AWS p (pg_data pg) _ n); [unfold WAL_FRAME_HDRSIZE; lia|lia|lia| |].
  { intros HA. rewrite Hdl. by apply (uploaded_room _ _ _ _ Ha1). }
  intros rc f2 a2 Hf2 Ha2. apply HQ. intros ->. cbn [w_log w_aws] in Hf2, Ha2.
  specialize (Hf2 eq_refl). specialize (Ha2 eq_refl). exists ck.
  assert (Hlog : content f2 = splice (log s) (frames_end (zlen fs)) (f ++ pg_data pg)).
  { rewrite Hf2, Hf1. unfold WAL_FRAME_HDRSIZE. rewrite <- Hfl at 1. by rewrite splice_adj by lia. }
  assert (Hall : zlen (f ++ pg_data pg) = sz + 24) by (rewrite zlen_app; lia).
  pose proof (lg_len _ _ Hlg) as Hlen.
  assert (Hend : frames_end (zlen (fs ++ [(pg_pgno pg, t, ck)])) = frames_end (zlen fs) + (sz + 24)).
  { rewrite zlen_app. apply frameOffset_S. }
  constructor.
  - constructor; cbn [w_wal w_log]; try apply Hlg.
    + apply wal_ok_run; [apply (lg_ok _ _ Hlg)|]. apply frame_cksum_ok, (lg_ok _ _ Hlg).
    + rewrite Hlog. apply splice_bytes; [apply (lg_bytes _ _ Hlg)|by apply Forall_app_2].
    + rewrite Hlog, zlen_splice, Hend by lia. lia.
    + rewrite Hlog. apply good_header_splice; [lia|lia|apply (lg_hdr _ _ Hlg)].
    + apply chain_app. rewrite Hlog. split.
      { unfold frames_end in *. replace (zlen fs + 1) with (1 + zlen fs) in * by lia.
        apply chain_splice; try lia. apply (lg_chain _ _ Hlg). }
      cbn [chain]. split; [|done]. rewrite <- (lg_ck _ _ Hlg).
      apply (encode_next be sz ord salt (w_wal s) (pg_pgno pg) t (pg_data pg) _ (1 + zlen fs) f w');
        try apply Hlg; try done.
      replace (1 + zlen fs) with (zlen fs + 1) by lia. rewrite <- Hall.
      fold (frames_end (zlen fs)). apply slice_splice_same. lia.
    + rewrite lastck_app. done.
  - split_and!; cbn; try done.
    + by exists ck.
    + rewrite (proj1 (uploaded_meta _ _ _ _ Ha2)). apply (uploaded_meta _ _ _ _ Ha1).
    + rewrite (proj2 (uploaded_meta _ _ _ _ Ha2)). apply (uploaded_meta _ _ _ _ Ha1).
  - intros HA. by apply (uploaded_room _ _ _ _ Ha2).
  - intros k0 P0 Hsp Hm. eapply (mirror_step k0 P0 s _ fs _ f (pg_data pg)); try done; [lia|].
    intros HA. cbn [w_aws]. unfold uploaded in Ha1, Ha2. rewrite HA in Ha1, Ha2.
    cbn [Z.eqb Pos.eqb] in Ha1, Ha2.
    destruct Ha1 as (E1 & _), Ha2 as (E2 & _). rewrite E2, E1, <- app_assoc.
    unfold copied, splits, WAL_FRAME_HDRSIZE.
    rewrite !(proj2 (Z.ltb_ge _ _)) by lia. done.
  - intros o m Ho Hm Hom. cbn [w_log]. rewrite Hlog. apply slice_splice_before; lia.
  - cbn [w_log]. rewrite Hf2, <- Hdl. apply slice_splice_same. unfold WAL_FRAME_HDRSIZE. lia.
Qed.

(** Several more frames: the pages [ps], the last one with the commit size
    [t]. *)
Record framed_all (p : WalWriter) (n : Z) (s s' : W) (fs new : list (Z * Z * (Z * Z)))
    (ps : list PgHdr) (t : Z) : Prop := {
  fa_logging : logging s' (fs ++ new);
  fa_only : frames_only s s';
  fa_room : room AWS n s';
  fa_mirror k0 P0 : iSyncPoint p <= frames_end (zlen fs) -> mirror k0 P0 s fs ->
    mirror k0 P0 s' (fs ++ new);
  fa_pages : frame_pgno <$> new = pg_pgno <$> ps;
  fa_keeps : keeps (zlen fs) s s';
  fa_data : holds_pages (zlen fs) ps s';
  fa_commit : new <> [] -> exists q c, last new = Some (q, t, c);
}.

Lemma framed_all_nil p n s fs t :
  logging s fs -> room AWS n s -> framed_all p n s s fs [] [] t.
Proof.
  intros Hl Hr. constructor; rewrite ?app_nil_r; try done. apply frames_only_refl.
Qed.

Lemma framed_cons p n m s s1 s2 fs pg t1 c new ps t :
  framed p m s s1 fs (pg_pgno pg, t1, c) (pg_data pg) ->
  framed_all p n s1 s2 (fs ++ [(pg_pgno pg, t1, c)]) new ps t ->
  (new = [] -> t1 = t) -> 0 <= sz ->
  framed_all p n s s2 fs ((pg_pgno pg, t1, c) :: new) (pg :: ps) t.
Proof.
  intros Hf Ha Ht Hsz. constructor.
  - pose proof (fa_logging _ _ _ _ _ _ _ _ Ha) as Hl. by rewrite <- app_assoc in Hl.
  - eapply frames_only_trans; [apply Hf|apply Ha].
  - apply Ha.
  - intros k0 P0 Hsp Hm. pose proof (fa_mirror _ _ _ _ _ _ _ _ Ha k0 P0) as Hm2.
    rewrite <- app_assoc in Hm2. apply Hm2; [|by apply Hf].
    etransitivity; [done|]. apply frameOffset_mono; [done|]. rewrite zlen_app.
    pose proof (zlen_nonneg [(pg_pgno pg, t1, c)]). lia.
  - cbn. by rewrite (fa_pages _ _ _ _ _ _ _ _ Ha).
  - eapply keeps_trans; [done| |apply Hf|apply Ha]. rewrite zlen_app.
    pose proof (zlen_nonneg [(pg_pgno pg, t1, c)]). lia.
  - pose proof (fa_data _ _ _ _ _ _ _ _ Ha) as Hd. pose proof (fa_keeps _ _ _ _ _ _ _ _ Ha) as Hk.
    assert (Hz : zlen (fs ++ [(pg_pgno pg, t1, c)]) = zlen fs + 1) by (rewrite zlen_app; done).
    rewrite Hz in Hd, Hk. pose proof (zlen_nonneg fs). intros [|i] pg' Hi.
    + injection Hi as <-. rewrite Z.add_0_r. rewrite <- (fr_data _ _ _ _ _ _ _ Hf).
      pose proof (frameOffset_S sz (zlen fs + 1)).
      pose proof (frameOffset_pos sz (zlen fs + 1) ltac:(lia) ltac:(lia)).
      apply Hk; unfold frames_end, WAL_FRAME_HDRSIZE in *; lia.
    + rewrite Nat2Z.inj_succ. replace (zlen fs + Z.succ (Z.of_nat i)) with (zlen fs + 1 + Z.of_nat i) by lia.
      by apply Hd.
  - intros _. destruct new as [|fr new].
    + exists (pg_pgno pg), c. by rewrite <- Ht.
    + rewrite last_cons_cons. by apply Ha.
Qed.

(** The pages of a list, none of which overwrites a frame. *)
Lemma wp_write_frames `{!ShmEnv} (p : WalWriter) t (isCommit : bool) n (pList : list PgHdr) :
  forall (Q : Z * list PgHdr * Writing -> W -> Prop) (s : W) fs (pl : option PgHdr),
  logging s fs -> Forall (page_ok sz) pList -> 0 <= t < 2 ^ 32 ->
  wr_szPage p = sz -> 0 <= n -> zlen fs + zlen pList < FRAME_MAX ->
  room AWS (zlen pList * (sz + 24) + n) s ->
  (forall r s',
     (r.1.1 = SQLITE_OK -> exists new,
        r.1.2 = (pg_set_append true <$> pList) /\
        framed_all p n s s' fs new pList (if isCommit then t else 0) /\
        wg_iFrame r.2 = zlen (fs ++ new) /\ wg_iOffset r.2 = frames_end (zlen (fs ++ new)) /\
        wg_pLast r.2 = match last pList with
                       | Some pg => Some (pg_set_append true pg) | None => pl end) ->
     Q r s') ->
  wp (write_frames be AWS p sz t isCommit 0
        (mkWriting (zlen fs) (frames_end (zlen fs)) pl) pList) Q s.
Proof.
  induction pList as [|pg rest IH]; intros Q s fs pl Hlg Hps Ht Hp Hn Hmax Hroom HQ;
    cbn [write_frames].
  - wp_pure. apply HQ. intros _. exists []. rewrite app_nil_r. split_and!; try done.
    by apply framed_all_nil.
  - apply Forall_cons_1 in Hps as [Hpg Hps]. rewrite zlen_cons in *.
    pose proof (zlen_nonneg rest) as Hr0. pose proof (zlen_nonneg fs) as Hf0.
    pose proof (page_size_mult8 _ (wal_ok_page _ (lg_ok _ _ Hlg))) as [_ Hszr].
    rewrite (lg_sz _ _ Hlg) in Hszr.
    unfold find_overwrite. cbn [negb Z.eqb andb]. wp_pure. cbn [negb Z.eqb]. wp_pure.
    set (t1 := if isCommit && bool_decide (rest = []) then t else 0).
    cbn [wg_iOffset wg_iFrame].
    apply (wp_walWriteOneFrame p pg t1 (zlen rest * (sz + 24) + n) fs); try done; try lia.
    { unfold t1. destruct (_ && _); lia. }
    { intros HA. replace (sz + 24 + (zlen rest * (sz + 24) + n))
        with ((zlen rest + 1) * (sz + 24) + n) by lia. by apply Hroom. }
    intros rc s1 Hf. wp_pure. destruct (Z.eqb_spec rc SQLITE_OK) as [->|Hne]; cbn [negb]; wp_pure.
    2:{ apply HQ. cbn. done. }
    destruct (Hf eq_refl) as [c Hfr]. set (fr := (pg_pgno pg, t1, c)) in *.
    assert (zlen (fs ++ [fr]) = zlen fs + 1) as Hz by (rewrite zlen_app; done).
    unfold FRAME_MAX in *. rewrite u32_small by lia.
    unfold WAL_FRAME_HDRSIZE.
    assert (frames_end (zlen fs) + (sz + 24) = frames_end (zlen (fs ++ [fr]))) as ->
      by (rewrite Hz; symmetry; apply frameOffset_S).
    rewrite <- Hz. apply IH; try done; try lia; [apply Hfr|apply Hfr|].
    intros [[rc2 pl2] g2] s2 Hr. wp_pure. apply HQ. cbn [fst snd] in *. intros ->.
    destruct (Hr eq_refl) as (new & -> & Hfa & E1 & E2 & E3).
    exists (fr :: new). split; [done|]. split_and!.
    + apply (framed_cons p n (zlen rest * (sz + 24) + n) s s1 s2); try done; [|lia]. intros ->. unfold t1.
      assert (rest = []) as ->.
      { pose proof (fa_pages _ _ _ _ _ _ _ _ Hfa) as Ep. destruct rest; [done|]. discriminate Ep. }
      rewrite bool_decide_true by done. by destruct isCommit.
    + rewrite E1. f_equal. by rewrite <- app_assoc.
    + rewrite E2. do 2 f_equal. by rewrite <- app_assoc.
    + rewrite E3. destruct rest as [|pg2 rest]; [done|]. rewrite last_cons_cons.
      destruct (last (pg2 :: rest)) eqn:El; [done|]. by apply last_None in El.
Qed.

(** Bytes that may be written when the sync point is [left] bytes away. *)
Definition pad_bytes (left : Z) : Z := if left <=? 0 then 0 else left + (sz + 24).

(** The padding repeats the last page until the sync point is reached. *)
Lemma wp_pad_loop p t pg n fuel : forall (Q : Z * Z * Z -> W -> Prop) (s : W) fs nExtra,
  logging s fs -> page_ok sz pg -> 0 < t < 2 ^ 32 -> wr_szPage p = sz -> 0 <= n ->
  zlen fs + Z.max 0 (iSyncPoint p - frames_end (zlen fs)) < FRAME_MAX ->
  Z.max 0 (iSyncPoint p - frames_end (zlen fs)) < Z.of_nat fuel ->
  room AWS (pad_bytes (iSyncPoint p - frames_end (zlen fs)) + n) s ->
  (forall r s', (r.1.1 = SQLITE_OK -> exists new,
       framed_all p n s s' fs new (replicate (length new) pg) t /\
       r.2 = nExtra + zlen new /\
       zlen new <= Z.max 0 (iSyncPoint p - frames_end (zlen fs))) -> Q r s') ->
  wp (pad_loop be AWS fuel p t (sz + 24) (Some pg) (frames_end (zlen fs)) nExtra) Q s.
Proof.
  induction fuel as [|fuel IH]; intros Q s fs nExtra Hlg Hpg Ht Hp Hn Hmax Hfuel Hroom HQ;
    cbn [pad_loop].
  all: pose proof (page_size_mult8 _ (wal_ok_page _ (lg_ok _ _ Hlg))) as [_ Hszr];
    rewrite (lg_sz _ _ Hlg) in Hszr; pose proof (zlen_nonneg fs) as Hf0;
    pose proof (frameOffset_pos sz (zlen fs + 1) ltac:(lia) ltac:(lia)) as Hpos;
    fold (frames_end (zlen fs)) in Hpos.
  - lia.
  - destruct (Z.ltb_spec (frames_end (zlen fs)) (iSyncPoint p)) as [Hlt|Hge].
    2:{ wp_pure. apply HQ. intros _. exists [].
        cbn [fst snd length replicate]. rewrite (@zlen_nil (Z * Z * (Z * Z))). split_and!; [|lia|lia].
        apply framed_all_nil; [done|]. intros HA. eapply aws_room_weaken; [|by apply Hroom].
        unfold pad_bytes. destruct (Z.leb_spec (iSyncPoint p - frames_end (zlen fs)) 0); lia. }
    wp_pure. rewrite (wp_of_option _ _ _ _ eq_refl). wp_pure.
    set (left := iSyncPoint p - frames_end (zlen fs)) in *.
    apply (wp_walWriteOneFrame p pg t (pad_bytes (left - (sz + 24)) + n) fs);
      try done; try lia.
    { unfold pad_bytes. destruct (Z.leb_spec (left - (sz + 24)) 0); lia. }
    { intros HA. eapply aws_room_weaken; [|by apply Hroom]. unfold pad_bytes.
      destruct (Z.leb_spec (left - (sz + 24)) 0), (Z.leb_spec left 0); lia. }
    intros rc s1 Hf. wp_pure. destruct (Z.eqb_spec rc SQLITE_OK) as [->|Hne]; cbn [negb]; wp_pure.
    2:{ apply HQ. done. }
    destruct (Hf eq_refl) as [c Hfr]. set (fr := (pg_pgno pg, t, c)) in *.
    assert (zlen (fs ++ [fr]) = zlen fs + 1) as Hz by (rewrite zlen_app; done).
    assert (frames_end (zlen (fs ++ [fr])) = frames_end (zlen fs) + (sz + 24)) as He
      by (rewrite Hz; apply frameOffset_S).
    rewrite <- He. assert (iSyncPoint p - frames_end (zlen (fs ++ [fr])) = left - (sz + 24)) as Hl
      by (unfold left; lia).
    apply IH; rewrite ?Hl; try done; try lia; [apply Hfr|apply Hfr|].
    intros r s2 Hr. apply HQ. intros Hrc. destruct (Hr Hrc) as (new & Hfa & E2 & Hle).
    exists (fr :: new). rewrite zlen_cons. split_and!; [|lia|].
    + cbn [length replicate].
      apply (framed_cons p n (pad_bytes (left - (sz + 24)) + n) s s1 s2); try done. lia.
    + fold left. pose proof (zlen_nonneg new). lia.
Qed.

(** Only the content of the log file matters. *)
Lemma logging_same s s' fs :
  w_wal s' = w_wal s -> content (w_log s') = log s -> logging s fs -> logging s' fs.
Proof. intros Ew El []. constructor; rewrite ?Ew, ?El; done. Qed.

Lemma mirror_same k0 P0 s s' fs :
  w_aws s' = w_aws s -> content (w_log s') = log s -> mirror k0 P0 s fs -> mirror k0 P0 s' fs.
Proof. intros Ea El Hm HA. rewrite Ea, El. by apply Hm. Qed.

(** The padding of a commit: copies of its last page, at most a sector. *)
Record padded (n : Z) (s s' : W) (fs new : list (Z * Z * (Z * Z))) (pgno t : Z) : Prop := {
  pd_logging : logging s' (fs ++ new);
  pd_only : frames_only s s';
  pd_room : room AWS n s';
  pd_pages : frame_pgno <$> new = replicate (length new) pgno;
  pd_keeps : keeps (zlen fs) s s';
  pd_commit : new <> [] -> exists q c, last new = Some (q, t, c);
  pd_none : padToSectorBoundary (w_wal s) = false -> new = [] /\
    forall k0 P0, mirror k0 P0 s fs -> mirror k0 P0 s' fs;
}.

Definition SECTOR_MAX : Z := 65536.

Lemma wp_finish_frames p t pg n (Q : Z * Z * bool -> W -> Prop) (s : W) fs :
  logging s fs -> page_ok sz pg -> 0 < t < 2 ^ 32 -> wr_szPage p = sz -> 0 <= n ->
  0 < xSectorSize (w_os s) <= SECTOR_MAX -> zlen fs + SECTOR_MAX < FRAME_MAX ->
  room AWS (SECTOR_MAX + (sz + 24) + n) s ->
  (forall r s', (r.2 = true -> r.1.1 <> SQLITE_OK) ->
     (r.1.1 = SQLITE_OK -> exists new,
        padded n s s' fs new (pg_pgno pg) t /\ r.1.2 = zlen new /\ zlen new <= SECTOR_MAX) ->
     Q r s') ->
  wp (finish_frames be AWS p sz t (mkWriting (zlen fs) (frames_end (zlen fs)) (Some pg))) Q s.
Proof.
  intros Hlg Hpg Ht Hp Hn Hss Hmax Hroom HQ. unfold finish_frames, get_wal. wp_pure.
  cbn [wg_iOffset wg_pLast].
  pose proof (page_size_mult8 _ (wal_ok_page _ (lg_ok _ _ Hlg))) as [_ Hszr].
  rewrite (lg_sz _ _ Hlg) in Hszr. pose proof (zlen_nonneg fs).
  pose proof (frameOffset_pos sz (zlen fs + 1) ltac:(lia) ltac:(lia)) as Hpos.
  fold (frames_end (zlen fs)) in Hpos.
  destruct (padToSectorBoundary (w_wal s)) eqn:Hpad; wp_pure.
  - set (ss := xSectorSize (w_os s)) in *. rewrite Z.quot_div_nonneg by lia.
    set (sp := (frames_end (zlen fs) + ss - 1) / ss * ss).
    assert (0 <= sp - frames_end (zlen fs) < ss) as Hsp.
    { unfold sp. pose proof (Z.div_mod (frames_end (zlen fs) + ss - 1) ss ltac:(lia)).
      pose proof (Z.mod_pos_bound (frames_end (zlen fs) + ss - 1) ss). nia. }
    unfold WAL_FRAME_HDRSIZE.
    apply (wp_pad_loop (mkWriter sp (syncFlags p) (wr_szPage p)) t pg n);
      cbn [iSyncPoint wr_szPage]; try done; try lia.
    { intros HA. eapply aws_room_weaken; [|by apply Hroom]. unfold pad_bytes.
      destruct (Z.leb_spec (sp - frames_end (zlen fs)) 0); lia. }
    intros [[rc off] nx] s1 Hr. wp_pure. cbn [fst snd] in *.
    destruct (Z.eqb_spec rc SQLITE_OK) as [->|Hne]; cbn [negb]; wp_pure.
    2:{ apply HQ; cbn; done. }
    destruct (Hr eq_refl) as (new & Hfa & -> & Hle).
    assert (Hpost : forall s2, w_wal s2 = w_wal s1 -> content (w_log s2) = log s1 ->
              w_sh s2 = w_sh s1 -> w_db s2 = w_db s1 -> w_os s2 = w_os s1 -> w_aws s2 = w_aws s1 ->
              padded n s s2 fs new (pg_pgno pg) t).
    { intros s2 E1 E2 E3 E4 E5 E6.
      constructor; rewrite ?Hpad; try done; try apply Hfa.
      - eapply logging_same; [done|done|apply Hfa].
      - eapply frames_only_trans; [apply Hfa|]. split_and!; try congruence.
        exists (h_aFrameCksum (hdr (w_wal s1))). rewrite E1.
        by destruct (w_wal s1) as [????????????[]].
      - intros HA. rewrite E6. by apply Hfa.
      - rewrite (fa_pages _ _ _ _ _ _ _ _ Hfa). apply fmap_replicate.
      - eapply keeps_trans; [| |apply Hfa|apply (keeps_same (zlen fs)), E2]; lia. }
    destruct (Z.eqb_spec sp (frames_end (zlen fs))) as [Eb|Hb].
    + wp_pure. apply wp_log_sync. intros rc f' Hf'. wp_pure. apply HQ; cbn; [done|]. intros ->.
      exists new. split_and!; [|lia|lia]. apply Hpost; cbn; auto.
    + wp_pure. apply HQ; cbn; [done|]. intros _. exists new.
      split_and!; [by apply Hpost|lia|lia].
  - cbn [negb Z.eqb SQLITE_OK]. wp_pure. apply wp_log_sync. intros rc f' Hf'. wp_pure.
    apply HQ; cbn; [done|]. intros ->. exists []. rewrite (@zlen_nil (Z * Z * (Z * Z))).
    split_and!; [|done|unfold SECTOR_MAX; lia].
    constructor; rewrite ?app_nil_r; cbn [w_wal w_aws]; try done.
    + apply (logging_same s); [done|by apply Hf'|done].
    + split_and!; try done. exists (h_aFrameCksum (hdr (w_wal s))).
      by destruct (w_wal s) as [????????????[]].
    + intros HA. eapply aws_room_weaken; [|by apply Hroom]. unfold SECTOR_MAX. lia.
    + apply keeps_same. by apply Hf'.
    + intros _. split; [done|]. intros k0 P0. apply (mirror_same k0 P0 s); [done|by apply Hf'].
Qed.
End frames.

(** * The index and the header *)

Section publish.
Context {F OS : Type} `{VFile F} `{WalOS OS} `{ShmEnv} (be : bool).
Context (Hq : os_quiet (OS := OS)) (sz : Z).
Local Abbreviation W := (World F OS).

(** The state with another index. *)
Definition with_index (w : Wal) (x : WalIdx) (s : W) : W :=
  mkWorld w (sh_set_idx x (w_sh s)) (w_log s) (w_db s) (w_aws s) (w_os s).

Lemma wp_index_frames pl : forall iFrame (Q : Z * Z -> W -> Prop) s rc' w' x',
  Forall (fun pg => pg_append pg = true) pl -> 0 <= iFrame -> iFrame + zlen pl < FRAME_MAX ->
  append_all (w_wal s) (sh_idx (w_sh s)) iFrame (pg_pgno <$> pl) = Some (rc', w', x') ->
  (forall k, (rc' = SQLITE_OK -> k = iFrame + zlen pl) -> Q (rc', k) (with_index w' x' s)) ->
  wp (index_frames iFrame SQLITE_OK pl) Q s.
Proof.
  induction pl as [|pg pl IH]; intros iFrame Q s rc' w' x' Hfl Hi Hmax E HQ; cbn [index_frames].
  - injection E as <- <- <-. wp_pure. rewrite (@zlen_nil PgHdr) in HQ.
    replace s with (with_index (w_wal s) (sh_idx (w_sh s)) s) by (by destruct s as [? [] ? ? ? ?]).
    apply HQ. lia.
  - apply Forall_cons_1 in Hfl as [Hpg Hfl]. rewrite zlen_cons in *.
    pose proof (zlen_nonneg pl). cbn [Z.eqb SQLITE_OK]. rewrite Hpg. wp_pure.
    unfold FRAME_MAX in *. rewrite u32_small by lia. csimpl in E. cbn [append_all] in E.
    destruct (walIndexAppend (w_wal s) (sh_idx (w_sh s)) (iFrame + 1) (pg_pgno pg))
      as [[[rc1 w1] x1]|] eqn:E1; cbn [mbind option_bind] in E; [|done].
    eapply run_wp; [unfold index_append, with_idx; rewrite E1; reflexivity|].
    destruct (Z.eqb_spec rc1 SQLITE_OK) as [->|Hne]; cbn [negb] in E.
    + eapply IH; [done|lia|lia|exact E|]. intros k Hk.
      apply (HQ k). intros Hrc. rewrite (Hk Hrc). lia.
    + injection E as <- <- <-. destruct pl as [|pg2 pl]; cbn [index_frames].
      * wp_pure. apply HQ. done.
      * rewrite (proj2 (Z.eqb_neq _ _) Hne). wp_pure. by apply HQ.
Qed.

Lemma wp_index_extra n pg : forall iFrame (Q : Z * Z -> W -> Prop) s rc' w' x',
  0 <= iFrame -> iFrame + Z.of_nat n < FRAME_MAX ->
  append_all (w_wal s) (sh_idx (w_sh s)) iFrame (replicate n (pg_pgno pg)) = Some (rc', w', x') ->
  (forall k, (rc' = SQLITE_OK -> k = iFrame + Z.of_nat n) -> Q (rc', k) (with_index w' x' s)) ->
  wp (index_extra n iFrame SQLITE_OK (Some pg)) Q s.
Proof.
  induction n as [|n IH]; intros iFrame Q s rc' w' x' Hi Hmax E HQ; cbn [index_extra].
  - injection E as <- <- <-. wp_pure.
    replace s with (with_index (w_wal s) (sh_idx (w_sh s)) s) by (by destruct s as [? [] ? ? ? ?]).
    apply HQ. lia.
  - cbn [Z.eqb SQLITE_OK]. wp_pure. rewrite (wp_of_option _ _ _ _ eq_refl). wp_pure.
    unfold FRAME_MAX in *. rewrite u32_small by lia. cbn [append_all replicate] in E.
    destruct (walIndexAppend (w_wal s) (sh_idx (w_sh s)) (iFrame + 1) (pg_pgno pg))
      as [[[rc1 w1] x1]|] eqn:E1; cbn [mbind option_bind] in E; [|done].
    eapply run_wp; [unfold index_append, with_idx; rewrite E1; reflexivity|].
    destruct (Z.eqb_spec rc1 SQLITE_OK) as [->|Hne]; cbn [negb] in E.
    + eapply IH; [lia|lia|exact E|]. intros k Hk. apply (HQ k). intros Hrc. rewrite (Hk Hrc). lia.
    + injection E as <- <- <-. destruct n as [|n]; cbn [index_extra].
      * wp_pure. apply HQ. done.
      * rewrite (proj2 (Z.eqb_neq _ _) Hne). wp_pure. by apply HQ.
Qed.

(** The header that a transaction of [m] frames leaves. *)
Definition next_hdr (isCommit : bool) (t m : Z) (h : WalIndexHdr) : WalIndexHdr :=
  let h := hset_mxFrame m (hset_szPage (pagesize_field sz) h) in
  if isCommit then seal be (hset_nPage t (hset_iChange (u32 (h_iChange h + 1)) h)) else h.

Record published (isCommit : bool) (t : Z) (pgs : list Z) (s s' : W) : Prop := {
  pb_log : w_log s' = w_log s;
  pb_db : w_db s' = w_db s;
  pb_aws : w_aws s' = w_aws s;
  pb_ckpt : sh_ckpt (w_sh s') = sh_ckpt (w_sh s);
  pb_idx : wi_clean (sh_idx (w_sh s')) pgs;
  pb_hdr : hdr (w_wal s') = next_hdr isCommit t (zlen pgs) (hdr (w_wal s));
  pb_sz : szPage (w_wal s') = szPage (w_wal s);
  pb_re : iReCksum (w_wal s') = iReCksum (w_wal s);
  pb_shared : if isCommit then sh_hdr0 (w_sh s') = hdr (w_wal s') /\ sh_hdr1 (w_sh s') = hdr (w_wal s')
              else sh_hdr0 (w_sh s') = sh_hdr0 (w_sh s) /\ sh_hdr1 (w_sh s') = sh_hdr1 (w_sh s);
  pb_callback : isCommit = true -> iCallback (w_wal s') = zlen pgs;
}.

Lemma publish_tail (isCommit : bool) t m pgs w1 x1 (Q : Z -> W -> Prop) s :
  wal_same (w_wal s) w1 -> wi_clean x1 pgs -> m = zlen pgs ->
  bytes_ok (h_aSalt (hdr (w_wal s))) -> length (h_aSalt (hdr (w_wal s))) = 8%nat ->
  (forall s', published isCommit t pgs s s' -> Q SQLITE_OK s') ->
  wp (upd_hdr (hset_szPage (pagesize_field sz));;
      upd_hdr (hset_mxFrame m);;
      (if isCommit then
         upd_hdr (fun h => hset_iChange (u32 (h_iChange h + 1)) h);;
         upd_hdr (hset_nPage t);;
         walIndexWriteHdr be;;
         upd_wal (set_iCallback m)
       else mret tt);;
      mret SQLITE_OK) Q (with_index w1 x1 s).
Proof using Hq.
  intros (Eh & _ & _ & _ & Es & _ & _ & Er & _) Hx -> Hs Hl HQ. wp_pure.
  unfold with_index. cbn [w_wal w_sh w_log w_db w_aws w_os]. destruct isCommit; wp_pure.
  - apply (wp_walIndexWriteHdr Hq).
    + cbn. by rewrite Eh.
    + cbn. by rewrite Eh.
    + intros s' E1 E2 E3 E4 E5. wp_pure. cbn [w_wal w_sh w_log w_db w_aws hdr set_hdr] in *.
      rewrite Eh in E1, E2. apply HQ. constructor; cbn [w_wal w_sh w_log w_db w_aws]; try done;
        rewrite ?E1, ?E2; cbn; try done.
  - apply HQ. constructor; cbn; try done. by rewrite Eh.
Qed.

Lemma wp_publish_frames (isCommit : bool) t nExtra pgs ps pg (Q : Z -> W -> Prop) s :
  wi_ok (sh_idx (w_sh s)) pgs -> h_mxFrame (hdr (w_wal s)) = zlen pgs ->
  Forall pgno_ok (pg_pgno <$> ps) -> ps <> [] -> pgno_ok (pg_pgno pg) -> 0 <= nExtra ->
  zlen pgs + zlen ps + nExtra < FRAME_MAX ->
  bytes_ok (h_aSalt (hdr (w_wal s))) -> length (h_aSalt (hdr (w_wal s))) = 8%nat ->
  (forall rc s', (rc = SQLITE_OK ->
     published isCommit t (pgs ++ (pg_pgno <$> ps) ++ replicate (Z.to_nat nExtra) (pg_pgno pg)) s s') ->
     Q rc s') ->
  wp (publish_frames be sz t isCommit SQLITE_OK nExtra (pg_set_append true <$> ps) (Some pg)) Q s.
Proof using Hq.
  intros Hx Hmx Hps Hne Hpg Hn Hmax Hs Hl HQ. unfold publish_frames, get_hdr. wp_pure.
  destruct ps as [|p0 ps]; [done|]. set (pl := p0 :: ps) in *.
  assert (Epl : pg_pgno <$> (pg_set_append true <$> pl) = pg_pgno <$> pl).
  { rewrite <- list_fmap_compose. done. }
  assert (Hz : zlen (pg_set_append true <$> pl) = zlen pl) by apply zlen_fmap.
  assert (Hz2 : zlen (pg_pgno <$> pl) = zlen pl) by apply zlen_fmap.
  pose proof (zlen_nonneg pgs). pose proof (zlen_nonneg pl).
  destruct (append_all_ok (pg_pgno p0) (pg_pgno <$> ps) (w_wal s) (sh_idx (w_sh s)) pgs)
    as (rc1 & w1 & x1 & E1 & Hs1 & Hok1 & _);
    [done|done|change (pg_pgno p0 :: (pg_pgno <$> ps)) with (pg_pgno <$> pl); lia|done|].
  change (pg_pgno p0 :: (pg_pgno <$> ps)) with (pg_pgno <$> pl) in E1, Hok1.
  apply (wp_index_frames _ _ _ _ rc1 w1 x1); [|lia|lia|by rewrite Epl, Hmx|].
  { apply Forall_fmap, Forall_true. done. }
  intros k Hk. wp_pure. destruct (decide (rc1 = SQLITE_OK)) as [->|Hrc].
  - rewrite (Hk eq_refl), Hmx, Hz. specialize (Hok1 eq_refl).
    destruct (append_all_clean (replicate (Z.to_nat nExtra) (pg_pgno pg)) w1 x1 (pgs ++ (pg_pgno <$> pl)))
      as (rc2 & w2 & x2 & E2 & Hs2 & Hok2 & _);
      [done|rewrite zlen_app, zlen_replicate; lia|by apply Forall_replicate|].
    rewrite zlen_app, Hz2 in E2.
    apply (wp_index_extra _ _ _ _ _ rc2 w2 x2); [lia|lia|done|].
    intros k2 Hk2. wp_pure. destruct (Z.eqb_spec rc2 SQLITE_OK) as [->|Hrc2].
    + apply (publish_tail isCommit t k2 (pgs ++ (pg_pgno <$> pl) ++ replicate (Z.to_nat nExtra) (pg_pgno pg))
               w2 x2 Q (with_index w1 x1 s)).
      * done.
      * rewrite app_assoc. by apply Hok2.
      * rewrite (Hk2 eq_refl), !zlen_app, zlen_replicate. lia.
      * unfold with_index. cbn [w_wal]. by rewrite (proj1 Hs1).
      * unfold with_index. cbn [w_wal]. by rewrite (proj1 Hs1).
      * intros s' []. apply HQ. intros _. unfold with_index in *. cbn [w_wal w_sh w_log w_db w_aws] in *.
        destruct Hs1 as (Eh & _ & _ & _ & Es & _ & _ & Er & _).
        constructor; try done; try congruence; by rewrite <- ?Eh.
    + wp_pure. by apply HQ.
  - destruct (Z.to_nat nExtra); cbn [index_extra].
    + wp_pure. rewrite (proj2 (Z.eqb_neq _ _) Hrc). wp_pure. by apply HQ.
    + rewrite (proj2 (Z.eqb_neq _ _) Hrc). wp_pure. rewrite (proj2 (Z.eqb_neq _ _) Hrc). wp_pure. by apply HQ.
Qed.
End publish.

(** * The header of a new log *)

Section header.
Context {F OS : Type} `{VFile F} `{WalOS OS} (be : bool) (AWS sz : Z).
Local Abbreviation W := (World F OS).
Local Abbreviation log s := (content (w_log s)).
Context (Hsz : page_size_ok sz).

(** [sqlite3_randomness] fills the buffer with bytes. *)
Definition random_law : Prop :=
  forall o n, 0 <= n -> bytes_ok (xRandomness o n).1 /\ zlen (xRandomness o n).1 = n.

(** The 32 bytes. *)
Definition header_front (n : Z) (salt : list Z) : list Z :=
  sqlite3Put4byte (Z.lor WAL_MAGIC (Z.b2z be)) ++ sqlite3Put4byte WAL_MAX_VERSION ++
  sqlite3Put4byte sz ++ sqlite3Put4byte n ++ salt.

Lemma header_front_ok n salt :
  bytes_ok salt -> length salt = 8%nat ->
  bytes_ok (header_front n salt) /\ zlen (header_front n salt) = 24.
Proof.
  intros Hs Hl. unfold header_front. split.
  - repeat apply Forall_app_2; auto with carray.
  - unfold zlen. rewrite !length_app, !length_Put4byte, Hl. done.
Qed.

Lemma header_good n salt c rest :
  bytes_ok salt -> length salt = 8%nat -> cksum_ok c ->
  c = cksum_spec be (0, 0) (header_front n salt) ->
  good_header ((header_front n salt ++ sqlite3Put4byte c.1 ++ sqlite3Put4byte c.2) ++ rest)
    sz (Z.b2z be) salt c.
Proof using Hsz.
  intros Hs Hl [Hc0 Hc1] Hc. destruct (header_front_ok n salt Hs Hl) as [Hfb Hfl].
  set (h := header_front n salt ++ _).
  assert (Hh : zlen h = 32).
  { unfold h. rewrite !zlen_app, Hfl. unfold zlen. rewrite !length_Put4byte. done. }
  assert (E : slice 0 32 (h ++ rest) = h) by (rewrite <- Hh; apply slice_prefix).
  assert (0 <= sz < 2 ^ 32) by (apply page_size_cases in Hsz; lia).
  constructor; rewrite ?E.
  - exists (Z.lor WAL_MAGIC (Z.b2z be)). unfold h, header_front.
    rewrite <- !app_assoc. split; [|by destruct be].
    apply Get4byte_Put4byte. by destruct be.
  - unfold h, header_front. rewrite <- !app_assoc. apply Get4byte_at; [done|done].
  - split; [|done]. unfold h, header_front. rewrite <- !app_assoc.
    rewrite (app_assoc (sqlite3Put4byte (Z.lor _ _))). by apply Get4byte_at.
  - unfold h, header_front, slice. rewrite <- !app_assoc.
    rewrite !(app_assoc (sqlite3Put4byte _)). change (Z.to_nat 16) with 16%nat.
    rewrite <- !(app_assoc (sqlite3Put4byte _)).
    rewrite (app_assoc (sqlite3Put4byte (Z.lor _ _))), (app_assoc (_ ++ _)), (app_assoc (_ ++ _)).
    rewrite drop_app_length' by done. by rewrite take_app_length'.
  - assert (slice 0 24 h = header_front n salt) as ->.
    { unfold h. rewrite <- Hfl. apply slice_prefix. }
    rewrite Hc. by destruct be.
  - unfold h. by apply Get4byte_at.
  - unfold h. rewrite app_assoc, <- (app_nil_r (sqlite3Put4byte c.2)).
    apply Get4byte_at; [|done]. rewrite zlen_app, Hfl. done.
Qed.

(** What writing the header keeps. *)
Definition header_only (s s' : W) : Prop :=
  h_mxFrame (hdr (w_wal s')) = h_mxFrame (hdr (w_wal s)) /\
  padToSectorBoundary (w_wal s') = padToSectorBoundary (w_wal s) /\
  w_sh s' = w_sh s /\ w_db s' = w_db s /\ w_aws s' = w_aws s.

Lemma wp_write_wal_header fl (Q : Z -> W -> Prop) s :
  random_law -> bytes_ok (log s) -> iReCksum (w_wal s) = 0 ->
  bytes_ok (h_aSalt (hdr (w_wal s))) -> length (h_aSalt (hdr (w_wal s))) = 8%nat ->
  (forall rc s', (rc = SQLITE_OK -> header_only s s' /\
     exists ord salt c0, logging be sz ord salt c0 s' []) -> Q rc s') ->
  wp (write_wal_header be sz fl) Q s.
Proof using Hsz.
  intros Hrand HL Hre Hsb Hsl HQ. unfold write_wal_header, get_wal, get_hdr. wp_pure.
  set (run := fun s1 : W => _).
  enough (Hrun : forall s1, header_only s s1 -> w_log s1 = w_log s -> iReCksum (w_wal s1) = 0 ->
            bytes_ok (h_aSalt (hdr (w_wal s1))) -> length (h_aSalt (hdr (w_wal s1))) = 8%nat ->
            run s1).
  { destruct (nCkpt (w_wal s) =? 0); wp_pure; [|by apply Hrun].
    destruct (xRandomness (w_os s) 8) as [salt o] eqn:Er.
    destruct (Hrand (w_os s) 8 ltac:(lia)) as [Hb8 Hl8]. rewrite Er in Hb8, Hl8. cbn [fst] in Hb8, Hl8.
    eapply run_wp; [unfold sqlite3_randomness; rewrite Er; reflexivity|]. wp_pure.
    apply Hrun; cbn; try done.
    - by apply Forall_take.
    - rewrite length_take. unfold zlen in Hl8. lia. }
  intros s1 Ho Ew1 Hre1 Hsb1 Hsl1. unfold run. clear run. wp_pure.
  set (salt := h_aSalt (hdr (w_wal s1))) in *.
  change (sqlite3Put4byte (Z.lor WAL_MAGIC (Z.b2z be)) ++ sqlite3Put4byte WAL_MAX_VERSION ++
          sqlite3Put4byte sz ++ sqlite3Put4byte (nCkpt (w_wal s)) ++ salt)
    with (header_front (nCkpt (w_wal s)) salt).
  destruct (header_front_ok (nCkpt (w_wal s)) salt Hsb1 Hsl1) as [Hfb Hfl].
  set (c := cksum_spec be (0, 0) (header_front (nCkpt (w_wal s)) salt)).
  assert (Hc : cksum_ok c) by (apply cksum_spec_ok; split; cbn; lia).
  assert (Ec : walChecksumBytes be true (header_front (nCkpt (w_wal s)) salt)
                 (WAL_HDRSIZE - 2 * 4) None = Some c).
  { change (WAL_HDRSIZE - 2 * 4) with 24. rewrite walChecksum_spec by (done || lia).
    rewrite <- Hfl at 1. rewrite slice_full. by destruct be. }
  rewrite (wp_of_option _ _ _ _ Ec). wp_pure. apply wp_log_write; [lia|].
  intros rc f' Hf'. wp_pure. cbn [w_log] in Hf'.
  destruct (Z.eqb_spec rc SQLITE_OK) as [->|Hne]; cbn [negb]; wp_pure; [|by apply HQ].
  specialize (Hf' eq_refl). rewrite Ew1 in Hf'.
  set (h := header_front (nCkpt (w_wal s)) salt ++ sqlite3Put4byte c.1 ++ sqlite3Put4byte c.2) in *.
  assert (Hh : zlen h = 32).
  { unfold h. rewrite !zlen_app, Hfl. unfold zlen. rewrite !length_Put4byte. done. }
  assert (Hhb : bytes_ok h) by (unfold h; repeat apply Forall_app_2; auto with carray).
  assert (Hpost : forall f2, content f2 = content f' ->
            logging be sz (Z.b2z be) salt c
              (mkWorld (set_truncateOnCommit true (set_hdr (hset_aFrameCksum c
                 (hset_bigEndCksum (Z.b2z be) (hdr (w_wal s1)))) (set_szPage sz (w_wal s1))))
                 (w_sh s1) f2 (w_db s1) (w_aws s1) (w_os s1)) []).
  { intros f2 E2. pose proof (zlen_nonneg (log s)).
    constructor; cbn [w_wal w_log]; rewrite ?E2, ?Hf'; try reflexivity; try done.
    - constructor; try done. destruct be; auto.
    - by apply splice_bytes.
    - rewrite zlen_splice by lia. unfold frames_end, walFrameOffset, WAL_HDRSIZE.
      rewrite (@zlen_nil (Z * Z * (Z * Z))). lia.
    - unfold splice. cbn [Z.to_nat take app]. by apply header_good. }
  case_match; wp_pure.
  - apply wp_log_sync. intros rc f2 Hf2. apply HQ. intros ->. split; [by destruct Ho as (?&?&?&?&?)|].
    exists (Z.b2z be), salt, c. by apply Hpost, Hf2.
  - apply HQ. intros _. split; [by destruct Ho as (?&?&?&?&?)|].
    exists (Z.b2z be), salt, c. by apply Hpost.
Qed.
End header.

(** * A commit *)

(** The parameters of a log are determined by its header. *)
Lemma good_header_inj L sz ord salt c sz' ord' salt' c' :
  good_header L sz ord salt c -> good_header L sz' ord' salt' c' ->
  sz' = sz /\ ord' = ord /\ salt' = salt /\ c' = c.
Proof.
  intros [(m & Em & _ & ->) _ [Es _] -> -> _ _] [(m' & Em' & _ & ->) _ [Es' _] -> -> _ _].
  rewrite Em in Em'. injection Em' as <-. rewrite Es in Es'. injection Es' as <-. done.
Qed.

Lemma last_commit_app fs1 fs2 : forall k acc,
  last_commit k (fs1 ++ fs2) acc = last_commit (k + zlen fs1) fs2 (last_commit k fs1 acc).
Proof.
  induction fs1 as [|[[p t] c] fs1 IH]; intros k acc; cbn [app last_commit].
  - by rewrite (@zlen_nil (Z * Z * (Z * Z))), Z.add_0_r.
  - rewrite IH, zlen_cons. f_equal. lia.
Qed.

Lemma last_commit_mono fs : forall k acc, acc.1.1 < k -> acc.1.1 <= (last_commit k fs acc).1.1.
Proof.
  induction fs as [|[[p t] c] fs IH]; intros k acc Hk; cbn [last_commit]; [lia|].
  destruct (t =? 0).
  - apply IH. lia.
  - specialize (IH (k + 1) (k, t, c) ltac:(cbn; lia)). cbn in IH. lia.
Qed.

(** A log that ends its frames with a commit loses none of them. *)
Lemma last_commit_ge fs rest q t c :
  last fs = Some (q, t, c) -> t <> 0 ->
  zlen fs <= (last_commit 1 (fs ++ rest) (0, 0, (0, 0))).1.1.
Proof.
  intros Hl Ht. apply last_Some in Hl as [fs' ->]. rewrite last_commit_app, last_commit_snoc.
  rewrite (proj2 (Z.eqb_neq _ _) Ht). rewrite !zlen_app. change (zlen [(q, t, c)]) with 1.
  etransitivity; [|apply last_commit_mono]; cbn; lia.
Qed.

Section truncate.
Context {F OS : Type} `{VFile F} `{WalOS OS} (be : bool) (sz ord : Z) (salt : list Z) (c0 : Z * Z).
Local Abbreviation W := (World F OS).
Local Abbreviation log s := (content (w_log s)).

(** A truncation that fails changes nothing. *)
Definition truncate_law : Prop :=
  forall f n rc f', xTruncate f n = (rc, f') -> rc <> SQLITE_OK -> content f' = content f.

Lemma slice_take (L : list Z) o amt n :
  0 <= o -> 0 <= amt -> o + amt <= n -> slice o amt (take (Z.to_nat n) L) = slice o amt L.
Proof.
  intros. unfold slice. rewrite skipn_firstn_comm, take_take. f_equal. lia.
Qed.

Lemma chain_take L n fs : forall c k,
  0 <= sz -> 1 <= k -> walFrameOffset (k + zlen fs) sz <= n ->
  chain be sz ord salt L c k fs -> chain be sz ord salt (take (Z.to_nat n) L) c k fs.
Proof.
  induction fs as [|[[p t] c'] fs IH]; intros c k Hsz Hk Hn Hc; [done|].
  rewrite zlen_cons in *. pose proof (zlen_nonneg fs). destruct Hc as [E Hc].
  pose proof (frameOffset_pos sz k Hsz Hk).
  pose proof (frameOffset_mono sz (k + 1) (k + (zlen fs + 1)) Hsz ltac:(lia)) as Hm.
  rewrite frameOffset_S in Hm. split.
  - rewrite <- E. apply next_frame_same. unfold WAL_FRAME_HDRSIZE. apply slice_take; lia.
  - apply IH; try done; try lia; by replace (k + 1 + zlen fs) with (k + (zlen fs + 1)) by lia.
Qed.

Lemma logging_take (s s' : W) fs n :
  w_wal s' = w_wal s -> log s' = take (Z.to_nat n) (log s) ->
  frames_end sz (zlen fs) <= n <= zlen (log s) ->
  logging be sz ord salt c0 s fs -> logging be sz ord salt c0 s' fs.
Proof.
  intros Ew El Hn Hl. pose proof (page_size_mult8 _ (wal_ok_page _ (lg_ok _ _ _ _ _ _ _ Hl))) as [_ Hszr].
  rewrite (lg_sz _ _ _ _ _ _ _ Hl) in Hszr. pose proof (zlen_nonneg fs).
  pose proof (frameOffset_pos sz (zlen fs + 1) ltac:(lia) ltac:(lia)) as Hpos.
  fold (frames_end sz (zlen fs)) in Hpos.
  destruct Hl as [? ? ? ? ? Hb ? Hh Hc ?]. constructor; rewrite ?Ew, ?El; try done.
  - by apply Forall_take.
  - rewrite zlen_take by lia. lia.
  - assert (slice 0 32 (take (Z.to_nat n) (log s)) = slice 0 32 (log s)) as E by (apply slice_take; lia).
    destruct Hh. by constructor; rewrite ?E.
  - apply chain_take; try done; try lia. unfold frames_end in Hn.
    replace (1 + zlen fs) with (zlen fs + 1) by lia. lia.
Qed.

(** Limiting the size of the log keeps its frames. *)
Lemma wp_walLimitSize nMax (Q : unit -> W -> Prop) (s : W) fs :
  truncate_law -> logging be sz ord salt c0 s fs -> frames_end sz (zlen fs) <= nMax ->
  (forall s', logging be sz ord salt c0 s' fs -> w_wal s' = w_wal s -> w_sh s' = w_sh s ->
     w_db s' = w_db s -> w_aws s' = w_aws s -> w_os s' = w_os s ->
     (forall o amt, 0 <= o -> 0 <= amt -> o + amt <= frames_end sz (zlen fs) ->
        slice o amt (log s') = slice o amt (log s)) -> Q tt s') ->
  wp (walLimitSize nMax) Q s.
Proof.
  intros Hlaw Hl Hn HQ. unfold walLimitSize, log_size. wp_pure.
  destruct (xFileSize (w_log s)) as [rx n] eqn:Es.
  destruct (Z.eqb_spec rx SQLITE_OK) as [->|]; cbn [andb]; wp_pure; [|by apply HQ].
  rewrite Z.gtb_ltb. destruct (Z.ltb_spec nMax n) as [Hlt|]; wp_pure; [|by apply HQ].
  apply xFileSize_ok in Es. unfold log_truncate. wp_pure.
  destruct (xTruncate (w_log s) nMax) as [rc f'] eqn:Et. wp_pure.
  destruct (decide (rc = SQLITE_OK)) as [->|Hne].
  - assert (content f' = take (Z.to_nat nMax) (log s)) as Ef.
    { pose proof (page_size_mult8 _ (wal_ok_page _ (lg_ok _ _ _ _ _ _ _ Hl))) as [_ Hszr].
      rewrite (lg_sz _ _ _ _ _ _ _ Hl) in Hszr. pose proof (zlen_nonneg fs).
      pose proof (frameOffset_pos sz (zlen fs + 1) ltac:(lia) ltac:(lia)) as Hpos.
      fold (frames_end sz (zlen fs)) in Hpos.
      assert (0 <= nMax) as Hn0 by lia. rewrite (xTruncate_ok _ _ _ Hn0 Et).
      apply take_app_le. unfold zlen in *. lia. }
    apply HQ; cbn; try done.
    + apply (logging_take s _ fs nMax); try done. lia.
    + intros o amt Ho Ha Hoa. rewrite Ef. apply slice_take; lia.
  - pose proof (Hlaw _ _ _ _ Et Hne) as E. apply HQ; cbn; try done.
    + by apply (logging_same be sz ord salt c0 s).
    + intros o amt _ _ _. by rewrite E.
Qed.
End truncate.

Section commit.
Context {F OS : Type} `{VFile F} `{WalOS OS} `{ShmEnv} (be : bool) (AWS : Z).
Context (Hq : os_quiet (OS := OS)) (Htr : truncate_law (F := F)).
Context (Hsec : forall o : OS, 0 < xSectorSize o <= SECTOR_MAX).
Local Abbreviation W := (World F OS).
Local Abbreviation log s := (content (w_log s)).
Context (sz : Z) (Hsz : page_size_ok sz).

(** What a commit of the pages [ps], with database size [t], leaves: the log
    of [fs] continued by [new], which holds the pages in their order and then
    padding. *)
Record committed (s s' : W) (fs new : list (Z * Z * (Z * Z))) (ps : list PgHdr) (t : Z)
    (ord : Z) (salt : list Z) (c0 : Z * Z) : Prop := {
  cm_logging : logging be sz ord salt c0 s' (fs ++ new);
  cm_pages : exists k pg, last ps = Some pg /\
    frame_pgno <$> new = (pg_pgno <$> ps) ++ replicate k (pg_pgno pg) /\
    (padToSectorBoundary (w_wal s) = false -> k = 0%nat);
  cm_keeps : fs <> [] -> keeps sz (zlen fs) s s';
  cm_data : holds_pages sz (zlen fs) ps s';
  cm_last : exists q c, last new = Some (q, t, c);
  cm_mx : h_mxFrame (hdr (w_wal s')) = zlen (fs ++ new);
  cm_npage : h_nPage (hdr (w_wal s')) = t;
  cm_sealed : hdr_sealed be (hdr (w_wal s'));
  cm_hdr0 : sh_hdr0 (w_sh s') = hdr (w_wal s');
  cm_hdr1 : sh_hdr1 (w_sh s') = hdr (w_wal s');
  cm_idx : wi_clean (sh_idx (w_sh s')) (frame_pgno <$> (fs ++ new));
  cm_callback : iCallback (w_wal s') = zlen (fs ++ new);
  cm_db : w_db s' = w_db s;
  cm_ckpt : sh_ckpt (w_sh s') = sh_ckpt (w_sh s);
  cm_cur : cur_aws_off (w_aws s') = cur_aws_off (w_aws s);
  cm_file : awsfile (w_aws s') = awsfile (w_aws s);
  cm_room : room AWS 0 s';
  cm_mirror : AWS = 2 -> padToSectorBoundary (w_wal s) = false ->
    pending (w_aws s') = pending (w_aws s) ++
      slice (frames_end sz (zlen fs)) (frames_end sz (zlen (fs ++ new)) - frames_end sz (zlen fs))
        (log s');
}.

Lemma wp_publish_error isCommit t rc nExtra pl pLast (Q : Z -> W -> Prop) s :
  rc <> SQLITE_OK -> Q rc s -> wp (publish_frames be sz t isCommit rc nExtra pl pLast) Q s.
Proof.
  intros Hrc HQ. unfold publish_frames, get_hdr. wp_pure.
  assert (Hne : (rc =? SQLITE_OK) = false) by (by apply Z.eqb_neq).
  destruct pl; cbn [index_frames]; rewrite ?Hne; wp_pure;
    destruct (Z.to_nat nExtra); cbn [index_extra]; rewrite ?Hne; wp_pure; by rewrite Hne.
Qed.

(** Limiting the size of the log touches nothing else. *)
Lemma wp_walLimitSize_any nMax (Q : unit -> W -> Prop) s :
  (forall f, Q tt (mkWorld (w_wal s) (w_sh s) f (w_db s) (w_aws s) (w_os s))) ->
  wp (walLimitSize nMax) Q s.
Proof.
  intros HQ. unfold walLimitSize, log_size, log_truncate. wp_pure.
  destruct (xFileSize (w_log s)) as [rx n]. wp_pure. destruct (_ && _); wp_pure.
  - destruct (xTruncate (w_log s) nMax) as [rc f']. wp_pure. apply HQ.
  - specialize (HQ (w_log s)). by destruct s.
Qed.

(** The state between the last write of a frame and the index. *)
Record closed (s s' : W) (fs new : list (Z * Z * (Z * Z))) (ps : list PgHdr) (ord : Z) (salt : list Z)
    (c0 : Z * Z) : Prop := {
  cl_logging : logging be sz ord salt c0 s' (fs ++ new);
  cl_mx : h_mxFrame (hdr (w_wal s')) = h_mxFrame (hdr (w_wal s));
  cl_pad : padToSectorBoundary (w_wal s') = padToSectorBoundary (w_wal s);
  cl_keeps : keeps sz (zlen fs) s s';
  cl_data : zlen ps <= zlen new /\ holds_pages sz (zlen fs) ps s';
  cl_sh : w_sh s' = w_sh s;
  cl_db : w_db s' = w_db s;
  cl_cur : cur_aws_off (w_aws s') = cur_aws_off (w_aws s);
  cl_file : awsfile (w_aws s') = awsfile (w_aws s);
  cl_room : room AWS 0 s';
  cl_mirror : padToSectorBoundary (w_wal s) = false ->
    forall k0 P0, mirror AWS sz k0 P0 s fs -> mirror AWS sz k0 P0 s' (fs ++ new);
}.

Lemma next_hdr_logging ord salt c0 (s s' : W) fs t m :
  logging be sz ord salt c0 s fs -> w_log s' = w_log s ->
  hdr (w_wal s') = next_hdr be sz true t m (hdr (w_wal s)) ->
  szPage (w_wal s') = szPage (w_wal s) -> iReCksum (w_wal s') = iReCksum (w_wal s) ->
  logging be sz ord salt c0 s' fs.
Proof.
  intros [? Hok ? ? ? ? ? ? ? ?] El Eh Es Er. destruct Hok.
  constructor; rewrite ?El, ?Eh, ?Es, ?Er; try done.
  constructor; rewrite ?Eh, ?Es; done.
Qed.

Lemma pages_pgno ps : Forall (page_ok sz) ps -> Forall pgno_ok (pg_pgno <$> ps).
Proof. induction 1 as [|p ps [Hp _] _ IH]; [done|]. by constructor. Qed.

Lemma last_page_ok ps pg : Forall (page_ok sz) ps -> last ps = Some pg -> page_ok sz pg.
Proof.
  intros Hps [ps' ->]%last_Some. apply Forall_app in Hps as [_ Hp]. by apply Forall_cons_1 in Hp as [Hp _].
Qed.

(** Publishing what was written. *)
Lemma wp_commit_publish ps pg t fs new k ord salt c0 (Q : Z -> W -> Prop) s0 s :
  closed s0 s fs new ps ord salt c0 ->
  h_mxFrame (hdr (w_wal s0)) = zlen fs -> wi_ok (sh_idx (w_sh s0)) (frame_pgno <$> fs) ->
  Forall (page_ok sz) ps -> last ps = Some pg ->
  frame_pgno <$> new = (pg_pgno <$> ps) ++ replicate k (pg_pgno pg) ->
  (padToSectorBoundary (w_wal s0) = false -> k = 0%nat) ->
  (exists q c, last new = Some (q, t, c)) ->
  zlen fs + zlen ps + Z.of_nat k < FRAME_MAX ->
  (forall rc s', (rc = SQLITE_OK -> committed s0 s' fs new ps t ord salt c0) -> Q rc s') ->
  wp (publish_frames be sz t true SQLITE_OK (Z.of_nat k) (pg_set_append true <$> ps)
        (Some (pg_set_append true pg))) Q s.
Proof using Hq.
  intros Hc Hmx Hx Hps Hpg Hpages Hk Hlast Hmax HQ.
  pose proof (cl_logging _ _ _ _ _ _ _ _ Hc) as Hlg.
  destruct (wal_ok_salt _ (lg_ok _ _ _ _ _ _ _ Hlg)) as [Hsb Hsl].
  assert (Hall : Forall pgno_ok (pg_pgno <$> ps)).
  { by apply pages_pgno. }
  assert (Hpgok : pgno_ok (pg_pgno pg)) by (destruct (last_page_ok ps pg) as [Hp _]; done).
  apply (wp_publish_frames be Hq sz true t _ (frame_pgno <$> fs) ps (pg_set_append true pg));
    try done; try lia.
  - by rewrite (cl_sh _ _ _ _ _ _ _ _ Hc).
  - rewrite (cl_mx _ _ _ _ _ _ _ _ Hc), Hmx. symmetry. apply zlen_fmap.
  - intros ->. done.
  - unfold zlen at 1. rewrite length_fmap. unfold zlen in *. lia.
  - intros rc s' Hp. apply HQ. intros Hrc. specialize (Hp Hrc). rewrite Nat2Z.id in Hp.
    cbn [pg_set_append pg_pgno] in Hp. rewrite <- Hpages, <- fmap_app in Hp.
    assert (zlen (frame_pgno <$> fs ++ new) = zlen (fs ++ new)) as Hz by apply zlen_fmap.
    destruct Hp as [P1 P2 P3 P4 P5 P6 P7 P8 P9 P10]. rewrite Hz in P6, P10.
    constructor; try done.
    + by apply (next_hdr_logging ord salt c0 s s' (fs ++ new) t (zlen (fs ++ new))).
    + by exists k, pg.
    + intros _ o m Ho Hm Hom. rewrite P1. by apply (cl_keeps _ _ _ _ _ _ _ _ Hc).
    + intros i p. rewrite P1. by apply (cl_data _ _ _ _ _ _ _ _ Hc).
    + by rewrite P6.
    + by rewrite P6.
    + rewrite P6. unfold next_hdr. by apply seal_sealed.
    + apply P9.
    + apply P9.
    + by apply P10.
    + rewrite P2. apply (cl_db _ _ _ _ _ _ _ _ Hc).
    + rewrite P4. by rewrite (cl_sh _ _ _ _ _ _ _ _ Hc).
    + rewrite P3. apply (cl_cur _ _ _ _ _ _ _ _ Hc).
    + rewrite P3. apply (cl_file _ _ _ _ _ _ _ _ Hc).
    + intros HA. rewrite P3. by apply (cl_room _ _ _ _ _ _ _ _ Hc).
    + intros HA Hpad. pose proof (zlen_nonneg fs).
      destruct (cl_mirror _ _ _ _ _ _ _ _ Hc Hpad (zlen fs) (pending (w_aws s0))) as [_ Em]; [|done|].
      * intros _. split; [lia|]. rewrite Z.sub_diag. unfold slice. cbn. by rewrite app_nil_r.
      * by rewrite P3, P1.
Qed.

Lemma closed_frames ord salt c0 p n s s' fs new ps t :
  0 <= n -> iSyncPoint p = 0 -> framed_all be AWS sz ord salt c0 p n s s' fs new ps t ->
  closed s s' fs new ps ord salt c0.
Proof using Hsz.
  intros Hn Hp [Hl ([c Ew] & Es & Ed & _ & Ec & Ef) Hr Hm Hpg Hk Hd _].
  constructor; try done; rewrite ?Ew; try done.
  { split; [|done]. rewrite <- (zlen_fmap pg_pgno ps), <- Hpg, zlen_fmap. done. }
  { intros HA. eapply aws_room_weaken; [|by apply Hr]. done. }
  intros _ k0 P0. apply Hm. rewrite Hp. pose proof (zlen_nonneg fs).
  apply page_size_cases in Hsz.
  pose proof (frameOffset_pos sz (zlen fs + 1) ltac:(lia) ltac:(lia)). unfold frames_end. lia.
Qed.

Lemma closed_padded ord salt c0 n s s1 s2 fs new1 new2 ps pgno t :
  0 <= n -> closed s s1 fs new1 ps ord salt c0 ->
  padded be AWS sz ord salt c0 n s1 s2 (fs ++ new1) new2 pgno t ->
  closed s s2 fs (new1 ++ new2) ps ord salt c0.
Proof.
  intros Hnn [L1 M1 P1 K1 [N1 G1] S1 D1 C1 F1 R1 Mi1] [L2 ([c Ew] & Es & Ed & _ & Ec & Ef) R2 _ Kp _ Hn].
  apply page_size_cases in Hsz as Hszr. pose proof (zlen_nonneg fs). pose proof (zlen_nonneg new1).
  pose proof (zlen_nonneg new2). rewrite zlen_app in Kp.
  constructor; rewrite ?app_assoc; try done; try congruence; try (rewrite Ew; done).
  - eapply keeps_trans; [| |done|done]; lia.
  - split; [rewrite zlen_app; lia|]. eapply holds_pages_keep; [| | |done|done]; lia.
  - intros HA. eapply aws_room_weaken; [|by apply R2]. done.
  - intros Hpad k0 P0 Hm. rewrite P1 in Hn. destruct (Hn Hpad) as [-> Hm2].
  rewrite app_nil_r. by apply Hm2, Mi1.
Qed.

(** After the frames are written the file may be cut behind them. *)
Lemma closed_limited ord salt c0 s s1 s2 s3 fs new ps :
  closed s s1 fs new ps ord salt c0 ->
  logging be sz ord salt c0 s2 (fs ++ new) -> w_wal s2 = w_wal s1 -> w_sh s2 = w_sh s1 ->
  w_db s2 = w_db s1 -> w_aws s2 = w_aws s1 ->
  (forall o amt, 0 <= o -> 0 <= amt -> o + amt <= frames_end sz (zlen (fs ++ new)) ->
     slice o amt (log s2) = slice o amt (log s1)) ->
  s3 = mkWorld (set_truncateOnCommit false (w_wal s2)) (w_sh s2) (w_log s2) (w_db s2) (w_aws s2)
         (w_os s2) ->
  closed s s3 fs new ps ord salt c0.
Proof using Hsz.
  intros [L1 M1 P1 K1 [N1 G1] S1 D1 C1 F1 R1 Mi1] L2 Ew Es Ed Ea Hsl ->.
  apply page_size_cases in Hsz as Hszr. pose proof (zlen_nonneg fs). pose proof (zlen_nonneg new).
  constructor; cbn [w_wal w_sh w_db w_aws w_log]; try congruence.
  - destruct L2 as [? Hok ? ? ? ? ? ? ? ?]. destruct Hok. by constructor.
  - by rewrite <- M1, <- Ew.
  - by rewrite <- P1, <- Ew.
  - eapply keeps_trans; [| |done|exact Hsl]; [lia|rewrite zlen_app; lia].
  - split; [done|]. eapply holds_pages_keep; [| | |exact Hsl|done]; rewrite ?zlen_app; lia.
  - intros HA. cbn [w_aws]. rewrite Ea. by apply R1.
  - intros Hpad k0 P0 Hm HA. cbn [w_log w_aws]. destruct (Mi1 Hpad k0 P0 Hm HA) as [Hk E].
    split; [done|]. rewrite Ea, E. f_equal. symmetry.
    apply page_size_cases in Hsz.
    pose proof (frameOffset_pos sz (k0 + 1) ltac:(lia) ltac:(lia)) as Hpos.
    pose proof (frameOffset_mono sz (k0 + 1) (zlen (fs ++ new) + 1) ltac:(lia) ltac:(lia)) as Hmon.
    apply Hsl; unfold frames_end in *; lia.
Qed.

(** Writing, padding and syncing the frames of a commit, then publishing
    them. *)
Lemma wp_commit_body ps pg t fl fs ord salt c0 (Q : Z * list PgHdr -> W -> Prop) s :
  logging be sz ord salt c0 s fs -> h_mxFrame (hdr (w_wal s)) = zlen fs ->
  wi_ok (sh_idx (w_sh s)) (frame_pgno <$> fs) ->
  Forall (page_ok sz) ps -> last ps = Some pg -> 0 < t < 2 ^ 32 ->
  zlen fs + zlen ps + SECTOR_MAX < FRAME_MAX ->
  room AWS (zlen ps * (sz + 24) + (SECTOR_MAX + (sz + 24))) s ->
  (forall rc s', (rc = SQLITE_OK -> exists new, committed s s' fs new ps t ord salt c0) ->
     Q (rc, pg_set_append true <$> ps) s') ->
  (forall rc pl s', rc <> SQLITE_OK -> Q (rc, pl) s') ->
  wp (frames_body be AWS sz ps t true fl 0 (zlen fs)) Q s.
Proof using Hq Htr Hsec Hsz.
  intros Hlg Hmx Hx Hps Hpg Ht Hmax Hroom HQ Herr. unfold frames_body, get_wal. wp_pure.
  apply page_size_cases in Hsz as Hszr. pose proof (zlen_nonneg fs). pose proof (zlen_nonneg ps).
  unfold SECTOR_MAX, FRAME_MAX in *.
  rewrite (lg_sz _ _ _ _ _ _ _ Hlg), (i32_small sz), Z.eqb_refl by lia. cbn [negb]. wp_pure.
  rewrite u32_small by lia. fold (frames_end sz (zlen fs)).
  apply (wp_write_frames be AWS sz ord salt c0 (mkWriter 0 fl sz) t true (65536 + (sz + 24)) ps _ s fs);
    try done; try (unfold FRAME_MAX; lia).
  intros [[rc pl] g] s1 Hr. cbn [fst snd] in Hr. wp_pure.
  destruct (Z.eqb_spec rc SQLITE_OK) as [->|Hne]; cbn [negb]; wp_pure; [|by apply Herr].
  destruct (Hr eq_refl) as (new1 & -> & Hfa & Eg1 & Eg2 & Eg3). clear Hr.
  destruct g as [gi go gl]. cbn [wg_iFrame wg_iOffset wg_pLast] in *. subst gi go.
  rewrite Hpg in Eg3. subst gl.
  pose proof (closed_frames ord salt c0 (mkWriter 0 fl sz) (65536 + (sz + 24)) s s1 fs new1 _ _
                ltac:(lia) eq_refl Hfa) as Hcl.
  pose proof (fa_logging _ _ _ _ _ _ _ _ _ _ _ _ _ _ Hfa) as Hlg1.
  rewrite (lg_re _ _ _ _ _ _ _ Hlg1). cbn [andb negb Z.eqb]. wp_pure. cbn [negb Z.eqb SQLITE_OK]. wp_pure.
  set (tail := fun r : Z * Z * bool => _).
  assert (Hn1 : zlen new1 = zlen ps).
  { rewrite <- (zlen_fmap frame_pgno new1), (fa_pages _ _ _ _ _ _ _ _ _ _ _ _ _ _ Hfa).
    apply zlen_fmap. }
  enough (Htail : forall rc nExtra stop s2, (stop = true -> rc <> SQLITE_OK) ->
            (rc = SQLITE_OK -> exists new2 m, 0 <= m /\ padded be AWS sz ord salt c0 m s1 s2 (fs ++ new1) new2
               (pg_pgno pg) t /\ nExtra = zlen new2 /\ zlen new2 <= 65536) ->
            tail (rc, nExtra, stop) s2).
  { destruct (negb (WAL_SYNC_FLAGS fl =? 0)).
    - apply (wp_finish_frames be AWS sz ord salt c0 _ t (pg_set_append true pg) 0 _ s1 (fs ++ new1));
        try done; try apply Hsec.
      + exact (last_page_ok ps pg Hps Hpg).
      + unfold SECTOR_MAX, FRAME_MAX. rewrite zlen_app. lia.
      + rewrite Z.add_0_r. apply Hfa.
      + intros [[rc nx] st] s2 Hst Hok. cbn [fst snd] in *. apply Htail; [done|].
        intros Hrc. destruct (Hok Hrc) as (new2 & ? & ? & ?). exists new2, 0. done.
    - change (tail (SQLITE_OK, 0, false) s1). apply Htail; [done|]. intros _. exists [], 0.
      rewrite (@zlen_nil (Z * Z * (Z * Z))). split_and!; try done.
      constructor; rewrite ?app_nil_r; try done; [apply frames_only_refl|].
      intros HA. eapply aws_room_weaken; [|by apply (fa_room _ _ _ _ _ _ _ _ _ _ _ _ _ _ Hfa)]. lia. }
  intros rc nExtra stop s2 Hstop Hrc. unfold tail. clear tail.
  destruct stop; wp_pure; [by apply Herr, Hstop|].
  destruct (decide (rc = SQLITE_OK)) as [->|Hne].
  2:{ assert (Hpub : forall s', wp (publish_frames be sz t true rc nExtra (pg_set_append true <$> ps)
                                     (Some (pg_set_append true pg)))
                                  (fun rc s' => Q (rc, pg_set_append true <$> ps) s') s').
      { intros s'. apply wp_publish_error; [done|]. by apply Herr. }
      destruct (_ && (_ >=? 0)); wp_pure; [|apply Hpub].
      apply wp_walLimitSize_any. intros s'. wp_pure. apply Hpub. }
  destruct (Hrc eq_refl) as (new2 & m & Hm0 & Hpd & -> & Hn2). clear Hrc Hstop.
  pose proof (closed_padded _ _ _ _ _ _ _ _ _ _ _ _ _ Hm0 Hcl Hpd) as Hcl2.
  pose proof (zlen_nonneg new2). rewrite u32_small by (rewrite zlen_app; lia).
  assert (Hend : walFrameOffset (zlen (fs ++ new1) + zlen new2 + 1) sz
                 = frames_end sz (zlen (fs ++ new1 ++ new2))).
  { unfold frames_end. f_equal. rewrite !zlen_app. lia. }
  rewrite Hend.
  enough (Hpub : forall s3, closed s s3 fs (new1 ++ new2) ps ord salt c0 ->
            wp (publish_frames be sz t true SQLITE_OK (zlen new2) (pg_set_append true <$> ps)
                  (Some (pg_set_append true pg)))
               (fun rc s' => Q (rc, pg_set_append true <$> ps) s') s3).
  { destruct (_ && (_ >=? 0)); wp_pure; [|by apply Hpub].
    pose proof (cl_logging _ _ _ _ _ _ _ _ Hcl2) as Hlg2.
    apply (wp_walLimitSize be sz ord salt c0 _ _ _ (fs ++ new1 ++ new2) Htr Hlg2).
    { rewrite Z.gtb_ltb. case_match; lia. }
    intros s3 Hlg3 Ew Es Ed Ea Eo Esl. wp_pure. apply Hpub.
    by apply (closed_limited ord salt c0 s s2 s3). }
  intros s3 Hcl3. apply (wp_commit_publish ps pg t fs (new1 ++ new2) (length new2) ord salt c0 _ s);
    try done.
  - rewrite fmap_app, (fa_pages _ _ _ _ _ _ _ _ _ _ _ _ _ _ Hfa).
    by rewrite (pd_pages _ _ _ _ _ _ _ _ _ _ _ _ _ Hpd).
  - intros Hpad. rewrite <- (cl_pad _ _ _ _ _ _ _ _ Hcl) in Hpad.
    by destruct (pd_none _ _ _ _ _ _ _ _ _ _ _ _ _ Hpd Hpad) as [-> _].
  - rewrite last_app. destruct (last new2) as [fr|] eqn:El.
    + destruct (pd_commit _ _ _ _ _ _ _ _ _ _ _ _ _ Hpd) as (q & c & E); [by intros ->|].
      exists q, c. congruence.
    + apply (fa_commit _ _ _ _ _ _ _ _ _ _ _ _ _ _ Hfa). intros ->.
      destruct ps; [done|]. rewrite zlen_cons in Hn1. rewrite (@zlen_nil (Z * Z * (Z * Z))) in Hn1.
      pose proof (zlen_nonneg ps). lia.
  - unfold zlen, FRAME_MAX in *. lia.
  - intros rc s' Hc. apply HQ. intros Hrc. exists (new1 ++ new2). by apply Hc.
Qed.

(** The writer [s] is ready to append the pages [ps] to a log with the frames
    [fs]: it holds the write lock on the current snapshot and does not read
    from the database alone ([readLock] is not 0).  The log is empty, and
    then its file may hold anything, or [fs] are the frames the handle
    knows. *)
Record commit_pre (s : W) (fs : list (Z * Z * (Z * Z))) (ps : list PgHdr) (t : Z) : Prop := {
  cp_live : sh_hdr0 (w_sh s) = hdr (w_wal s);
  cp_lock : readLock (w_wal s) <> 0;
  cp_mx : h_mxFrame (hdr (w_wal s)) = zlen fs;
  cp_idx : wi_ok (sh_idx (w_sh s)) (frame_pgno <$> fs);
  cp_log : (fs = [] /\ bytes_ok (log s) /\ iReCksum (w_wal s) = 0 /\
              bytes_ok (h_aSalt (hdr (w_wal s))) /\ length (h_aSalt (hdr (w_wal s))) = 8%nat) \/
           (fs <> [] /\ exists ord salt c0, logging be sz ord salt c0 s fs);
  cp_pages : Forall (page_ok sz) ps;
  cp_some : ps <> [];
  cp_size : 0 < t < 2 ^ 32;
  cp_max : zlen fs + zlen ps + SECTOR_MAX < FRAME_MAX;
  cp_room : room AWS (zlen ps * (sz + 24) + (SECTOR_MAX + (sz + 24))) s;
}.

Context (aPrivate : Z -> WiPage) (Hrand : random_law (OS := OS)).

(** A new log: the header changes nothing that the commit speaks of. *)
Lemma committed_header s s1 s' new ps t ord salt c0 :
  header_only s s1 -> committed s1 s' [] new ps t ord salt c0 ->
  committed s s' [] new ps t ord salt c0.
Proof.
  intros (_ & Ep & Es & Ed & Ea) []. rewrite ?Ep, ?Es, ?Ed, ?Ea in *. by constructor.
Qed.

Lemma wp_walRestartLog_reader (Q : Z -> W -> Prop) s :
  readLock (w_wal s) <> 0 -> Q SQLITE_OK s -> wp (walRestartLog be aPrivate) Q s.
Proof.
  intros Hr HQ. unfold walRestartLog, get_wal. wp_pure.
  destruct (Z.eqb_spec (readLock (w_wal s)) 0); [done|]. cbn [negb]. by wp_pure.
Qed.

Lemma sqlite3WalFrames_ok s fs ps t fl :
  commit_pre s fs ps t ->
  wp (sqlite3WalFrames be aPrivate AWS sz ps t true fl) (fun r s' =>
    r.1 = SQLITE_OK -> r.2 = (pg_set_append true <$> ps) /\
      exists new ord salt c0, committed s s' fs new ps t ord salt c0) s.
Proof using Hq Htr Hsec Hsz Hrand.
  intros Hpre. unfold sqlite3WalFrames, live_hdr, get_hdr. wp_pure.
  rewrite (cp_live _ _ _ _ Hpre), bool_decide_true by done. cbn [negb].
  apply wp_walRestartLog_reader; [apply Hpre|]. cbn [negb Z.eqb SQLITE_OK]. wp_pure.
  destruct (last ps) as [pg|] eqn:El; [|by apply last_None in El; destruct (cp_some _ _ _ _ Hpre)].
  assert (Hbody : forall s1, header_only s s1 -> (fs <> [] -> s1 = s) ->
            (exists ord salt c0, logging be sz ord salt c0 s1 fs) ->
            wp (frames_body be AWS sz ps t true fl 0 (h_mxFrame (hdr (w_wal s))))
              (fun r s' => r.1 = SQLITE_OK -> r.2 = (pg_set_append true <$> ps) /\
                 exists new ord salt c0, committed s s' fs new ps t ord salt c0) s1).
  { intros s1 Ho E1 (ord & salt & c0 & Hlg). pose proof Ho as (Em & _ & Es & _ & Ea).
    rewrite (cp_mx _ _ _ _ Hpre).
    apply (wp_commit_body ps pg t fl fs ord salt c0); try done; try apply Hpre.
    - rewrite Em. apply Hpre.
    - rewrite Es. apply Hpre.
    - intros HA. rewrite Ea. by apply (cp_room _ _ _ _ Hpre).
    - intros rc s' Hc Hrc. destruct (Hc Hrc) as [new Hcm]. split; [done|].
      exists new, ord, salt, c0. destruct fs as [|fr fs]; [|by rewrite <- (E1 ltac:(done))].
      by apply (committed_header s s1). }
  destruct (cp_log _ _ _ _ Hpre) as [(-> & Hb & Hre & Hs & Hl)|(Hne & Hlg)].
  - rewrite (cp_mx _ _ _ _ Hpre) in *. rewrite (@zlen_nil (Z * Z * (Z * Z))) in *. cbn [Z.eqb].
    apply wp_write_wal_header; try done. intros rc s1 Hh. wp_pure.
    destruct (Z.eqb_spec rc SQLITE_OK) as [->|Hne]; cbn [negb]; wp_pure; [|done].
    destruct (Hh eq_refl) as [Ho Hlg]. by apply Hbody.
  - rewrite (proj2 (Z.eqb_neq _ _)).
    + wp_pure. cbn [negb Z.eqb SQLITE_OK]. wp_pure. by apply Hbody.
    + rewrite (cp_mx _ _ _ _ Hpre). destruct fs; [done|]. rewrite zlen_cons.
      pose proof (zlen_nonneg fs). lia.
Qed.


Lemma last_commit_zeros rest : forall k acc,
  Forall (fun fr => fr.1.2 = 0) rest -> last_commit k rest acc = acc.
Proof.
  induction rest as [|[[p t] c] rest IH]; intros k acc Hz; [done|].
  apply Forall_cons_1 in Hz as [Ht Hz]. cbn in Ht. subst t. cbn [last_commit Z.eqb]. by apply IH.
Qed.

(** Any file that begins with the frames of a log recovers to a log with these
    frames. *)
Lemma chain_recovers L fs ord salt c0 :
  good_header L sz ord salt c0 -> chain be sz ord salt L c0 1 fs ->
  frames_end sz (zlen fs) <= zlen L ->
  exists rest, log_frames be L sz ord salt c0 = fs ++ rest.
Proof using Hsz.
  intros Hg Hc Hl. unfold log_frames. apply page_size_cases in Hsz as Hszr.
  rewrite (chain_scan _ _ _ _ _ _ _ _ _ Hc); [eauto|].
  unfold frames_end, walFrameOffset, WAL_HDRSIZE, WAL_FRAME_HDRSIZE in Hl.
  assert (zlen fs <= (zlen L - 32) / (sz + 24)) by (apply Z.div_le_lower_bound; lia).
  unfold zlen in *. lia.
Qed.

Lemma slice_prefix_eq (L L' : list Z) N o m :
  0 <= o -> 0 <= m -> o + m <= N -> slice 0 N L = slice 0 N L' -> slice o m L = slice o m L'.
Proof.
  intros Ho Hm HN E.
  assert (Hs : forall X : list Z, slice o m X = slice o m (slice 0 N X)).
  { intros X. unfold slice. cbn [Z.to_nat drop]. rewrite skipn_firstn_comm, take_take.
    f_equal. lia. }
  by rewrite (Hs L), E, <- Hs.
Qed.

Lemma logging_recovers (s : W) fs L ord salt c0 :
  logging be sz ord salt c0 s fs -> frames_end sz (zlen fs) <= zlen L ->
  slice 0 (frames_end sz (zlen fs)) L = slice 0 (frames_end sz (zlen fs)) (log s) ->
  good_header L sz ord salt c0 /\ exists rest, log_frames be L sz ord salt c0 = fs ++ rest.
Proof using Hsz.
  intros Hlg Hl E. apply page_size_cases in Hsz as Hszr. pose proof (zlen_nonneg fs).
  pose proof (frameOffset_pos sz (zlen fs + 1) ltac:(lia) ltac:(lia)) as Hpos.
  fold (frames_end sz (zlen fs)) in Hpos.
  assert (Hg : good_header L sz ord salt c0).
  { assert (slice 0 32 L = slice 0 32 (log s)) as E32 by (eapply slice_prefix_eq; [..|exact E]; lia).
    destruct (lg_hdr _ _ _ _ _ _ _ Hlg). by constructor; rewrite ?E32. }
  split; [done|]. apply chain_recovers; try done.
  set (N := frames_end sz (zlen fs)) in *.
  assert (chain be sz ord salt (take (Z.to_nat N) (log s)) c0 1 fs) as Hc.
  { apply chain_take; [lia|lia| |apply Hlg].
    unfold N, frames_end. replace (1 + zlen fs) with (zlen fs + 1) by lia. lia. }
  assert (take (Z.to_nat N) L = take (Z.to_nat N) (log s)) as Et by exact E.
  rewrite <- Et in Hc. rewrite <- (take_drop (Z.to_nat N) L).
  replace (take (Z.to_nat N) L ++ drop (Z.to_nat N) L)
    with (splice (take (Z.to_nat N) L) N (drop (Z.to_nat N) L)).
  - assert (zlen (take (Z.to_nat N) L) = N) as Hz by (apply zlen_take; lia).
    apply chain_splice; try done; try lia; unfold N, frames_end in *;
      replace (1 + zlen fs) with (zlen fs + 1) by lia; lia.
  - unfold splice. assert (length (take (Z.to_nat N) L) = Z.to_nat N) as Hn.
    { rewrite length_take. unfold zlen in Hl. lia. }
    rewrite Hn, Nat.sub_diag. cbn [replicate]. rewrite app_nil_r, take_ge by lia.
    rewrite (drop_ge (take _ _)) by lia. by rewrite app_nil_r.
Qed.

(** C1.  A commit survives a crash: after [sqlite3WalFrames] has returned
    [SQLITE_OK] for a commit, take any state whose log file begins with the
    bytes written, whatever follows them there and whatever the wal-index
    holds.  Recovery of that state, when it returns [SQLITE_OK], finds all
    the frames of the transaction and of those before it: [mxFrame] covers
    them and the index has them first; and when no valid commit frame follows
    them by chance, [mxFrame] and the database size are exactly those of the
    commit. *)
Theorem commit_survives_crash s fs ps t fl :
  shm_map_law -> commit_pre s fs ps t ->
  wp (sqlite3WalFrames be aPrivate AWS sz ps t true fl) (fun r s' =>
    r.1 = SQLITE_OK -> exists new, zlen ps <= zlen new /\
      h_mxFrame (hdr (w_wal s')) = zlen (fs ++ new) /\
      forall c : W, recover_pre c ->
        frames_end sz (zlen (fs ++ new)) <= zlen (log c) ->
        slice 0 (frames_end sz (zlen (fs ++ new))) (log c) =
          slice 0 (frames_end sz (zlen (fs ++ new))) (log s') ->
        wp (walIndexRecover be aPrivate) (fun rc c' => rc = SQLITE_OK ->
          exists rest, wi_clean (sh_idx (w_sh c')) (frame_pgno <$> (fs ++ new) ++ rest) /\
            zlen (fs ++ new) <= h_mxFrame (hdr (w_wal c')) /\
            (Forall (fun fr => fr.1.2 = 0) rest ->
               h_mxFrame (hdr (w_wal c')) = zlen (fs ++ new) /\
               h_nPage (hdr (w_wal c')) = t)) c) s.
Proof using Hq Htr Hsec Hsz Hrand.
  intros Hmap Hpre. eapply wp_mono; [|by apply (sqlite3WalFrames_ok s fs ps t)].
  intros r s' Hr Hrc. destruct (Hr Hrc) as (_ & new & ord & salt & c0 & Hcm).
  exists new. destruct (cm_pages _ _ _ _ _ _ _ _ _ Hcm) as (k & pg & _ & Hpg & _).
  assert (Hnew : zlen ps <= zlen new).
  { rewrite <- (zlen_fmap frame_pgno new), Hpg, zlen_app, zlen_fmap.
    pose proof (zlen_nonneg (replicate k (pg_pgno pg))). lia. }
  split_and!; [done|by apply Hcm|]. intros c Hc Hlen Heq.
  destruct (logging_recovers _ _ _ _ _ _ (cm_logging _ _ _ _ _ _ _ _ _ Hcm) Hlen Heq)
    as (Hg & rest & Efr).
  eapply wp_mono; [|by apply walIndexRecover_ok].
  intros rc c' Hrec Hrc'. specialize (Hrec Hrc').
  apply page_size_cases in Hsz as Hszr. pose proof (zlen_nonneg fs).
  assert (Hn0 : 0 < zlen (fs ++ new)).
  { rewrite zlen_app. destruct ps; [by destruct (cp_some _ _ _ _ Hpre)|].
    rewrite zlen_cons in Hnew. pose proof (zlen_nonneg ps). lia. }
  assert (H32 : 32 < zlen (log c)).
  { unfold frames_end, walFrameOffset, WAL_HDRSIZE, WAL_FRAME_HDRSIZE in Hlen. nia. }
  destruct (rec_hdr _ _ _ _ Hrec) as [[?|Hbad] _ _ _|sz' ord' salt' c1 Hg' _ Hlast _ _ _ Hx];
    [lia|by destruct (Hbad _ _ _ _ Hg)|].
  destruct (good_header_inj _ _ _ _ _ _ _ _ _ Hg Hg') as (-> & -> & -> & ->).
  rewrite Efr in Hlast, Hx. exists rest.
  destruct (cm_last _ _ _ _ _ _ _ _ _ Hcm) as (q & cc & El). pose proof (cp_size _ _ _ _ Hpre).
  assert (El' : last (fs ++ new) = Some (q, t, cc)) by (rewrite last_app; by rewrite El).
  split_and!; [done| |].
  - pose proof (last_commit_ge (fs ++ new) rest q t cc El' ltac:(lia)) as Hge.
    by rewrite Hlast in Hge.
  - intros Hz. rewrite last_commit_app, (last_commit_zeros rest) in Hlast by done.
    apply last_Some in El' as [pre El']. rewrite El', last_commit_snoc in Hlast.
    rewrite (proj2 (Z.eqb_neq t 0)) in Hlast by lia. injection Hlast as E1 E2 _.
    split; [|done]. rewrite <- E1, El', zlen_app. change (zlen [(q, t, cc)]) with 1. lia.
Qed.
End commit.

(** ** An instance: two transactions on a new log *)

Definition writer_wal (pad : bool) : Wal :=
  mkWal 0 (-1) 512 1 0 true false 0 false true pad false (hset_aSalt (replicate 8 0) hdr_zero) 0 0 0.

(** The upload buffer after a file was mapped. *)
Definition open_aws : Aws := mkAws (replicate (Z.to_nat AWS_FILESZ) 0) 0 0 [97; 119; 115].

Definition writer_world : World ByteFile unit :=
  mkWorld (writer_wal false)
    (mkShared (hdr (writer_wal false)) (hdr (writer_wal false)) (mkCkpt 0 [0; 0; 0; 0; 0] 0) (walIdx ∅ 0))
    (byte_file [1; 2; 3]) (byte_file []) open_aws tt.

Definition sample_pages : list PgHdr :=
  [mkPg 1 (replicate 512 11) false; mkPg 3 (replicate 512 33) false].

(** The first transaction writes pages 1 and 3, the second page 1. *)
Definition sample_commits (pad : bool) : option (Z * Z * Z * list Z * Z) :=
  match @sqlite3WalFrames ByteFile unit _ _ sample_env false zero_page 0 512 sample_pages 3 true 2
          (mkWorld (writer_wal pad) (w_sh writer_world) (w_log writer_world) (byte_file []) aws_init tt) with
  | Some ((rc1, _), s1) =>
      match @sqlite3WalFrames ByteFile unit _ _ sample_env false zero_page 0 512
              [mkPg 1 (replicate 512 44) false] 3 true 2 s1 with
      | Some ((rc2, _), s2) =>
          Some (rc1, rc2, h_mxFrame (sh_hdr0 (w_sh s2)),
                slice (walFrameOffset (h_mxFrame (sh_hdr0 (w_sh s2))) 512 + 24) 3 (content (w_log s2)),
                zlen (content (w_log s2)))
      | None => None
      end
  | None => None
  end.

Example sample_commits_result :
  sample_commits false = Some (SQLITE_OK, SQLITE_OK, 3, [44; 44; 44], 32 + 3 * 536).
Proof. vm_compute. reflexivity. Qed.

(** Each is padded to a sector of 4096 bytes. *)
Example sample_commits_padded :
  sample_commits true = Some (SQLITE_OK, SQLITE_OK, 16, [44; 44; 44], 32 + 16 * 536).
Proof. vm_compute. reflexivity. Qed.

Lemma byte_file_truncate_law : truncate_law (F := ByteFile).
Proof. intros f n rc f' E Hrc. injection E as <- _. done. Qed.

Lemma unit_os_random_law : random_law (OS := unit).
Proof.
  intros o n Hn. split; [|change (zlen (replicate (Z.to_nat n) 7) = n); rewrite zlen_replicate; lia].
  apply Forall_replicate. unfold byte_ok. lia.
Qed.

Lemma unit_os_sector (o : unit) : 0 < xSectorSize o <= SECTOR_MAX.
Proof. done. Qed.

Lemma open_aws_room n : 0 <= n <= AWS_FILESZ -> aws_room n open_aws.
Proof.
  intros Hn. assert (zlen (aws_ptr open_aws) = AWS_FILESZ) as E.
  { unfold open_aws, aws_ptr. rewrite zlen_replicate, Z2Nat.id; done. }
  split_and!; [done| |done]. rewrite E. cbn. lia.
Qed.

Lemma page_size_512 : page_size_ok 512.
Proof. exists 9. done. Qed.

Lemma writer_world_pre : commit_pre false 2 512 writer_world [] sample_pages 3.
Proof.
  constructor.
  - reflexivity.
  - done.
  - reflexivity.
  - intros i Hi Hl. pose proof (iZero_nonneg i Hi). change (hash_iZero i < 0) in Hl. lia.
  - left. split_and!; try reflexivity; apply (bool_decide_unpack _); vm_compute; exact I.
  - apply (bool_decide_unpack _). vm_compute. exact I.
  - discriminate.
  - lia.
  - vm_compute. reflexivity.
  - intros _. apply open_aws_room. vm_compute. split; discriminate.
Qed.


Lemma commit_survives_crash_witness :
  wp (@sqlite3WalFrames ByteFile unit _ _ sample_env false zero_page 2 512 sample_pages 3 true 2)
    (fun r s' => r.1 = SQLITE_OK -> exists new, zlen sample_pages <= zlen new /\
      h_mxFrame (hdr (w_wal s')) = zlen ([] ++ new) /\
      forall c : World ByteFile unit, recover_pre c ->
        frames_end 512 (zlen ([] ++ new)) <= zlen (content (w_log c)) ->
        slice 0 (frames_end 512 (zlen ([] ++ new))) (content (w_log c)) =
          slice 0 (frames_end 512 (zlen ([] ++ new))) (content (w_log s')) ->
        wp (@walIndexRecover ByteFile unit _ _ sample_env false zero_page) (fun rc c' =>
          rc = SQLITE_OK ->
          exists rest, wi_clean (sh_idx (w_sh c')) (frame_pgno <$> ([] ++ new) ++ rest) /\
            zlen ([] ++ new) <= h_mxFrame (hdr (w_wal c')) /\
            (Forall (fun fr => fr.1.2 = 0) rest ->
               h_mxFrame (hdr (w_wal c')) = zlen ([] ++ new) /\
               h_nPage (hdr (w_wal c')) = 3)) c) writer_world.
Proof.
  exact (@commit_survives_crash ByteFile unit _ _ sample_env false 2 unit_os_quiet
           byte_file_truncate_law unit_os_sector 512 page_size_512 zero_page
           unit_os_random_law writer_world [] sample_pages 3 2 sample_env_law writer_world_pre).
Defined.
