(* ===== verification/WalSort.v ===== *)
(** The iterator a checkpoint uses: [walMerge] and [walMergesort] sort the
    frames of one page of the index by database page, keeping the last frame
    of each; [walIteratorNext] merges the pages of the index.

    The sublists that [walMergesort] keeps are consecutive parts of one array;
    they never overlap, and are values here. *)
From Stdlib Require Import Sorting.Sorted.
From S2P Require Import Prelude.
From S2P Require Import Vfs.
From S2P Require Import WalTypes.
From S2P Require Import WalIndex.
Open Scope Z_scope.

(** * Merging *)

(** The main loop of [walMerge]: what is written to [aTmp]. *)
Fixpoint merge_loop (fuel : nat) (aContent aLeft aRight : list Z) : option (list Z) :=
  match fuel with
  | O => None
  | S fuel =>
      match aLeft, aRight with
      | [], [] => Some []
      | _, _ =>
          useLeft ←
            match aLeft, aRight with
            | [], _ => Some false
            | _, [] => Some true
            | l :: _, r :: _ =>
                cl ← aContent.[l]; cr ← aContent.[r]; Some (cl <? cr)
            end;
          '(logpage, aLeft, aRight) ←
            match useLeft : bool, aLeft, aRight with
            | true, l :: aLeft, _ => Some (l, aLeft, aRight)
            | false, _, r :: aRight => Some (r, aLeft, aRight)
            | _, _, _ => None
            end;
          dbpage ← aContent.[logpage];
          aLeft ←
            match aLeft with
            | l :: aLeft' => cl ← aContent.[l]; Some (if cl =? dbpage then aLeft' else aLeft)
            | [] => Some []
            end;
          aTmp ← merge_loop fuel aContent aLeft aRight;
          Some (logpage :: aTmp)
      end
  end.

Definition walMerge (aContent aLeft aRight : list Z) : option (list Z) :=
  merge_loop (S (length aLeft + length aRight)) aContent aLeft aRight.

(** * Sorting *)

Definition ARRAYSIZE_aSub : Z := 13.

(** [for(iSub=0; iList & (1<<iSub); iSub++)]: the level reached and the merged
    list. *)
Fixpoint sort_carry (fuel : nat) (aContent : list Z) (aSub : list (list Z))
    (iList iSub : Z) (aMerge : list Z) : option (Z * list Z) :=
  if Z.land iList (Z.shiftl 1 iSub) =? 0 then Some (iSub, aMerge) else
  match fuel with
  | O => None
  | S fuel =>
      p ← aSub.[iSub];
      aMerge ← walMerge aContent p aMerge;
      sort_carry fuel aContent aSub iList (iSub + 1) aMerge
  end.

(** The loop over the list, from [iList] on: the sublists, and [iSub] and
    [aMerge] as the last iteration leaves them. *)
Fixpoint sort_insert (aContent : list Z) (aSub : list (list Z)) (iList : Z)
    (last : Z * list Z) (aList : list Z) : option (list (list Z) * (Z * list Z)) :=
  match aList with
  | [] => Some (aSub, last)
  | x :: aList =>
      '(iSub, aMerge) ← sort_carry 13 aContent aSub iList 0 [x];
      aSub ← aSub.[iSub <- aMerge];
      sort_insert aContent aSub (iList + 1) (iSub, aMerge) aList
  end.

(** [for(iSub++; iSub<ArraySize(aSub); iSub++)], [n] iterations. *)
Fixpoint sort_final (n : nat) (aContent : list Z) (aSub : list (list Z))
    (nList iSub : Z) (aMerge : list Z) : option (list Z) :=
  match n with
  | O => Some aMerge
  | S n =>
      aMerge ← (if negb (Z.land nList (Z.shiftl 1 iSub) =? 0) then
                  p ← aSub.[iSub]; walMerge aContent p aMerge
                else Some aMerge);
      sort_final n aContent aSub nList (iSub + 1) aMerge
  end.

Definition walMergesort (aContent aList : list Z) : option (list Z) :=
  '(aSub, (iSub, aMerge)) ←
     sort_insert aContent (replicate 13 []) 0 (0, []) aList;
  sort_final (Z.to_nat (ARRAYSIZE_aSub - (iSub + 1))) aContent aSub (zlen aList)
    (iSub + 1) aMerge.

(** * The iterator *)

Record WalSegment := mkSegment {
  seg_iNext : Z;
  seg_aIndex : list Z;
  seg_aPgno : list Z;
  seg_nEntry : Z;
  seg_iZero : Z;
}.

Record WalIterator := mkIterator {
  iPrior : Z;
  aSegment : list WalSegment;
}.

(** The [while] loop on one segment, [n] entries left: the position it stops
    at, the smallest page found so far and its frame. *)
Fixpoint segment_next (n : nat) (p : WalSegment) (iMin iNext : Z) (best : Z * option Z)
    : option (Z * (Z * option Z)) :=
  match n with
  | O => Some (iNext, best)
  | S n =>
      idx ← (seg_aIndex p).[iNext];
      iPg ← (seg_aPgno p).[idx];
      if iPg >? iMin then
        Some (iNext, if iPg <? best.1 then (iPg, Some (u32 (seg_iZero p + idx))) else best)
      else segment_next n p iMin (iNext + 1) best
  end.

(** The segments from the last to the first. *)
Fixpoint segments_next (segs : list WalSegment) (iMin : Z)
    : option (list WalSegment * (Z * option Z)) :=
  match segs with
  | [] => Some ([], (0xFFFFFFFF, None))
  | p :: segs =>
      '(segs, best) ← segments_next segs iMin;
      '(iNext, best) ← segment_next (Z.to_nat (seg_nEntry p - seg_iNext p)) p iMin
                         (seg_iNext p) best;
      Some (mkSegment iNext (seg_aIndex p) (seg_aPgno p) (seg_nEntry p) (seg_iZero p) :: segs,
            best)
  end.

(** 0 and the page and frame, or 1; [*piFrame] is not written in that case. *)
Definition walIteratorNext (p : WalIterator) : option (Z * Z * option Z * WalIterator) :=
  '(segs, (iRet, piFrame)) ← segments_next (aSegment p) (iPrior p);
  Some (Z.b2z (iRet =? 0xFFFFFFFF), iRet, piFrame, mkIterator iRet segs).

Section init.
Context `{ShmEnv}.

(** The index of one page of the wal-index, sorted. *)
Definition init_segment (iLast nSegment i iZero : Z) (pg : WiPage) : option WalSegment :=
  let nEntry := if i + 1 =? nSegment then i32 (u32 (iLast - iZero)) else zlen (aPgno pg) in
  aIndex ← walMergesort (aPgno pg) (u16 <$> seqZ 0 nEntry);
  Some (mkSegment 0 aIndex (aPgno pg) (zlen aIndex) (iZero + 1)).

Fixpoint init_segments (n : nat) (pWal : Wal) (x : WalIdx) (iLast nSegment i : Z)
    (segs : list WalSegment) : option (Z * list WalSegment * Wal * WalIdx) :=
  match n with
  | O => Some (SQLITE_OK, segs, pWal, x)
  | S n =>
      let '(rc, loc, pWal, x) := walHashGet pWal x i in
      if negb (rc =? SQLITE_OK) then Some (rc, segs, pWal, x) else
      '(iZero, pg) ← loc;
      seg ← init_segment iLast nSegment i iZero pg;
      segs ← segs.[i <- seg];
      init_segments n pWal x iLast nSegment (i + 1) segs
  end.

(** The two allocations are inputs.  Segments before the first one are left
    zeroed: they have no entries. *)
Definition walIteratorInit (alloc alloc_tmp : bool) (pWal : Wal) (x : WalIdx)
    (nBackfill : Z) : option (Z * option WalIterator * Wal * WalIdx) :=
  let iLast := h_mxFrame (hdr pWal) in
  let nSegment := walFramePage iLast + 1 in
  if negb alloc then Some (SQLITE_NOMEM, None, pWal, x) else
  if negb alloc_tmp then Some (SQLITE_NOMEM, None, pWal, x) else
  let first := walFramePage (u32 (nBackfill + 1)) in
  '(rc, segs, pWal, x) ←
     init_segments (Z.to_nat (nSegment - first)) pWal x iLast nSegment first
       (replicate (Z.to_nat nSegment) (mkSegment 0 [] [] 0 0));
  if negb (rc =? SQLITE_OK) then Some (rc, None, pWal, x)
  else Some (SQLITE_OK, Some (mkIterator 0 segs), pWal, x).
End init.

(** * Correctness of the merge *)

Section merge.
Context (aC : list Z).

Definition key (i : Z) : Z := default 0 (aC.[i]).

Definition indexes (l : list Z) : Prop := Forall (fun i => 0 <= i < zlen aC) l.

Definition key_sorted (l : list Z) : Prop := StronglySorted (fun i j => key i < key j) l.

Lemma key_get i : 0 <= i < zlen aC -> aC.[i] = Some (key i).
Proof. intros Hi. unfold key. destruct (zget_some aC i Hi) as [x ->]. done. Qed.

Lemma key_sorted_cons x l :
  key_sorted (x :: l) <-> key_sorted l /\ forall y, y ∈ l -> key x < key y.
Proof.
  unfold key_sorted. split.
  - intros Hs. apply StronglySorted_inv in Hs as [Hs Hf]. split; [done|].
    intros y Hy. rewrite Forall_forall in Hf. apply Hf. by apply list_elem_of_In.
  - intros [Hs Hf]. constructor; [done|]. apply List.Forall_forall. intros y Hy.
    apply Hf. by apply list_elem_of_In.
Qed.

(** What the merge of [l] and [r] holds: all of [r], and of [l] the entries
    whose key is not in [r]. *)
Definition merged (l r m : list Z) : Prop :=
  key_sorted m /\
  forall k, k ∈ m <-> k ∈ r \/ (k ∈ l /\ forall j, j ∈ r -> key j <> key k).

Lemma merge_loop_ok n : forall l r,
  (length l + length r < n)%nat -> indexes l -> indexes r ->
  key_sorted l -> key_sorted r ->
  exists m, merge_loop n aC l r = Some m /\ merged l r m.
Proof.
  induction n as [|n IH]; intros l r Hn Hl Hr Sl Sr; [lia|].
  (* taking [x] in front of the merge of what is left *)
  assert (Hstep : forall x l' r', (length l' + length r' < n)%nat ->
            indexes l' -> indexes r' -> key_sorted l' -> key_sorted r' ->
            (forall y, y ∈ l' -> key x < key y) -> (forall y, y ∈ r' -> key x < key y) ->
            (forall k, k = x \/ k ∈ r' \/ (k ∈ l' /\ forall j, j ∈ r' -> key j <> key k) <->
                       k ∈ r \/ (k ∈ l /\ forall j, j ∈ r -> key j <> key k)) ->
            exists m, (aTmp ← merge_loop n aC l' r'; Some (x :: aTmp)) = Some m /\ merged l r m).
  { intros x l' r' Hn' Hl' Hr' Sl' Sr' Fl Fr Hk.
    destruct (IH l' r' Hn' Hl' Hr' Sl' Sr') as (m & -> & Sm & Hm).
    exists (x :: m). split; [done|]. split.
    - apply key_sorted_cons. split; [done|]. intros y [Hy|[Hy _]]%Hm; auto.
    - intros k. rewrite elem_of_cons, Hm. apply Hk. }
  destruct l as [|x l], r as [|y r]; cbn [merge_loop mbind option_bind].
  - exists []. split; [done|]. split; [constructor|]. intros k. set_solver.
  - apply Forall_cons_1 in Hr as [Hy Hr]. apply key_sorted_cons in Sr as [Sr Fr].
    rewrite (key_get y Hy). cbn [mbind option_bind]. simpl in Hn.
    apply Hstep; try done; [simpl; lia|set_solver|]. intros k. set_solver.
  - apply Forall_cons_1 in Hl as [Hx Hl]. apply key_sorted_cons in Sl as [Sl Fl].
    rewrite (key_get x Hx). cbn [mbind option_bind]. simpl in Hn.
    assert ((match l with
             | l0 :: aLeft' => cl ← aC.[l0]; Some (if cl =? key x then aLeft' else l)
             | [] => Some []
             end) = Some l) as ->.
    { destruct l as [|x' l]; [done|]. pose proof (Fl x' ltac:(set_solver)).
      apply Forall_cons_1 in Hl as [Hx' _]. rewrite (key_get x' Hx'). cbn [mbind option_bind].
      destruct (Z.eqb_spec (key x') (key x)); [lia|done]. }
    cbn [mbind option_bind]. apply Hstep; try done; [simpl; lia|set_solver|].
    intros k. set_solver.
  - apply Forall_cons_1 in Hl as [Hx Hl]. apply key_sorted_cons in Sl as [Sl Fl].
    apply Forall_cons_1 in Hr as [Hy Hr]. apply key_sorted_cons in Sr as [Sr Fr].
    rewrite (key_get x Hx), (key_get y Hy). cbn [mbind option_bind]. simpl in Hn.
    assert (Fl2 : forall z, key z < key y -> (forall u, u ∈ y :: r -> key z < key u)).
    { intros z Hz u [->|Hu]%elem_of_cons; [done|]. specialize (Fr u Hu). lia. }
    destruct (Z.ltb_spec (key x) (key y)) as [Hlt|Hge]; cbn [mbind option_bind].
    + rewrite (key_get x Hx). cbn [mbind option_bind].
      assert ((match l with
               | l0 :: aLeft' => cl ← aC.[l0]; Some (if cl =? key x then aLeft' else l)
               | [] => Some []
               end) = Some l) as ->.
      { destruct l as [|x' l]; [done|]. pose proof (Fl x' ltac:(set_solver)).
        apply Forall_cons_1 in Hl as [Hx' _]. rewrite (key_get x' Hx'). cbn [mbind option_bind].
        destruct (Z.eqb_spec (key x') (key x)); [lia|done]. }
      cbn [mbind option_bind]. apply Hstep; try done.
      * simpl. lia.
      * by constructor.
      * by apply key_sorted_cons.
      * by apply Fl2.
      * intros k. rewrite (elem_of_cons l). split.
        -- intros [->|[Hk|[Hk Hj]]]; [|by left|right; auto].
           right. split; [by left|]. intros j Hj. pose proof (Fl2 x Hlt j Hj). lia.
        -- intros [Hk|[[->|Hk] Hj]]; auto.
    + rewrite (key_get y Hy), (key_get x Hx). cbn [mbind option_bind].
      destruct (Z.eqb_spec (key x) (key y)) as [Heq|Hne].
      * apply Hstep; try done; [simpl; lia|intros z Hz; specialize (Fl z Hz); lia|].
        intros k. rewrite !elem_of_cons. split.
        -- intros [->|[Hk|[Hk Hj]]]; [by left; left|by left; right|].
           destruct (decide (key k = key y)) as [E|].
           ++ specialize (Fl k Hk). lia.
           ++ right. split; [by right|]. intros j [->|Hj']%elem_of_cons; [done|]. by apply Hj.
        -- intros [[->|Hk]|[[->|Hk] Hj]]; auto.
           ++ exfalso. apply (Hj y); [by left|done].
           ++ right. right. split; [done|]. intros j Hj'. apply Hj. by right.
      * apply Hstep; try done; [simpl; lia|by constructor|by apply key_sorted_cons| |].
        -- intros z [->|Hz]%elem_of_cons; [lia|]. specialize (Fl z Hz). lia.
        -- intros k. rewrite (elem_of_cons r), !(elem_of_cons l). split.
           ++ intros [->|[Hk|[Hk Hj]]]; [by left; left|by left; right|].
              right. split; [done|]. intros j [->|Hj']%elem_of_cons; [|by apply Hj].
              destruct Hk as [->|Hk]; [lia|]. specialize (Fl k Hk). lia.
           ++ intros [[->|Hk]|[Hk Hj]]; auto. right. right. split; [done|].
              intros j Hj'. apply Hj. by right.
Qed.
End merge.

(** * Correctness of the sort *)

Section sort.
Context (aC : list Z).
Local Abbreviation key := (key aC).

(** [l] holds the last occurrence of each key of the positions [lo..hi-1], in
    the order of the keys. *)
Record sorted_block (lo hi : Z) (l : list Z) : Prop := {
  sb_sorted : key_sorted aC l;
  sb_last : forall k, k ∈ l <-> lo <= k < hi /\ forall j, k < j < hi -> key j <> key k;
}.

Lemma sorted_block_range lo hi l k : sorted_block lo hi l -> k ∈ l -> lo <= k < hi.
Proof. intros Hb Hk. by apply (sb_last _ _ _ Hb) in Hk as [? _]. Qed.

Lemma sorted_block_indexes lo hi l :
  0 <= lo -> hi <= zlen aC -> sorted_block lo hi l -> indexes aC l.
Proof.
  intros Hlo Hhi Hb. apply List.Forall_forall. intros k Hk%list_elem_of_In.
  pose proof (sorted_block_range _ _ _ k Hb Hk). lia.
Qed.

(** Every key of the block is represented. *)
Lemma sorted_block_all lo hi l j :
  sorted_block lo hi l -> lo <= j < hi -> exists k, k ∈ l /\ key k = key j /\ j <= k.
Proof.
  intros Hb Hj. 
  assert (Hn : forall n : nat, forall j, lo <= j < hi -> hi - j <= Z.of_nat n ->
            exists k, k ∈ l /\ key k = key j /\ j <= k).
  { induction n as [|n IH]; intros i Hi Hn; [lia|].
    destruct (decide (Exists (fun u => key u = key i) (seqZ (i + 1) (hi - i - 1)))) as [He|He].
    - apply List.Exists_exists in He as (u & Hu%list_elem_of_In%elem_of_seqZ & E).
      destruct (IH u) as (k & Hk & Ek & ?); [lia|lia|]. exists k. split_and!; [done|congruence|lia].
    - exists i. split_and!; [|done|lia]. apply (sb_last _ _ _ Hb). split; [done|].
      intros u Hu E. apply He, List.Exists_exists. exists u. split; [|done].
      apply list_elem_of_In, elem_of_seqZ. lia. }
  apply (Hn (Z.to_nat (hi - j))); lia.
Qed.

Lemma sorted_block_single x : sorted_block x (x + 1) [x].
Proof.
  constructor; [by repeat constructor|]. intros k. rewrite list_elem_of_singleton. split.
  - intros ->. split; [lia|]. intros j Hj. lia.
  - intros [Hk _]. lia.
Qed.

Lemma walMerge_ok lo mid hi l r :
  0 <= lo -> hi <= zlen aC -> lo <= mid <= hi ->
  sorted_block lo mid l -> sorted_block mid hi r ->
  exists m, walMerge aC l r = Some m /\ sorted_block lo hi m.
Proof.
  intros Hlo Hhi Hmid Hl Hr. unfold walMerge.
  destruct (merge_loop_ok aC (S (length l + length r)) l r) as (m & E & Sm & Hm).
  - lia.
  - by apply (sorted_block_indexes lo mid); [lia|lia|].
  - by apply (sorted_block_indexes mid hi); [lia|lia|].
  - apply (sb_sorted _ _ _ Hl).
  - apply (sb_sorted _ _ _ Hr).
  - exists m. split; [done|]. constructor; [done|]. intros k. rewrite Hm.
    rewrite (sb_last _ _ _ Hr k), (sb_last _ _ _ Hl k). split.
    + intros [[Hk Hj]|[[Hk Hj] Hno]]; [split; [lia|done]|]. split; [lia|].
      intros j Hjr E'. destruct (decide (j < mid)) as [|Hge]; [by apply (Hj j); [lia|]|].
      destruct (sorted_block_all mid hi r j Hr) as (u & Hu & Eu & _); [lia|].
      apply (Hno u Hu). congruence.
    + intros [Hk Hj]. destruct (decide (mid <= k)) as [|Hlt]; [left; split; [lia|done]|].
      right. split; [split; [lia|]|].
      * intros j Hjr. apply Hj. lia.
      * intros j Hjr. apply Hj. pose proof (sorted_block_range _ _ _ j Hr Hjr). lia.
Qed.

(** ** The binary counter of sublists *)

(** [n] with its [b] low bits cleared. *)
Definition base (b n : Z) : Z := n / 2 ^ b * 2 ^ b.

Lemma bit_land n b : 0 <= b -> (Z.land n (Z.shiftl 1 b) =? 0) = negb (Z.testbit n b).
Proof.
  intros Hb. rewrite Z.shiftl_1_l. apply eq_iff_eq_true.
  rewrite Z.eqb_eq, negb_true_iff. split.
  - intros E. apply (f_equal (fun z => Z.testbit z b)) in E.
    rewrite Z.land_spec, Z.pow2_bits_true, andb_true_r, Z.bits_0 in E by done. done.
  - intros E. apply Z.bits_inj'. intros i Hi. rewrite Z.land_spec, Z.bits_0.
    destruct (decide (i = b)) as [->|]; [by rewrite E|].
    rewrite Z.pow2_bits_false by done. apply andb_false_r.
Qed.

Lemma testbit_div n b : 0 <= b -> Z.testbit n b = Z.odd (n / 2 ^ b).
Proof. intros. by rewrite Z.testbit_odd, Z.shiftr_div_pow2. Qed.

(** Clearing one more bit. *)
Lemma base_S n b :
  0 <= b -> base b n = base (b + 1) n + (if Z.testbit n b then 2 ^ b else 0).
Proof.
  intros Hb. rewrite testbit_div by done. unfold base.
  rewrite Z.pow_add_r, Z.pow_1_r by lia.
  rewrite <- Z.div_div by lia. pose proof (Z.pow_pos_nonneg 2 b ltac:(lia) Hb).
  pose proof (Z.div_mod (n / 2 ^ b) 2 ltac:(lia)) as E.
  rewrite Zmod_odd in E. destruct (Z.odd (n / 2 ^ b)); nia.
Qed.

Lemma base_0 n : base 0 n = n.
Proof. unfold base. rewrite Z.pow_0_r, Z.div_1_r. lia. Qed.

Lemma base_range n b : 0 <= n -> 0 <= b -> 0 <= base b n <= n.
Proof.
  intros Hn Hb. unfold base. pose proof (Z.pow_pos_nonneg 2 b ltac:(lia) Hb).
  pose proof (Z.div_mod n (2 ^ b) ltac:(lia)). pose proof (Z.mod_pos_bound n (2 ^ b)).
  pose proof (Z.div_pos n (2 ^ b)). nia.
Qed.

Lemma base_small n b : 0 <= n < 2 ^ b -> base b n = 0.
Proof. intros. unfold base. by rewrite Z.div_small by lia. Qed.

(** Adding one: the lowest clear bit is set, the ones below are cleared. *)
Lemma div_succ n b c :
  0 <= b -> base b n + 2 ^ b = n + 1 -> Z.testbit n b = false -> b < c ->
  (n + 1) / 2 ^ c = n / 2 ^ c.
Proof.
  intros Hb Hn Ht Hc. pose proof (base_S n b Hb) as E. rewrite Ht in E.
  replace c with (b + 1 + (c - b - 1)) by lia. rewrite Z.pow_add_r by lia.
  pose proof (Z.pow_pos_nonneg 2 b ltac:(lia) Hb).
  pose proof (Z.pow_pos_nonneg 2 (c - b - 1) ltac:(lia) ltac:(lia)).
  assert (2 ^ (b + 1) = 2 * 2 ^ b) as Ep by (rewrite Z.pow_add_r by lia; lia).
  rewrite <- !Z.div_div by lia. f_equal. unfold base in E.
  symmetry. rewrite Z.add_0_r in E.
  apply Z.div_unique_pos with (2 ^ b); [lia|]. unfold base in Hn. lia.
Qed.

Lemma base_succ n b c :
  0 <= b -> base b n + 2 ^ b = n + 1 -> Z.testbit n b = false -> b < c ->
  base c (n + 1) = base c n.
Proof. intros. unfold base. by rewrite (div_succ n b c). Qed.

Lemma testbit_succ n b c :
  0 <= b -> base b n + 2 ^ b = n + 1 -> Z.testbit n b = false -> b < c ->
  Z.testbit (n + 1) c = Z.testbit n c.
Proof. intros. rewrite !testbit_div by lia. by rewrite (div_succ n b c). Qed.

Lemma testbit_succ_low n b c :
  0 <= c < b -> base b n + 2 ^ b = n + 1 -> Z.testbit (n + 1) c = false.
Proof.
  intros Hc Hn. rewrite <- Hn. unfold base.
  replace (n / 2 ^ b * 2 ^ b + 2 ^ b) with ((n / 2 ^ b + 1) * 2 ^ b) by lia.
  by apply Z.mul_pow2_bits_low; lia.
Qed.

Definition counter (aSub : list (list Z)) (n : Z) : Prop :=
  zlen aSub = 13 /\
  forall b, 0 <= b < 13 -> Z.testbit n b = true ->
    exists l, aSub.[b] = Some l /\ sorted_block (base (b + 1) n) (base b n) l.

Lemma sort_carry_ok aSub n fuel : forall b m,
  counter aSub n -> 0 <= n < 4096 -> n + 1 <= zlen aC ->
  0 <= b -> b + Z.of_nat fuel = 13 ->
  base b n + 2 ^ b = n + 1 -> sorted_block (base b n) (n + 1) m ->
  exists b' m', sort_carry fuel aC aSub n b m = Some (b', m') /\
    0 <= b' < 13 /\ base b' n + 2 ^ b' = n + 1 /\ Z.testbit n b' = false /\
    sorted_block (base b' n) (n + 1) m'.
Proof.
  induction fuel as [|fuel IH]; intros b m Hc Hn HaC Hb Hf Hbase Hm;
    cbn [sort_carry]; rewrite bit_land by done;
    destruct (Z.testbit n b) eqn:Ht; cbn [negb].
  - exfalso. assert (b = 13) as -> by lia. rewrite testbit_div in Ht by lia.
    by rewrite Z.div_small in Ht by lia.
  - exists b, m. assert (b = 13) as -> by lia.
    rewrite base_small in Hbase by lia. lia.
  - destruct Hc as [Hl Hc]. destruct (Hc b ltac:(lia) Ht) as (p & Ep & Hp).
    rewrite Ep. cbn [mbind option_bind].
    pose proof (base_range n (b + 1) ltac:(lia) ltac:(lia)).
    pose proof (base_range n b ltac:(lia) ltac:(lia)).
    pose proof (base_S n b Hb) as E. rewrite Ht in E.
    pose proof (Z.pow_pos_nonneg 2 b ltac:(lia) Hb).
    destruct (walMerge_ok (base (b + 1) n) (base b n) (n + 1) p m) as (m' & -> & Hm');
      [lia|lia|lia|done|done|]. cbn [mbind option_bind].
    apply IH; try done; try lia. rewrite Z.pow_add_r by lia. lia.
  - exists b, m. split_and!; try done; lia.
Qed.

(** One element more. *)
Lemma counter_succ aSub n b m aSub' :
  counter aSub n -> 0 <= b < 13 -> base b n + 2 ^ b = n + 1 -> Z.testbit n b = false ->
  0 <= n -> sorted_block (base b n) (n + 1) m -> aSub.[b <- m] = Some aSub' ->
  counter aSub' (n + 1) /\ sorted_block (base (b + 1) (n + 1)) (n + 1) m.
Proof.
  intros [Hl Hc] Hb Hbase Ht Hn Hm Hset. apply zset_inv in Hset as [Hr ->].
  pose proof (base_S n b ltac:(lia)) as E. rewrite Ht in E.
  assert (Hm' : sorted_block (base (b + 1) (n + 1)) (n + 1) m).
  { rewrite (base_succ n b) by (done || lia). by replace (base (b + 1) n) with (base b n) by lia. }
  split; [|done]. split; [by rewrite zlen_zupd|].
  intros c Hcr Htc. rewrite zget_zupd by lia. case_decide as Ecb.
  - subst c. exists m. split; [done|].
    assert (base b (n + 1) = n + 1) as ->; [|done].
    pose proof (base_S (n + 1) b ltac:(lia)) as E'. rewrite Htc in E'.
    rewrite (base_succ n b (b + 1)) in E' by (done || lia). lia.
  - destruct (decide (c < b)) as [Hlt|Hge].
    + rewrite (testbit_succ_low n b c) in Htc; [done|lia|done].
    + rewrite (testbit_succ n b c) in Htc by (done || lia).
      rewrite (base_succ n b c), (base_succ n b (c + 1)) by (done || lia).
      by apply Hc.
Qed.

Lemma sort_insert_ok k : forall aSub n last,
  counter aSub n -> 0 <= n -> n + Z.of_nat k <= 4096 -> n + Z.of_nat k <= zlen aC ->
  (0 < k)%nat ->
  exists aSub' b m, sort_insert aC aSub n last (seqZ n (Z.of_nat k)) = Some (aSub', (b, m)) /\
    counter aSub' (n + Z.of_nat k) /\ 0 <= b < 13 /\
    sorted_block (base (b + 1) (n + Z.of_nat k)) (n + Z.of_nat k) m.
Proof.
  induction k as [|k IH]; intros aSub n last Hc Hn Hmax HaC Hk; [lia|].
  rewrite seqZ_cons by lia. cbn [sort_insert].
  destruct (sort_carry_ok aSub n 13 0 [n]) as (b & m & -> & Hb & Hbase & Ht & Hm);
    [done|lia|lia|lia|lia|by rewrite base_0|rewrite base_0; by apply sorted_block_single|].
  cbn [mbind option_bind].
  rewrite zset_zupd by (destruct Hc as [-> _]; lia). cbn [mbind option_bind].
  destruct (counter_succ aSub n b m (zupd aSub b m)) as [Hc' Hm']; try done.
  { apply zset_zupd. destruct Hc as [-> _]. lia. }
  replace (Z.pred (Z.of_nat (S k))) with (Z.of_nat k) by lia.
  replace (Z.succ n) with (n + 1) by lia.
  replace (n + Z.of_nat (S k)) with (n + 1 + Z.of_nat k) by lia.
  destruct k as [|k].
  - rewrite Z.add_0_r. exists (zupd aSub b m), b, m. done.
  - apply IH; [done|lia..].
Qed.

Lemma sort_final_ok k : forall aSub n b m,
  counter aSub n -> 0 <= n < 8192 -> n <= zlen aC -> 0 <= b -> b + Z.of_nat k = 13 ->
  sorted_block (base b n) n m ->
  exists m', sort_final k aC aSub n b m = Some m' /\ sorted_block 0 n m'.
Proof.
  induction k as [|k IH]; intros aSub n b m Hc Hn HaC Hb Hk Hm; cbn [sort_final].
  - exists m. split; [done|]. assert (b = 13) as -> by lia.
    by rewrite base_small in Hm by lia.
  - rewrite bit_land, negb_involutive by done. pose proof (base_S n b Hb) as E.
    pose proof (base_range n (b + 1) ltac:(lia) ltac:(lia)).
    pose proof (base_range n b ltac:(lia) ltac:(lia)).
    destruct (Z.testbit n b) eqn:Ht.
    + destruct Hc as [Hl Hc]. destruct (Hc b ltac:(lia) Ht) as (p & -> & Hp).
      cbn [mbind option_bind].
      destruct (walMerge_ok (base (b + 1) n) (base b n) n p m) as (m' & -> & Hm');
        [lia|lia|lia|done|done|]. cbn [mbind option_bind].
      apply IH; try done; lia.
    + cbn [mbind option_bind]. apply IH; try done; try lia.
      by replace (base (b + 1) n) with (base b n) by lia.
Qed.

(** The positions [0..n-1] sorted by key, the last of each. *)
Lemma walMergesort_ok n :
  0 < n <= 4096 -> n <= zlen aC ->
  exists l, walMergesort aC (seqZ 0 n) = Some l /\ sorted_block 0 n l.
Proof.
  intros Hn HaC. unfold walMergesort.
  destruct (sort_insert_ok (Z.to_nat n) (replicate 13 []) 0 (0, []))
    as (aSub & b & m & E & Hc & Hb & Hm); [|lia..|].
  { split; [done|]. intros b Hb. by rewrite Z.bits_0. }
  rewrite Z2Nat.id in E by lia.
  rewrite Z.add_0_l, Z2Nat.id in Hc, Hm by lia.
  rewrite E. cbn [mbind option_bind].
  assert (zlen (seqZ 0 n) = n) as -> by (unfold zlen; rewrite length_seqZ; lia).
  apply sort_final_ok; try done; unfold ARRAYSIZE_aSub; lia.
Qed.
End sort.

(** * Correctness of the iterator *)

Section iterator.
Context (pgs : list Z).
Context (Hmax : zlen pgs < FRAME_MAX).
Context (Hpgs : Forall (fun p => 0 < p < 0xFFFFFFFF) pgs).

(** [f] is the last frame after [lo] that holds [pg]. *)
Definition last_after (lo pg f : Z) : Prop :=
  lo < f <= zlen pgs /\ frame_of pgs f = Some pg /\
  forall f', f < f' <= zlen pgs -> frame_of pgs f' <> Some pg.

(** What a call that looks for the smallest page above [iMin] has found, when
    it has seen the frames after [lo]. *)
Definition best_ok (lo iMin : Z) (best : Z * option Z) : Prop :=
  (best = (0xFFFFFFFF, None) /\
   forall f p, lo < f <= zlen pgs -> frame_of pgs f = Some p -> p <= iMin) \/
  (exists pg f, best = (pg, Some f) /\ iMin < pg < 0xFFFFFFFF /\ last_after lo pg f /\
   forall f' p, lo < f' <= zlen pgs -> frame_of pgs f' = Some p -> p <= iMin \/ pg <= p).

(** A segment of the iterator: a sorted index of page [i] of the wal-index,
    of which the entries already passed are not above [iMin]. *)
Record seg_ok (iMin i : Z) (p : WalSegment) : Prop := {
  so_pgno : forall k, 0 <= k < zlen (page_frames i pgs) ->
              (seg_aPgno p).[k] = (page_frames i pgs).[k];
  so_cap : zlen (page_frames i pgs) <= zlen (seg_aPgno p);
  so_sorted : sorted_block (seg_aPgno p) 0 (zlen (page_frames i pgs)) (seg_aIndex p);
  so_n : seg_nEntry p = zlen (seg_aIndex p);
  so_iZero : seg_iZero p = hash_iZero i + 1;
  so_next : 0 <= seg_iNext p <= seg_nEntry p;
  so_done : forall j k, 0 <= j < seg_iNext p -> (seg_aIndex p).[j] = Some k ->
              key (seg_aPgno p) k <= iMin;
}.

Lemma seg_key iMin i p k :
  0 <= i < 2 ^ 19 -> seg_ok iMin i p -> 0 <= k < zlen (page_frames i pgs) ->
  frame_of pgs (hash_iZero i + 1 + k) = Some (key (seg_aPgno p) k).
Proof.
  intros Hi Hs Hk. unfold frame_of, key. rewrite (so_pgno _ _ _ Hs k Hk).
  pose proof (zlen_page_frames i pgs Hi).
  rewrite page_frames_get by lia.
  replace (hash_iZero i + 1 + k - 1) with (hash_iZero i + k) by lia.
  pose proof (iZero_nonneg i Hi).
  destruct (zget_some pgs (hash_iZero i + k)) as [q ->]; [lia|done].
Qed.

Lemma key_sorted_get aC l i j a b :
  key_sorted aC l -> i < j -> l.[i] = Some a -> l.[j] = Some b -> key aC a < key aC b.
Proof.
  revert i j. induction l as [|x l IH]; intros i j Hs Hij Ha Hb.
  - by apply zget_range in Ha; rewrite (@zlen_nil Z) in Ha; lia.
  - apply key_sorted_cons in Hs as [Hs Hx]. pose proof (zget_range _ _ _ Ha).
    rewrite (zget_cons_pos x l j) in Hb by lia. destruct (decide (i = 0)) as [->|].
    + injection Ha as <-. apply Hx. by eapply zget_elem_of.
    + rewrite zget_cons_pos in Ha by lia. by apply (IH (i - 1) (j - 1)); [|lia|..].
Qed.

Lemma segment_next_ok i p iMin best n : forall iNext,
  seg_ok iMin i p -> 0 <= iNext -> iNext + Z.of_nat n = seg_nEntry p ->
  (forall j k, 0 <= j < iNext -> (seg_aIndex p).[j] = Some k -> key (seg_aPgno p) k <= iMin) ->
  exists iNext' best', segment_next n p iMin iNext best = Some (iNext', best') /\
    0 <= iNext' <= seg_nEntry p /\
    (forall j k, 0 <= j < iNext' -> (seg_aIndex p).[j] = Some k -> key (seg_aPgno p) k <= iMin) /\
    ((iNext' = seg_nEntry p /\ best' = best) \/
     (exists k, (seg_aIndex p).[iNext'] = Some k /\ iMin < key (seg_aPgno p) k /\
        best' = if key (seg_aPgno p) k <? best.1
                then (key (seg_aPgno p) k, Some (u32 (seg_iZero p + k))) else best)).
Proof.
  induction n as [|n IH]; intros iNext Hs H1 H2 Hd; cbn [segment_next].
  - exists iNext, best. split_and!; try done; [lia|]. left. split; [lia|done].
  - destruct (zget_some (seg_aIndex p) iNext) as [k Ek].
    { rewrite <- (so_n _ _ _ Hs). lia. }
    rewrite Ek. cbn [mbind option_bind].
    pose proof (sorted_block_range _ _ _ _ k (so_sorted _ _ _ Hs) (zget_elem_of _ _ _ Ek)).
    pose proof (so_cap _ _ _ Hs).
    rewrite (key_get (seg_aPgno p) k) by lia. cbn [mbind option_bind].
    rewrite Z.gtb_ltb. destruct (Z.ltb_spec iMin (key (seg_aPgno p) k)).
    + exists iNext. eexists. split_and!; [done|lia|lia|done|]. right. by exists k.
    + apply IH; [done|lia|lia|]. intros j k' Hj Hk'.
      destruct (decide (j = iNext)) as [->|]; [|by apply (Hd j k'); [lia|]].
      rewrite Ek in Hk'. by injection Hk' as <-.
Qed.

(** Frames before the ones seen so far that hold nothing better. *)
Lemma best_pass lo hi iMin best :
  lo <= hi ->
  (forall f q, lo < f <= hi -> frame_of pgs f = Some q -> q <= iMin \/ best.1 <= q) ->
  best_ok hi iMin best -> best_ok lo iMin best.
Proof using Hpgs.
  intros Hle Hno [[-> Hb]|(pg & f & -> & Hpg & (Hf1 & Hf2 & Hf3) & Hmin)].
  - left. split; [done|]. intros f q Hr Hq.
    destruct (decide (f <= hi)); [|by apply (Hb f); [lia|]].
    destruct (Hno f q ltac:(lia) Hq) as [|Hge]; [done|].
    pose proof (Forall_zget _ pgs (f - 1) _ Hpgs Hq). cbn in *. lia.
  - right. exists pg, f. split_and!; try done; try lia; [split_and!; (done || lia)|].
    intros f' q Hr Hq. destruct (decide (f' <= hi)); [by apply (Hno f'); [lia|]|].
    by apply (Hmin f'); [lia|].
Qed.

(** Or something better. *)
Lemma best_take lo hi iMin best pg f :
  lo < f <= hi -> hi <= zlen pgs -> iMin < pg < best.1 -> frame_of pgs f = Some pg ->
  (forall f', f < f' <= hi -> frame_of pgs f' <> Some pg) ->
  (forall f q, lo < f <= hi -> frame_of pgs f = Some q -> q <= iMin \/ pg <= q) ->
  best_ok hi iMin best -> best_ok lo iMin (pg, Some f).
Proof.
  intros Hf Hhi Hpg Efr Hlast Hge Hb.
  assert (Hno : best.1 <= 0xFFFFFFFF /\ forall f q, hi < f <= zlen pgs ->
                  frame_of pgs f = Some q -> q <= iMin \/ best.1 <= q).
  { destruct Hb as [[-> Hb]|(pg' & f0 & -> & Hpg' & _ & Hmin)]; cbn [fst]; split; try lia; eauto. }
  destruct Hno as [Hbest Hno].
  right. exists pg, f. split_and!; [done|lia|lia| |].
  - split_and!; [lia|lia|done|]. intros f' Hr Hq.
    destruct (decide (f' <= hi)); [by apply (Hlast f'); [lia|]|].
    destruct (Hno f' _ ltac:(lia) Hq); lia.
  - intros f' q Hr Hq. destruct (decide (f' <= hi)); [by apply (Hge f'); [lia|]|].
    destruct (Hno f' q ltac:(lia) Hq); lia.
Qed.

(** Every frame of a segment has its page in the index. *)
Lemma seg_entry iMin i p f q :
  0 <= i < 2 ^ 19 -> seg_ok iMin i p ->
  hash_iZero i < f <= hash_iZero i + zlen (page_frames i pgs) -> frame_of pgs f = Some q ->
  key (seg_aPgno p) (f - hash_iZero i - 1) = q /\
  exists j k, (seg_aIndex p).[j] = Some k /\ key (seg_aPgno p) k = q.
Proof.
  intros Hi Hs Hr Hq.
  assert (0 <= f - hash_iZero i - 1 < zlen (page_frames i pgs)) as Hr' by lia.
  pose proof (seg_key iMin i p _ Hi Hs Hr') as E'.
  replace (hash_iZero i + 1 + (f - hash_iZero i - 1)) with f in E' by lia.
  assert (key (seg_aPgno p) (f - hash_iZero i - 1) = q) as Eq by congruence. split; [done|].
  destruct (sorted_block_all _ 0 _ _ _ (so_sorted _ _ _ Hs) Hr') as (k & Hk & Ek & _).
  apply elem_of_zget in Hk as [j Hj]. exists j, k. split; [done|congruence].
Qed.

(** One segment more. *)
Lemma segment_step i p iMin best :
  0 <= i < 2 ^ 19 -> 0 <= iMin -> seg_ok iMin i p ->
  best_ok (hash_iZero i + zlen (page_frames i pgs)) iMin best ->
  exists iNext' best',
    segment_next (Z.to_nat (seg_nEntry p - seg_iNext p)) p iMin (seg_iNext p) best
      = Some (iNext', best') /\
    seg_ok iMin i (mkSegment iNext' (seg_aIndex p) (seg_aPgno p) (seg_nEntry p) (seg_iZero p)) /\
    best_ok (hash_iZero i) iMin best'.
Proof using Hmax Hpgs.
  intros Hi HiMin Hs Hb. set (hi := hash_iZero i + zlen (page_frames i pgs)) in *.
  pose proof (so_next _ _ _ Hs) as Hn. pose proof (iZero_nonneg i Hi) as Hz.
  pose proof (so_n _ _ _ Hs) as En. pose proof (so_sorted _ _ _ Hs) as Hsb.
  pose proof (zlen_page_frames i pgs Hi) as Hzl. pose proof (zlen_nonneg (page_frames i pgs)).
  destruct (segment_next_ok i p iMin best (Z.to_nat (seg_nEntry p - seg_iNext p)) (seg_iNext p))
    as (iNext' & best' & E & Hn' & Hd & Hcase); [done|lia|lia|apply (so_done _ _ _ Hs)|].
  exists iNext', best'. split; [done|]. split; [by destruct Hs; constructor|].
  destruct Hcase as [[-> ->]|(k & Ek & Hlt & ->)].
  { apply (best_pass _ hi); [lia| |done]. intros f q Hr Hq. left.
    destruct (seg_entry iMin i p f q Hi Hs Hr Hq) as (_ & j & k & Hj & <-).
    pose proof (zget_range _ _ _ Hj). by apply (Hd j k); [lia|]. }
  destruct (proj1 (sb_last _ _ _ _ Hsb k) (zget_elem_of _ _ _ Ek)) as [Hkr Hlast].
  pose proof (seg_key iMin i p k Hi Hs Hkr) as Efr.
  assert (Hge : forall f q, hash_iZero i < f <= hi -> frame_of pgs f = Some q ->
             q <= iMin \/ key (seg_aPgno p) k <= q).
  { intros f q Hr Hq. destruct (seg_entry iMin i p f q Hi Hs Hr Hq) as (_ & j & k' & Hj & <-).
    destruct (Z.lt_trichotomy j iNext') as [Hlt'|[->|Hgt]].
    - left. pose proof (zget_range _ _ _ Hj). by apply (Hd j k'); [lia|].
    - right. rewrite Ek in Hj. injection Hj as <-. lia.
    - right. pose proof (key_sorted_get _ _ _ _ _ _ (sb_sorted _ _ _ _ Hsb) Hgt Ek Hj). lia. }
  destruct (Z.ltb_spec (key (seg_aPgno p) k) best.1).
  - rewrite (so_iZero _ _ _ Hs), u32_small by (unfold FRAME_MAX in Hmax; lia).
    apply (best_take _ hi _ best); try done; try lia. intros f' Hr Hq.
    destruct (seg_entry iMin i p f' _ Hi Hs ltac:(lia) Hq) as [Eq _].
    by apply (Hlast (f' - hash_iZero i - 1)); [lia|].
  - apply (best_pass _ hi); [lia| |done]. intros f q Hr Hq.
    destruct (Hge f q Hr Hq); lia.
Qed.

Context (first : Z).

(** The segments from number [i] on; the ones before [first] are empty. *)
Definition segs_ok (iMin i : Z) (segs : list WalSegment) : Prop :=
  forall j p, segs.[j] = Some p ->
    (i + j < first -> seg_nEntry p = 0 /\ seg_iNext p = 0) /\
    (first <= i + j -> seg_ok iMin (i + j) p).

Lemma segs_ok_cons iMin i p segs :
  segs_ok iMin i (p :: segs) <->
  ((i < first -> seg_nEntry p = 0 /\ seg_iNext p = 0) /\ (first <= i -> seg_ok iMin i p)) /\
  segs_ok iMin (i + 1) segs.
Proof.
  split.
  - intros Hs. split.
    + specialize (Hs 0 p eq_refl). by rewrite Z.add_0_r in Hs.
    + intros j q Hj. pose proof (zget_range _ _ _ Hj).
      specialize (Hs (j + 1) q). rewrite zget_cons_pos, Z.add_simpl_r in Hs by lia.
      replace (i + 1 + j) with (i + (j + 1)) by lia. by apply Hs.
  - intros [Hp Hs] j q Hj. pose proof (zget_range _ _ _ Hj).
    destruct (decide (j = 0)) as [->|].
    + rewrite Z.add_0_r. by injection Hj as <-.
    + rewrite zget_cons_pos in Hj by lia. replace (i + j) with (i + 1 + (j - 1)) by lia.
      by apply Hs.
Qed.

Lemma segments_next_ok iMin : forall segs i,
  0 <= iMin -> 0 <= i -> 0 <= first -> i + zlen segs <= 2 ^ 19 ->
  first <= i + zlen segs -> zlen pgs <= hash_iZero (i + zlen segs) -> segs_ok iMin i segs ->
  exists segs' best, segments_next segs iMin = Some (segs', best) /\
    zlen segs' = zlen segs /\ segs_ok iMin i segs' /\
    best_ok (hash_iZero (Z.max i first)) iMin best.
Proof using Hmax Hpgs.
  induction segs as [|p segs IH]; intros i HiMin Hi Hfirst Hlen Hf Hall Hs.
  - exists [], (0xFFFFFFFF, None). rewrite (@zlen_nil WalSegment), Z.add_0_r in *.
    split_and!; try done. left. split; [done|]. rewrite Z.max_l by lia. intros f q Hr. lia.
  - apply segs_ok_cons in Hs as [[Hp1 Hp2] Hs]. rewrite zlen_cons in *.
    pose proof (zlen_nonneg segs).
    replace (i + (zlen segs + 1)) with (i + 1 + zlen segs) in * by lia.
    cbn [segments_next]. destruct (decide (i < first)) as [Hlt|Hge].
    + destruct (IH (i + 1)) as (segs' & best & -> & Hl & Hs' & Hb); [done|lia..|done|done|].
      cbn [mbind option_bind]. destruct (Hp1 Hlt) as [E1 E2]. rewrite E1, E2.
      cbn [Z.to_nat Z.sub Z.opp Z.add segment_next mbind option_bind].
      eexists _, best. split; [done|]. rewrite zlen_cons. split; [lia|].
      split; [|by replace (Z.max i first) with (Z.max (i + 1) first) by lia].
      apply segs_ok_cons. split; [|done]. split; [by intros _|lia].
    + destruct (IH (i + 1)) as (segs' & best & -> & Hl & Hs' & Hb); [done|lia..|done|done|].
      cbn [mbind option_bind].
      destruct (segment_step i p iMin best) as (iNext' & best' & -> & Hp & Hb');
        [lia|done|by apply Hp2; lia| |].
      { rewrite Z.max_l in Hb by lia. rewrite iZero_next in Hb by lia.
        pose proof (zlen_page_frames i pgs ltac:(lia)). pose proof (pg_cap_range i).
        destruct (decide (hash_iZero i + pg_cap i <= zlen pgs)).
        - by replace (zlen (page_frames i pgs)) with (pg_cap i) by lia.
        - apply (best_pass _ (hash_iZero i + pg_cap i)); [lia| |done].
          intros f q Hr Hq. apply zget_range in Hq. lia. }
      cbn [mbind option_bind]. eexists _, best'. split; [done|]. rewrite zlen_cons.
      split; [lia|]. rewrite Z.max_l by lia. split; [|done].
      apply segs_ok_cons. split; [|done]. split; [lia|done].
Qed.

Lemma segs_ok_mono iMin iMin' i segs :
  iMin <= iMin' -> segs_ok iMin i segs -> segs_ok iMin' i segs.
Proof.
  intros Hle Hs j p Hj. destruct (Hs j p Hj) as [H1 H2]. split; [done|].
  intros Hf. destruct (H2 Hf). constructor; try done. intros j' k Hj' Hk.
  specialize (so_done0 j' k Hj' Hk). lia.
Qed.

(** An iterator over the frames of [pgs] that has returned the pages up to
    [iPrior]. *)
Definition it_ok (it : WalIterator) : Prop :=
  0 <= iPrior it < 0xFFFFFFFF /\ zlen (aSegment it) = walFramePage (zlen pgs) + 1 /\
  0 <= first <= walFramePage (zlen pgs) /\ 0 < zlen pgs /\
  segs_ok (iPrior it) 0 (aSegment it).

(** One call: 1 when no page above the last one is left; or the next page up,
    with its last frame. *)
Lemma walIteratorNext_ok it :
  it_ok it ->
  (exists it', walIteratorNext it = Some (1, 0xFFFFFFFF, None, it') /\
     forall f p, hash_iZero first < f <= zlen pgs -> frame_of pgs f = Some p -> p <= iPrior it) \/
  (exists pg f it', walIteratorNext it = Some (0, pg, Some f, it') /\ it_ok it' /\
     iPrior it' = pg /\ iPrior it < pg /\ last_after (hash_iZero first) pg f /\
     forall f' p, hash_iZero first < f' <= zlen pgs -> frame_of pgs f' = Some p ->
       p <= iPrior it \/ pg <= p).
Proof using Hmax Hpgs.
  intros (HiMin & Hlen & Hfirst & Hpos & Hs).
  destruct (frame_page_idx (zlen pgs)) as [Hi Hidx]; [lia|].
  destruct (segments_next_ok (iPrior it) (aSegment it) 0) as (segs' & best & E & Hl & Hs' & Hb);
    try done; try lia.
  { rewrite Z.add_0_l, Hlen, iZero_next by lia. lia. }
  rewrite Z.max_r in Hb by lia. unfold walIteratorNext. rewrite E. cbn [mbind option_bind].
  destruct Hb as [[-> Hno]|(pg & f & -> & Hpg & Hf & Hmin)].
  - left. exists (mkIterator 0xFFFFFFFF segs'). done.
  - right. exists pg, f, (mkIterator pg segs').
    rewrite (proj2 (Z.eqb_neq _ _)) by lia.
    split_and!; try done; try lia. split_and!; cbn; try done; try lia.
    eapply segs_ok_mono; [|done]. lia.
Qed.
End iterator.

(** ** Making an iterator *)

Section make.
Context `{ShmEnv} (pgs : list Z) (w : Wal) (x : WalIdx).
Context (Hmax : zlen pgs < FRAME_MAX) (Hmx : h_mxFrame (hdr w) = zlen pgs).
Context (Hx : wi_ok x pgs).

Lemma u16_seqZ n : 0 <= n <= 4096 -> u16 <$> seqZ 0 n = seqZ 0 n.
Proof.
  intros Hn. rewrite <- (list_fmap_id (seqZ 0 n)) at 2. apply list_fmap_ext.
  intros i z Hz. apply lookup_seqZ in Hz. cbn. apply u16_small. lia.
Qed.

Lemma hash_ok_pgno i pg es rem :
  hash_ok i pg (es ++ rem) ->
  zlen (aPgno pg) = pg_cap i /\
  forall k, 0 <= k < zlen es -> (aPgno pg).[k] = es.[k].
Proof.
  intros Ho. pose proof (ho_cap _ _ _ Ho). pose proof (zlen_nonneg (es ++ rem)). split.
  - rewrite (ho_pgno _ _ _ Ho), zlen_app, zlen_replicate. lia.
  - intros k Hk. rewrite (ho_pgno _ _ _ Ho), <- app_assoc. apply zget_app_l. lia.
Qed.

Lemma init_segment_ok i pg rem :
  0 <= i < 2 ^ 19 -> hash_iZero i < zlen pgs ->
  hash_ok i pg (page_frames i pgs ++ rem) ->
  exists seg, init_segment (zlen pgs) (walFramePage (zlen pgs) + 1) i (hash_iZero i) pg = Some seg /\
    seg_ok pgs 0 i seg.
Proof using Hmax.
  intros Hi Hz Ho. destruct (hash_ok_pgno _ _ _ _ Ho) as [Hl Hg].
  pose proof (zlen_page_frames i pgs Hi) as Hn. pose proof (pg_cap_range i).
  pose proof (iZero_nonneg i Hi). unfold FRAME_MAX in Hmax.
  destruct (frame_page_idx (zlen pgs)) as [Hj Hjx]; [unfold FRAME_MAX; lia|].
  pose proof (ho_cap _ _ _ Ho) as Hcap. rewrite zlen_app in Hcap.
  pose proof (zlen_nonneg rem).
  assert ((if i + 1 =? walFramePage (zlen pgs) + 1 then i32 (u32 (zlen pgs - hash_iZero i))
           else zlen (aPgno pg)) = zlen (page_frames i pgs)) as En.
  { destruct (Z.eqb_spec (i + 1) (walFramePage (zlen pgs) + 1)) as [E|Hne].
    - assert (i = walFramePage (zlen pgs)) as -> by lia.
      rewrite u32_small, i32_small by lia. lia.
    - rewrite Hl, Hn. destruct (Z.lt_ge_cases i (walFramePage (zlen pgs))).
      + pose proof (iZero_mono i (walFramePage (zlen pgs)) ltac:(lia) ltac:(lia) ltac:(lia)). lia.
      + pose proof (iZero_mono (walFramePage (zlen pgs)) i ltac:(lia) ltac:(lia) ltac:(lia)). lia. }
  unfold init_segment. rewrite En, u16_seqZ by lia.
  destruct (walMergesort_ok (aPgno pg) (zlen (page_frames i pgs))) as (l & -> & Hsb);
    [lia|lia|].
  cbn [mbind option_bind]. eexists. split; [done|].
  pose proof (zlen_nonneg l). constructor; cbn; try done; try lia.
Qed.

Lemma init_segments_ok n : forall i segs,
  0 <= i -> i + Z.of_nat n = walFramePage (zlen pgs) + 1 -> 0 < zlen pgs ->
  zlen segs = walFramePage (zlen pgs) + 1 ->
  (forall j p, segs.[j] = Some p -> j < i -> seg_ok pgs 0 j p \/ seg_nEntry p = 0 /\ seg_iNext p = 0) ->
  exists segs',
    init_segments n w x (zlen pgs) (walFramePage (zlen pgs) + 1) i segs
      = Some (SQLITE_OK, segs', w, x) /\
    zlen segs' = zlen segs /\
    (forall j p, segs'.[j] = Some p -> j < i -> segs.[j] = Some p) /\
    (forall j p, segs'.[j] = Some p -> i <= j -> seg_ok pgs 0 j p).
Proof using Hmax Hx.
  induction n as [|n IH]; intros i segs Hi Hn Hpos Hl Hs.
  - exists segs. split_and!; try done. intros j p Hj Hij. apply zget_range in Hj. lia.
  - destruct (frame_page_idx (zlen pgs)) as [Hj Hjx]; [lia|].
    assert (hash_iZero i < zlen pgs) as Hz.
    { destruct (decide (i = walFramePage (zlen pgs))) as [->|]; [lia|].
      pose proof (iZero_mono i (walFramePage (zlen pgs)) ltac:(lia) ltac:(lia) ltac:(lia)).
      pose proof (pg_cap_range i). lia. }
    destruct (Hx i ltac:(lia) Hz) as (pg & Hm & rem & Ho).
    destruct (init_segment_ok i pg rem ltac:(lia) Hz Ho) as (seg & Eseg & Hseg).
    cbn [init_segments]. rewrite (walHashGet_mapped w x i pg Hm). cbn [negb Z.eqb SQLITE_OK].
    cbn [mbind option_bind]. rewrite Eseg. cbn [mbind option_bind].
    rewrite zset_zupd by lia. cbn [mbind option_bind].
    destruct (IH (i + 1) (zupd segs i seg)) as (segs' & -> & Hl' & Hlo & Hhi);
      [lia|lia|done|by rewrite zlen_zupd| |].
    { intros j p Hp Hji. rewrite zget_zupd in Hp by lia. case_decide as E.
      - left. injection Hp as <-. by subst.
      - apply (Hs j p); [done|lia]. }
    exists segs'. rewrite zlen_zupd in Hl'. split_and!; [done|done| |].
    + intros j p Hp Hji. specialize (Hlo j p Hp ltac:(lia)).
      by rewrite zget_zupd_ne in Hlo by lia.
    + intros j p Hp Hji. destruct (decide (j = i)) as [->|]; [|apply (Hhi j p Hp); lia].
      specialize (Hlo i p Hp ltac:(lia)). rewrite zget_zupd_eq in Hlo by lia.
      by injection Hlo as <-.
Qed.

Lemma walIteratorInit_ok alloc alloc_tmp nBackfill :
  0 <= nBackfill < zlen pgs ->
  alloc && alloc_tmp = false /\ walIteratorInit alloc alloc_tmp w x nBackfill = Some (SQLITE_NOMEM, None, w, x) \/
  exists it, walIteratorInit alloc alloc_tmp w x nBackfill = Some (SQLITE_OK, Some it, w, x) /\
    it_ok pgs (walFramePage (nBackfill + 1)) it /\ iPrior it = 0 /\
    hash_iZero (walFramePage (nBackfill + 1)) <= nBackfill.
Proof using Hmax Hmx Hx.
  intros Hb. unfold walIteratorInit. rewrite Hmx.
  destruct alloc, alloc_tmp; cbn [negb]; try by left.
  right. unfold FRAME_MAX in Hmax. rewrite u32_small by lia.
  destruct (frame_page_idx (nBackfill + 1)) as [Hi Hix]; [unfold FRAME_MAX; lia|].
  destruct (frame_page_idx (zlen pgs)) as [Hj Hjx]; [unfold FRAME_MAX; lia|].
  assert (walFramePage (nBackfill + 1) <= walFramePage (zlen pgs)) as Hle.
  { rewrite !walFramePage_eq by lia. apply Z.div_le_mono; lia. }
  set (fst := walFramePage (nBackfill + 1)) in *.
  set (segs0 := replicate _ _).
  assert (zlen segs0 = walFramePage (zlen pgs) + 1) as Hl0.
  { unfold segs0. rewrite zlen_replicate. lia. }
  assert (Hz : forall j p, segs0.[j] = Some p -> seg_nEntry p = 0 /\ seg_iNext p = 0).
  { intros j p Hp. pose proof (zget_range _ _ _ Hp). unfold segs0 in Hp.
    rewrite zget_replicate in Hp by lia. by injection Hp as <-. }
  destruct (init_segments_ok (Z.to_nat (walFramePage (zlen pgs) + 1 - fst)) fst segs0)
    as (segs' & -> & Hl & Hlo & Hhi); [lia|lia|lia|done| |].
  { intros j p Hp _. right. by apply (Hz j p). }
  cbn [mbind option_bind negb Z.eqb SQLITE_OK]. eexists. split; [done|].
  unfold it_ok. cbn [iPrior aSegment]. split_and!; try done; try lia.
  intros j p Hp. rewrite Z.add_0_l. split; intros Hjf.
  - apply (Hz j p), (Hlo j p); done.
  - by apply (Hhi j p).
Qed.
End make.

(** ** All the calls *)

(** The pages and frames that repeated calls return, up to the one that
    returns 1. *)
Fixpoint iterate (n : nat) (it : WalIterator) : option (list (Z * Z)) :=
  match n with
  | O => None
  | S n =>
      '(rc, iDbpage, piFrame, it) ← walIteratorNext it;
      if rc =? 0 then
        iFrame ← piFrame;
        l ← iterate n it;
        Some ((iDbpage, iFrame) :: l)
      else Some []
  end.

Section calls.
Context (pgs : list Z) (first : Z).
Context (Hmax : zlen pgs < FRAME_MAX).
Context (Hpgs : Forall (fun p => 0 < p < 0xFFFFFFFF) pgs).

(** The pages above [lo] still to come: each call takes one. *)
Definition above (lo : Z) : gset Z := filter (fun p => lo < p) (list_to_set pgs).

Lemma iterate_ok n : forall it,
  it_ok pgs first it -> (size (above (iPrior it)) < n)%nat ->
  exists l, iterate n it = Some l /\
    StronglySorted (fun a b => a.1 < b.1) l /\
    forall p f, (p, f) ∈ l <-> iPrior it < p /\ last_after pgs (hash_iZero first) p f.
Proof using Hmax Hpgs.
  induction n as [|n IH]; intros it Hit Hn; [lia|]. cbn [iterate].
  destruct (walIteratorNext_ok pgs Hmax Hpgs first it Hit)
    as [(it' & -> & Hno)|(pg & f & it' & -> & Hit' & Hp & Hlt & Hla & Hmin)];
    cbn [mbind option_bind Z.eqb].
  - exists []. split_and!; [done|constructor|]. intros p f. split; [by intros ?%not_elem_of_nil|].
    intros [Hp (H1 & H2 & _)]. specialize (Hno f p H1 H2). lia.
  - destruct (IH it' Hit') as (l & -> & Hs & Hl).
    { rewrite Hp. enough (above pg ⊂ above (iPrior it)) as Hsub%subset_size by lia.
      destruct Hla as (_ & Hfr & _). apply zget_elem_of in Hfr.
      unfold above. split; [set_solver by lia|]. intros Hsub.
      specialize (Hsub pg). rewrite !elem_of_filter, elem_of_list_to_set in Hsub.
      destruct (Hsub ltac:(split; done)) as [? _]. lia. }
    cbn [mbind option_bind]. exists ((pg, f) :: l). split; [done|]. rewrite Hp in Hl. split.
    + constructor; [done|]. apply List.Forall_forall. intros [q g] Hq%list_elem_of_In.
      apply Hl in Hq as [? _]. done.
    + intros p g. rewrite elem_of_cons, Hl. split.
      * intros [[= -> ->]|[? ?]]; [done|]. split; [lia|done].
      * intros [Hp' Hg]. destruct (decide (p = pg)) as [->|Hne].
        -- left. f_equal. destruct Hla as (H1 & H2 & H3), Hg as (H4 & H5 & H6).
           destruct (Z.lt_trichotomy f g) as [Hfg|[->|Hfg]]; [by destruct (H3 g); [lia|]|done|].
           by destruct (H6 f); [lia|].
        -- right. split; [|done]. destruct Hg as (H4 & H5 & _).
           destruct (Hmin g p H4 H5); lia.
Qed.
End calls.

Lemma size_above pgs lo : (size (above pgs lo) <= length pgs)%nat.
Proof.
  transitivity (size (list_to_set pgs : gset Z)); [apply subseteq_size; set_solver|].
  induction pgs as [|p pgs IH]; [done|]. cbn [list_to_set].
  transitivity (size ({[p]} : gset Z) + size (list_to_set pgs : gset Z))%nat; [|rewrite size_singleton; simpl; lia].
  rewrite size_union_alt. assert (size (list_to_set pgs ∖ {[p]} : gset Z) <= size (list_to_set pgs : gset Z))%nat;
    [apply subseteq_size; set_solver|lia].
Qed.

Section properties.

(** C19.  [walMergesort] sorts the positions of a page of the index by the
    database page they hold and keeps exactly the last position of each page;
    its thirteen sublists are enough and every access is in bounds. *)
Theorem walMergesort_correct aContent n :
  0 < n <= 4096 -> n <= zlen aContent ->
  exists l, walMergesort aContent (seqZ 0 n) = Some l /\
    StronglySorted (fun i j => key aContent i < key aContent j) l /\
    forall k, k ∈ l <->
      0 <= k < n /\ forall j, k < j < n -> key aContent j <> key aContent k.
Proof.
  intros Hn Hc. destruct (walMergesort_ok aContent n Hn Hc) as (l & E & Hs & Hl). eauto.
Qed.

End properties.

(** ** Instances *)

Definition sample_pages : list Z := [7; 9; 7; 3; 9].

Example sample_mergesort : walMergesort sample_pages (seqZ 0 5) = Some [3; 2; 4].
Proof. vm_compute. reflexivity. Qed.

Lemma walMergesort_correct_witness :
  exists l, walMergesort sample_pages (seqZ 0 5) = Some l /\
    StronglySorted (fun i j => key sample_pages i < key sample_pages j) l /\
    forall k, k ∈ l <->
      0 <= k < 5 /\ forall j, k < j < 5 -> key sample_pages j <> key sample_pages k.
Proof. apply (walMergesort_correct sample_pages 5); [lia|done]. Defined.

