(* ===== verification/WalUpload.v ===== *)
(** Uploads: [sqlite3WalCallback], and what reaches the S3 object over the
    life of a connection. *)
From Stdlib Require Import Strings.String Strings.Ascii.
From S2P Require Import Prelude.
From S2P Require Import Util.
From S2P Require Import Vfs.
From S2P Require Import Aws.
From S2P Require Import WalTypes.
From S2P Require Import WalFormat.
From S2P Require Import WalIndex.
From S2P Require Import WalState.
From S2P Require Import WalRecover.
From S2P Require Import WalRead.
From S2P Require Import WalWrite.
From S2P Require Import WalCommit.
Open Scope Z_scope.

Section callback.
Context {F OS : Type} `{VFile F} `{S3 OS}.
Local Abbreviation M := (@M F OS).

(** The part before [iCallback] is read, for a log named [zWalName]. *)
Definition upload (AWS_S3_RECV : Z) (zWalName : list Z) : M unit := fun s =>
  match aws_callback AWS_S3_RECV zWalName (content (w_log s)) (w_aws s) (w_os s) with
  | Some (a, o) => Some (tt, mkWorld (w_wal s) (w_sh s) (w_log s) (w_db s) a o)
  | None => None
  end.

Definition sqlite3WalCallback (AWS_S3_RECV : Z) (zWalName : option (list Z)) : M Z :=
  (match zWalName with
   | Some name => upload AWS_S3_RECV name
   | None => mret tt
   end);;
  w ← get_wal;
  upd_wal (set_iCallback 0);;
  mret (i32 (iCallback w)).
End callback.

(** * The text of the command *)

Lemma zlen_digits fuel : forall n acc, zlen (digits fuel n acc) <= zlen acc + Z.of_nat fuel.
Proof.
  induction fuel as [|fuel IH]; intros n acc; cbn [digits]; [lia|].
  destruct (n <? 10); rewrite ?zlen_cons; [lia|].
  specialize (IH (n / 10) ((48 + n mod 10) :: acc)). rewrite zlen_cons in IH. lia.
Qed.

(** A number below [10 ^ k] has at most [k] digits. *)
Lemma zlen_digits_le k : forall fuel n acc, 0 < k -> 0 <= n < 10 ^ k ->
  zlen (digits fuel n acc) <= zlen acc + k.
Proof.
  intros fuel n acc Hk Hn. revert fuel n acc Hn. pattern k. apply Zlt_lower_bound_ind with (z := 1); [|lia].
  clear k Hk. intros k IH Hk fuel n acc Hn. destruct fuel as [|fuel]; cbn [digits]; [lia|].
  destruct (Z.ltb_spec n 10) as [|Hge]; rewrite ?zlen_cons; [lia|].
  assert (k <> 1) by (intros ->; lia).
  specialize (IH (k - 1) ltac:(lia) fuel (n / 10) ((48 + n mod 10) :: acc)).
  rewrite zlen_cons in IH. assert (10 ^ k = 10 * 10 ^ (k - 1)) as E.
  { rewrite <- Z.pow_succ_r by lia. f_equal. lia. }
  specialize (IH ltac:(split; [apply Z.div_pos; lia|apply Z.div_lt_upper_bound; lia])). lia.
Qed.

(** The command for an append fits its array when the name of the file has at
    most 73 bytes. *)
Lemma sprintf_append_fits key file ofst len :
  zlen key <= 24 -> zlen file <= 73 -> 0 <= ofst < 2 ^ 63 -> 0 <= len <= AWS_FILESZ ->
  sprintf_command (mkCommand key file (Some (ofst, len))) = Some (mkCommand key file (Some (ofst, len))).
Proof.
  intros Hk Hf Ho Hl. unfold AWS_FILESZ in Hl. unfold sprintf_command.
  rewrite (proj2 (Z.ltb_lt _ _)); [done|]. unfold command_text. cbn [c_key c_body c_range].
  rewrite !i64_small by lia. unfold format_ld.
  rewrite !(proj2 (Z.ltb_ge _ 0)) by lia.
  pose proof (zlen_digits_le 19 20 ofst [] ltac:(lia) ltac:(lia)) as H1.
  pose proof (zlen_digits_le 7 20 len [] ltac:(lia) ltac:(lia)) as H2.
  rewrite (@zlen_nil Z) in H1, H2. rewrite !zlen_app.
  set (a := zlen (str "aws s3api put-object --bucket ku-express-test--use1-az6--x-s3 --key ")).
  set (b := zlen (str " --body ")). set (c := zlen quote). set (d := zlen (str " --write-offset-bytes ")).
  set (e := zlen (str " --content-length ")). set (f := zlen (str " > /dev/null")).
  vm_compute in a, b, c, d, e, f. lia.
Qed.

Lemma AWS_FILESZ_pos : 0 < AWS_FILESZ < 2 ^ 31.
Proof. done. Qed.

#[local] Opaque AWS_FILESZ.

(** * The history of the buffer *)

(** What happens to the buffer in modes 2 and 3: bytes are appended, or the
    callback uploads. *)
Inductive event := Append (b : list Z) | Flush.

Section history.
Context {OS : Type} `{S3 OS} (key : list Z).
Local Abbreviation object o := (default [] (s3_object o key)).

Definition aws_step (ev : event) (st : Aws * OS) : option (Aws * OS) :=
  match ev with
  | Append b => a ← aws_append b st.1; Some (a, st.2)
  | Flush => aws_flush key st.1 st.2
  end.

Fixpoint aws_run (evs : list event) (st : Aws * OS) : option (Aws * OS) :=
  match evs with
  | [] => Some st
  | ev :: evs => st ← aws_step ev st; aws_run evs st
  end.

Fixpoint appended (evs : list event) : list Z :=
  match evs with
  | [] => []
  | Append b :: evs => b ++ appended evs
  | Flush :: evs => appended evs
  end.

(** Every batch fits the buffer, [off] bytes of which are taken. *)
Fixpoint batches_fit (off : Z) (evs : list event) : bool :=
  match evs with
  | [] => off <=? AWS_FILESZ
  | Append b :: evs => batches_fit (off + zlen b) evs
  | Flush :: evs => (off <=? AWS_FILESZ) && batches_fit 0 evs
  end.

(** The connection knows where the object ends, its file's name is short, and
    the object stays below the limit of the numbers. *)
Record in_step (st : Aws * OS) (n : Z) : Prop := {
  is_room : aws_room 0 st.1;
  is_end : cur_aws_off st.1 = zlen (object st.2);
  is_name : zlen (awsfile st.1) <= 73;
  is_max : cur_aws_off st.1 + aws_off st.1 + n < 2 ^ 63;
}.

Lemma batches_off evs : forall off, batches_fit off evs = true -> off <= AWS_FILESZ.
Proof.
  induction evs as [|[b|] evs IH]; intros off Hb; cbn [batches_fit] in Hb.
  - by apply Z.leb_le.
  - apply IH in Hb. pose proof (zlen_nonneg b). lia.
  - apply andb_true_iff in Hb as [Hb _]. by apply Z.leb_le.
Qed.

(** The client succeeds when the append is at the end of the object. *)
Definition client_up : Prop :=
  forall o file len body,
    (xSystem o (mkCommand key file (Some (zlen (object o), len))) body).1 = 0.

(** A call that fails leaves the object as it was. *)
Definition client_atomic : Prop :=
  forall o c body, (xSystem o c body).1 <> 0 -> s3_object (xSystem o c body).2 key = s3_object o key.

Context (Hkey : zlen key <= 24).

(** The state after an upload. *)
Definition flushed (a : Aws) : Aws :=
  mkAws (replicate (Z.to_nat AWS_FILESZ) 0) 0 (cur_aws_off a + aws_off a) (awsfile a).

Lemma flushed_room a : aws_room 0 (flushed a) /\ pending (flushed a) = [].
Proof.
  split; [|done]. assert (zlen (aws_ptr (flushed a)) = AWS_FILESZ) as E.
  { unfold flushed, aws_ptr. pose proof AWS_FILESZ_pos. rewrite zlen_replicate, Z2Nat.id; lia. }
  split_and!; [done| |done]. rewrite E. pose proof AWS_FILESZ_pos. cbn. lia.
Qed.

Lemma aws_flush_run a (o : OS) :
  aws_room 0 a -> zlen (awsfile a) <= 73 -> 0 <= cur_aws_off a ->
  cur_aws_off a + aws_off a < 2 ^ 63 ->
  aws_flush key a o =
    Some (flushed a, (xSystem o (mkCommand key (awsfile a) (Some (cur_aws_off a, aws_off a)))
                        (pending a)).2).
Proof using Hkey.
  intros (R1 & R2 & R3) Hf Hc Hm. unfold aws_flush. fold (pending a).
  rewrite sprintf_append_fits by lia. cbn [mbind option_bind].
  destruct (xSystem _ _ _) as [rc o'] eqn:E. cbn [snd].
  rewrite u64_small by lia. done.
Qed.

(** One upload, in step and out of it. *)
Lemma flush_in_step a (o : OS) n :
  client_up -> in_step (a, o) n -> 0 <= n ->
  exists st, aws_flush key a o = Some st /\ in_step st n /\
    object st.2 = object o ++ pending a /\ pending st.1 = [] /\ aws_off st.1 = 0.
Proof using Hkey.
  intros Hup [Hr He Hf Hm] Hn. cbn [fst snd] in *. pose proof Hr as (R1 & R2 & R3).
  pose proof (zlen_nonneg (object o)).
  eexists. split; [apply aws_flush_run; try done; lia|].
  destruct (xSystem o (mkCommand key (awsfile a) (Some (cur_aws_off a, aws_off a))) (pending a))
    as [rc o'] eqn:E.
  assert (rc = 0) as ->.
  { pose proof (Hup o (awsfile a) (aws_off a) (pending a)) as Hz. rewrite <- He, E in Hz. done. }
  apply xSystem_append in E as [_ Eo]. cbn [fst snd].
  assert (object o' = object o ++ pending a) as Eob by (by rewrite Eo).
  destruct (flushed_room a) as [Hr' Hp].
  split; [|by split_and!]. constructor; cbn [fst snd]; try done.
  - cbn. rewrite Eob, zlen_app, (zlen_pending 0) by done. lia.
  - cbn. lia.
Qed.

(** The object and the pending bytes are the stream of all the bytes that were
    appended. *)
Lemma aws_run_in_step (Hup : client_up) evs : forall st n,
  in_step st n -> zlen (appended evs) <= n -> batches_fit (aws_off st.1) evs = true ->
  exists st', aws_run evs st = Some st' /\
    object st'.2 ++ pending st'.1 = object st.2 ++ pending st.1 ++ appended evs /\
    cur_aws_off st'.1 = zlen (object st'.2).
Proof using Hkey.
  induction evs as [|[b|] evs IH]; intros [a o] n Hs Hn Hb; cbn [aws_run aws_step appended batches_fit fst snd] in *.
  - exists (a, o). rewrite app_nil_r. split_and!; try done. apply Hs.
  - rewrite zlen_app in Hn. pose proof (batches_off _ _ Hb). pose proof (zlen_nonneg b).
    pose proof (zlen_nonneg (appended evs)).
    pose proof (is_room _ _ Hs) as (R1 & R2 & R3). cbn [fst] in *.
    destruct (aws_append_ok b a 0) as (a' & Ea & Hp & Ho & Hc & Hf & Hr); [|lia|].
    { unfold aws_room. rewrite R3. lia. }
    rewrite Ea. cbn [mbind option_bind].
    destruct (IH (a', o) (n - zlen b)) as (st' & E & Eob & Ecur).
    + destruct Hs. cbn [fst snd] in *. constructor; cbn [fst snd]; try done; try congruence; lia.
    + lia.
    + cbn [fst]. by rewrite Ho.
    + exists st'. split_and!; try done. rewrite Eob. cbn [fst snd]. by rewrite Hp, <- app_assoc.
  - apply andb_true_iff in Hb as [_ Hb]. pose proof (zlen_nonneg (appended evs)).
    destruct (flush_in_step a o n Hup Hs ltac:(lia)) as (st1 & E1 & Hs1 & Eob1 & Ep1 & Eo1).
    rewrite E1. cbn [mbind option_bind].
    destruct (IH st1 n Hs1 Hn) as (st' & E & Eob & Ecur); [by rewrite Eo1|].
    exists st'. split_and!; try done. rewrite Eob, Eob1, Ep1. by rewrite <- app_assoc.
Qed.

(** Out of step: the connection believes that the object is longer. *)
Lemma aws_run_out (Hat : client_atomic) evs : forall a o n,
  aws_room 0 a -> zlen (awsfile a) <= 73 -> zlen (object o) < cur_aws_off a ->
  cur_aws_off a + aws_off a + n < 2 ^ 63 -> zlen (appended evs) <= n ->
  batches_fit (aws_off a) evs = true ->
  exists st', aws_run evs (a, o) = Some st' /\ s3_object st'.2 key = s3_object o key.
Proof using Hkey.
  induction evs as [|[b|] evs IH]; intros a o n Hr Hf Hlt Hm Hn Hb;
    cbn [aws_run aws_step appended batches_fit fst snd] in *.
  - by eexists.
  - rewrite zlen_app in Hn. pose proof (batches_off _ _ Hb). pose proof (zlen_nonneg b).
    pose proof Hr as (R1 & R2 & R3).
    destruct (aws_append_ok b a 0) as (a' & Ea & Hp & Ho & Hc & Hf' & Hr'); [|lia|].
    { unfold aws_room. rewrite R3. lia. }
    rewrite Ea. cbn [mbind option_bind].
    apply (IH a' o (n - zlen b)); try done; rewrite ?Hf', ?Ho, ?Hc; lia || done.
  - apply andb_true_iff in Hb as [_ Hb]. pose proof Hr as (R1 & R2 & R3).
    pose proof (zlen_nonneg (appended evs)). pose proof (zlen_nonneg (object o)).
    rewrite aws_flush_run by (done || lia). cbn [mbind option_bind].
    set (c := mkCommand key (awsfile a) (Some (cur_aws_off a, aws_off a))).
    assert (s3_object (xSystem o c (pending a)).2 key = s3_object o key) as Eo.
    { apply Hat. destruct (xSystem o c (pending a)) as [rc o'] eqn:E. cbn. intros ->.
      apply xSystem_append in E as [E _]. lia. }
    destruct (IH (flushed a) (xSystem o c (pending a)).2 n) as (st' & E & Eo').
    + apply (flushed_room a).
    + exact Hf.
    + rewrite Eo. cbn [flushed cur_aws_off]. lia.
    + cbn [flushed cur_aws_off aws_off]. lia.
    + exact Hn.
    + exact Hb.
    + exists st'. split; [done|]. by rewrite Eo'.
Qed.


(** C14.  A failed upload is never made up for: if the upload of some pending
    bytes fails once, then whatever is appended and uploaded afterwards, and
    although the client may work again, the object stays as it was before the
    failure. *)
Theorem upload_failure_permanent evs a o n :
  client_atomic -> in_step (a, o) n -> pending a <> [] ->
  (xSystem o (mkCommand key (awsfile a) (Some (cur_aws_off a, aws_off a))) (pending a)).1 <> 0 ->
  zlen (appended evs) <= n -> batches_fit 0 evs = true ->
  exists st', aws_run (Flush :: evs) (a, o) = Some st' /\ s3_object st'.2 key = s3_object o key.
Proof using Hkey.
  intros Hat [Hr He Hf Hm] Hp Hfail Hn Hb. cbn [fst snd] in *. pose proof Hr as (R1 & R2 & R3).
  pose proof (zlen_nonneg (appended evs)). pose proof (zlen_nonneg (object o)).
  assert (0 < aws_off a) as Hpos.
  { rewrite <- (zlen_pending 0 a) by done. destruct (pending a); [done|].
    rewrite zlen_cons. pose proof (zlen_nonneg l). lia. }
  cbn [aws_run aws_step fst snd]. rewrite aws_flush_run by (done || lia).
  cbn [mbind option_bind]. apply Hat in Hfail.
  destruct (aws_run_out Hat evs (flushed a)
              (xSystem o (mkCommand key (awsfile a) (Some (cur_aws_off a, aws_off a))) (pending a)).2 n)
    as (st' & E & Eo); [apply (flushed_room a)|exact Hf| | |exact Hn|exact Hb|].
  { rewrite Hfail. cbn [flushed cur_aws_off]. lia. }
  { cbn [flushed cur_aws_off aws_off]. lia. }
  exists st'. split; [done|]. by rewrite Eo.
Qed.
End history.

(** * A commit and its upload *)

Section pipeline.
Context {F OS : Type} `{VFile F} `{WalOS OS} `{S3 OS} `{ShmEnv} (be : bool).
Context (Hq : os_quiet (OS := OS)) (Htr : truncate_law (F := F)).
Context (Hsec : forall o : OS, 0 < xSectorSize o <= SECTOR_MAX).
Context (sz : Z) (Hsz : page_size_ok sz) (aPrivate : Z -> WiPage).
Context (Hrand : random_law (OS := OS)).
Local Abbreviation W := (World F OS).
Local Abbreviation object s := (default [] (s3_object (w_os s) KEY_PARTIAL)).
Local Abbreviation log s := (content (w_log s)).

(** The bytes of the first [n] frames. *)
Definition frame_bytes (n : Z) (s : W) : list Z := slice 32 (frames_end sz n - 32) (log s).

Lemma wp_callback (s : W) name n :
  client_up KEY_PARTIAL (OS := OS) -> in_step KEY_PARTIAL (w_aws s, w_os s) n -> 0 <= n ->
  wp (sqlite3WalCallback 2 (Some name)) (fun r s' =>
    r = i32 (iCallback (w_wal s)) /\ w_wal s' = set_iCallback 0 (w_wal s) /\
    w_sh s' = w_sh s /\ w_log s' = w_log s /\ w_db s' = w_db s /\
    object s' = object s ++ pending (w_aws s) /\ pending (w_aws s') = [] /\
    in_step KEY_PARTIAL (w_aws s', w_os s') n) s.
Proof.
  intros Hup Hs Hn. unfold sqlite3WalCallback. rewrite wp_bind.
  destruct (flush_in_step KEY_PARTIAL ltac:(vm_compute; discriminate) (w_aws s) (w_os s) n Hup Hs Hn)
    as ([a o] & E & Hs' & Eob & Ep & _).
  eapply run_wp; [unfold upload, aws_callback; cbn [Z.eqb Pos.eqb]; rewrite E; reflexivity|].
  unfold get_wal. wp_pure. by split_and!.
Qed.

End pipeline.

(** * The statement log of mode 3 *)

Lemma is_prefix_spec p s : is_prefix p s = true <-> exists rest, s = p ++ rest.
Proof.
  revert s. induction p as [|x p IH]; intros s; cbn [is_prefix]; [naive_solver|].
  destruct s as [|y s]; [naive_solver|]. rewrite andb_true_iff, Z.eqb_eq, IH.
  split; [intros [-> [rest ->]]; by exists rest|intros [rest [= -> ->]]; eauto].
Qed.

Lemma strstr_spec p s : strstr s p = true <-> exists pre rest, s = pre ++ p ++ rest.
Proof.
  induction s as [|y s IH]; cbn [strstr]; rewrite orb_true_iff, is_prefix_spec.
  - split; [intros [[rest E]|?]; [by exists [], rest|done]|].
    intros (pre & rest & E). left. destruct pre; [by exists rest|done].
  - rewrite IH. split.
    + intros [[rest E]|(pre & rest & ->)]; [by exists [], rest|by exists (y :: pre), rest].
    + intros ([|z pre] & rest & E); [left; by exists rest|right]. injection E as -> ->. eauto.
Qed.

(** The words that make [check_sql] record a statement. *)
Definition recorded_words : list (list Z) :=
  [str "INSERT"; str "UPDATE"; str "DELETE"; str "CREATE"].

(** C15.  The statement log: in mode 3 [sqlite3_step] records the expanded
    text exactly when, in upper case, it contains one of the four words
    somewhere, be it in a name, a comment or a string literal; what is appended
    is the whole text in upper case, literals included, and a semicolon. *)
Theorem step_capture_correct sql (a : Aws) :
  aws_room (zlen sql + 1) a ->
  exists a', step_capture 3 (Some sql) a = Some a' /\ cur_aws_off a' = cur_aws_off a /\
    ((exists w pre rest, w ∈ recorded_words /\ toupper <$> sql = pre ++ w ++ rest) ->
       pending a' = pending a ++ (toupper <$> sql) ++ str ";") /\
    ((forall w pre rest, w ∈ recorded_words -> toupper <$> sql <> pre ++ w ++ rest) -> a' = a).
Proof.
  intros Hr. unfold step_capture, to_upper. cbn [Z.eqb Pos.eqb]. set (u := toupper <$> sql).
  assert (Hu : zlen u = zlen sql) by apply zlen_fmap.
  assert (Hc : check_sql u = true <-> exists w pre rest, w ∈ recorded_words /\ u = pre ++ w ++ rest).
  { unfold check_sql. rewrite !orb_true_iff, !strstr_spec. split.
    - intros [[[(p & r & E)|(p & r & E)]|(p & r & E)]|(p & r & E)];
        eexists _, p, r; (split; [|exact E]); unfold recorded_words; rewrite !elem_of_cons; tauto.
    - intros (w & p & r & Hw & E). unfold recorded_words in Hw. rewrite !elem_of_cons in Hw.
      destruct Hw as [->|[->|[->|[->|Hw]]]]; [eauto 7..|by apply elem_of_nil in Hw]. }
  destruct (check_sql u) eqn:Eu.
  - destruct (aws_append_ok u a 1) as (a1 & E1 & P1 & _ & C1 & _ & R1); [by rewrite Hu|lia|].
    destruct (aws_append_ok (str ";") a1 0) as (a2 & E2 & P2 & _ & C2 & _ & _); [done|lia|].
    exists a2. rewrite E1. cbn [mbind option_bind]. split_and!; [done|congruence| |].
    + intros _. by rewrite P2, P1, app_assoc.
    + intros Hno. destruct (proj1 Hc eq_refl) as (w & pre & rest & Hw & E). by destruct (Hno w pre rest Hw).
  - exists a. split_and!; try done. intros Hw. by apply Hc in Hw.
Qed.

(** The callback of mode 3 does nothing when as many bytes are pending as were
    uploaded before. *)
Lemma sql_upload_skipped {OS} `{S3 OS} name log a (o : OS) :
  aws_off a = cur_aws_off a -> aws_callback 3 name log a o = Some (a, o).
Proof. intros E. unfold aws_callback. cbn [Z.eqb Pos.eqb]. by rewrite E, Z.eqb_refl. Qed.

(** ** Instances *)

(** A store: its objects, and how many of the next calls fail. *)
Record Store := mkStore { st_objects : list Z -> option (list Z); st_failing : nat }.

Definition store_put (key b : list Z) (o : Store) : Store :=
  mkStore (fun k => if decide (k = key) then Some b else st_objects o k) (st_failing o).

Definition store_system (o : Store) (c : Command) (body : list Z) : Z * Store :=
  match st_failing o with
  | S n => (1, mkStore (st_objects o) n)
  | O =>
      match c_range c with
      | None => (0, store_put (c_key c) body o)
      | Some (ofst, _) =>
          let old := default [] (st_objects o (c_key c)) in
          if ofst =? zlen old then (0, store_put (c_key c) (old ++ body) o) else (1, o)
      end
  end.

#[export] Program Instance Store_S3 : S3 Store := {
  s3_object := st_objects;
  xSystem := store_system;
}.
Next Obligation.
  unfold store_system. cbn. intros o key file ofst len body o' E.
  destruct (st_failing o); [|done]. destruct (Z.eqb_spec ofst (zlen (default [] (st_objects o key)))); [|done].
  injection E as <-. cbn. by rewrite decide_True.
Qed.
Next Obligation.
  unfold store_system. cbn. intros o key file body o' E.
  destruct (st_failing o); [|done]. injection E as <-. cbn. by rewrite decide_True.
Qed.

(** A store that works, in a single connection. *)
Definition Good : Type := list Z -> option (list Z).

Definition good_store (o : Good) : Store := mkStore o 0.

#[export] Program Instance Good_S3 : S3 Good := {
  s3_object o := o;
  xSystem o c body := let r := store_system (good_store o) c body in (r.1, st_objects r.2);
}.
Next Obligation.
  intros o key file ofst len body o' E.
  destruct (store_system (good_store o) (mkCommand key file (Some (ofst, len))) body) as [rc s] eqn:Es.
  cbn [fst snd] in E. rewrite ?Es in E. injection E as -> <-. exact (xSystem_append (good_store o) key file ofst len body s Es).
Qed.
Next Obligation.
  intros o key file body o' E.
  destruct (store_system (good_store o) (mkCommand key file None) body) as [rc s] eqn:Es.
  cbn [fst snd] in E. rewrite ?Es in E. injection E as -> <-. exact (xSystem_put (good_store o) key file body s Es).
Qed.

#[export] Instance Good_os : WalOS Good := {
  xShmLock o sh _ _ _ := (SQLITE_OK, sh, o);
  xShmBarrier o sh := (sh, o);
  xRandomness o n := (replicate (Z.to_nat n) 7, o);
  xMalloc o _ := (true, o);
  xSectorSize _ := 4096;
  xSleep o _ sh := (sh, o);
  xShmHeader _ := (hdr_zero, hdr_zero, mkCkpt 0 (replicate 5 0) 0);
  xShmProbe o := (SQLITE_OK, o);
  xShmUnmap o _ := o;
  xInterrupted o := (false, false, o);
  xLockExclusive o := (SQLITE_OK, o);
  xPersistWal _ := 0;
  xDeleteLog o := o;
}.

Lemma Good_quiet : os_quiet (OS := Good).
Proof. split; eauto. Qed.

Lemma Good_random_law : random_law (OS := Good).
Proof. intros o n Hn. by apply (unit_os_random_law tt n). Qed.

Lemma Good_up key : client_up key (OS := Good).
Proof. intros o file len body. cbn. unfold store_system. cbn. by rewrite Z.eqb_refl. Qed.

Lemma Store_atomic key : client_atomic key (OS := Store).
Proof.
  intros o c body. cbn. unfold store_system. destruct (st_failing o); [|done].
  destruct (c_range c) as [[ofst len]|]; [|done]. by destruct (ofst =? _).
Qed.

Definition empty_store : Good := fun _ => None.

Lemma in_step_open {OS} `{S3 OS} key (o : OS) n :
  s3_object o key = None -> n < 2 ^ 63 -> in_step key (open_aws, o) n.
Proof.
  intros Ho Hn. pose proof AWS_FILESZ_pos. constructor; cbn [fst snd].
  - apply open_aws_room. lia.
  - by rewrite Ho.
  - done.
  - cbn [open_aws cur_aws_off aws_off]. lia.
Qed.


(** A store that fails once. *)
Definition flaky_store : Store := mkStore (fun _ => None) 1.
Definition one_byte : Aws := default open_aws (aws_append [1] open_aws).

Lemma one_byte_ok : in_step KEY_PARTIAL (one_byte, flaky_store) 5 /\ pending one_byte = [1].
Proof.
  destruct (aws_append_ok [1] open_aws 0) as (a & E & Hp & Ho & Hc & Hf & Hr); [|lia|].
  - apply open_aws_room. pose proof AWS_FILESZ_pos. change (zlen [1]) with 1.
    assert (1 < AWS_FILESZ) by done. lia.
  - assert (one_byte = a) as -> by (unfold one_byte; by rewrite E). split; [|by rewrite Hp].
    constructor; cbn [fst snd]; [done|by rewrite Hc|by rewrite Hf|].
    rewrite Hc, Ho. vm_compute. reflexivity.
Qed.

Lemma upload_failure_permanent_witness :
  let evs := [Append [2]; Flush; Flush] in
  exists st', aws_run KEY_PARTIAL (Flush :: evs) (one_byte, flaky_store) = Some st' /\
    s3_object st'.2 KEY_PARTIAL = s3_object flaky_store KEY_PARTIAL.
Proof.
  intros evs. apply (@upload_failure_permanent Store _ KEY_PARTIAL) with (n := 5).
  - vm_compute. discriminate.
  - apply Store_atomic.
  - apply one_byte_ok.
  - rewrite (proj2 one_byte_ok). discriminate.
  - done.
  - vm_compute. discriminate.
  - vm_compute. reflexivity.
Defined.

Definition upload_world : World ByteFile Good :=
  mkWorld (writer_wal false) (w_sh writer_world) (byte_file (replicate 32 9)) (byte_file []) open_aws
    empty_store.

Lemma upload_world_pre : commit_pre false 2 512 upload_world [] sample_pages 3.
Proof.
  destruct writer_world_pre. constructor; try assumption.
  left. split_and!; try reflexivity; apply (bool_decide_unpack _); vm_compute; exact I.
Qed.


Lemma step_capture_correct_witness :
  let sql := str "select 'insert'" in
  exists a', step_capture 3 (Some sql) open_aws = Some a' /\ cur_aws_off a' = 0 /\
    ((exists w pre rest, w ∈ recorded_words /\ toupper <$> sql = pre ++ w ++ rest) ->
       pending a' = pending open_aws ++ (toupper <$> sql) ++ str ";") /\
    ((forall w pre rest, w ∈ recorded_words -> toupper <$> sql <> pre ++ w ++ rest) ->
       a' = open_aws).
Proof.
  intros sql. apply (step_capture_correct sql open_aws). apply open_aws_room.
  vm_compute. split; discriminate.
Defined.
