(* ===== verification/WalCkpt.v ===== *)
(** Checkpoints: copying the log back into the database file
    ([sqlite3WalCheckpoint]). *)
From S2P Require Import Prelude.
From S2P Require Import Util.
From S2P Require Import Vfs.
From S2P Require Import Aws.
From S2P Require Import WalTypes.
From S2P Require Import WalFormat.
From S2P Require Import WalIndex.
From S2P Require Import WalState.
From S2P Require Import WalRecover.
From S2P Require Import WalRead.
From S2P Require Import WalWrite.
From S2P Require Import WalCommit.
From S2P Require Import WalSort.
Open Scope Z_scope.

Definition SQLITE_CHECKPOINT_PASSIVE : Z := 0.
Definition SQLITE_CHECKPOINT_FULL : Z := 1.
Definition SQLITE_CHECKPOINT_RESTART : Z := 2.
Definition SQLITE_CHECKPOINT_TRUNCATE : Z := 3.
Definition SQLITE_INTERRUPT : Z := 9.


Section checkpoint.
Context {F OS : Type} `{VFile F} `{WalOS OS} `{ShmEnv} (bigendian : bool).
Context (aPrivate : Z -> WiPage).
Local Abbreviation M := (@M F OS).

(** * One checkpoint *)

(** The loop over the read marks [i..], [n] of them: the result code, the
    last frame that may be copied, the busy handler, and whether an error ends
    the checkpoint. *)
Fixpoint ckpt_marks (n : nat) (i mxSafeFrame rc : Z) (xBusy : BusyHandler)
    : M (Z * Z * BusyHandler * bool) :=
  match n with
  | O => mret (rc, mxSafeFrame, xBusy, false)
  | S n =>
      y ← readMark i;
      if mxSafeFrame >? y then
        '(rc, xBusy) ← walBusyLock xBusy (WAL_READ_LOCK i) 1;
        if rc =? SQLITE_OK then
          setReadMark i (if i =? 1 then mxSafeFrame else READMARK_NOT_USED);;
          walUnlockExclusive (WAL_READ_LOCK i) 1;;
          ckpt_marks n (i + 1) mxSafeFrame rc xBusy
        else if rc =? SQLITE_BUSY then ckpt_marks n (i + 1) y rc []
        else mret (rc, mxSafeFrame, xBusy, true)
      else ckpt_marks n (i + 1) mxSafeFrame rc xBusy
  end.

(** [walIteratorInit] with its two allocations; [sizeof] as on hosts with
    pointers of 8 bytes. *)
Definition iterator_init : M (Z * option WalIterator) :=
  w ← get_wal; c ← get_ckpt;
  let iLast := h_mxFrame (hdr w) in
  alloc ← sqlite3_malloc (40 + walFramePage iLast * 32 + iLast * 2);
  alloc_tmp ← (if alloc : bool
               then sqlite3_malloc (2 * (if iLast >? HASHTABLE_NPAGE then HASHTABLE_NPAGE else iLast))
               else mret false);
  with_idx (fun w x =>
    '(rc, it, w, x) ← walIteratorInit alloc alloc_tmp w x (nBackfill c); Some ((rc, it), w, x)).

(** Syncing the log, and the test of the size of the database. *)
Definition ckpt_prepare (sync_flags szPage mxPage : Z) : M Z :=
  rc ← log_sync (CKPT_SYNC_FLAGS sync_flags);
  if negb (rc =? SQLITE_OK) then mret rc else
  let nReq := i64 (mxPage * szPage) in
  '(rc, nSize) ← db_size;
  if (rc =? SQLITE_OK) && (nSize <? nReq) then
    h ← get_hdr;
    if i64 (nSize + 65536 + h_mxFrame h * szPage) <? nReq then mret SQLITE_CORRUPT else mret rc
  else mret rc.

(** The copying. *)
Fixpoint ckpt_copy (fuel : nat) (szPage nBackfill0 mxSafeFrame mxPage : Z) (pIter : WalIterator)
    : M Z :=
  match fuel with
  | O => fail
  | S fuel =>
      '(stop, iDbpage, piFrame, pIter) ← of_option (walIteratorNext pIter);
      if negb (stop =? 0) then mret SQLITE_OK else
      iFrame ← of_option piFrame;
      '(isInterrupted, mallocFailed) ← os_interrupted;
      if isInterrupted : bool
      then mret (if mallocFailed : bool then SQLITE_NOMEM else SQLITE_INTERRUPT) else
      if (iFrame <=? nBackfill0) || (iFrame >? mxSafeFrame) || (iDbpage >? mxPage)
      then ckpt_copy fuel szPage nBackfill0 mxSafeFrame mxPage pIter else
      '(rc, zBuf) ← log_read szPage (walFrameOffset iFrame szPage + WAL_FRAME_HDRSIZE);
      if negb (rc =? SQLITE_OK) then mret rc else
      rc ← db_write zBuf ((iDbpage - 1) * szPage);
      if negb (rc =? SQLITE_OK) then mret rc
      else ckpt_copy fuel szPage nBackfill0 mxSafeFrame mxPage pIter
  end.

(** When the copying succeeded: the size of the database, and [nBackfill]. *)
Definition ckpt_finish (sync_flags szPage mxSafeFrame : Z) : M Z :=
  live ← live_hdr; h ← get_hdr;
  rc ← (if mxSafeFrame =? h_mxFrame live then
          rc ← db_truncate (i64 (h_nPage h * szPage));
          if rc =? SQLITE_OK then db_sync (CKPT_SYNC_FLAGS sync_flags) else mret rc
        else mret SQLITE_OK);
  (if rc =? SQLITE_OK
   then upd_sh (fun s => sh_set_ckpt (ck_set_nBackfill mxSafeFrame (sh_ckpt s)) s)
   else mret tt);;
  mret rc.

(** The copying under the lock [WAL_READ_LOCK(0)]. *)
Definition ckpt_locked (sync_flags szPage mxSafeFrame mxPage : Z) (pIter : WalIterator) : M Z :=
  c ← get_ckpt; h ← get_hdr;
  upd_sh (fun s => sh_set_ckpt (ck_set_attempted mxSafeFrame (sh_ckpt s)) s);;
  rc ← ckpt_prepare sync_flags szPage mxPage;
  rc ← (if rc =? SQLITE_OK
        then ckpt_copy (S (S (Z.to_nat (h_mxFrame h)))) szPage (nBackfill c) mxSafeFrame mxPage pIter
        else mret rc);
  rc ← (if rc =? SQLITE_OK then ckpt_finish sync_flags szPage mxSafeFrame else mret rc);
  walUnlockExclusive (WAL_READ_LOCK 0) 1;;
  mret rc.

(** The first half of [walCheckpoint]: the result code, the handler, and
    whether an error ends the function. *)
Definition ckpt_backfill (sync_flags szPage : Z) (xBusy : BusyHandler) : M (Z * BusyHandler * bool) :=
  c ← get_ckpt; h ← get_hdr;
  if nBackfill c <? h_mxFrame h then
    '(rc, mxSafeFrame, xBusy, stop) ← ckpt_marks 4 1 (h_mxFrame h) SQLITE_OK xBusy;
    if stop : bool then mret (rc, xBusy, true) else
    c ← get_ckpt;
    '(rc, pIter) ← (if nBackfill c <? mxSafeFrame then iterator_init else mret (rc, None));
    '(rc, xBusy) ←
      match pIter with
      | None => mret (rc, xBusy)
      | Some pIter =>
          '(rc, xBusy) ← walBusyLock xBusy (WAL_READ_LOCK 0) 1;
          if rc =? SQLITE_OK then
            rc ← ckpt_locked sync_flags szPage mxSafeFrame (h_nPage h) pIter;
            mret (rc, xBusy)
          else mret (rc, xBusy)
      end;
    mret (if rc =? SQLITE_BUSY then SQLITE_OK else rc, xBusy, false)
  else mret (SQLITE_OK, xBusy, false).

(** The second half. *)
Definition ckpt_restart (eMode : Z) (xBusy : BusyHandler) : M Z :=
  c ← get_ckpt; h ← get_hdr;
  if nBackfill c <? h_mxFrame h then mret SQLITE_BUSY
  else if eMode >=? SQLITE_CHECKPOINT_RESTART then
    salt1 ← sqlite3_randomness 4;
    '(rc, _) ← walBusyLock xBusy (WAL_READ_LOCK 1) (WAL_NREADER - 1);
    if rc =? SQLITE_OK then
      rc ← (if eMode =? SQLITE_CHECKPOINT_TRUNCATE
            then walRestartHdr bigendian salt1;; log_truncate 0
            else mret rc);
      walUnlockExclusive (WAL_READ_LOCK 1) (WAL_NREADER - 1);;
      mret rc
    else mret rc
  else mret SQLITE_OK.

Definition walCheckpoint (eMode : Z) (xBusy : BusyHandler) (sync_flags : Z) : M Z :=
  w ← get_wal;
  '(rc, xBusy, stop) ← ckpt_backfill sync_flags (walPagesize w) xBusy;
  if stop : bool then mret rc else
  if (rc =? SQLITE_OK) && negb (eMode =? SQLITE_CHECKPOINT_PASSIVE)
  then ckpt_restart eMode xBusy else mret rc.

(** * The interface *)

(** The writer lock of the modes that need it: the result code, the mode and
    the handler to go on with. *)
Definition ckpt_writer (eMode : Z) (xBusy : BusyHandler) : M (Z * Z * BusyHandler) :=
  if negb (eMode =? SQLITE_CHECKPOINT_PASSIVE) then
    '(rc, xBusy) ← walBusyLock xBusy WAL_WRITE_LOCK 1;
    if rc =? SQLITE_OK then upd_wal (set_writeLock true);; mret (rc, eMode, xBusy)
    else if rc =? SQLITE_BUSY then mret (SQLITE_OK, SQLITE_CHECKPOINT_PASSIVE, [])
    else mret (rc, eMode, xBusy)
  else mret (SQLITE_OK, eMode, xBusy).

(** The end of a checkpoint: a header that was loaded for it is forgotten, and
    the locks are released. *)
Definition ckpt_end (isChanged : bool) : M unit :=
  (if isChanged then upd_hdr (fun _ => hdr_zero) else mret tt);;
  sqlite3WalEndWriteTransaction;;
  w ← get_wal;
  if ckptLock w then
    walUnlockExclusive WAL_CKPT_LOCK 1;;
    upd_wal (set_ckptLock false)
  else mret tt.

(** Reading the header and copying: the result code, [*pnLog] and [*pnCkpt]
    when they are written, and whether a new header was loaded. *)
Definition ckpt_run (rc eMode2 : Z) (xBusy2 : BusyHandler) (sync_flags nBuf : Z)
    : M (Z * option (Z * Z) * bool) :=
  '(rc, isChanged) ←
    (if rc =? SQLITE_OK then walIndexReadHdr bigendian aPrivate false else mret (rc, false));
  if rc =? SQLITE_OK then
    w ← get_wal;
    rc ← (if negb (h_mxFrame (hdr w) =? 0) && negb (walPagesize w =? nBuf)
          then mret SQLITE_CORRUPT else walCheckpoint eMode2 xBusy2 sync_flags);
    h ← get_hdr; c ← get_ckpt;
    mret (rc, if (rc =? SQLITE_OK) || (rc =? SQLITE_BUSY)
              then Some (i32 (h_mxFrame h), i32 (nBackfill c)) else None, isChanged)
  else mret (rc, None, isChanged).

(** The result code, and [*pnLog] and [*pnCkpt]. *)
Definition sqlite3WalCheckpoint (eMode : Z) (xBusy : BusyHandler) (sync_flags nBuf : Z)
    : M (Z * option (Z * Z)) :=
  w ← get_wal;
  if negb (readOnly w =? 0) then mret (SQLITE_READONLY, None) else
  rc ← walLockExclusive WAL_CKPT_LOCK 1;
  '(rc, eMode2, xBusy2) ←
    (if rc =? SQLITE_OK then upd_wal (set_ckptLock true);; ckpt_writer eMode xBusy
     else mret (rc, eMode, xBusy));
  '(rc, out, isChanged) ← ckpt_run rc eMode2 xBusy2 sync_flags nBuf;
  ckpt_end isChanged;;
  mret (if (rc =? SQLITE_OK) && negb (eMode =? eMode2) then SQLITE_BUSY else rc, out).

End checkpoint.

(** * Bytes of files

    A byte past the end of a file is 0, as a read returns it. *)

Definition byte (L : list Z) (o : Z) : Z := default 0 (L.[o]).

Lemma byte_splice_out L off b o :
  0 <= off -> o < off \/ off + zlen b <= o -> byte (splice L off b) o = byte L o.
Proof.
  intros Hoff Ho. unfold byte. destruct (decide (o < 0)) as [Hneg|Hpos].
  { by rewrite !zget_neg. }
  unfold splice. set (L0 := L ++ _).
  assert (Hl0 : off <= zlen L0).
  { unfold L0, zlen. rewrite length_app, length_replicate. lia. }
  assert (Hz : zlen (take (Z.to_nat off) L0) = off) by (apply zlen_take; lia).
  destruct Ho as [Ho|Ho].
  - rewrite zget_app_l, zget_take by lia. unfold L0.
    destruct (decide (o < zlen L)); [by rewrite zget_app_l|].
    rewrite zget_app_r, (zget_none L) by lia.
    unfold L0, zlen in *. rewrite length_app, length_replicate in Hl0.
    rewrite zget_replicate by lia. done.
  - pose proof (zlen_nonneg b). rewrite zget_app_r, zget_app_r by lia. rewrite Hz.
    replace (Z.to_nat off + length b)%nat with (Z.to_nat (off + zlen b)) by (unfold zlen; lia).
    rewrite zget_drop by lia. do 2 f_equal. lia.
Qed.

Lemma byte_splice_in L off b i :
  0 <= off -> 0 <= i < zlen b -> byte (splice L off b) (off + i) = byte b i.
Proof.
  intros Hoff Hi. unfold byte, splice. set (L0 := L ++ _).
  assert (Hl0 : off <= zlen L0).
  { unfold L0, zlen. rewrite length_app, length_replicate. lia. }
  assert (Hz : zlen (take (Z.to_nat off) L0) = off) by (apply zlen_take; lia).
  rewrite zget_app_r, zget_app_l by lia. do 2 f_equal. lia.
Qed.

Lemma byte_resize L n o :
  0 <= n -> o < n -> byte (take (Z.to_nat n) (L ++ replicate (Z.to_nat n - length L) 0)) o = byte L o.
Proof.
  intros Hn Ho. unfold byte. rewrite zget_take by lia.
  destruct (decide (o < zlen L)); [by rewrite zget_app_l|].
  rewrite zget_app_r, (zget_none L) by lia. unfold zlen in *.
  rewrite zget_replicate by lia. done.
Qed.

Lemma byte_slice L o n i : 0 <= o -> 0 <= i < n -> byte (slice o n L) i = byte L (o + i).
Proof.
  intros Ho Hi. unfold byte, slice. rewrite zget_take by lia. by rewrite zget_drop by lia.
Qed.

Lemma zlen_slice o n (L : list Z) : 0 <= o -> 0 <= n -> o + n <= zlen L -> zlen (slice o n L) = n.
Proof. intros. unfold slice, zlen in *. rewrite length_take, length_drop. lia. Qed.

(** What calls that fail leave of a file. *)
Record file_laws (F : Type) `{VFile F} : Prop := {
  fw_write (f f' : F) b off rc : xWrite f b off = (rc, f') -> rc <> SQLITE_OK ->
    forall o, o < off \/ off + zlen b <= o -> byte (content f') o = byte (content f) o;
  fw_sync (f f' : F) fl rc : xSync f fl = (rc, f') -> content f' = content f;
  fw_truncate (f f' : F) n rc : xTruncate f n = (rc, f') -> rc <> SQLITE_OK ->
    content f' = content f;
}.

(** No call on a file reports [SQLITE_BUSY]. *)
Definition files_not_busy (F : Type) `{VFile F} : Prop :=
  (forall (f : F) a o, (xRead f a o).1 <> SQLITE_BUSY) /\
  (forall (f : F) b o, (xWrite f b o).1 <> SQLITE_BUSY) /\
  (forall (f : F) n, (xSync f n).1 <> SQLITE_BUSY) /\
  (forall (f : F) n, (xTruncate f n).1 <> SQLITE_BUSY) /\
  (forall f : F, (xFileSize f).1 <> SQLITE_BUSY).

(** Every call succeeds that can. *)
Record calls_succeed (F OS : Type) `{VFile F} `{WalOS OS} : Prop := {
  cs_malloc (o : OS) n : (xMalloc o n).1 = true;
  cs_interrupted (o : OS) : (xInterrupted o).1.1 = false;
  cs_read (f : F) amt off : 0 <= amt -> 0 <= off -> off + amt <= zlen (content f) ->
    (xRead f amt off).1 = SQLITE_OK;
  cs_write (f : F) b off : (xWrite f b off).1 = SQLITE_OK;
  cs_sync (f : F) fl : (xSync f fl).1 = SQLITE_OK;
  cs_truncate (f : F) n : (xTruncate f n).1 = SQLITE_OK;
  cs_size (f : F) : (xFileSize f).1 = SQLITE_OK;
}.

(** Page [p] of the database is the same in both files. *)
Definition db_same (sz p : Z) (D D' : list Z) : Prop :=
  forall i, 0 <= i < sz -> byte D' ((p - 1) * sz + i) = byte D ((p - 1) * sz + i).

Lemma db_same_trans sz p D1 D2 D3 : db_same sz p D1 D2 -> db_same sz p D2 D3 -> db_same sz p D1 D3.
Proof. intros H1 H2 i Hi. rewrite H2 by done. by apply H1. Qed.

(** * What a checkpoint does to the database *)

Section backfill.
Context {F OS : Type} `{VFile F} `{WalOS OS} `{ShmEnv} (be : bool).
Context (Hq : os_quiet (OS := OS)) (Hfl : file_laws F).
Local Abbreviation W := (World F OS).
Local Abbreviation log s := (content (w_log s)).
Local Abbreviation db s := (content (w_db s)).
Local Abbreviation marks s := (aReadMark (sh_ckpt (w_sh s))).
Local Abbreviation backfill s := (nBackfill (sh_ckpt (w_sh s))).

(** The slots of the read marks that other connections hold: an exclusive lock
    on a range with such a slot is refused. *)
Context (busy : Z -> Prop).
Definition busy_law : Prop :=
  forall (o : OS) sh a n i, busy i -> a <= WAL_READ_LOCK i < a + n ->
    (xShmLock o sh a n (Z.lor SQLITE_SHM_LOCK SQLITE_SHM_EXCLUSIVE)).1.1 = SQLITE_BUSY.
Context (Hbusy : busy_law).

(** No lock that this connection asks for is refused. *)
Definition alone (s : W) : Prop :=
  exclusiveMode (w_wal s) <> 0 \/
  forall (o : OS) sh a n f, (xShmLock o sh a n f).1.1 = SQLITE_OK.

Lemma wp_lock_or_busy a n (Q : Z -> W -> Prop) s :
  exclusiveMode (w_wal s) = 0 \/ (forall i, ~ busy i) ->
  (forall rc s', same_but_os s s' ->
     (rc = SQLITE_OK -> forall i, busy i -> ~ a <= WAL_READ_LOCK i < a + n) ->
     (alone s -> rc = SQLITE_OK) -> Q rc s') ->
  wp (walLockExclusive a n) Q s.
Proof using Hq Hbusy.
  intros Hx HQ. unfold walLockExclusive, get_wal. wp_pure.
  destruct (Z.eqb_spec (exclusiveMode (w_wal s)) 0) as [Hm|Hm]; cbn [negb].
  - destruct (proj1 Hq (w_os s) (w_sh s) a n (Z.lor SQLITE_SHM_LOCK SQLITE_SHM_EXCLUSIVE))
      as (rc & o & E).
    eapply run_wp; [unfold os_lock; rewrite E; reflexivity|]. apply HQ; [by split_and!| |].
    2:{ intros [?|Hg]; [done|]. specialize (Hg (w_os s) (w_sh s) a n (Z.lor SQLITE_SHM_LOCK SQLITE_SHM_EXCLUSIVE)).
        by rewrite E in Hg. }
    intros -> i Hi Hr. pose proof (Hbusy (w_os s) (w_sh s) a n i Hi Hr) as Hb.
    rewrite E in Hb. discriminate Hb.
  - wp_pure. apply HQ; [apply same_but_os_refl| |done].
    intros _ i Hi. destruct Hx as [?|Hx]; [done|]. by destruct (Hx i).
Qed.

Lemma wp_walBusyLock a n xBusy (Q : Z * BusyHandler -> W -> Prop) : forall s,
  exclusiveMode (w_wal s) = 0 \/ (forall i, ~ busy i) ->
  (forall rc xb s', same_but_os s s' ->
     (rc = SQLITE_OK -> forall i, busy i -> ~ a <= WAL_READ_LOCK i < a + n) ->
     (alone s -> rc = SQLITE_OK) -> Q (rc, xb) s') ->
  wp (walBusyLock xBusy a n) Q s.
Proof using Hq Hbusy.
  induction xBusy as [|b xBusy IH]; intros s Hx HQ; cbn [walBusyLock]; wp_pure.
  all: apply wp_lock_or_busy; [done|]; intros rc s1 Hs1 Hfree Hexc.
  - destruct (rc =? SQLITE_BUSY); wp_pure; by apply HQ.
  - destruct (rc =? SQLITE_BUSY); wp_pure; [|by apply HQ].
    destruct b; wp_pure; [|by apply HQ]. pose proof Hs1 as (E1 & E2 & E3 & E4 & E5).
    apply IH; [by rewrite E1|]. intros rc' xb s' (F1 & F2 & F3 & F4 & F5) Hf' He.
    apply HQ; [split_and!; congruence|done|]. unfold alone in He |- *. by rewrite E1 in He.
Qed.

Lemma same_but_os_trans (s1 s2 s3 : W) :
  same_but_os s1 s2 -> same_but_os s2 s3 -> same_but_os s1 s3.
Proof. intros (?&?&?&?&?) (?&?&?&?&?). split_and!; congruence. Qed.

(** What the loop over the read marks leaves. *)
Record marks_taken (s s' : W) (i safe0 rc0 : Z) (r : Z * Z * BusyHandler * bool) : Prop := {
  mt_wal : w_wal s' = w_wal s;
  mt_log : w_log s' = w_log s;
  mt_db : w_db s' = w_db s;
  mt_aws : w_aws s' = w_aws s;
  mt_sh : exists m', w_sh s' = sh_set_ckpt (ck_set_marks m' (sh_ckpt (w_sh s))) (w_sh s);
  mt_len : zlen (marks s') = 5;
  mt_safe : r.1.1.2 <= safe0;
  mt_stop : r.2 = true -> r.1.1.1 <> SQLITE_OK /\ r.1.1.1 <> SQLITE_BUSY;
  mt_full : alone s -> r.2 = false /\ r.1.1.2 = safe0;
  mt_ok : alone s -> rc0 = SQLITE_OK -> r.1.1.1 = SQLITE_OK;
  mt_busy j : 1 <= j < 5 -> busy j -> (marks s').[j] = (marks s).[j] /\
    (r.2 = false -> i <= j -> forall y, (marks s).[j] = Some y -> r.1.1.2 <= y);
}.

Lemma wp_ckpt_marks n : forall i safe rc xb (Q : Z * Z * BusyHandler * bool -> W -> Prop) s,
  exclusiveMode (w_wal s) = 0 \/ (forall i, ~ busy i) -> zlen (marks s) = 5 -> 1 <= i -> i + Z.of_nat n = 5 ->
  (forall r s', marks_taken s s' i safe rc r -> Q r s') ->
  wp (ckpt_marks n i safe rc xb) Q s.
Proof using Hq Hbusy.
  induction n as [|n IH]; intros i safe rc xb Q s Hx Hl Hi Hn HQ; cbn [ckpt_marks].
  - wp_pure. apply HQ. constructor; cbn; try done; try lia.
    + exists (marks s). by destruct s as [? [? ? []] ? ? ? ?].
    + intros j Hj _. split; [done|]. lia.
  - unfold readMark, get_ckpt. wp_pure.
    destruct (zget_some (marks s) i) as [y Ey]; [lia|].
    rewrite (wp_of_option _ _ _ _ Ey). wp_pure. rewrite Z.gtb_ltb.
    destruct (Z.ltb_spec y safe) as [Hlt|Hge]; wp_pure.
    2:{ apply IH; try done; [lia|lia|]. intros r s' [T1 T2 T3 T4 T5 T6 T7 T8 T10 T11 T9]. apply HQ.
        constructor; try done. intros j Hj Hb. destruct (T9 j Hj Hb) as [Em Hy]. split; [done|].
        intros Hst Hij z Hz. destruct (decide (j = i)) as [->|]; [|apply Hy; [done|lia|done]].
        rewrite Ey in Hz. injection Hz as <-. lia. }
    apply wp_walBusyLock; [done|]. intros rc1 xb1 s1 Hs1 Hfree Hexc. wp_pure.
    destruct Hs1 as (E1 & E2 & E3 & E4 & E5).
    destruct (Z.eqb_spec rc1 SQLITE_OK) as [->|Hne]; [|destruct (Z.eqb_spec rc1 SQLITE_BUSY) as [->|Hne2]].
    + specialize (Hfree eq_refl). rewrite wp_bind.
      apply wp_setReadMark; [rewrite E2; lia|]. rewrite wp_bind.
      apply wp_unlock_excl; [done|]. intros s2 (G1 & G2 & G3 & G4 & G5).
      cbn [w_wal w_sh w_log w_db w_aws] in *. rewrite E2 in G2.
      apply IH; [by rewrite G1, E1|rewrite G2; cbn; by rewrite zlen_zupd|lia|lia|].
      intros r s' [T1 T2 T3 T4 (m' & T5) T6 T7 T8 T10 T11 T9]. apply HQ.
      constructor; try congruence; try done.
      * exists m'. rewrite T5, G2. by destruct (w_sh s) as [? ? [] ?].
      * unfold alone in T10 |- *. by rewrite G1, E1 in T10.
      * unfold alone in T11 |- *. rewrite G1, E1 in T11. intros Ha _. by apply T11.
      * intros j Hj Hb. destruct (T9 j Hj Hb) as [Em Hy].
        assert (j <> i) as Hji.
        { intros ->. apply (Hfree i Hb). unfold WAL_READ_LOCK. lia. }
        rewrite G2 in Em, Hy. cbn in Em, Hy. rewrite zget_zupd_ne in Em, Hy by lia.
        split; [done|]. intros Hst Hij z Hz. apply Hy; [done|lia|done].
    + apply IH; [by rewrite E1|by rewrite E2|lia|lia|].
      intros r s' [T1 T2 T3 T4 (m' & T5) T6 T7 T8 T10 T11 T9]. rewrite E2 in T5, T9. apply HQ.
      constructor; try congruence; try done; [by exists m'|lia|intros Hm; discriminate (Hexc Hm)|intros Hm; discriminate (Hexc Hm)|].
      intros j Hj Hb. destruct (T9 j Hj Hb) as [Em Hy]. split; [done|].
      intros Hst Hij z Hz. destruct (decide (j = i)) as [->|]; [|apply Hy; [done|lia|done]].
      rewrite Ey in Hz. injection Hz as <-. lia.
    + wp_pure. apply HQ. constructor; cbn; try congruence; try done; try lia.
      * exists (marks s). rewrite E2. by destruct (w_sh s) as [? ? [] ?].
      * intros Hm. by destruct (Hne (Hexc Hm)).
      * intros Hm. by destruct (Hne (Hexc Hm)).
      * intros j Hj _. by rewrite E2.
Qed.

Section copy.
Context (pgs : list Z) (first sz nb safe mxPage : Z).
Context (Hmax : zlen pgs < FRAME_MAX) (Hpgs : Forall (fun p => 0 < p < 0xFFFFFFFF) pgs).
Context (Hsz : page_size_ok sz).

(** Page [p] is copied: its last frame is one of those to copy. *)
Definition copied_frame (p f : Z) : Prop :=
  last_after pgs (hash_iZero first) p f /\ nb < f <= safe /\ p <= mxPage.

(** The log holds the frames. *)
Definition log_long (s : W) : Prop := walFrameOffset (zlen pgs + 1) sz <= zlen (log s).

(** The copying of the pages above [lo]. *)
Record copying (lo : Z) (s s' : W) (rc : Z) : Prop := {
  co_wal : w_wal s' = w_wal s;
  co_sh : w_sh s' = w_sh s;
  co_log : w_log s' = w_log s;
  co_aws : w_aws s' = w_aws s;
  co_same p : 1 <= p -> db_same sz p (db s) (db s') \/ (lo < p /\ exists f, copied_frame p f);
  co_rc : files_not_busy F -> rc <> SQLITE_BUSY;
  co_ok : calls_succeed F OS -> log_long s -> rc = SQLITE_OK;
  co_done p f : rc = SQLITE_OK -> lo < p -> copied_frame p f -> forall i, 0 <= i < sz ->
    byte (db s') ((p - 1) * sz + i) = byte (log s) (walFrameOffset f sz + WAL_FRAME_HDRSIZE + i);
}.

Lemma copying_none lo s s' rc :
  same_but_os s s' -> (files_not_busy F -> rc <> SQLITE_BUSY) ->
  (calls_succeed F OS -> log_long s -> rc = SQLITE_OK) ->
  (rc = SQLITE_OK -> forall p f, lo < p -> ~ copied_frame p f) ->
  copying lo s s' rc.
Proof.
  intros (E1 & E2 & E3 & E4 & E5) Hnb Hcs Hno. constructor; try done.
  - intros p Hp. left. intros i Hi. by rewrite E4.
  - intros p f Hrc Hp Hf. by destruct (Hno Hrc p f).
Qed.

Lemma copying_same lo s s1 s' rc : same_but_os s s1 -> copying lo s1 s' rc -> copying lo s s' rc.
Proof. unfold log_long in *. intros (E1 & E2 & E3 & E4 & E5) []. constructor; unfold log_long in *; rewrite <- ?E1, <- ?E2, <- ?E3, <- ?E4, <- ?E5; done. Qed.

(** Pages up to [lo'] hold nothing to copy. *)
Lemma copying_mono lo lo' s s' rc :
  lo <= lo' -> (forall p f, lo < p <= lo' -> ~ copied_frame p f) ->
  copying lo' s s' rc -> copying lo s s' rc.
Proof.
  intros Hle Hno []. constructor; try done.
  - intros p Hp. destruct (co_same0 p Hp) as [?|[? ?]]; [by left|]. right. split; [lia|done].
  - intros p f Hrc Hp Hf i Hi. destruct (decide (p <= lo')) as [?|?]; [by destruct (Hno p f)|].
    by apply (co_done0 p f); [|lia|..].
Qed.

(** Writing a page leaves the others alone. *)
Lemma page_disjoint p q o i (b : list Z) :
  zlen b = sz -> 1 <= q -> p <> q -> 0 <= i < sz -> o = (p - 1) * sz + i ->
  o < (q - 1) * sz \/ (q - 1) * sz + zlen b <= o.
Proof. intros -> Hq1 Hne Hi ->. destruct (Z.lt_ge_cases p q); [left|right]; nia. Qed.

Lemma last_after_unique p f f' :
  last_after pgs (hash_iZero first) p f -> last_after pgs (hash_iZero first) p f' -> f = f'.
Proof.
  intros (L1 & L2 & L3) (L4 & L5 & L6). destruct (Z.lt_trichotomy f f') as [Hlt|[->|Hlt]]; [|done|].
  - by destruct (L3 f'); [lia|].
  - by destruct (L6 f); [lia|].
Qed.

Lemma it_first_nonneg it : it_ok pgs first it -> 0 <= hash_iZero first.
Proof using Hmax.
  intros (_ & _ & Hf & Hpos & _). unfold FRAME_MAX in Hmax. apply iZero_nonneg.
  destruct (frame_page_idx (zlen pgs)) as [Hi _]; [unfold FRAME_MAX; lia|]. lia.
Qed.

Lemma wp_ckpt_copy fuel : forall it (Q : Z -> W -> Prop) s,
  it_ok pgs first it -> (size (above pgs (iPrior it)) < fuel)%nat ->
  (forall rc s', copying (iPrior it) s s' rc -> Q rc s') ->
  wp (ckpt_copy fuel sz nb safe mxPage it) Q s.
Proof using Hmax Hpgs Hsz Hfl Hq Hbusy.
  apply page_size_cases in Hsz as Hszr.
  induction fuel as [|fuel IH]; intros it Q s Hit Hfuel HQ; [lia|]. cbn [ckpt_copy]. wp_pure.
  destruct (walIteratorNext_ok pgs Hmax Hpgs first it Hit)
    as [(it' & E & Hno)|(pg & f & it' & E & Hit' & Hp & Hlt & Hla & Hmin)];
    rewrite (wp_of_option _ _ _ _ E); cbn [negb Z.eqb]; wp_pure.
  { apply HQ, copying_none; [apply same_but_os_refl|done|done|]. intros _ p f Hp [(L1 & L2 & _) _].
    specialize (Hno f p L1 L2). lia. }
  assert (Hsize : (size (above pgs (iPrior it')) < fuel)%nat).
  { rewrite Hp. assert (above pgs pg ⊂ above pgs (iPrior it)) as Hsub%subset_size; [|lia].
    destruct Hla as (_ & Hfr & _). apply zget_elem_of in Hfr.
    unfold above. split; [set_solver by lia|]. intros Hsub. specialize (Hsub pg).
    rewrite !elem_of_filter, elem_of_list_to_set in Hsub. destruct (Hsub ltac:(split; done)) as [? _]. lia. }
  rewrite (wp_of_option _ _ _ _ eq_refl). wp_pure.
  destruct (xInterrupted (w_os s)) as [[b1 b2] o] eqn:Ei.
  eapply run_wp; [unfold os_interrupted; rewrite Ei; reflexivity|].
  set (s1 := mkWorld _ _ _ _ _ o). assert (Hs1 : same_but_os s s1) by (by split_and!).
  destruct b1.
  { wp_pure. apply HQ, copying_none; [done|by destruct b2| |]; [|destruct b2; discriminate].
    intros Hcs _. pose proof (cs_interrupted _ _ Hcs (w_os s)) as Hi. by rewrite Ei in Hi. }
  assert (Hgap : forall p g, iPrior it < p < pg -> ~ copied_frame p g).
  { intros p g Hpg [(L1 & L2 & _) _]. destruct (Hmin g p L1 L2); lia. }
  pose proof (proj1 Hit) as HiMin.
  destruct (_ || _) eqn:Hskip.
  { rewrite !orb_true_iff, Z.leb_le, !Z.gtb_lt in Hskip.
    apply IH; [done|done|]. intros rc s' Hc. rewrite Hp in Hc.
    apply HQ. eapply copying_same; [done|]. apply (copying_mono _ pg); [lia| |done].
    intros p g Hpg Hg. destruct (decide (p = pg)) as [->|]; [|apply (Hgap p g); [lia|done]].
    destruct Hg as (Hg1 & Hg2 & Hg3). rewrite (last_after_unique pg f g Hla Hg1) in Hskip. lia. }
  rewrite !orb_false_iff, Z.leb_gt, !Z.gtb_ltb, !Z.ltb_ge in Hskip.
  assert (Hcf : copied_frame pg f) by (split_and!; [done|lia|lia|lia]).
  wp_pure. unfold log_read. wp_pure.
  destruct (xRead _ _ _) as [rc zBuf] eqn:Er. wp_pure.
  assert (Hoff : 0 <= walFrameOffset f sz + WAL_FRAME_HDRSIZE).
  { pose proof (it_first_nonneg _ Hit). destruct Hla as [Hf _].
    unfold walFrameOffset, WAL_HDRSIZE, WAL_FRAME_HDRSIZE. nia. }
  destruct (Z.eqb_spec rc SQLITE_OK) as [->|Hne]; cbn [negb]; wp_pure.
  2:{ apply HQ, copying_none; [done| | |done].
      2:{ intros Hcs Hlong. pose proof (cs_read _ _ Hcs (w_log s1) sz (walFrameOffset f sz + WAL_FRAME_HDRSIZE)) as Hrd.
          rewrite Er in Hrd. apply Hrd; [lia|lia|]. unfold log_long in Hlong.
          destruct Hla as (_ & Hla & _). apply zget_range in Hla.
          unfold walFrameOffset, WAL_HDRSIZE, WAL_FRAME_HDRSIZE in *. cbn [w_log s1]. nia. }
      intros (Hnr & _). pose proof (Hnr (w_log s1) sz (walFrameOffset f sz + WAL_FRAME_HDRSIZE)) as Hn.
      by rewrite Er in Hn. }
  apply xRead_ok in Er as [Hrange ->]; [|lia|done].
  set (b := slice _ _ _). assert (Hb : zlen b = sz) by (apply zlen_slice; lia).
  unfold db_write. wp_pure. destruct (xWrite _ _ _) as [rc f'] eqn:Ew. wp_pure.
  assert (Hw0 : 0 <= (pg - 1) * sz) by nia.
  assert (Hout : forall p, 1 <= p -> p <> pg -> db_same sz p (db s) (content f')).
  { intros p Hp1 Hne i Hi. pose proof (page_disjoint p pg _ i b Hb ltac:(lia) Hne Hi eq_refl) as Ho.
    destruct (decide (rc = SQLITE_OK)) as [->|Hrc].
    - apply xWrite_ok in Ew as ->; [|done]. by apply byte_splice_out.
    - by apply (fw_write _ Hfl _ _ _ _ _ Ew Hrc). }
  destruct (Z.eqb_spec rc SQLITE_OK) as [->|Hrc]; cbn [negb]; wp_pure.
  2:{ apply HQ. constructor; try done.
      - intros p Hp1. destruct (decide (p = pg)) as [->|]; [|left; by apply Hout].
        right. split; [lia|]. by exists f.
      - intros (_ & Hnw & _). specialize (Hnw (w_db s1) b ((pg - 1) * sz)). by rewrite Ew in Hnw.
      - intros Hcs _. pose proof (cs_write _ _ Hcs (w_db s1) b ((pg - 1) * sz)) as Hw. by rewrite Ew in Hw. }
  apply xWrite_ok in Ew; [|done].
  apply IH; [done|done|]. intros rc s' [C1 C2 C3 C4 C5 C7 C8 C6]. rewrite Hp in C5, C6.
  cbn [w_wal w_sh w_log w_db w_aws] in *. apply HQ. constructor; try done.
  - intros p Hp1. destruct (decide (p = pg)) as [->|Hne]; [right; split; [lia|by exists f]|].
    destruct (C5 p Hp1) as [Hs|[? ?]]; [left|right; split; [lia|done]].
    eapply db_same_trans; [by apply Hout|done].
  - intros p g Hrc Hpi Hg i Hi. destruct (decide (p = pg)) as [->|Hne].
    + rewrite (last_after_unique pg g f (proj1 Hg) Hla) in *.
      destruct (C5 pg ltac:(lia)) as [Hs|[? _]]; [|lia]. rewrite Hs by done.
      rewrite Ew, byte_splice_in by lia. by apply byte_slice.
    + apply (C6 p g Hrc); [|done|done]. destruct (decide (p < pg)); [|lia].
      by destruct (Hgap p g); [lia|].
Qed.

(** The database file is not so small that the header must be corrupt. *)
Definition db_fits (s : W) : Prop := mxPage * sz <= zlen (db s) + 65536 + zlen pgs * sz.

(** What the copying under the lock leaves. *)
Record copied_back (s s' : W) (rc : Z) : Prop := {
  cb_wal : w_wal s' = w_wal s;
  cb_log : log s' = log s;
  cb_aws : w_aws s' = w_aws s;
  cb_sh : exists att, w_sh s' =
    sh_set_ckpt (mkCkpt (if rc =? SQLITE_OK then safe else backfill s) (marks s) att) (w_sh s);
  cb_same p : 1 <= p <= mxPage -> db_same sz p (db s) (db s') \/ exists f, copied_frame p f;
  cb_rc : files_not_busy F -> rc <> SQLITE_BUSY;
  cb_ok : calls_succeed F OS -> log_long s -> db_fits s -> rc = SQLITE_OK;
  cb_done p f : rc = SQLITE_OK -> 1 <= p -> copied_frame p f -> forall i, 0 <= i < sz ->
    byte (db s') ((p - 1) * sz + i) = byte (log s) (walFrameOffset f sz + WAL_FRAME_HDRSIZE + i);
}.

Lemma wp_ckpt_prepare fl (Q : Z -> W -> Prop) s :
  h_mxFrame (hdr (w_wal s)) = zlen pgs -> 0 <= mxPage < 2 ^ 32 ->
  (forall rc f', content f' = log s -> (files_not_busy F -> rc <> SQLITE_BUSY) ->
     (calls_succeed F OS -> db_fits s -> rc = SQLITE_OK) ->
     Q rc (mkWorld (w_wal s) (w_sh s) f' (w_db s) (w_aws s) (w_os s))) ->
  wp (ckpt_prepare fl sz mxPage) Q s.
Proof using Hfl Hsz Hmax.
  intros Hmx Hr HQ. apply page_size_cases in Hsz as Hszr.
  unfold ckpt_prepare, log_sync, db_size, get_hdr. wp_pure.
  destruct (xSync (w_log s) _) as [rc f'] eqn:E. wp_pure.
  assert (H1rc : files_not_busy F -> rc <> SQLITE_BUSY).
  { intros (_ & _ & Hns & _). specialize (Hns (w_log s) (CKPT_SYNC_FLAGS fl)). by rewrite E in Hns. }
  assert (H1ok : calls_succeed F OS -> rc = SQLITE_OK).
  { intros Hcs. pose proof (cs_sync _ _ Hcs (w_log s) (CKPT_SYNC_FLAGS fl)) as Hs. by rewrite E in Hs. }
  apply (fw_sync _ Hfl) in E. destruct (negb (rc =? SQLITE_OK)); wp_pure; [by apply HQ; auto|].
  destruct (xFileSize _) as [rc2 n] eqn:E2.
  assert (H2rc : files_not_busy F -> rc2 <> SQLITE_BUSY).
  { intros (_ & _ & _ & _ & Hns). specialize (Hns (w_db s)). by rewrite E2 in Hns. }
  assert (H2ok : calls_succeed F OS -> rc2 = SQLITE_OK).
  { intros Hcs. pose proof (cs_size _ _ Hcs (w_db s)) as Hs. by rewrite E2 in Hs. }
  destruct (_ && _) eqn:Hsmall; wp_pure; [|by apply HQ; auto].
  destruct (Z.ltb_spec (i64 (n + 65536 + h_mxFrame (hdr (w_wal s)) * sz)) (i64 (mxPage * sz)))
    as [Hcor|]; wp_pure; apply HQ; auto.
  - intros _ Hfit. exfalso. apply andb_true_iff in Hsmall as [->%Z.eqb_eq Hn].
    apply xFileSize_ok in E2 as ->. pose proof (zlen_nonneg (db s)). unfold db_fits, FRAME_MAX in *.
    apply Z.ltb_lt in Hn. rewrite Hmx in Hcor. rewrite (i64_small (mxPage * sz)) in Hn, Hcor by nia.
    rewrite i64_small in Hcor by nia. lia.
Qed.

Lemma wp_ckpt_finish fl (Q : Z -> W -> Prop) s :
  h_nPage (hdr (w_wal s)) = mxPage -> 0 <= mxPage < 2 ^ 32 ->
  (forall rc f', (forall p, 1 <= p <= mxPage -> db_same sz p (db s) (content f')) ->
     (files_not_busy F -> rc <> SQLITE_BUSY) -> (calls_succeed F OS -> rc = SQLITE_OK) ->
     Q rc (mkWorld (w_wal s)
             (if rc =? SQLITE_OK then sh_set_ckpt (ck_set_nBackfill safe (sh_ckpt (w_sh s))) (w_sh s)
              else w_sh s) (w_log s) f' (w_aws s) (w_os s))) ->
  wp (ckpt_finish fl sz safe) Q s.
Proof using Hfl Hsz.
  intros Hn Hr HQ. apply page_size_cases in Hsz as Hszr.
  unfold ckpt_finish, live_hdr, get_hdr, db_truncate, db_sync. wp_pure. rewrite Hn.
  assert (Hend : forall rc f', (forall p, 1 <= p <= mxPage -> db_same sz p (db s) (content f')) ->
    (files_not_busy F -> rc <> SQLITE_BUSY) -> (calls_succeed F OS -> rc = SQLITE_OK) ->
    wp (if rc =? SQLITE_OK
        then upd_sh (fun s => sh_set_ckpt (ck_set_nBackfill safe (sh_ckpt s)) s) else mret tt)
       (fun _ s' => Q rc s') (mkWorld (w_wal s) (w_sh s) (w_log s) f' (w_aws s) (w_os s))).
  { intros rc f' Hf Hrc Hcs. specialize (HQ rc f' Hf Hrc Hcs). destruct (rc =? SQLITE_OK); wp_pure; done. }
  assert (Hrefl : forall p, 1 <= p <= mxPage -> db_same sz p (db s) (db s)) by done.
  destruct (_ =? h_mxFrame _); wp_pure.
  2:{ specialize (Hend SQLITE_OK (w_db s) Hrefl ltac:(done) ltac:(done)). by destruct s. }
  rewrite i64_small by nia.
  destruct (xTruncate (w_db s) (mxPage * sz)) as [rc f'] eqn:E. wp_pure.
  assert (Htb : files_not_busy F -> rc <> SQLITE_BUSY).
  { intros (_ & _ & _ & Hnt & _). specialize (Hnt (w_db s) (mxPage * sz)). by rewrite E in Hnt. }
  assert (Htc : calls_succeed F OS -> rc = SQLITE_OK).
  { intros Hcs. pose proof (cs_truncate _ _ Hcs (w_db s) (mxPage * sz)) as Hs. by rewrite E in Hs. }
  assert (Ht : forall p, 1 <= p <= mxPage -> db_same sz p (db s) (content f')).
  { intros p Hp i Hi. destruct (decide (rc = SQLITE_OK)) as [->|Hrc].
    - apply xTruncate_ok in E as ->; [|nia]. apply byte_resize; nia.
    - by rewrite (fw_truncate _ Hfl _ _ _ _ E Hrc). }
  destruct (Z.eqb_spec rc SQLITE_OK) as [->|Hne]; wp_pure.
  - destruct (xSync f' _) as [rc2 f2] eqn:E2. wp_pure.
    assert (Hsb : files_not_busy F -> rc2 <> SQLITE_BUSY).
    { intros (_ & _ & Hns & _). specialize (Hns f' (CKPT_SYNC_FLAGS fl)). by rewrite E2 in Hns. }
    assert (Hsc : calls_succeed F OS -> rc2 = SQLITE_OK).
    { intros Hcs. pose proof (cs_sync _ _ Hcs f' (CKPT_SYNC_FLAGS fl)) as Hs. by rewrite E2 in Hs. }
    apply (fw_sync _ Hfl) in E2. specialize (Hend rc2 f2). rewrite E2 in Hend. by apply Hend.
  - specialize (Hend rc f' Ht Htb Htc). by rewrite (proj2 (Z.eqb_neq _ _) Hne) in Hend |- *.
Qed.

Lemma wp_ckpt_locked fl it (Q : Z -> W -> Prop) s :
  it_ok pgs first it -> iPrior it = 0 -> h_mxFrame (hdr (w_wal s)) = zlen pgs -> backfill s = nb ->
  h_nPage (hdr (w_wal s)) = mxPage -> 0 <= mxPage < 2 ^ 32 ->
  (forall rc s', copied_back s s' rc -> Q rc s') ->
  wp (ckpt_locked fl sz safe mxPage it) Q s.
Proof using Hmax Hpgs Hsz Hfl Hq Hbusy.
  intros Hit Hip Hmx Hnb Hn Hr HQ. unfold ckpt_locked, get_ckpt, get_hdr. wp_pure.
  rewrite Hnb, Hmx. apply wp_ckpt_prepare; [done|done|]. cbn [w_log]. intros rc1 f1 E1 Hrc1 Hok1. wp_pure.
  set (s1 := mkWorld _ _ _ _ _ _).
  assert (Hfin : forall rc s2, copied_back s s2 rc ->
            wp (walUnlockExclusive (WAL_READ_LOCK 0) 1) (fun _ s' => Q rc s') s2).
  { intros rc s2 [B1 B2 B3 B4 B5 B7 B8 B6]. apply wp_unlock_excl; [done|].
    intros s3 (F1 & F2 & F3 & F4 & F5). apply HQ. constructor; rewrite ?F4; try congruence; try done.
    destruct B4 as [att B4]. exists att. congruence. }
  assert (Hcopy : forall rc s2, copying 0 s1 s2 rc -> rc <> SQLITE_OK -> copied_back s s2 rc).
  { intros rc s2 [C1 C2 C3 C4 C5 C7 C8 C6] Hrc. constructor; rewrite ?C1, ?C3, ?C4; try done.
    - exists safe. rewrite C2, (proj2 (Z.eqb_neq _ _) Hrc). by destruct (w_sh s) as [? ? [] ?].
    - intros p Hp. destruct (C5 p ltac:(lia)) as [?|[_ ?]]; [by left|by right].
    - intros Hcs Hl _. apply C8; [done|]. unfold log_long, s1 in *. cbn [w_log]. by rewrite E1. }
  destruct (Z.eqb_spec rc1 SQLITE_OK) as [->|Hne].
  2:{ wp_pure. rewrite (proj2 (Z.eqb_neq _ _) Hne). wp_pure. apply Hfin.
      constructor; try done; [| |by intros Hcs _; apply Hok1].
      - exists safe. rewrite (proj2 (Z.eqb_neq _ _) Hne). by destruct (w_sh s) as [? ? [] ?].
      - intros p _. by left. }
  apply wp_ckpt_copy; [done| |].
  { pose proof (size_above pgs (iPrior it)). unfold zlen. lia. }
  rewrite Hip. intros rc s2 Hc. wp_pure.
  destruct (Z.eqb_spec rc SQLITE_OK) as [->|Hne]; [|wp_pure; by apply Hfin, Hcopy].
  destruct Hc as [C1 C2 C3 C4 C5 C7 C8 C6].
  apply wp_ckpt_finish; [by rewrite C1|done|]. intros rc f' Hf Hrc' Hok'. wp_pure. apply Hfin.
  constructor; cbn [w_wal w_log w_aws w_sh w_db]; rewrite ?C1, ?C3, ?C4; try done.
  - exists safe. rewrite C2. destruct (rc =? SQLITE_OK); by destruct (w_sh s) as [? ? [] ?].
  - intros p Hp. destruct (C5 p ltac:(lia)) as [Hs|[_ ?]]; [|by right].
    left. eapply db_same_trans; [exact Hs|by apply Hf].
  - auto.
  - intros p f Hrc Hp Hcf i Hi. rewrite (Hf p) by (destruct Hcf as (_ & _ & ?); lia || done).
    rewrite (C6 p f eq_refl) by (lia || done). unfold s1. cbn [w_log]. by rewrite E1.
Qed.
End copy.

(** A byte of page [p] for a reader that finds it in frame [r] of the log, or
    in the database when [r] is 0. *)
Definition read_byte (sz : Z) (s : W) (r p i : Z) : Z :=
  if r =? 0 then byte (db s) ((p - 1) * sz + i)
  else byte (log s) (walFrameOffset r sz + WAL_FRAME_HDRSIZE + i).

(** The connection knows the header of the frames [pgs]. *)
Record ckpt_pre (s : W) (pgs : list Z) (sz : Z) : Prop := {
  kp_mode : exclusiveMode (w_wal s) = 0 \/ (forall i, ~ busy i);
  kp_marks : zlen (marks s) = 5;
  kp_mx : h_mxFrame (hdr (w_wal s)) = zlen pgs;
  kp_max : zlen pgs < FRAME_MAX;
  kp_idx : wi_ok (sh_idx (w_sh s)) pgs;
  kp_pgs : Forall (fun p => 0 < p < 0xFFFFFFFF) pgs;
  kp_size : walPagesize (w_wal s) = sz;
  kp_page : page_size_ok sz;
  kp_backfill : 0 <= backfill s <= zlen pgs;
  kp_npage : 0 <= h_nPage (hdr (w_wal s)) < 2 ^ 32;
}.

(** What the copying leaves for the readers. *)
Record backfilled (pgs : list Z) (sz : Z) (s s' : W) : Prop := {
  bf_wal : w_wal s' = w_wal s;
  bf_log : log s' = log s;
  bf_aws : w_aws s' = w_aws s;
  bf_hdrs : sh_hdr0 (w_sh s') = sh_hdr0 (w_sh s) /\ sh_hdr1 (w_sh s') = sh_hdr1 (w_sh s) /\
            sh_idx (w_sh s') = sh_idx (w_sh s);
  bf_marks : zlen (marks s') = 5 /\ forall i, 1 <= i < 5 -> busy i -> (marks s').[i] = (marks s).[i];
  bf_bounds : backfill s <= backfill s' <= zlen pgs;
  bf_zero : busy 0 -> w_db s' = w_db s /\ backfill s' = backfill s;
  bf_readers i y m lo p r k : 1 <= i < 5 -> busy i -> (marks s).[i] = Some y -> y <= m ->
    0 <= lo <= backfill s -> 1 <= p <= h_nPage (hdr (w_wal s)) ->
    last_frame pgs p (lo + 1) m r -> 0 <= k < sz ->
    read_byte sz s' r p k = read_byte sz s r p k;
  bf_current p r r' k : 1 <= p <= h_nPage (hdr (w_wal s)) ->
    last_frame pgs p (backfill s + 1) (zlen pgs) r ->
    last_frame pgs p (backfill s' + 1) (zlen pgs) r' -> 0 <= k < sz ->
    read_byte sz s' r' p k = read_byte sz s r p k;
}.

(** Nothing was copied. *)
Definition marks_only (s s' : W) : Prop :=
  w_wal s' = w_wal s /\ w_log s' = w_log s /\ w_db s' = w_db s /\ w_aws s' = w_aws s /\
  (exists m', w_sh s' = sh_set_ckpt (ck_set_marks m' (sh_ckpt (w_sh s))) (w_sh s)) /\
  zlen (marks s') = 5 /\ forall i, 1 <= i < 5 -> busy i -> (marks s').[i] = (marks s).[i].

Lemma marks_only_taken s s1 s' i safe rc r :
  marks_taken s s1 i safe rc r -> same_but_os s1 s' -> marks_only s s'.
Proof.
  intros [T1 T2 T3 T4 T5 T6 T7 T8 T10 T11 T9] (E1 & E2 & E3 & E4 & E5). unfold marks_only.
  rewrite E1, E2, E3, E4, E5. split_and!; try done. intros j Hj Hb. by apply T9.
Qed.

Lemma marks_only_refl (s : W) : zlen (marks s) = 5 -> marks_only s s.
Proof. intros Hm. split_and!; try done. exists (marks s). by destruct s as [? [? ? []] ? ? ? ?]. Qed.

Lemma backfilled_none pgs sz s s' :
  0 <= backfill s <= zlen pgs -> marks_only s s' -> backfilled pgs sz s s'.
Proof.
  intros Hb (T1 & T2 & T3 & T4 & (m' & T5) & T6 & T9).
  assert (Hr : forall x p k, read_byte sz s' x p k = read_byte sz s x p k).
  { intros x p k. unfold read_byte. by rewrite T2, T3. }
  constructor; rewrite ?T2, ?T3; try done.
  - by rewrite T5.
  - rewrite T5. cbn. lia.
  - intros _. by rewrite T5.
  - intros p x x' k Hp Hl Hl' Hk. rewrite T5 in Hl'. cbn in Hl'. rewrite Hr. f_equal.
    by eapply last_frame_unique; [|exact Hl'|exact Hl]; lia.
Qed.

Lemma wp_malloc_ok n (Q : bool -> W -> Prop) s :
  (forall b s', same_but_os s s' -> (calls_succeed F OS -> b = true) -> Q b s') ->
  wp (sqlite3_malloc n) Q s.
Proof.
  intros HQ. destruct (xMalloc (w_os s) n) as [b o] eqn:E.
  eapply run_wp; [unfold sqlite3_malloc; rewrite E; reflexivity|]. apply HQ; [by split_and!|].
  intros Hcs. pose proof (cs_malloc _ _ Hcs (w_os s) n) as Hm. by rewrite E in Hm.
Qed.

Lemma wp_iterator_init pgs sz (Q : Z * option WalIterator -> W -> Prop) s :
  ckpt_pre s pgs sz -> backfill s < zlen pgs ->
  (forall rc o s', same_but_os s s' ->
     (o = None -> rc = SQLITE_NOMEM /\ ~ calls_succeed F OS) ->
     (forall it, o = Some it -> rc = SQLITE_OK /\ iPrior it = 0 /\
        it_ok pgs (walFramePage (backfill s + 1)) it /\
        hash_iZero (walFramePage (backfill s + 1)) <= backfill s) -> Q (rc, o) s') ->
  wp iterator_init Q s.
Proof.
  intros Hpre Hlt HQ. unfold iterator_init, get_wal, get_ckpt. wp_pure.
  apply wp_malloc_ok. intros a1 s1 (E1 & E2 & E3 & E4 & E5) Ha1. wp_pure.
  assert (Hend : forall a2 s2, same_but_os s s2 -> (calls_succeed F OS -> a1 && a2 = true) ->
    wp (with_idx (fun w x => '(rc, it, w, x) ← walIteratorInit a1 a2 w x (backfill s);
                             Some ((rc, it), w, x))) Q s2).
  { intros a2 s2 Hs2 Ha. pose proof Hs2 as (F1 & F2 & F3 & F4 & F5).
    assert (Hback : mkWorld (w_wal s2) (sh_set_idx (sh_idx (w_sh s2)) (w_sh s2)) (w_log s2) (w_db s2)
              (w_aws s2) (w_os s2) = s2) by (by destruct s2 as [? [] ? ? ? ?]).
    destruct (walIteratorInit_ok pgs (w_wal s2) (sh_idx (w_sh s2)) (kp_max _ _ _ Hpre)
                ltac:(rewrite F1; apply Hpre) ltac:(rewrite F2; apply Hpre) a1 a2 (backfill s))
      as [[Hno E]|(it & E & Hit & Hip & Hz)]; [pose proof (kp_backfill _ _ _ Hpre); lia| |].
    - eapply run_wp; [unfold with_idx; rewrite E; cbn; rewrite Hback; reflexivity|].
      apply HQ; [done| |done]. intros _. split; [done|]. intros Hcs. specialize (Ha Hcs). congruence.
    - eapply run_wp; [unfold with_idx; rewrite E; cbn; rewrite Hback; reflexivity|].
      apply HQ; [done|done|]. intros it' [= <-]. done. }
  destruct a1.
  - apply wp_malloc_ok. intros a2 s2 Hs2 Ha2. apply Hend; [|done].
    eapply same_but_os_trans; [|done]. by split_and!.
  - wp_pure. apply Hend; [by split_and!|done].
Qed.

Lemma last_frame_none pgs p lo m : 0 <= lo ->
  last_frame pgs p (lo + 1) m 0 -> forall f, lo < f <= m -> frame_of pgs f <> Some p.
Proof. intros Hlo [[_ Hn]|[Hr _]] f Hf; [apply Hn; lia|lia]. Qed.

Lemma backfilled_copied pgs sz s s1 s' r it rc rc0 :
  ckpt_pre s pgs sz -> marks_taken s s1 1 (zlen pgs) rc0 r -> r.2 = false -> backfill s < r.1.1.2 ->
  hash_iZero (walFramePage (backfill s + 1)) <= backfill s -> ~ busy 0 ->
  it_ok pgs (walFramePage (backfill s + 1)) it ->
  copied_back pgs (walFramePage (backfill s + 1)) sz (backfill s) r.1.1.2
    (h_nPage (hdr (w_wal s))) s1 s' rc ->
  backfilled pgs sz s s'.
Proof.
  intros Hpre [T1 T2 T3 T4 (m' & T5) T6 T7 T8 T10 T11 T9] Hst Hlt Hz Hb0 Hit [C1 C2 C3 (att & C4) C5 C7 C8 C6].
  set (safe := r.1.1.2) in *. set (nb := backfill s) in *.
  pose proof (kp_backfill _ _ _ Hpre) as Hnb.
  assert (Enb1 : backfill s1 = nb) by (by rewrite T5).
  assert (Eb : backfill s' = if rc =? SQLITE_OK then safe else nb) by (rewrite C4, <- Enb1; done).
  assert (Em : marks s' = marks s1) by (by rewrite C4).
  assert (El : log s' = log s) by congruence.
  (* the pages that no frame to copy holds *)
  assert (Hkeep : forall p k lo m, 1 <= p <= h_nPage (hdr (w_wal s)) -> 0 <= lo <= nb -> safe <= m ->
            last_frame pgs p (lo + 1) m 0 -> 0 <= k < sz ->
            read_byte sz s' 0 p k = read_byte sz s 0 p k).
  { intros p k lo m Hp Hlo Hm Hl Hk. unfold read_byte. cbn [Z.eqb]. rewrite <- T3.
    destruct (C5 p Hp) as [Hs|(f & (_ & Hfr & _) & Hf & _)]; [by apply Hs|].
    by destruct (last_frame_none pgs p lo m ltac:(lia) Hl f ltac:(lia)). }
  assert (Hlog : forall p k x, x <> 0 -> read_byte sz s' x p k = read_byte sz s x p k).
  { intros p k x Hx. unfold read_byte. by rewrite (proj2 (Z.eqb_neq _ _) Hx), El. }
  constructor; try congruence.
  - rewrite C4, T5. done.
  - rewrite Em. split; [done|]. intros i Hi Hbi. by apply T9.
  - rewrite Eb. destruct (rc =? SQLITE_OK); lia.
  - intros i y m lo p x k Hi Hbi Hy Hym Hlo Hp Hl Hk.
    destruct (decide (x = 0)) as [->|Hx]; [|by apply Hlog].
    destruct (T9 i Hi Hbi) as [_ Hsafe]. specialize (Hsafe Hst ltac:(lia) y Hy). fold safe in Hsafe.
    apply (Hkeep p k lo m); done || lia.
  - intros p x x' k Hp Hl Hl' Hk.
    assert (Hsame : last_frame pgs p (nb + 1) (zlen pgs) x' -> read_byte sz s' x' p k = read_byte sz s x p k).
    { intros Hl2. assert (x' = x) as -> by (by eapply last_frame_unique; [|exact Hl2|exact Hl]; lia).
      destruct (decide (x = 0)) as [->|Hx]; [|by apply Hlog].
      apply (Hkeep p k nb (zlen pgs)); done || lia. }
    rewrite Eb in Hl'. destruct (Z.eqb_spec rc SQLITE_OK) as [->|]; [|by apply Hsame].
    destruct (decide (x' = 0)) as [->|Hx'].
    2:{ apply Hsame. destruct Hl' as [[? _]|(Hr & Hf & Hn)]; [done|]. right. split_and!; [lia|lia|done|done]. }
    pose proof (last_frame_none pgs p safe (zlen pgs) ltac:(lia) Hl') as Hno.
    destruct (decide (x = 0)) as [->|Hx].
    + apply (Hkeep p k nb (zlen pgs)); done || lia.
    + destruct Hl as [[? _]|(Hr & Hf & Hn)]; [done|]. unfold read_byte at 1. cbn [Z.eqb].
      assert (x <= safe). { destruct (decide (x <= safe)); [done|]. by destruct (Hno x ltac:(lia)). }
      assert (Hcf : copied_frame pgs (walFramePage (nb + 1)) nb safe (h_nPage (hdr (w_wal s))) p x).
      { split; [|split; lia]. split; [lia|]. by split. }
      rewrite (C6 p x eq_refl ltac:(lia) Hcf k Hk).
      unfold read_byte. by rewrite (proj2 (Z.eqb_neq _ _) Hx), T2.
Qed.

Lemma wp_ckpt_backfill fl xBusy pgs sz (Q : Z * BusyHandler * bool -> W -> Prop) s :
  ckpt_pre s pgs sz ->
  (forall r s', backfilled pgs sz s s' -> (r.2 = true -> r.1.1 <> SQLITE_OK) ->
     (alone s -> files_not_busy F -> r.1.1 = SQLITE_OK -> backfill s' = zlen pgs) ->
     (alone s -> calls_succeed F OS -> log_long pgs sz s -> db_fits pgs sz (h_nPage (hdr (w_wal s))) s ->
        r.1.1 = SQLITE_OK /\ r.2 = false /\ backfill s' = zlen pgs) ->
     Q r s') ->
  wp (ckpt_backfill fl sz xBusy) Q s.
Proof using Hq Hbusy Hfl.
  intros Hpre HQ. unfold ckpt_backfill, get_ckpt, get_hdr. wp_pure.
  rewrite (kp_mx _ _ _ Hpre). pose proof (kp_backfill _ _ _ Hpre) as Hnb.
  destruct (Z.ltb_spec (backfill s) (zlen pgs)) as [Hlt|Hge]; wp_pure.
  2:{ apply HQ; [|done|intros; lia|intros; split_and!; done || lia]. apply backfilled_none; [done|]. apply marks_only_refl, Hpre. }
  apply wp_ckpt_marks; [apply Hpre|apply Hpre|lia|lia|]. intros r s1 Ht.
  destruct r as [[[rc safe] xb] stop]. wp_pure.
  assert (Hnone : forall s2, same_but_os s1 s2 -> backfilled pgs sz s s2).
  { intros s2 Hs2. apply backfilled_none; [done|]. by eapply marks_only_taken. }
  pose proof Ht as [T1 T2 T3 T4 (m' & T5) T6 T7 T8 T10 T11 _]. cbn [fst snd] in T7, T8, T10, T11.
  destruct stop.
  { wp_pure. apply HQ; [by apply Hnone, same_but_os_refl|intros _; by apply T8|..];
    intros Hm; by destruct (T10 Hm). }
  wp_pure. assert (Enb : backfill s1 = backfill s) by (by rewrite T5). rewrite Enb.
  destruct (Z.ltb_spec (backfill s) safe) as [Hsafe|]; wp_pure.
  2:{ apply HQ; [by apply Hnone, same_but_os_refl|done|..]; intros Hm; destruct (T10 Hm); lia. }
  assert (Hpre1 : ckpt_pre s1 pgs sz).
  { destruct Hpre. constructor; rewrite ?T1, ?Enb; try done. by rewrite T5. }
  apply (wp_iterator_init pgs sz); [done|by rewrite Enb|]. intros rc1 o s2 Hs2 Hnomem Ho. wp_pure.
  destruct o as [it|]; wp_pure.
  2:{ destruct (Hnomem eq_refl) as [-> Hncs]. by apply HQ; [by apply Hnone|..]. }
  destruct (Ho it eq_refl) as (-> & Hip & Hit & Hz). rewrite Enb in Hit, Hz.
  pose proof Hs2 as (E1 & E2 & E3 & E4 & E5).
  apply wp_walBusyLock; [rewrite E1; apply Hpre1|]. intros rc2 xb2 s3 Hs3 Hfree Hexc. wp_pure.
  pose proof (same_but_os_trans _ _ _ Hs2 Hs3) as Hs13. unfold alone in Hexc. rewrite E1, T1 in Hexc.
  destruct (Z.eqb_spec rc2 SQLITE_OK) as [->|Hne]; wp_pure.
  2:{ apply HQ; [by apply Hnone|done|..]; intros Hm; by destruct (Hne (Hexc Hm)). }
  pose proof Hs13 as (F1 & F2 & F3 & F4 & F5).
  eapply (wp_ckpt_locked pgs (walFramePage (backfill s + 1)) sz (backfill s) safe
           (h_nPage (hdr (w_wal s)))); try apply Hpre1; try done.
  - rewrite F1. apply Hpre1.
  - by rewrite F2.
  - by rewrite F1, T1.
  - apply Hpre.
  - intros rc3 s4 Hc. wp_pure.
    assert (Ht3 : marks_taken s s3 1 (zlen pgs) SQLITE_OK (rc, safe, xb, false)).
    { destruct Ht. constructor; unfold alone in *; rewrite ?F1, ?F2, ?F3, ?F4, ?F5; done. }
    apply HQ; [|done|..].
    + apply (backfilled_copied pgs sz s s3 s4 (rc, safe, xb, false) it rc3 SQLITE_OK); try done.
      intros Hb. apply (Hfree eq_refl 0 Hb). unfold WAL_READ_LOCK. lia.
    + intros Hm Hnb2 Hrc. cbn [fst] in Hrc. destruct (T10 Hm) as [_ <-].
      destruct Hc as [C1 C2 C3 (att & C4) C5 C7 C8 C6]. rewrite C4. cbn.
      destruct (Z.eqb_spec rc3 SQLITE_BUSY) as [->|]; [by destruct (C7 Hnb2)|].
      by rewrite Hrc.
    + intros Hm Hcs Hlong Hfit. cbn [fst snd]. destruct (T10 Hm) as [_ <-].
      destruct Hc as [C1 C2 C3 (att & C4) C5 C7 C8 C6]. unfold log_long, db_fits in *.
      rewrite F3, F4, T2, T3 in C8. rewrite C4, (C8 Hcs Hlong Hfit). done.
Qed.

(** * Restarting *)

(** The header of an empty log. *)
Record reset (s s' : W) : Prop := {
  rs_mx : h_mxFrame (hdr (w_wal s')) = 0;
  rs_npage : h_nPage (hdr (w_wal s')) = h_nPage (hdr (w_wal s));
  rs_sealed : hdr_sealed be (hdr (w_wal s'));
  rs_hdr0 : sh_hdr0 (w_sh s') = hdr (w_wal s');
  rs_hdr1 : sh_hdr1 (w_sh s') = hdr (w_wal s');
  rs_backfill : backfill s' = 0;
  rs_marks : zlen (marks s') = 5 /\ (marks s').[1] = Some 0 /\
    forall i, 2 <= i < 5 -> (marks s').[i] = Some READMARK_NOT_USED;
  rs_log : w_log s' = w_log s;
  rs_db : w_db s' = w_db s;
  rs_aws : w_aws s' = w_aws s;
}.

Lemma restart_marks (m : list Z) :
  zlen m = 5 ->
  let m' := zupd (zupd (zupd (zupd m 1 0) 2 READMARK_NOT_USED) 3 READMARK_NOT_USED) 4 READMARK_NOT_USED in
  zlen m' = 5 /\ m'.[1] = Some 0 /\ forall i, 2 <= i < 5 -> m'.[i] = Some READMARK_NOT_USED.
Proof.
  intros Hm m'. unfold m'. rewrite !zlen_zupd. split; [done|]. split.
  - rewrite !zget_zupd_ne by lia. apply zget_zupd_eq. lia.
  - intros i Hi. assert (i = 2 \/ i = 3 \/ i = 4) as [->|[->| ->]] by lia.
    + rewrite !zget_zupd_ne by lia. apply zget_zupd_eq. rewrite zlen_zupd. lia.
    + rewrite zget_zupd_ne by lia. apply zget_zupd_eq. rewrite !zlen_zupd. lia.
    + apply zget_zupd_eq. rewrite !zlen_zupd. lia.
Qed.

Lemma wp_walRestartHdr salt1 (Q : unit -> W -> Prop) s :
  bytes_ok (h_aSalt (hdr (w_wal s))) -> length (h_aSalt (hdr (w_wal s))) = 8%nat ->
  bytes_ok salt1 -> zlen salt1 = 4 -> zlen (marks s) = 5 ->
  (forall s', reset s s' -> Q tt s') ->
  wp (walRestartHdr be salt1) Q s.
Proof using Hq.
  intros Hsb Hsl Hb4 Hl4 Hm HQ. unfold walRestartHdr, get_hdr. wp_pure.
  destruct (Get4byte_some (h_aSalt (hdr (w_wal s))) Hsb) as (v & Ev & _); [lia|].
  rewrite (wp_of_option _ v) by exact Ev. wp_pure.
  assert (Hnb : bytes_ok (sqlite3Put4byte (u32 (1 + v)) ++ take 4 salt1)).
  { apply Forall_app_2; [auto with carray|by apply Forall_take]. }
  assert (Hnl : length (sqlite3Put4byte (u32 (1 + v)) ++ take 4 salt1) = 8%nat).
  { rewrite length_app, length_take. unfold zlen in Hl4.
    change (length (sqlite3Put4byte (u32 (1 + v)))) with 4%nat. lia. }
  apply (wp_walIndexWriteHdr Hq).
  - exact Hnb.
  - exact Hnl.
  - intros s1 E1 E2 E3 E4 E5. wp_pure.
    assert (Hm1 : zlen (marks s1) = 5) by (by rewrite E2).
    apply wp_setReadMark; [cbn; lia|]. wp_pure.
    apply wp_setReadMark; [cbn; rewrite zlen_zupd; lia|]. wp_pure.
    apply wp_setReadMark; [cbn; rewrite !zlen_zupd; lia|]. wp_pure.
    apply wp_setReadMark; [cbn; rewrite !zlen_zupd; lia|].
    cbn [w_wal w_sh w_log w_db w_aws] in *. apply HQ.
    constructor; cbn [w_wal w_sh w_log w_db w_aws sh_set_ckpt sh_hdr0 sh_hdr1 sh_ckpt ck_set_marks
                      aReadMark nBackfill ck_set_nBackfill ck_set_attempted]; rewrite ?E1, ?E2, ?E4; try done.
    + cbn [hdr set_hdr]. by apply seal_sealed.
    + apply restart_marks. by rewrite E2 in Hm1.
Qed.

(** After a checkpoint that emptied the log: nobody was reading from it, the
    header says that it is empty, and the database holds every page as the
    readers of the whole log had it. *)
Record emptied (pgs : list Z) (sz : Z) (s s' : W) : Prop := {
  em_free i : 1 <= i < 5 -> ~ busy i;
  em_mx : h_mxFrame (hdr (w_wal s')) = 0;
  em_npage : h_nPage (hdr (w_wal s')) = h_nPage (hdr (w_wal s));
  em_sealed : hdr_sealed be (hdr (w_wal s'));
  em_hdr0 : sh_hdr0 (w_sh s') = hdr (w_wal s');
  em_hdr1 : sh_hdr1 (w_sh s') = hdr (w_wal s');
  em_backfill : backfill s' = 0;
  em_aws : w_aws s' = w_aws s;
  em_zero : busy 0 -> w_db s' = w_db s;
  em_pages p r k : 1 <= p <= h_nPage (hdr (w_wal s)) ->
    last_frame pgs p (backfill s + 1) (zlen pgs) r -> 0 <= k < sz ->
    byte (db s') ((p - 1) * sz + k) = read_byte sz s r p k;
}.

Context (Hrand : random_law (OS := OS)).

Lemma wp_ckpt_restart eMode xBusy pgs sz (Q : Z -> W -> Prop) s s1 :
  ckpt_pre s pgs sz -> backfilled pgs sz s s1 ->
  bytes_ok (h_aSalt (hdr (w_wal s))) -> length (h_aSalt (hdr (w_wal s))) = 8%nat ->
  (forall rc s', backfilled pgs sz s s' -> (rc = SQLITE_OK -> backfill s' = zlen pgs /\
       eMode <> SQLITE_CHECKPOINT_TRUNCATE) ->
     (alone s -> backfill s1 = zlen pgs -> rc = SQLITE_OK) -> Q rc s') ->
  (forall rc s', eMode = SQLITE_CHECKPOINT_TRUNCATE -> emptied pgs sz s s' ->
     (rc = SQLITE_OK -> log s' = []) -> (calls_succeed F OS -> rc = SQLITE_OK) -> Q rc s') ->
  wp (ckpt_restart be eMode xBusy) Q s1.
Proof using Hq Hbusy Hrand.
  intros Hpre Hbf Hsb Hsl HQ HT. unfold ckpt_restart, get_ckpt, get_hdr. wp_pure.
  rewrite (bf_wal _ _ _ _ Hbf), (kp_mx _ _ _ Hpre). pose proof (bf_bounds _ _ _ _ Hbf) as Hb.
  destruct (Z.ltb_spec (backfill s1) (zlen pgs)) as [Hlt|Hge]; wp_pure; [apply HQ; [done|done|lia]|].
  assert (Hfull : backfill s1 = zlen pgs) by lia.
  assert (Hsame : forall s2, same_but_os s1 s2 -> backfilled pgs sz s s2).
  { intros s2 (E1 & E2 & E3 & E4 & E5). destruct Hbf.
    constructor; unfold read_byte; rewrite ?E1, ?E2, ?E3, ?E4, ?E5; done. }
  destruct (Z.geb_spec eMode SQLITE_CHECKPOINT_RESTART) as [Hge2|Hlt2]; wp_pure.
  2:{ apply HQ; [done| |done]. intros _. split; [done|]. unfold SQLITE_CHECKPOINT_RESTART, SQLITE_CHECKPOINT_TRUNCATE in *. lia. }
  destruct (xRandomness (w_os s1) 4) as [salt o] eqn:Er.
  destruct (Hrand (w_os s1) 4 ltac:(lia)) as [Hb4 Hl4]. rewrite Er in Hb4, Hl4. cbn [fst] in *.
  eapply run_wp; [unfold sqlite3_randomness; rewrite Er; reflexivity|]. wp_pure.
  set (s2 := mkWorld _ _ _ _ _ o).
  apply wp_walBusyLock; [cbn; rewrite (bf_wal _ _ _ _ Hbf); apply Hpre|].
  intros rc xb s3 Hs3 Hfree Hexc. unfold alone in Hexc. cbn [w_wal s2] in Hexc.
  rewrite (bf_wal _ _ _ _ Hbf) in Hexc. wp_pure.
  assert (Hs13 : same_but_os s1 s3) by (eapply same_but_os_trans; [|exact Hs3]; by split_and!).
  destruct (Z.eqb_spec rc SQLITE_OK) as [->|Hne]; wp_pure; [|by apply HQ; [by apply Hsame|done|]; intros Ha _; apply Hexc].
  destruct (Z.eqb_spec eMode SQLITE_CHECKPOINT_TRUNCATE) as [->|Hne]; wp_pure.
  2:{ apply wp_unlock_excl; [done|]. intros s4 Hs4. wp_pure. apply HQ; [| |done].
      - apply Hsame. by eapply same_but_os_trans.
      - intros _. split; [|done]. destruct Hs13 as (_ & G2 & _), Hs4 as (_ & F2 & _). by rewrite F2, G2. }
  pose proof Hs13 as (E1 & E2 & E3 & E4 & E5). rewrite (bf_wal _ _ _ _ Hbf) in E1.
  apply wp_walRestartHdr; try (rewrite E1; done); try done.
  { rewrite E2. apply (bf_marks _ _ _ _ Hbf). }
  intros s4 Hr. unfold log_truncate. wp_pure.
  destruct (xTruncate (w_log s4) 0) as [rc f'] eqn:Et. wp_pure.
  apply wp_unlock_excl; [done|]. intros s5 (F1 & F2 & F3 & F4 & F5). wp_pure.
  cbn [w_wal w_sh w_log w_db w_aws] in *. destruct Hr as [R1 R2 R3 R4 R5 R6 R7 R8 R9 R10].
  apply HT; [done| | |].
  - constructor; rewrite ?F1, ?F2, ?F4, ?F5; try done.
    + intros i Hi Hbi. apply (Hfree eq_refl i Hbi). unfold WAL_READ_LOCK, WAL_NREADER, SQLITE_SHM_NLOCK. lia.
    + by rewrite R2, E1.
    + rewrite R10, E5. apply (bf_aws _ _ _ _ Hbf).
    + intros Hb0. rewrite R9, E4. by apply (bf_zero _ _ _ _ Hbf).
    + intros p r k Hp Hl Hk. rewrite R9, E4.
      rewrite <- (bf_current _ _ _ _ Hbf p r 0 k Hp Hl) by (done || (rewrite Hfull; left; split; [done|]; intros f Hf; lia)).
      done.
  - intros ->. apply xTruncate_ok in Et; [|done]. rewrite F3. exact Et.
  - intros Hcs. pose proof (cs_truncate _ _ Hcs (w_log s4) 0) as Ht. by rewrite Et in Ht.
Qed.

(** * The whole checkpoint *)

(** What a checkpoint in mode [eMode] that returned [rc] leaves. *)
Definition checkpointed (eMode : Z) (pgs : list Z) (sz : Z) (s s' : W) (rc : Z) : Prop :=
  (backfilled pgs sz s s' /\
   (rc = SQLITE_OK ->
      (eMode <> SQLITE_CHECKPOINT_PASSIVE -> backfill s' = zlen pgs /\ eMode <> SQLITE_CHECKPOINT_TRUNCATE) /\
      (alone s -> files_not_busy F -> backfill s' = zlen pgs))) \/
  (eMode = SQLITE_CHECKPOINT_TRUNCATE /\ emptied pgs sz s s' /\ (rc = SQLITE_OK -> log s' = [])).

(** Nothing stands in the way of a checkpoint: no lock is refused, no call
    fails, the files are as long as the header says. *)
Definition can_finish (pgs : list Z) (sz nPage : Z) (s : W) : Prop :=
  alone s /\ calls_succeed F OS /\ log_long pgs sz s /\ db_fits pgs sz nPage s.

Lemma wp_walCheckpoint eMode xBusy fl pgs sz (Q : Z -> W -> Prop) s :
  ckpt_pre s pgs sz ->
  bytes_ok (h_aSalt (hdr (w_wal s))) -> length (h_aSalt (hdr (w_wal s))) = 8%nat ->
  (forall rc s', checkpointed eMode pgs sz s s' rc ->
     (can_finish pgs sz (h_nPage (hdr (w_wal s))) s -> rc = SQLITE_OK /\
        (eMode = SQLITE_CHECKPOINT_PASSIVE -> backfill s' = zlen pgs)) -> Q rc s') ->
  wp (walCheckpoint be eMode xBusy fl) Q s.
Proof using Hq Hbusy Hfl Hrand.
  intros Hpre Hsb Hsl HQ. unfold walCheckpoint, get_wal. wp_pure. rewrite (kp_size _ _ _ Hpre).
  apply (wp_ckpt_backfill fl xBusy pgs sz); [done|]. intros [[rc xb] stop] s1 Hbf Hstop Hfull Hok.
  cbn [fst snd] in *. wp_pure.
  assert (Hfin : can_finish pgs sz (h_nPage (hdr (w_wal s))) s ->
            rc = SQLITE_OK /\ stop = false /\ backfill s1 = zlen pgs).
  { intros (Ha & Hcs & Hl & Hd). by apply Hok. }
  destruct stop.
  { wp_pure. apply HQ; [|by intros (_ & ? & _)%Hfin].
    left. split; [done|]. intros Hrc. by destruct (Hstop eq_refl). }
  wp_pure. destruct (Z.eqb_spec rc SQLITE_OK) as [->|Hne]; cbn [andb].
  2:{ wp_pure. apply HQ; [|by intros (? & _)%Hfin]. left. by split. }
  destruct (Z.eqb_spec eMode SQLITE_CHECKPOINT_PASSIVE) as [->|Hmode]; cbn [negb].
  { wp_pure. apply HQ; [|by intros (_ & _ & ?)%Hfin].
    left. split; [done|]. intros _. split; [done|]. intros ? ?. by apply Hfull. }
  eapply wp_ckpt_restart; try done.
  - intros rc s' Hb Hrc Hr. apply HQ.
    + left. split; [done|]. intros E. destruct (Hrc E) as [E1 E2]. by split.
    + intros Hc. split; [|done]. apply Hr; [apply Hc|]. by apply Hfin in Hc as (_ & _ & ?).
  - intros rc s' Ht He Hl Hr. apply HQ.
    + right. by split_and!.
    + intros Hc. split; [|done]. apply Hr, Hc.
Qed.

Lemma wp_ckpt_end ch (Q : unit -> W -> Prop) s :
  (forall s', wal_only s s' -> ckptLock (w_wal s') = false -> writeLock (w_wal s') = false ->
     exclusiveMode (w_wal s') = exclusiveMode (w_wal s) ->
     Q tt s') ->
  wp (ckpt_end ch) Q s.
Proof using Hq.
  intros HQ. unfold ckpt_end, sqlite3WalEndWriteTransaction, get_wal. wp_pure.
  assert (Hend : forall s1, wal_only s s1 -> writeLock (w_wal s1) = false ->
            exclusiveMode (w_wal s1) = exclusiveMode (w_wal s) ->
            wp (if ckptLock (w_wal s1) then
                  walUnlockExclusive WAL_CKPT_LOCK 1;; upd_wal (set_ckptLock false)
                else mret tt) Q s1).
  { intros s1 (E1 & E2 & E3 & E4) Hw Hx. destruct (ckptLock (w_wal s1)) eqn:Ec; wp_pure.
    - apply wp_unlock_excl; [done|]. intros s2 (F1 & F2 & F3 & F4 & F5). wp_pure.
      rewrite F1, F2, F3, F4, F5. apply HQ; [by split_and!|done|done|done].
    - by apply HQ. }
  assert (Hwr : forall s1, wal_only s s1 -> exclusiveMode (w_wal s1) = exclusiveMode (w_wal s) ->
    wp (_ ← (if writeLock (w_wal s1)
        then walUnlockExclusive WAL_WRITE_LOCK 1;; upd_wal (set_writeLock false);;
             upd_wal (set_iReCksum 0);; upd_wal (set_truncateOnCommit false);; mret SQLITE_OK
        else mret SQLITE_OK);
        w ← gets w_wal;
        if ckptLock w then walUnlockExclusive WAL_CKPT_LOCK 1;; upd_wal (set_ckptLock false)
        else mret tt) Q s1).
  { intros s1 (E1 & E2 & E3 & E4) Hx. destruct (writeLock (w_wal s1)) eqn:Ec; wp_pure.
    - apply wp_unlock_excl; [done|]. intros s2 (F1 & F2 & F3 & F4 & F5). wp_pure.
      rewrite F1, F2, F3, F4, F5.
      apply (Hend (mkWorld _ _ _ _ _ _)); [by split_and!|done|done].
    - by apply Hend. }
  destruct ch; wp_pure.
  - specialize (Hwr (mkWorld (set_hdr hdr_zero (w_wal s)) (w_sh s) (w_log s) (w_db s) (w_aws s) (w_os s))
                  ltac:(by split_and!) eq_refl).
    autorewrite with wp in Hwr. exact Hwr.
  - specialize (Hwr s ltac:(by split_and!) eq_refl). autorewrite with wp in Hwr. exact Hwr.
Qed.

(** The header [h] that the others see describes the frames [pgs], which the
    index holds. *)
Record ckpt_ready (s : W) (h : WalIndexHdr) (pgs : list Z) (sz : Z) : Prop := {
  cy_ready : index_ready be s h;
  cy_mode : exclusiveMode (w_wal s) = 0 \/ (forall i, ~ busy i);
  cy_mx : h_mxFrame h = zlen pgs;
  cy_max : zlen pgs < FRAME_MAX;
  cy_idx : wi_ok (sh_idx (w_sh s)) pgs;
  cy_pgs : Forall (fun p => 0 < p < 0xFFFFFFFF) pgs;
  cy_size : h_szPage h = pagesize_field sz;
  cy_page : page_size_ok sz;
  cy_backfill : 0 <= backfill s <= zlen pgs;
  cy_npage : 0 <= h_nPage h < 2 ^ 32;
  cy_salt : bytes_ok (h_aSalt h) /\ length (h_aSalt h) = 8%nat;
}.

(** What a call of [sqlite3WalCheckpoint] that returned [rc] leaves: the
    locks are released; between [s0], which differs from [s] by the handle,
    and [s1], which differs from [s'] by the handle, the checkpoint ran. *)
Record ckpt_result (s : W) (h : WalIndexHdr) (pgs : list Z) (sz eMode : Z) (r : Z * option (Z * Z))
    (s' : W) : Prop := {
  cr_ckptLock : ckptLock (w_wal s') = false;
  cr_writeLock : writeLock (w_wal s') = false;
  cr_run : exists s0 s1 em rc, wal_only s s0 /\ wal_only s1 s' /\ hdr (w_wal s0) = h /\
    exclusiveMode (w_wal s0) = exclusiveMode (w_wal s) /\
    checkpointed em pgs sz s0 s1 rc /\ (em = eMode \/ em = SQLITE_CHECKPOINT_PASSIVE) /\
    (r.1 = SQLITE_OK -> em = eMode /\ rc = SQLITE_OK /\
       r.2 = Some (i32 (h_mxFrame (hdr (w_wal s1))), i32 (backfill s')));
}.

Lemma checkpointed_none em pgs sz s rc :
  0 <= backfill s <= zlen pgs -> zlen (marks s) = 5 -> rc <> SQLITE_OK ->
  checkpointed em pgs sz s s rc.
Proof.
  intros Hb Hm Hrc. left. split; [|done]. apply backfilled_none; [done|]. by apply marks_only_refl.
Qed.

Context (aPrivate : Z -> WiPage).

Lemma with_hdr_mode h w : exclusiveMode (with_hdr h w) = exclusiveMode w.
Proof. unfold with_hdr. by case_bool_decide. Qed.

Lemma wal_only_refl (s : W) : wal_only s s.
Proof. by split_and!. Qed.

Lemma wal_only_trans (s1 s2 s3 : W) : wal_only s1 s2 -> wal_only s2 s3 -> wal_only s1 s3.
Proof. intros (?&?&?&?) (?&?&?&?). split_and!; congruence. Qed.

(** The handle may have changed in what a checkpoint does not look at. *)
Lemma ckpt_ready_wal s s' h pgs sz :
  ckpt_ready s h pgs sz -> wal_only s s' -> exclusiveMode (w_wal s') = exclusiveMode (w_wal s) ->
  bShmUnreliable (w_wal s') = bShmUnreliable (w_wal s) -> readOnly (w_wal s') = readOnly (w_wal s) ->
  ckpt_ready s' h pgs sz.
Proof.
  intros [[] ] (E1 & E2 & E3 & E4) Em Eu Er. constructor; rewrite ?E1, ?Em; try done.
  constructor; rewrite ?E1, ?Eu, ?Er; done.
Qed.

Lemma ckpt_ready_pre s s' h pgs sz :
  ckpt_ready s h pgs sz -> wal_only s s' -> w_wal s' = with_hdr h (w_wal s) ->
  ckpt_pre s' pgs sz.
Proof.
  intros [Hr] (E1 & E2 & E3 & E4) Ew.
  constructor; rewrite ?E1, ?Ew, ?with_hdr_hdr, ?with_hdr_mode; try done.
  - apply (ir_marks _ _ _ Hr).
  - apply walPagesize_field; [done|]. by rewrite with_hdr_hdr.
Qed.

(** What [ckpt_run] leaves. *)
Definition ckpt_ran (s : W) (h : WalIndexHdr) (pgs : list Z) (sz em rc : Z) (out : option (Z * Z))
    (s' : W) : Prop :=
  exists s0 s1 rc1, wal_only s s0 /\ wal_only s1 s' /\ hdr (w_wal s0) = h /\
    exclusiveMode (w_wal s0) = exclusiveMode (w_wal s) /\ checkpointed em pgs sz s0 s1 rc1 /\
    (rc = SQLITE_OK -> rc1 = SQLITE_OK /\
       out = Some (i32 (h_mxFrame (hdr (w_wal s1))), i32 (backfill s'))).

(** A call that failed before it copied anything. *)
Lemma ckpt_ran_none s s' h pgs sz em rc out :
  ckpt_ready s h pgs sz -> wal_only s s' -> rc <> SQLITE_OK -> ckpt_ran s h pgs sz em rc out s'.
Proof.
  intros Hr Hs Hrc. set (s0 := mkWorld (with_hdr h (w_wal s)) (w_sh s) (w_log s) (w_db s) (w_aws s) (w_os s)).
  exists s0, s0, rc. split_and!; try done.
  - apply with_hdr_hdr.
  - apply with_hdr_mode.
  - apply checkpointed_none; [apply Hr|apply (ir_marks _ _ _ (cy_ready _ _ _ _ Hr))|done].
Qed.

Lemma wp_ckpt_run rc em xb fl nBuf h pgs sz (Q : Z * option (Z * Z) * bool -> W -> Prop) s :
  ckpt_ready s h pgs sz ->
  (forall r s', ckpt_ran s h pgs sz em r.1.1 r.1.2 s' ->
     (can_finish pgs sz (h_nPage h) s -> rc = SQLITE_OK -> nBuf = sz -> r.1.1 = SQLITE_OK /\
        (em = SQLITE_CHECKPOINT_PASSIVE -> backfill s' = zlen pgs)) -> Q r s') ->
  wp (ckpt_run be aPrivate rc em xb fl nBuf) Q s.
Proof using Hq Hbusy Hfl Hrand.
  intros Hr HQ. unfold ckpt_run. wp_pure.
  destruct (Z.eqb_spec rc SQLITE_OK) as [->|Hne].
  2:{ wp_pure. rewrite (proj2 (Z.eqb_neq _ _) Hne). wp_pure. by apply HQ; [apply ckpt_ran_none|]. }
  apply (wp_walIndexReadHdr be aPrivate Hq false h); [apply Hr|]. intros s1 Hs1 Ew. wp_pure.
  cbn [Z.eqb SQLITE_OK]. unfold get_wal, get_hdr, get_ckpt. wp_pure.
  assert (Hpre : ckpt_pre s1 pgs sz) by (by eapply ckpt_ready_pre).
  destruct (negb (h_mxFrame _ =? 0) && _) eqn:Hbuf; wp_pure.
  { apply HQ; [by apply ckpt_ran_none|]. intros _ _ ->. exfalso.
    rewrite (kp_size _ _ _ Hpre), Z.eqb_refl, andb_false_r in Hbuf. done. }
  apply (wp_walCheckpoint em xb fl pgs sz).
  - done.
  - rewrite Ew, with_hdr_hdr. apply (cy_salt _ _ _ _ Hr).
  - rewrite Ew, with_hdr_hdr. apply (cy_salt _ _ _ _ Hr).
  - intros rc1 s2 Hc Hfin. wp_pure. apply HQ.
    + exists s1, s2, rc1. split_and!; try done.
      * by rewrite Ew, with_hdr_hdr.
      * by rewrite Ew, with_hdr_mode.
      * cbn [fst snd]. intros ->. by split.
    + cbn [fst snd]. intros (Ha & Hcs & Hl & Hd) _ _. apply Hfin. destruct Hs1 as (E1 & E2 & E3 & E4).
      unfold can_finish, alone, log_long, db_fits in *.
      by rewrite Ew, with_hdr_mode, with_hdr_hdr, E2, E3.
Qed.

Lemma wp_ckpt_writer eMode xb (Q : Z * Z * BusyHandler -> W -> Prop) s :
  exclusiveMode (w_wal s) = 0 \/ (forall i, ~ busy i) ->
  (forall r s', wal_only s s' -> exclusiveMode (w_wal s') = exclusiveMode (w_wal s) ->
     bShmUnreliable (w_wal s') = bShmUnreliable (w_wal s) -> readOnly (w_wal s') = readOnly (w_wal s) ->
     r.1.2 = eMode \/ r.1.2 = SQLITE_CHECKPOINT_PASSIVE ->
     (alone s -> r.1.1 = SQLITE_OK /\ r.1.2 = eMode) -> Q r s') ->
  wp (ckpt_writer eMode xb) Q s.
Proof using Hq Hbusy.
  intros Hm HQ. unfold ckpt_writer. destruct (negb _); wp_pure; [|by apply HQ; [apply wal_only_refl|..|left|]].
  apply wp_walBusyLock; [done|]. intros rc xb1 s1 (E1 & E2 & E3 & E4 & E5) _ Hexc. wp_pure.
  destruct (Z.eqb_spec rc SQLITE_OK) as [->|Hne]; wp_pure.
  { by apply HQ; cbn [w_wal w_sh w_log w_db w_aws]; rewrite ?E1; [split_and!|..|left|]. }
  destruct (rc =? SQLITE_BUSY); wp_pure.
  - by apply HQ; rewrite ?E1; [split_and!|..|right|intros Ha; destruct (Hne (Hexc Ha))].
  - by apply HQ; rewrite ?E1; [split_and!|..|left|intros Ha; destruct (Hne (Hexc Ha))].
Qed.

Lemma wp_sqlite3WalCheckpoint eMode xb fl nBuf h pgs sz (Q : Z * option (Z * Z) -> W -> Prop) s :
  ckpt_ready s h pgs sz -> readOnly (w_wal s) = 0 ->
  (forall r s', ckpt_result s h pgs sz eMode r s' ->
     (can_finish pgs sz (h_nPage h) s -> nBuf = sz -> r.1 = SQLITE_OK /\
        (eMode = SQLITE_CHECKPOINT_PASSIVE -> backfill s' = zlen pgs)) -> Q r s') ->
  wp (sqlite3WalCheckpoint be aPrivate eMode xb fl nBuf) Q s.
Proof using Hq Hbusy Hfl Hrand.
  intros Hr Hro HQ. unfold sqlite3WalCheckpoint, get_wal. wp_pure. rewrite Hro. cbn [negb Z.eqb].
  wp_pure. apply wp_lock_or_busy; [apply Hr|]. intros rc s1 (E1 & E2 & E3 & E4 & E5) _ Hexc. wp_pure.
  assert (Hrun : forall rc em xb s2, wal_only s s2 ->
    exclusiveMode (w_wal s2) = exclusiveMode (w_wal s) ->
    bShmUnreliable (w_wal s2) = bShmUnreliable (w_wal s) -> readOnly (w_wal s2) = readOnly (w_wal s) ->
    em = eMode \/ em = SQLITE_CHECKPOINT_PASSIVE ->
    (can_finish pgs sz (h_nPage h) s -> rc = SQLITE_OK /\ em = eMode) ->
    wp ('(rc, out, isChanged) ← ckpt_run be aPrivate rc em xb fl nBuf;
        ckpt_end isChanged;;
        mret (if (rc =? SQLITE_OK) && negb (eMode =? em) then SQLITE_BUSY else rc, out)) Q s2).
  { intros rc2 em xb2 s2 Hs2 F1 F2 F3 Hem Hfin. wp_pure.
    apply (wp_ckpt_run rc2 em xb2 fl nBuf h pgs sz); [by eapply ckpt_ready_wal|].
    intros [[rc3 out] ch] s3 (s0 & s4 & rc4 & G1 & G2 & G3 & G4 & G5 & G6) Hrun.
    cbn [fst snd] in G6, Hrun. wp_pure.
    apply wp_ckpt_end. intros s5 Hs5 Hc Hw _. wp_pure.
    apply HQ; [constructor; [done|done|]; exists s0, s4, em, rc4; split_and!; try done|].
    - by eapply wal_only_trans.
    - by eapply wal_only_trans.
    - by rewrite G4.
    - cbn [fst snd]. destruct (Z.eqb_spec rc3 SQLITE_OK) as [Erc|]; cbn [andb]; [|done].
      destruct (Z.eqb_spec eMode em) as [->|]; cbn [negb]; [|done].
      intros _. destruct (G6 Erc) as [-> ->]. split_and!; try done.
      by rewrite (proj1 Hs5).
    - cbn [fst snd]. intros Hcf Hn. destruct (Hfin Hcf) as [Erc ->]. rewrite (proj1 Hs5).
      destruct Hrun as [-> Hpas]; [|done|done|by rewrite !Z.eqb_refl].
      destruct Hs2 as (E6 & E7 & E8 & E9). unfold can_finish, alone, log_long, db_fits in *.
      by rewrite F1, E7, E8. }
  destruct (Z.eqb_spec rc SQLITE_OK) as [->|Hne]; wp_pure.
  - apply wp_ckpt_writer; cbn [w_wal]; [rewrite E1; apply Hr|].
    intros [[rc2 em] xb2] s2 Hs2 F1 F2 F3 Hem Hw. cbn [w_wal w_sh w_log w_db w_aws] in *.
    apply Hrun; [|by rewrite F1, E1|by rewrite F2, E1|by rewrite F3, E1|done|].
    2:{ intros (Ha & _). apply Hw. unfold alone in *. cbn [w_wal]. by rewrite E1. }
    eapply wal_only_trans; [|exact Hs2]. by split_and!.
  - rewrite <- wp_bind. by apply Hrun; rewrite ?E1; [split_and!|..|left|intros (Ha & _); destruct (Hne (Hexc Ha))].
Qed.
End backfill.

(** * Properties *)

Section properties.
Context {F OS : Type} `{VFile F} `{WalOS OS} `{ShmEnv} (be : bool) (aPrivate : Z -> WiPage).
Local Abbreviation W := (World F OS).
Context (busy : Z -> Prop).



End properties.

(** ** Instances *)

Lemma byte_file_laws : file_laws ByteFile.
Proof. constructor; cbn; intros; by simplify_eq. Qed.

(** A system where another connection reads at mark 2. *)
Inductive OtherReader := other_reader.

#[export] Instance other_reader_os : WalOS OtherReader := {
  xShmLock o sh a n f :=
    (if (f =? Z.lor SQLITE_SHM_LOCK SQLITE_SHM_EXCLUSIVE) && (a <=? 5) && (5 <? a + n)
     then SQLITE_BUSY else SQLITE_OK, sh, o);
  xShmBarrier o sh := (sh, o);
  xRandomness o n := (replicate (Z.to_nat n) 7, o);
  xMalloc o _ := (true, o);
  xSectorSize _ := 4096;
  xSleep o _ sh := (sh, o);
  xShmHeader _ := (hdr_zero, hdr_zero, mkCkpt 0 (replicate 5 0) 0);
  xShmProbe o := (SQLITE_OK, o);
  xShmUnmap o _ := o;
  xInterrupted o := (false, false, o);
  xLockExclusive o := (SQLITE_BUSY, o);
  xPersistWal _ := 0;
  xDeleteLog o := o;
}.

Lemma other_reader_quiet : os_quiet (OS := OtherReader).
Proof. split; cbn; eauto. Qed.

Lemma other_reader_busy : busy_law (OS := OtherReader) (fun i => i = 2).
Proof.
  intros o sh a n i -> Hr. unfold WAL_READ_LOCK in Hr. cbn [xShmLock other_reader_os fst].
  rewrite Z.eqb_refl, (proj2 (Z.leb_le a 5)), (proj2 (Z.ltb_lt 5 (a + n))) by lia. done.
Qed.

Lemma other_reader_random : random_law (OS := OtherReader).
Proof. intros o n Hn. by apply (unit_os_random_law tt n). Qed.

(** Three frames; the other reader is at frame 2. *)
Definition ckpt_world : World ByteFile OtherReader :=
  mkWorld (set_readLock (-1) (reader_wal 0))
    (mkShared reader_hdr reader_hdr (mkCkpt 1 [0; 3; 2; 0xFFFFFFFF; 0xFFFFFFFF] 1) (sample_idx [7; 9; 7]))
    (byte_file sample_log) (byte_file (replicate 512 5)) aws_init other_reader.

Lemma ckpt_world_ready : ckpt_ready false (fun i => i = 2) ckpt_world reader_hdr [7; 9; 7] 512.
Proof.
  constructor; try done; try (by left).
  - constructor; try done.
    destruct (sample_idx_clean 0 ltac:(lia) ltac:(vm_compute; reflexivity)) as (pg & Hm & _).
    by exists pg.
  - apply wi_clean_ok, sample_idx_clean.
  - repeat constructor; lia.
  - exists 9. split; [lia|reflexivity].
  - split; [repeat constructor; done|done].
Qed.



Lemma byte_file_calls_succeed : calls_succeed ByteFile unit.
Proof.
  constructor; try done. intros f amt off Ha Ho Hle. cbn in *. unfold bf_read.
  by rewrite (proj2 (Z.leb_le _ _) Hle).
Qed.

(** The same log, with no other connection. *)
Definition lone_world : World ByteFile unit :=
  mkWorld (set_readLock (-1) (reader_wal 0))
    (mkShared reader_hdr reader_hdr (mkCkpt 1 [0; 3; 0xFFFFFFFF; 0xFFFFFFFF; 0xFFFFFFFF] 1) (sample_idx [7; 9; 7]))
    (byte_file sample_log) (byte_file (replicate 512 5)) aws_init tt.

Lemma lone_world_ready : ckpt_ready false (fun _ => False) lone_world reader_hdr [7; 9; 7] 512.
Proof. destruct ckpt_world_ready as [[] ]. constructor; [constructor; assumption|left; reflexivity|assumption..]. Qed.

Lemma lone_world_long : log_long [7; 9; 7] 512 lone_world.
Proof. unfold log_long. vm_compute. discriminate. Qed.

Lemma lone_world_fits : db_fits [7; 9; 7] 512 (h_nPage reader_hdr) lone_world.
Proof. unfold db_fits. vm_compute. discriminate. Qed.

