(* ===== verification/WalClose.v ===== *)
(** The life of a handle around its transactions: opening and closing it,
    exclusive mode ([sqlite3WalOpen], [sqlite3WalClose],
    [sqlite3WalExclusiveMode], [sqlite3WalLimit], [sqlite3WalHeapMemory]). *)
From S2P Require Import Prelude.
From S2P Require Import Util.
From S2P Require Import Vfs.
From S2P Require Import Aws.
From S2P Require Import WalTypes.
From S2P Require Import WalFormat.
From S2P Require Import WalIndex.
From S2P Require Import WalState.
From S2P Require Import WalRecover.
From S2P Require Import WalRead.
From S2P Require Import WalWrite.
From S2P Require Import WalCommit.
From S2P Require Import WalSort.
From S2P Require Import WalCkpt.
Open Scope Z_scope.

Definition WAL_RDONLY : Z := 1.
Definition SQLITE_OPEN_READONLY : Z := 1.
Definition SQLITE_IOCAP_SEQUENTIAL : Z := 0x400.
Definition SQLITE_IOCAP_POWERSAFE_OVERWRITE : Z := 0x1000.

(** Opening: [alloc] is the allocation, [open] the result of opening the log
    file and the flags it returns, [iDC] the characteristics of the device of
    the database. *)
Definition sqlite3WalOpen (alloc : bool) (open : Z * Z) (iDC : Z) (bNoShm : bool) (limit : Z)
    : Z * option Wal :=
  if negb alloc then (SQLITE_NOMEM, None) else
  let '(rc, flags) := open in
  let readOnly :=
    if (rc =? SQLITE_OK) && negb (Z.land flags SQLITE_OPEN_READONLY =? 0) then WAL_RDONLY else 0 in
  if negb (rc =? SQLITE_OK) then (rc, None) else
  let sync := Z.land iDC SQLITE_IOCAP_SEQUENTIAL =? 0 in
  let pad := Z.land iDC SQLITE_IOCAP_POWERSAFE_OVERWRITE =? 0 in
  (rc, Some (mkWal 0 limit 0 (-1) (if bNoShm then WAL_HEAPMEMORY_MODE else WAL_NORMAL_MODE)
               false false readOnly false sync pad false hdr_zero 0 0 0)).

Section life.
Context {F OS : Type} `{VFile F} `{WalOS OS} `{ShmEnv} (bigendian : bool).
Context (aPrivate : Z -> WiPage).
Local Abbreviation M := (@M F OS).

(** The last checkpoint of a handle: the result code, and whether the log is
    to be deleted.  [hasBuf]: [zBuf] is not NULL. *)
Definition close_checkpoint (sync_flags nBuf : Z) (hasBuf : bool) : M (Z * bool) :=
  if hasBuf then
    rc ← os_lock_exclusive;
    if rc =? SQLITE_OK then
      w ← get_wal;
      (if exclusiveMode w =? WAL_NORMAL_MODE
       then upd_wal (set_exclusiveMode WAL_EXCLUSIVE_MODE) else mret tt);;
      '(rc, _) ← sqlite3WalCheckpoint bigendian aPrivate SQLITE_CHECKPOINT_PASSIVE [] sync_flags nBuf;
      if rc =? SQLITE_OK then
        bPersist ← gets (fun s => xPersistWal (w_os s));
        if negb (bPersist =? 1) then mret (rc, true) else
        w ← get_wal;
        (if mxWalSize w >=? 0 then walLimitSize 0 else mret tt);;
        mret (rc, false)
      else mret (rc, false)
    else mret (rc, false)
  else mret (SQLITE_OK, false).

Definition sqlite3WalClose (sync_flags nBuf : Z) (hasBuf : bool) : M Z :=
  '(rc, isDelete) ← close_checkpoint sync_flags nBuf hasBuf;
  walIndexClose isDelete;;
  (if isDelete : bool then os_delete_log else mret tt);;
  mret rc.

Definition sqlite3WalExclusiveMode (op : Z) : M Z :=
  w ← get_wal;
  if op =? 0 then
    if negb (exclusiveMode w =? WAL_NORMAL_MODE) then
      upd_wal (set_exclusiveMode WAL_NORMAL_MODE);;
      rc ← walLockShared (WAL_READ_LOCK (readLock w));
      (if negb (rc =? SQLITE_OK) then upd_wal (set_exclusiveMode WAL_EXCLUSIVE_MODE) else mret tt);;
      w ← get_wal;
      mret (Z.b2z (exclusiveMode w =? WAL_NORMAL_MODE))
    else mret 0
  else if op >? 0 then
    walUnlockShared (WAL_READ_LOCK (readLock w));;
    upd_wal (set_exclusiveMode WAL_EXCLUSIVE_MODE);;
    mret 1
  else mret (Z.b2z (exclusiveMode w =? WAL_NORMAL_MODE)).

Definition sqlite3WalLimit (iLimit : Z) : M unit := upd_wal (set_mxWalSize iLimit).

Definition sqlite3WalHeapMemory : M bool :=
  w ← get_wal; mret (exclusiveMode w =? WAL_HEAPMEMORY_MODE).
End life.

(** * Properties *)

Section properties.
Context {F OS : Type} `{VFile F} `{WalOS OS} `{ShmEnv} (be : bool) (aPrivate : Z -> WiPage).
Local Abbreviation W := (World F OS).
Context (busy : Z -> Prop).

(** The exclusive lock on the database file is granted only when no other
    connection reads. *)
Definition exclusive_law : Prop :=
  forall o : OS, (xLockExclusive o).1 = SQLITE_OK -> forall i, ~ busy i.

(** A passive checkpoint leaves the log; when it succeeds and this connection
    is alone, the database file holds what a reader of the whole log had. *)
Lemma ckpt_result_passive (s : W) h pgs sz r s' :
  ckpt_result be busy s h pgs sz SQLITE_CHECKPOINT_PASSIVE r s' ->
  w_aws s' = w_aws s /\ content (w_log s') = content (w_log s) /\
  (r.1 = SQLITE_OK -> exclusiveMode (w_wal s) <> 0 -> files_not_busy F ->
   forall p x k, 1 <= p <= h_nPage h ->
     last_frame pgs p (nBackfill (sh_ckpt (w_sh s)) + 1) (zlen pgs) x -> 0 <= k < sz ->
     byte (content (w_db s')) ((p - 1) * sz + k) = read_byte sz s x p k).
Proof.
  intros [_ _ (s0 & s1 & em & rc & (E1 & E2 & E3 & E4) & (F1 & F2 & F3 & F4) & Eh & Em & Hc & Hem & Hok)].
  assert (em = SQLITE_CHECKPOINT_PASSIVE) as -> by tauto.
  destruct Hc as [[Hb Hfull]|(Ht & _)]; [|done].
  split_and!; [rewrite F4, (bf_aws _ _ _ _ _ Hb); done|rewrite F2, (bf_log _ _ _ _ _ Hb); by rewrite E2|].
  intros Hr Hx Hnb p x k Hp Hl Hk. destruct (Hok Hr) as (_ & -> & _).
  destruct (Hfull eq_refl) as [_ Hall]. specialize (Hall ltac:(left; by rewrite Em) Hnb).
  rewrite F3. transitivity (read_byte sz s1 0 p k); [done|].
  rewrite (bf_current _ _ _ _ _ Hb p x 0 k); rewrite ?Eh, ?E1; try done.
  - unfold read_byte. by rewrite E2, E3.
  - rewrite Hall. left. split; [done|]. intros f Hf. lia.
Qed.

(** What the last checkpoint of a handle may leave: the log is to be deleted,
    or has changed, only after every page of the database file became what a
    reader of the whole log had. *)
Definition closed_safely (s : W) (h : WalIndexHdr) (pgs : list Z) (sz : Z) (r : Z * bool) (s' : W) : Prop :=
  w_aws s' = w_aws s /\
  (r.2 = true \/ content (w_log s') <> content (w_log s) ->
     r.1 = SQLITE_OK /\
     forall p x k, 1 <= p <= h_nPage h ->
       last_frame pgs p (nBackfill (sh_ckpt (w_sh s)) + 1) (zlen pgs) x -> 0 <= k < sz ->
       byte (content (w_db s')) ((p - 1) * sz + k) = read_byte sz s x p k).

Lemma closed_unchanged (s s' : W) h pgs sz rc :
  w_aws s' = w_aws s -> content (w_log s') = content (w_log s) -> closed_safely s h pgs sz (rc, false) s'.
Proof. intros Ea El. split; [done|]. by intros [?|?]. Qed.

(** C28.  Closing deletes the log, or empties it in persistent mode, only when
    the checkpoint succeeded and every page of the database file is what a
    reader of the whole log had; the lock on the database file makes sure
    that nobody else reads.  In every other case the log is as it was. *)
Theorem close_keeps_data fl nBuf hasBuf h pgs sz (s : W) :
  os_quiet (OS := OS) -> random_law (OS := OS) -> file_laws F -> files_not_busy F ->
  busy_law (OS := OS) busy -> exclusive_law -> ckpt_ready be busy s h pgs sz ->
  readOnly (w_wal s) = 0 ->
  wp (close_checkpoint be aPrivate fl nBuf hasBuf) (closed_safely s h pgs sz) s.
Proof.
  intros Hq Hrand Hfl Hnb Hbusy Hexc Hr Hro. unfold close_checkpoint, os_lock_exclusive, get_wal.
  destruct hasBuf; [|wp_pure; by apply closed_unchanged].
  wp_pure. destruct (xLockExclusive (w_os s)) as [rc o] eqn:Eo.
  eapply run_wp; [rewrite Eo; reflexivity|]. wp_pure.
  destruct (Z.eqb_spec rc SQLITE_OK) as [->|]; wp_pure; [|by apply closed_unchanged].
  assert (Hfree : forall i, ~ busy i) by (apply (Hexc (w_os s)); by rewrite Eo).
  assert (Hrun : forall s1, wal_only s s1 -> exclusiveMode (w_wal s1) <> 0 ->
            bShmUnreliable (w_wal s1) = bShmUnreliable (w_wal s) -> readOnly (w_wal s1) = 0 ->
            wp ('(rc, _) ← sqlite3WalCheckpoint be aPrivate SQLITE_CHECKPOINT_PASSIVE [] fl nBuf;
                if rc =? SQLITE_OK then
                  bPersist ← gets (fun s => xPersistWal (w_os s));
                  if negb (bPersist =? 1) then mret (rc, true) else
                  w ← gets w_wal;
                  (if mxWalSize w >=? 0 then walLimitSize 0 else mret tt);;
                  mret (rc, false)
                else mret (rc, false)) (closed_safely s h pgs sz) s1).
  { intros s1 (E1 & E2 & E3 & E4) Hx Hu Hro1. wp_pure.
    apply (wp_sqlite3WalCheckpoint be Hq Hfl busy Hbusy Hrand aPrivate _ _ _ _ h pgs sz); [|done|].
    { destruct Hr as [[] ]. constructor; rewrite ?E1; try done; [|by right].
      constructor; rewrite ?E1, ?Hu, ?Hro1; done. }
    intros [rc out] s2 Hc _. wp_pure.
    destruct (ckpt_result_passive _ _ _ _ _ _ Hc) as (Ea & El & Hdata). cbn [fst] in Hdata.
    rewrite E4 in Ea. rewrite E2 in El. rewrite E1 in Hdata.
    destruct (Z.eqb_spec rc SQLITE_OK) as [->|]; wp_pure; [|by apply closed_unchanged].
    assert (Hok : forall s3 b, w_aws s3 = w_aws s2 -> w_db s3 = w_db s2 -> closed_safely s h pgs sz (SQLITE_OK, b) s3).
    { intros s3 b Ea3 Ed3. split; [congruence|]. intros _. split; [done|]. intros p x k Hp Hl Hk.
      rewrite Ed3, (Hdata eq_refl Hx Hnb p x k Hp Hl Hk). unfold read_byte. by rewrite E2, E3. }
    destruct (negb _); wp_pure; [by apply Hok|].
    destruct (_ >=? 0); wp_pure; [|by apply Hok].
    apply wp_walLimitSize_any. intros f. wp_pure. by apply Hok. }
  unfold WAL_NORMAL_MODE. destruct (Z.eqb_spec (exclusiveMode (w_wal s)) 0) as [Hm|Hm]; wp_pure.
  - rewrite <- wp_bind. by apply Hrun.
  - rewrite <- wp_bind. by apply Hrun.
Qed.
End properties.

(** Leaving exclusive mode fails only when the read lock is refused, and then
    the handle stays in exclusive mode; entering it always succeeds. *)
Lemma exclusive_mode_result {F OS : Type} `{VFile F} `{WalOS OS} op r (s s' : World F OS) :
  sqlite3WalExclusiveMode op s = Some (r, s') ->
  r = 0 \/ r = 1 /\
    (op = 0 -> exclusiveMode (w_wal s) <> WAL_NORMAL_MODE /\ exclusiveMode (w_wal s') = WAL_NORMAL_MODE) /\
    (0 < op -> exclusiveMode (w_wal s') = WAL_EXCLUSIVE_MODE) /\
    (op < 0 -> s' = s /\ exclusiveMode (w_wal s) = WAL_NORMAL_MODE).
Proof.
  unfold sqlite3WalExclusiveMode. intros E. run_inv.
  destruct (Z.eqb_spec op 0) as [->|Hne].
  - destruct (Z.eqb_spec (exclusiveMode (w_wal s)) WAL_NORMAL_MODE) as [|Hm]; cbn [negb] in E; run_inv; [by left|].
    destruct (exclusiveMode (w_wal _) =? WAL_NORMAL_MODE) eqn:Em; [right|by left].
    apply Z.eqb_eq in Em. split_and!; [done|done|lia|lia].
  - destruct (Z.gtb_spec op 0) as [Hp|Hp]; run_inv.
    + right. by split_and!; [|lia|..|lia].
    + destruct (Z.eqb_spec (exclusiveMode (w_wal s)) WAL_NORMAL_MODE); [right|by left].
      by split_and!; [|lia|lia|].
Qed.

(** ** Instances *)

Lemma byte_file_not_busy : files_not_busy ByteFile.
Proof. split_and!; try done. intros f a o. cbn. unfold bf_read. by destruct (_ <=? _). Qed.

Lemma close_keeps_data_witness :
  wp (@close_checkpoint ByteFile unit _ _ sample_env false zero_page 0 512 true)
    (closed_safely lone_world reader_hdr [7; 9; 7] 512) lone_world.
Proof.
  exact (@close_keeps_data ByteFile unit _ _ sample_env false zero_page (fun _ => False)
           0 512 true reader_hdr [7; 9; 7] 512 lone_world
           unit_os_quiet unit_os_random_law byte_file_laws byte_file_not_busy
           ltac:(by intros o sh a n i []) (fun _ _ _ Hf => Hf) lone_world_ready eq_refl).
Defined.

(** Here the log is deleted: both pages are in the database. *)
Example close_deletes :
  fst <$> @close_checkpoint ByteFile unit _ _ sample_env false zero_page 0 512 true lone_world
    = Some (SQLITE_OK, true).
Proof. vm_compute. reflexivity. Qed.
