(* ===== verification/Bitvec.v ===== *)
(** Sparse bit vectors (bitvec.c): the set of pages a transaction has
    journalled.  A vector is a bitmap, a hash table or 62 smaller vectors,
    according to its size and to how many bits it holds. *)
From S2P Require Import Prelude.
From S2P Require Import Bits.
From S2P Require Import Vfs.
From S2P Require Import Probe.
Open Scope Z_scope.

Definition BITVEC_SZ : Z := 512.
Definition BITVEC_USIZE : Z := (BITVEC_SZ - 3 * 4) / 8 * 8.
Definition BITVEC_SZELEM : Z := 8.
Definition BITVEC_NELEM : Z := BITVEC_USIZE / 1.
Definition BITVEC_NBIT : Z := BITVEC_NELEM * BITVEC_SZELEM.
Definition BITVEC_NINT : Z := BITVEC_USIZE / 4.
Definition BITVEC_MXHASH : Z := BITVEC_NINT / 2.
Definition BITVEC_HASH (X : Z) : Z := (X * 1) mod BITVEC_NINT.
Definition BITVEC_NPTR : Z := BITVEC_USIZE / 8.

(** The member of the union that is in use. *)
Inductive Bitvec : Type :=
  mkBitvec (iSize nSet iDivisor : Z) (u : BitvecU)
with BitvecU : Type :=
| aBitmap (l : list Z)
| aHash (l : list Z)
| apSub (l : list (option Bitvec)).

Definition iSize (p : Bitvec) : Z := let 'mkBitvec n _ _ _ := p in n.

(** * The operations *)

Definition zero_bitvec (n : Z) : Bitvec :=
  mkBitvec n 0 0 (if n <=? BITVEC_NBIT then aBitmap (replicate (Z.to_nat BITVEC_NELEM) 0)
                  else aHash (replicate (Z.to_nat BITVEC_NINT) 0)).

Definition sqlite3BitvecCreate (n : Z) (a : Alloc) : option Bitvec * Alloc :=
  let '(ok, a) := malloc a in
  (if ok then Some (zero_bitvec n) else None, a).

(** [while( p->u.aHash[h] )] from slot [h]: is [i] found? *)
Fixpoint hash_find (fuel : nat) (T : list Z) (h i : Z) : option bool :=
  match fuel with
  | O => None
  | S fuel =>
      v ← T.[h];
      if v =? 0 then Some false
      else if v =? i then Some true
      else hash_find fuel T ((h + 1) mod BITVEC_NINT) i
  end.

(** The loop over [iDivisor] and what follows it; [i] counts from 0. *)
Fixpoint bitvec_test (fuel : nat) (p : Bitvec) (i : Z) : option bool :=
  match fuel with
  | O => None
  | S fuel =>
      let 'mkBitvec iSize _ iDivisor u := p in
      if negb (iDivisor =? 0) then
        let bin := i / iDivisor in
        let i := i mod iDivisor in
        match u with
        | apSub l =>
            q ← l.[bin];
            match q with
            | None => Some false
            | Some q => bitvec_test fuel q i
            end
        | _ => None
        end
      else match u with
           | aBitmap l =>
               if iSize <=? BITVEC_NBIT then
                 b ← l.[i / BITVEC_SZELEM];
                 Some (negb (Z.land b (Z.shiftl 1 (Z.land i (BITVEC_SZELEM - 1))) =? 0))
               else None
           | aHash T =>
               if iSize <=? BITVEC_NBIT then None
               else hash_find (S (Z.to_nat BITVEC_NINT)) T (BITVEC_HASH i) (u32 (i + 1))
           | apSub _ => None
           end
  end.

(** Vectors of fewer than 2^32 bits nest at most 5 deep. *)
Definition BITVEC_DEPTH : nat := 5.

Definition sqlite3BitvecTestNotNull (p : Bitvec) (i : Z) : option bool :=
  let i := u32 (i - 1) in
  if i >=? iSize p then Some false else bitvec_test BITVEC_DEPTH p i.

Definition sqlite3BitvecTest (p : option Bitvec) (i : Z) : option bool :=
  match p with None => Some false | Some p => sqlite3BitvecTestNotNull p i end.

(** The do-while loop of an insertion, from slot [h]: [None] inside when [i] is
    there already, else the free slot. *)
Fixpoint hash_slot (fuel : nat) (T : list Z) (h i : Z) : option (option Z) :=
  match fuel with
  | O => None
  | S fuel =>
      v ← T.[h];
      if v =? i then Some None else
      let h := if h + 1 >=? BITVEC_NINT then 0 else h + 1 in
      v ← T.[h];
      if v =? 0 then Some (Some h) else hash_slot fuel T h i
  end.

(** The loop over [aiValues], with the recursive call. *)
Fixpoint set_values (set : Bitvec -> Z -> Alloc -> option (Z * Bitvec * Alloc))
    (aiValues : list Z) (rc : Z) (p : Bitvec) (a : Alloc) : option (Z * Bitvec * Alloc) :=
  match aiValues with
  | [] => Some (rc, p, a)
  | v :: aiValues =>
      if v =? 0 then set_values set aiValues rc p a else
      '(rc', p, a) ← set p (v - 1) a;
      set_values set aiValues (Z.lor rc rc') p a
  end.

(** [bitvec_set_rehash], then [bitvec_set_end]. *)
Definition set_rehash (set : Bitvec -> Z -> Alloc -> option (Z * Bitvec * Alloc))
    (iSize nSet h i : Z) (T : list Z) (a : Alloc) : option (Z * Bitvec * Alloc) :=
  if nSet >=? BITVEC_MXHASH then
    let '(ok, a) := malloc a in
    if ok : bool then
      let iDivisor := u32 ((iSize + BITVEC_NPTR - 1) / BITVEC_NPTR) in
      let p := mkBitvec iSize nSet iDivisor (apSub (replicate (Z.to_nat BITVEC_NPTR) None)) in
      '(rc, p, a) ← set p (i - 1) a;
      set_values set T rc p a
    else Some (SQLITE_NOMEM, mkBitvec iSize nSet 0 (aHash T), a)
  else
    T' ← T.[h <- i];
    Some (SQLITE_OK, mkBitvec iSize (u32 (nSet + 1)) 0 (aHash T'), a).

(** [sqlite3BitvecSet] of the bit [i], counted from 0. *)
Fixpoint bitvec_set (fuel : nat) (p : Bitvec) (i : Z) (a : Alloc) : option (Z * Bitvec * Alloc) :=
  match fuel with
  | O => None
  | S fuel =>
      let 'mkBitvec iSize nSet iDivisor u := p in
      if (iSize >? BITVEC_NBIT) && negb (iDivisor =? 0) then
        match u with
        | apSub l =>
            let bin := i / iDivisor in
            let i := i mod iDivisor in
            q ← l.[bin];
            let '(q, a) := match q with
                           | Some q => (Some q, a)
                           | None => sqlite3BitvecCreate iDivisor a
                           end in
            match q with
            | None => Some (SQLITE_NOMEM, p, a)
            | Some q =>
                '(rc, q, a) ← bitvec_set fuel q i a;
                l ← l.[bin <- Some q];
                Some (rc, mkBitvec iSize nSet iDivisor (apSub l), a)
            end
        | _ => None
        end
      else match u with
           | aBitmap l =>
               if iSize <=? BITVEC_NBIT then
                 b ← l.[i / BITVEC_SZELEM];
                 l ← l.[i / BITVEC_SZELEM <-
                        u8 (Z.lor b (Z.shiftl 1 (Z.land i (BITVEC_SZELEM - 1))))];
                 Some (SQLITE_OK, mkBitvec iSize nSet iDivisor (aBitmap l), a)
               else None
           | aHash T =>
               if iSize <=? BITVEC_NBIT then None else
               let h := BITVEC_HASH i in
               let i := u32 (i + 1) in
               v ← T.[h];
               if v =? 0 then
                 if nSet <? BITVEC_NINT - 1 then
                   T' ← T.[h <- i];
                   Some (SQLITE_OK, mkBitvec iSize (u32 (nSet + 1)) 0 (aHash T'), a)
                 else set_rehash (bitvec_set fuel) iSize nSet h i T a
               else
                 r ← hash_slot (S (Z.to_nat BITVEC_NINT)) T h i;
                 match r with
                 | None => Some (SQLITE_OK, p, a)
                 | Some h => set_rehash (bitvec_set fuel) iSize nSet h i T a
                 end
           | apSub _ => None
           end
  end.

Definition sqlite3BitvecSet (p : option Bitvec) (i : Z) (a : Alloc)
    : option (Z * option Bitvec * Alloc) :=
  match p with
  | None => Some (SQLITE_OK, None, a)
  | Some p =>
      '(rc, p, a) ← bitvec_set (2 * BITVEC_DEPTH) p (u32 (i - 1)) a;
      Some (rc, Some p, a)
  end.

(** The first free slot from [h]. *)
Fixpoint hash_free (fuel : nat) (T : list Z) (h : Z) : option Z :=
  match fuel with
  | O => None
  | S fuel =>
      v ← T.[h];
      if v =? 0 then Some h
      else hash_free fuel T (if h + 1 >=? BITVEC_NINT then 0 else h + 1)
  end.

(** Rebuilding the hash table without [i]. *)
Fixpoint clear_values (aiValues : list Z) (i nSet : Z) (T : list Z) : option (Z * list Z) :=
  match aiValues with
  | [] => Some (nSet, T)
  | v :: aiValues =>
      if negb (v =? 0) && negb (v =? i) then
        h ← hash_free (S (Z.to_nat BITVEC_NINT)) T (BITVEC_HASH (v - 1));
        T ← T.[h <- v];
        clear_values aiValues i (u32 (nSet + 1)) T
      else clear_values aiValues i nSet T
  end.

(** [sqlite3BitvecClear] of the bit [i], counted from 0. *)
Fixpoint bitvec_clear (fuel : nat) (p : Bitvec) (i : Z) : option Bitvec :=
  match fuel with
  | O => None
  | S fuel =>
      let 'mkBitvec iSize nSet iDivisor u := p in
      if negb (iDivisor =? 0) then
        match u with
        | apSub l =>
            let bin := i / iDivisor in
            let i := i mod iDivisor in
            q ← l.[bin];
            match q with
            | None => Some p
            | Some q =>
                q ← bitvec_clear fuel q i;
                l ← l.[bin <- Some q];
                Some (mkBitvec iSize nSet iDivisor (apSub l))
            end
        | _ => None
        end
      else match u with
           | aBitmap l =>
               if iSize <=? BITVEC_NBIT then
                 b ← l.[i / BITVEC_SZELEM];
                 l ← l.[i / BITVEC_SZELEM <-
                        u8 (Z.land b (Z.lnot (Z.shiftl 1 (Z.land i (BITVEC_SZELEM - 1)))))];
                 Some (mkBitvec iSize nSet iDivisor (aBitmap l))
               else None
           | aHash T =>
               if iSize <=? BITVEC_NBIT then None else
               '(n, T) ← clear_values T (u32 (i + 1)) 0 (replicate (Z.to_nat BITVEC_NINT) 0);
               Some (mkBitvec iSize n iDivisor (aHash T))
           | apSub _ => None
           end
  end.

Definition sqlite3BitvecClear (p : option Bitvec) (i : Z) : option (option Bitvec) :=
  match p with
  | None => Some None
  | Some p => p ← bitvec_clear BITVEC_DEPTH p (u32 (i - 1)); Some (Some p)
  end.

Definition sqlite3BitvecSize (p : Bitvec) : Z := iSize p.

Example set_test_small :
  ('(_, p, _) ← sqlite3BitvecSet (Some (zero_bitvec 100)) 9 []; sqlite3BitvecTest p 9) = Some true.
Proof. vm_compute. reflexivity. Qed.

(** Enough bits to turn the hash table into vectors. *)
Fixpoint set_all (p : option Bitvec) (l : list Z) : option (option Bitvec) :=
  match l with [] => Some p | i :: l => '(_, p, _) ← sqlite3BitvecSet p i []; set_all p l end.
Example set_test_large :
  (p ← set_all (Some (zero_bitvec 1000000)) (Z.mul 124 <$> seqZ 1 100);
   p ← sqlite3BitvecClear p 12400;
   x ← sqlite3BitvecTest p 12400; y ← sqlite3BitvecTest p 124; z ← sqlite3BitvecTest p 125;
   Some (x, y, z)) = Some (false, true, false).
Proof. vm_compute. reflexivity. Qed.

(** * The hash table *)

Local Abbreviation NINT := 124.

(** The number of slots in use. *)
Definition used (T : list Z) : Z := zlen (filter (fun v => v <> 0) T).

Record hash_ok (sz n : Z) (T : list Z) : Prop := {
  ho_len : zlen T = NINT;
  ho_range s v : T.[s] = Some v -> 0 <= v <= sz;
  ho_inj s t v : v <> 0 -> T.[s] = Some v -> T.[t] = Some v -> s = t;
  ho_reach s v : v <> 0 -> T.[s] = Some v ->
    exists d, 0 <= d < NINT /\ slot NINT (BITVEC_HASH (v - 1)) d = s /\
              chain NINT T (fun v => v <> 0) (BITVEC_HASH (v - 1)) d;
  ho_used : used T = n;
  ho_max : n < NINT;
}.

Lemma hash_range x : 0 <= BITVEC_HASH x < NINT.
Proof. unfold BITVEC_HASH. change BITVEC_NINT with NINT. apply Z.mod_pos_bound. lia. Qed.

Lemma next_slot h : 0 <= h < NINT -> (if h + 1 >=? BITVEC_NINT then 0 else h + 1) = slot NINT h 1.
Proof.
  intros Hh. change BITVEC_NINT with NINT. unfold slot.
  destruct (Z.geb_spec (h + 1) NINT).
  - replace (h + 1) with NINT by lia. done.
  - by rewrite Z.mod_small by lia.
Qed.

Lemma used_cons v T : used (v :: T) = (if decide (v = 0) then 0 else 1) + used T.
Proof.
  unfold used. destruct (decide (v = 0)) as [->|].
  - rewrite filter_cons_False by auto. lia.
  - rewrite filter_cons_True by done. rewrite zlen_cons. lia.
Qed.

Lemma used_full T : 0 ∉ T -> used T = zlen T.
Proof.
  induction T as [|v T IH]; [done|]. rewrite elem_of_cons. intros Hn.
  rewrite used_cons, zlen_cons, IH by tauto. case_decide; [subst; tauto|lia].
Qed.

Lemma used_insert T n i : T !! n = Some 0 -> i <> 0 -> used (<[n := i]> T) = used T + 1.
Proof.
  revert n. induction T as [|v T IH]; intros n Hn Hi; [done|]. destruct n as [|n]; cbn in Hn |- *.
  - injection Hn as ->. rewrite !used_cons. case_decide; [done|]. case_decide; [lia|done].
  - rewrite !used_cons, IH by done. lia.
Qed.

Lemma used_zupd T s i : T.[s] = Some 0 -> i <> 0 -> used (zupd T s i) = used T + 1.
Proof.
  intros Hs. pose proof (zget_range _ _ _ Hs). rewrite zget_to_nat in Hs by lia. by apply used_insert.
Qed.

Lemma hash_free_slot sz n T : hash_ok sz n T -> exists s, T.[s] = Some 0.
Proof.
  intros Ho. destruct (decide (0 ∈ T)) as [H0|H0]; [by apply elem_of_zget|exfalso].
  assert (used T = zlen T) as Hf.
  { by apply used_full. }
  rewrite (ho_used _ _ _ Ho), (ho_len _ _ _ Ho) in Hf. pose proof (ho_max _ _ _ Ho). lia.
Qed.

(** From every slot a free one is found, and its distance. *)
Lemma hash_probe sz n T h :
  hash_ok sz n T ->
  exists d, 0 <= d < NINT /\ T.[slot NINT h d] = Some 0 /\ chain NINT T (fun v => v <> 0) h d.
Proof.
  intros Ho. destruct (hash_free_slot _ _ _ Ho) as [s Hs].
  apply (probe_free NINT ltac:(lia) T (ho_len _ _ _ Ho) h s Hs).
Qed.

Lemma chain_none T i h d : chain NINT T (fun v => v <> 0 /\ v <> i) h d ->
  forall e, 0 <= e < d -> T.[slot NINT h e] <> Some i.
Proof. intros Hc e He E. destruct (Hc e He) as (v & Ev & _ & Hv). congruence. Qed.

(** A value sits at its distance, before the first free slot. *)
Lemma hash_where sz n T i dm :
  hash_ok sz n T -> i <> 0 -> 0 <= dm < NINT ->
  T.[slot NINT (BITVEC_HASH (i - 1)) dm] = Some 0 ->
  (i ∈ T <-> exists e, 0 <= e < dm /\ T.[slot NINT (BITVEC_HASH (i - 1)) e] = Some i).
Proof.
  intros Ho Hi Hdm Hz. split.
  - intros [s Hs]%elem_of_zget. destruct (ho_reach _ _ _ Ho s i Hi Hs) as (d & Hd & Es & Hc).
    subst s. exists d. split; [|done]. split; [lia|].
    destruct (Z.lt_trichotomy d dm) as [?|[->|?]]; [done|congruence|].
    destruct (Hc dm ltac:(lia)) as (v & Ev & Hv). congruence.
  - intros (e & _ & He). by eapply zget_elem_of.
Qed.

Lemma hash_find_run T i h dm fuel : forall d,
  0 <= h < NINT -> i <> 0 -> 0 <= d <= dm -> dm - d < Z.of_nat fuel ->
  chain NINT T (fun v => v <> 0) h dm -> T.[slot NINT h dm] = Some 0 ->
  exists b, hash_find fuel T (slot NINT h d) i = Some b /\
    (b = true <-> exists e, d <= e < dm /\ T.[slot NINT h e] = Some i).
Proof.
  induction fuel as [|fuel IH]; intros d Hh Hi Hd Hf Hc Hz; [lia|]. cbn [hash_find].
  destruct (decide (d = dm)) as [->|Hne].
  - rewrite Hz. cbn. exists false. split; [done|]. split; [done|]. intros (e & He & _). lia.
  - destruct (Hc d ltac:(lia)) as (v & Ev & Hv). rewrite Ev. cbn.
    rewrite (proj2 (Z.eqb_neq _ _) Hv). destruct (Z.eqb_spec v i) as [->|Hvi].
    + exists true. split; [done|]. split; [|done]. intros _. exists d. split; [lia|done].
    + change BITVEC_NINT with NINT. rewrite slot_next by lia.
      destruct (IH (d + 1)) as (b & Eb & Hb); [done|done|lia|lia|done|done|].
      exists b. split; [done|]. rewrite Hb. split; intros (e & He & E); exists e; (split; [|done]); [lia|].
      destruct (decide (e = d)) as [->|]; [congruence|lia].
Qed.

Lemma hash_find_ok sz n T i :
  hash_ok sz n T -> i <> 0 ->
  exists b, hash_find (S (Z.to_nat BITVEC_NINT)) T (BITVEC_HASH (i - 1)) i = Some b /\
    (b = true <-> i ∈ T).
Proof.
  intros Ho Hi. set (h := BITVEC_HASH (i - 1)). pose proof (hash_range (i - 1)) as Hh. fold h in Hh.
  destruct (hash_probe _ _ _ h Ho) as (dm & Hdm & Hz & Hc).
  destruct (hash_find_run T i h dm (S (Z.to_nat BITVEC_NINT)) 0) as (b & Eb & Hb); try done; try lia.
  { change BITVEC_NINT with NINT. lia. }
  rewrite slot_0 in Eb by lia. exists b. split; [done|]. rewrite Hb.
  by rewrite (hash_where _ _ _ _ _ Ho Hi Hdm Hz).
Qed.

Lemma hash_slot_run T i h dm fuel : forall d,
  0 <= h < NINT -> i <> 0 -> 0 <= d < dm -> dm - d <= Z.of_nat fuel ->
  chain NINT T (fun v => v <> 0) h dm -> T.[slot NINT h dm] = Some 0 ->
  (hash_slot fuel T (slot NINT h d) i = Some None /\ i ∈ T) \/
  (hash_slot fuel T (slot NINT h d) i = Some (Some (slot NINT h dm)) /\
   forall e, d <= e < dm -> T.[slot NINT h e] <> Some i).
Proof.
  induction fuel as [|fuel IH]; intros d Hh Hi Hd Hf Hc Hz; [lia|]. cbn [hash_slot].
  destruct (Hc d ltac:(lia)) as (v & Ev & Hv). rewrite Ev. cbn.
  destruct (Z.eqb_spec v i) as [->|Hvi]; [left; split; [done|by eapply zget_elem_of]|].
  rewrite next_slot by (apply slot_range; lia). rewrite slot_slot by lia.
  destruct (decide (d + 1 = dm)) as [<-|Hne].
  - rewrite Hz. cbn. right. split; [done|]. intros e He. assert (e = d) as -> by lia. congruence.
  - destruct (Hc (d + 1) ltac:(lia)) as (w & Ew & Hw). rewrite Ew. cbn.
    rewrite (proj2 (Z.eqb_neq _ _) Hw).
    destruct (IH (d + 1)) as [?|[E Hno]]; try done; try lia; [by left|]. right. split; [done|].
    intros e He. destruct (decide (e = d)) as [->|]; [congruence|apply Hno; lia].
Qed.

Lemma hash_free_run T h dm fuel : forall d,
  0 <= h < NINT -> 0 <= d <= dm -> dm - d < Z.of_nat fuel ->
  chain NINT T (fun v => v <> 0) h dm -> T.[slot NINT h dm] = Some 0 ->
  hash_free fuel T (slot NINT h d) = Some (slot NINT h dm).
Proof.
  induction fuel as [|fuel IH]; intros d Hh Hd Hf Hc Hz; [lia|]. cbn [hash_free].
  destruct (decide (d = dm)) as [->|Hne]; [by rewrite Hz|].
  destruct (Hc d ltac:(lia)) as (v & Ev & Hv). rewrite Ev. cbn.
  rewrite (proj2 (Z.eqb_neq _ _) Hv), next_slot by (apply slot_range; lia).
  rewrite slot_slot by lia. apply IH; done || lia.
Qed.

(** Storing a new value in the free slot its probe finds. *)
Lemma hash_insert sz n T i dm :
  hash_ok sz n T -> 1 <= i <= sz -> n + 1 < NINT -> i ∉ T -> 0 <= dm < NINT ->
  T.[slot NINT (BITVEC_HASH (i - 1)) dm] = Some 0 ->
  chain NINT T (fun v => v <> 0) (BITVEC_HASH (i - 1)) dm ->
  hash_ok sz (n + 1) (zupd T (slot NINT (BITVEC_HASH (i - 1)) dm) i).
Proof.
  intros Ho Hi Hn Hni Hdm Hz Hc. set (s := slot _ _ dm) in *.
  assert (Hs : 0 <= s < zlen T) by (by apply zget_range in Hz).
  assert (Hin : forall t v, (zupd T s i).[t] = Some v -> v = i /\ t = s \/ t <> s /\ T.[t] = Some v).
  { intros t v. rewrite zget_zupd by done. case_decide; [intros [= <-]; by left|]. intros. right. by split. }
  assert (Hno : forall t, T.[t] <> Some i).
  { intros t Ht. apply Hni. by eapply zget_elem_of. }
  constructor.
  - by rewrite zlen_zupd, (ho_len _ _ _ Ho).
  - intros t v [[-> _]|[_ Hv]]%Hin; [lia|]. by eapply ho_range.
  - intros t t' v Hv Ht Ht'. apply Hin in Ht as [[-> ->]|[? Ht]], Ht' as [[Hvi ->]|[? Ht']]; try done.
    + by destruct (Hno t').
    + subst v. by destruct (Hno t).
    + by eapply ho_inj.
  - intros t v Hv Ht. apply Hin in Ht as [[-> ->]|[? Ht]].
    + exists dm. split; [done|]. split; [done|]. eapply chain_zupd; [done|..|exact Hc]; [done|lia].
    + destruct (ho_reach _ _ _ Ho t v Hv Ht) as (d & Hd & Et & Hcd). exists d. split_and!; try done; try lia.
      eapply chain_zupd; [done|..|exact Hcd]; [done|lia].
  - rewrite used_zupd, (ho_used _ _ _ Ho) by (done || lia). done.
  - done.
Qed.

Lemma elem_of_zupd T s i v : T.[s] = Some 0 -> v <> 0 -> v ∈ zupd T s i <-> v = i \/ v ∈ T.
Proof.
  intros Hs Hv. pose proof (zget_range _ _ _ Hs) as Hr. split.
  - intros [t Ht]%elem_of_zget. rewrite zget_zupd in Ht by done. case_decide; [left; congruence|].
    right. by eapply zget_elem_of.
  - intros [->|[t Ht]%elem_of_zget].
    + eapply zget_elem_of. by apply zget_zupd_eq.
    + apply (zget_elem_of _ t). rewrite zget_zupd by done. case_decide; [congruence|done].
Qed.

Lemma hash_empty sz : 0 <= sz -> hash_ok sz 0 (replicate (Z.to_nat BITVEC_NINT) 0).
Proof.
  intros Hsz. assert (Hz : forall s v, (replicate (Z.to_nat BITVEC_NINT) 0).[s] = Some v -> v = 0).
  { intros s v Hs. pose proof (zget_range _ _ _ Hs) as Hr. rewrite zlen_replicate in Hr.
    rewrite zget_replicate in Hs by done. by injection Hs. }
  constructor; try done; try (intros; exfalso; by eauto).
  intros s v ->%Hz. lia.
Qed.

Lemma clear_values_ok sz i : forall vals n T,
  hash_ok sz n T -> 0 <= n -> n + used vals < NINT ->
  Forall (fun v => 0 <= v <= sz) vals ->
  NoDup (filter (fun v => v <> 0) vals) -> (forall v, v <> 0 -> v ∈ vals -> v ∉ T) ->
  exists n' T', clear_values vals i n T = Some (n', T') /\ hash_ok sz n' T' /\
    forall v, v <> 0 -> v ∈ T' <-> v ∈ T \/ v ∈ vals /\ v <> i.
Proof.
  induction vals as [|v vals IH]; intros n T Ho Hn Hmax Hr Hnd Hnew; cbn [clear_values].
  - exists n, T. split_and!; try done. intros v _. rewrite elem_of_nil. tauto.
  - apply Forall_cons_1 in Hr as [Hv Hr]. rewrite used_cons in Hmax.
    destruct (Z.eqb_spec v 0) as [->|Hv0]; cbn [negb andb].
    { destruct (IH n T) as (n' & T' & E & Ho' & Hm); try done.
      - intros w Hw Hi. apply Hnew; [done|]. apply elem_of_cons. by right.
      - exists n', T'. split_and!; try done. intros w Hw. rewrite Hm, elem_of_cons by done.
        intuition congruence. }
    rewrite filter_cons_True in Hnd by done. apply stdpp.list_relations.list.NoDup_cons in Hnd as [Hnv Hnd].
    assert (Hvv : v ∉ vals) by (intros Hvi; apply Hnv; by apply list_elem_of_filter).
    rewrite decide_False in Hmax by done.
    destruct (Z.eqb_spec v i) as [->|Hvi]; cbn [negb andb].
    { destruct (IH n T) as (n' & T' & E & Ho' & Hm); try done; [lia| |].
      - intros w Hw Hi. apply Hnew; [done|]. apply elem_of_cons. by right.
      - exists n', T'. split_and!; try done. intros w Hw. rewrite Hm, elem_of_cons by done.
        intuition congruence. }
    set (h := BITVEC_HASH (v - 1)). destruct (hash_probe _ _ _ h Ho) as (dm & Hdm & Hz & Hc).
    pose proof (hash_range (v - 1)) as Hh. fold h in Hh.
    pose proof (hash_free_run T h dm (S (Z.to_nat BITVEC_NINT)) 0) as Ef.
    rewrite slot_0 in Ef by lia. rewrite Ef; [|lia|lia|change BITVEC_NINT with NINT; lia|done|done].
    cbn. rewrite zset_zupd by (by apply zget_range in Hz). cbn.
    assert (Hpos : 0 <= used vals) by apply zlen_nonneg.
    rewrite u32_small by lia.
    assert (Hvt : v ∉ T). { apply Hnew; [done|]. apply elem_of_cons. by left. }
    destruct (IH (n + 1) (zupd T (slot NINT h dm) v)) as (n' & T' & E & Ho' & Hm); try done.
    + apply hash_insert; try done; lia.
    + lia.
    + lia.
    + intros w Hw Hi. rewrite elem_of_zupd by done. intros [->|Hwt]; [done|].
      revert Hwt. apply Hnew; [done|]. apply elem_of_cons. by right.
    + exists n', T'. split_and!; try done. intros w Hw. rewrite Hm, elem_of_zupd, elem_of_cons by done.
      intuition congruence.
Qed.

Lemma hash_nodup sz n T : hash_ok sz n T -> NoDup (filter (fun v => v <> 0) T).
Proof.
  intros Ho. assert (Hinj : forall s t v, v <> 0 -> T.[s] = Some v -> T.[t] = Some v -> s = t)
    by apply (ho_inj _ _ _ Ho). clear Ho.
  induction T as [|x T IH]; [by apply stdpp.list_relations.list.NoDup_nil|].
  assert (IH' : NoDup (filter (fun v => v <> 0) T)).
  { apply IH. intros s t v Hv Hs Ht. pose proof (zget_range _ _ _ Hs). pose proof (zget_range _ _ _ Ht).
    enough (s + 1 = t + 1) by lia. apply (Hinj _ _ v Hv); by rewrite zget_cons_pos, Z.add_simpl_r by lia. }
  destruct (decide (x <> 0)) as [Hx|Hx]; [|by rewrite filter_cons_False].
  rewrite filter_cons_True by done. apply stdpp.list_relations.list.NoDup_cons. split; [|done].
  intros [_ [s Hs]%elem_of_zget]%list_elem_of_filter. pose proof (zget_range _ _ _ Hs).
  enough (0 = s + 1) by lia. apply (Hinj _ _ x Hx); [done|]. by rewrite zget_cons_pos, Z.add_simpl_r by lia.
Qed.

(** * Well-formed vectors *)

(** The greatest size of a vector of depth [d]. *)
Fixpoint cap (d : nat) : Z :=
  match d with O => 0 | S O => BITVEC_NBIT | S d => BITVEC_NPTR * cap d end.

Definition sub_wf (W : Bitvec -> Prop) (div : Z) (q : option Bitvec) : Prop :=
  match q with None => True | Some q => iSize q = div /\ W q end.

Fixpoint wf (d : nat) (p : Bitvec) : Prop :=
  match d with
  | O => False
  | S d =>
      let 'mkBitvec sz n div u := p in
      0 <= sz < 2 ^ 32 /\ sz <= cap (S d) /\
      match u with
      | aBitmap l => sz <= BITVEC_NBIT /\ div = 0 /\ zlen l = BITVEC_NELEM /\ bytes_ok l
      | aHash T => BITVEC_NBIT < sz /\ div = 0 /\ 0 <= n /\ hash_ok sz n T
      | apSub l => BITVEC_NBIT < sz /\ div = (sz + 61) / 62 /\ zlen l = BITVEC_NPTR /\
                   Forall (sub_wf (wf d) div) l
      end
  end.

(** The bits of a vector, counted from 0. *)
Fixpoint bit (d : nat) (p : Bitvec) (i : Z) : Prop :=
  match d with
  | O => False
  | S d =>
      let 'mkBitvec sz n div u := p in
      match u with
      | aBitmap l => exists b, l.[i / 8] = Some b /\ Z.testbit b (i mod 8) = true
      | aHash T => i + 1 ∈ T
      | apSub l => exists q, l.[i / div] = Some (Some q) /\ bit d q (i mod div)
      end
  end.

Lemma cap_S d : (0 < d)%nat -> cap (S d) = BITVEC_NPTR * cap d.
Proof. intros Hd. destruct d; [lia|done]. Qed.

Lemma div_bounds sz : BITVEC_NBIT < sz -> 0 < (sz + 61) / 62 /\ sz <= 62 * ((sz + 61) / 62).
Proof.
  change BITVEC_NBIT with 3968. intros Hs. pose proof (Z.div_mod (sz + 61) 62 ltac:(lia)).
  pose proof (Z.mod_pos_bound (sz + 61) 62 ltac:(lia)). lia.
Qed.

Lemma div_cap d sz : BITVEC_NBIT < sz -> sz <= cap (S d) -> (0 < d)%nat /\ (sz + 61) / 62 <= cap d.
Proof.
  intros Hs Hc. destruct d as [|d]; [change (cap 1) with BITVEC_NBIT in Hc; lia|]. split; [lia|].
  rewrite cap_S in Hc by lia. change BITVEC_NPTR with 62 in Hc.
  apply Z.lt_succ_r. apply Z.div_lt_upper_bound; lia.
Qed.

(** The bin of a bit and its place there. *)
Lemma bin_range sz i :
  BITVEC_NBIT < sz -> 0 <= i < sz ->
  0 <= i / ((sz + 61) / 62) < 62 /\ 0 <= i mod ((sz + 61) / 62) < (sz + 61) / 62.
Proof.
  intros Hs Hi. destruct (div_bounds sz Hs) as [Hd Hm]. split.
  - split; [apply Z.div_pos; lia|]. apply Z.div_lt_upper_bound; lia.
  - by apply Z.mod_pos_bound.
Qed.

Lemma bin_inj div i j : 0 < div -> i / div = j / div -> i mod div = j mod div -> i = j.
Proof. intros Hd Hq Hr. rewrite (Z.div_mod i div), (Z.div_mod j div) by lia. congruence. Qed.

Lemma bit_mask i : Z.shiftl 1 (Z.land i (BITVEC_SZELEM - 1)) = 2 ^ (i mod 8).
Proof. change (BITVEC_SZELEM - 1) with (Z.ones 3). rewrite Z.land_ones, Z.shiftl_1_l by lia. done. Qed.

Lemma testbit_land b k : 0 <= k -> negb (Z.land b (2 ^ k) =? 0) = Z.testbit b k.
Proof.
  intros Hk. destruct (Z.testbit b k) eqn:Eb.
  - destruct (Z.eqb_spec (Z.land b (2 ^ k)) 0) as [E|]; [|done].
    apply (f_equal (fun x => Z.testbit x k)) in E. rewrite Z.land_spec, Eb, Z.pow2_bits_true, Z.bits_0 in E by done.
    done.
  - assert (Z.land b (2 ^ k) = 0) as ->; [|done]. apply Z.bits_inj'. intros n Hn.
    rewrite Z.land_spec, Z.bits_0. destruct (decide (n = k)) as [->|]; [by rewrite Eb|].
    rewrite Z.pow2_bits_false by done. apply andb_false_r.
Qed.

Lemma wf_iSize d p : wf d p -> 0 <= iSize p < 2 ^ 32.
Proof. destruct d, p as [sz n div []]; cbn; tauto. Qed.

Lemma bitvec_test_ok d : forall fuel p i,
  (d <= fuel)%nat -> wf d p -> 0 <= i < iSize p ->
  exists b, bitvec_test fuel p i = Some b /\ (b = true <-> bit d p i).
Proof.
  induction d as [|d IH]; intros fuel p i Hf Hw Hi; [done|].
  destruct fuel as [|fuel]; [lia|]. destruct p as [sz n div u]. cbn [iSize] in Hi.
  cbn [wf] in Hw. destruct Hw as (Hr & Hcap & Hu). cbn [bitvec_test bit].
  destruct u as [l|T|l].
  - destruct Hu as (Hs & -> & Hl & Hb). cbn [Z.eqb negb].
    rewrite (proj2 (Z.leb_le _ _) Hs). change BITVEC_SZELEM with 8 in *. change BITVEC_NBIT with 3968 in Hs.
    destruct (zget_some l (i / 8)) as [b Eb].
    { rewrite Hl. change BITVEC_NELEM with 496. split; [apply Z.div_pos; lia|apply Z.div_lt_upper_bound; lia]. }
    rewrite Eb. cbn. change (Z.land i 7) with (Z.land i (BITVEC_SZELEM - 1)).
    rewrite bit_mask, testbit_land by (apply Z.mod_pos_bound; lia).
    eexists. split; [done|]. split; [intros Ht; by exists b|]. intros (b' & [= <-] & Ht). done.
  - destruct Hu as (Hs & -> & Hn & Ho). cbn [Z.eqb negb]. rewrite (proj2 (Z.leb_gt _ _) Hs).
    rewrite u32_small by lia.
    replace (BITVEC_HASH i) with (BITVEC_HASH (i + 1 - 1)) by (f_equal; lia).
    apply (hash_find_ok sz n T (i + 1) Ho). lia.
  - destruct Hu as (Hs & -> & Hl & Hsub). destruct (div_bounds sz Hs) as [Hd _].
    rewrite (proj2 (Z.eqb_neq _ 0)) by lia. cbn [negb].
    destruct (bin_range sz i Hs Hi) as [Hbin Hrem].
    destruct (zget_some l (i / ((sz + 61) / 62))) as [q Eq]; [rewrite Hl; exact Hbin|].
    rewrite Eq. cbn. pose proof (Forall_zget _ _ _ _ Hsub Eq) as Hq. destruct q as [q|].
    + destruct Hq as [Hqs Hqw].
      destruct (IH fuel q (i mod ((sz + 61) / 62))) as (b & Eb & Hb); [lia|done|by rewrite Hqs|].
      exists b. split; [done|]. rewrite Hb. split; [intros ?; by exists q|]. intros (q' & [= <-] & ?). done.
    + exists false. split; [done|]. split; [done|]. by intros (q' & ? & _).
Qed.

(** What setting the bit [i] leaves: a failed allocation may lose bits, but
    sets none. *)
Record set_post (d : nat) (p : Bitvec) (i rc : Z) (p' : Bitvec) : Prop := {
  sp_wf : wf d p';
  sp_size : iSize p' = iSize p;
  sp_rc : rc = SQLITE_OK \/ rc = SQLITE_NOMEM;
  sp_only j : 0 <= j < iSize p -> bit d p' j -> j = i \/ bit d p j;
  sp_set j : rc = SQLITE_OK -> 0 <= j < iSize p -> (bit d p' j <-> j = i \/ bit d p j);
}.

Lemma set_post_eq d p i p' :
  wf d p' -> iSize p' = iSize p -> (forall j, 0 <= j < iSize p -> (bit d p' j <-> j = i \/ bit d p j)) ->
  set_post d p i SQLITE_OK p'.
Proof. intros Hw Hs Hb. constructor; try done; [by left| |by intros j _; apply Hb]. intros j Hj. by apply Hb. Qed.

(** A byte of a bitmap. *)
Lemma bitmap_byte l i f :
  0 <= i < BITVEC_NBIT -> zlen l = BITVEC_NELEM -> bytes_ok l ->
  exists b, l.[i / BITVEC_SZELEM] = Some b /\
    l.[i / BITVEC_SZELEM <- u8 (f b)] = Some (zupd l (i / BITVEC_SZELEM) (u8 (f b))) /\
    zlen (zupd l (i / BITVEC_SZELEM) (u8 (f b))) = BITVEC_NELEM /\
    bytes_ok (zupd l (i / BITVEC_SZELEM) (u8 (f b))) /\
    forall j c, 0 <= j -> (zupd l (i / BITVEC_SZELEM) (u8 (f b))).[j / 8] = Some c ->
      Z.testbit c (j mod 8) =
        if decide (j / 8 = i / 8) then Z.testbit (f b) (j mod 8)
        else Z.testbit (default 0 (l.[j / 8])) (j mod 8).
Proof.
  change BITVEC_NBIT with 3968. change BITVEC_NELEM with 496. change BITVEC_SZELEM with 8.
  intros Hi Hl Hb.
  assert (Hr : 0 <= i / 8 < 496) by (split; [apply Z.div_pos; lia|apply Z.div_lt_upper_bound; lia]).
  destruct (zget_some l (i / 8)) as [b Eb]; [by rewrite Hl|]. exists b.
  split_and!; [done|apply zset_zupd; by rewrite Hl|by rewrite zlen_zupd|apply Forall_zupd; [done|apply u8_ok]|].
  intros j c Hj. rewrite zget_zupd by (by rewrite Hl). case_decide as E1; case_decide as E2; try congruence.
  - intros [= <-]. unfold u8. apply Z.mod_pow2_bits_low. apply Z.mod_pos_bound. lia.
  - by intros ->.
Qed.

Lemma bitmap_get (l : list Z) j : zlen l = BITVEC_NELEM -> 0 <= j < BITVEC_NBIT ->
  l.[j / 8] = Some (default 0 (l.[j / 8])).
Proof.
  change BITVEC_NBIT with 3968. change BITVEC_NELEM with 496. intros Hl Hj.
  destruct (zget_some l (j / 8)) as [b ->]; [|done].
  rewrite Hl. split; [apply Z.div_pos; lia|apply Z.div_lt_upper_bound; lia].
Qed.

Lemma same_bit i j : j / 8 = i / 8 -> j mod 8 = i mod 8 -> j = i.
Proof. intros. symmetry. by apply (bin_inj 8). Qed.

Lemma set_bitmap d sz n l i (fuel : nat) a :
  wf (S d) (mkBitvec sz n 0 (aBitmap l)) -> 0 <= i < sz ->
  exists p', bitvec_set (S fuel) (mkBitvec sz n 0 (aBitmap l)) i a = Some (SQLITE_OK, p', a) /\
    set_post (S d) (mkBitvec sz n 0 (aBitmap l)) i SQLITE_OK p'.
Proof.
  intros (Hr & Hcap & Hs & _ & Hl & Hb) Hi. cbn [bitvec_set].
  rewrite andb_false_r, (proj2 (Z.leb_le _ _) Hs).
  destruct (bitmap_byte l i (fun b => Z.lor b (2 ^ (i mod 8)))) as (b & Eb & Es & Hl' & Hb' & Ht); [lia|done|done|].
  rewrite Eb. cbn. rewrite bit_mask, Es. cbn. eexists. split; [done|].
  apply set_post_eq; [by repeat split; try lia|done|].
  intros j Hj. cbn [iSize] in Hj. cbn [bit].
  assert (Hm : 0 <= i mod 8 < 8 /\ 0 <= j mod 8 < 8) by (split; apply Z.mod_pos_bound; lia).
  assert (Hget : forall L, zlen L = BITVEC_NELEM ->
            ((exists c, L.[j / 8] = Some c /\ Z.testbit c (j mod 8) = true) <->
             Z.testbit (default 0 (L.[j / 8])) (j mod 8) = true)).
  { intros L HL. rewrite (bitmap_get L j HL) by lia. split; [by intros (c & [= <-] & ?)|]. intros. by eexists. }
  rewrite !Hget by done. rewrite (Ht j _ ltac:(lia) (bitmap_get _ j Hl' ltac:(lia))).
  assert (Eb' : default 0 l.[i / 8] = b) by (change (l.[i / 8]) with (l.[i / BITVEC_SZELEM]); by rewrite Eb).
  case_decide as E.
  - rewrite E, Eb', Z.lor_spec, orb_true_iff.
    destruct (decide (j mod 8 = i mod 8)) as [E2|E2].
    + rewrite E2, Z.pow2_bits_true by lia. split; [intros _; left; by apply same_bit|by right].
    + rewrite Z.pow2_bits_false by done. split; [intros [?|?]; [by right|done]|].
      intros [->|?]; [done|by left].
  - split; [by right|]. intros [->|?]; done.
Qed.

Lemma zero_bitvec_wf d n : 0 <= n < 2 ^ 32 -> n <= cap (S d) -> wf (S d) (zero_bitvec n).
Proof.
  intros Hn Hc. unfold zero_bitvec. cbn [wf]. split; [done|]. split; [done|].
  destruct (Z.leb_spec n BITVEC_NBIT).
  - split_and!; try done. apply Forall_replicate. split; lia.
  - split_and!; try done. apply hash_empty. lia.
Qed.

Lemma zero_bitvec_empty d n j : ~ bit (S d) (zero_bitvec n) j \/ j < 0.
Proof.
  destruct (decide (j < 0)); [by right|left]. unfold zero_bitvec. cbn [bit]. destruct (n <=? BITVEC_NBIT).
  - intros (b & Hb & Ht). apply zget_elem_of in Hb. apply elem_of_replicate in Hb as [-> _].
    by rewrite Z.bits_0 in Ht.
  - intros [E _]%elem_of_replicate. lia.
Qed.

Lemma create_cases n a :
  exists a', sqlite3BitvecCreate n a = (Some (zero_bitvec n), a') \/ sqlite3BitvecCreate n a = (None, a').
Proof. unfold sqlite3BitvecCreate. destruct a as [|[] a]; cbn; eauto. Qed.

(** A vector that was divided. *)
Definition divided (p : Bitvec) : Prop :=
  match p with mkBitvec _ _ _ (apSub _) => True | _ => False end.

(** [set] is right on divided vectors of depth [d]. *)
Definition sets_divided (d : nat) (set : Bitvec -> Z -> Alloc -> option (Z * Bitvec * Alloc)) : Prop :=
  forall p i a, wf d p -> divided p -> 0 <= i < iSize p ->
    exists rc p' a', set p i a = Some (rc, p', a') /\ divided p' /\ set_post d p i rc p'.

Lemma set_post_refl_fail d p i : wf d p -> set_post d p i SQLITE_NOMEM p.
Proof. intros Hw. constructor; try done; [by right|by right]. Qed.

Lemma set_divided d fuel :
  (forall p i a, wf d p -> 0 <= i < iSize p ->
     exists rc p' a', bitvec_set fuel p i a = Some (rc, p', a') /\ set_post d p i rc p') ->
  sets_divided (S d) (bitvec_set (S fuel)).
Proof.
  intros IH [sz n div [| |l]] i a Hw Hd Hi; try done. cbn [iSize] in Hi.
  pose proof Hw as (Hr & Hcap & Hs & -> & Hl & Hsub).
  destruct (div_bounds sz Hs) as [Hdiv _]. destruct (bin_range sz i Hs Hi) as [Hbin Hrem].
  destruct (div_cap d sz Hs Hcap) as [Hd0 Hdc]. set (div := (sz + 61) / 62) in *.
  cbn [bitvec_set]. rewrite Z.gtb_ltb, (proj2 (Z.ltb_lt _ _) Hs), (proj2 (Z.eqb_neq div 0)) by lia. cbn [negb andb].
  destruct (zget_some l (i / div)) as [q Eq]; [by rewrite Hl|]. rewrite Eq. cbn.
  (* the vector of the bin, and what it holds *)
  assert (Hq : exists a', match q with Some q => (Some q, a) | None => sqlite3BitvecCreate div a end = (None, a') \/
    exists q0, match q with Some q => (Some q, a) | None => sqlite3BitvecCreate div a end = (Some q0, a') /\
      wf d q0 /\ iSize q0 = div /\
      forall k, 0 <= k -> (bit d q0 k <-> exists q1, q = Some q1 /\ bit d q1 k)).
  { destruct q as [q|].
    - exists a. right. exists q. pose proof (Forall_zget _ _ _ _ Hsub Eq) as [Hqs Hqw].
      split_and!; try done. intros k _. split; [intros; by exists q|]. by intros (q' & [= <-] & ?).
    - destruct d as [|d]; [lia|]. destruct (create_cases div a) as [a' [E|E]]; rewrite E; exists a'; [right|by left].
      exists (zero_bitvec div). split_and!; try done.
      + apply zero_bitvec_wf; [|done]. pose proof (Z.div_le_upper_bound (sz + 61) 62 sz ltac:(lia)). unfold div.
        change BITVEC_NBIT with 3968 in Hs. lia.
      + intros k Hk. destruct (zero_bitvec_empty d div k); [|lia]. split; [done|]. by intros (? & ? & _). }
  destruct Hq as (a' & [->|(q0 & -> & Hqw & Hqs & Hqb)]).
  { exists SQLITE_NOMEM, (mkBitvec sz n div (apSub l)), a'. split_and!; try done. by apply set_post_refl_fail. }
  destruct (IH q0 (i mod div) a' Hqw) as (rc & q' & a2 & -> & [Q1 Q2 Q3 Q4 Q5]); [by rewrite Hqs|].
  cbn. rewrite zset_zupd by (rewrite Hl; exact Hbin). cbn.
  exists rc, (mkBitvec sz n div (apSub (zupd l (i / div) (Some q')))), a2. split_and!; try done.
  assert (Hin : forall j, 0 <= j < sz ->
    bit (S d) (mkBitvec sz n div (apSub (zupd l (i / div) (Some q')))) j <->
    (if decide (j / div = i / div) then bit d q' (j mod div) else bit (S d) (mkBitvec sz n div (apSub l)) j)).
  { intros j Hj. cbn [bit]. rewrite zget_zupd by (rewrite Hl; exact Hbin). case_decide as E1; case_decide as E2; try congruence; [|done].
    split; [by intros (? & [= <-] & ?)|]. intros. by eexists. }
  assert (Hsame : forall j, 0 <= j < sz -> j / div = i / div ->
    bit (S d) (mkBitvec sz n div (apSub l)) j <-> bit d q0 (j mod div)).
  { intros j Hj E. rewrite Hqb by (apply Z.mod_pos_bound; lia). cbn [bit]. rewrite E, Eq.
    split; [intros (q1 & [= ->] & ?); by eexists|]. intros (q1 & -> & ?). by eexists. }
  assert (Hmod : forall j, 0 <= j mod div < iSize q0) by (intros j; rewrite Hqs; by apply Z.mod_pos_bound).
  constructor; cbn [iSize]; try done.
  - cbn [wf]. split_and!; try done; try lia; [by rewrite zlen_zupd|].
    apply Forall_zupd; [done|]. split; [congruence|done].
  - intros j Hj Hb. apply Hin in Hb; [|done]. case_decide as E; [|by right].
    apply Q4 in Hb; [|done]. rewrite Hsame by done. destruct Hb as [Hb|]; [left; by apply (bin_inj div)|by right].
  - intros j Hrc Hj. rewrite Hin by done. case_decide as E.
    + rewrite Hsame, Q5 by done. split; (intros [Hb|?]; [|by right]); [left; by apply (bin_inj div)|by left; subst].
    + split; [by right|]. intros [->|?]; done.
Qed.

Lemma lor_rc rc rc' :
  rc = SQLITE_OK \/ rc = SQLITE_NOMEM -> rc' = SQLITE_OK \/ rc' = SQLITE_NOMEM ->
  (Z.lor rc rc' = SQLITE_OK \/ Z.lor rc rc' = SQLITE_NOMEM) /\
  (Z.lor rc rc' = SQLITE_OK -> rc = SQLITE_OK /\ rc' = SQLITE_OK).
Proof. intros [-> | ->] [-> | ->]; cbn; split; auto; discriminate. Qed.

Lemma set_values_ok d set T :
  sets_divided d set -> forall rc p a,
  wf d p -> divided p -> rc = SQLITE_OK \/ rc = SQLITE_NOMEM -> Forall (fun v => 0 <= v <= iSize p) T ->
  exists rc' p' a', set_values set T rc p a = Some (rc', p', a') /\ wf d p' /\ iSize p' = iSize p /\
    (rc' = SQLITE_OK \/ rc' = SQLITE_NOMEM) /\
    (forall j, 0 <= j < iSize p -> bit d p' j -> bit d p j \/ j + 1 ∈ T) /\
    (rc' = SQLITE_OK -> rc = SQLITE_OK /\
       forall j, 0 <= j < iSize p -> (bit d p' j <-> bit d p j \/ j + 1 ∈ T)).
Proof.
  intros Hset. induction T as [|v T IH]; intros rc p a Hw Hd Hrc HT; cbn [set_values].
  - exists rc, p, a. split_and!; try done; [by left|]. intros ->. split; [done|]. intros j _.
    rewrite elem_of_nil. tauto.
  - apply Forall_cons_1 in HT as [Hv HT]. destruct (Z.eqb_spec v 0) as [->|Hv0].
    { destruct (IH rc p a Hw Hd Hrc HT) as (rc' & p' & a' & -> & H1 & H2 & H3 & H4 & H5).
      exists rc', p', a'. split_and!; try done.
      - intros j Hj Hb. destruct (H4 j Hj Hb); [by left|right; apply elem_of_cons; by right].
      - intros E. destruct (H5 E) as [? Hb]. split; [done|]. intros j Hj. rewrite Hb, elem_of_cons by done.
        split; [tauto|]. intros [?|[?|?]]; [by left|lia|by right]. }
    destruct (Hset p (v - 1) a Hw Hd) as (rc1 & p1 & a1 & -> & Hd1 & [P1 P2 P3 P4 P5]); [lia|]. cbn.
    destruct (lor_rc rc rc1 Hrc P3) as [Hor Hor0].
    destruct (IH (Z.lor rc rc1) p1 a1 P1 Hd1 Hor) as (rc' & p' & a' & -> & H1 & H2 & H3 & H4 & H5); [by rewrite P2|].
    exists rc', p', a'. rewrite P2 in *. split_and!; try done.
    + intros j Hj Hb. rewrite elem_of_cons. destruct (H4 j Hj Hb) as [Hb1|?]; [|tauto].
      destruct (P4 j Hj Hb1); [right; left; lia|by left].
    + intros E. destruct (H5 E) as [Eor Hb]. destruct (Hor0 Eor) as [-> E1]. split; [done|].
      intros j Hj. rewrite Hb, P5, elem_of_cons by done. intuition lia.
Qed.

Lemma empty_divided_wf d sz n :
  0 <= sz < 2 ^ 32 -> sz <= cap (S d) -> BITVEC_NBIT < sz ->
  wf (S d) (mkBitvec sz n ((sz + 61) / 62) (apSub (replicate (Z.to_nat BITVEC_NPTR) None))).
Proof. intros H1 H2 H3. split_and!; try done; try lia. by apply Forall_replicate. Qed.

Lemma set_rehash_ok d sz n T fuel i dm a :
  sets_divided (S d) (bitvec_set fuel) -> wf (S d) (mkBitvec sz n 0 (aHash T)) ->
  1 <= i <= sz -> i ∉ T -> 0 <= dm < NINT -> T.[slot NINT (BITVEC_HASH (i - 1)) dm] = Some 0 ->
  chain NINT T (fun v => v <> 0) (BITVEC_HASH (i - 1)) dm ->
  exists rc p' a', set_rehash (bitvec_set fuel) sz n (slot NINT (BITVEC_HASH (i - 1)) dm) i T a = Some (rc, p', a') /\
    set_post (S d) (mkBitvec sz n 0 (aHash T)) (i - 1) rc p'.
Proof.
  intros Hset Hw Hi Hni Hdm Hz Hc. pose proof Hw as (Hr & Hcap & Hs & _ & Hn & Ho).
  unfold set_rehash. change BITVEC_MXHASH with 62. change BITVEC_NPTR with 62.
  destruct (Z.geb_spec n 62) as [Hfull|Hroom].
  - destruct (malloc a) as [[] a'].
    2:{ exists SQLITE_NOMEM, (mkBitvec sz n 0 (aHash T)), a'. split; [done|]. by apply set_post_refl_fail. }
    replace (sz + 62 - 1) with (sz + 61) by lia.
    assert (Hdr : 0 <= (sz + 61) / 62 < 2 ^ 32).
    { split; [apply Z.div_pos; lia|]. apply Z.div_lt_upper_bound; lia. }
    rewrite u32_small by lia. set (p0 := mkBitvec _ _ _ (apSub _)).
    assert (Hw0 : wf (S d) p0) by (by apply empty_divided_wf).
    assert (He0 : forall j, 0 <= j < sz -> ~ bit (S d) p0 j).
    { intros j Hj (q & Hq & _). apply zget_elem_of, elem_of_replicate in Hq as [? _]. done. }
    destruct (Hset p0 (i - 1) a' Hw0 I) as (rc1 & p1 & a1 & -> & Hd1 & [P1 P2 P3 P4 P5]); [cbn; lia|]. cbn.
    destruct (set_values_ok (S d) (bitvec_set fuel) T Hset rc1 p1 a1 P1 Hd1 P3)
      as (rc & p' & a2 & -> & H1 & H2 & H3 & H4 & H5).
    { rewrite P2. apply Forall_forall. intros v [s Hv]%list_elem_of_In%elem_of_zget. cbn. by eapply ho_range. }
    exists rc, p', a2. split; [done|]. rewrite P2 in *. cbn [iSize p0] in *.
    constructor; try done; cbn [iSize].
    + intros j Hj Hb. destruct (H4 j Hj Hb) as [Hb1|?]; [|by right].
      left. destruct (P4 j Hj Hb1) as [->|Hb0]; [done|]. by destruct (He0 j Hj).
    + intros j Hrc Hj. destruct (H5 Hrc) as [E Hb]. rewrite Hb, P5 by done.
      change (bit (S d) (mkBitvec sz n 0 (aHash T)) j) with (j + 1 ∈ T). pose proof (He0 j Hj). tauto.
  - rewrite zset_zupd by (by apply zget_range in Hz). cbn. rewrite u32_small by lia.
    eexists _, _, _. split; [done|]. apply set_post_eq; [|done|].
    + split_and!; try done; try lia. apply hash_insert; try done. lia.
    + intros j Hj. cbn [bit iSize] in *. rewrite elem_of_zupd by (done || lia).
      split; (intros [?|?]; [left; lia|by right]).
Qed.

Lemma set_hash d sz n T fuel i a :
  sets_divided (S d) (bitvec_set fuel) -> wf (S d) (mkBitvec sz n 0 (aHash T)) -> 0 <= i < sz ->
  exists rc p' a', bitvec_set (S fuel) (mkBitvec sz n 0 (aHash T)) i a = Some (rc, p', a') /\
    set_post (S d) (mkBitvec sz n 0 (aHash T)) i rc p'.
Proof.
  intros Hset Hw Hi. pose proof Hw as (Hr & Hcap & Hs & _ & Hn & Ho).
  cbn [bitvec_set]. rewrite andb_false_r, (proj2 (Z.leb_gt _ _) Hs), (u32_small (i + 1)) by lia.
  pose proof (hash_range i) as Hh. assert (Ei : i = i + 1 - 1) by lia.
  destruct (hash_probe _ _ _ (BITVEC_HASH i) Ho) as (dm & Hdm & Hz & Hc).
  assert (Hpost : forall rc p', set_post (S d) (mkBitvec sz n 0 (aHash T)) (i + 1 - 1) rc p' ->
            set_post (S d) (mkBitvec sz n 0 (aHash T)) i rc p') by (by rewrite <- Ei).
  assert (Hrehash : i + 1 ∉ T -> exists rc p' a',
    set_rehash (bitvec_set fuel) sz n (slot NINT (BITVEC_HASH i) dm) (i + 1) T a = Some (rc, p', a') /\
    set_post (S d) (mkBitvec sz n 0 (aHash T)) i rc p').
  { intros Hni. destruct (set_rehash_ok d sz n T fuel (i + 1) dm a) as (rc & p' & a' & E & Hp);
      rewrite <- ?Ei; try done; [lia|]. exists rc, p', a'. rewrite <- Ei in E. split; [done|]. by apply Hpost. }
  assert (Hnot : (forall e, 0 <= e < dm -> T.[slot NINT (BITVEC_HASH i) e] <> Some (i + 1)) -> i + 1 ∉ T).
  { intros Hno Hin. pose proof (hash_where sz n T (i + 1) dm Ho ltac:(lia) Hdm) as Hw2.
    rewrite <- Ei in Hw2. apply (Hw2 Hz) in Hin as (e & He & E).
    by apply (Hno e He). }
  destruct (decide (dm = 0)) as [->|Hdm0].
  - rewrite slot_0 in Hz by lia. rewrite Hz. cbn.
    assert (Hni : i + 1 ∉ T) by (apply Hnot; intros; lia).
    change (BITVEC_NINT - 1) with 123. destruct (Z.ltb_spec n 123) as [Hlt|Hge].
    + rewrite zset_zupd by (by apply zget_range in Hz). cbn. rewrite u32_small by lia.
      eexists _, _, _. split; [done|]. apply set_post_eq; [|done|].
      * split_and!; try done; try lia.
        pose proof (hash_insert sz n T (i + 1) 0) as Hins. rewrite <- Ei, slot_0 in Hins by lia.
        apply Hins; try done; lia.
      * intros j Hj. cbn [bit iSize] in *. rewrite elem_of_zupd by (done || lia).
        split; (intros [?|?]; [left; lia|by right]).
    + specialize (Hrehash Hni). by rewrite slot_0 in Hrehash by lia.
  - destruct (Hc 0 ltac:(lia)) as (v & Ev & Hv). rewrite slot_0 in Ev by lia. rewrite Ev. cbn [mbind option_bind].
    rewrite (proj2 (Z.eqb_neq _ _) Hv).
    pose proof (hash_slot_run T (i + 1) (BITVEC_HASH i) dm (S (Z.to_nat BITVEC_NINT)) 0) as Hrun.
    rewrite slot_0 in Hrun by lia. change BITVEC_NINT with NINT in Hrun |- *.
    destruct Hrun as [[E Hin]|[E Hno]]; try done; try lia; rewrite E; cbn [mbind option_bind].
    + eexists _, _, _. split; [done|]. apply set_post_eq; [done|done|]. intros j Hj. cbn [bit].
      split; [by right|]. by intros [->|?].
    + by apply Hrehash, Hnot.
Qed.

Lemma bitvec_set_ok d : forall fuel p i a,
  (2 * d <= fuel)%nat -> wf d p -> 0 <= i < iSize p ->
  exists rc p' a', bitvec_set fuel p i a = Some (rc, p', a') /\ set_post d p i rc p'.
Proof.
  induction d as [|d IH]; intros fuel p i a Hf Hw Hi; [done|].
  destruct fuel as [|[|fuel]]; [lia|lia|].
  assert (Hdiv : sets_divided (S d) (bitvec_set (S fuel))).
  { apply set_divided. intros q j b Hq Hj. apply IH; [lia|done|done]. }
  destruct p as [sz n div [l|T|l]]; pose proof Hw as (_ & _ & Hu).
  - destruct Hu as (_ & -> & _). destruct (set_bitmap d sz n l i (S fuel) a Hw Hi) as (p' & E & Hp). eauto.
  - destruct Hu as (_ & -> & _). by apply set_hash.
  - assert (Hdiv' : sets_divided (S d) (bitvec_set (S (S fuel)))).
    { apply set_divided. intros q j b Hq Hj. apply IH; [lia|done|done]. }
    destruct (Hdiv' (mkBitvec sz n div (apSub l)) i a Hw I Hi) as (rc & p' & a' & E & _ & Hp). eauto.
Qed.

(** * Clearing *)

(** What clearing the bit [i] leaves. *)
Record clear_post (d : nat) (p : Bitvec) (i : Z) (p' : Bitvec) : Prop := {
  cp_wf : wf d p';
  cp_size : iSize p' = iSize p;
  cp_bits j : 0 <= j < iSize p -> (bit d p' j <-> j <> i /\ bit d p j);
}.

Lemma clear_bitmap d sz n l i fuel :
  wf (S d) (mkBitvec sz n 0 (aBitmap l)) -> 0 <= i < sz ->
  exists p', bitvec_clear (S fuel) (mkBitvec sz n 0 (aBitmap l)) i = Some p' /\
    clear_post (S d) (mkBitvec sz n 0 (aBitmap l)) i p'.
Proof.
  intros (Hr & Hcap & Hs & _ & Hl & Hb) Hi. cbn [bitvec_clear].
  cbn [Z.eqb negb]. rewrite (proj2 (Z.leb_le _ _) Hs).
  destruct (bitmap_byte l i (fun b => Z.land b (Z.lnot (2 ^ (i mod 8))))) as (b & Eb & Es & Hl' & Hb' & Ht); [lia|done|done|].
  rewrite Eb. cbn. rewrite bit_mask, Es. cbn. eexists. split; [done|].
  constructor; [by repeat split; try lia|done|].
  intros j Hj. cbn [iSize] in Hj. cbn [bit].
  assert (Hm : 0 <= i mod 8 < 8 /\ 0 <= j mod 8 < 8) by (split; apply Z.mod_pos_bound; lia).
  assert (Hget : forall L, zlen L = BITVEC_NELEM ->
            ((exists c, L.[j / 8] = Some c /\ Z.testbit c (j mod 8) = true) <->
             Z.testbit (default 0 (L.[j / 8])) (j mod 8) = true)).
  { intros L HL. rewrite (bitmap_get L j HL) by lia. split; [by intros (c & [= <-] & ?)|]. intros. by eexists. }
  rewrite !Hget by done. rewrite (Ht j _ ltac:(lia) (bitmap_get _ j Hl' ltac:(lia))).
  assert (Eb' : default 0 l.[i / 8] = b) by (change (l.[i / 8]) with (l.[i / BITVEC_SZELEM]); by rewrite Eb).
  case_decide as E.
  - rewrite E, Eb', Z.land_spec, Z.lnot_spec, andb_true_iff, negb_true_iff by lia.
    destruct (decide (j mod 8 = i mod 8)) as [E2|E2].
    + rewrite E2, Z.pow2_bits_true by lia. split; [by intros [_ ?]|]. intros [Hne _].
      destruct Hne. by apply same_bit.
    + rewrite Z.pow2_bits_false by done. split; [intros [? _]; split; [by intros ->|done]|by intros [_ ?]].
  - split; [intros ?; split; [by intros ->|done]|by intros [_ ?]].
Qed.

Lemma clear_hash d sz n T i fuel :
  wf (S d) (mkBitvec sz n 0 (aHash T)) -> 0 <= i < sz ->
  exists p', bitvec_clear (S fuel) (mkBitvec sz n 0 (aHash T)) i = Some p' /\
    clear_post (S d) (mkBitvec sz n 0 (aHash T)) i p'.
Proof.
  intros (Hr & Hcap & Hs & _ & Hn & Ho) Hi. cbn [bitvec_clear].
  cbn [Z.eqb negb]. rewrite (proj2 (Z.leb_gt _ _) Hs), (u32_small (i + 1)) by lia.
  destruct (clear_values_ok sz (i + 1) T 0 (replicate (Z.to_nat BITVEC_NINT) 0)) as (n' & T' & E & Ho' & Hm).
  - apply hash_empty. lia.
  - lia.
  - rewrite (ho_used _ _ _ Ho). apply (ho_max _ _ _ Ho).
  - apply Forall_forall. intros v [s Hv]%list_elem_of_In%elem_of_zget. by eapply ho_range.
  - by eapply hash_nodup.
  - intros v Hv _ [-> _]%elem_of_replicate. done.
  - rewrite E. cbn [mbind option_bind]. eexists. split; [done|]. constructor; [|done|].
    + split_and!; try done; try lia. pose proof (zlen_nonneg (filter (fun v => v <> 0) T')) as Hu.
      rewrite <- (ho_used _ _ _ Ho'). done.
    + intros j Hj. cbn [bit iSize] in *. rewrite Hm by lia. rewrite elem_of_replicate. intuition lia.
Qed.

Lemma bitvec_clear_ok d : forall fuel p i,
  (d <= fuel)%nat -> wf d p -> 0 <= i < iSize p ->
  exists p', bitvec_clear fuel p i = Some p' /\ clear_post d p i p'.
Proof.
  induction d as [|d IH]; intros fuel p i Hf Hw Hi; [done|].
  destruct fuel as [|fuel]; [lia|]. destruct p as [sz n div [l|T|l]]; pose proof Hw as (Hr & Hcap & Hu).
  - destruct Hu as (_ & -> & _). by apply clear_bitmap.
  - destruct Hu as (_ & -> & _). by apply clear_hash.
  - destruct Hu as (Hs & -> & Hl & Hsub). cbn [iSize] in Hi.
    destruct (div_bounds sz Hs) as [Hdiv _]. destruct (bin_range sz i Hs Hi) as [Hbin Hrem].
    set (div := (sz + 61) / 62) in *. cbn [bitvec_clear]. rewrite (proj2 (Z.eqb_neq div 0)) by lia. cbn [negb].
    destruct (zget_some l (i / div)) as [q Eq]; [by rewrite Hl|]. rewrite Eq. cbn [mbind option_bind].
    pose proof (Forall_zget _ _ _ _ Hsub Eq) as Hq. destruct q as [q|].
    2:{ eexists. split; [done|]. constructor; [done|done|]. intros j Hj. cbn [bit].
        split; [|by intros [_ ?]]. intros Hb. split; [|done]. intros ->. destruct Hb as (q & E & _). congruence. }
    destruct Hq as [Hqs Hqw].
    destruct (IH fuel q (i mod div)) as (q' & -> & [Q1 Q2 Q3]); [lia|done|by rewrite Hqs|].
    cbn [mbind option_bind]. rewrite zset_zupd by (rewrite Hl; exact Hbin). cbn [mbind option_bind].
    eexists. split; [done|]. constructor; [|done|].
    + cbn [wf]. split_and!; try done; try lia; [by rewrite zlen_zupd|].
      apply Forall_zupd; [done|]. split; [congruence|done].
    + intros j Hj. cbn [iSize] in Hj. cbn [bit]. rewrite zget_zupd by (rewrite Hl; exact Hbin).
      assert (Hmod : 0 <= j mod div < iSize q) by (rewrite Hqs; by apply Z.mod_pos_bound).
      case_decide as E.
      * rewrite <- E, Eq. split.
        -- intros (q1 & [= <-] & Hb). apply Q3 in Hb as [Hne Hb]; [|done]. split; [by intros ->|by exists q].
        -- intros [Hne (q1 & [= <-] & Hb)]. exists q'. split; [done|]. apply Q3; [done|]. split; [|done].
           intros Er. apply Hne. by apply (bin_inj div).
      * split; [|by intros [_ ?]]. intros Hb. split; [by intros ->|done].
Qed.

(** * Properties *)

(** A vector is well formed at the depth that suffices for every size. *)
Definition bitvec_ok (p : Bitvec) : Prop := wf BITVEC_DEPTH p.

Lemma create_ok n : 0 <= n < 2 ^ 32 -> bitvec_ok (zero_bitvec n).
Proof. intros Hn. apply zero_bitvec_wf; [done|]. change (cap 5) with 58632501248. lia. Qed.

Lemma index_range p i : bitvec_ok p -> 1 <= i <= iSize p -> u32 (i - 1) = i - 1 /\ 0 <= i - 1 < iSize p.
Proof. intros Hp Hi. apply wf_iSize in Hp. rewrite u32_small by lia. lia. Qed.

Lemma sqlite3BitvecSet_ok p i a : bitvec_ok p -> 1 <= i <= iSize p ->
  exists rc p' a', sqlite3BitvecSet (Some p) i a = Some (rc, Some p', a') /\
    set_post BITVEC_DEPTH p (i - 1) rc p'.
Proof.
  intros Hp Hi. destruct (index_range p i Hp Hi) as [Eu Hr].
  destruct (bitvec_set_ok BITVEC_DEPTH (2 * BITVEC_DEPTH) p (i - 1) a) as (rc & p' & a' & E & Hpost);
    [lia|done|done|].
  exists rc, p', a'. unfold sqlite3BitvecSet. by rewrite Eu, E.
Qed.

Lemma sqlite3BitvecClear_ok p i : bitvec_ok p -> 1 <= i <= iSize p ->
  exists p', sqlite3BitvecClear (Some p) i = Some (Some p') /\ clear_post BITVEC_DEPTH p (i - 1) p'.
Proof.
  intros Hp Hi. destruct (index_range p i Hp Hi) as [Eu Hr].
  destruct (bitvec_clear_ok BITVEC_DEPTH BITVEC_DEPTH p (i - 1)) as (p' & E & Hpost); [lia|done|done|].
  exists p'. unfold sqlite3BitvecClear. by rewrite Eu, E.
Qed.

Lemma sqlite3BitvecTest_ok p i : bitvec_ok p -> 0 <= i < 2 ^ 32 ->
  exists b, sqlite3BitvecTest (Some p) i = Some b /\
    (b = true <-> 1 <= i <= iSize p /\ bit BITVEC_DEPTH p (i - 1)).
Proof.
  intros Hp Hi. cbn [sqlite3BitvecTest]. unfold sqlite3BitvecTestNotNull. pose proof (wf_iSize _ _ Hp) as Hs.
  destruct (decide (i = 0)) as [->|].
  { change (u32 (0 - 1)) with 4294967295. destruct (Z.geb_spec 4294967295 (iSize p)); [|lia].
    exists false. split; [done|]. split; [done|lia]. }
  rewrite u32_small by lia. destruct (Z.geb_spec (i - 1) (iSize p)).
  { exists false. split; [done|]. split; [done|lia]. }
  destruct (bitvec_test_ok BITVEC_DEPTH BITVEC_DEPTH p (i - 1)) as (b & E & Hb); [lia|done|lia|].
  exists b. split; [done|]. rewrite Hb. split; [intros; split; [lia|done]|by intros [_ ?]].
Qed.

(** C29.  Every vector that is created is well formed, setting and clearing a
    bit in range keep it so whatever allocations fail, and none of the
    operations has undefined behaviour or fails to end. *)
Theorem bitvec_well_formed :
  (forall n a p a', 0 <= n < 2 ^ 32 -> sqlite3BitvecCreate n a = (Some p, a') ->
     bitvec_ok p /\ iSize p = n) /\
  (forall p i a, bitvec_ok p -> 1 <= i <= iSize p ->
     exists rc p' a', sqlite3BitvecSet (Some p) i a = Some (rc, Some p', a') /\
       bitvec_ok p' /\ iSize p' = iSize p /\ (rc = SQLITE_OK \/ rc = SQLITE_NOMEM)) /\
  (forall p i, bitvec_ok p -> 1 <= i <= iSize p ->
     exists p', sqlite3BitvecClear (Some p) i = Some (Some p') /\ bitvec_ok p' /\ iSize p' = iSize p) /\
  (forall p i, bitvec_ok p -> 0 <= i < 2 ^ 32 -> exists b, sqlite3BitvecTest (Some p) i = Some b).
Proof.
  split_and!.
  - intros n a p a' Hn. unfold sqlite3BitvecCreate. destruct (malloc a) as [[] a2]; intros [= <- <-].
    split; [by apply create_ok|done].
  - intros p i a Hp Hi. destruct (sqlite3BitvecSet_ok p i a Hp Hi) as (rc & p' & a' & E & []). eauto 10.
  - intros p i Hp Hi. destruct (sqlite3BitvecClear_ok p i Hp Hi) as (p' & E & []). eauto.
  - intros p i Hp Hi. destruct (sqlite3BitvecTest_ok p i Hp Hi) as (b & E & _). eauto.
Qed.

(** Programs of operations, and the set they compute. *)
Inductive op := OpSet (i : Z) | OpClear (i : Z).
Definition op_arg (o : op) : Z := match o with OpSet i | OpClear i => i end.

Fixpoint run (ops : list op) (p : option Bitvec) (a : Alloc) : option (list Z * option Bitvec) :=
  match ops with
  | [] => Some ([], p)
  | OpSet i :: ops =>
      '(rc, p, a) ← sqlite3BitvecSet p i a; '(rcs, p) ← run ops p a; Some (rc :: rcs, p)
  | OpClear i :: ops => p ← sqlite3BitvecClear p i; run ops p a
  end.

Fixpoint run_set (ops : list op) (X : gset Z) : gset Z :=
  match ops with
  | [] => X
  | OpSet i :: ops => run_set ops ({[i]} ∪ X)
  | OpClear i :: ops => run_set ops (X ∖ {[i]})
  end.

(** The vector [p] holds the bits of [X]. *)
Definition holds (p : Bitvec) (X : gset Z) : Prop :=
  bitvec_ok p /\ (forall i, i ∈ X -> 1 <= i <= iSize p) /\
  forall i, 1 <= i <= iSize p -> (bit BITVEC_DEPTH p (i - 1) <-> i ∈ X).

Lemma run_total ops : forall a p, bitvec_ok p -> Forall (fun o => 1 <= op_arg o <= iSize p) ops ->
  exists rcs p', run ops (Some p) a = Some (rcs, Some p') /\ iSize p' = iSize p /\ bitvec_ok p'.
Proof.
  induction ops as [|[i|i] ops IH]; intros a p Hp Hops; cbn [run]; [by exists [], p|..];
    apply Forall_cons_1 in Hops as [Hi Hops]; cbn [op_arg] in Hi.
  - destruct (sqlite3BitvecSet_ok p i a Hp Hi) as (rc & p1 & a1 & -> & [H1 H2 _ _ _]).
    cbn [mbind option_bind]. destruct (IH a1 p1 H1) as (rcs & p' & -> & H3 & H4); [by rewrite H2|].
    exists (rc :: rcs), p'. split_and!; [done|congruence|done].
  - destruct (sqlite3BitvecClear_ok p i Hp Hi) as (p1 & -> & [H1 H2 _]).
    cbn [mbind option_bind]. destruct (IH a p1 H1) as (rcs & p' & -> & H3 & H4); [by rewrite H2|].
    exists rcs, p'. split_and!; [done|congruence|done].
Qed.

Lemma run_ok ops : forall p X a,
  holds p X -> Forall (fun o => 1 <= op_arg o <= iSize p) ops ->
  exists rcs p', run ops (Some p) a = Some (rcs, Some p') /\ iSize p' = iSize p /\ bitvec_ok p' /\
    (Forall (fun rc => rc = SQLITE_OK) rcs -> holds p' (run_set ops X)).
Proof.
  induction ops as [|o ops IH]; intros p X a Hh Hops; cbn [run run_set].
  { exists [], p. split_and!; try done. apply Hh. }
  apply Forall_cons_1 in Hops as [Hi Hops]. pose proof Hh as (Hp & Hin & Hb).
  destruct o as [i|i]; cbn [op_arg] in Hi.
  - destruct (sqlite3BitvecSet_ok p i a Hp Hi) as (rc & p1 & a1 & -> & [P1 P2 P3 P4 P5]).
    cbn [mbind option_bind]. destruct (decide (rc = SQLITE_OK)) as [->|Hne].
    + destruct (IH p1 ({[i]} ∪ X) a1) as (rcs & p' & -> & H1 & H2 & H3); [|by rewrite P2|].
      * split; [done|]. rewrite P2. split; [set_solver|]. intros j Hj. rewrite P5 by (done || lia).
        rewrite (Hb j Hj). set_unfold. intuition lia.
      * cbn [mbind option_bind]. exists (SQLITE_OK :: rcs), p'. split_and!; try done; [congruence|].
        intros [_ Hok]%Forall_cons_1. by apply H3.
    + destruct (run_total ops a1 p1 P1) as (rcs & p' & -> & H1 & H2); [by rewrite P2|].
      cbn [mbind option_bind]. exists (rc :: rcs), p'. split_and!; try done; [congruence|].
      by intros [? _]%Forall_cons_1.
  - destruct (sqlite3BitvecClear_ok p i Hp Hi) as (p1 & -> & [P1 P2 P3]). cbn [mbind option_bind].
    destruct (IH p1 (X ∖ {[i]}) a) as (rcs & p' & -> & H1 & H2 & H3); [|by rewrite P2|].
    + split; [done|]. rewrite P2. split; [set_solver|]. intros j Hj. rewrite P3 by lia.
      rewrite (Hb j Hj). set_unfold. intuition lia.
    + exists rcs, p'. split_and!; try done. congruence.
Qed.

(** C30.  A bit vector is a set: after any sequence of insertions and removals
    in range, from an empty vector of any size, the sequence ends, and when
    every insertion returned SQLITE_OK each number is found exactly if the
    same operations on a set leave it there. *)
Theorem bitvec_refines_set ops n a :
  0 <= n < 2 ^ 32 -> Forall (fun o => 1 <= op_arg o <= n) ops ->
  exists rcs p, run ops (Some (zero_bitvec n)) a = Some (rcs, Some p) /\ sqlite3BitvecSize p = n /\
    (Forall (fun rc => rc = SQLITE_OK) rcs -> forall i, 0 <= i < 2 ^ 32 ->
       sqlite3BitvecTest (Some p) i = Some (bool_decide (i ∈ run_set ops ∅))).
Proof.
  intros Hn Hops. destruct (run_ok ops (zero_bitvec n) ∅ a) as (rcs & p & -> & H1 & H2 & H3); [|done|].
  - split; [by apply create_ok|]. split; [set_solver|]. intros i Hi.
    destruct (zero_bitvec_empty 4 n (i - 1)); [set_solver|lia].
  - exists rcs, p. split_and!; [done|done|]. intros Hok i Hi. destruct (H3 Hok) as (Hp & Hin & Hb).
    destruct (sqlite3BitvecTest_ok p i Hp Hi) as (b & -> & Htb). f_equal.
    destruct b; symmetry; [apply bool_decide_eq_true|apply bool_decide_eq_false].
    + destruct Htb as [Ht _]. destruct (Ht eq_refl). by apply Hb.
    + intros Hi2. destruct Htb as [_ Ht]. discriminate Ht. split; [by apply Hin|by apply Hb, Hi2; apply Hin].
Qed.

Definition sample_ops : list op :=
  (OpSet ∘ Z.mul 124 <$> seqZ 1 80) ++ [OpClear 12400; OpClear 248; OpSet 7].

Lemma bitvec_refines_set_witness :
  exists rcs p, run sample_ops (Some (zero_bitvec 1000000)) [] = Some (rcs, Some p) /\ sqlite3BitvecSize p = 1000000 /\
    (Forall (fun rc => rc = SQLITE_OK) rcs -> forall i, 0 <= i < 2 ^ 32 ->
       sqlite3BitvecTest (Some p) i = Some (bool_decide (i ∈ run_set sample_ops ∅))).
Proof.
  apply (bitvec_refines_set sample_ops 1000000 []); [split; [lia|reflexivity]|].
  apply (bool_decide_unpack _). vm_compute. exact I.
Defined.

Lemma bitvec_well_formed_witness :
  exists rc p' a', sqlite3BitvecSet (Some (zero_bitvec 5000)) 4999 [] = Some (rc, Some p', a') /\
    bitvec_ok p' /\ iSize p' = 5000 /\ (rc = SQLITE_OK \/ rc = SQLITE_NOMEM).
Proof.
  apply (proj1 (proj2 bitvec_well_formed) (zero_bitvec 5000) 4999 []); [apply create_ok; lia|cbn; lia].
Defined.
