(* ===== verification/Rowset.v ===== *)
(** Sets of row ids (rowset.c): a list of insertions that is sorted when it is
    first read, or a forest of balanced trees that are tested for membership
    batch by batch. *)
From Stdlib Require Import Sorting.Sorted.
From S2P Require Import Prelude.
Open Scope Z_scope.

Local Abbreviation last := stdpp.list_basics.list.last.

(** Entries are linked through [pRight] into a list, or through [pLeft] and
    [pRight] into a tree; a null pointer is the empty list or [Leaf]. *)
Inductive tree := Leaf | Node (pLeft : tree) (v : Z) (pRight : tree).

Definition ROWSET_ALLOCATION_SIZE : Z := 1024.
Definition ROWSET_ENTRY_PER_CHUNK : Z := (ROWSET_ALLOCATION_SIZE - 8) / 24.
Definition ROWSET_SORTED : Z := 0x01.
Definition ROWSET_NEXT : Z := 0x02.

(** [pLast] is the last element of [pEntry]; the forest is the list of the
    trees of its entries. *)
Record RowSet := mkRowSet {
  pEntry : list Z;
  pForest : list tree;
  nFresh : Z;
  rsFlags : Z;
  iBatch : Z;
}.

(** [N] is the size of the allocation that the allocator reports. *)
Definition sqlite3RowSetInit (N : Z) (a : Alloc) : option RowSet * Alloc :=
  let '(ok, a) := malloc a in
  (if ok then Some (mkRowSet [] [] (u16 ((N - 56) / 24)) ROWSET_SORTED 0) else None, a).

Definition sqlite3RowSetClear (p : RowSet) : RowSet := mkRowSet [] [] 0 ROWSET_SORTED (iBatch p).

(** Whether an entry is to be had. *)
Definition rowSetEntryAlloc (p : RowSet) (a : Alloc) : bool * RowSet * Alloc :=
  let '(ok, p, a) :=
    if nFresh p =? 0 then
      let '(ok, a) := malloc a in
      if ok : bool
      then (true, mkRowSet (pEntry p) (pForest p) ROWSET_ENTRY_PER_CHUNK (rsFlags p) (iBatch p), a)
      else (false, p, a)
    else (true, p, a) in
  if ok : bool
  then (true, mkRowSet (pEntry p) (pForest p) (u16 (nFresh p - 1)) (rsFlags p) (iBatch p), a)
  else (false, p, a).

(** Whether the row id was inserted; the flag [mallocFailed] of the connection
    is set when not. *)
Definition sqlite3RowSetInsert (p : RowSet) (rowid : Z) (a : Alloc) : bool * RowSet * Alloc :=
  let '(ok, p, a) := rowSetEntryAlloc p a in
  if ok : bool then
    let flags := match last (pEntry p) with
                 | Some v => if rowid <=? v then Z.land (rsFlags p) (Z.lnot ROWSET_SORTED) else rsFlags p
                 | None => rsFlags p
                 end in
    (true, mkRowSet (pEntry p ++ [rowid]) (pForest p) (nFresh p) flags (iBatch p), a)
  else (false, p, a).

(** Merging two lists; an element of the first that the second holds is
    dropped. *)
Fixpoint rowSetEntryMerge (fuel : nat) (pA pB : list Z) : option (list Z) :=
  match fuel with
  | O => None
  | S fuel =>
      match pA, pB with
      | a :: pA', b :: pB' =>
          if a <=? b then
            r ← (match pA' with [] => Some pB | _ => rowSetEntryMerge fuel pA' pB end);
            Some (if a <? b then a :: r else r)
          else
            r ← (match pB' with [] => Some pA | _ => rowSetEntryMerge fuel pA pB' end);
            Some (b :: r)
      | _, _ => None
      end
  end.

Definition merge (pA pB : list Z) : option (list Z) :=
  rowSetEntryMerge (length pA + length pB) pA pB.

(** One element into the buckets from [i] on: [for(i=0; aBucket[i]; i++)]. *)
Fixpoint bucket_add (pIn : list Z) (aBucket : list (list Z)) : option (list (list Z)) :=
  match aBucket with
  | [] => None
  | [] :: aBucket => Some (pIn :: aBucket)
  | b :: aBucket =>
      pIn ← merge b pIn;
      r ← bucket_add pIn aBucket;
      Some ([] :: r)
  end.

Fixpoint bucket_all (pIn : list Z) (aBucket : list (list Z)) : option (list (list Z)) :=
  match pIn with
  | [] => Some aBucket
  | v :: pIn => aBucket ← bucket_add [v] aBucket; bucket_all pIn aBucket
  end.

(** The final loop. *)
Fixpoint bucket_merge (pIn : list Z) (aBucket : list (list Z)) : option (list Z) :=
  match aBucket with
  | [] => Some pIn
  | [] :: aBucket => bucket_merge pIn aBucket
  | b :: aBucket =>
      pIn ← (match pIn with [] => Some b | _ => merge pIn b end);
      bucket_merge pIn aBucket
  end.

Definition rowSetEntrySort (pIn : list Z) : option (list Z) :=
  aBucket ← bucket_all pIn (replicate 40 []);
  match aBucket with
  | [] => None
  | b :: aBucket => bucket_merge b aBucket
  end.

Fixpoint rowSetTreeToList (pIn : tree) : list Z :=
  match pIn with
  | Leaf => []
  | Node l v r => rowSetTreeToList l ++ v :: rowSetTreeToList r
  end.

(** The tree, and what is left of the list. *)
Fixpoint rowSetNDeepTree (iDepth : nat) (l : list Z) : tree * list Z :=
  match l with
  | [] => (Leaf, [])
  | v :: l' =>
      match iDepth with
      | S (S _ as iDepth') =>
          let '(pLeft, l1) := rowSetNDeepTree iDepth' l in
          match l1 with
          | [] => (pLeft, [])
          | v :: l2 =>
              let '(pRight, l3) := rowSetNDeepTree iDepth' l2 in
              (Node pLeft v pRight, l3)
          end
      | _ => (Node Leaf v Leaf, l')
      end
  end.

(** The loop of [rowSetListToTree], which consumes an element each time. *)
Fixpoint list_to_tree (fuel : nat) (iDepth : nat) (p : tree) (pList : list Z) : option tree :=
  match pList with
  | [] => Some p
  | v :: pList =>
      match fuel with
      | O => None
      | S fuel =>
          let '(pRight, pList) := rowSetNDeepTree iDepth pList in
          list_to_tree fuel (S iDepth) (Node p v pRight) pList
      end
  end.

Definition rowSetListToTree (pList : list Z) : option tree :=
  match pList with
  | [] => None
  | v :: pList => list_to_tree (length pList) 1 (Node Leaf v Leaf) pList
  end.

(** The result, and the row id when it is 1. *)
Definition sqlite3RowSetNext (p : RowSet) : option (Z * option Z * RowSet) :=
  p ← (if Z.land (rsFlags p) ROWSET_NEXT =? 0 then
         l ← (if Z.land (rsFlags p) ROWSET_SORTED =? 0 then rowSetEntrySort (pEntry p)
              else Some (pEntry p));
         Some (mkRowSet l (pForest p) (nFresh p)
                 (Z.lor (rsFlags p) (Z.lor ROWSET_SORTED ROWSET_NEXT)) (iBatch p))
       else Some p);
  match pEntry p with
  | [] => Some (0, None, p)
  | [v] => Some (1, Some v, sqlite3RowSetClear p)
  | v :: l => Some (1, Some v, mkRowSet l (pForest p) (nFresh p) (rsFlags p) (iBatch p))
  end.

(** The loop over the forest: a free place is filled, and every tree before it
    is merged into the list.  The forest, or the list when there is no free
    place. *)
Fixpoint forest_add (p : list Z) (forest : list tree) : option (list tree * option (list Z)) :=
  match forest with
  | [] => Some ([], Some p)
  | Leaf :: forest => t ← rowSetListToTree p; Some (t :: forest, None)
  | t :: forest =>
      p ← merge (rowSetTreeToList t) p;
      '(forest, o) ← forest_add p forest;
      Some (Leaf :: forest, o)
  end.

Fixpoint tree_find (p : tree) (iRowid : Z) : bool :=
  match p with
  | Leaf => false
  | Node l v r =>
      if v <? iRowid then tree_find r iRowid
      else if v >? iRowid then tree_find l iRowid
      else true
  end.

(** The first test of a batch. *)
Definition rowset_flush (p : RowSet) (a : Alloc) : option (RowSet * Alloc) :=
  match pEntry p with
  | [] => Some (p, a)
  | _ =>
      l ← (if Z.land (rsFlags p) ROWSET_SORTED =? 0 then rowSetEntrySort (pEntry p)
           else Some (pEntry p));
      '(forest, o) ← forest_add l (pForest p);
      '(forest, p, a) ←
        match o with
        | None => Some (forest, p, a)
        | Some l =>
            let '(ok, p, a) := rowSetEntryAlloc p a in
            if ok : bool then t ← rowSetListToTree l; Some (forest ++ [t], p, a)
            else Some (forest, p, a)
        end;
      Some (mkRowSet [] forest (nFresh p) (Z.lor (rsFlags p) ROWSET_SORTED) (iBatch p), a)
  end.

Definition sqlite3RowSetTest (p : RowSet) (batch iRowid : Z) (a : Alloc) : option (Z * RowSet * Alloc) :=
  '(p, a) ← (if negb (batch =? iBatch p) then
               '(p, a) ← rowset_flush p a;
               Some (mkRowSet (pEntry p) (pForest p) (nFresh p) (rsFlags p) batch, a)
             else Some (p, a));
  Some (Z.b2z (existsb (fun t => tree_find t iRowid) (pForest p)), p, a).

Example sort_sample : rowSetEntrySort [5; 3; 9; 3; 1; 5; 2] = Some [1; 2; 3; 5; 9].
Proof. vm_compute. reflexivity. Qed.
Example tree_sample : rowSetTreeToList <$> rowSetListToTree [1; 2; 3; 4; 5; 6] = Some [1; 2; 3; 4; 5; 6].
Proof. vm_compute. reflexivity. Qed.

(** * Merging and sorting *)

Abbreviation increasing := (StronglySorted Z.lt).

Lemma increasing_cons v l : increasing (v :: l) <-> increasing l /\ forall x, x ∈ l -> v < x.
Proof.
  split.
  - intros [Hs Hf]%StronglySorted_inv. split; [done|]. intros x Hx. by eapply list.Forall_forall in Hf.
  - intros [Hs Hf]. constructor; [done|]. by apply list.Forall_forall.
Qed.

Lemma rowSetEntryMerge_ok fuel : forall pA pB,
  (length pA + length pB <= fuel)%nat -> pA <> [] -> pB <> [] -> increasing pA -> increasing pB ->
  exists r, rowSetEntryMerge fuel pA pB = Some r /\ increasing r /\ r <> [] /\
    forall x, x ∈ r <-> x ∈ pA \/ x ∈ pB.
Proof.
  induction fuel as [|fuel IH]; intros [|a pA] [|b pB] Hf HA HB SA SB; try done; [cbn in Hf; lia|].
  cbn [rowSetEntryMerge]. pose proof SA as [SA' LA]%increasing_cons. pose proof SB as [SB' LB]%increasing_cons.
  cbn [length] in Hf. destruct (Z.leb_spec a b) as [Hle|Hgt].
  - assert (exists r, match pA with [] => Some (b :: pB) | _ => rowSetEntryMerge fuel pA (b :: pB) end = Some r /\
      increasing r /\ r <> [] /\ forall x, x ∈ r <-> x ∈ pA \/ x ∈ b :: pB) as (r & E & Sr & Nr & Mr).
    { destruct pA as [|a' pA].
      - exists (b :: pB). split_and!; try done. intros x. rewrite elem_of_nil. tauto.
      - apply IH; try done. cbn [length] in *. lia. }
    rewrite E. cbn. destruct (Z.ltb_spec a b) as [Hlt|Hge].
    + exists (a :: r). split_and!; try done.
      * apply increasing_cons. split; [done|]. intros x [Hx|Hx]%Mr; [by apply LA|].
        apply elem_of_cons in Hx as [->|Hx]; [done|]. specialize (LB x Hx). lia.
      * intros x. rewrite !elem_of_cons, Mr, elem_of_cons. tauto.
    + assert (a = b) as -> by lia. exists r. split_and!; try done.
      intros x. rewrite Mr, !elem_of_cons. tauto.
  - assert (exists r, match pB with [] => Some (a :: pA) | _ => rowSetEntryMerge fuel (a :: pA) pB end = Some r /\
      increasing r /\ r <> [] /\ forall x, x ∈ r <-> x ∈ a :: pA \/ x ∈ pB) as (r & E & Sr & Nr & Mr).
    { destruct pB as [|b' pB].
      - exists (a :: pA). split_and!; try done. intros x. rewrite elem_of_nil. tauto.
      - apply IH; try done. cbn [length] in *. lia. }
    rewrite E. cbn. exists (b :: r). split_and!; try done.
    + apply increasing_cons. split; [done|]. intros x [Hx|Hx]%Mr; [|by apply LB].
      apply elem_of_cons in Hx as [->|Hx]; [lia|]. specialize (LA x Hx). lia.
    + intros x. rewrite !elem_of_cons, Mr, elem_of_cons. tauto.
Qed.

Lemma merge_ok pA pB :
  pA <> [] -> pB <> [] -> increasing pA -> increasing pB ->
  exists r, merge pA pB = Some r /\ increasing r /\ r <> [] /\ forall x, x ∈ r <-> x ∈ pA \/ x ∈ pB.
Proof. intros. by apply rowSetEntryMerge_ok. Qed.

(** The number of insertions the buckets stand for. *)
Fixpoint weight (bs : list (list Z)) : Z :=
  match bs with
  | [] => 0
  | b :: bs => (match b with [] => 0 | _ => 1 end) + 2 * weight bs
  end.

Lemma weight_nonneg bs : 0 <= weight bs.
Proof. induction bs as [|[] bs IH]; cbn [weight]; lia. Qed.

Lemma bucket_add_ok bs : forall pIn,
  pIn <> [] -> increasing pIn -> Forall increasing bs -> weight bs + 1 < 2 ^ zlen bs ->
  exists bs', bucket_add pIn bs = Some bs' /\ Forall increasing bs' /\ zlen bs' = zlen bs /\
    weight bs' = weight bs + 1 /\ forall x, x ∈ concat bs' <-> x ∈ pIn \/ x ∈ concat bs.
Proof.
  induction bs as [|b bs IH]; intros pIn Hn Hs HS Hw; cbn [bucket_add weight] in *.
  - exfalso. change (2 ^ zlen (@nil (list Z))) with 1 in Hw. lia.
  - apply Forall_cons_1 in HS as [Hb HS]. rewrite zlen_cons in Hw.
    destruct b as [|v b].
    + exists (pIn :: bs). split_and!; try done.
      * by apply List.Forall_cons.
      * destruct pIn; [done|]. cbn [weight]. lia.
      * intros x. cbn. by rewrite elem_of_app.
    + destruct (merge_ok (v :: b) pIn) as (r & -> & Sr & Nr & Mr); try done. cbn [mbind option_bind].
      destruct (IH r Nr Sr HS) as (bs' & -> & S' & L' & W' & M').
      { rewrite Z.pow_add_r in Hw by (auto using zlen_nonneg; lia). lia. }
      cbn [mbind option_bind]. exists ([] :: bs'). split_and!.
      * done.
      * apply List.Forall_cons; [constructor|done].
      * rewrite !zlen_cons. lia.
      * cbn [weight]. lia.
      * intros x. cbn [concat]. rewrite !elem_of_app, elem_of_nil, M', Mr. tauto.
Qed.

Lemma bucket_all_ok pIn : forall bs,
  Forall increasing bs -> weight bs + zlen pIn < 2 ^ zlen bs ->
  exists bs', bucket_all pIn bs = Some bs' /\ Forall increasing bs' /\ zlen bs' = zlen bs /\
    forall x, x ∈ concat bs' <-> x ∈ pIn \/ x ∈ concat bs.
Proof.
  induction pIn as [|v pIn IH]; intros bs HS Hw; cbn [bucket_all].
  - exists bs. split_and!; try done. intros x. rewrite elem_of_nil. tauto.
  - rewrite zlen_cons in Hw. pose proof (zlen_nonneg pIn).
    destruct (bucket_add_ok bs [v]) as (bs1 & -> & S1 & L1 & W1 & M1); try done; [|lia|].
    { apply increasing_cons. split; [constructor|]. by intros x ?%elem_of_nil. }
    cbn [mbind option_bind]. destruct (IH bs1 S1) as (bs' & -> & S' & L' & M'); [rewrite L1; lia|].
    exists bs'. split_and!; try done; [congruence|]. intros x. rewrite M', M1, !elem_of_cons, elem_of_nil. tauto.
Qed.

Lemma bucket_merge_ok bs : forall pIn,
  increasing pIn -> Forall increasing bs ->
  exists r, bucket_merge pIn bs = Some r /\ increasing r /\ forall x, x ∈ r <-> x ∈ pIn \/ x ∈ concat bs.
Proof.
  induction bs as [|b bs IH]; intros pIn Hs HS; cbn [bucket_merge concat].
  - exists pIn. split_and!; try done. intros x. rewrite elem_of_nil. tauto.
  - apply Forall_cons_1 in HS as [Hb HS]. destruct b as [|v b]; [by apply IH|].
    assert (exists r, match pIn with [] => Some (v :: b) | _ => merge pIn (v :: b) end = Some r /\ increasing r /\
              forall x, x ∈ r <-> x ∈ pIn \/ x ∈ v :: b) as (r & E & Sr & Mr).
    { destruct pIn as [|w pIn]; [exists (v :: b); split_and!; try done; intros x; rewrite elem_of_nil; tauto|].
      destruct (merge_ok (w :: pIn) (v :: b)) as (r & E & Sr & _ & Mr); try done. by exists r. }
    rewrite E. cbn [mbind option_bind]. destruct (IH r Sr HS) as (r' & -> & S' & M').
    exists r'. split_and!; try done. intros x. rewrite M', Mr, elem_of_app. tauto.
Qed.

(** Lists of fewer than 2^40 entries, which is what 40 buckets are for. *)
Lemma rowSetEntrySort_ok l : zlen l < 2 ^ 40 ->
  exists r, rowSetEntrySort l = Some r /\ increasing r /\ forall x, x ∈ r <-> x ∈ l.
Proof.
  intros Hl. unfold rowSetEntrySort.
  assert (H0 : forall n : nat, weight (replicate n []) = 0 /\ concat (replicate n (@nil Z)) = []).
  { induction n as [|n [IHw IHc]]; [done|]. cbn. by rewrite IHw. }
  destruct (bucket_all_ok l (replicate 40 [])) as (bs & -> & HS & HL & HM).
  - apply Forall_replicate. constructor.
  - rewrite (proj1 (H0 40%nat)). exact Hl.
  - cbn [mbind option_bind]. destruct bs as [|b bs]; [done|]. apply Forall_cons_1 in HS as [Hb HS].
    destruct (bucket_merge_ok bs b Hb HS) as (r & -> & Sr & Mr). exists r. split_and!; try done.
    intros x. rewrite Mr. rewrite (proj2 (H0 40%nat)) in HM. specialize (HM x). cbn [concat] in HM.
    rewrite elem_of_app, elem_of_nil in HM. tauto.
Qed.

(** * Trees *)

Lemma rowSetNDeepTree_flat d : forall l t r, rowSetNDeepTree d l = (t, r) -> rowSetTreeToList t ++ r = l.
Proof.
  induction d as [|d IH]; intros [|v l] t r; cbn [rowSetNDeepTree]; try (by intros [= <- <-]).
  destruct d as [|d]; [by intros [= <- <-]|].
  destruct (rowSetNDeepTree (S d) (v :: l)) as [pl l1] eqn:E1. apply IH in E1.
  destruct l1 as [|w l2]; [intros [= <- <-]; done|].
  destruct (rowSetNDeepTree (S d) l2) as [pr l3] eqn:E2. apply IH in E2. intros [= <- <-].
  cbn [rowSetTreeToList]. rewrite <- E1, <- E2. by rewrite <- app_assoc.
Qed.

Lemma list_to_tree_flat fuel : forall d p l, (length l <= fuel)%nat ->
  exists t, list_to_tree fuel d p l = Some t /\ rowSetTreeToList t = rowSetTreeToList p ++ l.
Proof.
  induction fuel as [|fuel IH]; intros d p [|v l] Hf; cbn [list_to_tree length] in *;
    try (exists p; by rewrite app_nil_r); [lia|].
  destruct (rowSetNDeepTree d l) as [t r] eqn:E. apply rowSetNDeepTree_flat in E.
  destruct (IH (S d) (Node p v t) r) as (t' & Et & Ef).
  { rewrite <- E, length_app in Hf. lia. }
  exists t'. split; [done|]. rewrite Ef. cbn [rowSetTreeToList]. by rewrite <- E, <- app_assoc.
Qed.

Lemma rowSetListToTree_ok l : l <> [] ->
  exists t, rowSetListToTree l = Some t /\ rowSetTreeToList t = l /\ t <> Leaf.
Proof.
  intros Hl. destruct l as [|v l]; [done|]. cbn [rowSetListToTree].
  destruct (list_to_tree_flat (length l) 1 (Node Leaf v Leaf) l (le_n _)) as (t & -> & E).
  exists t. split_and!; [done|done|]. by intros ->.
Qed.

Lemma increasing_app l k : increasing (l ++ k) ->
  increasing l /\ increasing k /\ forall x y, x ∈ l -> y ∈ k -> x < y.
Proof.
  induction l as [|v l IH]; cbn [app].
  - intros. split_and!; [constructor|done|]. by intros x y ?%elem_of_nil.
  - intros [Hs Hv]%increasing_cons. destruct (IH Hs) as (H1 & H2 & H3). split_and!; [|done|].
    + apply increasing_cons. split; [done|]. intros x Hx. apply Hv, elem_of_app. by left.
    + intros x y [->|Hx]%elem_of_cons Hy; [|by apply H3]. apply Hv, elem_of_app. by right.
Qed.

Lemma tree_find_ok t x : increasing (rowSetTreeToList t) ->
  tree_find t x = true <-> x ∈ rowSetTreeToList t.
Proof.
  induction t as [|l IHl v r IHr]; cbn [tree_find rowSetTreeToList]; intros Hs.
  - by rewrite elem_of_nil.
  - destruct (increasing_app _ _ Hs) as (Sl & [Sr Hv]%increasing_cons & Hlr).
    rewrite elem_of_app, elem_of_cons. destruct (Z.ltb_spec v x) as [Hlt|Hge].
    + rewrite IHr by done. split; [tauto|]. intros [Hx|[->|?]]; [|lia|done].
      specialize (Hlr x v Hx ltac:(apply elem_of_cons; by left)). lia.
    + destruct (Z.gtb_spec v x) as [Hgt|Hle].
      * rewrite IHl by done. split; [tauto|]. intros [Hx|[->|Hx]]; [done|lia|]. specialize (Hv x Hx). lia.
      * assert (v = x) as -> by lia. tauto.
Qed.

(** * The forest *)

Definition in_forest (x : Z) (forest : list tree) : Prop :=
  exists t, t ∈ forest /\ x ∈ rowSetTreeToList t.

Lemma in_forest_cons x t forest :
  in_forest x (t :: forest) <-> x ∈ rowSetTreeToList t \/ in_forest x forest.
Proof.
  unfold in_forest. split.
  - intros (t' & [->|Ht]%elem_of_cons & Hx); [by left|right; by exists t'].
  - intros [Hx|(t' & Ht & Hx)]; [exists t|exists t']; (split; [apply elem_of_cons; auto|done]).
Qed.

Lemma in_forest_nil x : ~ in_forest x [].
Proof. by intros (t & ?%elem_of_nil & _). Qed.

Lemma in_forest_snoc x forest t :
  in_forest x (forest ++ [t]) <-> in_forest x forest \/ x ∈ rowSetTreeToList t.
Proof.
  induction forest as [|t' forest IH]; cbn [app].
  - rewrite in_forest_cons. pose proof (in_forest_nil x). tauto.
  - rewrite !in_forest_cons, IH. tauto.
Qed.

Abbreviation search_trees := (Forall (fun t => increasing (rowSetTreeToList t))).

Lemma forest_add_ok forest : forall l,
  l <> [] -> increasing l -> search_trees forest ->
  exists forest' o, forest_add l forest = Some (forest', o) /\ search_trees forest' /\
    match o with
    | None => forall x, in_forest x forest' <-> x ∈ l \/ in_forest x forest
    | Some l' => l' <> [] /\ increasing l' /\ (forall x, x ∈ l' <-> x ∈ l \/ in_forest x forest) /\
                 forall x, ~ in_forest x forest'
    end.
Proof.
  induction forest as [|t forest IH]; intros l Hn Hs HF; cbn [forest_add].
  - exists [], (Some l). split_and!; try done; [|apply in_forest_nil]. intros x.
    pose proof (in_forest_nil x). tauto.
  - apply Forall_cons_1 in HF as [Ht HF]. destruct t as [|tl v tr].
    + destruct (rowSetListToTree_ok l Hn) as (t & -> & Et & _). cbn [mbind option_bind].
      exists (t :: forest), None. split_and!; try done.
      * apply List.Forall_cons; [by rewrite Et|done].
      * intros x. rewrite !in_forest_cons, Et. cbn [rowSetTreeToList]. rewrite elem_of_nil. tauto.
    + set (t := Node tl v tr) in *.
      assert (Hnt : rowSetTreeToList t <> []).
      { unfold t. cbn. intros E%app_eq_nil. by destruct E. }
      destruct (merge_ok (rowSetTreeToList t) l) as (r & -> & Sr & Nr & Mr); try done.
      cbn [mbind option_bind]. destruct (IH r Nr Sr HF) as (forest' & o & -> & S' & Ho).
      cbn [mbind option_bind]. exists (Leaf :: forest'), o. split; [done|]. split.
      { apply List.Forall_cons; [constructor|done]. }
      assert (Hleaf : forall x, in_forest x (Leaf :: forest') <-> in_forest x forest').
      { intros x. rewrite in_forest_cons. cbn [rowSetTreeToList]. rewrite elem_of_nil. tauto. }
      destruct o as [l'|].
      * destruct Ho as (H1 & H2 & H3 & H4). split_and!; try done.
        -- intros x. rewrite H3, Mr, in_forest_cons. tauto.
        -- intros x. by rewrite Hleaf.
      * intros x. rewrite Hleaf, Ho, Mr, in_forest_cons. tauto.
Qed.

Lemma forest_find forest x : search_trees forest ->
  existsb (fun t => tree_find t x) forest = true <-> in_forest x forest.
Proof.
  induction forest as [|t forest IH]; cbn [existsb].
  - intros _. split; [done|]. by intros ?%in_forest_nil.
  - intros [Ht HF]%Forall_cons_1. by rewrite orb_true_iff, in_forest_cons, tree_find_ok, IH.
Qed.

(** The rowset [p] holds the row ids of [vis] in its forest and those of
    [pend] in its list, and was not read yet. *)
Record rs_ok (p : RowSet) (vis pend : gset Z) : Prop := {
  ro_flags : rsFlags p = 0 \/ rsFlags p = ROWSET_SORTED /\ increasing (pEntry p);
  ro_pend x : x ∈ pEntry p <-> x ∈ pend;
  ro_trees : search_trees (pForest p);
  ro_vis x : in_forest x (pForest p) <-> x ∈ vis;
}.

Lemma rs_sorted p vis pend : rs_ok p vis pend -> zlen (pEntry p) < 2 ^ 40 ->
  exists l, (if Z.land (rsFlags p) ROWSET_SORTED =? 0 then rowSetEntrySort (pEntry p) else Some (pEntry p)) = Some l /\
    increasing l /\ forall x, x ∈ l <-> x ∈ pend.
Proof.
  intros [Hf Hp _ _] Hl. destruct Hf as [->|[-> Hs]]; cbn.
  - destruct (rowSetEntrySort_ok _ Hl) as (r & -> & Sr & Mr). exists r. split_and!; try done.
    intros x. by rewrite Mr.
  - by exists (pEntry p).
Qed.

(** An entry is to be had when no allocation fails. *)
Lemma rowSetEntryAlloc_ok p : exists n,
  rowSetEntryAlloc p [] = (true, mkRowSet (pEntry p) (pForest p) n (rsFlags p) (iBatch p), []).
Proof. unfold rowSetEntryAlloc. destruct (nFresh p =? 0); cbn; eauto. Qed.

Lemma increasing_snoc l v : increasing l -> (forall w, last l = Some w -> w < v) -> increasing (l ++ [v]).
Proof.
  induction l as [|x l IH]; cbn [app]; intros Hs Hl.
  - apply increasing_cons. split; [constructor|]. by intros y ?%elem_of_nil.
  - apply increasing_cons in Hs as [Hs Hx]. apply increasing_cons.
    assert (Hsl : increasing (l ++ [v])).
    { apply IH; [done|]. intros w Hw. apply Hl. rewrite last_cons. by rewrite Hw. }
    split; [done|]. intros y [Hy|Hy]%elem_of_app; [by apply Hx|].
    apply list_elem_of_singleton in Hy as ->. destruct (last l) as [w|] eqn:El.
    + assert (w ∈ l) by (by apply last_Some_elem_of). specialize (Hx w ltac:(done)).
      specialize (Hl w). rewrite last_cons, El in Hl. specialize (Hl eq_refl). lia.
    + apply Hl. rewrite last_cons, El. done.
Qed.

Lemma sqlite3RowSetInsert_ok p v vis pend : rs_ok p vis pend ->
  exists p', sqlite3RowSetInsert p v [] = (true, p', []) /\ rs_ok p' vis ({[v]} ∪ pend) /\
    iBatch p' = iBatch p /\ zlen (pEntry p') = zlen (pEntry p) + 1.
Proof.
  intros [Hf Hp Ht Hv]. unfold sqlite3RowSetInsert. destruct (rowSetEntryAlloc_ok p) as [n ->].
  cbn [pEntry pForest rsFlags iBatch nFresh]. eexists. split; [done|].
  split; [constructor; cbn [pEntry pForest rsFlags]|split; [done|cbn [pEntry]; by rewrite zlen_app]]; try done.
  - destruct (last (pEntry p)) as [w|] eqn:El.
    + destruct (Z.leb_spec v w) as [Hle|Hgt]; [left; by destruct Hf as [->|[-> _]]|].
      destruct Hf as [?|[? Hs]]; [by left|right]. split; [done|]. apply increasing_snoc; [done|].
      intros w' Hw. rewrite El in Hw. injection Hw as <-. lia.
    + destruct Hf as [?|[? Hs]]; [by left|right]. split; [done|]. apply increasing_snoc; [done|].
      intros w Hw. congruence.
  - intros x. rewrite elem_of_app, list_elem_of_singleton, Hp. set_solver.
Qed.

Lemma rowset_flush_ok p vis pend : rs_ok p vis pend -> zlen (pEntry p) < 2 ^ 40 ->
  exists p', rowset_flush p [] = Some (p', []) /\ rs_ok p' (pend ∪ vis) ∅ /\ pEntry p' = [].
Proof.
  intros Hr Hl. unfold rowset_flush. destruct (pEntry p) as [|w l0] eqn:Ep.
  - exists p. split_and!; [done| |done]. destruct Hr as [Hf Hp Ht Hv]. rewrite Ep in *.
    assert (pend = ∅) as ->. { apply set_eq. intros x. rewrite <- Hp, elem_of_nil. set_solver. }
    constructor; rewrite ?Ep; try done. intros x. rewrite Hv. set_solver.
  - rewrite <- Ep in *. destruct (rs_sorted p vis pend Hr Hl) as (l & -> & Sl & Ml). cbn [mbind option_bind].
    destruct Hr as [Hf Hp Ht Hv].
    assert (Hn : l <> []).
    { intros ->. specialize (Ml w). rewrite elem_of_nil, <- Hp, Ep, elem_of_cons in Ml. tauto. }
    assert (Hflags : Z.lor (rsFlags p) ROWSET_SORTED = ROWSET_SORTED) by (by destruct Hf as [->|[-> _]]).
    destruct (forest_add_ok (pForest p) l Hn Sl Ht) as (forest & o & -> & HF & Ho). cbn [mbind option_bind].
    destruct o as [l'|]; cbn [mbind option_bind].
    + destruct Ho as (N' & S' & M' & E'). destruct (rowSetEntryAlloc_ok p) as [n ->].
      destruct (rowSetListToTree_ok l' N') as (t & -> & Et & _). cbn [mbind option_bind].
      cbn [pEntry pForest rsFlags iBatch nFresh]. eexists. split; [done|]. split; [|done].
      constructor; cbn [pEntry pForest rsFlags]; try done.
      * right. split; [done|constructor].
      * intros x. by rewrite elem_of_nil, elem_of_empty.
      * apply Forall_app_2; [done|]. apply List.Forall_cons; [by rewrite Et|by apply List.Forall_nil].
      * intros x. rewrite in_forest_snoc, Et, M', Ml, Hv. specialize (E' x). set_solver.
    + cbn [pEntry pForest rsFlags iBatch nFresh]. eexists. split; [done|]. split; [|done].
      constructor; cbn [pEntry pForest rsFlags]; try done.
      * right. split; [done|constructor].
      * intros x. by rewrite elem_of_nil, elem_of_empty.
      * intros x. rewrite Ho, Ml, Hv. set_solver.
Qed.

(** * Properties *)

(** What a rowset stands for: the row ids that tests see, those inserted since
    the batch began, and the number of the batch. *)
Record Batches := mkBatches { visible : gset Z; pending : gset Z; batch : Z }.

Inductive rop := RInsert (v : Z) | RTest (b v : Z).

Definition abs_step (o : rop) (s : Batches) : option bool * Batches :=
  match o with
  | RInsert v => (None, mkBatches (visible s) ({[v]} ∪ pending s) (batch s))
  | RTest b v =>
      let s := if b =? batch s then s else mkBatches (pending s ∪ visible s) ∅ b in
      (Some (bool_decide (v ∈ visible s)), s)
  end.

Fixpoint abs_run (ops : list rop) (s : Batches) : list bool :=
  match ops with
  | [] => []
  | o :: ops => let '(r, s) := abs_step o s in option_list r ++ abs_run ops s
  end.

Fixpoint rowset_run (ops : list rop) (p : RowSet) (a : Alloc) : option (list Z) :=
  match ops with
  | [] => Some []
  | RInsert v :: ops => let '(_, p, a) := sqlite3RowSetInsert p v a in rowset_run ops p a
  | RTest b v :: ops =>
      '(r, p, a) ← sqlite3RowSetTest p b v a; rs ← rowset_run ops p a; Some (r :: rs)
  end.

Lemma sqlite3RowSetTest_ok p b v s : rs_ok p (visible s) (pending s) -> iBatch p = batch s ->
  zlen (pEntry p) < 2 ^ 40 ->
  exists p', let s' := (abs_step (RTest b v) s).2 in
    sqlite3RowSetTest p b v [] = Some (Z.b2z (bool_decide (v ∈ visible s')), p', []) /\
    rs_ok p' (visible s') (pending s') /\ iBatch p' = batch s' /\ zlen (pEntry p') <= zlen (pEntry p).
Proof.
  intros Hr Hb Hl. unfold sqlite3RowSetTest. rewrite Hb. cbn [abs_step snd].
  assert (Hend : forall q vis pend, rs_ok q vis pend ->
    Z.b2z (existsb (fun t => tree_find t v) (pForest q)) = Z.b2z (bool_decide (v ∈ vis))).
  { intros q vis pend [_ _ Ht Hv]. f_equal. apply eq_true_iff_eq.
    by rewrite forest_find, bool_decide_eq_true, Hv. }
  destruct (Z.eqb_spec b (batch s)) as [->|Hne]; cbn [negb mbind option_bind].
  - exists p. rewrite (Hend p _ _ Hr). split_and!; try done.
  - destruct (rowset_flush_ok p _ _ Hr Hl) as (q & -> & Hq & Eq). cbn [mbind option_bind visible pending batch].
    assert (Hq' : rs_ok (mkRowSet (pEntry q) (pForest q) (nFresh q) (rsFlags q) b) (pending s ∪ visible s) ∅)
      by (by destruct Hq).
    eexists. rewrite (Hend _ _ _ Hq'). split_and!; try done. cbn [pEntry]. rewrite Eq. apply zlen_nonneg.
Qed.

Lemma rowset_run_ok ops : forall p s,
  rs_ok p (visible s) (pending s) -> iBatch p = batch s -> zlen (pEntry p) + zlen ops < 2 ^ 40 ->
  rowset_run ops p [] = Some (Z.b2z <$> abs_run ops s).
Proof.
  induction ops as [|o ops IH]; intros p s Hr Hb Hl; [done|]. rewrite zlen_cons in Hl.
  pose proof (zlen_nonneg ops). destruct o as [v|b v]; cbn [rowset_run abs_run].
  - destruct (sqlite3RowSetInsert_ok p v _ _ Hr) as (p' & -> & Hr' & Hb' & Hl').
    apply IH; cbn [visible pending batch]; [done|congruence|lia].
  - destruct (sqlite3RowSetTest_ok p b v s Hr Hb) as (p' & -> & Hr' & Hb' & Hl'); [lia|].
    cbn [mbind option_bind]. rewrite (IH p' _ Hr' Hb') by lia. done.
Qed.

(** C31.  A rowset is a set that is read batch by batch: over any sequence of
    fewer than 2^40 insertions and tests, while no allocation fails, each test
    answers whether its row id was inserted before its batch began. *)
Theorem rowset_tests_batches N p ops :
  sqlite3RowSetInit N [] = (Some p, []) -> zlen ops < 2 ^ 40 ->
  rowset_run ops p [] = Some (Z.b2z <$> abs_run ops (mkBatches ∅ ∅ 0)).
Proof.
  intros [= <-] Hl. apply rowset_run_ok; [|done|done]. constructor; cbn [rsFlags pEntry pForest visible pending].
  - right. split; [done|constructor].
  - intros x. by rewrite elem_of_nil, elem_of_empty.
  - by apply List.Forall_nil.
  - intros x. rewrite elem_of_empty. split; [by intros ?%in_forest_nil|done].
Qed.

Lemma rowset_tests_batches_witness :
  rowset_run [RInsert 5; RInsert 3; RTest 1 5; RInsert 9; RTest 1 9; RTest 2 9; RTest 2 4]
    (mkRowSet [] [] 2 ROWSET_SORTED 0) []
    = Some [1; 0; 1; 0].
Proof.
  exact (rowset_tests_batches 104 (mkRowSet [] [] 2 ROWSET_SORTED 0)
           [RInsert 5; RInsert 3; RTest 1 5; RInsert 9; RTest 1 9; RTest 2 9; RTest 2 4] eq_refl eq_refl).
Defined.

(** Reading until the rowset is empty. *)
Fixpoint rowset_drain (fuel : nat) (p : RowSet) : option (list Z) :=
  match fuel with
  | O => None
  | S fuel =>
      '(r, v, p) ← sqlite3RowSetNext p;
      if r =? 0 then Some [] else v ← v; l ← rowset_drain fuel p; Some (v :: l)
  end.

(** A list of increasing row ids with the flags of a rowset that is read. *)
Definition reading (l : list Z) (forest : list tree) (n b : Z) : RowSet :=
  mkRowSet l forest n (Z.lor ROWSET_SORTED ROWSET_NEXT) b.

Lemma rowset_drain_next fuel p q : sqlite3RowSetNext p = sqlite3RowSetNext q ->
  rowset_drain (S fuel) p = rowset_drain (S fuel) q.
Proof. intros E. cbn [rowset_drain]. by rewrite E. Qed.

Lemma next_reading v w l forest n b :
  sqlite3RowSetNext (reading (v :: w :: l) forest n b) = Some (1, Some v, reading (w :: l) forest n b).
Proof. reflexivity. Qed.

Lemma next_last v forest n b :
  sqlite3RowSetNext (reading [v] forest n b) = Some (1, Some v, mkRowSet [] [] 0 ROWSET_SORTED b).
Proof. reflexivity. Qed.

Lemma drain_empty fuel n b : rowset_drain (S fuel) (mkRowSet [] [] n ROWSET_SORTED b) = Some [].
Proof. reflexivity. Qed.

(** Once the list is sorted it is returned element by element. *)
Lemma drain_list l : forall fuel v forest n b, (length l + 1 < fuel)%nat ->
  rowset_drain fuel (reading (v :: l) forest n b) = Some (v :: l).
Proof.
  induction l as [|w l IH]; intros fuel v forest n b Hf; (destruct fuel as [|fuel]; [lia|]);
    cbn [rowset_drain length] in *.
  - rewrite next_last. cbn [mbind option_bind Z.eqb]. destruct fuel as [|fuel]; [lia|]. by rewrite drain_empty.
  - rewrite next_reading. cbn [mbind option_bind Z.eqb]. rewrite (IH fuel w forest n b); [done|lia].
Qed.

Lemma insert_all_ok vs : forall p pend, rs_ok p ∅ pend ->
  exists p', foldl (fun p v => (sqlite3RowSetInsert p v []).1.2) p vs = p' /\
    rs_ok p' ∅ (list_to_set vs ∪ pend) /\ zlen (pEntry p') = zlen (pEntry p) + zlen vs.
Proof.
  induction vs as [|v vs IH]; intros p pend Hr; cbn [foldl].
  - exists p. change (list_to_set [] ∪ pend) with (∅ ∪ pend). rewrite union_empty_l_L.
    split_and!; [done|done|by rewrite Z.add_0_r].
  - destruct (sqlite3RowSetInsert_ok p v _ _ Hr) as (p' & -> & Hr' & _ & Hl'). cbn [fst snd].
    destruct (IH p' _ Hr') as (p2 & E & Hr2 & Hl2). exists p2. split_and!; [done| |].
    + rewrite list_to_set_cons. by replace ({[v]} ∪ list_to_set vs ∪ pend) with (list_to_set vs ∪ ({[v]} ∪ pend)) by set_solver.
    + rewrite zlen_cons. lia.
Qed.

Lemma increasing_length l (vs : list Z) : increasing l -> (forall x, x ∈ l -> x ∈ vs) -> (length l <= length vs)%nat.
Proof.
  intros Hs Hm. apply submseteq_length, NoDup_submseteq; [|done].
  induction l as [|v l IH]; [by apply stdpp.list_relations.list.NoDup_nil|].
  apply increasing_cons in Hs as [Hs Hv]. apply stdpp.list_relations.list.NoDup_cons. split.
  - intros Hin. specialize (Hv v Hin). lia.
  - apply IH; [done|]. intros x Hx. apply Hm, elem_of_cons. by right.
Qed.

(** C32.  Without tests, reading a rowset to its end returns the row ids that
    were inserted, each once and in increasing order. *)
Theorem rowset_next_sorted N p vs :
  sqlite3RowSetInit N [] = (Some p, []) -> zlen vs < 2 ^ 40 ->
  exists l, rowset_drain (S (S (length vs)))
      (foldl (fun p v => (sqlite3RowSetInsert p v []).1.2) p vs) = Some l /\
    increasing l /\ forall x, x ∈ l <-> x ∈ vs.
Proof.
  intros [= <-] Hl. set (p0 := mkRowSet _ _ _ _ _).
  assert (Hr0 : rs_ok p0 ∅ ∅).
  { constructor; cbn [p0 rsFlags pEntry pForest].
    - right. split; [done|constructor].
    - intros x. by rewrite elem_of_nil, elem_of_empty.
    - by apply List.Forall_nil.
    - intros x. rewrite elem_of_empty. split; [by intros ?%in_forest_nil|done]. }
  destruct (insert_all_ok vs p0 ∅ Hr0) as (p & -> & Hr & Hlen). rewrite union_empty_r_L in Hr.
  destruct (rs_sorted p _ _ Hr) as (l & El & Sl & Ml); [rewrite Hlen; exact Hl|].
  assert (Hm : forall x, x ∈ l <-> x ∈ vs) by (intros x; by rewrite Ml, elem_of_list_to_set).
  exists l. split_and!; [|done|done].
  assert (Hfl : Z.land (rsFlags p) ROWSET_NEXT = 0 /\ Z.lor (rsFlags p) (Z.lor ROWSET_SORTED ROWSET_NEXT) = Z.lor ROWSET_SORTED ROWSET_NEXT).
  { by destruct (ro_flags _ _ _ Hr) as [->|[-> _]]. }
  assert (Enext : sqlite3RowSetNext p = sqlite3RowSetNext (reading l (pForest p) (nFresh p) (iBatch p))).
  { unfold sqlite3RowSetNext at 1. rewrite (proj1 Hfl). cbn [Z.eqb]. rewrite El.
    cbn [mbind option_bind]. by rewrite (proj2 Hfl). }
  rewrite (rowset_drain_next _ _ _ Enext). destruct l as [|v l]; [reflexivity|].
  apply drain_list. pose proof (increasing_length (v :: l) vs Sl (fun x => proj1 (Hm x))). cbn [length] in *. lia.
Qed.

Lemma rowset_next_sorted_witness :
  exists l, rowset_drain 7
      (foldl (fun p v => (sqlite3RowSetInsert p v []).1.2) (mkRowSet [] [] 2 ROWSET_SORTED 0) [5; 3; 5; 9; 1]) = Some l /\
    increasing l /\ forall x, x ∈ l <-> x ∈ [5; 3; 5; 9; 1].
Proof.
  exact (rowset_next_sorted 104 (mkRowSet [] [] 2 ROWSET_SORTED 0) [5; 3; 5; 9; 1] eq_refl eq_refl).
Defined.
