(* ===== verification/Mem.v ===== *)
(** Memory that C code reads and writes by offset: two-byte words, [memcpy],
    [memmove] and [memset] on a buffer, [None] when they leave it. *)
From S2P Require Import Prelude.
From S2P Require Import Bits.
From S2P Require Import Vfs.
Open Scope Z_scope.

Definition get2byte (d : list Z) (i : Z) : option Z :=
  x ← d.[i]; y ← d.[i + 1]; Some (Z.lor (Z.shiftl x 8) y).

Definition put2byte (d : list Z) (i v : Z) : option (list Z) :=
  d ← d.[i <- u8 (Z.shiftr v 8)]; d.[i + 1 <- u8 v].

(** A zero stands for 65536. *)
Definition get2byteNotZero (d : list Z) (i : Z) : option Z :=
  x ← get2byte d i; Some (Z.land (x - 1) 0xffff + 1).

(** The [n] bytes at [i]. *)
Definition mem_read (d : list Z) (i n : Z) : option (list Z) :=
  if (0 <=? i) && (0 <=? n) && (i + n <=? zlen d) then Some (slice i n d) else None.

(** [memcpy] of the bytes [b] to [i]. *)
Definition mem_write (d : list Z) (i : Z) (b : list Z) : option (list Z) :=
  if (0 <=? i) && (i + zlen b <=? zlen d) then Some (splice d i b) else None.

Definition memmove (d : list Z) (dst src n : Z) : option (list Z) :=
  b ← mem_read d src n; mem_write d dst b.

Definition memset (d : list Z) (i v n : Z) : option (list Z) :=
  if n <? 0 then None else mem_write d i (replicate (Z.to_nat n) v).

(** * Laws *)

Lemma zget_ext (l k : list Z) : zlen l = zlen k -> (forall i, 0 <= i < zlen l -> l.[i] = k.[i]) -> l = k.
Proof.
  intros Hl Hg. apply list_eq. intros n. destruct (decide (Z.of_nat n < zlen l)) as [Hn|Hn].
  - by rewrite <- !zget_lookup, Hg by lia.
  - unfold zlen in *. rewrite !lookup_ge_None_2 by lia. done.
Qed.

Lemma zget_slice i n (d : list Z) j : 0 <= i -> 0 <= j < n -> (slice i n d).[j] = d.[i + j].
Proof. intros. unfold slice. rewrite zget_take by lia. by rewrite zget_drop by lia. Qed.

Lemma zget_splice (d : list Z) i b j : 0 <= i -> i + zlen b <= zlen d -> 0 <= j ->
  (splice d i b).[j] = if decide (i <= j < i + zlen b) then b.[j - i] else d.[j].
Proof.
  intros Hi Hb Hj. pose proof (zlen_nonneg b). unfold splice.
  assert (Hr : replicate (Z.to_nat i - length d) 0 = []).
  { replace (Z.to_nat i - length d)%nat with 0%nat by (unfold zlen in *; lia). done. }
  rewrite Hr, app_nil_r. assert (Ht : zlen (take (Z.to_nat i) d) = i) by (apply zlen_take; lia).
  case_decide as Hd.
  - rewrite zget_app_r by lia. rewrite Ht. apply zget_app_l. lia.
  - destruct (Z.lt_ge_cases j i).
    + rewrite zget_app_l by lia. by apply zget_take.
    + rewrite zget_app_r by lia. rewrite Ht. rewrite zget_app_r by lia.
      replace (Z.to_nat i + length b)%nat with (Z.to_nat (i + zlen b)) by (unfold zlen; lia).
      rewrite zget_drop by lia. f_equal. lia.
Qed.

Lemma mem_read_ok (d : list Z) i n : 0 <= i -> 0 <= n -> i + n <= zlen d ->
  exists b, mem_read d i n = Some b /\ zlen b = n /\ forall j, 0 <= j < n -> b.[j] = d.[i + j].
Proof.
  intros. unfold mem_read. rewrite !(proj2 (Z.leb_le _ _)) by lia. eexists. split; [done|].
  split; [by apply length_slice|]. intros j Hj. by apply zget_slice.
Qed.

Lemma mem_read_inv (d : list Z) i n b : mem_read d i n = Some b ->
  0 <= i /\ i + n <= zlen d /\ zlen b = n /\ forall j, 0 <= j < n -> b.[j] = d.[i + j].
Proof.
  unfold mem_read. destruct (Z.leb_spec 0 i), (Z.leb_spec 0 n), (Z.leb_spec (i + n) (zlen d)); try done.
  intros [= <-]. split_and!; try done.
  - by apply length_slice.
  - intros j Hj. by apply zget_slice.
Qed.

(** Reading the same bytes from elsewhere. *)
Lemma mem_read_move (d d' : list Z) i i' n b : mem_read d i n = Some b ->
  0 <= i' -> i' + n <= zlen d' -> (forall j, 0 <= j < n -> d'.[i' + j] = d.[i + j]) ->
  mem_read d' i' n = Some b.
Proof.
  intros (Hi & Hn & Hb & Hg)%mem_read_inv Hi' Hn' Hm. pose proof (zlen_nonneg b).
  destruct (mem_read_ok d' i' n) as (b' & -> & Hb' & Hg'); [lia..|]. f_equal.
  apply zget_ext; [lia|]. intros j Hj. rewrite Hg', Hg, Hm; [done|lia..].
Qed.

(** [d'] is [d] but for the bytes from [lo] to [hi]. *)
Record only (lo hi : Z) (d d' : list Z) : Prop := {
  on_len : zlen d' = zlen d;
  on_bytes : bytes_ok d -> bytes_ok d';
  on_get j : 0 <= j -> ~ lo <= j < hi -> d'.[j] = d.[j];
}.

Lemma mem_write_ok (d : list Z) i b : 0 <= i -> i + zlen b <= zlen d -> bytes_ok b ->
  exists d', mem_write d i b = Some d' /\ only i (i + zlen b) d d' /\
    forall j, i <= j < i + zlen b -> d'.[j] = b.[j - i].
Proof.
  intros ? ? Hb. pose proof (zlen_nonneg b). unfold mem_write. rewrite !(proj2 (Z.leb_le _ _)) by lia.
  eexists. split; [done|]. split; [constructor|].
  - rewrite zlen_splice by lia. lia.
  - intros Hd. unfold splice. apply Forall_app_2; [|apply Forall_app_2; [done|by apply Forall_drop]].
    apply Forall_take, Forall_app_2; [done|]. apply Forall_replicate. unfold byte_ok. lia.
  - intros j Hj Hn. rewrite zget_splice by done. by rewrite decide_False.
  - intros j Hj. rewrite zget_splice by lia. by rewrite decide_True.
Qed.

Lemma mem_read_bytes d i n b : bytes_ok d -> mem_read d i n = Some b -> bytes_ok b.
Proof.
  intros Hd. unfold mem_read. destruct (_ && _ && _); [|done]. intros [= <-].
  unfold slice. by apply Forall_take, Forall_drop.
Qed.

Lemma memmove_ok (d : list Z) dst src n : bytes_ok d ->
  0 <= dst -> 0 <= src -> 0 <= n -> dst + n <= zlen d -> src + n <= zlen d ->
  exists d', memmove d dst src n = Some d' /\ only dst (dst + n) d d' /\
    forall j, dst <= j < dst + n -> d'.[j] = d.[j - dst + src].
Proof.
  intros Hd ? ? ? ? ?. destruct (mem_read_ok d src n) as (b & E & Hb & Hg); [lia..|].
  destruct (mem_write_ok d dst b) as (d' & E' & Ho & Hg'); [lia|lia|by eapply mem_read_bytes|].
  rewrite Hb in *. exists d'. unfold memmove. rewrite E. cbn [mbind option_bind]. split_and!; [done|done|].
  intros j Hj. rewrite Hg', Hg by lia. f_equal. lia.
Qed.

Lemma memset_ok (d : list Z) i v n : 0 <= i -> 0 <= n -> i + n <= zlen d -> byte_ok v ->
  exists d', memset d i v n = Some d' /\ only i (i + n) d d' /\
    forall j, i <= j < i + n -> d'.[j] = Some v.
Proof.
  intros. unfold memset. rewrite (proj2 (Z.ltb_ge _ _)) by lia.
  destruct (mem_write_ok d i (replicate (Z.to_nat n) v)) as (d' & E & Ho & Hg);
    rewrite ?zlen_replicate, ?Z2Nat.id in * by lia; [lia|lia|by apply Forall_replicate|].
  exists d'. split_and!; [done|done|]. intros j Hj. rewrite Hg by lia. apply zget_replicate. lia.
Qed.

Lemma only_refl lo hi d : only lo hi d d.
Proof. by constructor. Qed.

Lemma only_trans lo hi d1 d2 d3 : only lo hi d1 d2 -> only lo hi d2 d3 -> only lo hi d1 d3.
Proof.
  intros [L1 B1 G1] [L2 B2 G2]. constructor; [congruence|auto|]. intros j Hj Hn. by rewrite G2, G1.
Qed.

Lemma only_weaken lo hi lo' hi' d d' : lo' <= lo -> hi <= hi' -> only lo hi d d' -> only lo' hi' d d'.
Proof. intros ? ? [L B G]. constructor; [done|done|]. intros j Hj Hn. apply G; [done|lia]. Qed.

Lemma only_set d i v : 0 <= i < zlen d -> byte_ok v -> exists d', d.[i <- v] = Some d' /\ only i (i + 1) d d' /\ d'.[i] = Some v.
Proof.
  intros Hi Hv. rewrite zset_zupd by done. eexists. split; [done|]. split; [constructor|by apply zget_zupd_eq].
  - apply zlen_zupd.
  - intros Hd. by apply Forall_zupd.
  - intros j Hj Hn. apply zget_zupd_ne; lia.
Qed.

(** Memory read outside a write. *)
Lemma only_read lo hi d d' i n : only lo hi d d' -> i + n <= lo \/ hi <= i -> mem_read d' i n = mem_read d i n.
Proof.
  intros [L B G] Hd. destruct (mem_read d i n) as [b|] eqn:E.
  - pose proof E as (? & ? & ? & _)%mem_read_inv. apply (mem_read_move d d' i i n b E); [lia|lia|].
    intros j Hj. apply G; lia.
  - unfold mem_read in *. rewrite L. by destruct (_ && _ && _).
Qed.

(** ** Two-byte words *)

Lemma get2byte_some d i : bytes_ok d -> 0 <= i -> i + 2 <= zlen d ->
  exists w, get2byte d i = Some w /\ 0 <= w < 65536.
Proof.
  intros Hd Hi Hl. destruct (zget_some d i) as [x Ex]; [lia|]. destruct (zget_some d (i + 1)) as [y Ey]; [lia|].
  unfold get2byte. rewrite Ex, Ey. cbn [mbind option_bind]. eexists. split; [done|].
  pose proof (Forall_zget _ _ _ _ Hd Ex). pose proof (Forall_zget _ _ _ _ Hd Ey). cbn beta in *.
  rewrite <- shift8_add by done. unfold byte_ok in *. lia.
Qed.

Lemma get2byte_inv d i w : get2byte d i = Some w -> 0 <= i /\ i + 2 <= zlen d.
Proof.
  unfold get2byte. destruct d.[i] eqn:E1; [|done]. destruct d.[i + 1] eqn:E2; [|done].
  apply zget_range in E1, E2. lia.
Qed.

Lemma get2byte_range d i w : bytes_ok d -> get2byte d i = Some w -> 0 <= w < 65536.
Proof.
  intros Hd E. pose proof E as [Hi Hl]%get2byte_inv. destruct (get2byte_some d i Hd Hi Hl) as (w' & E' & Hw).
  congruence.
Qed.

Lemma get2byte_zero d i : bytes_ok d -> get2byte d i = Some 0 <-> d.[i] = Some 0 /\ d.[i + 1] = Some 0.
Proof.
  intros Hd. unfold get2byte. split.
  - destruct d.[i] as [x|] eqn:E1; [|done]. destruct d.[i + 1] as [y|] eqn:E2; [|done]. cbn [mbind option_bind].
    pose proof (Forall_zget _ _ _ _ Hd E1) as H1. pose proof (Forall_zget _ _ _ _ Hd E2) as H2. cbn beta in *.
    rewrite <- shift8_add by done. unfold byte_ok in *. intros [= Hz]. split; f_equal; lia.
  - by intros [-> ->].
Qed.

Lemma get2byte_ext d d' i i' : d'.[i'] = d.[i] -> d'.[i' + 1] = d.[i + 1] -> get2byte d' i' = get2byte d i.
Proof. unfold get2byte. by intros -> ->. Qed.

Lemma only_word lo hi d d' i : only lo hi d d' -> 0 <= i -> i + 2 <= lo \/ hi <= i -> get2byte d' i = get2byte d i.
Proof. intros [L B G] Hi Hd. apply get2byte_ext; apply G; lia. Qed.

Lemma put2byte_ok d i v : 0 <= i -> i + 2 <= zlen d ->
  exists d', put2byte d i v = Some d' /\ only i (i + 2) d d' /\ get2byte d' i = Some (u16 v).
Proof.
  intros Hi Hl. unfold put2byte.
  destruct (only_set d i (u8 (Z.shiftr v 8))) as (d1 & E1 & [L1 B1 G1] & V1); [lia|apply u8_ok|].
  destruct (only_set d1 (i + 1) (u8 v)) as (d2 & E2 & [L2 B2 G2] & V2); [lia|apply u8_ok|].
  exists d2. rewrite E1. cbn [mbind option_bind]. split; [done|]. split; [constructor|].
  - congruence.
  - auto.
  - intros j Hj Hn. rewrite G2, G1; [done|lia..].
  - unfold get2byte. rewrite V2, (G2 i), V1 by lia. cbn [mbind option_bind]. f_equal.
    rewrite <- shift8_add by apply u8_ok. unfold u8, u16. rewrite Z.shiftr_div_pow2 by lia.
    change (2 ^ 16) with (2 ^ 8 * 2 ^ 8). rewrite Z.rem_mul_r by lia. lia.
Qed.

Lemma get2byteNotZero_ok d i w : bytes_ok d -> get2byte d i = Some w ->
  get2byteNotZero d i = Some (if w =? 0 then 65536 else w).
Proof.
  intros Hd E. pose proof (get2byte_range _ _ _ Hd E). unfold get2byteNotZero. rewrite E. cbn [mbind option_bind].
  f_equal. change 0xffff with (Z.ones 16). rewrite Z.land_ones by lia.
  destruct (Z.eqb_spec w 0) as [->|Hw]; [done|]. rewrite Z.mod_small by lia. lia.
Qed.

Lemma mem_write_inv d i b d' : mem_write d i b = Some d' -> 0 <= i /\ i + zlen b <= zlen d.
Proof. unfold mem_write. by destruct (Z.leb_spec 0 i), (Z.leb_spec (i + zlen b) (zlen d)). Qed.

(** Two writes next to each other, the second one first. *)
Lemma mem_write_app d i a b : bytes_ok a -> bytes_ok b -> 0 <= i -> i + zlen a + zlen b <= zlen d ->
  (d ← mem_write d (i + zlen a) b; mem_write d i a) = mem_write d i (a ++ b).
Proof.
  intros Ha Hb Hi Hl. pose proof (zlen_nonneg a). pose proof (zlen_nonneg b).
  destruct (mem_write_ok d (i + zlen a) b) as (d1 & -> & O1 & G1); [lia|lia|done|]. cbn [mbind option_bind].
  pose proof (on_len _ _ _ _ O1). destruct (mem_write_ok d1 i a) as (d2 & -> & O2 & G2); [lia|lia|done|].
  pose proof (on_len _ _ _ _ O2). pose proof (zlen_app a b).
  destruct (mem_write_ok d i (a ++ b)) as (d3 & -> & O3 & G3); [lia|lia|by apply Forall_app|].
  pose proof (on_len _ _ _ _ O3). f_equal. apply zget_ext; [lia|]. intros j Hj.
  destruct (decide (j < i \/ i + zlen a + zlen b <= j)).
  - rewrite (on_get _ _ _ _ O2), (on_get _ _ _ _ O1), (on_get _ _ _ _ O3) by lia. done.
  - rewrite G3 by lia. destruct (Z.lt_ge_cases j (i + zlen a)).
    + rewrite G2 by lia. by rewrite zget_app_l by lia.
    + rewrite (on_get _ _ _ _ O2), G1 by lia. rewrite zget_app_r by lia. f_equal. lia.
Qed.

Lemma mem_read_drop d i n b k : mem_read d i n = Some b -> 0 <= k <= n ->
  mem_read d (i + k) (n - k) = Some (drop (Z.to_nat k) b).
Proof.
  intros (Hi & Hn & Hb & Hg)%mem_read_inv Hk. destruct (mem_read_ok d (i + k) (n - k)) as (b' & -> & Hb' & Hg'); [lia..|].
  assert (zlen (drop (Z.to_nat k) b) = n - k) by (unfold zlen in *; rewrite length_drop; lia).
  f_equal. apply zget_ext; [lia|]. intros j Hj. rewrite Hg', zget_drop, Hg by lia. f_equal. lia.
Qed.

Lemma mem_write_nil d i : 0 <= i <= zlen d -> mem_write d i [] = Some d.
Proof.
  intros Hi. destruct (mem_write_ok d i []) as (d' & -> & O & _); [lia|change (zlen []) with 0; lia|constructor|].
  f_equal. apply zget_ext; [by apply (on_len _ _ _ _ O)|]. intros j Hj. apply (on_get _ _ _ _ O); change (zlen []) with 0; lia.
Qed.

Lemma mem_read_nil d i : 0 <= i <= zlen d -> mem_read d i 0 = Some [].
Proof. intros Hi. unfold mem_read. by rewrite !(proj2 (Z.leb_le _ _)) by lia. Qed.
