(* ===== verification/BtPage.v ===== *)
(** Pages of the B-tree (btree.c, btreeInt.h): the header of a page, parsing
    cells and computing their sizes, and counting free space.  The pages of
    databases without auto-vacuum. *)
From S2P Require Import Prelude.
From S2P Require Import Bits.
From S2P Require Import Varint.
From S2P Require Import Vfs.
From S2P Require Import Mem.
Open Scope Z_scope.

Definition PTF_INTKEY : Z := 0x01.
Definition PTF_ZERODATA : Z := 0x02.
Definition PTF_LEAFDATA : Z := 0x04.
Definition PTF_LEAF : Z := 0x08.
Definition BTS_FAST_SECURE : Z := 0x000c.

(** What the pages of a database share; [cellSizeCk] is the flag
    [SQLITE_CellSizeCk] of the connection. *)
Record BtShared := mkBtShared {
  btsFlags : Z;
  bt_max1bytePayload : Z;
  bt_maxLocal : Z;
  bt_minLocal : Z;
  bt_maxLeaf : Z;
  bt_minLeaf : Z;
  pageSize : Z;
  usableSize : Z;
  cellSizeCk : bool;
}.

Definition MX_CELL (pBt : BtShared) : Z := (pageSize pBt - 8) / 6.

(** The limits [lockBtree] computes. *)
Definition set_limits (pBt : BtShared) : BtShared :=
  let u := usableSize pBt in
  let maxLocal := u16 ((u - 12) * 64 / 255 - 23) in
  let minLocal := u16 ((u - 12) * 32 / 255 - 23) in
  mkBtShared (btsFlags pBt) (if maxLocal >? 127 then 127 else u8 maxLocal)
    maxLocal minLocal (u16 (u - 35)) (u16 ((u - 12) * 32 / 255 - 23))
    (pageSize pBt) u (cellSizeCk pBt).

Inductive CellSize := cs_Ptr | cs_IdxLeaf | cs_NoPayload | cs_TableLeaf.
Inductive ParseCell := pc_Ptr | pc_Index | pc_NoPayload.

(** The fields of [MemPage] that [decodeFlags] sets, methods included. *)
Record PageType := mkPageType {
  intKey : bool;
  intKeyLeaf : bool;
  leaf : bool;
  childPtrSize : Z;
  max1bytePayload : Z;
  maxLocal : Z;
  minLocal : Z;
  xCellSize : CellSize;
  xParseCell : ParseCell;
}.

(** The pointers into [aData] are offsets; [ovfl] holds [aiOvfl] and the bytes
    at [apOvfl], of [nOverflow] cells. *)
Record MemPage := mkMemPage {
  isInit : bool;
  pgType : PageType;
  hdrOffset : Z;
  cellOffset : Z;
  nFree : Z;
  nCell : Z;
  maskPage : Z;
  ovfl : list (Z * list Z);
  aData : list Z;
}.

Record CellInfo := mkCellInfo {
  nKey : Z;
  pPayload : Z;
  nPayload : Z;
  nLocal : Z;
  nSize : Z;
}.

(** * Cells *)

(** The first varint of a cell:
    [do{ n = (n<<7) | ( *++pIter & 0x7f); }while( *pIter>=0x80 && pIter<pEnd )]. *)
Fixpoint size_loop (fuel : nat) (buf : list Z) (pIter pEnd n : Z) : option (Z * Z) :=
  match fuel with
  | O => None
  | S fuel =>
      let pIter := pIter + 1 in
      b ← buf.[pIter];
      let n := Z.lor (u32 (Z.shiftl n 7)) (Z.land b 0x7f) in
      if (b >=? 0x80) && (pIter <? pEnd) then size_loop fuel buf pIter pEnd n
      else Some (n, pIter)
  end.

(** Its value, and the position after it. *)
Definition payload_size (buf : list Z) (pIter : Z) : option (Z * Z) :=
  n ← buf.[pIter];
  '(n, pIter) ← (if n >=? 0x80 then size_loop 8 buf pIter (pIter + 8) (Z.land n 0x7f)
                 else Some (n, pIter));
  Some (n, pIter + 1).

(** The key of a table cell, unrolled. *)
Definition parse_key (buf : list Z) (p : Z) : option (Z * Z) :=
  k ← buf.[p];
  if k <? 0x80 then Some (k, p + 1) else
  x ← buf.[p + 1];
  let k := Z.lxor (u64 (Z.shiftl k 7)) x in
  if x <? 0x80 then Some (Z.lxor k 0x4000, p + 2) else
  x ← buf.[p + 2];
  let k := Z.lxor (u64 (Z.shiftl k 7)) x in
  if x <? 0x80 then Some (Z.lxor k 0x204000, p + 3) else
  x ← buf.[p + 3];
  let k := Z.lxor (Z.lxor (u64 (Z.shiftl k 7)) 0x10204000) x in
  if x <? 0x80 then Some (k, p + 4) else
  x ← buf.[p + 4];
  let k := Z.lxor (Z.lxor (u64 (Z.shiftl k 7)) 0x4000) x in
  if x <? 0x80 then Some (k, p + 5) else
  x ← buf.[p + 5];
  let k := Z.lxor (Z.lxor (u64 (Z.shiftl k 7)) 0x4000) x in
  if x <? 0x80 then Some (k, p + 6) else
  x ← buf.[p + 6];
  let k := Z.lxor (Z.lxor (u64 (Z.shiftl k 7)) 0x4000) x in
  if x <? 0x80 then Some (k, p + 7) else
  x ← buf.[p + 7];
  let k := Z.lxor (Z.lxor (u64 (Z.shiftl k 7)) 0x4000) x in
  if x <? 0x80 then Some (k, p + 8) else
  x ← buf.[p + 8];
  let k := Z.lxor (Z.lxor (u64 (Z.shiftl k 8)) 0x8000) x in
  Some (k, p + 9).

Section cells.
Context (pBt : BtShared) (t : PageType).

(** [nLocal] and [nSize] of a cell with overflow pages. *)
Definition btreeParseCellAdjustSizeForOverflow (pCell nPayload pPayload : Z) : Z * Z :=
  let surplus := i32 (u32 (minLocal t + u32 (nPayload - minLocal t) mod (usableSize pBt - 4))) in
  let nLocal := if surplus <=? maxLocal t then u16 surplus else u16 (minLocal t) in
  (nLocal, u16 (u16 (pPayload + nLocal - pCell) + 4)).

Definition btreePayloadToLocal (nPayload : Z) : Z :=
  if nPayload <=? maxLocal t then i32 nPayload
  else
    let surplus := i32 (minLocal t + Z.rem (nPayload - minLocal t) (usableSize pBt - 4)) in
    if surplus <=? maxLocal t then surplus else minLocal t.

(** [nLocal] and [nSize], the tail of two of the parsers. *)
Definition parse_sizes (pCell nPayload pIter : Z) : Z * Z :=
  if nPayload <=? maxLocal t then
    let nSize := u16 (nPayload + u16 (pIter - pCell)) in
    (u16 nPayload, if nSize <? 4 then 4 else nSize)
  else btreeParseCellAdjustSizeForOverflow pCell nPayload pIter.

Definition btreeParseCellPtrNoPayload (buf : list Z) (pCell : Z) : option CellInfo :=
  '(n, k) ← sqlite3GetVarint (drop (Z.to_nat (pCell + 4)) buf);
  Some (mkCellInfo (i64 k) 0 0 0 (u16 (4 + n))).

Definition btreeParseCellPtr (buf : list Z) (pCell : Z) : option CellInfo :=
  '(nPayload, pIter) ← payload_size buf pCell;
  '(iKey, pIter) ← parse_key buf pIter;
  let '(nLocal, nSize) := parse_sizes pCell nPayload pIter in
  Some (mkCellInfo (i64 iKey) pIter nPayload nLocal nSize).

Definition btreeParseCellPtrIndex (buf : list Z) (pCell : Z) : option CellInfo :=
  '(nPayload, pIter) ← payload_size buf (pCell + childPtrSize t);
  let '(nLocal, nSize) := parse_sizes pCell nPayload pIter in
  Some (mkCellInfo nPayload pIter nPayload nLocal nSize).

Definition parseCell (buf : list Z) (pCell : Z) : option CellInfo :=
  match xParseCell t with
  | pc_Ptr => btreeParseCellPtr buf pCell
  | pc_Index => btreeParseCellPtrIndex buf pCell
  | pc_NoPayload => btreeParseCellPtrNoPayload buf pCell
  end.

(** The size of a cell whose payload does not fit, common to the functions
    below; [hdr] is [pIter - pCell]. *)
Definition overflow_size (nSize hdr : Z) : Z :=
  let n := u32 (minLocal t + u32 (nSize - minLocal t) mod (usableSize pBt - 4)) in
  let n := if n >? maxLocal t then minLocal t else n in
  u32 (n + (4 + u16 hdr)).

Definition cellSizePtr (buf : list Z) (pCell : Z) : option Z :=
  '(n, pIter) ← payload_size buf (pCell + 4);
  Some (u16 (if n <=? maxLocal t then u32 (n + (pIter - pCell))
             else overflow_size n (pIter - pCell))).

Definition cellSizePtrIdxLeaf (buf : list Z) (pCell : Z) : option Z :=
  '(n, pIter) ← payload_size buf pCell;
  Some (u16 (if n <=? maxLocal t then
               let n := u32 (n + (pIter - pCell)) in if n <? 4 then 4 else n
             else overflow_size n (pIter - pCell))).

(** [while( ( *pIter++)&0x80 && pIter<pEnd )] *)
Fixpoint key_loop (fuel : nat) (buf : list Z) (pIter pEnd : Z) : option Z :=
  match fuel with
  | O => None
  | S fuel =>
      b ← buf.[pIter];
      let pIter := pIter + 1 in
      if negb (Z.land b 0x80 =? 0) && (pIter <? pEnd) then key_loop fuel buf pIter pEnd
      else Some pIter
  end.

Definition cellSizePtrNoPayload (buf : list Z) (pCell : Z) : option Z :=
  pIter ← key_loop 9 buf (pCell + 4) (pCell + 4 + 9);
  Some (u16 (pIter - pCell)).

(** [n] times [( *pIter++)&0x80], as long as they hold, and then [pIter++]. *)
Fixpoint skip_key (n : nat) (buf : list Z) (pIter : Z) : option Z :=
  match n with
  | O => Some (pIter + 1)
  | S n => b ← buf.[pIter]; if Z.land b 0x80 =? 0 then Some (pIter + 1) else skip_key n buf (pIter + 1)
  end.

Definition cellSizePtrTableLeaf (buf : list Z) (pCell : Z) : option Z :=
  '(n, pIter) ← payload_size buf pCell;
  pIter ← skip_key 8 buf pIter;
  Some (u16 (if n <=? maxLocal t then
               let n := u32 (n + (pIter - pCell)) in if n <? 4 then 4 else n
             else overflow_size n (pIter - pCell))).

Definition cellSize (buf : list Z) (pCell : Z) : option Z :=
  match xCellSize t with
  | cs_Ptr => cellSizePtr buf pCell
  | cs_IdxLeaf => cellSizePtrIdxLeaf buf pCell
  | cs_NoPayload => cellSizePtrNoPayload buf pCell
  | cs_TableLeaf => cellSizePtrTableLeaf buf pCell
  end.
End cells.

(** * Pages *)

Definition decodeFlags (pBt : BtShared) (t : PageType) (flagByte : Z) : Z * PageType :=
  let m1 := bt_max1bytePayload pBt in
  if flagByte >=? Z.lor PTF_ZERODATA PTF_LEAF then
    if flagByte =? Z.lor (Z.lor PTF_LEAFDATA PTF_INTKEY) PTF_LEAF then
      (SQLITE_OK, mkPageType true true true 0 m1 (bt_maxLeaf pBt) (bt_minLeaf pBt) cs_TableLeaf pc_Ptr)
    else if flagByte =? Z.lor PTF_ZERODATA PTF_LEAF then
      (SQLITE_OK, mkPageType false false true 0 m1 (bt_maxLocal pBt) (bt_minLocal pBt) cs_IdxLeaf pc_Index)
    else
      (SQLITE_CORRUPT, mkPageType false false true 0 m1 (maxLocal t) (minLocal t) cs_IdxLeaf pc_Index)
  else
    if flagByte =? PTF_ZERODATA then
      (SQLITE_OK, mkPageType false false false 4 m1 (bt_maxLocal pBt) (bt_minLocal pBt) cs_Ptr pc_Index)
    else if flagByte =? Z.lor PTF_LEAFDATA PTF_INTKEY then
      (SQLITE_OK, mkPageType true false false 4 m1 (bt_maxLeaf pBt) (bt_minLeaf pBt) cs_NoPayload pc_NoPayload)
    else
      (SQLITE_CORRUPT, mkPageType false false false 4 m1 (maxLocal t) (minLocal t) cs_Ptr pc_Index).

(** The loop of [btreeComputeFreeSpace] over the free blocks: the last block
    with its [next] and [size], and the free bytes; [None] inside means that
    the page is corrupt. *)
Fixpoint free_scan (fuel : nat) (data : list Z) (iCellLast pc nFree : Z)
    : option (option (Z * Z * Z * Z)) :=
  match fuel with
  | O => None
  | S fuel =>
      if pc >? iCellLast then Some None else
      next ← get2byte data pc;
      size ← get2byte data (pc + 2);
      let nFree := i32 (nFree + size) in
      if next <=? pc + size + 3 then Some (Some (next, pc, size, nFree))
      else free_scan fuel data iCellLast next nFree
  end.

(** The free bytes with those of the free blocks, or [None] inside. *)
Definition free_blocks (data : list Z) (usableSize top pc nFree : Z) : option (option Z) :=
  let iCellLast := usableSize - 4 in
  if pc >? 0 then
    if pc <? top then Some None
    else
      r ← free_scan (length data) data iCellLast pc nFree;
      match r with
      | None => Some None
      | Some (next, pc, size, nFree) =>
          if next >? 0 then Some None
          else if pc + size >? usableSize then Some None
          else Some (Some nFree)
      end
  else Some (Some nFree).

Definition set_nFree (n : Z) (p : MemPage) : MemPage :=
  mkMemPage (isInit p) (pgType p) (hdrOffset p) (cellOffset p) n (nCell p) (maskPage p) (ovfl p) (aData p).
Definition set_nCell (n : Z) (p : MemPage) : MemPage :=
  mkMemPage (isInit p) (pgType p) (hdrOffset p) (cellOffset p) (nFree p) n (maskPage p) (ovfl p) (aData p).
Definition set_aData (d : list Z) (p : MemPage) : MemPage :=
  mkMemPage (isInit p) (pgType p) (hdrOffset p) (cellOffset p) (nFree p) (nCell p) (maskPage p) (ovfl p) d.
Definition set_ovfl (l : list (Z * list Z)) (p : MemPage) : MemPage :=
  mkMemPage (isInit p) (pgType p) (hdrOffset p) (cellOffset p) (nFree p) (nCell p) (maskPage p) l (aData p).

Definition btreeComputeFreeSpace (pBt : BtShared) (pPage : MemPage) : option (Z * MemPage) :=
  let hdr := hdrOffset pPage in
  let data := aData pPage in
  top ← get2byteNotZero data (hdr + 5);
  let iCellFirst := hdr + 8 + childPtrSize (pgType pPage) + 2 * nCell pPage in
  pc ← get2byte data (hdr + 1);
  frag ← data.[hdr + 7];
  let nFree := frag + top in
  r ← free_blocks data (usableSize pBt) top pc nFree;
  match r with
  | None => Some (SQLITE_CORRUPT, pPage)
  | Some nFree =>
      if (nFree >? usableSize pBt) || (nFree <? iCellFirst) then Some (SQLITE_CORRUPT, pPage)
      else Some (SQLITE_OK, set_nFree (u16 (nFree - iCellFirst)) pPage)
  end.

(** The loop of [btreeCellSizeCheck], from the cell [i] on. *)
Fixpoint size_check (n : nat) (pBt : BtShared) (pPage : MemPage) (i iCellFirst iCellLast : Z) : option Z :=
  match n with
  | O => Some SQLITE_OK
  | S n =>
      pc ← get2byte (aData pPage) (cellOffset pPage + i * 2);
      if (pc <? iCellFirst) || (pc >? iCellLast) then Some SQLITE_CORRUPT else
      sz ← cellSize pBt (pgType pPage) (aData pPage) pc;
      if pc + sz >? usableSize pBt then Some SQLITE_CORRUPT
      else size_check n pBt pPage (i + 1) iCellFirst iCellLast
  end.

Definition btreeCellSizeCheck (pBt : BtShared) (pPage : MemPage) : option Z :=
  let iCellFirst := cellOffset pPage + 2 * nCell pPage in
  let iCellLast := usableSize pBt - 4 in
  let iCellLast := if leaf (pgType pPage) then iCellLast else iCellLast - 1 in
  size_check (Z.to_nat (nCell pPage)) pBt pPage 0 iCellFirst iCellLast.

Definition btreeInitPage (pBt : BtShared) (pPage : MemPage) : option (Z * MemPage) :=
  let hdr := hdrOffset pPage in
  flag ← (aData pPage).[hdr];
  let '(rc, t) := decodeFlags pBt (pgType pPage) flag in
  if negb (rc =? SQLITE_OK) then
    Some (SQLITE_CORRUPT, mkMemPage (isInit pPage) t hdr (cellOffset pPage) (nFree pPage) (nCell pPage)
                            (maskPage pPage) (ovfl pPage) (aData pPage))
  else
    n ← get2byte (aData pPage) (hdr + 3);
    let pPage := mkMemPage (isInit pPage) t hdr (u16 (hdr + 8 + childPtrSize t)) (nFree pPage) n
                   (u16 (pageSize pBt - 1)) [] (aData pPage) in
    if nCell pPage >? MX_CELL pBt then Some (SQLITE_CORRUPT, pPage)
    else
      let pPage := mkMemPage true t hdr (cellOffset pPage) (-1) n (maskPage pPage) [] (aData pPage) in
      if cellSizeCk pBt then rc ← btreeCellSizeCheck pBt pPage; Some (rc, pPage)
      else Some (SQLITE_OK, pPage).

Definition zeroPage (pBt : BtShared) (pPage : MemPage) (flags : Z) : option MemPage :=
  let hdr := hdrOffset pPage in
  data ← (if Z.land (btsFlags pBt) BTS_FAST_SECURE =? 0 then Some (aData pPage)
          else memset (aData pPage) hdr 0 (usableSize pBt - hdr));
  data ← data.[hdr <- u8 flags];
  let first := u16 (hdr + (if Z.land flags PTF_LEAF =? 0 then 12 else 8)) in
  data ← memset data (hdr + 1) 0 4;
  data ← data.[hdr + 7 <- 0];
  data ← put2byte data (hdr + 5) (usableSize pBt);
  let nFree := u16 (usableSize pBt - first) in
  let '(_, t) := decodeFlags pBt (pgType pPage) flags in
  Some (mkMemPage true t hdr first nFree 0 (u16 (pageSize pBt - 1)) [] data).

(** The [iCell]-th cell. *)
Definition findCell (pPage : MemPage) (iCell : Z) : option Z :=
  pc ← get2byte (aData pPage) (cellOffset pPage + 2 * iCell);
  Some (Z.land (maskPage pPage) pc).

Definition btreeParseCell (pBt : BtShared) (pPage : MemPage) (iCell : Z) : option CellInfo :=
  pCell ← findCell pPage iCell; parseCell pBt (pgType pPage) (aData pPage) pCell.

(** * Parsing and sizes *)

(** ** Keys *)

Lemma flag_byte b : byte_ok b -> b = Z.lxor (b mod 128) (if b <? 128 then 0 else 128).
Proof.
  unfold byte_ok. intros Hb. destruct (Z.ltb_spec b 128).
  - rewrite Z.mod_small by lia. by rewrite Z.lxor_0_r.
  - replace (b mod 128) with (b - 128) by (rewrite <- (Z.mod_unique b 128 1 (b - 128)); lia).
    rewrite Z.lxor_comm. pose proof (lxor_disjoint_add 1 (b - 128) 7 ltac:(lia) ltac:(lia)) as E.
    change (Z.shiftl 1 7) with 128 in E. rewrite E. lia.
Qed.

(** One more byte: the digits so far are [acc], and [f] are the flags of bytes
    that are still in the register. *)
Lemma key_step acc f c b : 0 <= acc < 2 ^ 56 -> 0 <= f < 2 ^ 56 -> byte_ok b ->
  Z.lxor (Z.lxor (u64 (Z.shiftl (Z.lxor acc f) 7)) c) b =
  Z.lxor (acc * 128 + b mod 128) (Z.lxor (Z.lxor (Z.shiftl f 7) c) (if b <? 128 then 0 else 128)).
Proof.
  intros Ha Hf Hb. pose proof (lxor_range acc f 56 ltac:(lia) Ha Hf).
  rewrite u64_small by (rewrite Z.shiftl_mul_pow2 by lia; lia).
  rewrite Z.shiftl_lxor. rewrite (flag_byte b Hb) at 1.
  pose proof (Z.mod_pos_bound b 128 ltac:(lia)).
  pose proof (lxor_disjoint_add acc (b mod 128) 7 ltac:(lia) ltac:(lia)) as E7.
  change (2 ^ 7) with 128 in E7. rewrite <- E7.
  set (F := if b <? 128 then 0 else 128). set (m := b mod 128).
  apply Z.bits_inj'. intros i Hi. rewrite !Z.lxor_spec.
  destruct (Z.testbit (Z.shiftl acc 7) i), (Z.testbit (Z.shiftl f 7) i), (Z.testbit c i), (Z.testbit m i),
    (Z.testbit F i); done.
Qed.

Lemma key_last acc b : 0 <= acc < 2 ^ 56 -> byte_ok b ->
  Z.lxor (Z.lxor (u64 (Z.shiftl (Z.lxor acc 0x80) 8)) 0x8000) b = acc * 256 + b.
Proof.
  intros Ha Hb. pose proof (lxor_range acc 0x80 56 ltac:(lia) Ha ltac:(lia)).
  rewrite u64_small by (rewrite Z.shiftl_mul_pow2 by lia; lia).
  rewrite Z.shiftl_lxor. change (Z.shiftl 0x80 8) with 0x8000.
  rewrite (Z.lxor_assoc _ 0x8000 0x8000), Z.lxor_nilpotent, Z.lxor_0_r.
  by rewrite lxor_disjoint_add.
Qed.

(** The register [k] holds the digits [acc] and the flags [f]. *)
Ltac key_byte l Hl k Hk acc Ha f c b Hb :=
  destruct l as [|b l]; [done|]; apply Forall_cons_1 in Hl as [Hb Hl];
  zget_eval; rewrite varint_ref_S;
  pose proof (key_step acc f c b ltac:(lia) ltac:(lia) Hb) as E;
  rewrite <- Hk, ?(Z.lxor_0_r (u64 _)) in E; clear Hk;
  pose proof (Z.mod_pos_bound b 128 ltac:(lia));
  destruct (Z.ltb_spec b 128);
  [ cbn [mbind option_bind]; apply (f_equal Some), (f_equal2 pair); [|reflexivity];
    rewrite E, ?Z.lxor_assoc; apply Z.lxor_0_r
  | ].

(** After a byte that does not end the key: the new register and digits. *)
Ltac key_more k Hk acc Ha n f :=
  match goal with
  | E : ?x = Z.lxor ?a ?g |- _ =>
      change (x = Z.lxor a f) in E; assert (Ha' : 0 <= a < 2 ^ n) by lia;
      clear Ha; generalize dependent x; generalize dependent a; intros acc Ha k Hk
  end.

Lemma parse_key_decode buf p : bytes_ok buf -> 0 <= p ->
  parse_key buf p = '(n, k) ← varint_decode (drop (Z.to_nat p) buf); Some (k, p + n).
Proof.
  intros Hl Hp. apply (Forall_drop _ (Z.to_nat p)) in Hl.
  assert (Hg : forall i, 0 <= i -> buf.[p + i] = (drop (Z.to_nat p) buf).[i]) by (intros; by rewrite zget_drop).
  unfold parse_key, varint_decode. rewrite <- (Z.add_0_r p) at 1. rewrite !Hg by lia.
  set (l := drop (Z.to_nat p) buf) in *. clearbody l. clear Hg.
  destruct l as [|k l]; [done|]. apply Forall_cons_1 in Hl as [Hb Hl]. zget_eval. rewrite varint_ref_S.
  pose proof (flag_byte k Hb) as Hk. pose proof (Z.mod_pos_bound k 128 ltac:(lia)) as Ha.
  destruct (Z.ltb_spec k 128) as [Hlt|Hge].
  { cbn [mbind option_bind]. by rewrite Z.mod_small by (unfold byte_ok in *; lia). }
  assert (Hk' : k = Z.lxor (0 * 128 + k mod 128) 128) by done. clear Hk. rename Hk' into Hk.
  assert (Ha' : 0 <= 0 * 128 + k mod 128 < 2 ^ 7) by lia. clear Ha. rename Ha' into Ha.
  set (acc := 0 * 128 + k mod 128) in *. clearbody acc.
  key_byte l Hl k Hk acc Ha 0x80 0 b1 B1. key_more k1 Hk acc1 Ha 14 0x4080.
  key_byte l Hl k1 Hk acc1 Ha 0x4080 0 b2 B2. key_more k2 Hk acc2 Ha 21 0x204080.
  key_byte l Hl k2 Hk acc2 Ha 0x204080 0x10204000 b3 B3. key_more k3 Hk acc3 Ha 28 0x80.
  key_byte l Hl k3 Hk acc3 Ha 0x80 0x4000 b4 B4. key_more k4 Hk acc4 Ha 35 0x80.
  key_byte l Hl k4 Hk acc4 Ha 0x80 0x4000 b5 B5. key_more k5 Hk acc5 Ha 42 0x80.
  key_byte l Hl k5 Hk acc5 Ha 0x80 0x4000 b6 B6. key_more k6 Hk acc6 Ha 49 0x80.
  key_byte l Hl k6 Hk acc6 Ha 0x80 0x4000 b7 B7. key_more k7 Hk acc7 Ha 56 0x80.
  destruct l as [|b8 l]; [done|]. apply Forall_cons_1 in Hl as [B8 Hl]. zget_eval. cbn [varint_ref].
  rewrite Hk, key_last by done. reflexivity.
Qed.

Lemma varint_ref_len more : forall len acc l n v,
  varint_ref more len acc l = Some (n, v) -> len <= n <= len + Z.of_nat more.
Proof.
  induction more as [|more IH]; intros len acc [|b l] n v; cbn [varint_ref]; try done.
  - intros [= <- _]. lia.
  - case_match; [intros [= <- _]; lia|]. intros E%IH. lia.
Qed.

(** Reading from a position on. *)
Lemma drop_step (buf : list Z) p : 0 <= p ->
  drop (Z.to_nat p) buf = match buf.[p] with Some b => b :: drop (Z.to_nat (p + 1)) buf | None => [] end.
Proof.
  intros Hp. rewrite zget_to_nat by done. destruct (buf !! Z.to_nat p) as [b|] eqn:E.
  - rewrite (drop_S _ _ _ E). by replace (Z.to_nat (p + 1)) with (S (Z.to_nat p)) by lia.
  - apply drop_ge. by apply lookup_ge_None.
Qed.

Lemma skip_key_decode more : forall len acc buf p n v,
  bytes_ok buf -> 0 <= p -> varint_ref more len acc (drop (Z.to_nat p) buf) = Some (n, v) ->
  skip_key more buf p = Some (p + (n - len) + 1).
Proof.
  induction more as [|more IH]; intros len acc buf p n v Hb Hp; rewrite drop_step by done;
    (destruct buf.[p] as [b|] eqn:E; [|done]); cbn [varint_ref skip_key].
  - intros [= <- _]. f_equal. lia.
  - rewrite E. cbn [mbind option_bind]. rewrite byte_flag by (by eapply Forall_zget in E).
    case_match; [intros [= <- _]; f_equal; lia|].
    intros E'. apply IH in E'; [|done|lia]. rewrite E'. f_equal. lia.
Qed.

Lemma key_loop_S fuel buf p pEnd :
  key_loop (S fuel) buf p pEnd =
  b ← buf.[p];
  if negb (Z.land b 0x80 =? 0) && (p + 1 <? pEnd) then key_loop fuel buf (p + 1) pEnd else Some (p + 1).
Proof. done. Qed.

Lemma size_loop_S fuel buf p pEnd n :
  size_loop (S fuel) buf p pEnd n =
  b ← buf.[p + 1];
  let n := Z.lor (u32 (Z.shiftl n 7)) (Z.land b 0x7f) in
  if (b >=? 0x80) && (p + 1 <? pEnd) then size_loop fuel buf (p + 1) pEnd n else Some (n, p + 1).
Proof. done. Qed.

Lemma key_loop_decode more : forall len acc buf p n v,
  bytes_ok buf -> 0 <= p -> varint_ref more len acc (drop (Z.to_nat p) buf) = Some (n, v) ->
  key_loop (S more) buf p (p + Z.of_nat more + 1) = Some (p + (n - len) + 1).
Proof.
  induction more as [|more IH]; intros len acc buf p n v Hb Hp; rewrite drop_step by done;
    (destruct buf.[p] as [b|] eqn:E; [|done]); cbn [varint_ref];
    rewrite key_loop_S, E; cbn [mbind option_bind].
  - intros [= <- _]. replace (p + Z.of_nat 0 + 1) with (p + 1) by lia.
    rewrite Z.ltb_irrefl, andb_false_r. f_equal. lia.
  - rewrite byte_flag by (by eapply Forall_zget in E). destruct (b <? 128) eqn:E8.
    + intros [= <- _]. cbn [negb andb]. f_equal. lia.
    + intros E'. cbn [negb andb]. rewrite (proj2 (Z.ltb_lt _ _)) by lia.
      replace (p + Z.of_nat (S more) + 1) with (p + 1 + Z.of_nat more + 1) by lia.
      apply IH in E'; [|done|lia]. rewrite E'. f_equal. lia.
Qed.

Lemma size_loop_range fuel : forall buf p pEnd n v q,
  size_loop fuel buf p pEnd n = Some (v, q) -> bytes_ok buf -> p + Z.of_nat fuel <= pEnd -> 
  0 <= v < 2 ^ 32 /\ p < q <= pEnd.
Proof.
  induction fuel as [|fuel IH]; intros buf p pEnd n v q; [done|]. cbn [size_loop].
  destruct buf.[p + 1] as [b|] eqn:E; [|done]. cbn [mbind option_bind]. intros Hs Hb Hf.
  set (m := Z.lor (u32 (Z.shiftl n 7)) (Z.land b 0x7f)) in *.
  assert (Hm : 0 <= m < 2 ^ 32).
  { apply lor_range; [lia|apply u32_range|]. change 0x7f with (Z.ones 7). rewrite Z.land_ones by lia.
    pose proof (Z.mod_pos_bound b (2 ^ 7) ltac:(lia)). lia. }
  destruct (_ && _) eqn:Ec.
  - apply IH in Hs; [|done|lia]. lia.
  - injection Hs as <- <-. lia.
Qed.

Lemma payload_size_range buf p v q : bytes_ok buf -> payload_size buf p = Some (v, q) ->
  0 <= v < 2 ^ 32 /\ p < q <= p + 9.
Proof.
  intros Hb. unfold payload_size. destruct buf.[p] as [b|] eqn:E; [|done]. cbn [mbind option_bind].
  pose proof (Forall_zget _ _ _ _ Hb E) as Hbb. unfold byte_ok in Hbb. destruct (b >=? 0x80).
  - destruct (size_loop _ _ _ _ _) as [[v' q']|] eqn:El; [|done]. cbn [mbind option_bind].
    intros [= <- <-]. apply size_loop_range in El; [lia|done|lia].
  - cbn [mbind option_bind]. intros [= <- <-]. lia.
Qed.

(** The inlined reader of a payload size is the varint of the format, but for
    varints of nine bytes. *)
Lemma size_loop_decode m : forall len acc buf p n v,
  bytes_ok buf -> -1 <= p -> 0 <= acc -> varint_ref m len acc (drop (Z.to_nat (p + 1)) buf) = Some (n, v) ->
  n - len < Z.of_nat m ->
  size_loop (S m) buf p (p + Z.of_nat (S m)) (u32 acc) = Some (u32 v, p + 1 + (n - len)).
Proof.
  induction m as [|m IH]; intros len acc buf p n v Hb Hp Ha; rewrite drop_step by lia;
    (destruct buf.[p + 1] as [b|] eqn:E; [|done]); cbn [varint_ref].
  { intros [= <- _] ?. lia. }
  intros Hv Hn. rewrite size_loop_S, E. cbn [mbind option_bind].
  pose proof (Forall_zget _ _ _ _ Hb E) as Hbb. unfold byte_ok in Hbb.
  assert (Hu : Z.lor (u32 (Z.shiftl (u32 acc) 7)) (Z.land b 0x7f) = u32 (acc * 128 + b mod 128)).
  { change 0x7f with (Z.ones 7). rewrite Z.land_ones by lia. pose proof (Z.mod_pos_bound b (2 ^ 7) ltac:(lia)).
    replace (u32 (Z.shiftl (u32 acc) 7)) with (Z.shiftl (acc mod 2 ^ 25) 7).
    - rewrite lor_disjoint_add by lia. unfold u32. change (2 ^ 7) with 128 in *.
      rewrite (Z.div_mod acc (2 ^ 25)) at 2 by lia.
      replace ((2 ^ 25 * (acc / 2 ^ 25) + acc mod 2 ^ 25) * 128 + b mod 128)
        with (acc mod 2 ^ 25 * 128 + b mod 128 + (acc / 2 ^ 25) * 2 ^ 32) by lia.
      rewrite Z.mod_add by lia. symmetry. apply Z.mod_small.
      pose proof (Z.mod_pos_bound acc (2 ^ 25) ltac:(lia)). lia.
    - unfold u32. rewrite !Z.shiftl_mul_pow2 by lia. rewrite Z.mul_mod_idemp_l by lia.
      change (2 ^ 32) with (2 ^ 25 * 2 ^ 7). by rewrite Z.mul_mod_distr_r by lia. }
  rewrite Hu. destruct (Z.ltb_spec b 128) as [Hlt|Hge].
  - injection Hv as <- <-. destruct (Z.geb_spec b 0x80); [lia|]. cbn [andb]. f_equal. f_equal. lia.
  - destruct (Z.geb_spec b 0x80); [|lia]. rewrite (proj2 (Z.ltb_lt _ _)) by lia. cbn [andb].
    replace (p + Z.of_nat (S (S m))) with (p + 1 + Z.of_nat (S m)) by lia.
    pose proof (Z.mod_pos_bound b 128 ltac:(lia)).
    rewrite (IH (len + 1) (acc * 128 + b mod 128) buf (p + 1) n v Hb); [|lia|lia|done|lia].
    f_equal. f_equal. lia.
Qed.

Lemma payload_size_decode buf p n v : bytes_ok buf -> 0 <= p ->
  varint_decode (drop (Z.to_nat p) buf) = Some (n, v) -> n <= 8 ->
  payload_size buf p = Some (u32 v, p + n).
Proof.
  unfold varint_decode, payload_size. intros Hb Hp. rewrite drop_step by done.
  destruct buf.[p] as [b|] eqn:E; [|done]. cbn [varint_ref mbind option_bind].
  pose proof (Forall_zget _ _ _ _ Hb E) as Hbb. unfold byte_ok in Hbb. destruct (Z.ltb_spec b 128) as [Hlt|Hge].
  - intros [= <- <-] _. destruct (Z.geb_spec b 0x80); [lia|]. cbn [mbind option_bind].
    rewrite Z.mod_small by lia. by rewrite u32_small by lia.
  - intros Hv Hn. destruct (Z.geb_spec b 0x80); [|lia].
    replace (Z.land b 0x7f) with (u32 (0 * 128 + b mod 128)).
    + pose proof (Z.mod_pos_bound b 128 ltac:(lia)).
      pose proof (size_loop_decode 7 2 (0 * 128 + b mod 128) buf p n v Hb ltac:(lia) ltac:(lia) Hv) as El.
      change (p + Z.of_nat 8) with (p + 8) in El. rewrite El by lia.
      cbn [mbind option_bind]. f_equal. f_equal. lia.
    + change 0x7f with (Z.ones 7). rewrite Z.land_ones by lia. change (2 ^ 7) with 128.
      pose proof (Z.mod_pos_bound b 128 ltac:(lia)). by rewrite u32_small by lia.
Qed.

(** ** Cell sizes *)

(** A database that [lockBtree] accepted. *)
Record bt_ok (pBt : BtShared) : Prop := {
  bo_page : exists k, 9 <= k <= 16 /\ pageSize pBt = 2 ^ k;
  bo_usable : 480 <= usableSize pBt <= pageSize pBt;
  bo_limits : set_limits pBt = pBt;
}.

(** What [decodeFlags] makes of a valid flag byte. *)
Definition type_ok (pBt : BtShared) (t : PageType) : Prop :=
  exists t0 flags, decodeFlags pBt t0 flags = (SQLITE_OK, t).

Lemma bo_size pBt : bt_ok pBt -> 512 <= pageSize pBt <= 65536.
Proof.
  intros [(k & Hk & ->) _ _]. split.
  - change 512 with (2 ^ 9). apply Z.pow_le_mono_r; lia.
  - change 65536 with (2 ^ 16). apply Z.pow_le_mono_r; lia.
Qed.

(** The four kinds of pages. *)
Lemma type_ok_cases pBt t : type_ok pBt t ->
  let m1 := bt_max1bytePayload pBt in
  t = mkPageType true true true 0 m1 (bt_maxLeaf pBt) (bt_minLeaf pBt) cs_TableLeaf pc_Ptr \/
  t = mkPageType false false true 0 m1 (bt_maxLocal pBt) (bt_minLocal pBt) cs_IdxLeaf pc_Index \/
  t = mkPageType false false false 4 m1 (bt_maxLocal pBt) (bt_minLocal pBt) cs_Ptr pc_Index \/
  t = mkPageType true false false 4 m1 (bt_maxLeaf pBt) (bt_minLeaf pBt) cs_NoPayload pc_NoPayload.
Proof.
  intros (t0 & flags & E). unfold decodeFlags in E.
  repeat case_match; injection E as E; subst; auto; done.
Qed.

Lemma limits_range pBt t : bt_ok pBt -> type_ok pBt t ->
  0 <= minLocal t <= maxLocal t /\ maxLocal t <= usableSize pBt - 35.
Proof.
  intros Hbt Ht. pose proof (bo_size _ Hbt). destruct Hbt as [_ Hu Hlim].
  set (u := usableSize pBt) in *.
  assert (H64 : 0 <= (u - 12) * 64 / 255 - 23 <= u - 35).
  { pose proof (Z.div_le_lower_bound ((u - 12) * 64) 255 23).
    pose proof (Z.div_le_upper_bound ((u - 12) * 64) 255 (u - 12)). lia. }
  assert (H32 : 0 <= (u - 12) * 32 / 255 - 23 <= (u - 12) * 64 / 255 - 23).
  { pose proof (Z.div_le_lower_bound ((u - 12) * 32) 255 23).
    pose proof (Z.div_le_mono ((u - 12) * 32) ((u - 12) * 64) 255). lia. }
  pose proof (f_equal bt_maxLocal Hlim) as E1. pose proof (f_equal bt_minLocal Hlim) as E2.
  pose proof (f_equal bt_maxLeaf Hlim) as E3. pose proof (f_equal bt_minLeaf Hlim) as E4.
  cbn [bt_maxLocal bt_minLocal bt_maxLeaf bt_minLeaf set_limits] in *. fold u in E1, E2, E3, E4.
  rewrite u16_small in E1, E2, E3, E4 by lia.
  apply type_ok_cases in Ht as [->|[->|[->| ->]]]; cbn [minLocal maxLocal]; lia.
Qed.

Section sizes.
Context (pBt : BtShared) (t : PageType) (Hbt : bt_ok pBt) (Ht : type_ok pBt t).

(** The bytes of the payload that are stored in the cell. *)
Definition local (n : Z) : Z :=
  if n <=? maxLocal t then n
  else
    let s := minLocal t + (n - minLocal t) mod (usableSize pBt - 4) in
    if s <=? maxLocal t then s else minLocal t.

Lemma local_range n : 0 <= n -> 0 <= local n <= maxLocal t.
Proof.
  intros Hn. pose proof (limits_range _ _ Hbt Ht). destruct Hbt as [_ Hu _]. unfold local.
  destruct (Z.leb_spec n (maxLocal t)); [lia|].
  pose proof (Z.mod_pos_bound (n - minLocal t) (usableSize pBt - 4) ltac:(lia)).
  case_match eqn:E; [apply Z.leb_le in E|]; lia.
Qed.

(** The surplus of a payload that does not fit, in [u32]. *)
Lemma surplus_eq n : maxLocal t < n < 2 ^ 32 ->
  u32 (minLocal t + u32 (n - minLocal t) mod (usableSize pBt - 4)) =
    minLocal t + (n - minLocal t) mod (usableSize pBt - 4) /\
  0 <= minLocal t + (n - minLocal t) mod (usableSize pBt - 4) < 2 ^ 31.
Proof.
  intros Hn. pose proof (limits_range _ _ Hbt Ht). pose proof (bo_size _ Hbt). destruct Hbt as [_ Hu _].
  rewrite (u32_small (n - minLocal t)) by lia.
  pose proof (Z.mod_pos_bound (n - minLocal t) (usableSize pBt - 4) ltac:(lia)).
  split; [apply u32_small|]; lia.
Qed.

(** The size of a cell with a payload of [n] bytes and [h] bytes before it. *)
Definition cell_size (n h : Z) : Z :=
  if n <=? maxLocal t then Z.max 4 (n + h) else local n + h + 4.

Lemma cell_size_range n h : 0 <= n -> 1 <= h <= 18 -> 4 <= cell_size n h <= usableSize pBt - 13.
Proof.
  intros Hn Hh. pose proof (limits_range _ _ Hbt Ht). pose proof (local_range n Hn).
  destruct Hbt as [_ Hu _]. unfold cell_size.
  destruct (Z.leb_spec n (maxLocal t)); lia.
Qed.

Lemma overflow_size_ok n h : maxLocal t < n < 2 ^ 32 -> 1 <= h <= 18 ->
  overflow_size pBt t n h = local n + h + 4.
Proof.
  intros Hn Hh. unfold overflow_size, local. destruct (surplus_eq n Hn) as [-> Hs].
  pose proof (limits_range _ _ Hbt Ht). pose proof (bo_size _ Hbt). destruct Hbt as [_ Hu _].
  rewrite (proj2 (Z.leb_gt n _)) by lia. rewrite u16_small by lia.
  destruct (Z.gtb_spec (minLocal t + (n - minLocal t) mod (usableSize pBt - 4)) (maxLocal t));
    [rewrite (proj2 (Z.leb_gt _ _)) by lia|rewrite (proj2 (Z.leb_le _ _)) by lia]; rewrite u32_small; lia.
Qed.

Lemma parse_sizes_ok pc n q : 0 <= n < 2 ^ 32 -> 1 <= q - pc <= 18 ->
  parse_sizes pBt t pc n q = (local n, cell_size n (q - pc)).
Proof.
  intros Hn Hh. pose proof (limits_range _ _ Hbt Ht). pose proof (bo_size _ Hbt).
  pose proof (cell_size_range n _ ltac:(lia) Hh) as Hc.
  unfold parse_sizes, cell_size, local in *. pose proof (bo_usable _ Hbt).
  destruct (Z.leb_spec n (maxLocal t)) as [Hle|Hgt].
  - rewrite !(u16_small (q - pc)), (u16_small n), u16_small by lia.
    f_equal. destruct (Z.ltb_spec (n + (q - pc)) 4); lia.
  - unfold btreeParseCellAdjustSizeForOverflow. destruct (surplus_eq n) as [-> Hs]; [lia|].
    rewrite i32_small by lia.
    destruct (Z.leb_spec (minLocal t + (n - minLocal t) mod (usableSize pBt - 4)) (maxLocal t));
      rewrite (u16_small (_ - pc)), !u16_small by (rewrite ?u16_small; lia); f_equal; lia.
Qed.
End sizes.

(** [buf] holds the bytes of [c] at [off]. *)
Definition holds_at (off : Z) (c buf : list Z) : Prop := forall i x, c.[i] = Some x -> buf.[off + i] = Some x.

Lemma size_loop_move fuel : forall off c buf p pEnd n v q, holds_at off c buf ->
  size_loop fuel c p pEnd n = Some (v, q) -> size_loop fuel buf (off + p) (off + pEnd) n = Some (v, off + q).
Proof.
  induction fuel as [|fuel IH]; intros off c buf p pEnd n v q Hc; [done|]. rewrite !size_loop_S.
  destruct c.[p + 1] as [b|] eqn:E; [|done]. rewrite <- Z.add_assoc, (Hc _ _ E). cbn [mbind option_bind].
  replace (off + (p + 1) <? off + pEnd) with (p + 1 <? pEnd) by (apply eq_true_iff_eq; rewrite !Z.ltb_lt; lia).
  case_match; [by apply IH|]. by intros [= <- <-].
Qed.

Lemma payload_size_move off c buf p v q : holds_at off c buf ->
  payload_size c p = Some (v, q) -> payload_size buf (off + p) = Some (v, off + q).
Proof.
  intros Hc. unfold payload_size. destruct c.[p] as [b|] eqn:E; [|done]. rewrite (Hc _ _ E).
  cbn [mbind option_bind]. destruct (b >=? 0x80).
  - destruct (size_loop 8 c p (p + 8) (Z.land b 0x7f)) as [[v' q']|] eqn:El; [|done].
    apply (size_loop_move _ off c buf) in El; [|done]. rewrite <- Z.add_assoc, El. cbn [mbind option_bind].
    intros [= <- <-]. by rewrite Z.add_assoc.
  - cbn [mbind option_bind]. intros [= <- <-]. by rewrite Z.add_assoc.
Qed.

Lemma key_loop_move fuel : forall off c buf p pEnd q, holds_at off c buf ->
  key_loop fuel c p pEnd = Some q -> key_loop fuel buf (off + p) (off + pEnd) = Some (off + q).
Proof.
  induction fuel as [|fuel IH]; intros off c buf p pEnd q Hc; [done|]. rewrite !key_loop_S.
  destruct c.[p] as [b|] eqn:E; [|done]. rewrite (Hc _ _ E), <- Z.add_assoc. cbn [mbind option_bind].
  replace (off + (p + 1) <? off + pEnd) with (p + 1 <? pEnd) by (apply eq_true_iff_eq; rewrite !Z.ltb_lt; lia).
  case_match; [by apply IH|]. by intros [= <-].
Qed.

Lemma skip_key_move n : forall off c buf p q, holds_at off c buf ->
  skip_key n c p = Some q -> skip_key n buf (off + p) = Some (off + q).
Proof.
  induction n as [|n IH]; intros off c buf p q Hc; cbn [skip_key].
  - intros [= <-]. by rewrite Z.add_assoc.
  - destruct c.[p] as [b|] eqn:E; [|done]. rewrite (Hc _ _ E), <- Z.add_assoc. cbn [mbind option_bind].
    case_match; [by intros [= <-]|by apply IH].
Qed.

(** The size of a cell does not depend on where it is. *)
Lemma cellSize_move pBt t off c buf n : holds_at off c buf ->
  cellSize pBt t c 0 = Some n -> cellSize pBt t buf off = Some n.
Proof.
  intros Hc. unfold cellSize, cellSizePtr, cellSizePtrIdxLeaf, cellSizePtrNoPayload, cellSizePtrTableLeaf.
  destruct (xCellSize t).
  - destruct (payload_size c (0 + 4)) as [[v q]|] eqn:E; [|done].
    apply (payload_size_move off c buf) in E; [|done]. change (0 + 4) with 4 in E. rewrite E. cbn [mbind option_bind].
    by replace (off + q - off) with (q - 0) by lia.
  - destruct (payload_size c 0) as [[v q]|] eqn:E; [|done].
    apply (payload_size_move off c buf) in E; [|done]. rewrite Z.add_0_r in E. rewrite E. cbn [mbind option_bind].
    by replace (off + q - off) with (q - 0) by lia.
  - destruct (key_loop 9 c (0 + 4) (0 + 4 + 9)) as [q|] eqn:E; [|done].
    apply (key_loop_move _ off c buf) in E; [|done]. cbn [mbind option_bind] in *.
    replace (off + (0 + 4)) with (off + 4) in E by lia. replace (off + (0 + 4 + 9)) with (off + 4 + 9) in E by lia.
    rewrite E. cbn [mbind option_bind]. by replace (off + q - off) with (q - 0) by lia.
  - destruct (payload_size c 0) as [[v q]|] eqn:E; [|done].
    apply (payload_size_move off c buf) in E; [|done]. rewrite Z.add_0_r in E. rewrite E. cbn [mbind option_bind].
    destruct (skip_key 8 c q) as [q'|] eqn:E'; [|done].
    apply (skip_key_move _ off c buf) in E'; [|done]. rewrite E'. cbn [mbind option_bind].
    by replace (off + q' - off) with (q' - 0) by lia.
Qed.

Lemma btreePayloadToLocal_ok pBt t n : bt_ok pBt -> type_ok pBt t -> 0 <= n < 2 ^ 32 ->
  btreePayloadToLocal pBt t n = local pBt t n.
Proof.
  intros Hbt Ht Hn. pose proof (limits_range _ _ Hbt Ht). pose proof (bo_size _ Hbt). pose proof (bo_usable _ Hbt).
  unfold btreePayloadToLocal, local. destruct (Z.leb_spec n (maxLocal t)); [by apply i32_small; lia|].
  rewrite Z.rem_mod_nonneg by lia.
  pose proof (Z.mod_pos_bound (n - minLocal t) (usableSize pBt - 4) ltac:(lia)). by rewrite i32_small by lia.
Qed.

Lemma parse_key_skip buf p k q : bytes_ok buf -> 0 <= p -> parse_key buf p = Some (k, q) ->
  skip_key 8 buf p = Some q /\ p < q <= p + 9.
Proof.
  intros Hb Hp. rewrite parse_key_decode by done. unfold varint_decode.
  destruct (varint_ref 8 1 0 _) as [[n v]|] eqn:E; [|done]. cbn [mbind option_bind]. intros [= <- <-].
  pose proof (varint_ref_len _ _ _ _ _ _ E). rewrite (skip_key_decode _ _ _ _ _ _ _ Hb Hp E).
  split; [f_equal|]; lia.
Qed.

(** The size that the size functions compute from a payload of [n] bytes. *)
Lemma size_value pBt t n h : bt_ok pBt -> type_ok pBt t -> 0 <= n < 2 ^ 32 -> 1 <= h <= 18 ->
  u16 (if n <=? maxLocal t then let n := u32 (n + h) in if n <? 4 then 4 else n
       else overflow_size pBt t n h) = cell_size pBt t n h.
Proof.
  intros Hbt Ht Hn Hh. pose proof (limits_range _ _ Hbt Ht). pose proof (bo_usable _ Hbt). pose proof (bo_size _ Hbt).
  pose proof (cell_size_range _ _ Hbt Ht n h ltac:(lia) Hh) as Hr. unfold cell_size in *.
  destruct (Z.leb_spec n (maxLocal t)); cbv zeta.
  - rewrite u32_small by lia. rewrite u16_small by (destruct (Z.ltb_spec (n + h) 4); lia).
    destruct (Z.ltb_spec (n + h) 4); lia.
  - rewrite overflow_size_ok by (done || lia). apply u16_small. lia.
Qed.

(** How parsing and sizing are paired. *)
Lemma type_methods pBt t : type_ok pBt t ->
  (xParseCell t = pc_Ptr /\ xCellSize t = cs_TableLeaf) \/
  (xParseCell t = pc_Index /\ xCellSize t = cs_IdxLeaf /\ childPtrSize t = 0) \/
  (xParseCell t = pc_Index /\ xCellSize t = cs_Ptr /\ childPtrSize t = 4) \/
  (xParseCell t = pc_NoPayload /\ xCellSize t = cs_NoPayload).
Proof. intros [->|[->|[->| ->]]]%type_ok_cases; cbn; auto 10. Qed.

Section parsed.
Context (pBt : BtShared) (t : PageType) (Hbt : bt_ok pBt) (Ht : type_ok pBt t).

(** A parsed cell and its size. *)
Record sized (pCell : Z) (info : CellInfo) (n : Z) : Prop := {
  sz_eq : n = nSize info;
  sz_range : 4 <= n <= usableSize pBt - 13;
  sz_local : nLocal info = btreePayloadToLocal pBt t (nPayload info);
  sz_inside : xParseCell t <> pc_NoPayload ->
    pCell < pPayload info /\ pPayload info + nLocal info <= pCell + nSize info;
}.

Lemma sized_payload pCell key n q : 0 <= n < 2 ^ 32 -> 1 <= q - pCell <= 18 ->
  sized pCell (mkCellInfo key q n (local pBt t n) (cell_size pBt t n (q - pCell))) (cell_size pBt t n (q - pCell)).
Proof.
  intros Hn Hh. pose proof (limits_range _ _ Hbt Ht) as Hlim.
  constructor; cbn [nSize nLocal nPayload pPayload]; [done|apply (cell_size_range _ _ Hbt Ht); lia| |].
  - by rewrite btreePayloadToLocal_ok.
  - intros _. unfold cell_size. destruct (Z.leb_spec n (maxLocal t)) as [Hle|]; [|lia].
    unfold local. rewrite (proj2 (Z.leb_le _ _)) by done. lia.
Qed.

Lemma sized_leaf buf pCell info : bytes_ok buf -> 0 <= pCell ->
  btreeParseCellPtr pBt t buf pCell = Some info ->
  exists n, cellSizePtrTableLeaf pBt t buf pCell = Some n /\ sized pCell info n.
Proof.
  intros Hb Hp. unfold btreeParseCellPtr, cellSizePtrTableLeaf.
  destruct (payload_size buf pCell) as [[n q]|] eqn:E1; [|done]. cbn [mbind option_bind].
  apply payload_size_range in E1 as [Hn Hq]; [|done].
  destruct (parse_key buf q) as [[k r]|] eqn:E2; [|done]. apply parse_key_skip in E2 as [-> Hr]; [|done|lia].
  cbn [mbind option_bind]. rewrite parse_sizes_ok by (done || lia). intros [= <-].
  rewrite size_value by (done || lia). eexists. split; [done|]. apply sized_payload; lia.
Qed.

Lemma sized_index buf pCell info : bytes_ok buf -> 0 <= pCell -> childPtrSize t = 0 ->
  btreeParseCellPtrIndex pBt t buf pCell = Some info ->
  exists n, cellSizePtrIdxLeaf pBt t buf pCell = Some n /\ sized pCell info n.
Proof.
  intros Hb Hp Hc. unfold btreeParseCellPtrIndex, cellSizePtrIdxLeaf. rewrite Hc, Z.add_0_r.
  destruct (payload_size buf pCell) as [[n q]|] eqn:E1; [|done]. cbn [mbind option_bind].
  apply payload_size_range in E1 as [Hn Hq]; [|done].
  rewrite parse_sizes_ok by (done || lia). intros [= <-].
  rewrite size_value by (done || lia). eexists. split; [done|]. apply sized_payload; lia.
Qed.

Lemma sized_interior buf pCell info : bytes_ok buf -> 0 <= pCell -> childPtrSize t = 4 ->
  btreeParseCellPtrIndex pBt t buf pCell = Some info ->
  exists n, cellSizePtr pBt t buf pCell = Some n /\ sized pCell info n.
Proof.
  intros Hb Hp Hc. unfold btreeParseCellPtrIndex, cellSizePtr. rewrite Hc.
  destruct (payload_size buf (pCell + 4)) as [[n q]|] eqn:E1; [|done]. cbn [mbind option_bind].
  apply payload_size_range in E1 as [Hn Hq]; [|done].
  rewrite parse_sizes_ok by (done || lia). intros [= <-].
  pose proof (size_value pBt t n (q - pCell) Hbt Ht ltac:(lia) ltac:(lia)) as Hs. cbv zeta in Hs.
  assert (Hmin : n <= maxLocal t -> (u32 (n + (q - pCell)) <? 4) = false).
  { intros Hle. pose proof (limits_range _ _ Hbt Ht). pose proof (bo_usable _ Hbt). pose proof (bo_size _ Hbt).
    rewrite u32_small by lia. apply Z.ltb_ge. lia. }
  destruct (Z.leb_spec n (maxLocal t)) as [Hle|Hgt]; [rewrite Hmin in Hs by done|];
    rewrite Hs; eexists; (split; [done|apply sized_payload; lia]).
Qed.

Lemma sized_child buf pCell info : bytes_ok buf -> 0 <= pCell -> xParseCell t = pc_NoPayload ->
  btreeParseCellPtrNoPayload buf pCell = Some info ->
  exists n, cellSizePtrNoPayload buf pCell = Some n /\ sized pCell info n.
Proof.
  intros Hb Hp Hx. unfold btreeParseCellPtrNoPayload, cellSizePtrNoPayload.
  rewrite getVarint_decode by (by apply Forall_drop). unfold varint_decode.
  destruct (varint_ref 8 1 0 _) as [[n v]|] eqn:E; [|done]. cbn [mbind option_bind]. intros [= <-].
  pose proof (varint_ref_len _ _ _ _ _ _ E) as Hn. apply key_loop_decode in E; [|done|lia].
  change (pCell + 4 + Z.of_nat 8 + 1) with (pCell + 4 + 8 + 1) in E.
  replace (pCell + 4 + 9) with (pCell + 4 + 8 + 1) by lia. rewrite E. cbn [mbind option_bind].
  pose proof (limits_range _ _ Hbt Ht). pose proof (bo_usable _ Hbt).
  eexists. split; [done|]. constructor; cbn [nSize nLocal nPayload pPayload].
  - f_equal. lia.
  - rewrite u16_small by lia. lia.
  - rewrite btreePayloadToLocal_ok by (done || lia). unfold local. by rewrite (proj2 (Z.leb_le _ _)) by lia.
  - done.
Qed.

Lemma parse_cell_ok buf pCell info : bytes_ok buf -> 0 <= pCell -> parseCell pBt t buf pCell = Some info ->
  exists n, cellSize pBt t buf pCell = Some n /\ sized pCell info n.
Proof.
  intros Hb Hp. unfold parseCell, cellSize.
  destruct (type_methods pBt t Ht) as [[Ex ->]|[(Ex & -> & Hc)|[(Ex & -> & Hc)|[Ex ->]]]]; rewrite Ex.
  - by apply sized_leaf.
  - by apply sized_index.
  - by apply sized_interior.
  - by apply sized_child.
Qed.
End parsed.

(** C33.  The four size functions return the size that a full parse of the
    cell finds, which is between 4 bytes and what fits on a page; the parse
    stores as many bytes locally as [btreePayloadToLocal] says, inside the
    cell; and the two unrolled readers of a cell header agree with the general
    ones, the first for varints of at most eight bytes. *)
Theorem cell_size_is_parsed_size pBt t buf pCell info :
  bt_ok pBt -> type_ok pBt t -> bytes_ok buf -> 0 <= pCell ->
  parseCell pBt t buf pCell = Some info ->
  cellSize pBt t buf pCell = Some (nSize info) /\
  4 <= nSize info <= usableSize pBt - 13 /\
  nLocal info = btreePayloadToLocal pBt t (nPayload info) /\
  (xParseCell t <> pc_NoPayload ->
     pCell < pPayload info /\ pPayload info + nLocal info <= pCell + nSize info) /\
  (forall p n v, 0 <= p -> getVarint32 (drop (Z.to_nat p) buf) = Some (n, v) -> n <= 8 -> v < 0xffffffff ->
     payload_size buf p = Some (v, p + n)) /\
  (forall p, 0 <= p ->
     parse_key buf p = '(n, k) ← sqlite3GetVarint (drop (Z.to_nat p) buf); Some (k, p + n)).
Proof.
  intros Hbt Ht Hbuf Hp Hparse. destruct (parse_cell_ok _ _ Hbt Ht _ _ _ Hbuf Hp Hparse) as (m & Hm & [-> H2 H3 H4]).
  split; [done|]. split; [done|]. split; [done|]. split; [done|]. split.
  - intros p n v Hp' Hv Hn Hmax. rewrite getVarint32_min in Hv by (by apply Forall_drop).
    destruct (varint_decode _) as [[n' v']|] eqn:E; [|done]. injection Hv as <- <-.
    assert (0 <= v') by (eapply varint_ref_nonneg; [|by apply Forall_drop|exact E]; lia).
    rewrite (payload_size_decode _ _ _ _ Hbuf Hp' E Hn). by rewrite Z.min_l, u32_small by lia.
  - intros p Hp'. rewrite parse_key_decode, getVarint_decode by (done || by apply Forall_drop). done.
Qed.

Definition sample_bt : BtShared := set_limits (mkBtShared 0 0 0 0 0 0 1024 1024 false).
Definition sample_type : PageType := (decodeFlags sample_bt (mkPageType false false false 0 0 0 0 cs_Ptr pc_Index) 13).2.

Lemma sample_bt_ok : bt_ok sample_bt.
Proof. constructor; [by exists 10|by split|reflexivity]. Qed.

Lemma sample_type_ok : type_ok sample_bt sample_type.
Proof. by exists (mkPageType false false false 0 0 0 0 cs_Ptr pc_Index), 13. Qed.

(** A cell with a key of 300 and 5 bytes of payload. *)
Lemma cell_size_is_parsed_size_witness :
  let buf := [9; 9; 5; 130; 44; 1; 2; 3; 4; 5; 9] in
  cellSize sample_bt sample_type buf 2 = Some 8 /\
  parse_key buf 3 = ('(n, k) ← (sqlite3GetVarint (drop (Z.to_nat 3) buf)); Some (k, 3 + n)).
Proof.
  intros buf.
  destruct (cell_size_is_parsed_size sample_bt sample_type buf 2 (mkCellInfo 300 5 5 5 8) sample_bt_ok sample_type_ok
              ltac:(apply (bool_decide_unpack _); exact I) ltac:(lia) eq_refl) as (H1 & _ & _ & _ & _ & H6).
  split; [exact H1|]. apply H6. lia.
Defined.

(** On a varint of nine bytes the inlined reader and [getVarint32] differ. *)
Example payload_size_nine_bytes :
  let buf := [128; 128; 128; 128; 128; 128; 128; 128; 133] in
  payload_size buf 0 = Some (5, 9) /\ getVarint32 buf = Some (9, 133).
Proof. split; reflexivity. Qed.

(** * Free space *)

(** The free blocks [fs], address and size, in the order of their list, from
    the address [pc]; the last points to [next]. *)
Fixpoint chain (data : list Z) (pc : Z) (fs : list (Z * Z)) (next : Z) : Prop :=
  match fs with
  | [] => pc = next
  | (a, n) :: fs =>
      pc = a /\ exists x, get2byte data a = Some x /\ get2byte data (a + 2) = Some n /\ chain data x fs next
  end.

(** The list of free blocks whose head is stored at [ptr]. *)
Definition freelist (data : list Z) (ptr : Z) (fs : list (Z * Z)) : Prop :=
  exists pc, get2byte data ptr = Some pc /\ chain data pc fs 0.

(** Between [lo] and [u], in order, at least 4 bytes apart. *)
Fixpoint spaced (lo u : Z) (fs : list (Z * Z)) : Prop :=
  match fs with
  | [] => True
  | (a, n) :: fs => lo <= a <= u - 4 /\ a + n <= u /\ spaced (a + n + 4) u fs
  end.

Fixpoint free_bytes (fs : list (Z * Z)) : Z :=
  match fs with [] => 0 | (_, n) :: fs => n + free_bytes fs end.

(** The memory of a page: the whole page is readable. *)
Record page_mem (pBt : BtShared) (p : MemPage) : Prop := {
  pm_hdr : hdrOffset p = 0 \/ hdrOffset p = 100;
  pm_child : childPtrSize (pgType p) = 0 \/ childPtrSize (pgType p) = 4;
  pm_len : zlen (aData p) = pageSize pBt;
  pm_bytes : bytes_ok (aData p);
  pm_cells : 0 <= nCell p;
}.

Section freespace.
Context (u : Z) (data : list Z) (Hdata : bytes_ok data) (Hu : 480 <= u <= zlen data) (Hmax : zlen data <= 65536).

Lemma free_scan_S fuel pc nFree x n : pc <= u - 4 -> get2byte data pc = Some x -> get2byte data (pc + 2) = Some n ->
  free_scan (S fuel) data (u - 4) pc nFree =
  if x <=? pc + n + 3 then Some (Some (x, pc, n, i32 (nFree + n)))
  else free_scan fuel data (u - 4) x (i32 (nFree + n)).
Proof.
  intros Hpc Ex En. cbn [free_scan]. destruct (Z.gtb_spec pc (u - 4)); [lia|]. by rewrite Ex, En.
Qed.

Lemma free_scan_end fuel pc nFree : u - 4 < pc -> free_scan (S fuel) data (u - 4) pc nFree = Some None.
Proof. intros Hpc. cbn [free_scan]. destruct (Z.gtb_spec pc (u - 4)); [done|lia]. Qed.

(** What a block of the list holds. *)
Lemma block_read pc : 0 <= pc <= u - 4 -> exists x n,
  get2byte data pc = Some x /\ get2byte data (pc + 2) = Some n /\ 0 <= x < 65536 /\ 0 <= n < 65536.
Proof.
  intros Hpc. destruct (get2byte_some data pc) as (x & Ex & Hx); [done|lia|lia|].
  destruct (get2byte_some data (pc + 2)) as (n & En & Hn); [done|lia|lia|]. by exists x, n.
Qed.

(** Every pointer that the scan follows is larger than the one before, so that
    it ends. *)
Lemma free_scan_total fuel : forall pc nFree,
  0 <= pc -> u - pc < Z.of_nat fuel + 4 -> exists r, free_scan (S fuel) data (u - 4) pc nFree = Some r.
Proof.
  induction fuel as [|fuel IH]; intros pc nFree Hpc Hf;
    (destruct (Z.lt_ge_cases (u - 4) pc) as [Hgt|Hle]; [rewrite free_scan_end by done; eauto|]); [lia|].
  destruct (block_read pc) as (x & n & Ex & En & Hx & Hn); [lia|].
  rewrite (free_scan_S _ _ _ x n) by (done || lia).
  destruct (Z.leb_spec x (pc + n + 3)); [eauto|]. apply IH; lia.
Qed.

Lemma free_scan_next fuel : forall pc nFree x a n nF,
  free_scan fuel data (u - 4) pc nFree = Some (Some (x, a, n, nF)) -> 0 <= x.
Proof.
  induction fuel as [|fuel IH]; intros pc nFree x a n nF; [done|]. cbn [free_scan].
  destruct (pc >? u - 4); [done|]. destruct (get2byte data pc) as [y|] eqn:E1; [|done].
  destruct (get2byte data (pc + 2)) as [m|] eqn:E2; [|done]. cbn [mbind option_bind].
  pose proof (get2byte_range _ _ _ Hdata E1). case_match; [intros [= <- _ _ _]; lia|apply IH].
Qed.

(** A list has fewer blocks than the page has bytes. *)
Lemma chain_length fs : forall lo pc next, chain data pc fs next -> spaced lo u fs -> 0 < lo ->
  (length fs <= length data)%nat.
Proof.
  assert (H : forall lo pc next, chain data pc fs next -> spaced lo u fs -> fs <> [] -> 4 * zlen fs <= u - lo).
  { induction fs as [|[a n] fs IH]; intros lo pc next Hc Hs Hn; [done|].
    destruct Hc as (_ & x & _ & En & Hc), Hs as (Ha & _ & Hs). pose proof (get2byte_range _ _ _ Hdata En).
    rewrite zlen_cons. destruct fs as [|b fs]; [change (zlen []) with 0; lia|].
    specialize (IH _ _ _ Hc Hs ltac:(done)). lia. }
  intros lo pc next Hc Hs Hlo. destruct fs as [|b fs]; [cbn; lia|].
  specialize (H _ _ _ Hc Hs ltac:(done)). unfold zlen in *. lia.
Qed.

(** A well-formed list is scanned to its last block. *)
Lemma free_scan_complete fs : forall fuel lo pc nFree,
  (length fs <= fuel)%nat -> fs <> [] -> 0 < lo -> chain data pc fs 0 -> spaced lo u fs ->
  0 <= nFree <= 65791 + lo ->
  exists a n, free_scan fuel data (u - 4) pc nFree = Some (Some (0, a, n, nFree + free_bytes fs)) /\ a + n <= u.
Proof.
  induction fs as [|[a n] fs IH]; intros fuel lo pc nFree Hf Hn Hlo Hc Hs Hnf; [done|]. clear Hn.
  destruct fuel as [|fuel]; [cbn in Hf; lia|]. cbn [length] in Hf.
  destruct Hc as (-> & x & Ex & En & Hc). destruct Hs as (Ha & Han & Hs).
  pose proof (get2byte_range _ _ _ Hdata En). rewrite (free_scan_S _ _ _ x n) by (done || lia).
  cbn [free_bytes]. rewrite i32_small by lia. destruct fs as [|[b m] fs].
  - cbn [chain] in Hc. subst x. rewrite (proj2 (Z.leb_le _ _)) by lia. exists a, n. split; [|done].
    cbn [free_bytes]. do 3 f_equal. lia.
  - pose proof Hc as (-> & _). pose proof Hs as (Hb & _). rewrite (proj2 (Z.leb_gt _ _)) by lia.
    destruct (IH fuel (a + n + 4) b (nFree + n)) as (a' & n' & -> & Hl); try done; [lia|lia|lia|].
    exists a', n'. split; [|done]. do 3 f_equal. lia.
Qed.

(** A scan that ends at a block without a successor has followed a well-formed
    list. *)
Lemma free_scan_sound fuel : forall lo pc nFree a n nF,
  free_scan fuel data (u - 4) pc nFree = Some (Some (0, a, n, nF)) -> a + n <= u -> 0 < lo <= pc ->
  0 <= nFree <= 65791 + lo ->
  exists fs, fs <> [] /\ chain data pc fs 0 /\ spaced lo u fs /\ nF = nFree + free_bytes fs.
Proof.
  induction fuel as [|fuel IH]; intros lo pc nFree a n nF E Han Hlo Hnf; [done|].
  destruct (Z.lt_ge_cases (u - 4) pc) as [Hgt|Hle]; [by rewrite free_scan_end in E|].
  destruct (block_read pc) as (x & m & Ex & Em & Hx & Hm); [lia|].
  rewrite (free_scan_S _ _ _ x m) in E by (done || lia). rewrite i32_small in E by lia.
  destruct (Z.leb_spec x (pc + m + 3)) as [Hl|Hg].
  - injection E as -> -> -> <-. exists [(a, n)]. cbn [chain spaced free_bytes]. split_and!; try done; try lia.
    by exists 0.
  - destruct (Z.lt_ge_cases (u - 4) x) as [Hgt|Hle'].
    { destruct fuel; [done|]. by rewrite free_scan_end in E. }
    destruct (IH (pc + m + 4) _ _ _ _ _ E Han) as (fs & Hn & Hc & Hs & ->); [lia|lia|].
    exists ((pc, m) :: fs). cbn [chain spaced free_bytes]. split_and!; try done; try lia.
    by exists x.
Qed.
Lemma free_blocks_ok top pc nFree : 0 < top <= 65536 -> 0 <= pc -> 0 <= nFree <= 65791 ->
  exists r, free_blocks data u top pc nFree = Some r /\
    forall n, r = Some n <-> exists fs, chain data pc fs 0 /\ spaced top u fs /\ n = nFree + free_bytes fs.
Proof.
  intros Ht Hpc Hnf. unfold free_blocks. destruct (Z.gtb_spec pc 0) as [Hpos|Hz]; cycle 1.
  { assert (pc = 0) as -> by lia. eexists. split; [done|]. intros n. split.
    - intros [= <-]. exists []. cbn [chain spaced free_bytes]. split_and!; [done|done|lia].
    - intros ([|[a m] fs] & Hc & Hs & ->); [f_equal; cbn; lia|].
      destruct Hc as (<- & _), Hs as (Ha & _). lia. }
  destruct (Z.ltb_spec pc top) as [Hlt|Hge].
  { eexists. split; [done|]. intros n. split; [done|]. intros ([|[a m] fs] & Hc & Hs & ->); [cbn in Hc; lia|].
    destruct Hc as (<- & _), Hs as (Ha & _). lia. }
  assert (Hlen : length data = S (Nat.pred (length data))) by (unfold zlen in *; lia).
  destruct (free_scan_total (Nat.pred (length data)) pc nFree Hpc) as (r & Er); [unfold zlen in *; lia|].
  rewrite <- Hlen in Er. rewrite Er. cbn [mbind option_bind].
  assert (Hcomp : forall fs, chain data pc fs 0 -> spaced top u fs ->
    exists a n, r = Some (0, a, n, nFree + free_bytes fs) /\ a + n <= u).
  { intros fs Hc Hs. destruct (free_scan_complete fs (length data) top pc nFree) as (a & n & E & Hl);
      [|by intros ->; cbn in Hc; lia|lia|done|done|lia|].
    - by apply (chain_length fs top pc 0); [..|lia].
    - exists a, n. split; [|done]. congruence. }
  destruct r as [[[[x a] n] nF]|].
  - destruct (Z.gtb_spec x 0) as [Hx|Hx]; [|destruct (Z.gtb_spec (a + n) u) as [Han|Han]].
    1,2: eexists; (split; [done|]); intros m; (split; [done|]); intros (fs & Hc & Hs & ->);
         destruct (Hcomp fs Hc Hs) as (a' & n' & [= -> -> -> ->] & Hl); lia.
    assert (x = 0) as ->.
    { pose proof Er as Er'. rewrite Hlen in Er'. apply free_scan_next in Er'. lia. }
    eexists. split; [done|]. intros m. split.
    + intros [= <-]. destruct (free_scan_sound _ top _ _ _ _ _ Er Han) as (fs & _ & Hc & Hs & ->); [lia|lia|].
      by exists fs.
    + intros (fs & Hc & Hs & ->). destruct (Hcomp fs Hc Hs) as (a' & n' & [= -> -> ->] & _). done.
  - eexists. split; [done|]. intros m. split; [done|]. intros (fs & Hc & Hs & ->).
    by destruct (Hcomp fs Hc Hs) as (a' & n' & ? & _).
Qed.
End freespace.

(** C34.  [btreeComputeFreeSpace] ends with SQLITE_OK or SQLITE_CORRUPT on any
    page, reading only inside it; it returns SQLITE_OK exactly for the pages
    whose free blocks form a list in order, behind the start of the content
    and inside the usable part, with a sum that fits, and then stores the
    number of free bytes. *)
Theorem btreeComputeFreeSpace_exact pBt p :
  bt_ok pBt -> page_mem pBt p ->
  let hdr := hdrOffset p in
  let iCellFirst := hdr + 8 + childPtrSize (pgType p) + 2 * nCell p in
  exists rc p' top frag,
    btreeComputeFreeSpace pBt p = Some (rc, p') /\
    (rc = SQLITE_OK \/ rc = SQLITE_CORRUPT /\ p' = p) /\
    get2byteNotZero (aData p) (hdr + 5) = Some top /\ (aData p).[hdr + 7] = Some frag /\
    (rc = SQLITE_OK <-> exists fs, freelist (aData p) (hdr + 1) fs /\ spaced top (usableSize pBt) fs /\
                          iCellFirst <= frag + top + free_bytes fs <= usableSize pBt) /\
    (forall fs, rc = SQLITE_OK -> freelist (aData p) (hdr + 1) fs -> spaced top (usableSize pBt) fs ->
       p' = set_nFree (frag + top + free_bytes fs - iCellFirst) p).
Proof.
  intros Hbt [Hh Hc Hl Hb Hn]. cbv zeta. pose proof (bo_size _ Hbt) as Hsz. pose proof (bo_usable _ Hbt) as Hu.
  set (hdr := hdrOffset p) in *. set (data := aData p) in *. set (u := usableSize pBt) in *.
  set (iCellFirst := hdr + 8 + childPtrSize (pgType p) + 2 * nCell p).
  destruct (get2byte_some data (hdr + 5)) as (t0 & Et & Ht0); [done|lia|lia|].
  destruct (get2byte_some data (hdr + 1)) as (pc & Ep & Hpc); [done|lia|lia|].
  destruct (zget_some data (hdr + 7)) as (frag & Ef); [lia|].
  assert (Hfrag : 0 <= frag < 256) by (by apply (Forall_zget _ _ _ _ Hb) in Ef).
  pose proof (get2byteNotZero_ok _ _ _ Hb Et) as Etop. set (top := if t0 =? 0 then 65536 else t0) in *.
  assert (Htop : 0 < top <= 65536) by (unfold top; destruct (Z.eqb_spec t0 0); lia).
  destruct (free_blocks_ok u data Hb ltac:(lia) ltac:(lia) top pc (frag + top)) as (r & Er & Hr); [lia..|].
  assert (Hlist : forall fs, freelist data (hdr + 1) fs -> chain data pc fs 0).
  { intros fs (pc' & Ep' & Hch). congruence. }
  unfold btreeComputeFreeSpace. fold hdr data u. rewrite Etop, Ep, Ef. cbn [mbind option_bind].
  rewrite Er. cbn [mbind option_bind]. destruct r as [n|].
  - destruct (proj1 (Hr n) eq_refl) as (fs & Hch & Hs & En).
    assert (Hfl : freelist data (hdr + 1) fs) by (by exists pc).
    assert (Hcanon : forall gs, freelist data (hdr + 1) gs -> spaced top u gs -> n = frag + top + free_bytes gs).
    { intros gs Hg Hsg. apply Hlist in Hg. assert (Some n = Some (frag + top + free_bytes gs)) as [= ->]; [|done].
      apply Hr. by exists gs. }
    fold iCellFirst. destruct (Z.gtb_spec n u); [|destruct (Z.ltb_spec n iCellFirst)]; cbn [orb];
      do 4 eexists; (split; [reflexivity|]).
    1,2: split; [by right|]; do 2 (split; [done|]); split; [|done]; split; [done|];
         intros (gs & Hg & Hsg & Hsum); pose proof (Hcanon gs Hg Hsg); lia.
    split; [by left|]. do 2 (split; [done|]). split; [split; [|done]; intros _; exists fs; split; [done|split; [done|lia]]|].
    intros gs _ Hg Hsg. rewrite <- (Hcanon gs Hg Hsg), u16_small; [done|lia].
  - do 4 eexists. split; [reflexivity|]. split; [by right|]. do 2 (split; [done|]). split; [|done]. split; [done|].
    intros (gs & Hg & Hsg & _). apply Hlist in Hg.
    assert (None = Some (frag + top + free_bytes gs)); [|done]. apply Hr. by exists gs.
Qed.

Definition sample_page : MemPage :=
  mkMemPage true sample_type 0 8 (-1) 1 1023 []
    ([13; 0; 100; 0; 1; 0; 80; 2; 0; 90] ++ replicate 90 0 ++ [0; 0; 0; 20] ++ replicate 920 0).

Lemma btreeComputeFreeSpace_exact_witness :
  page_mem sample_bt sample_page /\
  exists rc p', btreeComputeFreeSpace sample_bt sample_page = Some (rc, p') /\ rc = SQLITE_OK /\ nFree p' = 92.
Proof.
  assert (Hp : page_mem sample_bt sample_page).
  { constructor; [by left|by left|reflexivity|apply (bool_decide_unpack _); exact I|done]. }
  split; [exact Hp|].
  destruct (btreeComputeFreeSpace_exact sample_bt sample_page sample_bt_ok Hp) as (rc & p' & top & frag & E & _ & Et & Ef & H1 & H2).
  assert (Hf : freelist (aData sample_page) (hdrOffset sample_page + 1) [(100, 20)]).
  { exists 100. split; [reflexivity|]. split; [done|]. by exists 0. }
  injection Et as <-. injection Ef as <-.
  assert (Hs : spaced 80 (usableSize sample_bt) [(100, 20)]) by (cbn; lia).
  assert (Hok : rc = SQLITE_OK) by (apply H1; exists [(100, 20)]; split; [exact Hf|split; [exact Hs|split; vm_compute; discriminate]]).
  exists rc, p'. split; [exact E|]. split; [exact Hok|]. rewrite (H2 _ Hok Hf Hs). reflexivity.
Defined.
