(* ===== verification/BtSpace.v ===== *)
(** The space of a B-tree page (btree.c): finding a free block
    ([pageFindSlot]) and freeing bytes ([freeSpace]), over an invariant that
    describes the content area as a list of blocks. *)
From S2P Require Import Prelude.
From S2P Require Import Vfs.
From S2P Require Import Mem.
From S2P Require Import BtPage.
Open Scope Z_scope.

(** * Operations *)

(** The loop of [pageFindSlot]: the result code, the slot and the data. *)
Fixpoint find_slot (fuel : nat) (hdr nByte maxPC : Z) (aData : list Z) (iAddr pc : Z)
    : option (Z * option Z * list Z) :=
  match fuel with
  | O => None
  | S fuel =>
      if pc <=? maxPC then
        size ← get2byte aData (pc + 2);
        let x := size - nByte in
        if x >=? 0 then
          if x <? 4 then
            frag ← aData.[hdr + 7];
            if frag >? 57 then Some (SQLITE_OK, None, aData)
            else
              aData ← memmove aData iAddr pc 2;
              frag ← aData.[hdr + 7];
              aData ← aData.[hdr + 7 <- u8 (frag + u8 x)];
              Some (SQLITE_OK, Some pc, aData)
          else if x + pc >? maxPC then Some (SQLITE_CORRUPT, None, aData)
          else
            aData ← put2byte aData (pc + 2) x;
            Some (SQLITE_OK, Some (pc + x), aData)
        else
          let iAddr := pc in
          pc ← get2byte aData iAddr;
          if pc <=? iAddr then
            Some (if negb (pc =? 0) then SQLITE_CORRUPT else SQLITE_OK, None, aData)
          else find_slot fuel hdr nByte maxPC aData iAddr pc
      else Some (if pc >? maxPC + nByte - 4 then SQLITE_CORRUPT else SQLITE_OK, None, aData)
  end.

Definition pageFindSlot (pBt : BtShared) (pPg : MemPage) (nByte : Z) : option (Z * option Z * MemPage) :=
  let hdr := hdrOffset pPg in
  let aData := aData pPg in
  pc ← get2byte aData (hdr + 1);
  '(rc, r, aData) ← find_slot (length aData) hdr nByte (usableSize pBt - nByte) aData (hdr + 1) pc;
  Some (rc, r, set_aData aData pPg).

(** The place of [iStart] in the list of free blocks: [iPtr] and [iFreeBlk];
    [None] inside means that the page is corrupt. *)
Fixpoint free_find (fuel : nat) (data : list Z) (iPtr iStart : Z) : option (option (Z * Z)) :=
  match fuel with
  | O => None
  | S fuel =>
      iFreeBlk ← get2byte data iPtr;
      if iFreeBlk <? iStart then
        if iFreeBlk <=? iPtr then
          if iFreeBlk =? 0 then Some (Some (iPtr, iFreeBlk)) else Some None
        else free_find fuel data iFreeBlk iStart
      else Some (Some (iPtr, iFreeBlk))
  end.

(** Coalescing with the free block after: [iSize], [iEnd], [iFreeBlk] and
    [nFrag]. *)
Definition coalesce_next (data : list Z) (usableSize iStart iSize iEnd iFreeBlk : Z)
    : option (option (Z * Z * Z * Z)) :=
  if negb (iFreeBlk =? 0) && (iEnd + 3 >=? iFreeBlk) then
    let nFrag := u8 (iFreeBlk - iEnd) in
    if iEnd >? iFreeBlk then Some None
    else
      n ← get2byte data (iFreeBlk + 2);
      let iEnd := iFreeBlk + n in
      if iEnd >? usableSize then Some None
      else
        iFreeBlk ← get2byte data iFreeBlk;
        Some (Some (u16 (iEnd - iStart), iEnd, iFreeBlk, nFrag))
  else Some (Some (iSize, iEnd, iFreeBlk, 0)).

(** Coalescing with the free block before: [iStart], [iSize] and [nFrag]. *)
Definition coalesce_prev (data : list Z) (hdr iPtr iStart iSize iEnd nFrag : Z)
    : option (option (Z * Z * Z)) :=
  if iPtr >? hdr + 1 then
    n ← get2byte data (iPtr + 2);
    let iPtrEnd := iPtr + n in
    if iPtrEnd + 3 >=? iStart then
      if iPtrEnd >? iStart then Some None
      else Some (Some (iPtr, u16 (iEnd - iPtr), u8 (nFrag + (iStart - iPtrEnd))))
    else Some (Some (iStart, iSize, nFrag))
  else Some (Some (iStart, iSize, nFrag)).

(** The list is not empty: [iPtr], [iFreeBlk], [iStart], [iSize], [iEnd] and
    the data. *)
Definition free_coalesce (data : list Z) (usableSize hdr iStart iSize iEnd : Z)
    : option (option (Z * Z * Z * Z * Z * list Z)) :=
  r ← free_find (length data) data (hdr + 1) iStart;
  match r with
  | None => Some None
  | Some (iPtr, iFreeBlk) =>
      if iFreeBlk >? usableSize - 4 then Some None
      else
        r ← coalesce_next data usableSize iStart iSize iEnd iFreeBlk;
        match r with
        | None => Some None
        | Some (iSize, iEnd, iFreeBlk, nFrag) =>
            r ← coalesce_prev data hdr iPtr iStart iSize iEnd nFrag;
            match r with
            | None => Some None
            | Some (iStart, iSize, nFrag) =>
                frag ← data.[hdr + 7];
                if nFrag >? frag then Some None
                else
                  data ← data.[hdr + 7 <- u8 (frag - nFrag)];
                  Some (Some (iPtr, iFreeBlk, iStart, iSize, iEnd, data))
            end
        end
  end.

(** The end of [freeSpace]: [x] is the start of the content. *)
Definition free_link (data : list Z) (hdr x iPtr iFreeBlk iStart iSize iEnd : Z) : option (Z * list Z) :=
  if iStart <=? x then
    if iStart <? x then Some (SQLITE_CORRUPT, data)
    else if negb (iPtr =? hdr + 1) then Some (SQLITE_CORRUPT, data)
    else
      data ← put2byte data (hdr + 1) iFreeBlk;
      data ← put2byte data (hdr + 5) iEnd;
      Some (SQLITE_OK, data)
  else
    data ← put2byte data iPtr iStart;
    data ← put2byte data iStart iFreeBlk;
    data ← put2byte data (iStart + 2) iSize;
    Some (SQLITE_OK, data).

Definition freeSpace (pBt : BtShared) (pPage : MemPage) (iStart iSize : Z) : option (Z * MemPage) :=
  let hdr := hdrOffset pPage in
  let data := aData pPage in
  let iOrigSize := iSize in
  let iEnd := u32 (iStart + iSize) in
  let iPtr := hdr + 1 in
  b1 ← data.[iPtr + 1];
  b0 ← data.[iPtr];
  r ← (if (b1 =? 0) && (b0 =? 0) then Some (Some (iPtr, 0, iStart, iSize, iEnd, data))
       else free_coalesce data (usableSize pBt) hdr iStart iSize iEnd);
  match r with
  | None => Some (SQLITE_CORRUPT, pPage)
  | Some (iPtr, iFreeBlk, iStart, iSize, iEnd, data) =>
      x ← get2byte data (hdr + 5);
      data ← (if Z.land (btsFlags pBt) BTS_FAST_SECURE =? 0 then Some data
              else memset data iStart 0 iSize);
      '(rc, data) ← free_link data hdr x iPtr iFreeBlk iStart iSize iEnd;
      let pPage := set_aData data pPage in
      Some (rc, if rc =? SQLITE_OK then set_nFree (nFree pPage + iOrigSize) pPage else pPage)
  end.

(** * Blocks *)

(** A block of the content area: its address, its size, and whether it is
    free. *)
Abbreviation block := (Z * Z * bool)%type.

(** Blocks in order between [lo] and [hi]; what they leave out are fragments. *)
Fixpoint layout (lo : Z) (bs : list block) (hi : Z) : Prop :=
  match bs with
  | [] => lo <= hi
  | (a, n, _) :: bs => lo <= a /\ 4 <= n /\ layout (a + n) bs hi
  end.

Fixpoint total (bs : list block) : Z :=
  match bs with [] => 0 | (_, n, _) :: bs => n + total bs end.

Fixpoint of_kind (k : bool) (bs : list block) : list (Z * Z) :=
  match bs with
  | [] => []
  | (a, n, f) :: bs => if Bool.eqb f k then (a, n) :: of_kind k bs else of_kind k bs
  end.
Abbreviation frees := (of_kind true).
Abbreviation cells := (of_kind false).

Lemma layout_le bs : forall lo hi, layout lo bs hi -> lo + total bs <= hi /\ 0 <= total bs.
Proof. induction bs as [|[[a n] f] bs IH]; intros lo hi; cbn; [lia|]. intros (? & ? & ?%IH). lia. Qed.

Lemma layout_weaken bs : forall lo lo' hi hi', layout lo bs hi -> lo' <= lo -> hi <= hi' -> layout lo' bs hi'.
Proof.
  induction bs as [|[[a n] f] bs IH]; intros lo lo' hi hi'; cbn; [lia|]. intros (? & ? & ?) ? ?.
  split_and!; [lia|lia|]. by eapply IH; [|apply Z.le_refl|].
Qed.

Lemma layout_app b1 b2 : forall lo hi,
  layout lo (b1 ++ b2) hi <-> exists m, layout lo b1 m /\ layout m b2 hi.
Proof.
  induction b1 as [|[[a n] f] b1 IH]; intros lo hi; cbn [app layout].
  - split; [exists lo; split; [lia|done]|]. intros (m & Hm & Hl). by eapply layout_weaken.
  - rewrite IH. naive_solver.
Qed.

(** The blocks around one. *)
Lemma layout_mid b1 a n f b2 lo hi :
  layout lo (b1 ++ (a, n, f) :: b2) hi <-> layout lo b1 a /\ 4 <= n /\ layout (a + n) b2 hi.
Proof.
  rewrite layout_app. cbn [layout]. split.
  - intros (m & H1 & H2 & H3 & H4). split_and!; [by eapply layout_weaken|done|done].
  - intros (H1 & H2 & H3). by exists a.
Qed.

Lemma total_app b1 b2 : total (b1 ++ b2) = total b1 + total b2.
Proof. induction b1 as [|[[a n] f] b1 IH]; cbn; lia. Qed.

Lemma of_kind_app k b1 b2 : of_kind k (b1 ++ b2) = of_kind k b1 ++ of_kind k b2.
Proof. induction b1 as [|[[a n] f] b1 IH]; cbn; [done|]. rewrite IH. by destruct (Bool.eqb f k). Qed.

Lemma total_kinds bs : total bs = free_bytes (cells bs) + free_bytes (frees bs).
Proof. induction bs as [|[[a n] [|]] bs IH]; cbn; lia. Qed.

(** What a block of a kind is. *)
Lemma of_kind_elem k bs a n : (a, n) ∈ of_kind k bs <-> (a, n, k) ∈ bs.
Proof.
  induction bs as [|[[b m] f] bs IH]; cbn [of_kind]; [by rewrite !elem_of_nil|].
  destruct (Bool.eqb f k) eqn:E.
  - apply eqb_prop in E as ->. rewrite !elem_of_cons, IH. naive_solver.
  - rewrite elem_of_cons, IH. split; [by right|]. intros [[= <- <- <-]|]; [by rewrite eqb_reflx in E|done].
Qed.

Lemma of_kind_split k bs : forall l1 a n l2, of_kind k bs = l1 ++ (a, n) :: l2 ->
  exists b1 b2, bs = b1 ++ (a, n, k) :: b2 /\ of_kind k b1 = l1 /\ of_kind k b2 = l2.
Proof.
  induction bs as [|[[b m] f] bs IH]; intros l1 a n l2; cbn [of_kind].
  - intros H. by apply (f_equal length) in H; rewrite length_app in H; cbn in H; lia.
  - destruct (Bool.eqb f k) eqn:E.
    + apply eqb_prop in E as ->. destruct l1 as [|x l1]; cbn [app].
      * intros [= -> -> <-]. by exists [], bs.
      * intros [= <- H]. apply IH in H as (b1 & b2 & -> & <- & <-). exists ((b, m, k) :: b1), b2.
        split_and!; [done| |done]. cbn. by rewrite eqb_reflx.
    + intros H. apply IH in H as (b1 & b2 & -> & <- & <-). exists ((b, m, f) :: b1), b2.
      split_and!; [done| |done]. cbn. by rewrite E.
Qed.

Lemma layout_count k bs lo hi : layout lo bs hi -> 4 * zlen (of_kind k bs) <= hi - lo.
Proof.
  revert lo. induction bs as [|[[a n] f] bs IH]; intros lo; cbn [layout of_kind].
  - change (zlen []) with 0. lia.
  - intros (? & ? & ?%IH). case_match; rewrite ?zlen_cons; lia.
Qed.

(** Blocks that hold no free ones have at least 4 bytes each. *)
Lemma layout_gap bs lo hi : layout lo bs hi -> hi < lo + 4 -> bs = [].
Proof. destruct bs as [|[[a n] f] bs]; [done|]. cbn. intros (H1 & H2 & H3%layout_le) H. lia. Qed.

Lemma layout_in bs : forall lo hi a n k, layout lo bs hi -> (a, n, k) ∈ bs -> lo <= a /\ a + n <= hi /\ 4 <= n.
Proof.
  induction bs as [|[[b m] f] bs IH]; intros lo hi a n k; [by rewrite elem_of_nil|]. cbn.
  intros (H1 & H2 & H3) [[= -> -> ->]|H]%elem_of_cons; [apply layout_le in H3; lia|].
  specialize (IH _ _ _ _ _ H3 H). lia.
Qed.

(** Two blocks of different kinds are apart. *)
Lemma layout_apart bs : forall lo hi a n b m k, layout lo bs hi -> (a, n, k) ∈ bs -> (b, m, negb k) ∈ bs ->
  a + n <= b \/ b + m <= a.
Proof.
  induction bs as [|[[c l] f] bs IH]; intros lo hi a n b m k; [by rewrite elem_of_nil|]. cbn [layout].
  intros (H1 & H2 & H3) [[= -> -> ->]|Ha]%elem_of_cons [E|Hb]%elem_of_cons.
  - injection E as _ _ E. by destruct f.
  - left. by pose proof (layout_in _ _ _ _ _ _ H3 Hb) as (? & _).
  - injection E as -> -> <-. right. by pose proof (layout_in _ _ _ _ _ _ H3 Ha) as (? & _).
  - by eapply IH.
Qed.

(** * The list of free blocks in memory *)

(** From the location [ptr] of a pointer, through the blocks [fs], to the
    location [q] of the next pointer. *)
Fixpoint seg (data : list Z) (ptr : Z) (fs : list (Z * Z)) (q : Z) : Prop :=
  match fs with
  | [] => ptr = q
  | (a, n) :: fs => get2byte data ptr = Some a /\ get2byte data (a + 2) = Some n /\ seg data a fs q
  end.

Lemma chain_seg data fs1 : forall pc fs2 ptr, get2byte data ptr = Some pc ->
  chain data pc (fs1 ++ fs2) 0 <->
  exists q pc', seg data ptr fs1 q /\ get2byte data q = Some pc' /\ chain data pc' fs2 0.
Proof.
  induction fs1 as [|[a n] fs1 IH]; intros pc fs2 ptr Hp; cbn [app seg chain].
  - split; [intros H; by exists ptr, pc|]. intros (q & pc' & <- & Hq & H). congruence.
  - split.
    + intros (-> & x & Hx & Hn & (q & pc' & H1 & H2 & H3)%(IH _ _ _ Hx)). exists q, pc'. naive_solver.
    + intros (q & pc' & (H1 & H2 & H3) & H4 & H5). assert (pc = a) as -> by congruence. split; [done|].
      destruct fs1 as [|[b m] fs1].
      * cbn in H3. subst q. exists pc'. split_and!; [done|done|]. apply (IH _ _ a H4). by exists a, pc'.
      * pose proof H3 as (Hb & _). exists b. split_and!; [done|done|]. apply (IH _ _ a Hb). by exists q, pc'.
Qed.

Lemma freelist_seg data ptr fs1 fs2 :
  freelist data ptr (fs1 ++ fs2) <->
  exists q pc, seg data ptr fs1 q /\ get2byte data q = Some pc /\ chain data pc fs2 0.
Proof.
  unfold freelist. split.
  - intros (pc & Hp & H). by apply (chain_seg _ _ _ _ _ Hp).
  - intros (q & pc & H1 & H2 & H3). destruct fs1 as [|[a n] fs1].
    + cbn in H1. subst q. by exists pc.
    + pose proof H1 as (Ha & _). exists a. split; [done|]. apply (chain_seg _ _ _ _ _ Ha). by exists q, pc.
Qed.

Lemma seg_snoc data fs : forall ptr a n q,
  seg data ptr (fs ++ [(a, n)]) q <->
  q = a /\ get2byte data (a + 2) = Some n /\ exists p, seg data ptr fs p /\ get2byte data p = Some a.
Proof.
  induction fs as [|[b m] fs IH]; intros ptr a n q; cbn [app seg].
  - naive_solver.
  - rewrite IH. naive_solver.
Qed.

(** Where the next free block may start. *)
Fixpoint after (lo : Z) (fs : list (Z * Z)) : Z :=
  match fs with [] => lo | (a, n) :: fs => after (a + n + 4) fs end.

Lemma after_snoc fs : forall lo a n, after lo (fs ++ [(a, n)]) = a + n + 4.
Proof. induction fs as [|[b m] fs IH]; intros lo a n; cbn [app after]; [done|apply IH]. Qed.

Lemma spaced_app fs1 fs2 : forall lo u,
  spaced lo u (fs1 ++ fs2) <-> spaced lo u fs1 /\ spaced (after lo fs1) u fs2.
Proof. induction fs1 as [|[a n] fs1 IH]; intros lo u; cbn [app spaced after]; [tauto|]. rewrite IH. tauto. Qed.

Lemma spaced_weaken fs lo lo' u : spaced lo u fs -> lo' <= lo -> spaced lo' u fs.
Proof. destruct fs as [|[a n] fs]; [done|]. cbn. intros (H1 & H2 & H3) Hl. split_and!; [lia|lia|lia|done]. Qed.

Lemma after_ge fs : forall lo u, spaced lo u fs -> (forall b m, (b, m) ∈ fs -> 0 <= m) -> lo <= after lo fs.
Proof.
  induction fs as [|[b m] fs IH]; intros lo u; cbn [spaced after]; [lia|]. intros (H1 & H2 & H3) Hm.
  specialize (IH _ _ H3). assert (0 <= m) by (apply (Hm b); apply elem_of_cons; by left).
  assert (b + m + 4 <= after (b + m + 4) fs); [apply IH; intros c l Hc; apply (Hm c), elem_of_cons; by right|lia].
Qed.

(** What the bytes of a chain are needed for. *)
Definition in_heads (fs : list (Z * Z)) (j : Z) : Prop := exists a n, (a, n) ∈ fs /\ a <= j < a + 4.

Lemma chain_frame data data' fs : forall pc next, chain data pc fs next ->
  (forall j, 0 <= j -> in_heads fs j -> data'.[j] = data.[j]) -> chain data' pc fs next.
Proof.
  induction fs as [|[a n] fs IH]; intros pc next; [done|]. intros (-> & x & Hx & Hn & H) Hs.
  pose proof (get2byte_inv _ _ _ Hx) as [? _]. split; [done|]. exists x.
  assert (Hh : forall j, a <= j < a + 4 -> data'.[j] = data.[j]).
  { intros j Hj. apply Hs; [lia|]. exists a, n. split; [apply elem_of_cons; by left|done]. }
  split_and!.
  - rewrite <- Hx. apply get2byte_ext; apply Hh; lia.
  - rewrite <- Hn. apply get2byte_ext; apply Hh; lia.
  - apply IH; [done|]. intros j Hj (b & m & Hb & Hjb). apply Hs; [done|]. exists b, m.
    split; [apply elem_of_cons; by right|done].
Qed.

(** A segment does not use the pointer at its end. *)
Lemma seg_frame data data' fs : forall ptr q lo u, seg data ptr fs q -> spaced lo u fs -> 0 <= ptr -> ptr + 2 <= lo ->
  (forall a n, (a, n) ∈ fs -> 0 <= n) ->
  (forall j, 0 <= j -> ptr <= j < ptr + 2 \/ in_heads fs j -> ~ q <= j < q + 2 -> data'.[j] = data.[j]) ->
  seg data' ptr fs q /\ (fs = [] \/ lo <= q).
Proof.
  induction fs as [|[a n] fs IH]; intros ptr q lo u; [naive_solver|].
  intros (Hp & Hn & H) (Ha & Han & Hs) Hptr Hlo Hnn Hsame.
  assert (Hn0 : 0 <= n) by (apply (Hnn a); apply elem_of_cons; by left).
  destruct (IH a q (a + n + 4) u H Hs) as [H' Hq]; [lia|lia| | |].
  - intros b m Hb. apply (Hnn b). apply elem_of_cons. by right.
  - intros j Hj Hin Hjq. apply Hsame; [done| |done]. right. destruct Hin as [Hin|(b & m & Hb & Hjb)].
    + exists a, n. split; [apply elem_of_cons; by left|lia].
    + exists b, m. split; [apply elem_of_cons; by right|done].
  - assert (Hqa : a = q \/ a + 4 <= q) by (destruct Hq as [->|Hq]; [by left|lia]).
    assert (Hhead : forall j, a <= j < a + 4 -> in_heads ((a, n) :: fs) j).
    { intros j Hj. exists a, n. split; [apply elem_of_cons; by left|done]. }
    cbn [seg]. split; [split_and!|right; lia]; [| |done].
    + rewrite <- Hp. apply get2byte_ext; apply Hsame; (lia || by left; lia).
    + rewrite <- Hn. apply get2byte_ext; (apply Hsame; [lia|right; apply Hhead; lia|lia]).
Qed.

(** * The invariant *)

(** The page [data] with [u] usable bytes, header at [hdr] and the end of the
    cell pointers at [gap] has its content from [top] on, the blocks [bs]. *)
Record space (u hdr gap : Z) (data : list Z) (top : Z) (bs : list block) : Prop := {
  sp_hdr : 0 <= hdr /\ hdr + 8 <= gap <= top;
  sp_u : 480 <= u <= zlen data /\ zlen data <= 65536;
  sp_bytes : bytes_ok data;
  sp_top : get2byte data (hdr + 5) = Some (u16 top);
  sp_frag : data.[hdr + 7] = Some (u - top - total bs);
  sp_layout : layout top bs u;
  sp_list : freelist data (hdr + 1) (frees bs);
  sp_spaced : spaced (top + 1) u (frees bs);
}.

(** An operation leaves the cells [cs], their pointers and their number. *)
Record keeps (hdr gap : Z) (cs : list (Z * Z)) (data data' : list Z) : Prop := {
  kp_len : zlen data' = zlen data;
  kp_bytes : bytes_ok data -> bytes_ok data';
  kp_head j : 0 <= j -> j < hdr + 1 \/ hdr + 3 <= j < hdr + 5 \/ hdr + 8 <= j < gap -> data'.[j] = data.[j];
  kp_cell a n j : (a, n) ∈ cs -> a <= j < a + n -> data'.[j] = data.[j];
}.

Lemma keeps_refl hdr gap cs data : keeps hdr gap cs data data.
Proof. by constructor. Qed.

Lemma blocks_keep_trans hdr gap cs d1 d2 d3 : keeps hdr gap cs d1 d2 -> keeps hdr gap cs d2 d3 -> keeps hdr gap cs d1 d3.
Proof.
  intros [L1 B1 H1 C1] [L2 B2 H2 C2]. constructor; [congruence|auto| |].
  - intros j Hj Hh. by rewrite H2, H1.
  - intros a n j Ha Hj. by rewrite (C2 a n), (C1 a n).
Qed.

(** A write in the header, or away from the cells. *)
Lemma only_keeps hdr gap cs lo hi data data' : only lo hi data data' -> gap <= lo \/ hdr + 5 <= lo /\ hi <= hdr + 8 \/ hdr + 1 <= lo /\ hi <= hdr + 3 ->
  hdr + 8 <= gap ->
  (forall a n, (a, n) ∈ cs -> 0 <= a /\ (a + n <= lo \/ hi <= a)) -> keeps hdr gap cs data data'.
Proof.
  intros [L B G] Hlo Hg Hcs. constructor; [done|done| |].
  - intros j Hj Hh. apply G; [done|lia].
  - intros a n j Ha Hj. specialize (Hcs a n Ha). apply G; lia.
Qed.

Section free.
Context (u hdr gap : Z) (data : list Z) (top : Z).

(** Freeing [iStart..iEnd] has been merged with the free blocks around it into
    [s..e], between the blocks [b1] and [b2]; the link to it is at [iPtr]. *)
Record coalesced (b1 b2 : list block) (iPtr iFreeBlk s e : Z) : Prop := {
  co_left : layout top b1 s;
  co_size : 4 <= e - s;
  co_right : layout e b2 u;
  co_link : exists q, seg data (hdr + 1) (frees b1) q /\ (iPtr = q \/ iPtr = s /\ q + 4 <= s /\ get2byte data q = Some s);
  co_next : chain data iFreeBlk (frees b2) 0;
  co_spaced : spaced (top + 1) u (frees b1) /\ spaced (e + 4) u (frees b2);
  co_top : s = top \/ after (top + 1) (frees b1) <= s;
}.

Lemma free_find_ok f1 : forall fuel ptr q pc lo iStart,
  (length f1 < fuel)%nat -> seg data ptr f1 q -> get2byte data q = Some pc -> spaced lo u f1 -> 0 <= ptr < lo ->
  (forall a n, (a, n) ∈ f1 -> 0 <= n /\ a < iStart) -> pc = 0 \/ iStart <= pc -> 0 < iStart ->
  free_find fuel data ptr iStart = Some (Some (q, pc)).
Proof.
  induction f1 as [|[a n] f1 IH]; intros [|fuel] ptr q pc lo iStart Hf Hseg Hq Hs Hlo Hin Hpc Hi; cbn [length] in Hf; try lia;
    cbn [free_find seg spaced] in *.
  - subst q. rewrite Hq. cbn [mbind option_bind]. destruct (Z.ltb_spec pc iStart); [|done].
    destruct Hpc as [->|?]; [|lia]. rewrite (proj2 (Z.leb_le _ _)) by lia. done.
  - destruct Hseg as (Ha & Hn & Hseg), Hs as (H1 & H2 & Hs). rewrite Ha. cbn [mbind option_bind].
    destruct (Hin a n ltac:(apply elem_of_cons; by left)) as [Hn0 Hai].
    rewrite (proj2 (Z.ltb_lt _ _)), (proj2 (Z.leb_gt _ _)) by lia.
    apply (IH fuel a q pc (a + n + 4)); try done; [lia|lia|]. intros b m Hb. apply (Hin b m), elem_of_cons. by right.
Qed.

Lemma coalesce_next_ok b2 lo iStart iSize e0 pc :
  bytes_ok data -> u <= 65536 -> 0 < iStart -> iStart + 4 <= e0 -> iSize = e0 - iStart ->
  layout e0 b2 u -> chain data pc (frees b2) 0 -> spaced lo u (frees b2) ->
  exists b2' e pc' d, coalesce_next data u iStart iSize e0 pc = Some (Some (e - iStart, e, pc', d)) /\
    layout e b2' u /\ cells b2' = cells b2 /\ chain data pc' (frees b2') 0 /\ spaced (e + 4) u (frees b2') /\
    e0 <= e /\ 0 <= d <= 3 /\ total b2 = total b2' + (e - e0) - d.
Proof.
  intros Hb Hu Hi He -> Hl Hc Hs. unfold coalesce_next. destruct (frees b2) as [|[f k] f2] eqn:Ef.
  - cbn in Hc. subst pc. exists b2, e0, 0, 0. rewrite Ef. cbn [chain spaced negb Z.eqb andb]. split_and!; try done; lia.
  - pose proof Hc as (-> & x & Hx & Hk & Hc'). destruct Hs as (Hf & Hfk & Hs).
    destruct (of_kind_split true b2 [] f k f2 Ef) as (c & b2' & -> & Ec & Ef2).
    apply layout_mid in Hl as (Hl1 & Hk4 & Hl2). pose proof (layout_le _ _ _ Hl1). pose proof (layout_le _ _ _ Hl2).
    rewrite (proj2 (Z.eqb_neq f 0)) by lia. cbn [negb andb]. destruct (Z.geb_spec (e0 + 3) f) as [Hge|Hlt].
    + apply layout_gap in Hl1 as ->; [|lia]. cbn [app of_kind total] in *. rewrite u8_small by lia.
      destruct (Z.gtb_spec e0 f); [lia|]. rewrite Hk. cbn [mbind option_bind].
      destruct (Z.gtb_spec (f + k) u); [lia|]. rewrite Hx. cbn [mbind option_bind]. rewrite u16_small by lia.
      exists b2', (f + k), x, (f - e0). rewrite Ef2. cbn [Bool.eqb]. split_and!; try done; lia.
    + exists (c ++ (f, k, true) :: b2'), e0, f, 0. rewrite Ef. split_and!; try done; try lia.
      * by apply layout_mid.
      * by cbn [spaced]; split_and!; [lia|lia|lia|].
Qed.

Lemma coalesce_prev_ok b1 a e q nFrag :
  bytes_ok data -> u <= 65536 -> 0 <= hdr -> hdr + 8 <= top -> a + 4 <= e <= u ->
  layout top b1 a -> seg data (hdr + 1) (frees b1) q -> spaced (top + 1) u (frees b1) -> 0 <= nFrag <= 3 ->
  exists b1' s d, coalesce_prev data hdr q a (e - a) e nFrag = Some (Some (s, e - s, nFrag + d)) /\
    layout top b1' s /\ cells b1' = cells b1 /\ s <= a /\ 0 <= d <= 3 /\
    total b1 = total b1' + (a - s) - d /\ spaced (top + 1) u (frees b1') /\
    (exists q', seg data (hdr + 1) (frees b1') q' /\ (q = q' \/ q = s /\ q' + 4 <= s /\ get2byte data q' = Some s)) /\
    (s = top \/ after (top + 1) (frees b1') <= s) /\ (s = top -> q = hdr + 1).
Proof.
  intros Hb Hu Hh Ht He Hl Hseg Hs Hd. unfold coalesce_prev. pose proof (layout_le _ _ _ Hl) as Hle.
  destruct (decide (frees b1 = [])) as [Ef|Ef].
  - rewrite Ef in *. cbn in Hseg. subst q. destruct (Z.gtb_spec (hdr + 1) (hdr + 1)); [lia|].
    exists b1, a, 0. rewrite Ef. cbn [spaced seg after]. rewrite Z.add_0_r. split_and!; try done; try lia.
    exists (hdr + 1). split; [done|by left].
  - destruct (exists_last Ef) as (f1 & [p m] & E). clear Ef. rewrite E in Hseg, Hs.
    apply seg_snoc in Hseg as (-> & Hm & q' & Hseg & Hq'). apply spaced_app in Hs as [Hs1 Hs2].
    cbn [spaced] in Hs2. destruct Hs2 as (Hp & Hpm & _).
    destruct (of_kind_split true b1 f1 p m [] E) as (b1' & c & -> & Eb & Ec).
    apply layout_mid in Hl as (Hl1 & Hm4 & Hl2). pose proof (layout_le _ _ _ Hl1). pose proof (layout_le _ _ _ Hl2).
    assert (Hnn : forall x y, (x, y) ∈ f1 -> 0 <= y).
    { intros x y Hin. rewrite <- Eb in Hin. apply of_kind_elem in Hin. apply (layout_in _ _ _ _ _ _ Hl1) in Hin. lia. }
    pose proof (after_ge _ _ _ Hs1 Hnn).
    destruct (Z.gtb_spec p (hdr + 1)); [|lia]. rewrite Hm. cbn [mbind option_bind].
    destruct (Z.geb_spec (p + m + 3) a) as [Hge|Hlt].
    + apply layout_gap in Hl2 as ->; [|lia]. destruct (Z.gtb_spec (p + m) a); [lia|].
      rewrite u16_small, u8_small by lia. exists b1', p, (a - (p + m)). rewrite Eb.
      rewrite !of_kind_app, !total_app. cbn [of_kind total Bool.eqb]. rewrite app_nil_r. split_and!; try done; try lia.
      * exists q'. split; [done|]. right. split_and!; [done| |done].
        destruct (decide (f1 = [])) as [->|Hf1]; [cbn in Hseg; lia|].
        destruct (exists_last Hf1) as (f0 & [x y] & ->). apply seg_snoc in Hseg as (-> & _ & _).
        assert (Hin : (x, y) ∈ f0 ++ [(x, y)]) by (apply elem_of_app; right; by apply list_elem_of_singleton).
        pose proof (Hnn _ _ Hin). rewrite after_snoc in Hp. lia.
    + exists (b1' ++ (p, m, true) :: c), a, 0. rewrite E, Z.add_0_r. split_and!; try done; try lia.
      * by apply layout_mid.
      * apply spaced_app. split; [done|]. cbn [spaced]. split_and!; done || lia.
      * exists p. split; [|by left]. apply seg_snoc. split_and!; [done|done|]. by exists q'.
      * right. rewrite after_snoc. lia.
Qed.

(** The first part of [freeSpace]: merging with the free blocks around. *)
Lemma free_coalesce_ok b1 a n b2 :
  space u hdr gap data top (b1 ++ (a, n, false) :: b2) ->
  exists b1' b2' iPtr pc s e data',
    free_coalesce data u hdr a n (a + n) = Some (Some (iPtr, pc, s, e - s, e, data')) /\
    coalesced b1' b2' iPtr pc s e /\ cells b1' = cells b1 /\ cells b2' = cells b2 /\ (s = top -> iPtr = hdr + 1) /\
    only (hdr + 7) (hdr + 8) data data' /\ data'.[hdr + 7] = Some (u - top - total (b1' ++ (s, e - s, true) :: b2')).
Proof.
  intros [Hh Hu Hb Htop Hfrag Hlay Hlist Hsp]. rewrite of_kind_app in Hlist, Hsp. cbn [of_kind Bool.eqb] in *.
  pose proof Hlay as (Hl1 & Hn4 & Hl2)%layout_mid. pose proof (layout_le _ _ _ Hl1). pose proof (layout_le _ _ _ Hl2).
  apply freelist_seg in Hlist as (q & pc & Hseg & Hq & Hch). apply spaced_app in Hsp as [Hs1 Hs2].
  assert (Hin1 : forall x y, (x, y) ∈ frees b1 -> 0 <= y /\ x < a).
  { intros x y Hin. apply of_kind_elem in Hin. apply (layout_in _ _ _ _ _ _ Hl1) in Hin. lia. }
  assert (Hpc : pc = 0 \/ a <= pc <= u - 4).
  { destruct (frees b2) as [|[f k] f2] eqn:Ef; [by left|right]. destruct Hch as (-> & _).
    assert (Hin : (f, k) ∈ frees b2) by (rewrite Ef; apply elem_of_cons; by left).
    apply of_kind_elem in Hin. apply (layout_in _ _ _ _ _ _ Hl2) in Hin. lia. }
  pose proof (layout_count true _ _ _ Hl1) as Hcount.
  assert (Hfind : free_find (length data) data (hdr + 1) a = Some (Some (q, pc))).
  { apply (free_find_ok (frees b1) _ _ _ _ (top + 1)); try done; [unfold zlen in *; lia|lia|lia|lia]. }
  unfold free_coalesce. rewrite Hfind. cbn [mbind option_bind].
  destruct (Z.gtb_spec pc (u - 4)); [lia|].
  destruct (coalesce_next_ok b2 (after (top + 1) (frees b1)) a n (a + n) pc)
    as (b2' & e & pc' & d2 & -> & R1 & R2 & R3 & R4 & R5 & R6 & R7); try done; try lia. cbn [mbind option_bind].
  pose proof (layout_le _ _ _ R1).
  destruct (coalesce_prev_ok b1 a e q d2) as (b1' & s & d1 & -> & L1 & L2 & L3 & L4 & L5 & L6 & L7 & L8 & L9);
    try done; try lia. cbn [mbind option_bind].
  assert (Hlay' : layout top (b1' ++ (s, e - s, true) :: b2') u).
  { apply layout_mid. split_and!; [done|lia|]. by replace (s + (e - s)) with e by lia. }
  pose proof (layout_le _ _ _ Hlay'). rewrite !total_app in *. cbn [total] in *.
  rewrite Hfrag. cbn [mbind option_bind].
  destruct (Z.gtb_spec (d2 + d1) (u - top - (total b1 + (n + total b2)))); [lia|].
  assert (0 <= u - top - (total b1 + (n + total b2)) < 256) by (by apply (Forall_zget _ _ _ _ Hb) in Hfrag).
  destruct (only_set data (hdr + 7) (u8 (u - top - (total b1 + (n + total b2)) - (d2 + d1)))) as (data' & -> & Ho & Hg);
    [lia|apply u8_ok|]. cbn [mbind option_bind].
  exists b1', b2', q, pc', s, e, data'. split; [done|].
  split; [constructor; first [done|lia|by split]|]. split_and!; try done.
  - replace (hdr + 8) with (hdr + 7 + 1) by lia. done.
  - rewrite Hg, u8_small, total_app by lia. cbn [total]. f_equal. lia.
Qed.

(** When the list is empty nothing is merged. *)
Lemma no_coalesce b1 a n b2 :
  space u hdr gap data top (b1 ++ (a, n, false) :: b2) -> get2byte data (hdr + 1) = Some 0 ->
  coalesced b1 b2 (hdr + 1) 0 a (a + n) /\
  data.[hdr + 7] = Some (u - top - total (b1 ++ (a, a + n - a, true) :: b2)).
Proof.
  intros [Hh Hu Hb Htop Hfrag Hlay Hlist Hsp] H0. rewrite of_kind_app in Hlist. cbn [of_kind Bool.eqb] in Hlist.
  assert (E : frees b1 ++ frees b2 = []).
  { destruct Hlist as (pc & Ep & Hch). destruct (frees b1 ++ frees b2) as [|[f k] fs] eqn:E; [done|].
    destruct Hch as (-> & _). assert (f = 0) as -> by congruence.
    rewrite of_kind_app in Hsp. cbn [of_kind Bool.eqb] in Hsp. rewrite E in Hsp. cbn in Hsp. lia. }
  apply app_eq_nil in E as [E1 E2]. apply layout_mid in Hlay as (Hl1 & Hn & Hl2).
  pose proof (layout_le _ _ _ Hl1). split.
  - constructor; rewrite ?E1, ?E2; cbn [seg chain spaced after]; try done; try lia.
    exists (hdr + 1). split; [done|by left].
  - rewrite Hfrag, !total_app. cbn [total]. f_equal. lia.
Qed.
End free.

Lemma seg_end data fs : forall ptr q, seg data ptr fs q -> q = ptr \/ exists n, (q, n) ∈ fs.
Proof.
  induction fs as [|[a n] fs IH]; intros ptr q; cbn [seg]; [by left|]. intros (_ & _ & [->|[m Hm]]%IH); right.
  - exists n. apply elem_of_cons. by left.
  - exists m. apply elem_of_cons. by right.
Qed.

Lemma layout_nonneg k bs lo hi b m : layout lo bs hi -> (b, m) ∈ of_kind k bs -> 0 <= m.
Proof. intros Hl Hin%of_kind_elem. apply (layout_in _ _ _ _ _ _ Hl) in Hin. lia. Qed.

(** A merge is described by the pointers in the header and in the other free
    blocks. *)
Lemma frees_nonneg bs lo hi : layout lo bs hi -> 0 <= free_bytes (frees bs).
Proof.
  revert lo. induction bs as [|[[a n] [|]] bs IH]; intros lo; cbn; [lia| |]; intros (? & ? & Hl); specialize (IH _ Hl); lia.
Qed.

Lemma coalesced_frame u hdr d d' top b1 b2 iPtr pc s e :
  coalesced u hdr d top b1 b2 iPtr pc s e -> 0 <= hdr -> hdr + 3 <= top ->
  (forall j, 0 <= j -> hdr + 1 <= j < hdr + 3 \/ top <= j < s \/ e <= j -> d'.[j] = d.[j]) ->
  coalesced u hdr d' top b1 b2 iPtr pc s e.
Proof.
  intros [C1 C2 C3 (q & Hseg & Hq) C5 [C6 C7] C8] Hh Ht Hs.
  assert (Hhead : forall j, in_heads (frees b1) j -> top <= j < s).
  { intros j (a & n & Hin%of_kind_elem & Hj). apply (layout_in _ _ _ _ _ _ C1) in Hin. lia. }
  constructor; try done.
  - exists q. destruct (seg_frame d d' (frees b1) (hdr + 1) q (top + 1) u Hseg C6) as [H' _];
      [lia|lia|intros a n; by eapply layout_nonneg| |].
    + intros j Hj [Hj'|Hj'%Hhead] _; apply Hs; lia.
    + split; [done|]. destruct Hq as [Hq|(Hq1 & Hq2 & Hq3)]; [by left|right]. split_and!; [done|done|].
      rewrite <- Hq3. pose proof (get2byte_inv _ _ _ Hq3).
      assert (Hqr : hdr + 1 = q \/ top <= q).
      { destruct (seg_end _ _ _ _ Hseg) as [->|[n Hin]]; [by left|right].
        apply of_kind_elem in Hin. apply (layout_in _ _ _ _ _ _ C1) in Hin. lia. }
      apply get2byte_ext; apply Hs; lia.
  - eapply chain_frame; [done|]. intros j Hj (a & n & Hin%of_kind_elem & Hjh).
    apply (layout_in _ _ _ _ _ _ C3) in Hin. apply Hs; lia.
Qed.

Section link.
Context (u hdr gap : Z) (d : list Z) (top : Z) (b1 b2 : list block) (iPtr pc s e : Z).
Hypothesis Hco : coalesced u hdr d top b1 b2 iPtr pc s e.
Hypothesis Hhdr : 0 <= hdr /\ hdr + 8 <= gap <= top.
Hypothesis Hu : 480 <= u <= zlen d /\ zlen d <= 65536.
Hypothesis Hb : bytes_ok d.
Hypothesis Htop : get2byte d (hdr + 5) = Some top.
Hypothesis Hfrag : d.[hdr + 7] = Some (u - top - total (b1 ++ (s, e - s, true) :: b2)).
Hypothesis Hptr : s = top -> iPtr = hdr + 1.

Lemma link_bounds : top <= s /\ e <= u /\ 0 <= pc < 65536 /\
  (forall a n, (a, n) ∈ cells b1 ++ cells b2 -> 0 <= a /\ (a + n <= s \/ e <= a) /\ top <= a).
Proof.
  destruct Hco as [C1 C2 C3 _ C5 [_ C7] _]. pose proof (layout_le _ _ _ C1). pose proof (layout_le _ _ _ C3).
  split_and!; [lia|lia| | |].
  - destruct (frees b2) as [|[f k] f2]; [cbn in C5; lia|]. destruct C5 as (-> & _), C7 as (? & _). lia.
  - destruct (frees b2) as [|[f k] f2]; [cbn in C5; lia|]. destruct C5 as (-> & _), C7 as (? & _). lia.
  - intros a n [Hin%of_kind_elem|Hin%of_kind_elem]%elem_of_app.
    + apply (layout_in _ _ _ _ _ _ C1) in Hin. lia.
    + apply (layout_in _ _ _ _ _ _ C3) in Hin. lia.
Qed.

(** The freed bytes are at the start of the content, which shrinks. *)
Lemma free_link_top : s = top -> exists d',
  free_link d hdr top iPtr pc s (e - s) e = Some (SQLITE_OK, d') /\ b1 = [] /\
  space u hdr gap d' e b2 /\ keeps hdr gap (cells b2) d d'.
Proof.
  intros Es. destruct link_bounds as (_ & He & Hpc & Hcells). destruct Hco as [C1 C2 C3 _ C5 [_ C7] _].
  rewrite Es in *. apply layout_gap in C1 as ->; [|lia]. cbn [app of_kind total] in *.
  unfold free_link. rewrite Z.leb_refl, Z.ltb_irrefl, (Hptr eq_refl), Z.eqb_refl. cbn [negb].
  destruct (put2byte_ok d (hdr + 1) pc) as (d1 & -> & O1 & V1); [lia|lia|]. cbn [mbind option_bind].
  pose proof (on_len _ _ _ _ O1) as L1.
  destruct (put2byte_ok d1 (hdr + 5) e) as (d2 & -> & O2 & V2); [lia|lia|]. cbn [mbind option_bind].
  pose proof (on_len _ _ _ _ O2) as L2. pose proof (layout_le _ _ _ C3).
  assert (Hk : keeps hdr gap (cells b2) d d2).
  { eapply blocks_keep_trans; eapply only_keeps; try done; try lia;
      intros a n Hin; destruct (Hcells a n Hin) as (? & ? & ?); lia. }
  exists d2. split; [done|]. split; [done|]. split; [|done]. constructor; try done; try lia.
  - apply (kp_bytes _ _ _ _ _ Hk), Hb.
  - rewrite (on_get _ _ _ _ O2), (on_get _ _ _ _ O1), Hfrag by lia. f_equal. lia.
  - exists pc. split.
    + rewrite (only_word _ _ _ _ _ O2) by lia. by rewrite V1, u16_small.
    + eapply chain_frame; [done|]. intros j Hj (a & n & Hin%of_kind_elem & Hjh).
      apply (layout_in _ _ _ _ _ _ C3) in Hin. rewrite (on_get _ _ _ _ O2), (on_get _ _ _ _ O1) by lia. done.
  - eapply spaced_weaken; [done|lia].
Qed.

(** Otherwise they become a free block of the list. *)
Lemma free_link_mid : s <> top -> exists d',
  free_link d hdr top iPtr pc s (e - s) e = Some (SQLITE_OK, d') /\
  space u hdr gap d' top (b1 ++ (s, e - s, true) :: b2) /\ keeps hdr gap (cells b1 ++ cells b2) d d'.
Proof.
  intros Es. destruct link_bounds as (Hs & He & Hpc & Hcells).
  destruct Hco as [C1 C2 C3 (q & Hseg & Hq) C5 [C6 C7] C8]. destruct C8 as [C8|C8]; [done|].
  assert (Hnn : forall a n, (a, n) ∈ frees b1 -> 0 <= n) by (intros a n; by eapply layout_nonneg).
  assert (Hq1 : q = hdr + 1 \/ top <= q /\ exists m, 4 <= m /\ (q, m, true) ∈ b1).
  { destruct (seg_end _ _ _ _ Hseg) as [?|[n Hin]]; [by left|right].
    apply of_kind_elem in Hin. pose proof (layout_in _ _ _ _ _ _ C1 Hin). split; [lia|]. exists n. split; [lia|done]. }
  assert (Hq4 : q + 4 <= s).
  { destruct Hq1 as [->|(? & m & ? & Hin)]; [lia|]. apply (layout_in _ _ _ _ _ _ C1) in Hin. lia. }
  assert (Hi : iPtr = q \/ iPtr = s /\ get2byte d q = Some s) by tauto. clear Hq.
  unfold free_link. destruct (Z.leb_spec s top); [lia|].
  destruct (put2byte_ok d iPtr s) as (d1 & -> & O1 & V1); [lia|lia|]. cbn [mbind option_bind].
  pose proof (on_len _ _ _ _ O1) as L1.
  destruct (put2byte_ok d1 s pc) as (d2 & -> & O2 & V2); [lia|lia|]. cbn [mbind option_bind].
  pose proof (on_len _ _ _ _ O2) as L2.
  destruct (put2byte_ok d2 (s + 2) (e - s)) as (d3 & -> & O3 & V3); [lia|lia|]. cbn [mbind option_bind].
  pose proof (on_len _ _ _ _ O3) as L3.
  assert (Hsame : forall j, 0 <= j -> ~ q <= j < q + 2 -> ~ s <= j < s + 4 -> d3.[j] = d.[j]).
  { intros j Hj H1 H2. rewrite (on_get _ _ _ _ O3), (on_get _ _ _ _ O2), (on_get _ _ _ _ O1) by lia. done. }
  assert (Hk : keeps hdr gap (cells b1 ++ cells b2) d d3).
  { constructor.
    - congruence.
    - intros Hd. by apply (on_bytes _ _ _ _ O3), (on_bytes _ _ _ _ O2), (on_bytes _ _ _ _ O1).
    - intros j Hj Hh. apply Hsame; lia.
    - intros a n j Hin Hj. destruct (Hcells a n Hin) as (Ha & Has & Hat). apply Hsame; [lia| |lia].
      destruct Hq1 as [->|(Hqt & m & Hm & Hqin)]; [lia|]. apply elem_of_app in Hin as [Hin|Hin]; apply of_kind_elem in Hin.
      + destruct (layout_apart _ _ _ _ _ _ _ _ C1 Hqin Hin); lia.
      + apply (layout_in _ _ _ _ _ _ C3) in Hin. lia. }
  exists d3. split; [done|]. split; [|done].
  assert (Hspaced : spaced (top + 1) u (frees (b1 ++ (s, e - s, true) :: b2))).
  { rewrite of_kind_app. cbn [of_kind Bool.eqb]. apply spaced_app. split; [done|]. cbn [spaced].
    replace (s + (e - s) + 4) with (e + 4) by lia. split_and!; done || lia. }
  constructor; try done; try lia.
  - apply (kp_bytes _ _ _ _ _ Hk), Hb.
  - rewrite (get2byte_ext d d3 (hdr + 5) (hdr + 5)) by (apply Hsame; lia). by rewrite u16_small by lia.
  - by rewrite Hsame by lia.
  - apply layout_mid. split_and!; [done|lia|]. by replace (s + (e - s)) with e by lia.
  - rewrite of_kind_app. cbn [of_kind Bool.eqb]. apply freelist_seg. exists q, s. split_and!.
    + apply (seg_frame d d3 (frees b1) (hdr + 1) q (top + 1) u Hseg C6); [lia|lia|done|].
      intros j Hj Hin Hjq. apply Hsame; [done|done|]. destruct Hin as [Hin|(a & n & Hin%of_kind_elem & Hja)]; [lia|].
      apply (layout_in _ _ _ _ _ _ C1) in Hin. lia.
    + rewrite (only_word _ _ _ _ _ O3), (only_word _ _ _ _ _ O2) by lia.
      destruct Hi as [<-|[-> Hi]]; [by rewrite V1, u16_small by lia|].
      by rewrite (only_word _ _ _ _ _ O1) by lia.
    + cbn [chain]. split; [done|]. exists pc. split_and!.
      * rewrite (only_word _ _ _ _ _ O3) by lia. by rewrite V2, u16_small.
      * by rewrite V3, u16_small by lia.
      * eapply chain_frame; [done|]. intros j Hj (a & n & Hin%of_kind_elem & Hja).
        apply (layout_in _ _ _ _ _ _ C3) in Hin. apply Hsame; lia.
Qed.
End link.

(** Coalescing, whether there are free blocks or not. *)
Lemma free_first_ok u hdr gap data top b1 a n b2 b c :
  space u hdr gap data top (b1 ++ (a, n, false) :: b2) -> data.[hdr + 1] = Some c -> data.[hdr + 1 + 1] = Some b ->
  exists b1' b2' iPtr pc s e d1,
    (if (b =? 0) && (c =? 0) then Some (Some (hdr + 1, 0, a, n, a + n, data))
     else free_coalesce data u hdr a n (a + n)) = Some (Some (iPtr, pc, s, e - s, e, d1)) /\
    coalesced u hdr d1 top b1' b2' iPtr pc s e /\ cells b1' = cells b1 /\ cells b2' = cells b2 /\
    (s = top -> iPtr = hdr + 1) /\ only (hdr + 7) (hdr + 8) data d1 /\
    d1.[hdr + 7] = Some (u - top - total (b1' ++ (s, e - s, true) :: b2')).
Proof.
  intros Hsp Ec Eb. pose proof (sp_bytes _ _ _ _ _ _ Hsp) as Hb. pose proof (sp_hdr _ _ _ _ _ _ Hsp).
  assert (Hz : get2byte data (hdr + 1) = Some 0 <-> c = 0 /\ b = 0).
  { rewrite get2byte_zero, Ec, Eb by done. split; [intros [[= ->] [= ->]]; done|intros [-> ->]; done]. }
  destruct ((b =? 0) && (c =? 0)) eqn:E.
  - apply andb_true_iff in E as [->%Z.eqb_eq ->%Z.eqb_eq].
    destruct (no_coalesce u hdr gap data top b1 a n b2 Hsp) as [Hco Hf]; [by apply Hz|].
    exists b1, b2, (hdr + 1), 0, a, (a + n), data. replace (a + n - a) with n in * by lia. split_and!; try done.
  - destruct (free_coalesce_ok u hdr gap data top b1 a n b2 Hsp)
      as (b1' & b2' & iPtr & pc & s & e & d1 & E1 & Hco & E2 & E3 & E4 & E5 & E6).
    exists b1', b2', iPtr, pc, s, e, d1. split_and!; try done.
    pose proof (layout_le _ _ _ (co_left _ _ _ _ _ _ _ _ _ _ Hco)). pose proof (co_size _ _ _ _ _ _ _ _ _ _ Hco).
    eapply coalesced_frame; [done|lia|lia|]. intros j Hj Hjr. apply (on_get _ _ _ _ E5); lia.
Qed.

(** The blocks around the freed one, as they are after coalescing. *)
Lemma coalesced_keeps u hdr gap data top b1 b2 iPtr pc s e lo hi d d' :
  coalesced u hdr data top b1 b2 iPtr pc s e -> 0 <= hdr /\ hdr + 8 <= gap <= top -> only lo hi d d' ->
  s <= lo /\ hi <= e \/ hdr + 5 <= lo /\ hi <= hdr + 8 -> keeps hdr gap (cells b1 ++ cells b2) d d'.
Proof.
  intros Hco Hh O Hlo. pose proof (layout_le _ _ _ (co_left _ _ _ _ _ _ _ _ _ _ Hco)).
  pose proof (co_size _ _ _ _ _ _ _ _ _ _ Hco). eapply only_keeps; [exact O|lia|lia|].
  intros x y [Hin%of_kind_elem|Hin%of_kind_elem]%elem_of_app.
  - apply (layout_in _ _ _ _ _ _ (co_left _ _ _ _ _ _ _ _ _ _ Hco)) in Hin. lia.
  - apply (layout_in _ _ _ _ _ _ (co_right _ _ _ _ _ _ _ _ _ _ Hco)) in Hin. lia.
Qed.

(** Linking, at the start of the content or behind it. *)
Lemma free_link_ok u hdr gap d top b1 b2 iPtr pc s e :
  coalesced u hdr d top b1 b2 iPtr pc s e -> 0 <= hdr /\ hdr + 8 <= gap <= top -> 480 <= u <= zlen d /\ zlen d <= 65536 ->
  bytes_ok d -> get2byte d (hdr + 5) = Some top -> d.[hdr + 7] = Some (u - top - total (b1 ++ (s, e - s, true) :: b2)) ->
  (s = top -> iPtr = hdr + 1) ->
  exists d' top' bs', free_link d hdr top iPtr pc s (e - s) e = Some (SQLITE_OK, d') /\
    space u hdr gap d' top' bs' /\ cells bs' = cells b1 ++ cells b2 /\ keeps hdr gap (cells b1 ++ cells b2) d d'.
Proof.
  intros Hco Hh Hu Hb Htop Hfrag Hptr. destruct (decide (s = top)) as [Es|Es].
  - destruct (free_link_top u hdr gap d top b1 b2 iPtr pc s e) as (d3 & E & -> & Hsp3 & Hk3); try done.
    exists d3, e, b2. split_and!; done.
  - destruct (free_link_mid u hdr gap d top b1 b2 iPtr pc s e) as (d3 & E & Hsp3 & Hk3); try done.
    exists d3, top, (b1 ++ (s, e - s, true) :: b2). split_and!; try done. by rewrite of_kind_app.
Qed.

(** Freeing the cell at [a] leaves the other cells and a well-formed page. *)
Lemma freeSpace_ok pBt p gap top b1 a n b2 :
  space (usableSize pBt) (hdrOffset p) gap (aData p) top (b1 ++ (a, n, false) :: b2) ->
  exists d' top' bs',
    freeSpace pBt p a n = Some (SQLITE_OK, set_nFree (nFree p + n) (set_aData d' p)) /\
    space (usableSize pBt) (hdrOffset p) gap d' top' bs' /\ cells bs' = cells b1 ++ cells b2 /\
    keeps (hdrOffset p) gap (cells b1 ++ cells b2) (aData p) d'.
Proof.
  intros Hsp. pose proof Hsp as [Hh Hu Hb Htop Hfrag Hlay Hlist Hspaced].
  set (u := usableSize pBt) in *. set (hdr := hdrOffset p) in *. set (data := aData p) in *.
  pose proof Hlay as (Hl1 & Hn & Hl2)%layout_mid. pose proof (layout_le _ _ _ Hl1). pose proof (layout_le _ _ _ Hl2).
  rewrite u16_small in Htop by lia.
  destruct (zget_some data (hdr + 1)) as [c Ec]; [lia|]. destruct (zget_some data (hdr + 1 + 1)) as [b Eb]; [lia|].
  destruct (free_first_ok u hdr gap data top b1 a n b2 b c Hsp Ec Eb)
    as (b1' & b2' & iPtr & pc & s & e & d1 & E1 & Hco & E2 & E3 & E4 & O1 & E6).
  pose proof (on_len _ _ _ _ O1) as L1. pose proof (on_bytes _ _ _ _ O1 Hb) as Hb1.
  pose proof (layout_le _ _ _ (co_left _ _ _ _ _ _ _ _ _ _ Hco)). pose proof (layout_le _ _ _ (co_right _ _ _ _ _ _ _ _ _ _ Hco)).
  pose proof (co_size _ _ _ _ _ _ _ _ _ _ Hco).
  assert (Hzero : exists d2, (if Z.land (btsFlags pBt) BTS_FAST_SECURE =? 0 then Some d1 else memset d1 s 0 (e - s)) = Some d2 /\
            only s e d1 d2).
  { destruct (Z.land (btsFlags pBt) BTS_FAST_SECURE =? 0).
    { exists d1. split; [done|apply only_refl]. }
    destruct (memset_ok d1 s 0 (e - s)) as (d2 & -> & O2 & _); [lia|lia|lia|unfold byte_ok; lia|].
    exists d2. split; [done|]. by replace e with (s + (e - s)) by lia. }
  destruct Hzero as (d2 & E2' & O2). pose proof (on_len _ _ _ _ O2) as L2.
  assert (Hk1 : keeps hdr gap (cells b1' ++ cells b2') data d2).
  { eapply blocks_keep_trans; (eapply coalesced_keeps; [exact Hco|done|done|lia]). }
  destruct (free_link_ok u hdr gap d2 top b1' b2' iPtr pc s e) as (d3 & top' & bs' & Elink & Hsp3 & Hcells & Hk3); try done.
  { eapply coalesced_frame; [done|lia|lia|]. intros j Hj Hjr. apply (on_get _ _ _ _ O2); lia. }
  { lia. } { by apply (on_bytes _ _ _ _ O2). }
  { by rewrite (only_word _ _ _ _ _ O2), (only_word _ _ _ _ _ O1) by lia. }
  { by rewrite (on_get _ _ _ _ O2) by lia. }
  rewrite E2, E3 in *. exists d3, top', bs'. split; [|split_and!; [done|done|by eapply blocks_keep_trans]].
  unfold freeSpace. fold hdr data u. rewrite u32_small by lia. rewrite Eb, Ec. cbn [mbind option_bind].
  rewrite E1. cbn [mbind option_bind]. rewrite (only_word _ _ _ _ _ O1) by lia. rewrite Htop. cbn [mbind option_bind].
  rewrite E2'. cbn [mbind option_bind]. rewrite Elink. reflexivity.
Qed.

(** * Taking a free block *)

Section slot.
Context (u hdr gap : Z) (data : list Z) (top : Z) (b1 b2 : list block) (a n nByte : Z) (q : Z).
Hypothesis Hsp : space u hdr gap data top (b1 ++ (a, n, true) :: b2).
Hypothesis Hseg : seg data (hdr + 1) (frees b1) q.
Hypothesis Hq : get2byte data q = Some a.
Hypothesis HnByte : 4 <= nByte <= n.

Lemma slot_bounds : top < a /\ a + n <= u /\ layout top b1 a /\ layout (a + n) b2 u /\
  spaced (top + 1) u (frees b1) /\ after (top + 1) (frees b1) <= a /\ spaced (a + n + 4) u (frees b2) /\
  (q = hdr + 1 \/ top <= q /\ exists m, 4 <= m /\ (q, m, true) ∈ b1) /\ q + 4 <= a /\
  exists next, get2byte data a = Some next /\ get2byte data (a + 2) = Some n /\ chain data next (frees b2) 0.
Proof using Hsp Hseg Hq.
  destruct Hsp as [Hh Hu Hb Htop Hfrag Hlay Hlist Hspaced]. apply layout_mid in Hlay as (Hl1 & Hn & Hl2).
  rewrite of_kind_app in Hlist, Hspaced. cbn [of_kind Bool.eqb] in *. apply spaced_app in Hspaced as [Hs1 Hs2].
  cbn [spaced] in Hs2. destruct Hs2 as (H1 & H2 & H3).
  assert (Hnn : forall x y, (x, y) ∈ frees b1 -> 0 <= y) by (intros x y; by eapply layout_nonneg).
  pose proof (after_ge _ _ _ Hs1 Hnn).
  assert (Hqi : q = hdr + 1 \/ top <= q /\ exists m, 4 <= m /\ (q, m, true) ∈ b1).
  { destruct (seg_end _ _ _ _ Hseg) as [?|[m Hin]]; [by left|right].
    apply of_kind_elem in Hin. pose proof (layout_in _ _ _ _ _ _ Hl1 Hin). split; [lia|]. exists m. split; [lia|done]. }
  apply freelist_seg in Hlist as (q' & pc & Hseg' & Hq' & Hch).
  destruct Hch as (-> & next & E1 & E2 & E3).
  split_and!; try done; try lia.
  - destruct Hqi as [->|(? & m & ? & Hin)]; [lia|]. apply (layout_in _ _ _ _ _ _ Hl1) in Hin. lia.
  - by exists next.
Qed.

(** The whole block is used; up to three bytes become fragments. *)
Lemma take_all frag : data.[hdr + 7] = Some frag -> frag <= 57 -> n - nByte < 4 ->
  exists d1 d2, memmove data q a 2 = Some d1 /\ d1.[hdr + 7] = Some frag /\
    d1.[hdr + 7 <- u8 (frag + u8 (n - nByte))] = Some d2 /\
    space u hdr gap d2 top (b1 ++ (a, nByte, false) :: b2) /\
    keeps hdr gap (cells b1 ++ cells b2) data d2.
Proof.
  intros Ef Hf Hx. destruct slot_bounds as (Ha & Han & Hl1 & Hl2 & Hs1 & Haf & Hs2 & Hqi & Hqa & next & E1 & E2 & E3).
  pose proof Hsp as [Hh Hu Hb Htop Hfrag Hlay _ _]. pose proof (layout_le _ _ _ Hl1). pose proof (layout_le _ _ _ Hl2).
  assert (Hq0 : hdr + 1 = q \/ top <= q) by (destruct Hqi as [?|[? _]]; [left|right]; lia).
  destruct (memmove_ok data q a 2) as (d1 & Em & O1 & G1); [done|lia..|]. pose proof (on_len _ _ _ _ O1) as L1.
  assert (Ef1 : d1.[hdr + 7] = Some frag) by (rewrite (on_get _ _ _ _ O1); [done|lia|lia]).
  assert (0 <= frag) by (apply (Forall_zget _ _ _ _ Hb) in Ef; unfold byte_ok in Ef; lia).
  rewrite (u8_small (n - nByte)), (u8_small (frag + _)) by lia.
  destruct (only_set d1 (hdr + 7) (frag + (n - nByte))) as (d2 & Es & O2 & V2); [lia|unfold byte_ok; lia|].
  pose proof (on_len _ _ _ _ O2) as L2. exists d1, d2. split_and!; try done.
  - constructor; try done; try lia.
    + by apply (on_bytes _ _ _ _ O2), (on_bytes _ _ _ _ O1).
    + rewrite (only_word _ _ _ _ _ O2), (only_word _ _ _ _ _ O1) by lia. done.
    + rewrite V2. rewrite Ef in Hfrag. injection Hfrag as ->. rewrite !total_app. cbn [total]. f_equal. lia.
    + apply layout_mid. split_and!; [done|lia|]. eapply layout_weaken; [done|lia|lia].
    + rewrite of_kind_app. cbn [of_kind Bool.eqb]. apply freelist_seg. exists q, next. split_and!.
      * apply (seg_frame data d2 (frees b1) (hdr + 1) q (top + 1) u Hseg Hs1); [lia|lia| |].
        { intros x y. by eapply layout_nonneg. }
        intros j Hj Hin Hjq. rewrite (on_get _ _ _ _ O2), (on_get _ _ _ _ O1); try done.
        destruct Hin as [Hin|(x & y & Hin%of_kind_elem & Hjx)]; [lia|]. apply (layout_in _ _ _ _ _ _ Hl1) in Hin. lia.
      * rewrite (only_word _ _ _ _ _ O2) by lia. rewrite <- E1. apply get2byte_ext.
        -- rewrite G1 by lia. f_equal. lia.
        -- rewrite G1 by lia. f_equal. lia.
      * eapply chain_frame; [done|]. intros j Hj (x & y & Hin%of_kind_elem & Hjx).
        apply (layout_in _ _ _ _ _ _ Hl2) in Hin. rewrite (on_get _ _ _ _ O2), (on_get _ _ _ _ O1) by lia. done.
    + rewrite of_kind_app. cbn [of_kind Bool.eqb]. apply spaced_app. split; [done|]. eapply spaced_weaken; [done|lia].
  - assert (Hcs : forall x y, (x, y) ∈ cells b1 ++ cells b2 -> top <= x /\ (x + y <= q \/ q + 2 <= x)).
    { intros x y [Hin%of_kind_elem|Hin%of_kind_elem]%elem_of_app.
      - pose proof (layout_in _ _ _ _ _ _ Hl1 Hin). split; [lia|]. destruct Hqi as [->|(? & m & Hm & Hqin)]; [lia|].
        destruct (layout_apart _ _ _ _ _ _ _ _ Hl1 Hqin Hin); lia.
      - apply (layout_in _ _ _ _ _ _ Hl2) in Hin. lia. }
    apply (blocks_keep_trans _ _ _ _ d1).
    + constructor; [done|by apply (on_bytes _ _ _ _ O1)| |].
      * intros j Hj Hjh. apply (on_get _ _ _ _ O1); lia.
      * intros x y j Hin Hj. destruct (Hcs x y Hin). apply (on_get _ _ _ _ O1); lia.
    + eapply only_keeps; [done|lia|lia|]. intros x y Hin. destruct (Hcs x y Hin). lia.
Qed.

(** The end of the block is used. *)
Lemma take_end : 4 <= n - nByte -> exists d1, put2byte data (a + 2) (n - nByte) = Some d1 /\
  space u hdr gap d1 top (b1 ++ (a, n - nByte, true) :: (a + (n - nByte), nByte, false) :: b2) /\
  keeps hdr gap (cells b1 ++ cells b2) data d1.
Proof.
  intros Hx. destruct slot_bounds as (Ha & Han & Hl1 & Hl2 & Hs1 & Haf & Hs2 & Hqi & Hqa & next & E1 & E2 & E3).
  pose proof Hsp as [Hh Hu Hb Htop Hfrag Hlay _ _]. pose proof (layout_le _ _ _ Hl1). pose proof (layout_le _ _ _ Hl2).
  destruct (put2byte_ok data (a + 2) (n - nByte)) as (d1 & -> & O1 & V1); [lia|lia|].
  pose proof (on_len _ _ _ _ O1) as L1. exists d1. split_and!; [done| |].
  - constructor; try done; try lia.
    + by apply (on_bytes _ _ _ _ O1).
    + by rewrite (only_word _ _ _ _ _ O1) by lia.
    + rewrite (on_get _ _ _ _ O1), Hfrag, !total_app by lia. cbn [total]. f_equal. lia.
    + apply layout_mid. split_and!; [done|lia|]. cbn [layout]. split_and!; [lia|lia|].
      by replace (a + (n - nByte) + nByte) with (a + n) by lia.
    + rewrite of_kind_app. cbn [of_kind Bool.eqb]. apply freelist_seg. exists q, a. split_and!.
      * apply (seg_frame data d1 (frees b1) (hdr + 1) q (top + 1) u Hseg Hs1); [lia|lia| |].
        { intros x y. by eapply layout_nonneg. }
        intros j Hj Hin Hjq. apply (on_get _ _ _ _ O1); [done|].
        destruct Hin as [Hin|(x & y & Hin%of_kind_elem & Hjx)]; [lia|]. apply (layout_in _ _ _ _ _ _ Hl1) in Hin. lia.
      * pose proof (get2byte_inv _ _ _ Hq). by rewrite (only_word _ _ _ _ _ O1) by lia.
      * cbn [chain]. split; [done|]. exists next. split_and!.
        -- by rewrite (only_word _ _ _ _ _ O1) by lia.
        -- by rewrite V1, u16_small by lia.
        -- eapply chain_frame; [done|]. intros j Hj (x & y & Hin%of_kind_elem & Hjx).
           apply (layout_in _ _ _ _ _ _ Hl2) in Hin. apply (on_get _ _ _ _ O1); lia.
    + rewrite of_kind_app. cbn [of_kind Bool.eqb]. apply spaced_app. split; [done|]. cbn [spaced].
      split_and!; [lia|lia|lia|]. eapply spaced_weaken; [done|lia].
  - eapply only_keeps; [done|lia|lia|]. intros x y [Hin%of_kind_elem|Hin%of_kind_elem]%elem_of_app.
    + apply (layout_in _ _ _ _ _ _ Hl1) in Hin. lia.
    + apply (layout_in _ _ _ _ _ _ Hl2) in Hin. lia.
Qed.
End slot.

Lemma find_slot_ok u hdr gap data top nByte : 4 <= nByte -> forall fuel b1 a n b2 q,
  space u hdr gap data top (b1 ++ (a, n, true) :: b2) -> seg data (hdr + 1) (frees b1) q ->
  get2byte data q = Some a -> (length (frees b2) < fuel)%nat ->
  exists r d', find_slot fuel hdr nByte (u - nByte) data q a = Some (SQLITE_OK, r, d') /\
    match r with
    | None => d' = data
    | Some idx => top < idx /\ exists bs', space u hdr gap d' top bs' /\
        cells bs' ≡ₚ (idx, nByte) :: cells (b1 ++ (a, n, true) :: b2) /\
        keeps hdr gap (cells (b1 ++ (a, n, true) :: b2)) data d'
    end.
Proof.
  intros HnB. induction fuel as [|fuel IH]; intros b1 a n b2 q Hsp Hseg Hq Hf; [lia|].
  destruct (slot_bounds u hdr gap data top b1 b2 a n q Hsp Hseg Hq)
    as (Ha & Han & Hl1 & Hl2 & Hs1 & Haf & Hs2 & Hqi & Hqa & next & E1 & E2 & E3).
  assert (Hcells : cells (b1 ++ (a, n, true) :: b2) = cells b1 ++ cells b2) by (by rewrite of_kind_app).
  pose proof (layout_le _ _ _ Hl2). pose proof (sp_hdr _ _ _ _ _ _ Hsp). cbn [find_slot]. destruct (Z.leb_spec a (u - nByte)) as [Hle|Hgt]; cycle 1.
  { destruct (Z.gtb_spec a (u - nByte + nByte - 4)) as [Hgt2|]; [|by exists None, data].
    pose proof (sp_layout _ _ _ _ _ _ Hsp) as (_ & ? & _)%layout_mid. lia. }
  rewrite E2. cbn [mbind option_bind]. destruct (Z.geb_spec (n - nByte) 0) as [Hge|Hlt].
  - destruct (Z.ltb_spec (n - nByte) 4) as [H4|H4].
    + destruct (zget_some data (hdr + 7)) as [frag Ef]; [pose proof (sp_frag _ _ _ _ _ _ Hsp) as Ef%zget_range; lia|].
      rewrite Ef. cbn [mbind option_bind]. destruct (Z.gtb_spec frag 57); [by exists None, data|].
      destruct (take_all u hdr gap data top b1 b2 a n nByte q Hsp Hseg Hq ltac:(lia) frag Ef)
        as (d1 & d2 & -> & Ef1 & Es & Hsp' & Hk); [lia|lia|]. cbn [mbind option_bind].
      rewrite Ef1. cbn [mbind option_bind]. rewrite Es. cbn [mbind option_bind].
      exists (Some a), d2. split; [done|]. split; [done|]. eexists. split; [exact Hsp'|]. rewrite Hcells.
      split; [|done]. rewrite of_kind_app. cbn [of_kind Bool.eqb]. by rewrite Permutation_middle.
    + destruct (Z.gtb_spec (n - nByte + a) (u - nByte)); [lia|].
      destruct (take_end u hdr gap data top b1 b2 a n nByte q Hsp Hseg Hq ltac:(lia) H4) as (d1 & -> & Hsp' & Hk).
      cbn [mbind option_bind]. exists (Some (a + (n - nByte))), d1. split; [done|]. split; [lia|].
      eexists. split; [exact Hsp'|]. rewrite Hcells. split; [|done].
      rewrite of_kind_app. cbn [of_kind Bool.eqb]. by rewrite Permutation_middle.
  - rewrite E1. cbn [mbind option_bind]. destruct (frees b2) as [|[f k] f2] eqn:Ef.
    + cbn in E3. subst next. rewrite (proj2 (Z.leb_le _ _)) by lia. by exists None, data.
    + pose proof E3 as (-> & _). destruct Hs2 as (Hfa & _).
      assert (4 <= n) by (pose proof (sp_layout _ _ _ _ _ _ Hsp) as (_ & ? & _)%layout_mid; done).
      rewrite (proj2 (Z.leb_gt f a)) by lia.
      destruct (of_kind_split true b2 [] f k f2 Ef) as (c & b3 & -> & Ec & Ef3).
      assert (Heq : b1 ++ (a, n, true) :: c ++ (f, k, true) :: b3 = (b1 ++ (a, n, true) :: c) ++ (f, k, true) :: b3).
      { by rewrite <- app_assoc. }
      rewrite Heq in *. apply IH; try done.
      * rewrite of_kind_app. cbn [of_kind Bool.eqb]. rewrite Ec. apply seg_snoc. split_and!; [done|done|]. by exists q.
      * rewrite Ef3. cbn in Hf. lia.
Qed.

(** What [pageFindSlot] finds is taken from the free blocks. *)
Lemma pageFindSlot_ok pBt p gap top bs nByte :
  space (usableSize pBt) (hdrOffset p) gap (aData p) top bs -> frees bs <> [] -> 4 <= nByte ->
  exists r d', pageFindSlot pBt p nByte = Some (SQLITE_OK, r, set_aData d' p) /\
    match r with
    | None => d' = aData p
    | Some idx => top < idx /\ exists bs', space (usableSize pBt) (hdrOffset p) gap d' top bs' /\
        cells bs' ≡ₚ (idx, nByte) :: cells bs /\ keeps (hdrOffset p) gap (cells bs) (aData p) d'
    end.
Proof.
  intros Hsp Hf Hn. destruct (frees bs) as [|[a n] f2] eqn:Ef; [done|].
  destruct (of_kind_split true bs [] a n f2 Ef) as (b1 & b2 & -> & E1 & E2).
  pose proof (sp_list _ _ _ _ _ _ Hsp) as (pc & Hpc & Hch). rewrite Ef in Hch. pose proof Hch as (-> & _).
  pose proof (sp_layout _ _ _ _ _ _ Hsp) as Hl. pose proof (layout_count true _ _ _ Hl) as Hc.
  rewrite Ef, zlen_cons in Hc. pose proof (sp_u _ _ _ _ _ _ Hsp). pose proof (sp_hdr _ _ _ _ _ _ Hsp).
  destruct (find_slot_ok _ _ _ _ _ nByte Hn (length (aData p)) b1 a n b2 (hdrOffset p + 1) Hsp) as (r & d' & E & Hr).
  - by rewrite E1.
  - done.
  - rewrite E2. unfold zlen in *. lia.
  - exists r, d'. split; [|done]. unfold pageFindSlot. rewrite Hpc. cbn [mbind option_bind]. by rewrite E.
Qed.
