(* ===== verification/BtDefrag.v ===== *)
(** Defragmenting a B-tree page (btree.c, [defragmentPage]): both ways of
    moving the cells together, and that the cells stay what they are. *)
From S2P Require Import Prelude.
From S2P Require Import Vfs.
From S2P Require Import Mem.
From S2P Require Import BtPage.
From S2P Require Import BtSpace.
Open Scope Z_scope.

(** The loop over the [n] cell pointers from [pAddr] on. *)
Fixpoint shift_ptrs (n : nat) (data : list Z) (pAddr iFree iFree2 sz sz2 : Z) : option (list Z) :=
  match n with
  | O => Some data
  | S n =>
      pc ← get2byte data pAddr;
      data ← (if pc <? iFree then put2byte data pAddr (pc + sz)
              else if pc <? iFree2 then put2byte data pAddr (pc + sz2)
              else Some data);
      shift_ptrs n data (pAddr + 2) iFree iFree2 sz sz2
  end.

(** The result code, the data and [cbrk]; [None] inside means that this way
    does not apply. *)
Definition defrag_fast (data : list Z) (hdr usableSize cellOffset nCell nMaxFrag : Z)
    : option (option (Z * list Z * Z)) :=
  frag ← data.[hdr + 7];
  if negb (frag <=? nMaxFrag) then Some None else
  iFree ← get2byte data (hdr + 1);
  if iFree >? usableSize - 4 then Some (Some (SQLITE_CORRUPT, data, 0))
  else if iFree =? 0 then Some None else
  iFree2 ← get2byte data iFree;
  if iFree2 >? usableSize - 4 then Some (Some (SQLITE_CORRUPT, data, 0)) else
  few ← (if iFree2 =? 0 then Some true
         else b0 ← data.[iFree2]; b1 ← data.[iFree2 + 1]; Some ((b0 =? 0) && (b1 =? 0)));
  if negb few then Some None else
  sz ← get2byte data (iFree + 2);
  top ← get2byte data (hdr + 5);
  if top >=? iFree then Some (Some (SQLITE_CORRUPT, data, 0)) else
  r ← (if negb (iFree2 =? 0) then
         if iFree + sz >? iFree2 then Some None
         else
           sz2 ← get2byte data (iFree2 + 2);
           if iFree2 + sz2 >? usableSize then Some None
           else
             data ← memmove data (iFree + sz + sz2) (iFree + sz) (iFree2 - (iFree + sz));
             Some (Some (data, sz + sz2, sz2))
       else if iFree + sz >? usableSize then Some None
       else Some (Some (data, sz, 0)));
  match r with
  | None => Some (Some (SQLITE_CORRUPT, data, 0))
  | Some (data, sz, sz2) =>
      let cbrk := top + sz in
      data ← memmove data cbrk top (iFree - top);
      data ← shift_ptrs (Z.to_nat nCell) data cellOffset iFree iFree2 sz sz2;
      Some (Some (SQLITE_OK, data, cbrk))
  end.

(** The loop that packs the cells at the end of the page. *)
Fixpoint pack (n : nat) (pBt : BtShared) (t : PageType) (src data : list Z) (pAddr iCellStart cbrk : Z)
    : option (Z * list Z * Z) :=
  match n with
  | O => Some (SQLITE_OK, data, cbrk)
  | S n =>
      pc ← get2byte data pAddr;
      if pc >? usableSize pBt - 4 then Some (SQLITE_CORRUPT, data, cbrk) else
      size ← cellSize pBt t src pc;
      let cbrk := cbrk - size in
      if (cbrk <? iCellStart) || (pc + size >? usableSize pBt) then Some (SQLITE_CORRUPT, data, cbrk)
      else
        data ← put2byte data pAddr cbrk;
        b ← mem_read src pc size;
        data ← mem_write data cbrk b;
        pack n pBt t src data (pAddr + 2) iCellStart cbrk
  end.

(** [temp] is the buffer of the pager. *)
Definition defrag_slow (pBt : BtShared) (pPage : MemPage) (temp : list Z) : option (Z * list Z * Z) :=
  let data := aData pPage in
  let hdr := hdrOffset pPage in
  let cbrk := usableSize pBt in
  iCellStart ← get2byte data (hdr + 5);
  '(rc, data, cbrk) ←
    (if nCell pPage >? 0 then
       b ← mem_read data iCellStart (usableSize pBt - iCellStart);
       src ← mem_write temp iCellStart b;
       pack (Z.to_nat (nCell pPage)) pBt (pgType pPage) src data (cellOffset pPage) iCellStart cbrk
     else Some (SQLITE_OK, data, cbrk));
  if negb (rc =? SQLITE_OK) then Some (rc, data, cbrk)
  else data ← data.[hdr + 7 <- 0]; Some (SQLITE_OK, data, cbrk).

(** From the label [defragment_out] on. *)
Definition defrag_out (pPage : MemPage) (data : list Z) (iCellFirst cbrk : Z) : option (Z * list Z) :=
  let hdr := hdrOffset pPage in
  frag ← data.[hdr + 7];
  if negb (frag + cbrk - iCellFirst =? nFree pPage) then Some (SQLITE_CORRUPT, data)
  else
    data ← put2byte data (hdr + 5) cbrk;
    data ← data.[hdr + 1 <- 0];
    data ← data.[hdr + 2 <- 0];
    data ← memset data iCellFirst 0 (cbrk - iCellFirst);
    Some (SQLITE_OK, data).

Definition defragmentPage (pBt : BtShared) (pPage : MemPage) (temp : list Z) (nMaxFrag : Z)
    : option (Z * MemPage) :=
  let iCellFirst := cellOffset pPage + 2 * nCell pPage in
  r ← defrag_fast (aData pPage) (hdrOffset pPage) (usableSize pBt) (cellOffset pPage) (nCell pPage) nMaxFrag;
  '(rc, data, cbrk) ← (match r with Some x => Some x | None => defrag_slow pBt pPage temp end);
  if negb (rc =? SQLITE_OK) then Some (rc, set_aData data pPage)
  else
    '(rc, data) ← defrag_out pPage data iCellFirst cbrk;
    Some (rc, set_aData data pPage).

(** * The cells of a page *)

(** A cell of a page: its address and its bytes. *)
Abbreviation item := (Z * list Z)%type.

Definition blocks_of (items : list item) : list (Z * Z) := (fun x => (x.1, zlen x.2)) <$> items.

#[export] Instance blocks_of_perm : Proper ((≡ₚ) ==> (≡ₚ)) blocks_of.
Proof. intros l k Hl. unfold blocks_of. by rewrite Hl. Qed.

(** The pointers at [off] are those of the cells, which hold their bytes. *)
Record cells_at (data : list Z) (off : Z) (items : list item) : Prop := {
  ca_ptr i a c : items.[i] = Some (a, c) -> get2byte data (off + 2 * i) = Some a;
  ca_mem i a c : items.[i] = Some (a, c) -> mem_read data a (zlen c) = Some c;
}.

(** A cell of a page of type [t]. *)
Definition cell_image (pBt : BtShared) (t : PageType) (c : list Z) : Prop :=
  cellSize pBt t c 0 = Some (zlen c) /\ 4 <= zlen c /\ bytes_ok c.

Lemma cell_image_size pBt t c buf off : cell_image pBt t c -> mem_read buf off (zlen c) = Some c ->
  cellSize pBt t buf off = Some (zlen c).
Proof.
  intros (Hc & _ & _) (Ho & Hl & _ & Hg)%mem_read_inv. apply (cellSize_move _ _ _ c); [|done].
  intros i x Hi. pose proof (zget_range _ _ _ Hi). by rewrite <- Hg.
Qed.

Lemma blocks_of_elem items a n : (a, n) ∈ blocks_of items <-> exists c, (a, c) ∈ items /\ zlen c = n.
Proof.
  unfold blocks_of. rewrite list_elem_of_fmap. split.
  - intros ([b c] & [= -> ->] & Hin). by exists c.
  - intros (c & Hin & <-). by exists (a, c).
Qed.

Lemma cells_at_nil data off : cells_at data off [].
Proof. constructor; intros i a c Hi%zget_range; change (zlen []) with 0 in Hi; lia. Qed.

(** Cells stay what they are while their bytes and their pointers do. *)
Lemma cells_at_keeps hdr gap cs data data' off items :
  keeps hdr gap cs data data' -> cells_at data off items -> hdr + 8 <= off -> off + 2 * zlen items <= gap ->
  (forall x, x ∈ blocks_of items -> x ∈ cs) -> cells_at data' off items.
Proof.
  intros [L B H C] [P M] Ho Hg Hcs. constructor.
  - intros i a c Hi. pose proof (zget_range _ _ _ Hi). pose proof (get2byte_inv _ _ _ (P i a c Hi)).
    rewrite <- (P i a c Hi). apply get2byte_ext; apply H; lia.
  - intros i a c Hi. pose proof (M i a c Hi) as Hm. pose proof Hm as (? & ? & ? & _)%mem_read_inv.
    apply (mem_read_move data _ a _ _ _ Hm); [done|lia|]. intros j Hj. apply (C a (zlen c)); [|lia].
    apply Hcs, blocks_of_elem. exists c. split; [by eapply zget_elem_of|done].
Qed.

(** * Packing *)

Section pack.
Context (pBt : BtShared) (t : PageType) (u hdr gap off : Z) (src : list Z) (top : Z).
Hypothesis Hu : usableSize pBt = u.
Hypothesis Hoff : hdr + 8 <= off /\ 0 <= hdr /\ gap <= top.

Definition sizes (items : list item) : Z := free_bytes (blocks_of items).

Lemma sizes_cons x items : sizes (x :: items) = zlen x.2 + sizes items.
Proof. done. Qed.

Lemma sizes_nonneg items : 0 <= sizes items.
Proof. induction items as [|x items IH]; [done|]. rewrite sizes_cons. pose proof (zlen_nonneg x.2). lia. Qed.

(** The cells [todo] are packed below those of [done], which is everything
    from [cbrk] on. *)
Lemma pack_ok todo : forall dn data bs cbrk,
  bytes_ok data -> bytes_ok src -> zlen data <= 65536 -> u <= zlen data ->
  off + 2 * (zlen dn + zlen todo) <= gap ->
  (forall i a c, todo.[i] = Some (a, c) -> get2byte data (off + 2 * (zlen dn + i)) = Some a /\
     mem_read src a (zlen c) = Some c /\ cell_image pBt t c /\ a + zlen c <= u) ->
  cells_at data off dn -> layout cbrk bs u -> frees bs = [] -> cells bs ≡ₚ blocks_of dn ->
  sizes todo <= cbrk - top ->
  exists data' items', pack (length todo) pBt t src data (off + 2 * zlen dn) top cbrk =
      Some (SQLITE_OK, data', cbrk - sizes todo) /\
    items'.*2 = todo.*2 /\ cells_at data' off (dn ++ items') /\ zlen data' = zlen data /\ bytes_ok data' /\
    (forall j, 0 <= j < off -> data'.[j] = data.[j]) /\
    exists bs', layout (cbrk - sizes todo) bs' u /\ frees bs' = [] /\ cells bs' ≡ₚ blocks_of (dn ++ items').
Proof.
  induction todo as [|[a c] todo IH]; intros dn data bs cbrk Hb Hsb H65 Hud Hgap Hin Hca Hl Hf Hp Hsz.
  - exists data, []. cbn [length pack]. change (sizes []) with 0. rewrite Z.sub_0_r, app_nil_r.
    split_and!; try done. by exists bs.
  - rewrite sizes_cons in *. cbn [snd] in *. rewrite zlen_cons in Hgap.
    destruct (Hin 0 a c eq_refl) as (Hptr & Hsrc & Himg & Hau). rewrite Z.add_0_r in Hptr.
    pose proof (zlen_nonneg dn). pose proof (zlen_nonneg todo).
    pose proof (sizes_nonneg todo).
    pose proof Himg as (_ & H4 & Hcb). pose proof (layout_le _ _ _ Hl).
    cbn [length pack]. rewrite Hptr. cbn [mbind option_bind]. rewrite Hu.
    destruct (Z.gtb_spec a (u - 4)); [lia|]. rewrite (cell_image_size _ _ _ _ _ Himg Hsrc). cbn [mbind option_bind].
    destruct (Z.ltb_spec (cbrk - zlen c) top); [lia|]. destruct (Z.gtb_spec (a + zlen c) u); [lia|]. cbn [orb].
    destruct (put2byte_ok data (off + 2 * zlen dn) (cbrk - zlen c)) as (d1 & -> & O1 & V1); [lia|lia|].
    cbn [mbind option_bind]. rewrite Hsrc. cbn [mbind option_bind]. pose proof (on_len _ _ _ _ O1) as L1.
    destruct (mem_write_ok d1 (cbrk - zlen c) c) as (d2 & -> & O2 & G2); [lia|lia|done|]. cbn [mbind option_bind].
    pose proof (on_len _ _ _ _ O2) as L2.
    destruct (IH (dn ++ [(cbrk - zlen c, c)]) d2 ((cbrk - zlen c, zlen c, false) :: bs) (cbrk - zlen c))
      as (data' & items' & E & E2 & Hca' & L' & B' & S' & bs' & Hl' & Hf' & Hp').
    + by apply (on_bytes _ _ _ _ O2), (on_bytes _ _ _ _ O1).
    + done.
    + lia.
    + lia.
    + rewrite zlen_app. change (zlen [_]) with 1. lia.
    + intros i b e Hi. pose proof (zget_range _ _ _ Hi). destruct (Hin (i + 1) b e) as (Hp1 & Hp2).
      { rewrite zget_cons_pos by lia. by replace (i + 1 - 1) with i by lia. }
      split; [|done]. rewrite zlen_app. change (zlen [_]) with 1.
      replace (zlen dn + 1 + i) with (zlen dn + (i + 1)) by lia.
      rewrite (only_word _ _ _ _ _ O2), (only_word _ _ _ _ _ O1) by lia. done.
    + destruct Hca as [P M]. constructor.
      * intros i b e [[Hi1 Hi2]|[-> Hi2]]%zget_snoc.
        -- rewrite (only_word _ _ _ _ _ O2), (only_word _ _ _ _ _ O1) by lia. by eapply P.
        -- injection Hi2 as -> ->. rewrite (only_word _ _ _ _ _ O2) by lia. by rewrite V1, u16_small by lia.
      * intros i b e [[Hi1 Hi2]|[-> Hi2]]%zget_snoc.
        -- assert (Hbl : (b, zlen e) ∈ cells bs).
           { rewrite Hp. apply blocks_of_elem. exists e. split; [by eapply zget_elem_of|done]. }
           apply of_kind_elem in Hbl. apply (layout_in _ _ _ _ _ _ Hl) in Hbl.
           rewrite (only_read _ _ _ _ _ _ O2), (only_read _ _ _ _ _ _ O1) by lia. by eapply M.
        -- injection Hi2 as -> ->. apply (mem_read_move c d2 0 (cbrk - zlen c)); [|lia|lia|].
           ++ unfold mem_read. rewrite !(proj2 (Z.leb_le _ _)) by lia. by rewrite slice_full.
           ++ intros j Hj. rewrite G2 by lia. f_equal. lia.
    + cbn [layout]. split_and!; [lia|done|]. by replace (cbrk - zlen c + zlen c) with cbrk by lia.
    + done.
    + cbn [of_kind Bool.eqb]. rewrite Hp. unfold blocks_of. rewrite fmap_app. cbn. by rewrite Permutation_cons_append.
    + lia.
    + exists data', ((cbrk - zlen c, c) :: items'). rewrite <- app_assoc in Hca', Hp'. cbn [app] in *.
      rewrite zlen_app in E. change (zlen [_]) with 1 in E.
      replace (off + 2 * (zlen dn + 1)) with (off + 2 * zlen dn + 2) in E by lia.
      replace (cbrk - (zlen c + sizes todo)) with (cbrk - zlen c - sizes todo) by lia.
      split_and!; try done.
      * cbn. by f_equal.
      * congruence.
      * intros j Hj. rewrite S', (on_get _ _ _ _ O2), (on_get _ _ _ _ O1) by lia. done.
      * by exists bs'.
Qed.
End pack.

(** * A page with its cells *)

(** The content of the page [p] starts at [top]; the blocks [bs] are its free
    blocks, its cells [items], and the blocks [extra] that were allocated but
    are no cells yet. *)
Record page_at (pBt : BtShared) (p : MemPage) (top : Z) (bs : list block) (extra : list (Z * Z))
    (items : list item) : Prop := {
  pa_type : type_ok pBt (pgType p);
  pa_space : space (usableSize pBt) (hdrOffset p) (cellOffset p + 2 * nCell p) (aData p) top bs;
  pa_off : cellOffset p = hdrOffset p + 8 + childPtrSize (pgType p);
  pa_cells : cells_at (aData p) (cellOffset p) items;
  pa_n : zlen items = nCell p;
  pa_blocks : cells bs ≡ₚ extra ++ blocks_of items;
  pa_image : Forall (fun x => cell_image pBt (pgType p) x.2) items;
}.

Lemma free_bytes_perm l k : l ≡ₚ k -> free_bytes l = free_bytes k.
Proof. induction 1 as [|[a n] l k _ IH|[a n] [b m] l|l k h _ IH1 _ IH2]; cbn; lia. Qed.

Lemma free_bytes_app l k : free_bytes (l ++ k) = free_bytes l + free_bytes k.
Proof. induction l as [|[a n] l IH]; cbn; lia. Qed.

Lemma sizes_eq (items items' : list item) : items'.*2 = items.*2 -> sizes items' = sizes items.
Proof.
  revert items'. induction items as [|[a c] items IH]; intros [|[b e] items']; cbn [fmap list_fmap]; try done.
  intros [= -> E]. rewrite !sizes_cons. cbn [snd]. f_equal. by apply IH.
Qed.

(** The size of what a page holds. *)
Lemma page_total pBt p top bs extra items : page_at pBt p top bs extra items ->
  total bs = free_bytes extra + sizes items + free_bytes (frees bs).
Proof. intros Hp. rewrite total_kinds, (free_bytes_perm _ _ (pa_blocks _ _ _ _ _ _ Hp)), free_bytes_app. done. Qed.

Lemma childPtrSize_cases pBt t : type_ok pBt t -> childPtrSize t = 0 \/ childPtrSize t = 4.
Proof. intros [->|[->|[->| ->]]]%type_ok_cases; cbn; auto. Qed.

(** The cells of a page that has been packed at [cbrk], before the header is
    updated. *)
Record packed (pBt : BtShared) (p : MemPage) (top : Z) (items : list item)
    (d' : list Z) (cbrk : Z) (items' : list item) (bs' : list block) : Prop := {
  pk_same : items'.*2 = items.*2;
  pk_cells : cells_at d' (cellOffset p) items';
  pk_len : zlen d' = zlen (aData p);
  pk_bytes : bytes_ok d';
  pk_head j : 0 <= j < cellOffset p -> j <> hdrOffset p + 7 -> d'.[j] = (aData p).[j];
  pk_frag : d'.[hdrOffset p + 7] = Some (usableSize pBt - cbrk - total bs');
  pk_layout : layout cbrk bs' (usableSize pBt);
  pk_frees : frees bs' = [];
  pk_blocks : cells bs' ≡ₚ blocks_of items';
  pk_top : top <= cbrk;
}.

Section defrag.
Context (pBt : BtShared) (p : MemPage) (top : Z) (bs : list block) (items : list item).
Hypothesis Hp : page_at pBt p top bs [] items.

Lemma defrag_slow_ok temp : zlen temp = zlen (aData p) -> bytes_ok temp ->
  exists d' cbrk items' bs', defrag_slow pBt p temp = Some (SQLITE_OK, d', cbrk) /\
    packed pBt p top items d' cbrk items' bs' /\ usableSize pBt - cbrk - total bs' = 0.
Proof.
  intros Ht Htb. pose proof (page_total _ _ _ _ _ _ Hp) as Htot. pose proof Hp as [Hty Hsp Hoff Hca Hn Hbl Himg].
  pose proof Hsp as [Hh Hu Hb Htop Hfrag Hlay _ _]. pose proof (childPtrSize_cases _ _ Hty) as Hch.
  set (u := usableSize pBt) in *. set (hdr := hdrOffset p) in *. set (d := aData p) in *.
  pose proof (zlen_nonneg items). pose proof (layout_le _ _ _ Hlay). cbn [free_bytes] in Htot.
  pose proof (frees_nonneg _ _ _ Hlay) as Hfree.
  unfold defrag_slow. fold hdr d u. rewrite Htop. cbn [mbind option_bind].
  destruct (Z.gtb_spec (nCell p) 0) as [Hpos|Hz]; cycle 1.
  - destruct items as [|x l]; [|rewrite zlen_cons in *; pose proof (zlen_nonneg l); lia].
    destruct (only_set d (hdr + 7) 0) as (d' & E & O & V); [lia|unfold byte_ok; lia|].
    cbn [mbind option_bind negb Z.eqb SQLITE_OK]. rewrite E. cbn [mbind option_bind].
    exists d', u, [], []. split; [done|]. split; [|cbn; lia]. pose proof (on_len _ _ _ _ O).
    constructor; fold u hdr d; try done; try (cbn; lia).
    + apply cells_at_nil.
    + by apply (on_bytes _ _ _ _ O).
    + intros j Hj Hj7. apply (on_get _ _ _ _ O); lia.
    + rewrite V. f_equal. cbn. lia.
  - destruct items as [|[a0 c0] l] eqn:Ei; [change (zlen []) with 0 in *; lia|]. rewrite <- Ei in *.
    assert (Htop' : top < 65536).
    { assert (Hin : (a0, zlen c0) ∈ cells bs) by (rewrite Hbl, Ei; apply elem_of_cons; by left).
      apply of_kind_elem in Hin. apply (layout_in _ _ _ _ _ _ Hlay) in Hin. lia. }
    rewrite u16_small by lia.
    destruct (mem_read_ok d top (u - top)) as (b & Eb & Lb & Gb); [lia..|]. rewrite Eb. cbn [mbind option_bind].
    pose proof (mem_read_bytes _ _ _ _ Hb Eb) as Bb.
    destruct (mem_write_ok temp top b) as (src & -> & Os & Gs); [lia|lia|done|]. cbn [mbind option_bind].
    replace (Z.to_nat (nCell p)) with (length items) by (unfold zlen in *; lia).
    assert (Hx2 : hdr + 8 <= cellOffset p /\ 0 <= hdr /\ cellOffset p + 2 * nCell p <= top) by lia.
    destruct (pack_ok pBt (pgType p) u hdr (cellOffset p + 2 * nCell p) (cellOffset p) src top eq_refl Hx2
                items [] d [] u) as (d' & items' & E & E2 & Hca' & L' & B' & S' & bs' & Hl' & Hf' & Hp').
    + done.
    + by apply (on_bytes _ _ _ _ Os).
    + lia.
    + lia.
    + change (zlen (@nil item)) with 0. lia.
    + intros i a c Hi. change (zlen (@nil item)) with 0.
      pose proof (ca_mem _ _ _ Hca i a c Hi) as Hm.
      assert (Hin : (a, zlen c) ∈ cells bs).
      { rewrite Hbl. apply blocks_of_elem. exists c. split; [by eapply zget_elem_of|done]. }
      apply of_kind_elem in Hin. apply (layout_in _ _ _ _ _ _ Hlay) in Hin.
      split; [by eapply ca_ptr|]. split; [|split; [by apply (Forall_zget _ _ _ _ Himg) in Hi|lia]].
      apply (mem_read_move d src a a _ _ Hm); [lia|pose proof (on_len _ _ _ _ Os); lia|].
      intros j Hj. rewrite Gs, Gb by lia. f_equal. lia.
    + apply cells_at_nil.
    + cbn. lia.
    + done.
    + done.
    + lia.
    + change (zlen (@nil item)) with 0 in E. rewrite Z.mul_0_r, Z.add_0_r in E. rewrite E.
      cbn [mbind option_bind negb Z.eqb SQLITE_OK].
      destruct (only_set d' (hdr + 7) 0) as (d2 & Es2 & O2 & V2); [lia|unfold byte_ok; lia|].
      rewrite Es2. cbn [mbind option_bind app] in *.
      assert (Ht' : total bs' = sizes items).
      { rewrite total_kinds, Hf', (free_bytes_perm _ _ Hp'). cbn [free_bytes].
        pose proof (sizes_eq items items' E2) as Hs. unfold sizes in *. lia. }
      exists d2, (u - sizes items), items', bs'. split; [done|]. split; [|lia].
      pose proof (on_len _ _ _ _ O2). constructor; fold u hdr d; try done; try lia.
      * destruct Hca' as [P M]. constructor; intros i a c Hi.
        -- pose proof (zget_range _ _ _ Hi). rewrite (only_word _ _ _ _ _ O2) by lia. by eapply P.
        -- assert (Hin : (a, zlen c) ∈ cells bs').
           { rewrite Hp'. apply blocks_of_elem. exists c. split; [by eapply zget_elem_of|done]. }
           apply of_kind_elem in Hin. apply (layout_in _ _ _ _ _ _ Hl') in Hin.
           rewrite (only_read _ _ _ _ _ _ O2) by lia. by eapply M.
      * by apply (on_bytes _ _ _ _ O2).
      * intros j Hj Hj7. rewrite (on_get _ _ _ _ O2) by lia. apply S'. lia.
      * rewrite V2. f_equal. lia.
Qed.

(** Where the quick way moves the byte at [a]. *)
Definition moved (iFree iFree2 sz sz2 a : Z) : Z :=
  if a <? iFree then a + sz else if a <? iFree2 then a + sz2 else a.

Lemma shift_ptrs_ok iFree iFree2 sz sz2 (l : list item) : forall data pAddr,
  bytes_ok data -> 0 <= pAddr -> pAddr + 2 * zlen l <= zlen data ->
  (forall i a c, l.[i] = Some (a, c) -> get2byte data (pAddr + 2 * i) = Some a /\ 0 <= moved iFree iFree2 sz sz2 a < 65536) ->
  exists d', shift_ptrs (length l) data pAddr iFree iFree2 sz sz2 = Some d' /\ only pAddr (pAddr + 2 * zlen l) data d' /\
    forall i a c, l.[i] = Some (a, c) -> get2byte d' (pAddr + 2 * i) = Some (moved iFree iFree2 sz sz2 a).
Proof using.
  induction l as [|[a c] l IH]; intros data pAddr Hb H0 Hl Hin.
  - exists data. split_and!; [done|apply only_refl|]. intros i a c Hi%zget_range. change (zlen []) with 0 in Hi. lia.
  - rewrite zlen_cons in *. pose proof (zlen_nonneg l). cbn [length shift_ptrs].
    destruct (Hin 0 a c eq_refl) as [Hpa Hm]. rewrite Z.add_0_r in Hpa. rewrite Hpa. cbn [mbind option_bind].
    assert (Hd : exists d1, (if a <? iFree then put2byte data pAddr (a + sz)
        else if a <? iFree2 then put2byte data pAddr (a + sz2) else Some data) = Some d1 /\
        only pAddr (pAddr + 2) data d1 /\ get2byte d1 pAddr = Some (moved iFree iFree2 sz sz2 a)).
    { unfold moved in *. destruct (a <? iFree); [|destruct (a <? iFree2)].
      - destruct (put2byte_ok data pAddr (a + sz)) as (d1 & -> & O & V); [lia|lia|]. exists d1. by rewrite V, u16_small by lia.
      - destruct (put2byte_ok data pAddr (a + sz2)) as (d1 & -> & O & V); [lia|lia|]. exists d1. by rewrite V, u16_small by lia.
      - exists data. split_and!; [done|apply only_refl|done]. }
    destruct Hd as (d1 & -> & O1 & V1). cbn [mbind option_bind]. pose proof (on_len _ _ _ _ O1).
    destruct (IH d1 (pAddr + 2)) as (d' & -> & O' & V').
    + by apply (on_bytes _ _ _ _ O1).
    + lia.
    + lia.
    + intros i b e Hi. pose proof (zget_range _ _ _ Hi). destruct (Hin (i + 1) b e) as [Hb1 Hb2].
      { rewrite zget_cons_pos by lia. by replace (i + 1 - 1) with i by lia. }
      split; [|done]. replace (pAddr + 2 + 2 * i) with (pAddr + 2 * (i + 1)) by lia.
      by rewrite (only_word _ _ _ _ _ O1) by lia.
    + exists d'. split_and!; [done| |].
      * apply (only_trans _ _ _ d1); (eapply only_weaken; [| |done]; lia).
      * intros i b e Hi. pose proof (zget_range _ _ _ Hi) as Hr. rewrite zlen_cons in Hr. destruct (decide (i = 0)) as [->|Hi0].
        -- injection Hi as -> ->. rewrite Z.add_0_r. by rewrite (only_word _ _ _ _ _ O') by lia.
        -- rewrite zget_cons_pos in Hi by lia. replace (pAddr + 2 * i) with (pAddr + 2 + 2 * (i - 1)) by lia. by eapply V'.
Qed.

Definition move_block (f : Z -> Z) (x : Z * Z) : Z * Z := (f x.1, x.2).

(** The cells have been moved; the pointers follow. *)
Lemma fast_finish iFree iFree2 sz sz2 d2 bs' :
  let f := moved iFree iFree2 sz sz2 in
  0 <= sz -> only top (usableSize pBt) (aData p) d2 ->
  (forall a n j, (a, n) ∈ cells bs -> a <= j < a + n -> d2.[f a + (j - a)] = (aData p).[j]) ->
  layout (top + sz) bs' (usableSize pBt) -> frees bs' = [] -> cells bs' = move_block f <$> cells bs ->
  total bs' = total bs - sz ->
  exists d' items', shift_ptrs (Z.to_nat (nCell p)) d2 (cellOffset p) iFree iFree2 sz sz2 = Some d' /\
    packed pBt p top items d' (top + sz) items' bs'.
Proof.
  intros f Hsz O2 Hmove Hl' Hf' Hc' Ht'. pose proof Hp as [Hty Hsp Hoff Hca Hn Hbl Himg].
  pose proof Hsp as [Hh Hu Hb Htop Hfrag Hlay _ _]. pose proof (childPtrSize_cases _ _ Hty) as Hch.
  pose proof (zlen_nonneg items). pose proof (on_len _ _ _ _ O2) as L2. pose proof (layout_le _ _ _ Hlay).
  assert (Hblk : forall i a c, items.[i] = Some (a, c) -> (a, zlen c) ∈ cells bs).
  { intros i a c Hi. rewrite Hbl. apply blocks_of_elem. exists c. split; [by eapply zget_elem_of|done]. }
  assert (Hnew : forall a n, (a, n) ∈ cells bs -> top + sz <= f a /\ f a + n <= usableSize pBt /\ 4 <= n).
  { intros a n Hin. apply (layout_in bs' _ _ (f a) n false Hl'), of_kind_elem. rewrite Hc'.
    apply list_elem_of_fmap. by exists (a, n). }
  replace (Z.to_nat (nCell p)) with (length items) by (unfold zlen in *; lia).
  destruct (shift_ptrs_ok iFree iFree2 sz sz2 items d2 (cellOffset p)) as (d' & -> & O' & V').
  - by apply (on_bytes _ _ _ _ O2).
  - lia.
  - lia.
  - intros i a c Hi. pose proof (Hnew _ _ (Hblk _ _ _ Hi)). pose proof (zget_range _ _ _ Hi). split; [|fold (f a); lia].
    rewrite (only_word _ _ _ _ _ O2) by lia. by eapply ca_ptr.
  - pose proof (on_len _ _ _ _ O') as L'.
    exists d', ((fun x => (f x.1, x.2)) <$> items). split; [done|].
    assert (Hget : forall i a c, ((fun x : item => (f x.1, x.2)) <$> items).[i] = Some (a, c) ->
              exists b, items.[i] = Some (b, c) /\ a = f b).
    { intros i a c. rewrite zget_fmap. destruct items.[i] as [[b e]|]; [|done]. intros [= <- <-]. by exists b. }
    constructor.
    + rewrite <- list_fmap_compose. by apply list_fmap_ext.
    + constructor; intros i a c (b & Hi & ->)%Hget.
      * by eapply V'.
      * pose proof (Hblk _ _ _ Hi) as Hin. pose proof (Hnew _ _ Hin).
        rewrite (only_read _ _ _ _ _ _ O') by lia.
        apply (mem_read_move (aData p) d2 b); [by eapply ca_mem|lia|lia|].
        intros j Hj. rewrite <- (Hmove b (zlen c)) by (done || lia). f_equal. lia.
    + lia.
    + by apply (on_bytes _ _ _ _ O'), (on_bytes _ _ _ _ O2).
    + intros j Hj _. rewrite (on_get _ _ _ _ O'), (on_get _ _ _ _ O2) by lia. done.
    + rewrite (on_get _ _ _ _ O'), (on_get _ _ _ _ O2), Hfrag by lia. f_equal. lia.
    + done.
    + done.
    + rewrite Hc', Hbl. unfold blocks_of. cbn [app]. by rewrite <- !list_fmap_compose.
    + lia.
Qed.

(** Blocks moved up by [k]. *)
Definition shift (k : Z) (bs : list block) : list block := (fun x => (x.1.1 + k, x.1.2, x.2)) <$> bs.

Lemma layout_shift k l : forall lo hi, layout lo l hi -> layout (lo + k) (shift k l) (hi + k).
Proof using.
  induction l as [|[[a n] f] l IH]; intros lo hi; cbn; [lia|]. intros (? & ? & Hl%IH). split_and!; [lia|lia|].
  by replace (a + k + n) with (a + n + k) by lia.
Qed.

Lemma total_shift k l : total (shift k l) = total l.
Proof using. induction l as [|[[a n] f] l IH]; cbn; [done|]. unfold shift in IH. lia. Qed.

Lemma of_kind_shift j k l : of_kind j (shift k l) = move_block (fun a => a + k) <$> of_kind j l.
Proof using.
  induction l as [|[[a n] f] l IH]; cbn; [done|]. unfold shift in IH. by destruct (Bool.eqb f j); cbn; rewrite IH.
Qed.

Lemma move_block_ext f g (l : list (Z * Z)) : (forall a n, (a, n) ∈ l -> f a = g a) -> move_block f <$> l = move_block g <$> l.
Proof using.
  intros Hfg. apply list_fmap_ext. intros i [a n] Hi. unfold move_block. cbn. f_equal.
  apply (Hfg a n). by eapply list_elem_of_lookup_2.
Qed.

(** One free block: everything before it moves up by its size. *)
Lemma fast_one b1 f1 n1 b2 :
  bs = b1 ++ (f1, n1, true) :: b2 -> frees b1 = [] -> frees b2 = [] ->
  exists d1 d' items' bs', memmove (aData p) (top + n1) top (f1 - top) = Some d1 /\
    shift_ptrs (Z.to_nat (nCell p)) d1 (cellOffset p) f1 0 n1 0 = Some d' /\
    packed pBt p top items d' (top + n1) items' bs' /\ total bs' = total bs - n1.
Proof.
  intros Ebs E1 E2. pose proof Hp as [Hty Hsp Hoff Hca Hn Hbl Himg]. pose proof Hsp as [Hh Hu Hb Htop Hfrag Hlay _ _].
  rewrite Ebs in Hlay. apply layout_mid in Hlay as (Hl1 & Hn4 & Hl2).
  pose proof (layout_le _ _ _ Hl1). pose proof (layout_le _ _ _ Hl2).
  destruct (memmove_ok (aData p) (top + n1) top (f1 - top)) as (d1 & E & O & G); [done|lia..|].
  assert (Hc : cells bs = cells b1 ++ cells b2) by (by rewrite Ebs, of_kind_app).
  assert (Hf1 : forall a n, (a, n) ∈ cells b1 -> top <= a /\ a + n <= f1 /\ 4 <= n /\ moved f1 0 n1 0 a = a + n1).
  { intros a n Hin%of_kind_elem. apply (layout_in _ _ _ _ _ _ Hl1) in Hin. unfold moved.
    rewrite (proj2 (Z.ltb_lt _ _)) by lia. split_and!; lia. }
  assert (Hf2 : forall a n, (a, n) ∈ cells b2 -> f1 + n1 <= a /\ a + n <= usableSize pBt /\ moved f1 0 n1 0 a = a).
  { intros a n Hin%of_kind_elem. apply (layout_in _ _ _ _ _ _ Hl2) in Hin. unfold moved.
    rewrite !(proj2 (Z.ltb_ge _ _)) by lia. split_and!; lia. }
  assert (Ht : total (shift n1 b1 ++ b2) = total bs - n1) by (rewrite Ebs, !total_app, total_shift; cbn [total]; lia).
  destruct (fast_finish f1 0 n1 0 d1 (shift n1 b1 ++ b2)) as (d' & items' & E' & Hpk); try done.
  - lia.
  - eapply only_weaken; [| |done]; lia.
  - intros a n j. rewrite Hc. intros [Hin|Hin]%elem_of_app Hj.
    + destruct (Hf1 a n Hin) as (? & ? & ? & ->). rewrite G by lia. f_equal. lia.
    + destruct (Hf2 a n Hin) as (? & ? & ->). replace (a + (j - a)) with j by lia. apply (on_get _ _ _ _ O); lia.
  - apply layout_app. exists (f1 + n1). split; [by apply layout_shift|done].
  - by rewrite of_kind_app, of_kind_shift, E1, E2.
  - rewrite Hc, of_kind_app, of_kind_shift, fmap_app. f_equal.
    + apply move_block_ext. intros a n Hin. by destruct (Hf1 a n Hin) as (_ & _ & _ & ->).
    + rewrite <- (list_fmap_id (cells b2)) at 1. apply list_fmap_ext. intros i [a n] Hi%list_elem_of_lookup_2.
      unfold move_block. cbn. by destruct (Hf2 a n Hi) as (_ & _ & ->).
  - by exists d1, d', items', (shift n1 b1 ++ b2).
Qed.

(** Two free blocks: what is between them moves up by the size of the
    second. *)
Lemma fast_two b1 f1 n1 b2 f2 n2 b3 :
  bs = b1 ++ (f1, n1, true) :: b2 ++ (f2, n2, true) :: b3 -> frees b1 = [] -> frees b2 = [] -> frees b3 = [] ->
  exists d0 d1 d' items' bs', memmove (aData p) (f1 + n1 + n2) (f1 + n1) (f2 - (f1 + n1)) = Some d0 /\
    memmove d0 (top + (n1 + n2)) top (f1 - top) = Some d1 /\
    shift_ptrs (Z.to_nat (nCell p)) d1 (cellOffset p) f1 f2 (n1 + n2) n2 = Some d' /\
    packed pBt p top items d' (top + (n1 + n2)) items' bs' /\ total bs' = total bs - (n1 + n2).
Proof.
  intros Ebs E1 E2 E3. pose proof Hp as [Hty Hsp Hoff Hca Hn Hbl Himg]. pose proof Hsp as [Hh Hu Hb Htop Hfrag Hlay _ _].
  rewrite Ebs in Hlay. apply layout_mid in Hlay as (Hl1 & Hn4 & Hl2). apply layout_mid in Hl2 as (Hl2 & Hn4' & Hl3).
  pose proof (layout_le _ _ _ Hl1). pose proof (layout_le _ _ _ Hl2). pose proof (layout_le _ _ _ Hl3).
  destruct (memmove_ok (aData p) (f1 + n1 + n2) (f1 + n1) (f2 - (f1 + n1))) as (d0 & E0 & O0 & G0); [done|lia..|].
  pose proof (on_len _ _ _ _ O0) as L0.
  destruct (memmove_ok d0 (top + (n1 + n2)) top (f1 - top)) as (d1 & E & O & G);
    [by apply (on_bytes _ _ _ _ O0)|lia..|].
  assert (Hc : cells bs = cells b1 ++ cells b2 ++ cells b3).
  { rewrite Ebs, of_kind_app. cbn [of_kind Bool.eqb]. by rewrite of_kind_app. }
  assert (Hf1 : forall a n, (a, n) ∈ cells b1 -> top <= a /\ a + n <= f1 /\ 4 <= n /\ moved f1 f2 (n1 + n2) n2 a = a + (n1 + n2)).
  { intros a n Hin%of_kind_elem. apply (layout_in _ _ _ _ _ _ Hl1) in Hin. unfold moved.
    rewrite (proj2 (Z.ltb_lt _ _)) by lia. split_and!; lia. }
  assert (Hf2 : forall a n, (a, n) ∈ cells b2 -> f1 + n1 <= a /\ a + n <= f2 /\ moved f1 f2 (n1 + n2) n2 a = a + n2).
  { intros a n Hin%of_kind_elem. apply (layout_in _ _ _ _ _ _ Hl2) in Hin. unfold moved.
    rewrite (proj2 (Z.ltb_ge _ _)), (proj2 (Z.ltb_lt _ _)) by lia. split_and!; lia. }
  assert (Hf3 : forall a n, (a, n) ∈ cells b3 -> f2 + n2 <= a /\ a + n <= usableSize pBt /\ moved f1 f2 (n1 + n2) n2 a = a).
  { intros a n Hin%of_kind_elem. apply (layout_in _ _ _ _ _ _ Hl3) in Hin. unfold moved.
    rewrite !(proj2 (Z.ltb_ge _ _)) by lia. split_and!; lia. }
  set (bs' := shift (n1 + n2) b1 ++ shift n2 b2 ++ b3).
  assert (Ht : total bs' = total bs - (n1 + n2)).
  { unfold bs'. rewrite Ebs, !total_app, !total_shift. cbn [total]. rewrite total_app. cbn [total]. lia. }
  destruct (fast_finish f1 f2 (n1 + n2) n2 d1 bs') as (d' & items' & E' & Hpk); try done.
  - lia.
  - apply (only_trans _ _ _ d0); (eapply only_weaken; [| |done]; lia).
  - intros a n j. rewrite Hc. intros [Hin|[Hin|Hin]%elem_of_app]%elem_of_app Hj.
    + destruct (Hf1 a n Hin) as (? & ? & ? & ->). rewrite G by lia. rewrite (on_get _ _ _ _ O0) by lia. f_equal. lia.
    + destruct (Hf2 a n Hin) as (? & ? & ->). rewrite (on_get _ _ _ _ O), G0 by lia. f_equal. lia.
    + destruct (Hf3 a n Hin) as (? & ? & ->). replace (a + (j - a)) with j by lia.
      rewrite (on_get _ _ _ _ O), (on_get _ _ _ _ O0) by lia. done.
  - apply layout_app. exists (f1 + (n1 + n2)). split; [by apply layout_shift|]. apply layout_app. exists (f2 + n2).
    split; [|done]. replace (f1 + (n1 + n2)) with (f1 + n1 + n2) by lia. by apply layout_shift.
  - unfold bs'. by rewrite !of_kind_app, !of_kind_shift, E1, E2, E3.
  - unfold bs'. rewrite Hc, !of_kind_app, !of_kind_shift, !fmap_app. f_equal; [|f_equal].
    + apply move_block_ext. intros a n Hin. by destruct (Hf1 a n Hin) as (_ & _ & _ & ->).
    + apply move_block_ext. intros a n Hin. by destruct (Hf2 a n Hin) as (_ & _ & ->).
    + rewrite <- (list_fmap_id (cells b3)) at 1. apply list_fmap_ext. intros i [a n] Hi%list_elem_of_lookup_2.
      unfold move_block. cbn. by destruct (Hf3 a n Hi) as (_ & _ & ->).
  - by exists d0, d1, d', items', bs'.
Qed.

(** The test that the free block at [f] is the last one. *)
Lemma few_ok d f x : bytes_ok d -> get2byte d f = Some x ->
  (b0 ← d.[f]; b1 ← d.[f + 1]; Some ((b0 =? 0) && (b1 =? 0))) = Some (x =? 0).
Proof using.
  intros Hb E. pose proof E as Er%get2byte_inv. pose proof (get2byte_zero d f Hb) as Hz. rewrite E in Hz.
  destruct (zget_some d f) as [b0 E0]; [lia|]. destruct (zget_some d (f + 1)) as [b1 E1]; [lia|].
  rewrite E0, E1 in *. cbn [mbind option_bind]. f_equal.
  destruct (Z.eqb_spec x 0) as [->|Hx].
  - destruct Hz as [Hz _]. destruct (Hz eq_refl) as [[= ->] [= ->]]. done.
  - destruct (Z.eqb_spec b0 0) as [->|], (Z.eqb_spec b1 0) as [->|]; try done. destruct Hx.
    destruct Hz as [_ Hz]. specialize (Hz (conj eq_refl eq_refl)). congruence.
Qed.

Lemma defrag_fast_ok nMaxFrag :
  let r := defrag_fast (aData p) (hdrOffset p) (usableSize pBt) (cellOffset p) (nCell p) nMaxFrag in
  r = Some None \/ exists d' cbrk items' bs', r = Some (Some (SQLITE_OK, d', cbrk)) /\
    packed pBt p top items d' cbrk items' bs' /\ usableSize pBt - cbrk - total bs' <= nMaxFrag.
Proof.
  pose proof Hp as [_ Hsp _ _ _ _ _]. pose proof Hsp as [Hh Hu Hb Htop Hfrag Hlay (pc & Hpc & Hch) Hs].
  cbn zeta. unfold defrag_fast. rewrite Hfrag. cbn [mbind option_bind].
  destruct (Z.leb_spec (usableSize pBt - top - total bs) nMaxFrag) as [Hle|]; [|by left]. cbn [negb].
  rewrite Hpc. cbn [mbind option_bind].
  destruct (frees bs) as [|[f1 n1] fs] eqn:Ef.
  { cbn in Hch. subst pc. destruct (Z.gtb_spec 0 (usableSize pBt - 4)); [lia|]. by left. }
  destruct (of_kind_split true bs [] f1 n1 fs Ef) as (b1 & br & Ebs & E1 & Er).
  destruct Hch as (-> & x & Hx & Hn & Hch), Hs as (Ha & Hau & Hs).
  destruct (Z.gtb_spec f1 (usableSize pBt - 4)); [lia|]. rewrite (proj2 (Z.eqb_neq f1 0)) by lia.
  rewrite Hx. cbn [mbind option_bind]. rewrite Hn, Htop. cbn [mbind option_bind]. rewrite u16_small by lia.
  destruct (Z.geb_spec top f1); [lia|]. destruct fs as [|[f2 n2] fs].
  - cbn in Hch. subst x. destruct (Z.gtb_spec 0 (usableSize pBt - 4)); [lia|]. cbn [Z.eqb negb mbind option_bind].
    destruct (Z.gtb_spec (f1 + n1) (usableSize pBt)); [lia|]. cbn [mbind option_bind]. right.
    destruct (fast_one b1 f1 n1 br Ebs E1 Er) as (d1 & d' & items' & bs' & -> & E & Hpk & Ht).
    cbn [mbind option_bind]. rewrite E. cbn [mbind option_bind].
    exists d', (top + n1), items', bs'. split_and!; [done|done|lia].
  - destruct (of_kind_split true br [] f2 n2 fs Er) as (b2 & b3 & -> & E2 & E3).
    destruct Hch as (-> & y & Hy & Hn2 & Hch), Hs as (Ha2 & Hau2 & Hs).
    pose proof (get2byte_range _ _ _ Hb Hn). pose proof (get2byte_range _ _ _ Hb Hn2).
    destruct (Z.gtb_spec f2 (usableSize pBt - 4)); [lia|]. rewrite (proj2 (Z.eqb_neq f2 0)) by lia.
    rewrite (few_ok _ _ y Hb Hy). cbn [mbind option_bind].
    destruct (Z.eqb_spec y 0) as [->|Hy0]; [|by left]. cbn [negb].
    destruct fs as [|[f3 n3] fs]; [|destruct Hch as [? _], Hs as [? _]; lia].
    destruct (Z.gtb_spec (f1 + n1) f2); [lia|]. rewrite Hn2. cbn [mbind option_bind].
    destruct (Z.gtb_spec (f2 + n2) (usableSize pBt)); [lia|]. right.
    destruct (fast_two b1 f1 n1 b2 f2 n2 b3 Ebs E1 E2 E3) as (d0 & d1 & d' & items' & bs' & -> & E & E' & Hpk & Ht).
    cbn [mbind option_bind]. rewrite E. cbn [mbind option_bind]. rewrite E'. cbn [mbind option_bind].
    exists d', (top + (n1 + n2)), items', bs'. split_and!; [done|done|lia].
Qed.

(** The header bytes that neither allocation nor defragmentation touches, and
    the bytes before the header. *)
Definition same_head (d : list Z) : Prop :=
  zlen d = zlen (aData p) /\ forall j, 0 <= j < cellOffset p -> j < hdrOffset p + 1 \/ hdrOffset p + 3 <= j < hdrOffset p + 5 \/ hdrOffset p + 8 <= j ->
  d.[j] = (aData p).[j].

Lemma defrag_out_ok d' cbrk items' bs' : packed pBt p top items d' cbrk items' bs' ->
  nFree p = usableSize pBt - (cellOffset p + 2 * nCell p) - sizes items ->
  exists d, defrag_out p d' (cellOffset p + 2 * nCell p) cbrk = Some (SQLITE_OK, d) /\
    page_at pBt (set_aData d p) cbrk bs' [] items' /\ same_head d /\
    (forall j, cellOffset p + 2 * nCell p <= j < cbrk -> d.[j] = Some 0).
Proof.
  intros [Ks Kc Kl Kb Kh Kf Klay Kfr Kbl Kt] Hfree. pose proof Hp as [Hty Hsp Hoff Hca Hn Hbl Himg].
  pose proof Hsp as [Hh Hu Hb Htop Hfrag Hlay _ _]. pose proof (childPtrSize_cases _ _ Hty) as Hch.
  pose proof (zlen_nonneg items). pose proof (layout_le _ _ _ Klay).
  assert (Ht : total bs' = sizes items).
  { rewrite total_kinds, Kfr, (free_bytes_perm _ _ Kbl). cbn [free_bytes].
    pose proof (sizes_eq items items' Ks) as Hs. unfold sizes in *. lia. }
  set (gap := cellOffset p + 2 * nCell p) in *. unfold defrag_out. rewrite Kf. cbn [mbind option_bind].
  rewrite (proj2 (Z.eqb_eq _ _)) by lia. cbn [negb].
  destruct (put2byte_ok d' (hdrOffset p + 5) cbrk) as (d1 & -> & O1 & V1); [lia|lia|]. cbn [mbind option_bind].
  pose proof (on_len _ _ _ _ O1).
  destruct (only_set d1 (hdrOffset p + 1) 0) as (d2 & -> & O2 & V2); [lia|unfold byte_ok; lia|]. cbn [mbind option_bind].
  pose proof (on_len _ _ _ _ O2).
  destruct (only_set d2 (hdrOffset p + 2) 0) as (d3 & -> & O3 & V3); [lia|unfold byte_ok; lia|]. cbn [mbind option_bind].
  pose proof (on_len _ _ _ _ O3).
  destruct (memset_ok d3 gap 0 (cbrk - gap)) as (d & -> & O & V); [lia..|unfold byte_ok; lia|]. cbn [mbind option_bind].
  pose proof (on_len _ _ _ _ O). exists d. split; [done|].
  assert (Hsame : forall j, 0 <= j -> j < hdrOffset p + 1 \/ hdrOffset p + 3 <= j < hdrOffset p + 5 \/
            hdrOffset p + 7 <= j < gap \/ cbrk <= j -> d.[j] = d'.[j]).
  { intros j Hj Hjr. rewrite (on_get _ _ _ _ O), (on_get _ _ _ _ O3), (on_get _ _ _ _ O2), (on_get _ _ _ _ O1) by lia. done. }
  split; [constructor|split].
  - done.
  - fold gap. constructor; cbn [set_aData aData hdrOffset cellOffset nCell]; fold gap.
    + lia.
    + lia.
    + by apply (on_bytes _ _ _ _ O), (on_bytes _ _ _ _ O3), (on_bytes _ _ _ _ O2), (on_bytes _ _ _ _ O1).
    + rewrite <- V1. apply get2byte_ext;
        rewrite (on_get _ _ _ _ O), (on_get _ _ _ _ O3), (on_get _ _ _ _ O2) by lia; done.
    + rewrite Hsame by lia. done.
    + done.
    + exists 0. rewrite Kfr. split; [|done]. unfold get2byte. replace (hdrOffset p + 1 + 1) with (hdrOffset p + 2) by lia.
      rewrite !(on_get _ _ _ _ O), V3, (on_get _ _ _ _ O3), V2 by lia. done.
    + by rewrite Kfr.
  - done.
  - cbn [set_aData aData cellOffset]. destruct Kc as [P M].
    assert (Hit : zlen items' = nCell p).
    { rewrite <- Hn. apply (f_equal length) in Ks. rewrite !length_fmap in Ks. unfold zlen. lia. }
    constructor; intros i a c Hi.
    + pose proof (zget_range _ _ _ Hi). rewrite <- (P i a c Hi). apply get2byte_ext; apply Hsame; unfold gap; lia.
    + pose proof (M i a c Hi) as Hm. pose proof Hm as (? & ? & ? & _)%mem_read_inv.
      assert (Hin : (a, zlen c) ∈ cells bs').
      { rewrite Kbl. apply blocks_of_elem. exists c. split; [by eapply zget_elem_of|done]. }
      apply of_kind_elem in Hin. apply (layout_in _ _ _ _ _ _ Klay) in Hin.
      apply (mem_read_move d' d a a _ _ Hm); [lia|lia|]. intros j Hj. apply Hsame; lia.
  - cbn [set_aData nCell]. rewrite <- Hn. apply (f_equal length) in Ks. rewrite !length_fmap in Ks. unfold zlen. lia.
  - done.
  - cbn [set_aData pgType]. apply Forall_fmap in Himg. apply (Forall_fmap snd (cell_image pBt (pgType p))).
    by rewrite Ks.
  - split; [lia|]. intros j Hj Hjr. rewrite Hsame by lia. apply Kh; lia.
  - intros j Hj. apply V. lia.
Qed.

Lemma defragmentPage_ok temp nMaxFrag : zlen temp = zlen (aData p) -> bytes_ok temp ->
  nFree p = usableSize pBt - (cellOffset p + 2 * nCell p) - sizes items ->
  exists d cbrk items' bs', defragmentPage pBt p temp nMaxFrag = Some (SQLITE_OK, set_aData d p) /\
    page_at pBt (set_aData d p) cbrk bs' [] items' /\ items'.*2 = items.*2 /\ frees bs' = [] /\
    usableSize pBt - cbrk - total bs' <= Z.max 0 nMaxFrag /\ same_head d /\
    (forall j, cellOffset p + 2 * nCell p <= j < cbrk -> d.[j] = Some 0).
Proof.
  intros Ht Htb Hfree.
  assert (H : exists d' cbrk items' bs',
    (match defrag_fast (aData p) (hdrOffset p) (usableSize pBt) (cellOffset p) (nCell p) nMaxFrag with
     | Some (Some x) => Some x | Some None => defrag_slow pBt p temp | None => None end) = Some (SQLITE_OK, d', cbrk) /\
    packed pBt p top items d' cbrk items' bs' /\ usableSize pBt - cbrk - total bs' <= Z.max 0 nMaxFrag).
  { destruct (defrag_fast_ok nMaxFrag) as [->|(d' & cbrk & items' & bs' & -> & Hk & Hf)].
    - destruct (defrag_slow_ok temp Ht Htb) as (d' & cbrk & items' & bs' & -> & Hk & Hf).
      exists d', cbrk, items', bs'. split_and!; [done|done|lia].
    - exists d', cbrk, items', bs'. split_and!; [done|done|lia]. }
  destruct H as (d' & cbrk & items' & bs' & E & Hk & Hf).
  destruct (defrag_out_ok d' cbrk items' bs' Hk Hfree) as (d & Eo & Hpa & Hh & Hz).
  exists d, cbrk, items', bs'. split_and!; try done; [|by apply (pk_same _ _ _ _ _ _ _ _ Hk)|by apply (pk_frees _ _ _ _ _ _ _ _ Hk)].
  unfold defragmentPage. destruct (defrag_fast _ _ _ _ _ _) as [[x|]|]; cbn [mbind option_bind]; [|rewrite E|done].
  - injection E as ->. cbn [negb Z.eqb SQLITE_OK mbind option_bind]. by rewrite Eo.
  - cbn [negb Z.eqb SQLITE_OK mbind option_bind]. by rewrite Eo.
Qed.
End defrag.
