(* ===== verification/BtCells.v ===== *)
(** The cells of a B-tree page (btree.c): allocating space for a cell
    ([allocateSpace]), inserting one ([insertCell], [insertCellFast]) and
    removing one ([dropCell]). *)
From S2P Require Import Prelude.
From S2P Require Import Bits.
From S2P Require Import Util.
From S2P Require Import Vfs.
From S2P Require Import Mem.
From S2P Require Import BtPage.
From S2P Require Import BtSpace.
From S2P Require Import BtDefrag.
Open Scope Z_scope.

(** * Operations *)

(** Where the content starts; [None] inside means that the page is corrupt. *)
Definition content_top (pBt : BtShared) (gap top : Z) : option Z :=
  if gap >? top then if (top =? 0) && (usableSize pBt =? 65536) then Some 65536 else None
  else if top >? usableSize pBt then None else Some top.

(** The search among the free blocks: [None] inside means that the space has
    to come from the gap. *)
Definition allocate_slot (pBt : BtShared) (pPage : MemPage) (nByte gap top : Z)
    : option (option (Z * Z) * MemPage) :=
  let hdr := hdrOffset pPage in
  b2 ← (aData pPage).[hdr + 2];
  b1 ← (aData pPage).[hdr + 1];
  if (negb (b2 =? 0) || negb (b1 =? 0)) && (gap + 2 <=? top) then
    '(rc, pSpace, pPage) ← pageFindSlot pBt pPage nByte;
    match pSpace with
    | Some g2 => Some (Some (if g2 <=? gap then SQLITE_CORRUPT else SQLITE_OK, g2), pPage)
    | None => Some (if negb (rc =? SQLITE_OK) then Some (rc, 0) else None, pPage)
    end
  else Some (None, pPage).

(** The result code and [*pIdx]; [temp] is the buffer of the pager. *)
Definition allocateSpace (pBt : BtShared) (pPage : MemPage) (temp : list Z) (nByte : Z)
    : option (Z * Z * MemPage) :=
  let hdr := hdrOffset pPage in
  let gap := cellOffset pPage + 2 * nCell pPage in
  top ← get2byte (aData pPage) (hdr + 5);
  match content_top pBt gap top with
  | None => Some (SQLITE_CORRUPT, 0, pPage)
  | Some top =>
      '(r, pPage) ← allocate_slot pBt pPage nByte gap top;
      match r with
      | Some (rc, idx) => Some (rc, idx, pPage)
      | None =>
          '(rc, top, pPage) ←
            (if gap + 2 + nByte >? top then
               '(rc, pPage) ← defragmentPage pBt pPage temp (Z.min 4 (nFree pPage - (2 + nByte)));
               if negb (rc =? SQLITE_OK) then Some (rc, 0, pPage)
               else top ← get2byteNotZero (aData pPage) (hdr + 5); Some (SQLITE_OK, top, pPage)
             else Some (SQLITE_OK, top, pPage));
          if negb (rc =? SQLITE_OK) then Some (rc, 0, pPage)
          else
            let top := top - nByte in
            data ← put2byte (aData pPage) (hdr + 5) top;
            Some (SQLITE_OK, top, set_aData data pPage)
      end
  end.

(** [data[hdr+4]++], carried into [data[hdr+3]]. *)
Definition incr_nCell (data : list Z) (hdr : Z) : option (list Z) :=
  b ← data.[hdr + 4];
  data ← data.[hdr + 4 <- u8 (b + 1)];
  if u8 (b + 1) =? 0 then b ← data.[hdr + 3]; data.[hdr + 3 <- u8 (b + 1)]
  else Some data.

(** The pointer to [idx] becomes the [i]-th. *)
Definition insert_pointer (pPage : MemPage) (i idx : Z) : option MemPage :=
  let pIns := cellOffset pPage + i * 2 in
  data ← memmove (aData pPage) (pIns + 2) pIns (2 * (nCell pPage - i));
  data ← put2byte data pIns idx;
  data ← incr_nCell data (hdrOffset pPage);
  Some (set_nCell (u16 (nCell pPage + 1)) (set_aData data pPage)).

(** [rcWrite] is the result of [sqlite3PagerWrite]; [rcMap] the one of
    [ptrmapPutOvflPtr] with auto-vacuum, and [SQLITE_OK] without. *)
Definition insertCellFast (pBt : BtShared) (pPage : MemPage) (temp : list Z) (rcWrite rcMap : Z)
    (i : Z) (pCell : list Z) (sz : Z) : option (Z * MemPage) :=
  if sz + 2 >? nFree pPage then
    Some (SQLITE_OK, set_ovfl (ovfl pPage ++ [(u16 i, pCell)]) pPage)
  else if negb (rcWrite =? SQLITE_OK) then Some (rcWrite, pPage)
  else
    '(rc, idx, pPage) ← allocateSpace pBt pPage temp sz;
    if negb (rc =? SQLITE_OK) then Some (rc, pPage)
    else
      let pPage := set_nFree (nFree pPage - u16 (2 + sz)) pPage in
      b ← mem_read pCell 0 sz;
      data ← mem_write (aData pPage) idx b;
      pPage ← insert_pointer (set_aData data pPage) i idx;
      Some (rcMap, pPage).

(** The bytes of [pCell] and of [pTemp], if it is not null, come last: a
    divider that does not fit is completed where it stays. *)
Definition insertCell (pBt : BtShared) (pPage : MemPage) (temp : list Z) (rcWrite rcMap : Z)
    (i : Z) (pCell : list Z) (sz : Z) (pTemp : option (list Z)) (iChild : Z)
    : option (Z * MemPage * list Z * option (list Z)) :=
  if negb (Nat.eqb (length (ovfl pPage)) 0) || (sz + 2 >? nFree pPage) then
    match pTemp with
    | Some t =>
        b ← mem_read pCell 0 sz;
        t ← mem_write t 0 b;
        t ← mem_write t 0 (sqlite3Put4byte iChild);
        Some (SQLITE_OK, set_ovfl (ovfl pPage ++ [(u16 i, t)]) pPage, pCell, Some t)
    | None =>
        pCell ← mem_write pCell 0 (sqlite3Put4byte iChild);
        Some (SQLITE_OK, set_ovfl (ovfl pPage ++ [(u16 i, pCell)]) pPage, pCell, None)
    end
  else if negb (rcWrite =? SQLITE_OK) then Some (rcWrite, pPage, pCell, pTemp)
  else
    '(rc, idx, pPage) ← allocateSpace pBt pPage temp sz;
    if negb (rc =? SQLITE_OK) then Some (rc, pPage, pCell, pTemp)
    else
      let pPage := set_nFree (nFree pPage - u16 (2 + sz)) pPage in
      b ← mem_read pCell 4 (sz - 4);
      data ← mem_write (aData pPage) (idx + 4) b;
      data ← mem_write data idx (sqlite3Put4byte iChild);
      pPage ← insert_pointer (set_aData data pPage) i idx;
      Some (rcMap, pPage, pCell, pTemp).

(** The page is left without cells. *)
Definition drop_last (pBt : BtShared) (pPage : MemPage) (data : list Z) : option MemPage :=
  let hdr := hdrOffset pPage in
  data ← memset data (hdr + 1) 0 4;
  data ← data.[hdr + 7 <- 0];
  data ← put2byte data (hdr + 5) (usableSize pBt);
  Some (set_aData data (set_nFree (usableSize pBt - hdr - childPtrSize (pgType pPage) - 8) pPage)).

(** [pRC] is the value of [*pRC] at the call. *)
Definition dropCell (pBt : BtShared) (pPage : MemPage) (idx sz pRC : Z) : option (Z * MemPage) :=
  if negb (pRC =? SQLITE_OK) then Some (pRC, pPage) else
  let ptr := cellOffset pPage + 2 * idx in
  let hdr := hdrOffset pPage in
  pc ← get2byte (aData pPage) ptr;
  if u32 (pc + sz) >? usableSize pBt then Some (SQLITE_CORRUPT, pPage)
  else
    '(rc, pPage) ← freeSpace pBt pPage pc (u16 sz);
    if negb (rc =? SQLITE_OK) then Some (rc, pPage)
    else
      let pPage := set_nCell (u16 (nCell pPage - 1)) pPage in
      if nCell pPage =? 0 then pPage ← drop_last pBt pPage (aData pPage); Some (SQLITE_OK, pPage)
      else
        data ← memmove (aData pPage) ptr (ptr + 2) (2 * (nCell pPage - idx));
        data ← put2byte data (hdr + 3) (nCell pPage);
        Some (SQLITE_OK, set_nFree (nFree pPage + 2) (set_aData data pPage)).

(** * Lists with an element inserted or removed *)

Section lists.
Context {A : Type}.
Implicit Types (l : list A) (x y : A).

Definition ins (i : Z) x l : list A := take (Z.to_nat i) l ++ x :: drop (Z.to_nat i) l.
Definition del (i : Z) l : list A := take (Z.to_nat i) l ++ drop (S (Z.to_nat i)) l.

Lemma zlen_ins i x l : zlen (ins i x l) = zlen l + 1.
Proof. unfold ins, zlen. rewrite length_app, length_take. cbn. rewrite length_drop. lia. Qed.

Lemma zlen_del i l : 0 <= i < zlen l -> zlen (del i l) = zlen l - 1.
Proof. unfold del, zlen. rewrite length_app, length_take, length_drop. lia. Qed.

Lemma zget_ins i x l j y : 0 <= i <= zlen l -> (ins i x l).[j] = Some y ->
  (j < i /\ l.[j] = Some y) \/ (j = i /\ y = x) \/ (i < j /\ l.[j - 1] = Some y).
Proof.
  intros Hi E. unfold ins in E. pose proof (zlen_take l i Hi) as Ht. destruct (Z.lt_trichotomy j i) as [Hj|[->|Hj]].
  - left. rewrite zget_app_l, zget_take in E by lia. done.
  - right; left. rewrite zget_app_r, Ht, Z.sub_diag in E by lia. rewrite zget_cons_0 in E. injection E as ->. done.
  - right; right. rewrite zget_app_r, Ht, zget_cons_pos, zget_drop in E by lia. split; [done|]. rewrite <- E. f_equal. lia.
Qed.

Lemma zget_del i l j y : 0 <= i < zlen l -> (del i l).[j] = Some y ->
  (j < i /\ l.[j] = Some y) \/ (i <= j /\ l.[j + 1] = Some y).
Proof.
  intros Hi E. unfold del in E. pose proof (zlen_take l i ltac:(lia)) as Ht. destruct (Z.lt_ge_cases j i) as [Hj|Hj].
  - left. rewrite zget_app_l, zget_take in E by lia. done.
  - right. rewrite zget_app_r, Ht in E by lia. replace (S (Z.to_nat i)) with (Z.to_nat (i + 1)) in E by lia.
    rewrite zget_drop in E by lia. split; [done|]. rewrite <- E. f_equal. lia.
Qed.

Lemma ins_perm i x l : ins i x l ≡ₚ x :: l.
Proof. unfold ins. rewrite <- Permutation_middle. by rewrite take_drop. Qed.

Lemma del_perm i l x : l.[i] = Some x -> l ≡ₚ x :: del i l.
Proof.
  intros E. pose proof (zget_range _ _ _ E). rewrite zget_to_nat in E by lia. unfold del.
  rewrite Permutation_middle. by rewrite take_drop_middle.
Qed.
End lists.

Lemma ins_fmap {A B} (f : A -> B) i x l : f <$> ins i x l = ins i (f x) (f <$> l).
Proof. unfold ins. rewrite fmap_app, fmap_cons, fmap_take, fmap_drop. done. Qed.

Lemma del_fmap {A B} (f : A -> B) i l : f <$> del i l = del i (f <$> l).
Proof. unfold del. by rewrite fmap_app, fmap_take, fmap_drop. Qed.


(** * Allocation *)

Lemma content_top_ok pBt gap top : 0 < gap <= top -> top <= usableSize pBt <= 65536 ->
  content_top pBt gap (u16 top) = Some top.
Proof.
  intros Hg Ht. unfold content_top. destruct (decide (top = 65536)) as [->|Hn].
  - change (u16 65536) with 0. destruct (Z.gtb_spec gap 0); [|lia].
    rewrite (proj2 (Z.eqb_eq (usableSize pBt) 65536)) by lia. done.
  - rewrite u16_small by lia. destruct (Z.gtb_spec gap top); [lia|]. by destruct (Z.gtb_spec top (usableSize pBt)); [lia|].
Qed.

(** What an operation keeps of the header. *)
Lemma keeps_head p cs d : keeps (hdrOffset p) (cellOffset p + 2 * nCell p) cs (aData p) d -> 0 <= nCell p ->
  same_head p d.
Proof. intros [Hl _ H _] Hn. split; [done|]. intros j Hj Hr. apply H; lia. Qed.

Section allocate.
Context (pBt : BtShared) (p : MemPage) (top : Z) (bs : list block) (items : list item) (nByte : Z).
Hypothesis Hp : page_at pBt p top bs [] items.
Hypothesis Hn : 4 <= nByte.

Lemma page_bounds : 0 < cellOffset p /\ 0 <= nCell p /\ hdrOffset p + 8 <= cellOffset p /\
  cellOffset p + 2 * nCell p <= top <= usableSize pBt /\ usableSize pBt <= 65536.
Proof using Hp.
  pose proof Hp as [Hty Hsp Hoff _ Hni _ _]. pose proof (childPtrSize_cases _ _ Hty). pose proof (zlen_nonneg items).
  destruct Hsp. pose proof (layout_le _ _ _ sp_layout). lia.
Qed.

(** Space taken among the free blocks. *)
Lemma page_take d idx bs' : space (usableSize pBt) (hdrOffset p) (cellOffset p + 2 * nCell p) d top bs' ->
  cells bs' ≡ₚ (idx, nByte) :: cells bs ->
  keeps (hdrOffset p) (cellOffset p + 2 * nCell p) (cells bs) (aData p) d ->
  page_at pBt (set_aData d p) top bs' [(idx, nByte)] items.
Proof using Hp.
  intros Hsp Hc Hk. pose proof page_bounds. pose proof Hp as [Hty _ Hoff Hca Hni Hbl Himg]. constructor; try done.
  - cbn [set_aData aData cellOffset]. eapply cells_at_keeps; [exact Hk|done|lia|lia|]. intros x Hx. by rewrite Hbl.
  - rewrite Hc. cbn [app]. by rewrite Hbl.
Qed.

(** Space taken from the gap. *)
Lemma page_gap : cellOffset p + 2 * nCell p + 2 + nByte <= top ->
  let idx := top - nByte in
  exists d, put2byte (aData p) (hdrOffset p + 5) idx = Some d /\
    page_at pBt (set_aData d p) idx ((idx, nByte, false) :: bs) [(idx, nByte)] items /\ same_head p d.
Proof.
  intros Hroom idx. pose proof page_bounds. pose proof Hp as [Hty Hsp Hoff Hca Hni Hbl Himg].
  pose proof Hsp as [Hh Hu Hb Htop Hfrag Hlay Hlist Hs].
  destruct (put2byte_ok (aData p) (hdrOffset p + 5) idx) as (d & -> & O & V); [lia|lia|]. pose proof (on_len _ _ _ _ O).
  assert (Hin : forall a n, (a, n) ∈ cells bs -> 0 <= a /\ (a + n <= hdrOffset p + 5 \/ hdrOffset p + 5 + 2 <= a)).
  { intros a n Ha%of_kind_elem. apply (layout_in _ _ _ _ _ _ Hlay) in Ha. lia. }
  assert (Hk : keeps (hdrOffset p) (cellOffset p + 2 * nCell p) (cells bs) (aData p) d)
    by (eapply only_keeps; [exact O|lia|lia|exact Hin]).
  exists d. split; [done|]. split; [|eapply keeps_head; [exact Hk|lia]]. constructor; try done.
  - constructor; cbn [set_aData aData hdrOffset cellOffset nCell]; unfold idx in *; try lia.
    + by apply (on_bytes _ _ _ _ O).
    + done.
    + rewrite (on_get _ _ _ _ O) by lia. rewrite Hfrag. cbn [total]. f_equal. lia.
    + cbn [layout]. split_and!; [lia|done|]. by replace (top - nByte + nByte) with top by lia.
    + cbn [of_kind Bool.eqb]. destruct Hlist as (pc & Hpc & Hch). exists pc. split.
      * by rewrite (only_word _ _ _ _ _ O) by lia.
      * eapply chain_frame; [exact Hch|]. intros j Hj (a & n & Ha & Hja). apply (on_get _ _ _ _ O); [done|].
        apply of_kind_elem in Ha. apply (layout_in _ _ _ _ _ _ Hlay) in Ha. lia.
    + cbn [of_kind Bool.eqb]. eapply spaced_weaken; [exact Hs|lia].
  - cbn [set_aData aData cellOffset]. eapply cells_at_keeps; [exact Hk|done|lia|lia|]. intros x Hx. by rewrite Hbl.
  - cbn [of_kind Bool.eqb app]. by rewrite Hbl.
Qed.

Lemma allocate_slot_ok :
  let gap := cellOffset p + 2 * nCell p in
  exists r d, allocate_slot pBt p nByte gap top = Some (r, set_aData d p) /\
    match r with
    | None => d = aData p
    | Some (rc, idx) => rc = SQLITE_OK /\ gap + 2 <= top /\ same_head p d /\
        exists bs', page_at pBt (set_aData d p) top bs' [(idx, nByte)] items
    end.
Proof.
  intros gap. pose proof page_bounds as Hbd. pose proof Hp as [_ Hsp _ _ _ _ _].
  pose proof Hsp as [Hh Hu Hb _ _ _ (pc & Hpc & Hch) Hs]. unfold allocate_slot.
  assert (Hid : exists r d, Some (None, p) = Some (r, set_aData d p) /\
    match r : option (Z * Z) with None => d = aData p | Some (rc, idx) => rc = SQLITE_OK /\ gap + 2 <= top /\ same_head p d /\
        exists bs', page_at pBt (set_aData d p) top bs' [(idx, nByte)] items end).
  { exists None, (aData p). split; [|done]. by destruct p. }
  pose proof (get2byte_zero (aData p) (hdrOffset p + 1) Hb) as Hz. rewrite Hpc in Hz.
  replace (hdrOffset p + 1 + 1) with (hdrOffset p + 2) in Hz by lia.
  destruct (zget_some (aData p) (hdrOffset p + 1)) as [b1 E1]; [lia|].
  destruct (zget_some (aData p) (hdrOffset p + 2)) as [b2 E2]; [lia|]. rewrite E1, E2 in *. cbn [mbind option_bind].
  destruct ((negb (b2 =? 0) || negb (b1 =? 0)) && (gap + 2 <=? top)) eqn:E; [|exact Hid].
  apply andb_true_iff in E as [E Eg%Z.leb_le].
  assert (Hf : frees bs <> []).
  { intros Hf. rewrite Hf in Hch. cbn in Hch. subst pc. destruct Hz as [Hz _]. destruct (Hz eq_refl) as [[= ->] [= ->]]. done. }
  destruct (pageFindSlot_ok pBt p gap top bs nByte Hsp Hf Hn) as (r & d & -> & Hr). cbn [mbind option_bind].
  destruct r as [idx|].
  - destruct Hr as (Hi & bs' & Hsp' & Hc & Hk). destruct (Z.leb_spec idx gap); [lia|].
    exists (Some (SQLITE_OK, idx)), d. split; [done|]. split_and!; [done|done|by eapply keeps_head; [exact Hk|lia]|].
    exists bs'. by apply page_take.
  - subst d. destruct Hid as (r & d & Hid & Hr). cbn [negb Z.eqb SQLITE_OK]. exists r, d. split; [|done].
    rewrite <- Hid. by destruct p.
Qed.

End allocate.

Lemma same_head_trans p d d' : same_head p d -> same_head (set_aData d p) d' -> same_head p d'.
Proof.
  intros [L1 H1] [L2 H2]. split; [by rewrite L2|]. intros j Hj Hr. rewrite <- H1 by done. by apply H2.
Qed.

Lemma top_back d i top : bytes_ok d -> 0 < top <= 65536 -> get2byte d i = Some (u16 top) ->
  get2byteNotZero d i = Some top.
Proof.
  intros Hb Ht E. rewrite (get2byteNotZero_ok _ _ _ Hb E). destruct (decide (top = 65536)) as [->|]; [done|].
  rewrite u16_small by lia. rewrite (proj2 (Z.eqb_neq top 0)) by lia. done.
Qed.

(** What the gap holds after defragmentation. *)
Lemma defragmented_gap pBt p top bs items : page_at pBt p top bs [] items -> frees bs = [] ->
  total bs = sizes items.
Proof. intros Hp Hf. rewrite (page_total _ _ _ _ _ _ Hp), Hf. cbn [free_bytes]. lia. Qed.

(** Whatever the fragmentation, space that is free is found. *)
Lemma allocateSpace_ok pBt p top bs items nByte temp : page_at pBt p top bs [] items -> 4 <= nByte ->
  zlen temp = zlen (aData p) -> bytes_ok temp ->
  nFree p = usableSize pBt - (cellOffset p + 2 * nCell p) - sizes items -> 2 + nByte <= nFree p ->
  exists idx d top' bs' items', allocateSpace pBt p temp nByte = Some (SQLITE_OK, idx, set_aData d p) /\
    page_at pBt (set_aData d p) top' bs' [(idx, nByte)] items' /\ items'.*2 = items.*2 /\
    cellOffset p + 2 * nCell p + 2 <= top' /\ same_head p d.
Proof.
  intros Hp Hn Ht Htb Hfree Hroom. pose proof (page_bounds _ _ _ _ _ Hp) as Hbd. unfold allocateSpace.
  rewrite (sp_top _ _ _ _ _ _ (pa_space _ _ _ _ _ _ Hp)). cbn [mbind option_bind]. rewrite content_top_ok by lia.
  destruct (allocate_slot_ok _ _ _ _ _ _ Hp Hn) as (r & d & -> & Hr). cbn [mbind option_bind]. destruct r as [[rc idx]|].
  { destruct Hr as (-> & Hg & Hh & bs' & Hpa). by exists idx, d, top, bs', items. }
  subst d. replace (set_aData (aData p) p) with p by (by destruct p).
  destruct (Z.gtb_spec (cellOffset p + 2 * nCell p + 2 + nByte) top) as [Hgt|Hle]; cycle 1.
  - destruct (page_gap _ _ _ _ _ _ Hp Hn Hle) as (d & E & Hpa & Hh). cbn [mbind option_bind negb Z.eqb SQLITE_OK].
    rewrite E. cbn [mbind option_bind].
    exists (top - nByte), d, (top - nByte), ((top - nByte, nByte, false) :: bs), items. split_and!; try done. lia.
  - destruct (defragmentPage_ok pBt p top bs items Hp temp (Z.min 4 (nFree p - (2 + nByte))) Ht Htb Hfree)
      as (d & cbrk & items' & bs' & -> & Hpa & Hs & Hf & Hfrag & Hh & _). cbn [mbind option_bind negb Z.eqb SQLITE_OK].
    pose proof (defragmented_gap _ _ _ _ _ Hpa Hf) as Ht'. rewrite (sizes_eq _ _ Hs) in Ht'.
    pose proof (page_bounds _ _ _ _ _ Hpa) as Hbd'. pose proof (pa_space _ _ _ _ _ _ Hpa) as Hsp'.
    cbn [set_aData aData cellOffset hdrOffset nCell] in *.
    rewrite (top_back d _ cbrk) by (apply Hsp' || lia). cbn [mbind option_bind negb Z.eqb SQLITE_OK].
    destruct (page_gap _ _ _ _ _ nByte Hpa Hn) as (d2 & E & Hpa2 & Hh2); [cbn [set_aData cellOffset nCell]; lia|].
    change (hdrOffset (set_aData d p)) with (hdrOffset p) in E. rewrite E. cbn [mbind option_bind].
    exists (cbrk - nByte), d2, (cbrk - nByte), ((cbrk - nByte, nByte, false) :: bs'), items'.
    split_and!; try done; [lia|by eapply same_head_trans].
Qed.

(** * Pointers *)

Lemma incr_nCell_ok d hdr n : bytes_ok d -> get2byte d (hdr + 3) = Some n -> n + 1 < 65536 -> 0 <= hdr ->
  exists d', incr_nCell d hdr = Some d' /\ only (hdr + 3) (hdr + 5) d d' /\ get2byte d' (hdr + 3) = Some (n + 1).
Proof.
  intros Hb E Hn H0. pose proof (get2byte_inv _ _ _ E). unfold get2byte in E.
  replace (hdr + 3 + 1) with (hdr + 4) in E by lia.
  destruct d.[hdr + 3] as [x|] eqn:Ex; [|done]. destruct d.[hdr + 4] as [y|] eqn:Ey; [|done]. cbn [mbind option_bind] in E.
  pose proof (Forall_zget _ _ _ _ Hb Ex) as Hx. pose proof (Forall_zget _ _ _ _ Hb Ey) as Hy. cbn beta in *.
  rewrite <- shift8_add in E by done. injection E as E. unfold incr_nCell. rewrite Ey. cbn [mbind option_bind].
  destruct (only_set d (hdr + 4) (u8 (y + 1))) as (d1 & -> & O1 & V1); [lia|apply u8_ok|]. cbn [mbind option_bind].
  pose proof (on_len _ _ _ _ O1). unfold byte_ok in *.
  destruct (decide (y = 255)) as [->|Hy255].
  - change (u8 (255 + 1)) with 0 in *. cbn [Z.eqb]. rewrite (on_get _ _ _ _ O1), Ex by lia. cbn [mbind option_bind].
    destruct (only_set d1 (hdr + 3) (u8 (x + 1))) as (d2 & -> & O2 & V2); [lia|apply u8_ok|]. exists d2. split; [done|]. split.
    + apply (only_trans _ _ _ d1); (eapply only_weaken; [| |done]; lia).
    + unfold get2byte. rewrite V2. replace (hdr + 3 + 1) with (hdr + 4) by lia. rewrite (on_get _ _ _ _ O2), V1 by lia.
      cbn [mbind option_bind]. f_equal. rewrite u8_small by lia. rewrite <- shift8_add by (unfold byte_ok; lia). lia.
  - rewrite u8_small in * by lia. rewrite (proj2 (Z.eqb_neq (y + 1) 0)) by lia. exists d1. split; [done|]. split.
    + eapply only_weaken; [| |done]; lia.
    + unfold get2byte. replace (hdr + 3 + 1) with (hdr + 4) by lia. rewrite V1, (on_get _ _ _ _ O1), Ex by lia.
      cbn [mbind option_bind]. f_equal. rewrite <- shift8_add by (unfold byte_ok; lia). lia.
Qed.

(** Cells stay cells when their bytes do and the pointers are moved. *)
Lemma cells_at_mem d d' off items : cells_at d off items ->
  (forall i a c, items.[i] = Some (a, c) -> get2byte d' (off + 2 * i) = get2byte d (off + 2 * i)) ->
  zlen d' = zlen d -> (forall a c j, (a, c) ∈ items -> a <= j < a + zlen c -> d'.[j] = d.[j]) ->
  cells_at d' off items.
Proof.
  intros [P M] Hp Hl Hm. constructor; intros i a c Hi.
  - rewrite (Hp i a c Hi). by eapply P.
  - pose proof (M i a c Hi) as Hr. pose proof Hr as (? & ? & ? & _)%mem_read_inv.
    apply (mem_read_move d d' a a _ _ Hr); [lia|lia|]. intros j Hj. apply (Hm a c); [by eapply zget_elem_of|lia].
Qed.

Lemma pointers_insert d off items i idx c : bytes_ok d -> cells_at d off items -> 0 <= off -> 0 <= i <= zlen items ->
  off + 2 * zlen items + 2 <= zlen d -> 0 <= idx < 65536 ->
  (forall a e, (a, e) ∈ (idx, c) :: items -> off + 2 * zlen items + 2 <= a) -> mem_read d idx (zlen c) = Some c ->
  exists d1 d', memmove d (off + i * 2 + 2) (off + i * 2) (2 * (zlen items - i)) = Some d1 /\
    put2byte d1 (off + i * 2) idx = Some d' /\ only (off + i * 2) (off + 2 * zlen items + 2) d d' /\
    cells_at d' off (ins i (idx, c) items).
Proof.
  intros Hb [P M] Ho Hi Hl Hidx Hall Hc.
  destruct (memmove_ok d (off + i * 2 + 2) (off + i * 2) (2 * (zlen items - i))) as (d1 & E1 & O1 & G1); [done|lia..|].
  pose proof (on_len _ _ _ _ O1). destruct (put2byte_ok d1 (off + i * 2) idx) as (d' & E2 & O2 & V2); [lia|lia|].
  pose proof (on_len _ _ _ _ O2). rewrite u16_small in V2 by lia.
  assert (O : only (off + i * 2) (off + 2 * zlen items + 2) d d').
  { apply (only_trans _ _ _ d1); (eapply only_weaken; [| |done]; lia). }
  exists d1, d'. split_and!; try done. constructor; intros j a e [(Hj & Hg)|[[-> [= -> ->]]|[Hj Hg]]]%zget_ins; try done.
  - pose proof (zget_range _ _ _ Hg). rewrite (only_word _ _ _ _ _ O) by lia. by eapply P.
  - by replace (off + 2 * i) with (off + i * 2) by lia.
  - pose proof (zget_range _ _ _ Hg). rewrite (only_word _ _ _ _ _ O2) by lia. rewrite <- (P _ _ _ Hg).
    apply get2byte_ext; rewrite G1 by lia; f_equal; lia.
  - pose proof (Hall a e ltac:(right; by eapply zget_elem_of)). rewrite (only_read _ _ _ _ _ _ O) by lia. by eapply M.
  - pose proof (Hall idx c ltac:(by left)). by rewrite (only_read _ _ _ _ _ _ O) by lia.
  - pose proof (Hall a e ltac:(right; by eapply zget_elem_of)). rewrite (only_read _ _ _ _ _ _ O) by lia. by eapply M.
Qed.

Lemma pointers_delete d off (items : list item) i : bytes_ok d -> 0 <= off -> 0 <= i < zlen items ->
  (forall j a e, items.[j] = Some (a, e) -> get2byte d (off + 2 * j) = Some a) ->
  (forall a e, (a, e) ∈ del i items -> off + 2 * zlen items <= a /\ mem_read d a (zlen e) = Some e) ->
  off + 2 * zlen items <= zlen d ->
  exists d', memmove d (off + 2 * i) (off + 2 * i + 2) (2 * (zlen items - 1 - i)) = Some d' /\
    only (off + 2 * i) (off + 2 * zlen items) d d' /\ cells_at d' off (del i items).
Proof.
  intros Hb Ho Hi P M Hl.
  destruct (memmove_ok d (off + 2 * i) (off + 2 * i + 2) (2 * (zlen items - 1 - i))) as (d' & E & O1 & G1); [done|lia..|].
  assert (O : only (off + 2 * i) (off + 2 * zlen items) d d') by (eapply only_weaken; [| |done]; lia).
  exists d'. split_and!; try done. constructor; intros j a e Hg.
  - apply zget_del in Hg as [(Hj & Hg)|(Hj & Hg)]; [..|done]; pose proof (zget_range _ _ _ Hg).
    + rewrite (only_word _ _ _ _ _ O) by lia. by eapply P.
    + rewrite <- (P _ _ _ Hg). apply get2byte_ext; rewrite G1 by lia; f_equal; lia.
  - destruct (M a e ltac:(by eapply zget_elem_of)). by rewrite (only_read _ _ _ _ _ _ O) by lia.
Qed.

(** The header of a page without cells. *)
Lemma empty_space d u hdr gap : 0 <= hdr -> hdr + 8 <= gap <= u -> 480 <= u <= zlen d -> zlen d <= 65536 -> bytes_ok d ->
  exists d1 d2 d', memset d (hdr + 1) 0 4 = Some d1 /\ d1.[hdr + 7 <- 0] = Some d2 /\ put2byte d2 (hdr + 5) u = Some d' /\
    only (hdr + 1) (hdr + 8) d d' /\ space u hdr gap d' u [] /\ get2byte d' (hdr + 3) = Some 0.
Proof.
  intros Hh Hg Hu Hl Hb.
  destruct (memset_ok d (hdr + 1) 0 4) as (d1 & E1 & O1 & V1); [lia..|unfold byte_ok; lia|]. pose proof (on_len _ _ _ _ O1).
  destruct (only_set d1 (hdr + 7) 0) as (d2 & E2 & O2 & V2); [lia|unfold byte_ok; lia|]. pose proof (on_len _ _ _ _ O2).
  destruct (put2byte_ok d2 (hdr + 5) u) as (d' & E3 & O3 & V3); [lia..|]. pose proof (on_len _ _ _ _ O3).
  assert (O : only (hdr + 1) (hdr + 8) d d').
  { apply (only_trans _ _ _ d1); [|apply (only_trans _ _ _ d2)]; (eapply only_weaken; [| |done]; lia). }
  assert (Hz : forall j, hdr + 1 <= j < hdr + 4 + 1 -> d'.[j] = Some 0).
  { intros j Hj. rewrite (on_get _ _ _ _ O3), (on_get _ _ _ _ O2), V1 by lia. done. }
  assert (Hw : forall j, hdr + 1 <= j < hdr + 4 -> get2byte d' j = Some 0).
  { intros j Hj. unfold get2byte. by rewrite !Hz by lia. }
  exists d1, d2, d'. split_and!; try done; [constructor|apply Hw; lia]; try done; try lia.
  - by apply (on_bytes _ _ _ _ O).
  - rewrite (on_get _ _ _ _ O3), V2 by lia. f_equal. cbn. lia.
  - cbn. lia.
  - exists 0. split; [apply Hw; lia|done].
Qed.

(** * Changing the cells of a page *)

(** A page whose free blocks and header are untouched. *)
Lemma space_frame u hdr gap gap' d d' top bs : space u hdr gap d top bs -> hdr + 8 <= gap' <= top ->
  zlen d' = zlen d -> bytes_ok d' ->
  (forall j, 0 <= j -> hdr + 1 <= j < hdr + 3 \/ hdr + 5 <= j < hdr + 8 \/ in_heads (frees bs) j -> d'.[j] = d.[j]) ->
  space u hdr gap' d' top bs.
Proof.
  intros [Hh Hu Hb Htop Hfrag Hlay (pc & Hpc & Hch) Hs] Hg Hl Hb' Hsame. constructor; try done; try lia.
  - rewrite <- Htop. apply get2byte_ext; apply Hsame; lia.
  - by rewrite Hsame by lia.
  - exists pc. split.
    + rewrite <- Hpc. apply get2byte_ext; apply Hsame; lia.
    + eapply chain_frame; [exact Hch|]. intros j Hj Hin. apply Hsame; auto.
Qed.

(** Two blocks do not overlap. *)
Definition apart (x y : Z * Z) : Prop := x.1 + x.2 <= y.1 \/ y.1 + y.2 <= x.1.

Lemma cells_apart bs lo hi a n l : layout lo bs hi -> cells bs ≡ₚ (a, n) :: l ->
  (forall x, x ∈ l -> apart (a, n) x) /\ (forall x, x ∈ frees bs -> apart (a, n) x) /\ lo <= a /\ a + n <= hi /\ 4 <= n.
Proof.
  intros Hl Hp. assert (Hin : (a, n) ∈ cells bs) by (rewrite Hp; by left).
  assert (Hf : forall x, x ∈ frees bs -> apart (a, n) x).
  { intros [b m] Hb%of_kind_elem. apply of_kind_elem in Hin. apply (layout_apart _ _ _ _ _ _ _ _ Hl Hin Hb). }
  apply list_elem_of_split in Hin as (l1 & l2 & E). rewrite E, <- Permutation_middle in Hp. apply Permutation_cons_inv in Hp.
  apply of_kind_split in E as (b1 & b2 & -> & <- & <-). apply layout_mid in Hl as (H1 & H2 & H3).
  split_and!; [|done|apply layout_le in H1; lia|apply layout_le in H3; lia|done].
  intros [b m]. rewrite <- Hp. intros [Hx%of_kind_elem|Hx%of_kind_elem]%elem_of_app; unfold apart; cbn.
  - apply (layout_in _ _ _ _ _ _ H1) in Hx. lia.
  - apply (layout_in _ _ _ _ _ _ H3) in Hx. lia.
Qed.

(** The content of the cell is written to the space that was allocated. *)
Lemma page_write pBt p top bs idx items c : page_at pBt p top bs [(idx, zlen c)] items -> bytes_ok c ->
  exists d, mem_write (aData p) idx c = Some d /\ page_at pBt (set_aData d p) top bs [(idx, zlen c)] items /\
    same_head p d /\ mem_read d idx (zlen c) = Some c.
Proof.
  intros Hp Hc. pose proof Hp as [Hty Hsp Hoff Hca Hni Hbl Himg]. pose proof (childPtrSize_cases _ _ Hty).
  pose proof (sp_layout _ _ _ _ _ _ Hsp) as Hlay. pose proof (zlen_nonneg items).
  destruct (cells_apart _ _ _ _ _ _ Hlay Hbl) as (Hcs & Hfs & H1 & H2 & H4).
  pose proof (sp_hdr _ _ _ _ _ _ Hsp). pose proof (sp_u _ _ _ _ _ _ Hsp).
  destruct (mem_write_ok (aData p) idx c) as (d & E & O & G); [lia|lia|done|]. pose proof (on_len _ _ _ _ O) as L.
  exists d. split; [done|]. split; [|split].
  - constructor; try done; cbn [set_aData aData hdrOffset cellOffset nCell].
    + eapply space_frame; [exact Hsp|lia|done|by apply (on_bytes _ _ _ _ O); destruct Hsp|].
      intros j Hj Hr. apply (on_get _ _ _ _ O); [done|]. destruct Hr as [?|[?|(a & n & Ha & Hja)]]; [lia|lia|].
      pose proof (Hfs _ Ha) as Hap. apply of_kind_elem in Ha. apply (layout_in _ _ _ _ _ _ Hlay) in Ha.
      destruct Hap; cbn in *; lia.
    + eapply cells_at_mem; [exact Hca| |done|].
      * intros i a e Hi. pose proof (zget_range _ _ _ Hi). apply (only_word _ _ _ _ _ O); lia.
      * intros a e j Hin Hj. assert (Hb : (a, zlen e) ∈ blocks_of items) by (apply blocks_of_elem; by exists e).
        pose proof (Hcs _ Hb) as Hap. assert (Hin2 : (a, zlen e) ∈ cells bs) by (rewrite Hbl; by right).
        apply of_kind_elem in Hin2. apply (layout_in _ _ _ _ _ _ Hlay) in Hin2. apply (on_get _ _ _ _ O); [lia|].
        destruct Hap; cbn in *; lia.
  - split; [done|]. intros j Hj Hr. apply (on_get _ _ _ _ O); lia.
  - destruct (mem_read_ok d idx (zlen c)) as (b & -> & Lb & Gb); [lia..|]. f_equal. apply zget_ext; [done|].
    intros j Hj. rewrite Gb, G by lia. f_equal. lia.
Qed.

Lemma page_cell_addr pBt p top bs extra items a c : page_at pBt p top bs extra items -> (a, c) ∈ items ->
  top <= a /\ a + zlen c <= usableSize pBt.
Proof.
  intros Hp Hin. assert (Hb : (a, zlen c) ∈ cells bs).
  { rewrite (pa_blocks _ _ _ _ _ _ Hp), elem_of_app. right. apply blocks_of_elem. by exists c. }
  apply of_kind_elem in Hb. apply (layout_in _ _ _ _ _ _ (sp_layout _ _ _ _ _ _ (pa_space _ _ _ _ _ _ Hp))) in Hb. lia.
Qed.

(** What no operation on the cells changes: the bytes before the header, which
    on the first page are those of the database header, and the flags. *)
Definition same_prefix (p : MemPage) (d : list Z) : Prop :=
  zlen d = zlen (aData p) /\ forall j, 0 <= j <= hdrOffset p -> d.[j] = (aData p).[j].

Record frame (p p' : MemPage) : Prop := {
  fr_prefix : same_prefix p (aData p');
  fr_hdr : hdrOffset p' = hdrOffset p;
  fr_off : cellOffset p' = cellOffset p;
  fr_type : pgType p' = pgType p;
}.

Lemma frame_trans p1 p2 p3 : frame p1 p2 -> frame p2 p3 -> frame p1 p3.
Proof.
  intros [[L1 P1] H1 O1 T1] [[L2 P2] H2 O2 T2]. constructor; try congruence. split; [congruence|].
  intros j Hj. rewrite P2, P1 by lia. done.
Qed.

Lemma head_prefix p d : hdrOffset p < cellOffset p -> same_head p d -> same_prefix p d.
Proof. intros Hc [L H]. split; [done|]. intros j Hj. apply H; lia. Qed.

(** The allocated space becomes the [i]-th cell. *)
Lemma insert_pointer_ok pBt p top bs items i idx c : page_at pBt p top bs [(idx, zlen c)] items ->
  cellOffset p + 2 * nCell p + 2 <= top -> 0 <= i <= nCell p -> cell_image pBt (pgType p) c ->
  mem_read (aData p) idx (zlen c) = Some c -> get2byte (aData p) (hdrOffset p + 3) = Some (nCell p) ->
  exists d, insert_pointer p i idx = Some (set_nCell (nCell p + 1) (set_aData d p)) /\
    page_at pBt (set_nCell (nCell p + 1) (set_aData d p)) top bs [] (ins i (idx, c) items) /\
    get2byte d (hdrOffset p + 3) = Some (nCell p + 1) /\ same_prefix p d.
Proof.
  intros Hp Hgap Hi Himc Hc Hcnt. pose proof Hp as [Hty Hsp Hoff Hca Hni Hbl Himg]. pose proof (childPtrSize_cases _ _ Hty).
  pose proof (sp_layout _ _ _ _ _ _ Hsp) as Hlay. pose proof (layout_le _ _ _ Hlay).
  destruct (cells_apart _ _ _ _ _ _ Hlay Hbl) as (_ & _ & H1 & H2 & H4).
  pose proof (sp_hdr _ _ _ _ _ _ Hsp). pose proof (sp_u _ _ _ _ _ _ Hsp). pose proof (sp_bytes _ _ _ _ _ _ Hsp) as Hb.
  destruct (pointers_insert (aData p) (cellOffset p) items i idx c) as (d1 & d2 & E1 & E2 & O & Hca2); try done; try lia.
  { intros a e [[= -> ->]|Hin]%elem_of_cons; [lia|]. pose proof (page_cell_addr _ _ _ _ _ _ _ _ Hp Hin). lia. }
  pose proof (on_len _ _ _ _ O). destruct (incr_nCell_ok d2 (hdrOffset p) (nCell p)) as (d & E3 & O3 & V3).
  { by apply (on_bytes _ _ _ _ O). } { by rewrite (only_word _ _ _ _ _ O) by lia. } { lia. } { lia. }
  pose proof (on_len _ _ _ _ O3). exists d. rewrite <- Hni in *. split; [|split; [constructor|split; [done|split; [lia|]]]].
  - unfold insert_pointer. rewrite <- Hni, E1. cbn [mbind option_bind]. rewrite E2. cbn [mbind option_bind].
    rewrite E3. cbn [mbind option_bind]. by rewrite u16_small by lia.
  - done.
  - cbn [set_nCell set_aData aData hdrOffset cellOffset nCell]. eapply space_frame; [exact Hsp|lia|congruence| |].
    + by apply (on_bytes _ _ _ _ O3), (on_bytes _ _ _ _ O).
    + intros j Hj Hr. assert (~ (hdrOffset p + 3 <= j < hdrOffset p + 5) /\ ~ (cellOffset p + i * 2 <= j < cellOffset p + 2 * zlen items + 2)).
      { destruct Hr as [?|[?|(a & n & Ha%of_kind_elem & Hja)]]; [lia|lia|].
        apply (layout_in _ _ _ _ _ _ Hlay) in Ha. lia. }
      rewrite (on_get _ _ _ _ O3), (on_get _ _ _ _ O) by lia. done.
  - done.
  - cbn [set_nCell set_aData aData cellOffset]. eapply cells_at_mem; [exact Hca2| |done|].
    + intros j a e Hj. pose proof (zget_range _ _ _ Hj). apply (only_word _ _ _ _ _ O3); lia.
    + intros a e j Hin Hj. apply (on_get _ _ _ _ O3); rewrite ins_perm in Hin; apply elem_of_cons in Hin as [[= -> ->]|Hin];
        try lia; pose proof (page_cell_addr _ _ _ _ _ _ _ _ Hp Hin); lia.
  - cbn [set_nCell nCell]. by rewrite zlen_ins.
  - rewrite Hbl. unfold blocks_of. rewrite ins_fmap, ins_perm. done.
  - cbn [set_nCell set_aData pgType]. rewrite ins_perm. by constructor.
  - intros j Hj. rewrite (on_get _ _ _ _ O3), (on_get _ _ _ _ O) by lia. done.
Qed.

(** * The page as a list of cells *)

Definition cell_bytes (cs : list (list Z)) : Z := foldr (fun c n => zlen c + n) 0 cs.

Lemma cell_bytes_sizes (items : list item) : cell_bytes items.*2 = sizes items.
Proof. induction items as [|[a c] l IH]; [done|]. rewrite sizes_cons, fmap_cons. cbn [cell_bytes foldr snd]. by rewrite <- IH. Qed.

Lemma cell_bytes_cons c cs : cell_bytes (c :: cs) = zlen c + cell_bytes cs.
Proof. done. Qed.

Lemma cell_bytes_perm cs cs' : cs ≡ₚ cs' -> cell_bytes cs = cell_bytes cs'.
Proof. unfold cell_bytes. induction 1; cbn; lia. Qed.

#[export] Instance cell_bytes_proper : Proper ((≡ₚ) ==> (=)) cell_bytes.
Proof. intros cs cs'. apply cell_bytes_perm. Qed.

(** The page [p] holds the cells [cs], in order. *)
Record page_ok (pBt : BtShared) (p : MemPage) (cs : list (list Z)) : Prop := {
  po_at : exists top bs items, page_at pBt p top bs [] items /\ items.*2 = cs;
  po_free : nFree p = usableSize pBt - (cellOffset p + 2 * nCell p) - cell_bytes cs;
  po_count : get2byte (aData p) (hdrOffset p + 3) = Some (nCell p);
  po_ovfl : ovfl p = [];
  po_mask : maskPage p = u16 (pageSize pBt - 1);
  po_init : isInit p = true;
  po_hdr : hdrOffset p = 0 \/ hdrOffset p = 100;
  po_flag : exists f, (aData p).[hdrOffset p] = Some f /\ decodeFlags pBt (pgType p) f = (SQLITE_OK, pgType p);
}.

(** The flags are read from the header. *)
Lemma frame_flag pBt p p' : frame p p' -> 0 <= hdrOffset p ->
  (exists f, (aData p).[hdrOffset p] = Some f /\ decodeFlags pBt (pgType p) f = (SQLITE_OK, pgType p)) ->
  exists f, (aData p').[hdrOffset p'] = Some f /\ decodeFlags pBt (pgType p') f = (SQLITE_OK, pgType p').
Proof. intros [[L P] -> _ ->] Hh (f & Hf & E). exists f. by rewrite P by lia. Qed.

Lemma mem_read_all (c : list Z) n : n = zlen c -> mem_read c 0 n = Some c.
Proof.
  intros ->. pose proof (zlen_nonneg c). unfold mem_read. rewrite !(proj2 (Z.leb_le _ _)) by lia. by rewrite slice_full.
Qed.

Section ops.
Context (pBt : BtShared) (temp : list Z) (Htb : bytes_ok temp).

(** Room is found, and the cell goes there. *)
Lemma insert_room p cs i c : page_ok pBt p cs -> zlen temp = zlen (aData p) -> cell_image pBt (pgType p) c ->
  0 <= i <= nCell p -> zlen c + 2 <= nFree p ->
  exists idx d1 d2 p', allocateSpace pBt p temp (zlen c) = Some (SQLITE_OK, idx, set_aData d1 p) /\
    mem_write d1 idx c = Some d2 /\
    insert_pointer (set_aData d2 (set_nFree (nFree p - u16 (2 + zlen c)) (set_aData d1 p))) i idx = Some p' /\
    page_ok pBt p' (ins i c cs) /\ frame p p'.
Proof using Htb.
  intros [(top & bs & items & Hp & <-) Hfree Hcnt Hov Hmask Hinit Hhdr Hflag] Ht Himg Hi Hroom. pose proof Himg as (_ & H4 & Hcb).
  rewrite cell_bytes_sizes in Hfree.
  destruct (allocateSpace_ok pBt p top bs items (zlen c) temp Hp H4 Ht Htb Hfree)
    as (idx & d1 & top' & bs' & items' & E1 & Hp1 & Hs & Hgap & Hh1); [lia|].
  destruct (page_write _ _ _ _ _ _ _ Hp1 Hcb) as (d2 & E2 & Hp2 & Hh2 & Hr).
  pose proof (page_bounds _ _ _ _ _ Hp) as Hbd. set (p2 := set_aData d2 (set_nFree (nFree p - u16 (2 + zlen c)) (set_aData d1 p))).
  assert (Hp2' : page_at pBt p2 top' bs' [(idx, zlen c)] items') by (destruct Hp2; by constructor).
  destruct (insert_pointer_ok pBt p2 top' bs' items' i idx c Hp2') as (d3 & E3 & Hp3 & Hc3 & Hl3); try done.
  { change (get2byte d2 (hdrOffset p + 3) = Some (nCell p)). rewrite <- Hcnt.
    pose proof (same_head_trans _ _ _ Hh1 Hh2) as Hh. apply get2byte_ext; apply Hh; pose proof (sp_hdr _ _ _ _ _ _ (pa_space _ _ _ _ _ _ Hp)); lia. }
  set (p3 := set_nCell (nCell p + 1) (set_aData d3 p2)).
  assert (Hfr : frame p p3).
  { constructor; try done. destruct Hl3 as [L3 P3]. destruct (head_prefix p d2) as [L2 P2]; [lia|by eapply same_head_trans|].
    split; [etransitivity; [exact L3|exact L2]|]. intros j Hj. etransitivity; [by apply P3|by apply P2]. }
  exists idx, d1, d2, p3. split_and!; try done. constructor.
  - exists top', bs', (ins i (idx, c) items'). split; [done|]. by rewrite ins_fmap, Hs.
  - change (nFree p - u16 (2 + zlen c) = usableSize pBt - (cellOffset p + 2 * (nCell p + 1)) - cell_bytes (ins i c items.*2)).
    rewrite (cell_bytes_perm _ _ (ins_perm i c _)). rewrite cell_bytes_cons, cell_bytes_sizes.
    pose proof (sizes_nonneg items). rewrite u16_small by lia. lia.
  - done.
  - done.
  - done.
  - done.
  - done.
  - apply (frame_flag _ p); [done|destruct (pa_space _ _ _ _ _ _ Hp); lia|done].
Qed.

(** A cell that does not fit is left to the balancing. *)
Definition overflowed (p : MemPage) (i : Z) (c : list Z) : MemPage := set_ovfl [(u16 i, c)] p.

Lemma insertCellFast_ok p cs i c : page_ok pBt p cs -> zlen temp = zlen (aData p) -> cell_image pBt (pgType p) c ->
  0 <= i <= nCell p ->
  exists p', insertCellFast pBt p temp SQLITE_OK SQLITE_OK i c (zlen c) = Some (SQLITE_OK, p') /\
    (zlen c + 2 <= nFree p -> page_ok pBt p' (ins i c cs) /\ frame p p') /\
    (nFree p < zlen c + 2 -> p' = overflowed p i c).
Proof using Htb.
  intros Hp Ht Himg Hi. unfold insertCellFast. destruct (Z.gtb_spec (zlen c + 2) (nFree p)).
  { rewrite (po_ovfl _ _ _ Hp). exists (overflowed p i c). split_and!; [done|lia|done]. }
  destruct (insert_room p cs i c) as (idx & d1 & d2 & p' & E1 & E2 & E3 & Hp' & Hfr); try done.
  cbn [negb Z.eqb SQLITE_OK]. rewrite E1. cbn [mbind option_bind negb Z.eqb SQLITE_OK].
  rewrite mem_read_all by done. cbn [mbind option_bind].
  change (aData (set_nFree _ (set_aData d1 p))) with d1. rewrite E2. cbn [mbind option_bind].
  change (nFree (set_aData d1 p)) with (nFree p). rewrite E3. cbn [mbind option_bind].
  exists p'. split_and!; [done|done|lia].
Qed.

(** The cell with its first four bytes replaced by a page number. *)
Definition with_child (iChild : Z) (c : list Z) : list Z := sqlite3Put4byte iChild ++ drop 4 c.

Lemma with_child_len iChild c : 4 <= zlen c -> zlen (with_child iChild c) = zlen c.
Proof using. intros H. unfold with_child, zlen in *. rewrite length_app, length_Put4byte, length_drop. lia. Qed.

(** The divider is completed where its bytes are. *)
Lemma put_child b c iChild sz : mem_read b 0 sz = Some c -> bytes_ok b -> 4 <= sz ->
  exists m, mem_write b 0 (sqlite3Put4byte iChild) = Some m /\ mem_read m 0 sz = Some (with_child iChild c).
Proof using.
  intros Hr Hb H4. pose proof Hr as (_ & Hl & Hc & Hg)%mem_read_inv.
  assert (L4 : zlen (sqlite3Put4byte iChild) = 4) by (unfold zlen; by rewrite length_Put4byte).
  destruct (mem_write_ok b 0 (sqlite3Put4byte iChild)) as (m & -> & O & G); [lia|lia|apply Put4byte_bytes|].
  pose proof (on_len _ _ _ _ O). exists m. split; [done|].
  destruct (mem_read_ok m 0 sz) as (x & -> & Lx & Gx); [lia..|]. f_equal.
  apply zget_ext; [rewrite with_child_len; lia|]. intros j Hj. unfold with_child. rewrite Gx by lia.
  destruct (Z.lt_ge_cases j 4).
  - rewrite zget_app_l, G by lia. f_equal. lia.
  - rewrite zget_app_r, L4 by lia. change 4%nat with (Z.to_nat 4). rewrite zget_drop, Hg, (on_get _ _ _ _ O) by lia. f_equal. lia.
Qed.

Lemma insertCell_ok p cs i pCell sz pTemp iChild c : page_ok pBt p cs -> zlen temp = zlen (aData p) ->
  mem_read pCell 0 sz = Some c -> bytes_ok pCell -> cell_image pBt (pgType p) (with_child iChild c) -> 4 <= sz ->
  (forall t, pTemp = Some t -> sz <= zlen t /\ bytes_ok t) -> 0 <= i <= nCell p ->
  exists p' pCell' pTemp', insertCell pBt p temp SQLITE_OK SQLITE_OK i pCell sz pTemp iChild = Some (SQLITE_OK, p', pCell', pTemp') /\
    (sz + 2 <= nFree p -> page_ok pBt p' (ins i (with_child iChild c) cs) /\ frame p p') /\
    (nFree p < sz + 2 -> exists m, p' = overflowed p i m /\ mem_read m 0 sz = Some (with_child iChild c)).
Proof using Htb.
  intros Hp Ht Hr Hb Himg H4 Htemp Hi. pose proof Hr as (_ & Hsz & Hc & _)%mem_read_inv.
  pose proof (mem_read_bytes _ _ _ _ Hb Hr) as Hcb. unfold insertCell. rewrite (po_ovfl _ _ _ Hp). cbn [length Nat.eqb negb orb].
  destruct (Z.gtb_spec (sz + 2) (nFree p)).
  - destruct pTemp as [t|].
    + destruct (Htemp t eq_refl) as [Hlt Htb']. rewrite Hr. cbn [mbind option_bind].
      destruct (mem_write_ok t 0 c) as (t1 & -> & O & G); [lia|lia|done|]. cbn [mbind option_bind].
      assert (Hr1 : mem_read t1 0 sz = Some c).
      { pose proof (on_len _ _ _ _ O). destruct (mem_read_ok t1 0 sz) as (x & -> & Lx & Gx); [lia..|]. f_equal.
        apply zget_ext; [lia|]. intros j Hj. rewrite Gx, G by lia. f_equal. lia. }
      destruct (put_child t1 c iChild sz Hr1) as (m & -> & Hm); [by apply (on_bytes _ _ _ _ O)|done|]. cbn [mbind option_bind].
      eexists _, _, _. split; [done|]. split; [lia|]. intros _. by exists m.
    + destruct (put_child pCell c iChild sz Hr Hb H4) as (m & -> & Hm). cbn [mbind option_bind].
      eexists _, _, _. split; [done|]. split; [lia|]. intros _. by exists m.
  - destruct (insert_room p cs i (with_child iChild c)) as (idx & d1 & d2 & p' & E1 & E2 & E3 & Hp' & Hfr); try done.
    { rewrite with_child_len; lia. }
    rewrite with_child_len, Hc in * by lia. cbn [negb Z.eqb SQLITE_OK]. rewrite E1. cbn [mbind option_bind negb Z.eqb SQLITE_OK].
    pose proof (mem_read_drop _ _ _ _ 4 Hr ltac:(lia)) as Hd. change (0 + 4) with 4 in Hd. rewrite Hd. cbn [mbind option_bind].
    change (aData (set_nFree _ (set_aData d1 p))) with d1. unfold with_child in E2.
    pose proof E2 as [Hi0 Hi1]%mem_write_inv. rewrite zlen_app in Hi1.
    assert (L4 : zlen (sqlite3Put4byte iChild) = 4) by (unfold zlen; by rewrite length_Put4byte).
    rewrite <- mem_write_app in E2; [|apply Put4byte_bytes|by apply Forall_drop|lia|lia]. rewrite L4 in E2.
    change (Z.to_nat 4) with 4%nat. destruct (mem_write d1 (idx + 4) (drop 4 c)) as [d0|]; [|done]. cbn [mbind option_bind] in *.
    rewrite E2. cbn [mbind option_bind]. change (nFree (set_aData d1 p)) with (nFree p). rewrite E3. cbn [mbind option_bind].
    eexists _, _, _. split_and!; [done|done|lia].
Qed.

(** The space of a cell is freed; what is left are the other cells. *)
Lemma drop_free p top bs items i pc c : page_at pBt p top bs [] items -> items.[i] = Some (pc, c) ->
  let gap := cellOffset p + 2 * nCell p in
  exists d top' bs', freeSpace pBt p pc (zlen c) = Some (SQLITE_OK, set_nFree (nFree p + zlen c) (set_aData d p)) /\
    space (usableSize pBt) (hdrOffset p) gap d top' bs' /\ cells bs' ≡ₚ blocks_of (del i items) /\
    keeps (hdrOffset p) gap (blocks_of (del i items)) (aData p) d.
Proof using.
  intros Hp Ei gap. pose proof Hp as [_ Hsp _ _ _ Hbl _]. rewrite (del_perm _ _ _ Ei) in Hbl. cbn [app] in Hbl.
  assert (Hin : (pc, zlen c) ∈ cells bs) by (rewrite Hbl; by left).
  apply list_elem_of_split in Hin as (l1 & l2 & E). pose proof E as (b1 & b2 & -> & <- & <-)%of_kind_split.
  destruct (freeSpace_ok _ _ _ _ _ _ _ _ Hsp) as (d & top' & bs' & Ef & Hsp' & Hc & Hk).
  rewrite of_kind_app in Hbl. cbn [of_kind Bool.eqb] in Hbl. rewrite <- Permutation_middle in Hbl.
  apply Permutation_cons_inv in Hbl. exists d, top', bs'. split_and!; [done|done|by rewrite Hc|].
  destruct Hk as [L B Hh Hk]. constructor; try done. intros a n j Ha. apply Hk. by rewrite Hbl.
Qed.

(** The pointer to a cell whose space has been freed goes. *)
Lemma delete_pointer_ok p top bs items i top' bs' d : page_at pBt p top bs [] items -> 0 <= i < nCell p ->
  let gap := cellOffset p + 2 * nCell p in
  space (usableSize pBt) (hdrOffset p) gap d top' bs' -> cells bs' ≡ₚ blocks_of (del i items) ->
  keeps (hdrOffset p) gap (blocks_of (del i items)) (aData p) d ->
  exists d1 d2, memmove d (cellOffset p + 2 * i) (cellOffset p + 2 * i + 2) (2 * (nCell p - 1 - i)) = Some d1 /\
    put2byte d1 (hdrOffset p + 3) (nCell p - 1) = Some d2 /\
    page_at pBt (set_nCell (nCell p - 1) (set_aData d2 p)) top' bs' [] (del i items) /\
    same_prefix p d2 /\ get2byte d2 (hdrOffset p + 3) = Some (nCell p - 1).
Proof using.
  intros Hp Hi gap Hsp' Hbl' [Lk Bk Hk Ck]. pose proof (page_bounds _ _ _ _ _ Hp) as Hbd.
  pose proof Hp as [Hty Hsp Hoff Hca Hni Hbl Himg]. pose proof (sp_hdr _ _ _ _ _ _ Hsp') as Hh.
  pose proof (sp_layout _ _ _ _ _ _ Hsp') as Hlay. pose proof (layout_le _ _ _ Hlay). pose proof (sp_u _ _ _ _ _ _ Hsp').
  assert (Haddr : forall a e, (a, e) ∈ del i items -> gap <= a /\ a + zlen e <= usableSize pBt).
  { intros a e Hin. assert (Hb : (a, zlen e) ∈ cells bs') by (rewrite Hbl'; apply blocks_of_elem; by exists e).
    apply of_kind_elem in Hb. apply (layout_in _ _ _ _ _ _ Hlay) in Hb. lia. }
  destruct (pointers_delete d (cellOffset p) items i) as (d1 & E1 & O1 & Hca1); [by destruct Hsp'|lia|lia| | |lia|].
  { intros j a e Hj. pose proof (zget_range _ _ _ Hj). rewrite <- (ca_ptr _ _ _ Hca _ _ _ Hj).
    apply get2byte_ext; apply Hk; unfold gap; lia. }
  { intros a e Hin. destruct (Haddr a e Hin). split; [unfold gap in *; lia|].
    pose proof (list_elem_of_lookup_1 _ _ Hin) as [k Hek]. rewrite <- zget_lookup in Hek.
    apply zget_del in Hek; [|lia]. assert (Hm : mem_read (aData p) a (zlen e) = Some e).
    { destruct Hek as [(_ & Hek)|(_ & Hek)]; by eapply ca_mem. }
    apply (mem_read_move _ d a a _ _ Hm); [lia|lia|]. intros j Hj. apply (Ck a (zlen e)); [|lia].
    apply blocks_of_elem. by exists e. }
  rewrite Hni in *. pose proof (on_len _ _ _ _ O1).
  destruct (put2byte_ok d1 (hdrOffset p + 3) (nCell p - 1)) as (d2 & E2 & O2 & V2); [lia..|]. pose proof (on_len _ _ _ _ O2).
  exists d1, d2. rewrite u16_small in V2 by lia. split_and!; try done; cycle 1.
  { split; [lia|]. intros j Hj. rewrite (on_get _ _ _ _ O2), (on_get _ _ _ _ O1) by lia. apply Hk; lia. }
  constructor; try done;
    cbn [set_nCell set_aData aData hdrOffset cellOffset nCell pgType].
  - eapply space_frame; [exact Hsp'|lia|lia| |].
    + apply (on_bytes _ _ _ _ O2), (on_bytes _ _ _ _ O1). by destruct Hsp'.
    + intros j Hj Hr. assert (~ (hdrOffset p + 3 <= j < hdrOffset p + 3 + 2) /\ ~ (cellOffset p + 2 * i <= j < gap)).
      { destruct Hr as [?|[?|(a & n & Ha%of_kind_elem & Hja)]]; [lia|lia|]. apply (layout_in _ _ _ _ _ _ Hlay) in Ha. lia. }
      rewrite (on_get _ _ _ _ O2), (on_get _ _ _ _ O1) by (unfold gap in *; lia). done.
  - eapply cells_at_mem; [exact Hca1| |lia|].
    + intros j a e Hj. pose proof (zget_range _ _ _ Hj). apply (only_word _ _ _ _ _ O2); lia.
    + intros a e j Hin Hj. pose proof (Haddr a e Hin). apply (on_get _ _ _ _ O2); unfold gap in *; lia.
  - rewrite zlen_del; lia.
  - destruct (zget_some items i) as [x Hx]; [lia|]. rewrite (del_perm _ _ _ Hx) in Himg. by apply Forall_cons_1 in Himg as [_ ?].
Qed.

Lemma dropCell_ok p cs i c : page_ok pBt p cs -> cs.[i] = Some c ->
  exists p', dropCell pBt p i (zlen c) SQLITE_OK = Some (SQLITE_OK, p') /\ page_ok pBt p' (del i cs) /\
    frame p p'.
Proof using.
  intros Hpo Hi. pose proof Hpo as [(top & bs & items & Hp & Hcs) Hfree Hcnt Hov Hmask Hinit Hhdr Hflag]. subst cs. rewrite zget_fmap in Hi.
  destruct items.[i] as [[pc c']|] eqn:Ei; [|done]. injection Hi as ->. pose proof (page_bounds _ _ _ _ _ Hp) as Hbd.
  pose proof Hp as [Hty Hsp Hoff Hca Hni Hbl Himg]. pose proof (zget_range _ _ _ Ei) as Hir.
  pose proof (del_perm _ _ _ Ei) as Hdel. assert (Hin : (pc, c) ∈ items) by (by eapply zget_elem_of).
  pose proof (page_cell_addr _ _ _ _ _ _ _ _ Hp Hin). pose proof (zlen_nonneg c).
  assert (Hsz : cell_bytes items.*2 = zlen c + cell_bytes (del i items.*2)).
  { rewrite <- del_fmap. by rewrite Hdel at 1. }
  destruct (drop_free p top bs items i pc c Hp Ei) as (d & top' & bs' & Ef & Hsp' & Hbl' & Hk).
  unfold dropCell. cbn [negb Z.eqb SQLITE_OK].
  rewrite (ca_ptr _ _ _ Hca _ _ _ Ei). cbn [mbind option_bind]. rewrite u32_small, u16_small by lia.
  destruct (Z.gtb_spec (pc + zlen c) (usableSize pBt)); [lia|]. rewrite Ef. cbn [mbind option_bind negb Z.eqb SQLITE_OK].
  change (nCell (set_nFree _ _)) with (nCell p). rewrite u16_small by lia.
  change (nCell (set_nCell _ _)) with (nCell p - 1).
  change (aData (set_nCell _ _)) with d. rewrite <- del_fmap in *. destruct (Z.eqb_spec (nCell p - 1) 0) as [Hz|Hz].
  - destruct (empty_space d (usableSize pBt) (hdrOffset p) (cellOffset p)) as (d1 & d2 & d3 & E1 & E2 & E3 & O & Hsp3 & Hc3);
      [destruct Hsp'; lia|lia|destruct Hsp'; lia|destruct Hsp'; lia|by destruct Hsp'|].
    unfold drop_last. change (hdrOffset (set_nCell _ _)) with (hdrOffset p). rewrite E1. cbn [mbind option_bind].
    rewrite E2. cbn [mbind option_bind]. rewrite E3. cbn [mbind option_bind]. eexists. split; [done|].
    assert (Hnil : del i items = []).
    { pose proof (zlen_del i items Hir) as Hl. destruct (del i items) as [|x l]; [done|]. rewrite zlen_cons in Hl. pose proof (zlen_nonneg l). lia. }
    set (p' := set_aData d3 _).
    assert (Hfr : frame p p').
    { constructor; try done. destruct Hk as [L _ P _]. split; [etransitivity; [exact (on_len _ _ _ _ O)|exact L]|].
      intros j Hj. etransitivity; [apply (on_get _ _ _ _ O); lia|apply P; lia]. }
    rewrite Hnil. split; [constructor|done]; try done.
    + exists (usableSize pBt), [], []. split; [|done]. constructor; try done.
      * change (space (usableSize pBt) (hdrOffset p) (cellOffset p + 2 * (nCell p - 1)) d3 (usableSize pBt) []).
        rewrite Hz. by rewrite Z.add_0_r.
      * apply cells_at_nil.
    + change (usableSize pBt - hdrOffset p - childPtrSize (pgType p) - 8 = usableSize pBt - (cellOffset p + 2 * (nCell p - 1)) - 0). lia.
    + change (get2byte d3 (hdrOffset p + 3) = Some (nCell p - 1)). by rewrite Hz.
    + apply (frame_flag _ p); [done|destruct Hsp'; lia|done].
  - destruct (delete_pointer_ok p top bs items i top' bs' d Hp ltac:(lia) Hsp' Hbl' Hk) as (d1 & d2 & E1 & E2 & Hp2 & L2 & V2).
    change (nCell (set_nCell _ _)) with (nCell p - 1). rewrite E1. cbn [mbind option_bind]. rewrite E2. cbn [mbind option_bind].
    eexists. split; [done|]. set (p' := set_nFree _ _). assert (Hfr : frame p p') by done.
    split; [constructor|done]; try done.
    + exists top', bs', (del i items). split; [|done]. by destruct Hp2.
    + change (nFree p + zlen c + 2 = usableSize pBt - (cellOffset p + 2 * (nCell p - 1)) - cell_bytes (del i items).*2). lia.
    + apply (frame_flag _ p); [done|destruct Hsp'; lia|done].
Qed.
End ops.

(** Valid flags determine the type. *)
Lemma decodeFlags_valid pBt t0 f t : decodeFlags pBt t0 f = (SQLITE_OK, t) ->
  forall t1, decodeFlags pBt t1 f = (SQLITE_OK, t) /\ 0 <= f < 256.
Proof.
  unfold decodeFlags. intros E t1. repeat case_match; try done;
    repeat match goal with E : (f =? _) = true |- _ => apply Z.eqb_eq in E; subst f end; split; by try lia.
Qed.

Lemma zeroPage_ok pBt p flags : bt_ok pBt -> hdrOffset p = 0 \/ hdrOffset p = 100 -> zlen (aData p) = pageSize pBt ->
  bytes_ok (aData p) -> (decodeFlags pBt (pgType p) flags).1 = SQLITE_OK ->
  exists p', zeroPage pBt p flags = Some p' /\ page_ok pBt p' [] /\ zlen (aData p') = pageSize pBt /\
    pgType p' = (decodeFlags pBt (pgType p) flags).2 /\ hdrOffset p' = hdrOffset p /\
    (forall j, 0 <= j < hdrOffset p -> (aData p').[j] = (aData p).[j]).
Proof.
  intros Hbt Hhdr Hl Hb Hfl. pose proof (bo_size _ Hbt). pose proof (bo_usable _ Hbt).
  destruct (decodeFlags pBt (pgType p) flags) as [rc t] eqn:Ed. cbn [fst snd] in *. subst rc.
  assert (Hty : type_ok pBt t) by (by exists (pgType p), flags).
  assert (Hleaf : hdrOffset p + (if Z.land flags PTF_LEAF =? 0 then 12 else 8) = hdrOffset p + 8 + childPtrSize t).
  { unfold decodeFlags in Ed. repeat case_match; try done;
      repeat match goal with E : (flags =? _) = true |- _ => apply Z.eqb_eq in E; subst flags end;
      injection Ed as <-; try done; cbn [childPtrSize]; lia. }
  unfold zeroPage. rewrite Ed.
  assert (Hz : exists d, (if Z.land (btsFlags pBt) BTS_FAST_SECURE =? 0 then Some (aData p)
      else memset (aData p) (hdrOffset p) 0 (usableSize pBt - hdrOffset p)) = Some d /\
      zlen d = zlen (aData p) /\ bytes_ok d /\ forall j, 0 <= j < hdrOffset p -> d.[j] = (aData p).[j]).
  { destruct (Z.land (btsFlags pBt) BTS_FAST_SECURE =? 0); [by exists (aData p)|].
    destruct (memset_ok (aData p) (hdrOffset p) 0 (usableSize pBt - hdrOffset p)) as (d & -> & O & _);
      [lia..|unfold byte_ok; lia|]. exists d.
    split_and!; [done|apply (on_len _ _ _ _ O)|by apply (on_bytes _ _ _ _ O)|]. intros j Hj. apply (on_get _ _ _ _ O); lia. }
  destruct Hz as (d & -> & Ld & Bd & Gd). cbn [mbind option_bind].
  destruct (only_set d (hdrOffset p) (u8 flags)) as (d0 & -> & O0 & V0); [lia|apply u8_ok|]. cbn [mbind option_bind].
  pose proof (on_len _ _ _ _ O0). pose proof (childPtrSize_cases _ _ Hty).
  rewrite Hleaf. set (first := hdrOffset p + 8 + childPtrSize t) in *.
  destruct (empty_space d0 (usableSize pBt) (hdrOffset p) first) as (d1 & d2 & d3 & -> & E2 & E3 & O & Hsp & Hc);
    [lia|lia|lia|lia|by apply (on_bytes _ _ _ _ O0)|]. cbn [mbind option_bind]. rewrite E2. cbn [mbind option_bind].
  rewrite E3. cbn [mbind option_bind]. pose proof (on_len _ _ _ _ O). rewrite (u16_small first), (u16_small (usableSize pBt - first)) by lia.
  eexists. split; [done|]. cbn [aData pgType hdrOffset]. split_and!; [|lia|done|done|]; cycle 1.
  { intros j Hj. rewrite (on_get _ _ _ _ O), (on_get _ _ _ _ O0), Gd by lia. done. }
  constructor; cbn [nFree cellOffset nCell]; try done.
  - exists (usableSize pBt), [], []. split; [|done]. constructor; try done.
    + cbn [cellOffset nCell]. by rewrite Z.add_0_r.
    + apply cells_at_nil.
  - change (cell_bytes []) with 0. lia.
  - cbn [aData hdrOffset pgType]. exists flags. rewrite (on_get _ _ _ _ O), V0 by lia. split; [f_equal|].
    + apply u8_small. by apply (decodeFlags_valid _ _ _ _ Ed t).
    + by apply (decodeFlags_valid _ _ _ _ Ed t).
Qed.
