(* ===== verification/BtList.v ===== *)
(** A B-tree page is a list of cells: the operations of [BtCells] on the bytes
    of a page refine insertion and removal in a list, defragmentation is
    invisible, and reading the page again rebuilds what was in memory. *)
From S2P Require Import Prelude.
From S2P Require Import Util.
From S2P Require Import Vfs.
From S2P Require Import Mem.
From S2P Require Import BtPage.
From S2P Require Import BtSpace.
From S2P Require Import BtDefrag.
From S2P Require Import BtCells.
Open Scope Z_scope.

(** * Reading the cells *)

(** The bytes of the [i]-th cell. *)
Definition read_cell (pBt : BtShared) (p : MemPage) (i : Z) : option (list Z) :=
  pc ← findCell p i;
  n ← cellSize pBt (pgType p) (aData p) pc;
  mem_read (aData p) pc n.

Lemma mask_page pBt pc : bt_ok pBt -> 0 <= pc < pageSize pBt -> Z.land (u16 (pageSize pBt - 1)) pc = pc.
Proof.
  intros Hbt Hpc. pose proof (bo_size _ Hbt). destruct Hbt as [(k & Hk & E) _ _]. rewrite E in *.
  rewrite u16_small by lia. replace (2 ^ k - 1) with (Z.ones k) by (rewrite Z.ones_equiv; lia).
  rewrite Z.land_comm, Z.land_ones by lia. apply Z.mod_small. lia.
Qed.

Section page.
Context (pBt : BtShared) (p : MemPage) (cs : list (list Z)).
Hypothesis Hbt : bt_ok pBt.
Hypothesis Hp : page_ok pBt p cs.

Lemma page_nCell : nCell p = zlen cs.
Proof using Hp.
  destruct (po_at _ _ _ Hp) as (top & bs & items & Ha & <-). by rewrite <- (pa_n _ _ _ _ _ _ Ha), zlen_fmap.
Qed.

Lemma page_cell i c : cs.[i] = Some c -> exists pc, findCell p i = Some pc /\ 0 <= pc /\
  get2byte (aData p) (cellOffset p + 2 * i) = Some pc /\ cellSize pBt (pgType p) (aData p) pc = Some (zlen c) /\
  mem_read (aData p) pc (zlen c) = Some c /\ cell_image pBt (pgType p) c /\
  cellOffset p + 2 * nCell p <= pc /\ pc + zlen c <= usableSize pBt.
Proof using Hbt Hp.
  destruct (po_at _ _ _ Hp) as (top & bs & items & Ha & <-). rewrite zget_fmap. intros Hi.
  destruct items.[i] as [[pc c']|] eqn:Ei; [|done]. injection Hi as ->. pose proof (bo_usable _ Hbt).
  pose proof (Forall_zget _ _ _ _ (pa_image _ _ _ _ _ _ Ha) Ei) as Himg. cbn [snd] in Himg.
  pose proof (ca_mem _ _ _ (pa_cells _ _ _ _ _ _ Ha) _ _ _ Ei) as Hm.
  pose proof (ca_ptr _ _ _ (pa_cells _ _ _ _ _ _ Ha) _ _ _ Ei) as Hptr.
  pose proof (page_cell_addr _ _ _ _ _ _ _ _ Ha (zget_elem_of _ _ _ Ei)). pose proof (page_bounds _ _ _ _ _ Ha).
  pose proof Himg as (_ & H4 & _). exists pc. split_and!; try done; try lia; [|by eapply cell_image_size].
  unfold findCell. rewrite Hptr. cbn [mbind option_bind]. rewrite (po_mask _ _ _ Hp), mask_page by (done || lia). done.
Qed.

Lemma page_read i c : cs.[i] = Some c -> read_cell pBt p i = Some c.
Proof using Hbt Hp.
  intros (pc & E & _ & _ & En & Em & _)%page_cell. unfold read_cell. rewrite E. cbn [mbind option_bind].
  rewrite En. cbn [mbind option_bind]. done.
Qed.
End page.

(** * The operations on a list *)

Inductive page_op :=
  | OpInsert (i : Z) (c : list Z)
  | OpDivider (i : Z) (c : list Z) (pTemp : option (list Z)) (iChild : Z)
  | OpDrop (i : Z).

Definition run_op (pBt : BtShared) (temp : list Z) (p : MemPage) (op : page_op) : option (Z * MemPage) :=
  match op with
  | OpInsert i c => insertCellFast pBt p temp SQLITE_OK SQLITE_OK i c (zlen c)
  | OpDivider i c pTemp iChild =>
      '(rc, p, _, _) ← insertCell pBt p temp SQLITE_OK SQLITE_OK i c (zlen c) pTemp iChild; Some (rc, p)
  | OpDrop i =>
      pc ← findCell p i;
      sz ← cellSize pBt (pgType p) (aData p) pc;
      dropCell pBt p i sz SQLITE_OK
  end.

(** A sequence of operations; an overflow is for the balancing. *)
Fixpoint run_ops (pBt : BtShared) (temp : list Z) (p : MemPage) (ops : list page_op) : option (Z * MemPage) :=
  match ops with
  | [] => Some (SQLITE_OK, p)
  | op :: ops =>
      '(rc, p) ← run_op pBt temp p op;
      if negb (rc =? SQLITE_OK) || negb (Nat.eqb (length (ovfl p)) 0) then Some (rc, p)
      else run_ops pBt temp p ops
  end.

(** What the cells and their pointers take. *)
Definition page_bytes (cs : list (list Z)) : Z := cell_bytes cs + 2 * zlen cs.

(** The cell inserted, with its place. *)
Definition op_cell (op : page_op) : option (Z * list Z) :=
  match op with
  | OpInsert i c => Some (i, c)
  | OpDivider i c _ iChild => Some (i, with_child iChild c)
  | OpDrop _ => None
  end.

(** On a list with a capacity of [cap] bytes; [None] when the cell does not
    fit. *)
Definition spec_op (cap : Z) (cs : list (list Z)) (op : page_op) : option (list (list Z)) :=
  match op with
  | OpDrop i => Some (del i cs)
  | _ => '(i, c) ← op_cell op; if page_bytes (ins i c cs) <=? cap then Some (ins i c cs) else None
  end.

(** The list, and the cell that did not fit. *)
Fixpoint spec_ops (cap : Z) (cs : list (list Z)) (ops : list page_op) : list (list Z) * option (Z * list Z) :=
  match ops with
  | [] => (cs, None)
  | op :: ops => match spec_op cap cs op with Some cs => spec_ops cap cs ops | None => (cs, op_cell op) end
  end.

(** Cells are inserted and removed at places of the list; what is inserted is
    a cell. *)
Definition op_ok (pBt : BtShared) (t : PageType) (cs : list (list Z)) (op : page_op) : Prop :=
  match op with
  | OpInsert i c => 0 <= i <= zlen cs /\ cell_image pBt t c
  | OpDivider i c pTemp iChild => 0 <= i <= zlen cs /\ 4 <= zlen c /\ bytes_ok c /\
      cell_image pBt t (with_child iChild c) /\ (forall b, pTemp = Some b -> zlen c <= zlen b /\ bytes_ok b)
  | OpDrop i => 0 <= i < zlen cs
  end.

Fixpoint ops_ok (pBt : BtShared) (t : PageType) (cap : Z) (cs : list (list Z)) (ops : list page_op) : Prop :=
  match ops with
  | [] => True
  | op :: ops => op_ok pBt t cs op /\ forall cs', spec_op cap cs op = Some cs' -> ops_ok pBt t cap cs' ops
  end.

(** * Refinement *)

Definition capacity (pBt : BtShared) (p : MemPage) : Z := usableSize pBt - cellOffset p.

Section refine.
Context (pBt : BtShared) (temp : list Z) (Hbt : bt_ok pBt) (Htb : bytes_ok temp).

(** The cell that does not fit waits in [ovfl]; the page is as it was. *)
Definition waiting (p p' : MemPage) (i : Z) (c : list Z) : Prop :=
  exists m, p' = overflowed p i m /\ mem_read m 0 (zlen c) = Some c.

Lemma page_bytes_ins i c cs : page_bytes (ins i c cs) = page_bytes cs + zlen c + 2.
Proof using. unfold page_bytes. rewrite zlen_ins, ins_perm, cell_bytes_cons. lia. Qed.

Lemma page_free p cs : page_ok pBt p cs -> nFree p = capacity pBt p - page_bytes cs.
Proof using.
  intros Hp. rewrite (po_free _ _ _ Hp), (page_nCell _ _ _ Hp). unfold capacity, page_bytes. lia.
Qed.

Lemma run_op_ok p cs op : page_ok pBt p cs -> zlen temp = zlen (aData p) -> op_ok pBt (pgType p) cs op ->
  exists p', run_op pBt temp p op = Some (SQLITE_OK, p') /\
    match spec_op (capacity pBt p) cs op with
    | Some cs' => page_ok pBt p' cs' /\ frame p p'
    | None => exists i c, op_cell op = Some (i, c) /\ waiting p p' i c
    end.
Proof using Hbt Htb.
  intros Hp Ht Hok. pose proof (page_nCell _ _ _ Hp) as Hn. pose proof (page_free _ _ Hp) as Hf.
  destruct op as [i c|i c pTemp iChild|i]; cbn [op_ok run_op spec_op op_cell mbind option_bind] in *.
  - destruct Hok as [Hi Himg]. rewrite page_bytes_ins.
    destruct (insertCellFast_ok pBt temp Htb p cs i c Hp Ht Himg) as (p' & -> & H1 & H2); [lia|]. exists p'. split; [done|].
    destruct (Z.leb_spec (page_bytes cs + zlen c + 2) (capacity pBt p)); [by apply H1; lia|].
    exists i, c. split; [done|]. exists c. split; [apply H2; lia|by apply mem_read_all].
  - destruct Hok as (Hi & H4 & Hcb & Himg & Htemp). rewrite page_bytes_ins, with_child_len by done.
    destruct (insertCell_ok pBt temp Htb p cs i c (zlen c) pTemp iChild c Hp Ht) as (p' & c' & t' & -> & H1 & H2);
      [by apply mem_read_all|done|done|done|done|lia|]. cbn [mbind option_bind]. exists p'. split; [done|].
    destruct (Z.leb_spec (page_bytes cs + zlen c + 2) (capacity pBt p)); [by apply H1; lia|].
    exists i, (with_child iChild c). split; [done|]. unfold waiting. rewrite with_child_len by done. apply H2. lia.
  - destruct (zget_some cs i Hok) as [c Ec]. destruct (page_cell _ _ _ Hbt Hp i c Ec) as (pc & -> & _ & _ & En & _).
    cbn [mbind option_bind]. rewrite En. cbn [mbind option_bind].
    destruct (dropCell_ok pBt p cs i c Hp Ec) as (p' & -> & H1 & H2). by exists p'.
Qed.

Lemma run_ops_ok ops : forall p cs, page_ok pBt p cs -> zlen temp = zlen (aData p) ->
  ops_ok pBt (pgType p) (capacity pBt p) cs ops ->
  exists p' p'', run_ops pBt temp p ops = Some (SQLITE_OK, p'') /\ frame p p' /\
    page_ok pBt p' (spec_ops (capacity pBt p) cs ops).1 /\
    match (spec_ops (capacity pBt p) cs ops).2 with
    | None => p'' = p'
    | Some (i, c) => waiting p' p'' i c
    end.
Proof using Hbt Htb.
  induction ops as [|op ops IH]; intros p cs Hp Ht Hok; cbn [run_ops spec_ops] in *.
  { exists p, p. split_and!; try done. }
  destruct Hok as [Hop Hok]. destruct (run_op_ok p cs op Hp Ht Hop) as (p1 & -> & H1).
  cbn [mbind option_bind negb Z.eqb SQLITE_OK orb]. destruct (spec_op (capacity pBt p) cs op) as [cs1|] eqn:E.
  - destruct H1 as [Hp1 Hfr]. rewrite (po_ovfl _ _ _ Hp1). cbn [length Nat.eqb negb].
    pose proof Hfr as [[L _] _ O T]. unfold capacity in *. rewrite <- O. rewrite <- T in Hok.
    destruct (IH p1 cs1 Hp1) as (p' & p'' & E' & Hfr' & Hp' & Hw); [congruence|rewrite O; by apply Hok|].
    exists p', p''. split_and!; try done. by eapply frame_trans.
  - destruct H1 as (i & c & Ec & (m & -> & Hm)). cbn [overflowed set_ovfl ovfl length Nat.eqb negb fst snd].
    exists p, (overflowed p i m). rewrite Ec. split_and!; try done. by exists m.
Qed.
End refine.

(** * Reading the page again *)

Section reload.
Context (pBt : BtShared) (p : MemPage) (cs : list (list Z)).
Hypothesis Hbt : bt_ok pBt.
Hypothesis Hp : page_ok pBt p cs.

(** A page for the same bytes that has not been initialised. *)
Definition same_bytes (q : MemPage) : Prop := aData q = aData p /\ hdrOffset q = hdrOffset p.

Lemma cell_bytes_count l : Forall (fun c => 4 <= zlen c) l -> 4 * zlen l <= cell_bytes l.
Proof using. induction 1 as [|c l Hc _ IH]; [done|]. rewrite zlen_cons, cell_bytes_cons. lia. Qed.

(** Cells of interior pages have a pointer and at least one byte more. *)
Lemma interior_cell t c : type_ok pBt t -> leaf t = false -> cell_image pBt t c -> 5 <= zlen c.
Proof using.
  intros Ht Hl (Hc & H4 & _). apply type_ok_cases in Ht as [->|[->|[->| ->]]]; cbn [leaf] in Hl; try done;
    unfold cellSize in Hc; cbn [xCellSize] in Hc.
  - unfold cellSizePtr, payload_size in Hc. destruct c.[0 + 4] eqn:E; [|done]. apply zget_range in E. lia.
  - unfold cellSizePtrNoPayload in Hc. cbn [key_loop] in Hc. destruct c.[0 + 4] eqn:E; [|done]. apply zget_range in E. lia.
Qed.

Lemma size_check_ok q n : aData q = aData p -> cellOffset q = cellOffset p -> pgType q = pgType p ->
  forall i, 0 <= i -> i + Z.of_nat n <= nCell p ->
  size_check n pBt q i (cellOffset p + 2 * nCell p)
    (if leaf (pgType p) then usableSize pBt - 4 else usableSize pBt - 4 - 1) = Some SQLITE_OK.
Proof using Hbt Hp.
  intros Eq Eo Et. induction n as [|n IH]; intros i Hi Hn; [done|]. cbn [size_check]. rewrite Eq, Eo, Et. rewrite (page_nCell _ _ _ Hp) in Hn.
  destruct (zget_some cs i) as [c Ec]; [lia|].
  destruct (page_cell _ _ _ Hbt Hp i c Ec) as (pc & _ & _ & Ep & En & _ & Himg & H1 & H2).
  pose proof Himg as (_ & H4 & _). assert (H5 : leaf (pgType p) = false -> 5 <= zlen c).
  { intros Hl. eapply interior_cell; [|done|done]. destruct (po_at _ _ _ Hp) as (? & ? & ? & Ha & _). by destruct Ha. }
  replace (cellOffset p + i * 2) with (cellOffset p + 2 * i) by lia. rewrite Ep. cbn [mbind option_bind].
  destruct (Z.ltb_spec pc (cellOffset p + 2 * nCell p)); [lia|]. cbn [orb].
  destruct (Z.gtb_spec pc (if leaf (pgType p) then usableSize pBt - 4 else usableSize pBt - 4 - 1)) as [Hg|_].
  { destruct (leaf (pgType p)); [lia|]. specialize (H5 eq_refl). lia. }
  rewrite En. cbn [mbind option_bind]. destruct (Z.gtb_spec (pc + zlen c) (usableSize pBt)); [lia|].
  apply IH; [lia|]. rewrite (page_nCell _ _ _ Hp). lia.
Qed.

Lemma page_fits : 6 * nCell p <= usableSize pBt - cellOffset p /\ 0 <= nCell p /\ 8 <= cellOffset p <= 112 /\
  cellOffset p = hdrOffset p + 8 + childPtrSize (pgType p) /\ 0 <= nFree p.
Proof using Hp.
  destruct (po_at _ _ _ Hp) as (top & bs & items & Ha & Ecs). pose proof (page_bounds _ _ _ _ _ Ha).
  pose proof (page_total _ _ _ _ _ _ Ha) as Ht. cbn [free_bytes] in Ht.
  pose proof (layout_le _ _ _ (sp_layout _ _ _ _ _ _ (pa_space _ _ _ _ _ _ Ha))).
  pose proof (frees_nonneg _ _ _ (sp_layout _ _ _ _ _ _ (pa_space _ _ _ _ _ _ Ha))).
  pose proof (childPtrSize_cases _ _ (pa_type _ _ _ _ _ _ Ha)). pose proof (pa_off _ _ _ _ _ _ Ha). pose proof (po_hdr _ _ _ Hp).
  assert (Hc : 4 * zlen cs <= cell_bytes cs).
  { apply cell_bytes_count. rewrite <- Ecs. apply Forall_fmap. eapply Forall_impl; [|exact (pa_image _ _ _ _ _ _ Ha)].
    intros x (_ & ? & _). done. }
  rewrite <- Ecs, cell_bytes_sizes, Ecs in Hc. pose proof (page_nCell _ _ _ Hp). pose proof (po_free _ _ _ Hp) as Hf.
  rewrite <- Ecs, cell_bytes_sizes in Hf. lia.
Qed.

Lemma init_page_ok q : same_bytes q -> btreeInitPage pBt q = Some (SQLITE_OK, set_nFree (-1) p).
Proof using Hbt Hp.
  intros [Eq Eh]. pose proof page_fits as (Hn & Hn0 & Hoff & Eoff & _). pose proof (bo_usable _ Hbt). pose proof (bo_size _ Hbt).
  destruct (po_flag _ _ _ Hp) as (f & Ef & Ed). unfold btreeInitPage. rewrite Eq, Eh, Ef. cbn [mbind option_bind].
  rewrite (proj1 (decodeFlags_valid _ _ _ _ Ed (pgType q))). cbn [negb Z.eqb SQLITE_OK]. rewrite (po_count _ _ _ Hp). cbn [mbind option_bind nCell].
  assert (Hmx : nCell p <= MX_CELL pBt) by (apply Z.div_le_lower_bound; lia).
  destruct (Z.gtb_spec (nCell p) (MX_CELL pBt)); [lia|]. cbn [cellOffset maskPage aData].
  assert (Ep : mkMemPage true (pgType p) (hdrOffset p) (u16 (hdrOffset p + 8 + childPtrSize (pgType p))) (-1) (nCell p)
    (u16 (pageSize pBt - 1)) [] (aData p) = set_nFree (-1) p).
  { rewrite <- Eoff, u16_small by lia. rewrite <- (po_mask _ _ _ Hp), <- (po_init _ _ _ Hp), <- (po_ovfl _ _ _ Hp). by destruct p. }
  rewrite Ep. destruct (cellSizeCk pBt); [|done]. unfold btreeCellSizeCheck.
  rewrite (size_check_ok (set_nFree (-1) p) (Z.to_nat (nCell p))); try done; cbn [nCell set_nFree]; lia.
Qed.

Lemma computeFree_ok : btreeComputeFreeSpace pBt (set_nFree (-1) p) = Some (SQLITE_OK, p).
Proof using Hp.
  pose proof page_fits as (Hn & Hn0 & Hoff & Eoff & Hfr). destruct (po_at _ _ _ Hp) as (top & bs & items & Ha & Ecs).
  pose proof (page_bounds _ _ _ _ _ Ha). pose proof (pa_space _ _ _ _ _ _ Ha) as [Hh Hu Hb Htop Hfrag Hlay (pc & Hpc & Hch) Hs].
  pose proof (page_total _ _ _ _ _ _ Ha) as Ht. cbn [free_bytes] in Ht. pose proof (po_free _ _ _ Hp) as Hf.
  rewrite <- Ecs, cell_bytes_sizes in Hf. pose proof (get2byte_range _ _ _ Hb Hpc). pose proof (layout_le _ _ _ Hlay).
  pose proof (Forall_zget _ _ _ _ Hb Hfrag) as Hfb. unfold byte_ok in Hfb. pose proof (sizes_nonneg items).
  unfold btreeComputeFreeSpace. cbn [set_nFree isInit maskPage ovfl cellOffset hdrOffset aData pgType nCell].
  rewrite (top_back _ _ top) by (done || lia). cbn [mbind option_bind]. rewrite Hpc. cbn [mbind option_bind]. rewrite Hfrag. cbn [mbind option_bind].
  destruct (free_blocks_ok (usableSize pBt) (aData p) Hb ltac:(lia) ltac:(lia) top pc (usableSize pBt - top - total bs + top))
    as (r & -> & Hr); [lia..|]. cbn [mbind option_bind].
  assert (r = Some (usableSize pBt - sizes items)) as ->.
  { apply Hr. exists (frees bs). split_and!; [done|by eapply spaced_weaken; [exact Hs|lia]|lia]. }
  rewrite <- Eoff. destruct (Z.gtb_spec (usableSize pBt - sizes items) (usableSize pBt)); [lia|].
  destruct (Z.ltb_spec (usableSize pBt - sizes items) (cellOffset p + 2 * nCell p)); [lia|]. cbn [orb].
  rewrite u16_small by lia. replace (usableSize pBt - sizes items - (cellOffset p + 2 * nCell p)) with (nFree p) by lia. by destruct p.
Qed.
End reload.

(** * Theorems *)

(** Memory for a page that has not been set up. *)
Record raw_page (pBt : BtShared) (temp : list Z) (p : MemPage) : Prop := {
  rp_hdr : hdrOffset p = 0 \/ hdrOffset p = 100;
  rp_len : zlen (aData p) = pageSize pBt;
  rp_bytes : bytes_ok (aData p);
  rp_temp : zlen temp = pageSize pBt /\ bytes_ok temp;
}.

(** C35.  A page is a list of cells.  After [zeroPage], a sequence of
    [insertCellFast], [insertCell] and [dropCell] does to the bytes of the page
    what inserting and removing do to a list: it returns SQLITE_OK, the cells
    read back through the pointers are those of the list, in order, [nFree] is
    the capacity less what the list takes, the bytes before the page header
    are untouched, and it is the first cell that does not fit, and no other,
    that is put aside for the balancing, however fragmented the page is. *)
Theorem page_refines_list pBt temp p flags ops :
  bt_ok pBt -> raw_page pBt temp p -> (decodeFlags pBt (pgType p) flags).1 = SQLITE_OK ->
  let t := (decodeFlags pBt (pgType p) flags).2 in
  let cap := usableSize pBt - (hdrOffset p + 8 + childPtrSize t) in
  ops_ok pBt t cap [] ops ->
  exists p0 p', zeroPage pBt p flags = Some p0 /\ run_ops pBt temp p0 ops = Some (SQLITE_OK, p') /\
    let '(cs, rest) := spec_ops cap [] ops in
    nCell p' = zlen cs /\ (forall i c, cs.[i] = Some c -> read_cell pBt p' i = Some c) /\
    nFree p' = cap - page_bytes cs /\ (forall j, 0 <= j < hdrOffset p -> (aData p').[j] = (aData p).[j]) /\
    match rest with
    | None => ovfl p' = []
    | Some (i, c) => exists m, ovfl p' = [(u16 i, m)] /\ mem_read m 0 (zlen c) = Some c
    end.
Proof.
  intros Hbt [Hh Hl Hb [Htl Htb]] Hfl t cap Hok.
  destruct (zeroPage_ok pBt p flags Hbt Hh Hl Hb Hfl) as (p0 & E0 & Hp0 & L0 & T0 & H0 & P0).
  assert (Hcap : capacity pBt p0 = cap).
  { destruct (page_fits _ _ _ Hp0) as (_ & _ & _ & E & _). unfold capacity, cap, t. by rewrite E, H0, T0. }
  destruct (run_ops_ok pBt temp Hbt Htb ops p0 [] Hp0) as (p1 & p' & E & Hfr & Hp1 & Hw); [congruence|by rewrite Hcap, T0|].
  rewrite Hcap in *. exists p0, p'. split; [done|]. split; [done|]. destruct (spec_ops cap [] ops) as [cs rest]. cbn [fst snd] in *.
  assert (Hview : nCell p' = nCell p1 /\ nFree p' = nFree p1 /\ aData p' = aData p1 /\
                  forall i, read_cell pBt p' i = read_cell pBt p1 i).
  { destruct rest as [[i c]|]; [destruct Hw as (m & -> & _)|subst p']; done. }
  destruct Hview as (-> & -> & -> & Hr). split_and!.
  - by apply (page_nCell pBt).
  - intros i c Hi. rewrite Hr. by apply (page_read _ _ cs).
  - rewrite (page_free _ _ _ Hp1). f_equal. rewrite <- Hcap. unfold capacity. by rewrite (fr_off _ _ Hfr).
  - intros j Hj. rewrite <- P0 by lia. destruct Hfr as [[_ Hpre] _ _ _]. apply Hpre. lia.
  - destruct rest as [[i c]|]; [|subst p'; by apply (po_ovfl _ _ _ Hp1)]. destruct Hw as (m & -> & Hm). by exists m.
Qed.

Definition blank_page : MemPage := mkMemPage false sample_type 0 0 0 0 0 [] (replicate 1024 0).
Definition sample_ops : list page_op :=
  [OpInsert 0 [2; 1; 7; 8]; OpInsert 1 [3; 5; 1; 2; 3]; OpInsert 1 [2; 3; 4; 5]; OpDrop 0].

Lemma sample_raw : raw_page sample_bt (replicate 1024 0) blank_page.
Proof.
  assert (Hb : bytes_ok (replicate 1024 0)) by (apply Forall_replicate; unfold byte_ok; lia).
  constructor; [by left|reflexivity|exact Hb|by split].
Qed.

Lemma sample_ops_ok : ops_ok sample_bt sample_type 1016 [] sample_ops.
Proof.
  assert (Hi : forall c, In c [[2; 1; 7; 8]; [3; 5; 1; 2; 3]; [2; 3; 4; 5]] -> cell_image sample_bt sample_type c).
  { intros c [<-|[<-|[<-|[]]]]; (split; [reflexivity|split; [vm_compute; discriminate|apply (bool_decide_unpack _); exact I]]). }
  do 3 (split; [split; [split; vm_compute; discriminate|apply Hi; cbn; auto]|];
    let E := fresh in intros ? E; vm_compute in E; injection E as <-).
  split; [split; vm_compute; [discriminate|done]|]. intros cs E. exact I.
Qed.

Lemma page_refines_list_witness :
  exists p0 p', zeroPage sample_bt blank_page 13 = Some p0 /\
    run_ops sample_bt (replicate 1024 0) p0 sample_ops = Some (SQLITE_OK, p') /\
    nCell p' = 2 /\ read_cell sample_bt p' 1 = Some [3; 5; 1; 2; 3] /\ nFree p' = 1003.
Proof.
  destruct (page_refines_list sample_bt (replicate 1024 0) blank_page 13 sample_ops sample_bt_ok sample_raw eq_refl sample_ops_ok)
    as (p0 & p' & E0 & E & H1 & H2 & H3 & _).
  exists p0, p'. split; [exact E0|]. split; [exact E|]. split; [exact H1|]. split; [by apply H2|exact H3].
Defined.

(** The page of the sample, with its two cells. *)
Lemma sample_built : exists p0 p, zeroPage sample_bt blank_page 13 = Some p0 /\
  run_ops sample_bt (replicate 1024 0) p0 sample_ops = Some (SQLITE_OK, p) /\
  page_ok sample_bt p [[2; 3; 4; 5]; [3; 5; 1; 2; 3]] /\ zlen (aData p) = 1024.
Proof.
  destruct sample_raw as [Hh Hl Hb [Htl Htb]].
  destruct (zeroPage_ok sample_bt blank_page 13 sample_bt_ok Hh Hl Hb eq_refl) as (p0 & E0 & Hp0 & L0 & T0 & H0 & _).
  change (pgType p0 = sample_type) in T0. change (hdrOffset p0 = 0) in H0.
  assert (Hcap : capacity sample_bt p0 = 1016).
  { destruct (page_fits _ _ _ Hp0) as (_ & _ & _ & E & _). unfold capacity. by rewrite E, H0, T0. }
  destruct (run_ops_ok sample_bt (replicate 1024 0) sample_bt_ok Htb sample_ops p0 [] Hp0) as (p1 & p' & E & Hfr & Hp1 & Hw);
    [congruence|rewrite Hcap, T0; exact sample_ops_ok|].
  rewrite Hcap in *. vm_compute in Hp1, Hw. subst p'. exists p0, p1. split_and!; [done|done|exact Hp1|].
  destruct Hfr as [[L _] _ _ _]. by rewrite L, L0.
Qed.

(** C36.  Reading a page again gives what was in memory.  For a page with the
    cells [cs], [btreeInitPage] and [btreeComputeFreeSpace] on its bytes alone
    accept the page, with or without the checks of the cell sizes, and rebuild
    its type, its number of cells and the number of its free bytes exactly, so
    that [nFree], kept up to date by each operation, is what a scan of the
    free blocks counts. *)
Theorem reload_page pBt p cs q :
  bt_ok pBt -> page_ok pBt p cs -> same_bytes p q ->
  exists q', btreeInitPage pBt q = Some (SQLITE_OK, q') /\ nFree q' = -1 /\
    btreeComputeFreeSpace pBt q' = Some (SQLITE_OK, p).
Proof.
  intros Hbt Hp Hq. exists (set_nFree (-1) p). split; [by apply (init_page_ok _ _ cs)|]. split; [done|].
  by apply (computeFree_ok _ _ cs).
Qed.

Lemma reload_page_witness : exists p q q', run_ops sample_bt (replicate 1024 0) q sample_ops = Some (SQLITE_OK, p) /\
  btreeInitPage sample_bt (mkMemPage false sample_type 0 0 0 0 0 [] (aData p)) = Some (SQLITE_OK, q') /\
  btreeComputeFreeSpace sample_bt q' = Some (SQLITE_OK, p).
Proof.
  destruct sample_built as (p0 & p & E0 & E & Hp & _). pose proof sample_raw as [Hh _ _ _].
  assert (H0 : hdrOffset p = 0).
  { vm_compute in E0. injection E0 as <-. vm_compute in E. injection E as <-. reflexivity. }
  destruct (reload_page sample_bt p _ (mkMemPage false sample_type 0 0 0 0 0 [] (aData p)) sample_bt_ok Hp (conj eq_refl (eq_sym H0)))
    as (q' & E1 & _ & E2).
  exists p, p0, q'. split; [exact E|]. split; [exact E1|exact E2].
Defined.

(** C37.  [defragmentPage], by moving at most two runs of cells or by packing
    the cells one after the other, returns SQLITE_OK on a page with the cells
    [cs], keeps the cells and their order, leaves no free block and at most
    [nMaxFrag] fragmented bytes, so that what is free lies between the
    pointers and the content, all zeros. *)
Theorem defragmentPage_correct pBt p cs temp nMaxFrag :
  bt_ok pBt -> page_ok pBt p cs -> zlen temp = zlen (aData p) -> bytes_ok temp ->
  exists p' top frag, defragmentPage pBt p temp nMaxFrag = Some (SQLITE_OK, p') /\ page_ok pBt p' cs /\
    (forall i c, cs.[i] = Some c -> read_cell pBt p' i = Some c) /\
    nCell p' = nCell p /\ nFree p' = nFree p /\ freelist (aData p') (hdrOffset p + 1) [] /\
    get2byteNotZero (aData p') (hdrOffset p + 5) = Some top /\ (aData p').[hdrOffset p + 7] = Some frag /\
    0 <= frag <= Z.max 0 nMaxFrag /\ top - (cellOffset p + 2 * nCell p) = nFree p - frag /\
    (forall j, cellOffset p + 2 * nCell p <= j < top -> (aData p').[j] = Some 0).
Proof.
  intros Hbt Hp Ht Htb. pose proof Hp as [(top & bs & items & Ha & Ecs) Hf Hcnt Hov Hmask Hinit Hhdr Hflag].
  pose proof Hf as Hf'. rewrite <- Ecs, cell_bytes_sizes in Hf'.
  destruct (defragmentPage_ok pBt p top bs items Ha temp nMaxFrag Ht Htb Hf')
    as (d & cbrk & items' & bs' & E & Ha' & Es & Efr & Hfrag & Hh & Hz).
  pose proof (defragmented_gap _ _ _ _ _ Ha' Efr) as Htot. rewrite (sizes_eq _ _ Es) in Htot.
  pose proof (page_bounds _ _ _ _ _ Ha) as Hbd. pose proof (page_bounds _ _ _ _ _ Ha') as Hbd'.
  pose proof (pa_space _ _ _ _ _ _ Ha') as Hsp'. pose proof (layout_le _ _ _ (sp_layout _ _ _ _ _ _ Hsp')).
  assert (Hp' : page_ok pBt (set_aData d p) cs).
  { destruct (head_prefix p d ltac:(lia) Hh) as [_ Hpre]. constructor; try done.
    - exists cbrk, bs', items'. by rewrite Es.
    - cbn [set_aData aData hdrOffset nCell]. rewrite <- Hcnt. apply get2byte_ext; apply Hh; lia.
    - cbn [set_aData aData hdrOffset pgType]. by rewrite Hpre by lia. }
  exists (set_aData d p), cbrk, (usableSize pBt - cbrk - total bs'). cbn [set_aData aData hdrOffset cellOffset nCell nFree] in *.
  split_and!; try done; try lia.
  - intros i c Hi. by apply (page_read _ _ cs).
  - rewrite <- Efr. by destruct Hsp'.
  - apply top_back; [by destruct Hsp'|lia|by destruct Hsp'].
  - by destruct Hsp'.
Qed.

Lemma defragmentPage_correct_witness : exists p p', page_ok sample_bt p [[2; 3; 4; 5]; [3; 5; 1; 2; 3]] /\
  defragmentPage sample_bt p (replicate 1024 0) 0 = Some (SQLITE_OK, p') /\
  read_cell sample_bt p' 0 = Some [2; 3; 4; 5] /\ freelist (aData p') (hdrOffset p + 1) [].
Proof.
  destruct sample_built as (p0 & p & _ & _ & Hp & L). pose proof sample_raw as [_ _ _ [Htl Htb]].
  destruct (defragmentPage_correct sample_bt p _ (replicate 1024 0) 0 sample_bt_ok Hp ltac:(by rewrite Htl, L) Htb)
    as (p' & top & frag & E & _ & Hr & _ & _ & Hfl & _).
  exists p, p'. split; [exact Hp|]. split; [exact E|]. split; [by apply Hr|exact Hfl].
Defined.
