(* ===== verification/MakeRecord.v ===== *)
(** The record format (vdbe.c, vdbeaux.c): [OP_MakeRecord], which encodes
    values, and [sqlite3VdbeRecordUnpack], which decodes them. *)
From S2P Require Import Prelude.
From S2P Require Import Bits.
From S2P Require Import Varint.
From S2P Require Import Vfs.
From S2P Require Import Mem.
Open Scope Z_scope.

(** * Values *)

(** The values of [Mem] that records hold: NULL, with [MEM_Zero] for "no
    change"; an integer, with [MEM_IntReal]; the bits of a double; text or a
    blob, with [nZero] when [MEM_Zero] is set. *)
Inductive Mem :=
  | MNull (nochng : bool)
  | MInt (intReal : bool) (i : Z)
  | MReal (r : Z)
  | MData (str : bool) (z : list Z) (nZero : option Z).

(** [(double)i]: to nearest, ties to even. *)
Definition round_even (a s : Z) : Z :=
  let q := a / 2 ^ s in
  let r := a mod 2 ^ s in
  if (2 * r >? 2 ^ s) || ((2 * r =? 2 ^ s) && Z.odd q) then q + 1 else q.

Definition double_of_i64 (i : Z) : Z :=
  let a := Z.abs i in
  if a =? 0 then 0 else
  let e := Z.log2 a in
  let m := if e <=? 52 then a * 2 ^ (52 - e) else round_even a (e - 52) in
  (if i <? 0 then 2 ^ 63 else 0) + (e + 1023) * 2 ^ 52 + (m - 2 ^ 52).

Example double_of_2_53_plus_1 : double_of_i64 (- (2 ^ 53 + 1)) = 0xc340000000000000.
Proof. reflexivity. Qed.

Definition EXP754 : Z := Z.shiftl 0x7ff 52.
Definition MAN754 : Z := Z.shiftl 1 52 - 1.
Definition IsNaN (x : Z) : bool := (Z.land x EXP754 =? EXP754) && negb (Z.land x MAN754 =? 0).

(** * Serial types *)

Definition sqlite3SmallTypeSizes : list Z := [
   0;  1;  2;  3;  4;  6;  8;  8;  0;  0;
   0;  0;  0;  0;  1;  1;  2;  2;  3;  3;
   4;  4;  5;  5;  6;  6;  7;  7;  8;  8;
   9;  9; 10; 10; 11; 11; 12; 12; 13; 13;
  14; 14; 15; 15; 16; 16; 17; 17; 18; 18;
  19; 19; 20; 20; 21; 21; 22; 22; 23; 23;
  24; 24; 25; 25; 26; 26; 27; 27; 28; 28;
  29; 29; 30; 30; 31; 31; 32; 32; 33; 33;
  34; 34; 35; 35; 36; 36; 37; 37; 38; 38;
  39; 39; 40; 40; 41; 41; 42; 42; 43; 43;
  44; 44; 45; 45; 46; 46; 47; 47; 48; 48;
  49; 49; 50; 50; 51; 51; 52; 52; 53; 53;
  54; 54; 55; 55; 56; 56; 57; 57].

Definition sqlite3VdbeSerialTypeLen (serial_type : Z) : option Z :=
  if serial_type >=? 128 then Some (u32 (serial_type - 12) / 2)
  else sqlite3SmallTypeSizes.[serial_type].

(** The table is the formula. *)
Lemma small_sizes t : 12 <= t < 128 -> sqlite3SmallTypeSizes.[t] = Some ((t - 12) / 2).
Proof.
  intros Ht. assert (H : forallb (fun n => bool_decide (sqlite3SmallTypeSizes.[Z.of_nat n] = Some ((Z.of_nat n - 12) / 2))) (seq 12 116) = true)
    by reflexivity.
  rewrite forallb_forall in H. specialize (H (Z.to_nat t)). rewrite in_seq, Z2Nat.id in H by lia.
  apply bool_decide_eq_true_1 in H; [done|lia].
Qed.

(** * Encoding *)

(** The serial type of an integer and the bytes it takes. *)
Definition int_type (minWriteFileFormat i : Z) : Z * Z :=
  let uu := if i <? 0 then u64 (Z.lnot i) else u64 i in
  if uu <=? 127 then
    if (Z.land i 1 =? i) && (minWriteFileFormat >=? 4) then (u32 (8 + u32 uu), 0) else (1, 1)
  else if uu <=? 32767 then (2, 2)
  else if uu <=? 8388607 then (3, 3)
  else if uu <=? 2147483647 then (4, 4)
  else if uu <=? 140737488355327 then (5, 6)
  else (6, 8).

(** [nHdr], [nData] and [nZero]. *)
Record Space := mkSpace { nHdr : Z; nData : Z; nZero : Z }.

Definition add_space (h d z : Z) (s : Space) : Space := mkSpace (nHdr s + h) (nData s + d) (nZero s + z).

(** One field: the value, its serial type, and the space; [None] when memory
    for a blob that has to be expanded is refused. *)
Definition size_field (minWriteFileFormat : Z) (a : Alloc) (pRec : Mem) (s : Space)
    : option (Mem * Z * Space) * Alloc :=
  match pRec with
  | MNull nochng => (Some (pRec, if nochng then 10 else 0, add_space 1 0 0 s), a)
  | MInt intReal i =>
      let '(t, n) := int_type minWriteFileFormat i in
      if (t =? 6) && intReal then (Some (MReal (double_of_i64 i), 7, add_space 1 n 0 s), a)
      else (Some (pRec, t, add_space 1 n 0 s), a)
  | MReal _ => (Some (pRec, 7, add_space 1 8 0 s), a)
  | MData str z zero =>
      let len := u32 (zlen z) in
      let serial_type := u32 (len * 2 + 12 + (if str then 1 else 0)) in
      match zero with
      | None => (Some (pRec, serial_type, add_space (sqlite3VarintLen serial_type) len 0 s), a)
      | Some n =>
          let serial_type := u32 (serial_type + n * 2) in
          if negb (nData s =? 0) then
            let '(ok, a) := malloc a in
            if ok then
              (Some (MData str (z ++ replicate (Z.to_nat n) 0) None, serial_type,
                     add_space (sqlite3VarintLen serial_type) (u32 (len + n)) 0 s), a)
            else (None, a)
          else (Some (pRec, serial_type, add_space (sqlite3VarintLen serial_type) len n s), a)
      end
  end.

(** The loop from the last field to the first. *)
Fixpoint size_fields (minWriteFileFormat : Z) (a : Alloc) (recs : list Mem)
    : option (list (Mem * Z) * Space) * Alloc :=
  match recs with
  | [] => (Some ([], mkSpace 0 0 0), a)
  | pRec :: recs =>
      match size_fields minWriteFileFormat a recs with
      | (Some (fs, s), a) =>
          match size_field minWriteFileFormat a pRec s with
          | (Some (m, t, s), a) => (Some ((m, t) :: fs, s), a)
          | (None, a) => (None, a)
          end
      | (None, a) => (None, a)
      end
  end.

Definition header_size (nHdr : Z) : Z :=
  if nHdr <=? 126 then nHdr + 1
  else
    let nVarint := sqlite3VarintLen nHdr in
    let nHdr := nHdr + nVarint in
    if nVarint <? sqlite3VarintLen nHdr then nHdr + 1 else nHdr.

(** [while(1){ zPayload[--i] = (u8)(v&0xFF); if( i==0 ) break; v >>= 8; }] *)
Fixpoint put_be (i : nat) (buf : list Z) (zPayload v : Z) : option (list Z) :=
  match i with
  | O => Some buf
  | S i =>
      buf ← buf.[zPayload + Z.of_nat i <- u8 (Z.land v 0xff)];
      put_be i buf zPayload (Z.shiftr v 8)
  end.

(** [memcpy] of the text or blob. *)
Definition put_data (buf : list Z) (zPayload : Z) (pRec : Mem) : option (list Z * Z) :=
  match pRec with
  | MData _ z _ =>
      if zlen z >? 0 then buf ← mem_write buf zPayload z; Some (buf, zPayload + zlen z)
      else Some (buf, zPayload)
  | _ => Some (buf, zPayload)
  end.

(** One field: the buffer, [zHdr] and [zPayload]. *)
Definition write_field (buf : list Z) (zHdr zPayload : Z) (pRec : Mem) (serial_type : Z)
    : option (list Z * Z * Z) :=
  if serial_type <=? 7 then
    buf ← buf.[zHdr <- serial_type];
    if serial_type =? 0 then Some (buf, zHdr + 1, zPayload)
    else
      let v := match pRec with MReal r => r | MInt _ i => u64 i | _ => 0 end in
      len ← sqlite3SmallTypeSizes.[serial_type];
      buf ← put_be (Z.to_nat len) buf zPayload v;
      Some (buf, zHdr + 1, zPayload + len)
  else if serial_type <? 0x80 then
    buf ← buf.[zHdr <- serial_type];
    '(buf, zPayload) ← (if serial_type >=? 14 then put_data buf zPayload pRec else Some (buf, zPayload));
    Some (buf, zHdr + 1, zPayload)
  else
    let b := sqlite3PutVarint serial_type in
    buf ← mem_write buf zHdr b;
    '(buf, zPayload) ← put_data buf zPayload pRec;
    Some (buf, zHdr + zlen b, zPayload).

Fixpoint write_fields (buf : list Z) (zHdr zPayload : Z) (fs : list (Mem * Z)) : option (list Z * Z * Z) :=
  match fs with
  | [] => Some (buf, zHdr, zPayload)
  | (m, t) :: fs => '(buf, zHdr, zPayload) ← write_field buf zHdr zPayload m t; write_fields buf zHdr zPayload fs
  end.

Inductive MadeRecord :=
  | MadeOk (z : list Z) (nZero : Z)
  | MadeTooBig
  | MadeNoMem.

(** The record is written into a buffer of at least [nByte] bytes; without its
    [nZ] trailing zeros it has [nByte]. *)
Definition write_record (nHdr nByte nZ : Z) (fs : list (Mem * Z)) (buf : list Z) : option MadeRecord :=
  '(buf, zHdr) ← (if nHdr <? 0x80 then buf ← buf.[0 <- nHdr]; Some (buf, 1)
                  else let b := sqlite3PutVarint nHdr in buf ← mem_write buf 0 b; Some (buf, zlen b));
  '(buf, _, _) ← write_fields buf zHdr nHdr fs;
  z ← mem_read buf 0 nByte;
  Some (MadeOk z nZ).

(** From the loop over the fields on, for values that have their affinity.
    [zMalloc] is the buffer of the output register; a new one has any
    contents [fresh n]. *)
Definition make_record (minWriteFileFormat aLimit : Z) (zMalloc : list Z) (fresh : Z -> list Z) (a : Alloc)
    (recs : list Mem) : option MadeRecord * Alloc :=
  match size_fields minWriteFileFormat a recs with
  | (None, a) => (Some MadeNoMem, a)
  | (Some (fs, s), a) =>
      let nHdr := header_size (nHdr s) in
      let nByte := nHdr + nData s in
      let write buf := write_record nHdr nByte (nZero s) fs buf in
      if nByte + nZero s <=? zlen zMalloc then (write zMalloc, a)
      else if nByte + nZero s >? aLimit then (Some MadeTooBig, a)
      else if nByte <=? zlen zMalloc then (write zMalloc, a)
      else
        let '(ok, a) := malloc a in
        if ok then (write (fresh nByte), a) else (Some MadeNoMem, a)
  end.

(** * Decoding *)

Definition i8 (x : Z) : Z := if x <? 128 then x else x - 256.

Definition TWO_BYTE_INT (x : list Z) (o : Z) : option Z :=
  a ← x.[o]; b ← x.[o + 1]; Some (Z.lor (256 * i8 a) b).
Definition THREE_BYTE_INT (x : list Z) (o : Z) : option Z :=
  a ← x.[o]; b ← x.[o + 1]; c ← x.[o + 2]; Some (Z.lor (Z.lor (65536 * i8 a) (Z.shiftl b 8)) c).
Definition FOUR_BYTE_UINT (x : list Z) (o : Z) : option Z :=
  a ← x.[o]; b ← x.[o + 1]; c ← x.[o + 2]; d ← x.[o + 3];
  Some (Z.lor (Z.lor (Z.lor (Z.shiftl a 24) (Z.shiftl b 16)) (Z.shiftl c 8)) d).
Definition FOUR_BYTE_INT (x : list Z) (o : Z) : option Z :=
  a ← x.[o]; b ← x.[o + 1]; c ← x.[o + 2]; d ← x.[o + 3];
  Some (Z.lor (Z.lor (Z.lor (16777216 * i8 a) (Z.shiftl b 16)) (Z.shiftl c 8)) d).

Definition serialGet (buf : list Z) (o serial_type : Z) : option Mem :=
  x ← FOUR_BYTE_UINT buf o;
  y ← FOUR_BYTE_UINT buf (o + 4);
  let x := u64 (u64 (Z.shiftl x 32) + y) in
  if serial_type =? 6 then Some (MInt false (i64 x))
  else Some (if IsNaN x then MNull false else MReal x).

(** The value at [buf+o]; text and blobs are not copied: their bytes are those
    that follow. *)
Definition sqlite3VdbeSerialGet (buf : list Z) (o serial_type : Z) : option Mem :=
  if serial_type =? 10 then Some (MNull true)
  else if (serial_type =? 11) || (serial_type =? 0) then Some (MNull false)
  else if serial_type =? 1 then a ← buf.[o]; Some (MInt false (i8 a))
  else if serial_type =? 2 then i ← TWO_BYTE_INT buf o; Some (MInt false i)
  else if serial_type =? 3 then i ← THREE_BYTE_INT buf o; Some (MInt false i)
  else if serial_type =? 4 then i ← FOUR_BYTE_INT buf o; Some (MInt false i)
  else if serial_type =? 5 then
    x ← FOUR_BYTE_UINT buf (o + 2);
    y ← TWO_BYTE_INT buf o;
    Some (MInt false (x + 2 ^ 32 * y))
  else if (serial_type =? 6) || (serial_type =? 7) then serialGet buf o serial_type
  else if (serial_type =? 8) || (serial_type =? 9) then Some (MInt false (serial_type - 8))
  else Some (MData (Z.odd serial_type) (slice o (u32 (serial_type - 12) / 2) buf) None).

(** The loop of [sqlite3VdbeRecordUnpack], for at most [n] fields: the values
    and [d]. *)
Fixpoint unpack_fields (n : nat) (aKey : list Z) (nKey szHdr idx d : Z) : option (list Mem * Z) :=
  match n with
  | O => Some ([], d)
  | S n =>
      if (idx <? szHdr) && (d <=? nKey) then
        '(k, serial_type) ← getVarint32 (drop (Z.to_nat idx) aKey);
        m ← sqlite3VdbeSerialGet aKey d serial_type;
        len ← sqlite3VdbeSerialTypeLen serial_type;
        '(ms, d) ← unpack_fields n aKey nKey szHdr (u32 (idx + k)) (u32 (d + len));
        Some (m :: ms, d)
      else Some ([], d)
  end.

(** The last value becomes NULL. *)
Fixpoint null_last (ms : list Mem) : list Mem :=
  match ms with [] => [] | [_] => [MNull false] | m :: ms => m :: null_last ms end.

(** [nField] is at least 1. *)
Definition sqlite3VdbeRecordUnpack (nField nKey : Z) (aKey : list Z) : option (list Mem) :=
  '(idx, szHdr) ← getVarint32 aKey;
  '(ms, d) ← unpack_fields (Z.to_nat nField) aKey nKey szHdr idx szHdr;
  Some (if d >? nKey then null_last ms else ms).

(** * Bytes *)

(** The [n] low bytes of [v], most significant first. *)
Fixpoint be (n : nat) (v : Z) : list Z :=
  match n with O => [] | S n => be n (Z.shiftr v 8) ++ [u8 (Z.land v 0xff)] end.

Lemma bytes_one x : byte_ok x -> bytes_ok [x].
Proof. intros Hx. constructor; [done|constructor]. Qed.

Lemma zlen_be n : forall v, zlen (be n v) = Z.of_nat n.
Proof. induction n as [|n IH]; intros v; [done|]. cbn [be]. rewrite zlen_app, IH. change (zlen [_]) with 1. lia. Qed.

Lemma be_bytes n : forall v, bytes_ok (be n v).
Proof. induction n as [|n IH]; intros v; [constructor|]. cbn [be]. apply Forall_app_2; [apply IH|]. apply bytes_one, u8_ok. Qed.

Lemma low_byte v : u8 (Z.land v 0xff) = v mod 256.
Proof. change 0xff with (Z.ones 8). rewrite Z.land_ones by lia. unfold u8. apply Z.mod_mod. lia. Qed.

Lemma be_get n : forall v k, 0 <= k < Z.of_nat n -> (be n v).[k] = Some ((v / 2 ^ (8 * (Z.of_nat n - 1 - k))) mod 256).
Proof.
  induction n as [|n IH]; intros v k Hk; [lia|]. cbn [be]. destruct (decide (k = Z.of_nat n)) as [->|Hn].
  - rewrite zget_app_r by (rewrite zlen_be; lia). rewrite zlen_be, Z.sub_diag, zget_cons_0, low_byte.
    replace (8 * (Z.of_nat (S n) - 1 - Z.of_nat n)) with 0 by lia. by rewrite Z.div_1_r.
  - rewrite zget_app_l by (rewrite zlen_be; lia). rewrite IH by lia. do 2 f_equal.
    rewrite Z.shiftr_div_pow2, Z.div_div by lia. rewrite <- Z.pow_add_r by lia. do 2 f_equal. lia.
Qed.

Lemma set_write (d : list Z) i x : 0 <= i < zlen d -> byte_ok x -> d.[i <- x] = mem_write d i [x].
Proof.
  intros Hi Hx. destruct (only_set d i x Hi Hx) as (d1 & -> & O1 & V1).
  destruct (mem_write_ok d i [x]) as (d2 & -> & O2 & V2); [lia|change (zlen [x]) with 1; lia|by apply bytes_one|].
  change (zlen [x]) with 1 in *. f_equal. pose proof (on_len _ _ _ _ O1). pose proof (on_len _ _ _ _ O2).
  apply zget_ext; [lia|]. intros j Hj. destruct (decide (j = i)) as [->|].
  - rewrite V1, V2 by lia. by rewrite Z.sub_diag.
  - rewrite (on_get _ _ _ _ O1), (on_get _ _ _ _ O2) by lia. done.
Qed.

Lemma put_be_write n : forall buf p v, 0 <= p -> p + Z.of_nat n <= zlen buf -> put_be n buf p v = mem_write buf p (be n v).
Proof.
  induction n as [|n IH]; intros buf p v Hp Hl; cbn [put_be be].
  - by rewrite mem_write_nil by lia.
  - rewrite set_write by (lia || apply u8_ok). rewrite <- mem_write_app; try lia.
    + rewrite zlen_be. destruct (mem_write buf (p + Z.of_nat n) [u8 (Z.land v 0xff)]) as [b|] eqn:E; [|done].
      cbn [mbind option_bind]. rewrite IH; [done|done|].
      pose proof E as [? ?]%mem_write_inv.
      destruct (mem_write_ok buf (p + Z.of_nat n) [u8 (Z.land v 0xff)]) as (b' & E' & O & _);
        [lia|done|apply bytes_one, u8_ok|]. assert (b = b') as -> by congruence. rewrite (on_len _ _ _ _ O). lia.
    + apply be_bytes.
    + apply bytes_one, u8_ok.
    + rewrite zlen_be. change (zlen [_]) with 1. lia.
Qed.

(** Bytes put together, the first one signed or not. *)
Lemma or2 a b : byte_ok b -> Z.lor (256 * a) b = a * 2 ^ 8 + b.
Proof. intros Hb. rewrite <- lor_disjoint_add by (unfold byte_ok in *; lia). f_equal. rewrite Z.shiftl_mul_pow2; lia. Qed.

Lemma or3 a b c : byte_ok b -> byte_ok c -> Z.lor (Z.lor (65536 * a) (Z.shiftl b 8)) c = (a * 2 ^ 8 + b) * 2 ^ 8 + c.
Proof.
  intros Hb Hc. unfold byte_ok in *. replace (65536 * a) with (Z.shiftl (256 * a) 8) by (rewrite Z.shiftl_mul_pow2; lia).
  rewrite <- Z.shiftl_lor, or2 by done. rewrite lor_disjoint_add; lia.
Qed.

Lemma or4 a b c d : byte_ok b -> byte_ok c -> byte_ok d ->
  Z.lor (Z.lor (Z.lor (16777216 * a) (Z.shiftl b 16)) (Z.shiftl c 8)) d = ((a * 2 ^ 8 + b) * 2 ^ 8 + c) * 2 ^ 8 + d.
Proof.
  intros Hb Hc Hd. replace (16777216 * a) with (Z.shiftl (65536 * a) 8) by (rewrite Z.shiftl_mul_pow2; lia).
  replace (Z.shiftl b 16) with (Z.shiftl (Z.shiftl b 8) 8) by (by rewrite Z.shiftl_shiftl by lia).
  rewrite <- !Z.shiftl_lor, or3 by done. unfold byte_ok in *. rewrite lor_disjoint_add; lia.
Qed.

(** * What a record holds *)

(** Values as the engine keeps them: 64-bit integers and doubles, text and
    blobs within [SQLITE_MAX_LENGTH]. *)
Definition SQLITE_MAX_LENGTH : Z := 1000000000.

Definition zeros (zero : option Z) : list Z := replicate (Z.to_nat (default 0 zero)) 0.

Definition mem_ok (m : Mem) : Prop :=
  match m with
  | MNull _ => True
  | MInt _ i => - 2 ^ 63 <= i < 2 ^ 63
  | MReal r => 0 <= r < 2 ^ 64
  | MData _ z zero => bytes_ok z /\ 0 <= default 0 zero /\ zlen z + default 0 zero <= SQLITE_MAX_LENGTH
  end.

Section format.
Context (fmt : Z).

(** The serial type of a value and the bytes it takes. *)
Definition serial (m : Mem) : Z :=
  match m with
  | MNull nochng => if nochng then 10 else 0
  | MInt intReal i => let t := (int_type fmt i).1 in if (t =? 6) && intReal then 7 else t
  | MReal _ => 7
  | MData str z zero => 2 * (zlen z + default 0 zero) + 12 + (if str then 1 else 0)
  end.

Definition content (m : Mem) : list Z :=
  match m with
  | MNull _ => []
  | MInt intReal i =>
      let '(t, n) := int_type fmt i in
      if (t =? 6) && intReal then be 8 (double_of_i64 i) else be (Z.to_nat n) (u64 i)
  | MReal r => be 8 r
  | MData _ z zero => z ++ zeros zero
  end.

(** What is read back. *)
Definition real_value (r : Z) : Mem := if IsNaN r then MNull false else MReal r.

Definition stored (m : Mem) : Mem :=
  match m with
  | MNull nochng => MNull nochng
  | MInt intReal i => if ((int_type fmt i).1 =? 6) && intReal then real_value (double_of_i64 i) else MInt false i
  | MReal r => real_value r
  | MData str z zero => MData str (z ++ zeros zero) None
  end.

(** The sizes of integers. *)
Lemma int_type_cases i : - 2 ^ 63 <= i < 2 ^ 63 ->
  (int_type fmt i = (8 + i, 0) /\ 0 <= i <= 1 /\ 4 <= fmt) \/
  exists k t, int_type fmt i = (t, k) /\ - 2 ^ (8 * k - 1) <= i < 2 ^ (8 * k - 1) /\
    ((t, k) = (1, 1) \/ (t, k) = (2, 2) \/ (t, k) = (3, 3) \/ (t, k) = (4, 4) \/ (t, k) = (5, 6) \/ (t, k) = (6, 8)).
Proof.
  intros Hi. unfold int_type. assert (Huu : (if i <? 0 then u64 (Z.lnot i) else u64 i) = if i <? 0 then - i - 1 else i).
  { unfold Z.lnot, u64. destruct (Z.ltb_spec i 0); apply Z.mod_small; lia. }
  rewrite Huu. destruct (Z.ltb_spec i 0) as [Hneg|Hpos].
  - assert (Hl : (Z.land i 1 =? i) = false).
    { apply Z.eqb_neq. change 1 with (Z.ones 1). rewrite Z.land_ones by lia. pose proof (Z.mod_pos_bound i (2 ^ 1)). lia. }
    rewrite Hl. cbn [andb]. right. repeat case_match; rewrite ?Z.leb_le, ?Z.leb_gt in *;
      eexists _, _; (split; [done|split; [|tauto]]); lia.
  - destruct (Z.leb_spec i 127); cycle 1.
    { right. repeat case_match; rewrite ?Z.leb_le, ?Z.leb_gt in *; eexists _, _; (split; [done|split; [|tauto]]); lia. }
    destruct ((Z.land i 1 =? i) && (fmt >=? 4)) eqn:E.
    + left. apply andb_true_iff in E as [E1%Z.eqb_eq E2%Z.geb_le].
      change 1 with (Z.ones 1) in E1. rewrite Z.land_ones in E1 by lia. pose proof (Z.mod_pos_bound i (2 ^ 1)).
      rewrite (u32_small i), u32_small by lia. split; [done|lia].
    + right. eexists _, _. split; [done|]. split; [lia|tauto].
Qed.

(** ** Reading a value *)

(** [k] bytes of [i] in a buffer: its digits. *)
Lemma be_digit buf o k i j : mem_read buf o k = Some (be (Z.to_nat k) (u64 i)) -> 0 <= j < k -> k <= 8 ->
  buf.[o + j] = Some ((i / 2 ^ (8 * (k - 1 - j))) mod 256).
Proof.
  intros (_ & _ & _ & Hg)%mem_read_inv Hj Hk. rewrite <- Hg, be_get by lia. rewrite Z2Nat.id by lia. f_equal.
  set (e := 8 * (k - 1 - j)). assert (He : 0 <= e <= 56) by lia. unfold u64.
  replace (2 ^ 64) with (2 ^ e * (256 * 2 ^ (56 - e))) by (change 256 with (2 ^ 8); rewrite <- !Z.pow_add_r by lia; f_equal; lia).
  pose proof (Z.pow_pos_nonneg 2 e ltac:(lia) ltac:(lia)). pose proof (Z.pow_pos_nonneg 2 (56 - e) ltac:(lia) ltac:(lia)).
  rewrite Z.rem_mul_r by lia. rewrite Z.add_comm, Z.mul_comm, Z.div_add_l by lia.
  rewrite (Z.div_small (i mod 2 ^ e)) by (apply Z.mod_pos_bound; lia). rewrite Z.add_0_r.
  rewrite Z.rem_mul_r by lia. by rewrite (Z.mul_comm 256), Z.mod_add, Z.mod_mod by lia.
Qed.

Lemma i8_digit i e : 0 <= e -> - 2 ^ (e + 7) <= i < 2 ^ (e + 7) -> i8 ((i / 2 ^ e) mod 256) = i / 2 ^ e.
Proof using.
  intros He Hi. rewrite Z.pow_add_r in Hi by lia. change (2 ^ 7) with 128 in Hi. pose proof (Z.pow_pos_nonneg 2 e ltac:(lia) He).
  assert (- 128 <= i / 2 ^ e < 128).
  { split; [apply Z.div_le_lower_bound; lia|apply Z.div_lt_upper_bound; lia]. }
  unfold i8. set (q := i / 2 ^ e) in *. clearbody q. Z.to_euclidean_division_equations. destruct (Z.ltb_spec r 128); lia.
Qed.

(** The digits together. *)
Lemma digit_step i e : 0 <= e -> i / 2 ^ (e + 8) * 2 ^ 8 + (i / 2 ^ e) mod 256 = i / 2 ^ e.
Proof using.
  intros He. rewrite Z.pow_add_r by lia. rewrite <- Z.div_div by (try apply Z.pow_pos_nonneg; lia).
  change (2 ^ 8) with 256. pose proof (Z.div_mod (i / 2 ^ e) 256). lia.
Qed.

Lemma FOUR_BYTE_UINT_ok buf o a b c d : buf.[o] = Some a -> buf.[o + 1] = Some b -> buf.[o + 2] = Some c ->
  buf.[o + 3] = Some d -> byte_ok b -> byte_ok c -> byte_ok d ->
  FOUR_BYTE_UINT buf o = Some (((a * 2 ^ 8 + b) * 2 ^ 8 + c) * 2 ^ 8 + d).
Proof using.
  intros Ea Eb Ec Ed Hb Hc Hd. unfold FOUR_BYTE_UINT. rewrite Ea, Eb, Ec, Ed. cbn [mbind option_bind]. f_equal.
  rewrite <- or4 by done. repeat f_equal. rewrite Z.shiftl_mul_pow2; lia.
Qed.

Lemma mod_byte x : byte_ok (x mod 256).
Proof using. apply Z.mod_pos_bound. lia. Qed.

Lemma mod_step i e k : 0 <= e -> 0 <= k ->
  ((i / 2 ^ (e + 8)) mod 2 ^ k) * 2 ^ 8 + (i / 2 ^ e) mod 256 = (i / 2 ^ e) mod 2 ^ (8 + k).
Proof using.
  intros He Hk. rewrite (Z.pow_add_r 2 8 k), Z.pow_add_r by lia. pose proof (Z.pow_pos_nonneg 2 k ltac:(lia) Hk).
  rewrite <- Z.div_div by (try apply Z.pow_pos_nonneg; lia). rewrite Z.rem_mul_r by lia. change (2 ^ 8) with 256. lia.
Qed.

(** The digits of [i] from [2^e] on, at [o]. *)
Definition digits (buf : list Z) (o i e : Z) (n : nat) : Prop :=
  forall j, 0 <= j < Z.of_nat n -> buf.[o + j] = Some ((i / 2 ^ (e + 8 * (Z.of_nat n - 1 - j))) mod 256).

Lemma digits_sub buf o i e n o' e' m : digits buf o i e n -> 0 <= o' -> o' + Z.of_nat m <= Z.of_nat n ->
  e' = e + 8 * (Z.of_nat n - Z.of_nat m - o') -> digits buf (o + o') i e' m.
Proof using. intros Hd Ho Hm -> j Hj. rewrite <- Z.add_assoc, Hd by lia. do 4 f_equal. lia. Qed.

Ltac digit H j x := let E := fresh in pose proof (H j ltac:(lia)) as E;
  match type of E with _ = Some ((_ / 2 ^ ?y) mod 256) => replace y with x in E by lia end;
  rewrite ?Z.add_0_r in E; rewrite E; clear E; cbn [mbind option_bind].

Lemma TWO_BYTE_INT_ok buf o i e : digits buf o i e 2 -> 0 <= e -> - 2 ^ (e + 15) <= i < 2 ^ (e + 15) ->
  TWO_BYTE_INT buf o = Some (i / 2 ^ e).
Proof using.
  intros Hd He Hi. unfold TWO_BYTE_INT. digit Hd 0 (e + 8). digit Hd 1 e. f_equal. rewrite or2 by apply mod_byte.
  rewrite i8_digit by (rewrite <- ?Z.add_assoc; done || lia). by apply digit_step.
Qed.

Lemma THREE_BYTE_INT_ok buf o i : digits buf o i 0 3 -> - 2 ^ 23 <= i < 2 ^ 23 -> THREE_BYTE_INT buf o = Some i.
Proof using.
  intros Hd Hi. unfold THREE_BYTE_INT. digit Hd 0 (0 + 8 + 8). digit Hd 1 (0 + 8). digit Hd 2 0. f_equal.
  rewrite or3 by apply mod_byte. rewrite i8_digit by (cbn; lia). rewrite !digit_step by lia. apply Z.div_1_r.
Qed.

Lemma FOUR_BYTE_INT_ok buf o i : digits buf o i 0 4 -> - 2 ^ 31 <= i < 2 ^ 31 -> FOUR_BYTE_INT buf o = Some i.
Proof using.
  intros Hd Hi. unfold FOUR_BYTE_INT. digit Hd 0 (0 + 8 + 8 + 8). digit Hd 1 (0 + 8 + 8). digit Hd 2 (0 + 8). digit Hd 3 0. f_equal.
  rewrite or4 by apply mod_byte. rewrite i8_digit by (cbn; lia). rewrite !digit_step by lia. apply Z.div_1_r.
Qed.

Lemma FOUR_BYTE_UINT_digits buf o i e : digits buf o i e 4 -> 0 <= e -> FOUR_BYTE_UINT buf o = Some ((i / 2 ^ e) mod 2 ^ 32).
Proof using.
  intros Hd He. rewrite (FOUR_BYTE_UINT_ok buf o ((i / 2 ^ (e + 8 + 8 + 8)) mod 256) ((i / 2 ^ (e + 8 + 8)) mod 256)
    ((i / 2 ^ (e + 8)) mod 256) ((i / 2 ^ e) mod 256)); try apply mod_byte.
  - f_equal. change 256 with (2 ^ 8) at 1. by rewrite !mod_step by lia.
  - by digit Hd 0 (e + 8 + 8 + 8).
  - by digit Hd 1 (e + 8 + 8).
  - by digit Hd 2 (e + 8).
  - by digit Hd 3 e.
Qed.

Lemma serialGet_ok buf o i t : digits buf o i 0 8 ->
  serialGet buf o t = if t =? 6 then Some (MInt false (i64 (u64 i))) else Some (real_value (u64 i)).
Proof using.
  intros Hd. unfold serialGet.
  rewrite (FOUR_BYTE_UINT_digits buf o i 32); [|rewrite <- (Z.add_0_r o); eapply digits_sub; [exact Hd|lia|lia|lia]|lia].
  rewrite (FOUR_BYTE_UINT_digits buf (o + 4) i 0) by (lia || by eapply digits_sub; [exact Hd|lia|lia|lia]).
  cbn [mbind option_bind]. rewrite Z.div_1_r.
  assert (E : u64 (u64 (Z.shiftl ((i / 2 ^ 32) mod 2 ^ 32) 32) + i mod 2 ^ 32) = u64 i).
  { pose proof (Z.mod_pos_bound (i / 2 ^ 32) (2 ^ 32) ltac:(lia)). pose proof (Z.mod_pos_bound i (2 ^ 32) ltac:(lia)).
    rewrite Z.shiftl_mul_pow2, (u64_small (_ * _)) by lia. unfold u64 at 2. change (2 ^ 64) with (2 ^ 32 * 2 ^ 32).
    rewrite Z.rem_mul_r by lia. rewrite u64_small; lia. }
  by rewrite E.
Qed.

(** Integers are read back, whatever their size. *)
Lemma get_int buf o t k i : - 2 ^ (8 * k - 1) <= i < 2 ^ (8 * k - 1) ->
  (t, k) = (1, 1) \/ (t, k) = (2, 2) \/ (t, k) = (3, 3) \/ (t, k) = (4, 4) \/ (t, k) = (5, 6) \/ (t, k) = (6, 8) ->
  mem_read buf o k = Some (be (Z.to_nat k) (u64 i)) -> sqlite3VdbeSerialGet buf o t = Some (MInt false i).
Proof using.
  intros Hi Hc Hr. assert (Hd : digits buf o i 0 (Z.to_nat k)).
  { intros j Hj. rewrite (be_digit buf o k i j Hr) by (destruct Hc as [E|[E|[E|[E|[E|E]]]]]; injection E as -> ->; lia).
    do 4 f_equal. rewrite Z2Nat.id; lia. }
  destruct Hc as [E|[E|[E|[E|[E|E]]]]]; injection E as -> ->; unfold sqlite3VdbeSerialGet; cbn [Z.eqb orb Pos.eqb]; cbn [Z.to_nat Pos.to_nat Pos.iter_op Nat.add] in Hd.
  - digit Hd 0 0. do 2 f_equal. rewrite i8_digit by lia. by rewrite Z.div_1_r.
  - rewrite (TWO_BYTE_INT_ok _ _ _ 0 Hd) by lia. by rewrite Z.div_1_r.
  - by rewrite (THREE_BYTE_INT_ok _ _ _ Hd) by lia.
  - by rewrite (FOUR_BYTE_INT_ok _ _ _ Hd) by lia.
  - rewrite (FOUR_BYTE_UINT_digits _ _ i 0) by (lia || by eapply digits_sub; [exact Hd|lia|lia|lia]).
    rewrite (TWO_BYTE_INT_ok _ _ i 32); [|rewrite <- (Z.add_0_r o); eapply digits_sub; [exact Hd|lia|lia|lia]|lia|lia].
    cbn [mbind option_bind]. do 2 f_equal. rewrite Z.div_1_r. pose proof (Z.div_mod i (2 ^ 32)). lia.
  - rewrite (serialGet_ok _ _ _ _ Hd). cbn [Z.eqb Pos.eqb]. do 2 f_equal. unfold i64, u64.
    rewrite Z.add_mod_idemp_l by lia. rewrite Z.mod_small; lia.
Qed.

Lemma get_real buf o r : 0 <= r < 2 ^ 64 -> mem_read buf o 8 = Some (be 8 r) ->
  sqlite3VdbeSerialGet buf o 7 = Some (real_value r).
Proof using.
  intros Hr E. assert (Eu : u64 r = r) by (by apply u64_small). rewrite <- Eu in E at 1.
  assert (Hd : digits buf o r 0 8).
  { intros j Hj. rewrite (be_digit buf o 8 r j E) by lia. do 4 f_equal. }
  unfold sqlite3VdbeSerialGet. cbn [Z.eqb Pos.eqb orb]. rewrite (serialGet_ok _ _ _ _ Hd). cbn [Z.eqb Pos.eqb]. by rewrite Eu.
Qed.

(** ** Every value *)

(** The rounded significand has 53 bits, or is the next power of two. *)
Lemma double_significand a : 0 < a <= 2 ^ 63 -> let e := Z.log2 a in
  0 <= e <= 63 /\ 2 ^ 52 <= (if e <=? 52 then a * 2 ^ (52 - e) else round_even a (e - 52)) <= 2 ^ 53.
Proof using.
  intros Ha. pose proof (Z.log2_spec a ltac:(lia)) as [H1 H2].
  pose proof (Z.log2_nonneg a) as He0. assert (He : Z.log2 a <= 63) by (apply (Z.log2_le_mono a (2 ^ 63)); lia).
  cbv zeta. set (e := Z.log2 a) in *. rewrite <- Z.add_1_r in H2. split; [lia|]. destruct (Z.leb_spec e 52).
  - replace (2 ^ 52) with (2 ^ e * 2 ^ (52 - e)) by (rewrite <- Z.pow_add_r by lia; f_equal; lia).
    replace (2 ^ 53) with (2 ^ (e + 1) * 2 ^ (52 - e)) by (rewrite <- Z.pow_add_r by lia; f_equal; lia).
    split; apply Z.mul_le_mono_nonneg_r; lia.
  - assert (Hq : 2 ^ 52 <= a / 2 ^ (e - 52) < 2 ^ 53).
    { split; [apply Z.div_le_lower_bound|apply Z.div_lt_upper_bound]; try (apply Z.pow_pos_nonneg; lia);
        rewrite <- Z.pow_add_r by lia; [replace (e - 52 + 52) with e by lia|replace (e - 52 + 53) with (e + 1) by lia]; lia. }
    unfold round_even. destruct (_ || _); lia.
Qed.

Lemma double_range i : - 2 ^ 63 <= i < 2 ^ 63 -> 0 <= double_of_i64 i < 2 ^ 64.
Proof using.
  intros Hi. unfold double_of_i64. destruct (Z.eqb_spec (Z.abs i) 0) as [|Hz]; [lia|].
  destruct (double_significand (Z.abs i)) as [He Hm]; [lia|]. cbv zeta.
  destruct (i <? 0); lia.
Qed.

Lemma serial_data str (z : list Z) zero : mem_ok (MData str z zero) ->
  12 <= serial (MData str z zero) < 2 ^ 32 /\ Z.odd (serial (MData str z zero)) = str /\
  u32 (serial (MData str z zero) - 12) / 2 = zlen z + default 0 zero.
Proof using.
  intros (_ & H0 & Hn). unfold SQLITE_MAX_LENGTH in Hn. pose proof (zlen_nonneg z). cbn [serial].
  set (n := zlen z + default 0 zero) in *. split; [destruct str; lia|]. split.
  - replace (2 * n + 12 + _) with ((if str then 1 else 0) + 2 * (n + 6)) by (destruct str; lia).
    rewrite Z.odd_add_mul_2. by destruct str.
  - rewrite u32_small by (destruct str; lia). destruct str; Z.to_euclidean_division_equations; lia.
Qed.

(** A value is read back from its content. *)
Lemma get_value buf o m : mem_ok m -> mem_read buf o (zlen (content m)) = Some (content m) ->
  sqlite3VdbeSerialGet buf o (serial m) = Some (stored m).
Proof using.
  intros Hm Hr. destruct m as [nc|ir i|r|str z zero].
  - by destruct nc.
  - cbn [mem_ok content serial stored] in *. destruct (int_type_cases i Hm) as [(E & Hi & _)|(k & t & E & Hi & Hc)].
    + rewrite E. cbn [fst]. destruct (decide (i = 0)) as [->|]; [done|]. by replace i with 1 by lia.
    + rewrite E in *. cbn [fst]. destruct ((t =? 6) && ir) eqn:Et.
      * apply get_real; [by apply double_range|done].
      * rewrite zlen_be, Z2Nat.id in Hr by (destruct Hc as [X|[X|[X|[X|[X|X]]]]]; injection X as -> ->; lia).
        by apply (get_int buf o t k).
  - apply get_real; [done|]. exact Hr.
  - destruct (serial_data str z zero Hm) as (Hs & Ho & Hl). cbn [stored]. unfold sqlite3VdbeSerialGet.
    rewrite !(proj2 (Z.eqb_neq _ _)) by lia. cbn [orb]. rewrite Ho, Hl. do 2 f_equal.
    unfold mem_read in Hr. destruct (_ && _ && _); [|done]. injection Hr as Hr. cbn [content] in Hr.
    rewrite <- Hr. f_equal. unfold zeros. rewrite zlen_app, zlen_replicate. destruct Hm as (_ & H0 & _). lia.
Qed.

Lemma serial_len m : mem_ok m -> sqlite3VdbeSerialTypeLen (serial m) = Some (zlen (content m)).
Proof using.
  intros Hm. destruct m as [nc|ir i|r|str z zero].
  - by destruct nc.
  - cbn [mem_ok content serial] in *. destruct (int_type_cases i Hm) as [(E & Hi & _)|(k & t & E & Hi & Hc)].
    + rewrite E. cbn [fst]. rewrite (proj2 (Z.eqb_neq (8 + i) 6)) by lia. cbn [andb].
      destruct (decide (i = 0)) as [->|]; [done|]. by replace i with 1 by lia.
    + rewrite E. cbn [fst]. destruct Hc as [X|[X|[X|[X|[X|X]]]]]; injection X as -> ->; by destruct ir.
  - done.
  - destruct (serial_data str z zero Hm) as (Hs & Ho & Hl). unfold sqlite3VdbeSerialTypeLen.
    assert (Hz : zlen (content (MData str z zero)) = zlen z + default 0 zero).
    { cbn [content]. unfold zeros. rewrite zlen_app, zlen_replicate. destruct Hm as (_ & H0 & _). lia. }
    rewrite Hz. destruct (Z.geb_spec (serial (MData str z zero)) 128) as [Hg|Hlt]; [by rewrite Hl|].
    rewrite <- Hl. rewrite u32_small by lia. apply small_sizes. lia.
Qed.

(** ** Sizing *)

(** What [write_field] puts into the payload. *)
Definition pdata (f : Mem * Z) : list Z :=
  match f.1 with
  | MNull _ => []
  | MInt _ i => match sqlite3SmallTypeSizes.[f.2] with Some n => be (Z.to_nat n) (u64 i) | None => [] end
  | MReal r => be 8 r
  | MData _ z _ => z
  end.

Definition wf_field (f : Mem * Z) : Prop :=
  match f.1 with
  | MNull _ => f.2 = 0 \/ f.2 = 10
  | MInt _ _ => 1 <= f.2 <= 6 \/ 8 <= f.2 <= 9
  | MReal _ => f.2 = 7
  | MData _ z _ => 12 <= f.2 < 2 ^ 32 /\ (f.2 < 14 -> z = []) /\ bytes_ok z
  end.

Lemma varint_size t : 0 <= t < 2 ^ 32 -> sqlite3VarintLen t = zlen (sqlite3PutVarint t).
Proof using. intros Ht. rewrite putVarint_len by lia. by rewrite (proj2 (Z.ltb_lt _ _)) by lia. Qed.

Lemma replicate_app_zeros n k : 0 <= n -> 0 <= k ->
  replicate (Z.to_nat n) 0 ++ replicate (Z.to_nat k) 0 = replicate (Z.to_nat (n + k)) (0 : Z).
Proof using. intros. by rewrite <- replicate_add, <- Z2Nat.inj_add by lia. Qed.

(** One field: its type, its space, and its bytes before those of the fields
    that follow, [x] and the zeros. *)
Lemma size_field_ok a m s x r a' : mem_ok m -> nData s = zlen x -> 0 <= nZero s ->
  size_field fmt a m s = (r, a') ->
  match r with
  | None => True
  | Some (m', t, s') => t = serial m /\ wf_field (m', t) /\ nHdr s' = nHdr s + zlen (sqlite3PutVarint t) /\
      nData s' = nData s + zlen (pdata (m', t)) /\ 0 <= nZero s' /\
      pdata (m', t) ++ x ++ replicate (Z.to_nat (nZero s')) 0 = content m ++ x ++ replicate (Z.to_nat (nZero s)) 0
  end.
Proof using.
  intros Hm Hx Hz E. destruct m as [nc|ir i|r0|str z zero]; cbn [size_field] in E.
  - injection E as <- <-. cbn [add_space nHdr nData nZero serial pdata wf_field content fst snd].
    rewrite varint_one by (destruct nc; lia). change (zlen [_]) with 1. change (zlen (@nil Z)) with 0. rewrite !Z.add_0_r.
    split_and!; try done. destruct nc; auto.
  - cbn [mem_ok content serial] in *.
    destruct (int_type_cases i Hm) as [(Ei & Hi & _)|(k & t & Ei & Hi & Hc)]; rewrite Ei in *.
    + cbn [fst]. rewrite (proj2 (Z.eqb_neq (8 + i) 6)) in * by lia. cbn [andb] in *. injection E as <- <-.
      cbn [add_space nHdr nData nZero pdata wf_field fst snd]. rewrite varint_one by lia. change (zlen [_]) with 1.
      assert (Es : sqlite3SmallTypeSizes.[8 + i] = Some 0) by (destruct (decide (i = 0)) as [->|]; [done|by replace i with 1 by lia]).
      rewrite Es. cbn [Z.to_nat be]. change (zlen (@nil Z)) with 0. rewrite !Z.add_0_r. split_and!; try done. lia.
    + cbn [fst]. assert (Ht : 1 <= t <= 6 /\ sqlite3SmallTypeSizes.[t] = Some k /\ 1 <= k /\ (t = 6 -> k = 8)).
      { destruct Hc as [X|[X|[X|[X|[X|X]]]]]; injection X as -> ->; split_and!; try done; lia. }
      destruct Ht as (Ht & Es & Hk & H6). destruct ((t =? 6) && ir) eqn:Et; injection E as <- <-;
        cbn [add_space nHdr nData nZero pdata wf_field fst snd]; rewrite varint_one by lia; change (zlen [_]) with 1.
      * apply andb_true_iff in Et as [->%Z.eqb_eq _]. rewrite (H6 eq_refl), zlen_be, !Z.add_0_r. by split_and!.
      * rewrite Es, zlen_be, !Z.add_0_r. split_and!; try done; lia.
  - injection E as <- <-. cbn [add_space nHdr nData nZero serial pdata wf_field content fst snd].
    rewrite varint_one by lia. change (zlen [_]) with 1. rewrite zlen_be, !Z.add_0_r. by split_and!.
  - destruct (serial_data str z zero Hm) as (Hs & _ & _). pose proof Hm as (Hb & H0 & Hn). unfold SQLITE_MAX_LENGTH in Hn.
    pose proof (zlen_nonneg z). rewrite (u32_small (zlen z)) in E by lia.
    rewrite (u32_small (zlen z * 2 + 12 + _)) in E by (destruct str; lia).
    destruct zero as [n|]; cbn [default from_option id] in *.
    + assert (Est : u32 (zlen z * 2 + 12 + (if str then 1 else 0) + n * 2) = serial (MData str z (Some n))).
      { cbn [serial default from_option id]. rewrite u32_small by (destruct str; lia). lia. }
      rewrite Est in E. set (t := serial (MData str z (Some n))) in *.
      assert (H14 : t < 14 -> z ++ replicate (Z.to_nat n) 0 = [] /\ z = []).
      { intros Ht. unfold t in Ht. cbn [serial default from_option id] in Ht. assert (n = 0 /\ zlen z = 0) as [-> Hz0] by (destruct str; lia).
        destruct z; [done|]. rewrite zlen_cons in Hz0. pose proof (zlen_nonneg z0). lia. }
      rewrite varint_size in E by lia. destruct (Z.eqb_spec (nData s) 0) as [Hd|Hd]; cbn [negb] in E.
      * injection E as <- <-. cbn [add_space nHdr nData nZero pdata wf_field content fst snd].
        assert (x = []) as -> by (destruct x; [done|rewrite zlen_cons in Hx; pose proof (zlen_nonneg x); lia]).
        split_and!; try done; try lia; [by apply H14|].
        cbn [app]. unfold zeros. cbn [default from_option id]. rewrite <- app_assoc, replicate_app_zeros by lia. do 3 f_equal. lia.
      * destruct (malloc a) as [[|] a1]; injection E as <- <-; [|done].
        cbn [add_space nHdr nData nZero pdata wf_field content fst snd]. rewrite zlen_app, zlen_replicate, Z2Nat.id by lia.
        rewrite u32_small, Z.add_0_r by lia. split_and!; try done; try lia; [by apply H14|].
        apply Forall_app_2; [done|]. apply Forall_replicate. unfold byte_ok. lia.
    + injection E as <- <-. cbn [add_space nHdr nData nZero pdata wf_field content fst snd].
      assert (Est : zlen z * 2 + 12 + (if str then 1 else 0) = serial (MData str z None)) by (cbn [serial default from_option id]; lia).
      rewrite Est. rewrite varint_size, Z.add_0_r by lia. unfold zeros. cbn [default from_option id Z.to_nat replicate]. rewrite app_nil_r.
      split_and!; try done; try lia. intros Ht. cbn [serial default from_option id] in Ht. destruct z; [done|].
      rewrite zlen_cons in Ht. pose proof (zlen_nonneg z0). destruct str; lia.
Qed.

Definition hdr_bytes (ts : list Z) : list Z := concat (sqlite3PutVarint <$> ts).
Definition payload (fs : list (Mem * Z)) : list Z := concat (pdata <$> fs).

Lemma size_fields_ok ms : forall a r a', Forall mem_ok ms -> size_fields fmt a ms = (r, a') ->
  match r with
  | None => True
  | Some (fs, s) => fs.*2 = serial <$> ms /\ Forall wf_field fs /\ nHdr s = zlen (hdr_bytes fs.*2) /\
      nData s = zlen (payload fs) /\ 0 <= nZero s /\
      payload fs ++ replicate (Z.to_nat (nZero s)) 0 = concat (content <$> ms)
  end.
Proof using.
  induction ms as [|m ms IH]; intros a r a' Hok E; cbn [size_fields] in E; [by injection E as <- <-|].
  apply Forall_cons_1 in Hok as [Hm Hok]. destruct (size_fields fmt a ms) as [[[fs s]|] a1] eqn:E1; [|by injection E as <- <-].
  apply IH in E1 as (H1 & H2 & H3 & H4 & H5 & H6); [|done].
  destruct (size_field fmt a1 m s) as [[[[m' t] s']|] a2] eqn:E2; injection E as <- <-; [|done].
  apply (size_field_ok _ _ _ (payload fs)) in E2 as (T1 & T2 & T3 & T4 & T5 & T6); [|done..].
  unfold hdr_bytes, payload in *. cbn [fmap list_fmap concat fst snd]. rewrite !zlen_app.
  split_and!; [by f_equal|by constructor|cbn [snd]; lia|lia|done|]. rewrite <- app_assoc, T6. by rewrite H6.
Qed.
End format.

(** ** Writing *)

Lemma put_data_ok buf p str z zero : 0 <= p <= zlen buf ->
  put_data buf p (MData str z zero) = b ← mem_write buf p z; Some (b, p + zlen z).
Proof.
  intros Hp. cbn [put_data]. destruct (Z.gtb_spec (zlen z) 0); [done|].
  assert (z = []) as -> by (destruct z; [done|rewrite zlen_cons in *; pose proof (zlen_nonneg z0); lia]).
  rewrite mem_write_nil by done. cbn [mbind option_bind]. change (zlen (@nil Z)) with 0. by rewrite Z.add_0_r.
Qed.

Lemma mem_write_len d i b d' : mem_write d i b = Some d' -> zlen d' = zlen d.
Proof.
  intros E. pose proof E as [Hi Hl]%mem_write_inv. unfold mem_write in E.
  destruct (_ && _); [|done]. injection E as <-. pose proof (zlen_nonneg b). rewrite zlen_splice by lia. lia.
Qed.

Lemma int_size t : 1 <= t <= 6 -> exists n, sqlite3SmallTypeSizes.[t] = Some n /\ 0 <= n.
Proof.
  intros Ht. assert (t = 1 \/ t = 2 \/ t = 3 \/ t = 4 \/ t = 5 \/ t = 6) as Hc by lia.
  by destruct Hc as [->|[->|[->|[->|[->| ->]]]]]; eexists.
Qed.

(** A field is its serial type in the header and its bytes in the payload. *)
Lemma write_field_ok buf zH zP m t : wf_field (m, t) ->
  0 <= zH -> zH + zlen (sqlite3PutVarint t) <= zP -> zP + zlen (pdata (m, t)) <= zlen buf ->
  write_field buf zH zP m t =
  b ← mem_write buf zH (sqlite3PutVarint t); b ← mem_write b zP (pdata (m, t));
  Some (b, zH + zlen (sqlite3PutVarint t), zP + zlen (pdata (m, t))).
Proof.
  intros Hwf HH HP Hl. unfold write_field. pose proof (zlen_nonneg (pdata (m, t))).
  assert (Ht : 0 <= t) by (destruct m; cbn in Hwf; lia).
  assert (Hone : t < 128 -> sqlite3PutVarint t = [t] /\ zH < zP /\ buf.[zH <- t] = mem_write buf zH [t]).
  { intros Hlt. rewrite varint_one in * by lia. change (zlen [t]) with 1 in *. split_and!; [done|lia|].
    apply set_write; [lia|unfold byte_ok; lia]. }
  destruct (Z.leb_spec t 7) as [H7|H7]; [|destruct (Z.ltb_spec t 128) as [H128|H128]].
  - destruct (Hone ltac:(lia)) as (-> & Hlt & ->). change (zlen [t]) with 1.
    destruct (mem_write buf zH [t]) as [b|] eqn:Eb; [|done]. cbn [mbind option_bind]. pose proof (mem_write_len _ _ _ _ Eb).
    destruct (Z.eqb_spec t 0) as [->|Hz].
    + destruct m; cbn [wf_field fst snd] in Hwf; try lia. cbn [pdata fst]. rewrite mem_write_nil by lia. cbn [mbind option_bind].
      change (zlen (@nil Z)) with 0. by rewrite Z.add_0_r.
    + destruct m as [|ir i|r|]; cbn [wf_field fst snd] in Hwf; try lia; cbn [pdata fst snd] in *.
      * destruct (int_size t) as (n & En & Hn); [lia|]. rewrite En in *. cbn [mbind option_bind].
        rewrite zlen_be, Z2Nat.id in * by lia. rewrite put_be_write by lia. by destruct (mem_write b zP _).
      * subst t. change (sqlite3SmallTypeSizes.[7]) with (Some 8). cbn [mbind option_bind]. rewrite zlen_be in *.
        rewrite put_be_write by lia. by destruct (mem_write b zP _).
  - destruct (Hone H128) as (-> & Hlt & ->). change (zlen [t]) with 1.
    destruct (mem_write buf zH [t]) as [b|] eqn:Eb; [|done]. cbn [mbind option_bind]. pose proof (mem_write_len _ _ _ _ Eb).
    destruct m as [|ir i|r|str z zero]; cbn [wf_field fst snd] in Hwf; try lia; cbn [pdata fst snd] in *.
    + destruct (Z.geb_spec t 14); [lia|]. rewrite mem_write_nil by lia. cbn [mbind option_bind].
      change (zlen (@nil Z)) with 0. by rewrite Z.add_0_r.
    + destruct (Z.geb_spec t 14); [lia|].
      assert (Es : sqlite3SmallTypeSizes.[t] = Some 0) by (destruct (decide (t = 8)) as [->|]; [done|by replace t with 9 by lia]).
      rewrite Es. cbn [Z.to_nat be]. rewrite mem_write_nil by lia. cbn [mbind option_bind].
      change (zlen (@nil Z)) with 0. by rewrite Z.add_0_r.
    + destruct Hwf as (_ & Hs & Hb). destruct (Z.geb_spec t 14).
      * rewrite put_data_ok by lia. by destruct (mem_write b zP z).
      * rewrite (Hs ltac:(lia)), mem_write_nil by lia. cbn [mbind option_bind].
        change (zlen (@nil Z)) with 0. by rewrite Z.add_0_r.
  - destruct m as [|ir i|r|str z zero]; cbn [wf_field fst snd] in Hwf; try lia. cbn [pdata fst] in *.
    destruct (mem_write buf zH (sqlite3PutVarint t)) as [b|] eqn:Eb; [|done]. cbn [mbind option_bind].
    pose proof (mem_write_len _ _ _ _ Eb). rewrite put_data_ok by (pose proof (zlen_nonneg (sqlite3PutVarint t)); lia).
    by destruct (mem_write b zP z).
Qed.

Lemma pdata_bytes f : wf_field f -> bytes_ok (pdata f).
Proof.
  destruct f as [[|ir i|r|str z zero] t]; cbn [wf_field pdata fst snd]; intros H; try apply be_bytes; [constructor| |by destruct H as (_ & _ & ?)].
  destruct (sqlite3SmallTypeSizes.[t]); [apply be_bytes|constructor].
Qed.

Lemma wf_type f : wf_field f -> 0 <= f.2 < 2 ^ 32.
Proof. destruct f as [[|ir i|r|str z zero] t]; cbn [wf_field fst snd]; lia. Qed.

(** What all fields leave: the header and the payload, and nothing else is
    written. *)
Record written (buf buf' : list Z) (zH zP : Z) (h d : list Z) : Prop := {
  wr_len : zlen buf' = zlen buf;
  wr_hdr : mem_read buf' zH (zlen h) = Some h;
  wr_data : mem_read buf' zP (zlen d) = Some d;
  wr_same j : 0 <= j -> ~ zH <= j < zH + zlen h -> ~ zP <= j < zP + zlen d -> buf'.[j] = buf.[j];
}.

Lemma mem_read_written d i b d' : mem_write d i b = Some d' -> bytes_ok b -> mem_read d' i (zlen b) = Some b.
Proof.
  intros E Hb. pose proof E as [Hi Hl]%mem_write_inv. pose proof (zlen_nonneg b).
  destruct (mem_write_ok d i b Hi Hl Hb) as (d1 & E1 & O & G). assert (d1 = d') as -> by congruence.
  pose proof (on_len _ _ _ _ O). destruct (mem_read_ok d' i (zlen b)) as (x & -> & Lx & Gx); [lia..|]. f_equal.
  apply zget_ext; [done|]. intros j Hj. rewrite Gx, G by lia. f_equal. lia.
Qed.

(** Two adjacent reads. *)
Lemma mem_read_app d i a b : mem_read d i (zlen a) = Some a -> mem_read d (i + zlen a) (zlen b) = Some b ->
  mem_read d i (zlen (a ++ b)) = Some (a ++ b).
Proof.
  intros (Hi & _ & _ & Ha)%mem_read_inv (_ & Hl & _ & Hb)%mem_read_inv. pose proof (zlen_nonneg a). pose proof (zlen_nonneg b).
  rewrite zlen_app. destruct (mem_read_ok d i (zlen a + zlen b)) as (x & -> & Lx & Gx); [lia..|]. f_equal.
  apply zget_ext; [rewrite zlen_app; lia|]. intros j Hj. rewrite Gx by lia. destruct (Z.lt_ge_cases j (zlen a)).
  - by rewrite zget_app_l, Ha by lia.
  - rewrite zget_app_r, Hb by lia. f_equal. lia.
Qed.

Lemma write_fields_ok fs : forall buf zH zP, Forall wf_field fs ->
  0 <= zH -> zH + zlen (hdr_bytes fs.*2) <= zP -> zP + zlen (payload fs) <= zlen buf ->
  exists buf', write_fields buf zH zP fs = Some (buf', zH + zlen (hdr_bytes fs.*2), zP + zlen (payload fs)) /\
    written buf buf' zH zP (hdr_bytes fs.*2) (payload fs).
Proof.
  induction fs as [|[m t] fs IH]; intros buf zH zP Hwf HH HP Hl.
  - exists buf. unfold hdr_bytes, payload in *. cbn [fmap list_fmap concat write_fields] in *. change (zlen (@nil Z)) with 0 in *.
    rewrite !Z.add_0_r. split; [done|]. constructor; try done; apply mem_read_nil; lia.
  - apply Forall_cons_1 in Hwf as [Hf Hwf]. unfold hdr_bytes, payload in *. cbn [fmap list_fmap concat fst snd write_fields] in *.
    rewrite !zlen_app in *. set (h := sqlite3PutVarint t) in *. set (d := pdata (m, t)) in *.
    set (hs := concat (sqlite3PutVarint <$> fs.*2)) in *. set (ds := concat (pdata <$> fs)) in *.
    pose proof (zlen_nonneg h). pose proof (zlen_nonneg d). pose proof (zlen_nonneg hs). pose proof (zlen_nonneg ds).
    assert (Hhb : bytes_ok h) by (apply putVarint_bytes; by apply wf_type in Hf; cbn in Hf; lia).
    assert (Hdb : bytes_ok d) by (by apply pdata_bytes).
    rewrite (write_field_ok buf zH zP m t Hf HH) by (fold h d; lia). fold h d.
    destruct (mem_write_ok buf zH h) as (b1 & E1 & O1 & _); [lia|lia|done|]. rewrite E1. cbn [mbind option_bind].
    pose proof (on_len _ _ _ _ O1). destruct (mem_write_ok b1 zP d) as (b2 & E2 & O2 & _); [lia|lia|done|]. rewrite E2. cbn [mbind option_bind].
    pose proof (on_len _ _ _ _ O2). destruct (IH b2 (zH + zlen h) (zP + zlen d)) as (b3 & E3 & [L3 R3 D3 S3]); [done|lia|lia|lia|].
    exists b3. rewrite E3, !Z.add_assoc. split; [done|].
    assert (Hsub : forall k n x, mem_read b2 k n = Some x -> (k + n <= zH + zlen h \/ zH + zlen h + zlen hs <= k) ->
      (k + n <= zP + zlen d \/ zP + zlen d + zlen ds <= k) -> mem_read b3 k n = Some x).
    { intros k n x Hr Hk1 Hk2. pose proof Hr as (? & ? & ? & _)%mem_read_inv. pose proof (zlen_nonneg x).
      apply (mem_read_move b2 b3 k k n x Hr); [lia|lia|]. intros j Hj. apply S3; lia. }
    constructor.
    + lia.
    + apply mem_read_app; [|done]. apply Hsub; [|lia|lia]. rewrite (only_read _ _ _ _ _ _ O2) by lia. by eapply mem_read_written.
    + apply mem_read_app; [|done]. apply Hsub; [|lia|lia]. by eapply mem_read_written.
    + rewrite !zlen_app. intros j Hj Hj1 Hj2. rewrite S3, (on_get _ _ _ _ O2), (on_get _ _ _ _ O1) by lia. done.
Qed.

(** ** The header *)

Lemma varint_len_above k v : (0 < k <= 9)%nat -> 128 ^ Z.of_nat k <= v -> Z.of_nat k < sqlite3VarintLen v.
Proof.
  intros Hk Hv. unfold sqlite3VarintLen. rewrite (varint_len_loop_ge k 9) by (lia || done).
  assert (H : forall fuel w i, i <= varint_len_loop fuel w i).
  { clear. induction fuel as [|fuel IH]; intros w i; [done|]. rewrite varint_len_loop_S. case_match; [done|]. specialize (IH (w / 128) (i + 1)). lia. }
  specialize (H (10 - k)%nat (v / 128 ^ Z.of_nat k) (1 + Z.of_nat k)). lia.
Qed.

Lemma varint_len_4 v : 0 <= v < 268435456 ->
  sqlite3VarintLen v = if v <? 128 then 1 else if v <? 16384 then 2 else if v <? 2097152 then 3 else 4.
Proof.
  intros Hv. assert (H : forall k, (0 < k <= 4)%nat -> 128 ^ (Z.of_nat k - 1) <= v \/ k = 1%nat -> v < 128 ^ Z.of_nat k -> sqlite3VarintLen v = Z.of_nat k).
  { intros k Hk Hlo Hhi. pose proof (varint_len_below k v ltac:(lia) ltac:(lia)) as [Hb1 Hb2]. destruct Hlo as [Hlo| ->]; [|lia].
    destruct (decide (k = 1%nat)) as [->|Hk1]; [lia|]. replace (Z.of_nat k - 1) with (Z.of_nat (k - 1)) in Hlo by lia.
    pose proof (varint_len_above (k - 1) v ltac:(lia) Hlo). lia. }
  destruct (Z.ltb_spec v 128); [by apply (H 1%nat); [lia|right|]|].
  destruct (Z.ltb_spec v 16384); [by apply (H 2%nat); [lia|left|]|].
  destruct (Z.ltb_spec v 2097152); [by apply (H 3%nat); [lia|left|]|]. apply (H 4%nat); [lia|by left|cbn; lia].
Qed.

Ltac inner_ltb := repeat (match goal with |- context [?n + ?k <? ?b] => destruct (Z.ltb_spec (n + k) b) end; try lia).

(** The size of the header counts the varint that holds it. *)
Lemma header_size_ok n : 0 <= n < 134217728 ->
  header_size n = n + sqlite3VarintLen (header_size n) /\ 0 < header_size n < 268435456.
Proof.
  intros Hn. unfold header_size. destruct (Z.leb_spec n 126); [rewrite varint_len_4 by lia; rewrite (proj2 (Z.ltb_lt _ _)); lia|].
  assert (E : sqlite3VarintLen n = 1 /\ n = 127 \/ sqlite3VarintLen n = 2 /\ 128 <= n < 16384 \/
              sqlite3VarintLen n = 3 /\ 16384 <= n < 2097152 \/ sqlite3VarintLen n = 4 /\ 2097152 <= n).
  { rewrite varint_len_4 by lia. repeat case_match; rewrite ?Z.ltb_lt, ?Z.ltb_ge in *; lia. }
  destruct E as [[-> ?]|[[-> ?]|[[-> ?]|[-> ?]]]]; rewrite (varint_len_4 (n + _)) by lia; inner_ltb; cbn [Z.ltb Z.compare Pos.compare Pos.compare_cont];
    rewrite varint_len_4 by lia; inner_ltb; lia.
Qed.

(** * Encoding and decoding *)

Section record.
Context (fmt : Z).
Abbreviation serial := (serial fmt).
Abbreviation content := (content fmt).
Abbreviation stored := (stored fmt).

(** The header without its size, and all contents. *)
Definition types (ms : list Mem) : list Z := hdr_bytes (serial <$> ms).
Definition contents (ms : list Mem) : list Z := concat (content <$> ms).

Lemma serial_range m : mem_ok m -> 0 <= serial m < 2 ^ 32.
Proof using.
  intros Hm. destruct m as [nc|ir i|r|str z zero]; cbn [MakeRecord.serial].
  - destruct nc; lia.
  - destruct (int_type_cases fmt i Hm) as [(-> & Hi & _)|(k & t & -> & _ & Hc)]; cbn [fst].
    + destruct ((8 + i =? 6) && ir); lia.
    + assert (1 <= t <= 6) by (destruct Hc as [X|[X|[X|[X|[X|X]]]]]; injection X as -> _; lia). destruct ((t =? 6) && ir); lia.
  - lia.
  - destruct (serial_data fmt str z zero Hm) as [Hs _]. cbn [MakeRecord.serial] in Hs. lia.
Qed.

Lemma content_bytes m : mem_ok m -> bytes_ok (content m).
Proof using.
  intros Hm. destruct m as [nc|ir i|r|str z zero]; cbn [MakeRecord.content].
  - constructor.
  - destruct (int_type fmt i) as [t n]. destruct ((t =? 6) && ir); apply be_bytes.
  - apply (be_bytes 8).
  - apply Forall_app_2; [by destruct Hm|]. apply Forall_replicate. unfold byte_ok. lia.
Qed.

Lemma types_size ms : Forall mem_ok ms -> zlen (types ms) <= 5 * zlen ms.
Proof using.
  induction 1 as [|m ms Hm _ IH]; [exact (Z.le_refl 0)|]. unfold types, hdr_bytes in *. cbn [fmap list_fmap concat]. rewrite zlen_app, zlen_cons.
  pose proof (serial_range m Hm). rewrite <- varint_size by done.
  pose proof (varint_len_below 5 (serial m) ltac:(lia) ltac:(change (128 ^ Z.of_nat 5) with (2 ^ 35); lia)). lia.
Qed.

Lemma types_bytes ms : Forall mem_ok ms -> bytes_ok (types ms).
Proof using.
  induction 1 as [|m ms Hm _ IH]; [constructor|]. unfold types, hdr_bytes in *. cbn [fmap list_fmap concat].
  apply Forall_app_2; [|done]. apply putVarint_bytes. by apply serial_range.
Qed.

Lemma contents_bytes ms : Forall mem_ok ms -> bytes_ok (contents ms).
Proof using.
  induction 1 as [|m ms Hm _ IH]; [constructor|]. unfold contents in *. cbn [fmap list_fmap concat].
  apply Forall_app_2; [by apply content_bytes|done].
Qed.

(** The whole record. *)
Definition record (ms : list Mem) : list Z := sqlite3PutVarint (header_size (zlen (types ms))) ++ types ms ++ contents ms.

(** ** Decoding *)

Lemma getVarint32_put t p : 0 <= t < 2 ^ 32 -> bytes_ok p ->
  getVarint32 (sqlite3PutVarint t ++ p) = Some (zlen (sqlite3PutVarint t), t).
Proof using.
  intros Ht Hp. rewrite getVarint32_min by (apply Forall_app_2; [apply putVarint_bytes; lia|done]).
  rewrite putVarint_decode by lia. cbn [mbind option_bind]. do 2 f_equal. lia.
Qed.

Lemma mem_read_mid (a b c : list Z) : mem_read (a ++ b ++ c) (zlen a) (zlen b) = Some b.
Proof using.
  pose proof (zlen_nonneg a). pose proof (zlen_nonneg b). pose proof (zlen_nonneg c).
  destruct (mem_read_ok (a ++ b ++ c) (zlen a) (zlen b)) as (x & -> & Lx & Gx); [lia|lia|rewrite !zlen_app; lia|]. f_equal.
  apply zget_ext; [done|]. intros j Hj. rewrite Gx, zget_app_r, zget_app_l by lia. f_equal. lia.
Qed.

Lemma drop_zlen (a b : list Z) : drop (Z.to_nat (zlen a)) (a ++ b) = b.
Proof using. unfold zlen. rewrite Nat2Z.id. apply drop_app_length. Qed.

Lemma unpack_fields_ok ms : forall n pre mid, Forall mem_ok ms -> bytes_ok pre -> bytes_ok mid ->
  let aKey := pre ++ types ms ++ mid ++ contents ms in
  zlen aKey < 2 ^ 32 ->
  exists d, unpack_fields n aKey (zlen aKey) (zlen pre + zlen (types ms)) (zlen pre) (zlen pre + zlen (types ms) + zlen mid) =
    Some (take n (stored <$> ms), d) /\ d <= zlen aKey.
Proof using.
  induction ms as [|m ms IH]; intros n pre mid Hok Hpre Hmid aKey HaKey.
  - unfold types, contents, hdr_bytes in *. cbn [fmap list_fmap concat] in *. subst aKey. rewrite !zlen_app in *. change (zlen (@nil Z)) with 0 in *.
    destruct n as [|n]; cbn [unpack_fields take]; [eexists; split; [done|lia]|].
    destruct (Z.ltb_spec (zlen pre) (zlen pre + 0)); [lia|]. cbn [andb]. eexists. split; [done|lia].
  - apply Forall_cons_1 in Hok as [Hm Hok]. pose proof (serial_range m Hm) as Hs.
    pose proof (types_bytes ms Hok). pose proof (contents_bytes ms Hok). pose proof (content_bytes m Hm).
    set (h := sqlite3PutVarint (serial m)). assert (Hh : bytes_ok h) by (apply putVarint_bytes; lia).
    assert (Ht : types (m :: ms) = h ++ types ms) by done. assert (Hc : contents (m :: ms) = content m ++ contents ms) by done.
    assert (Hh1 : 1 <= zlen h).
    { unfold h. rewrite <- varint_size by done.
      pose proof (varint_len_below 5 (serial m) ltac:(lia) ltac:(change (128 ^ Z.of_nat 5) with (2 ^ 35); lia)). lia. }
    pose proof (zlen_nonneg pre). pose proof (zlen_nonneg mid). pose proof (zlen_nonneg (types ms)).
    pose proof (zlen_nonneg (contents ms)). pose proof (zlen_nonneg (content m)).
    assert (Ekey : aKey = (pre ++ h) ++ types ms ++ (mid ++ content m) ++ contents ms) by (unfold aKey; rewrite Ht, Hc; by rewrite <- !app_assoc).
    assert (Elen : zlen aKey = zlen pre + zlen h + zlen (types ms) + zlen mid + zlen (content m) + zlen (contents ms))
      by (rewrite Ekey, !zlen_app; lia).
    rewrite Ht, zlen_app. destruct n as [|n]; cbn [unpack_fields]; [eexists; split; [done|lia]|].
    rewrite (proj2 (Z.ltb_lt _ _)), (proj2 (Z.leb_le _ _)) by lia. cbn [andb].
    assert (Eget : getVarint32 (drop (Z.to_nat (zlen pre)) aKey) = Some (zlen h, serial m)).
    { unfold aKey. rewrite drop_zlen, Ht, <- app_assoc. apply getVarint32_put; [done|]. by repeat apply Forall_app_2. }
    rewrite Eget. cbn [mbind option_bind].
    rewrite (get_value fmt aKey); [|done|]; cycle 1.
    { assert (Esplit : aKey = ((pre ++ h) ++ types ms ++ mid) ++ content m ++ contents ms) by (by rewrite Ekey, <- !app_assoc).
      rewrite Esplit. replace (zlen pre + (zlen h + zlen (types ms)) + zlen mid) with (zlen ((pre ++ h) ++ types ms ++ mid))
        by (rewrite !zlen_app; lia). apply mem_read_mid. }
    cbn [mbind option_bind]. rewrite serial_len by done. cbn [mbind option_bind]. rewrite !u32_small by lia.
    destruct (IH n (pre ++ h) (mid ++ content m) Hok) as (d & E & Hd); [by apply Forall_app_2|by apply Forall_app_2|by rewrite <- Ekey|].
    rewrite <- Ekey, !zlen_app in E. rewrite <- Ekey in Hd.
    replace (zlen pre + zlen h + zlen (types ms) + (zlen mid + zlen (content m))) with
      (zlen pre + (zlen h + zlen (types ms)) + zlen mid + zlen (content m)) in E by lia.
    replace (zlen pre + zlen h + zlen (types ms)) with (zlen pre + (zlen h + zlen (types ms))) in E by lia.
    rewrite E. cbn [mbind option_bind]. by exists d.
Qed.

(** ** Encoding *)

Lemma malloc_refused a b a' : malloc a = (b, a') -> a' ⊆ a /\ (b = false -> false ∈ a).
Proof using.
  destruct a as [|c a]; cbn [malloc]; intros [= <- <-]; [done|]. split; [by intros x; right|]. intros ->. by left.
Qed.

Lemma size_fields_refused ms : forall a r a', size_fields fmt a ms = (r, a') -> a' ⊆ a /\ (r = None -> false ∈ a).
Proof using.
  induction ms as [|m ms IH]; intros a r a' E; cbn [size_fields] in E; [by injection E as <- <-|].
  destruct (size_fields fmt a ms) as [[[fs s]|] a1] eqn:E1; apply IH in E1 as [Hs Hn]; [|by injection E as <- <-; auto].
  assert (H : forall r1 a2, size_field fmt a1 m s = (r1, a2) -> a2 ⊆ a1 /\ (r1 = None -> false ∈ a1)).
  { intros r1 a2. destruct m as [|ir i| |str z [n|]]; cbn [size_field]; try by intros [= <- <-].
    - destruct (int_type fmt i) as [t n]. destruct ((t =? 6) && ir); by intros [= <- <-].
    - destruct (negb _); [|by intros [= <- <-]]. destruct (malloc a1) as [b a3] eqn:Em. apply malloc_refused in Em as [Hs3 Hf].
      destruct b; intros [= <- <-]; [done|]. split; [done|]. intros _. by apply Hf. }
  destruct (size_field fmt a1 m s) as [[[[m' t] s']|] a2] eqn:E2; specialize (H _ _ eq_refl) as [H1 H2]; injection E as <- <-.
  - split; [|done]. by etransitivity.
  - split; [by etransitivity|]. intros _. by apply Hs, H2.
Qed.

Lemma write_record_ok h nZ fs buf : Forall wf_field fs -> 0 < h < 2 ^ 28 ->
  h = zlen (sqlite3PutVarint h) + zlen (hdr_bytes fs.*2) -> h + zlen (payload fs) <= zlen buf ->
  write_record h (h + zlen (payload fs)) nZ fs buf =
    Some (MadeOk (sqlite3PutVarint h ++ hdr_bytes fs.*2 ++ payload fs) nZ).
Proof using.
  intros Hwf Hh Eh Hl. pose proof (zlen_nonneg (sqlite3PutVarint h)). pose proof (zlen_nonneg (hdr_bytes fs.*2)).
  pose proof (zlen_nonneg (payload fs)). assert (Hpb : bytes_ok (sqlite3PutVarint h)) by (apply putVarint_bytes; lia).
  destruct (mem_write_ok buf 0 (sqlite3PutVarint h)) as (b1 & E1 & O1 & _); [lia|lia|done|]. pose proof (on_len _ _ _ _ O1).
  assert (Ehdr : (if h <? 0x80 then buf ← buf.[0 <- h]; Some (buf, 1)
                  else let b := sqlite3PutVarint h in buf ← mem_write buf 0 b; Some (buf, zlen b)) = Some (b1, zlen (sqlite3PutVarint h))).
  { destruct (Z.ltb_spec h 128).
    - rewrite varint_one in E1 |- * by lia. rewrite set_write by (unfold byte_ok; lia). by rewrite E1.
    - cbv zeta. by rewrite E1. }
  cbv zeta in Ehdr. unfold write_record. rewrite Ehdr. cbn [mbind option_bind].
  destruct (write_fields_ok fs b1 (zlen (sqlite3PutVarint h)) h Hwf) as (b2 & E2 & [L2 R2 D2 S2]); [lia|lia|lia|].
  rewrite E2. cbn [mbind option_bind].
  assert (R0 : mem_read b2 0 (zlen (sqlite3PutVarint h)) = Some (sqlite3PutVarint h)).
  { apply (mem_read_move b1 b2 0 0); [by eapply mem_read_written|lia|lia|]. intros j Hj. apply S2; lia. }
  pose proof (mem_read_app b2 0 _ _ R0 R2) as R3. replace h with (0 + zlen (sqlite3PutVarint h ++ hdr_bytes fs.*2)) in D2 by (rewrite zlen_app; lia).
  pose proof (mem_read_app b2 0 _ _ R3 D2) as R4. rewrite !zlen_app in R4. rewrite <- app_assoc in R4.
  replace (h + zlen (payload fs)) with (zlen (sqlite3PutVarint h) + zlen (hdr_bytes fs.*2) + zlen (payload fs)) by lia.
  by rewrite R4.
Qed.

Lemma make_record_ok aLimit zMalloc fresh a ms : Forall mem_ok ms -> zlen ms <= 32767 ->
  (forall n, n <= zlen (fresh n)) ->
  exists r a', make_record fmt aLimit zMalloc fresh a ms = (Some r, a') /\
    match r with
    | MadeOk z nZ => 0 <= nZ /\ z ++ replicate (Z.to_nat nZ) 0 = record ms /\
        (zlen (record ms) <= zlen zMalloc \/ zlen (record ms) <= aLimit)
    | MadeTooBig => aLimit < zlen (record ms)
    | MadeNoMem => false ∈ a
    end.
Proof using.
  intros Hok Hn Hfresh. unfold make_record. destruct (size_fields fmt a ms) as [r a1] eqn:E.
  pose proof (size_fields_refused _ _ _ _ E) as [Hsub Hno]. apply size_fields_ok in E; [|done].
  destruct r as [[fs s]|]; [|eexists _, _; split; [done|]; by apply Hno].
  destruct E as (E1 & Hwf & E3 & E4 & H5 & E6). pose proof (types_size ms Hok). pose proof (zlen_nonneg (types ms)).
  rewrite E1 in E3. fold (types ms) in E3. destruct (header_size_ok (nHdr s)) as [Eh Hh]; [lia|].
  rewrite varint_size in Eh by lia. set (h := header_size (nHdr s)) in *.
  assert (Erec : (sqlite3PutVarint h ++ hdr_bytes fs.*2 ++ payload fs) ++ replicate (Z.to_nat (nZero s)) 0 = record ms).
  { rewrite <- !app_assoc, E6, E1. unfold record. by rewrite <- E3. }
  assert (Elen : zlen (record ms) = h + nData s + nZero s).
  { rewrite <- Erec, !zlen_app, zlen_replicate, E1. fold (types ms). lia. }
  assert (Hw : forall buf, h + nData s <= zlen buf -> write_record h (h + nData s) (nZero s) fs buf =
            Some (MadeOk (sqlite3PutVarint h ++ hdr_bytes fs.*2 ++ payload fs) (nZero s))).
  { intros buf Hb. rewrite E4 in *. apply write_record_ok; [done|lia| |done]. rewrite E1. fold (types ms). lia. }
  cbv zeta. fold h.
  destruct (Z.leb_spec (h + nData s + nZero s) (zlen zMalloc)).
  { rewrite Hw by lia. eexists _, _. split; [done|]. split_and!; [done|done|lia]. }
  destruct (Z.gtb_spec (h + nData s + nZero s) aLimit); [eexists _, _; split; [done|cbn; lia]|].
  destruct (Z.leb_spec (h + nData s) (zlen zMalloc)).
  { rewrite Hw by lia. eexists _, _. split; [done|]. split_and!; [done|done|lia]. }
  destruct (malloc a1) as [b a2] eqn:Em. apply malloc_refused in Em as [_ Hf]. destruct b.
  - rewrite Hw by apply Hfresh. eexists _, _. split; [done|]. split_and!; [done|done|lia].
  - eexists _, _. split; [done|]. by apply Hsub, Hf.
Qed.
End record.

(** * Theorem *)

(** C38.  What [OP_MakeRecord] encodes, [sqlite3VdbeRecordUnpack] decodes.  For
    any values the engine may hold, up to the limit of 32767 fields, making a
    record never writes outside its buffer; it fails only when an allocation
    is refused or the record is larger than the limit; and the first [nField]
    values read from the record are those that were stored: a NaN as NULL, an
    integer of eight bytes that stands for a real as the nearest double, a
    blob with its trailing zeros, and every other value unchanged. *)
Theorem record_roundtrip fmt aLimit zMalloc fresh a ms nField :
  Forall mem_ok ms -> zlen ms <= 32767 -> (forall n, n <= zlen (fresh n)) ->
  zlen zMalloc < 2 ^ 31 -> aLimit < 2 ^ 31 -> 1 <= nField ->
  exists r a', make_record fmt aLimit zMalloc fresh a ms = (Some r, a') /\
    match r with
    | MadeOk z nZ =>
        let key := z ++ replicate (Z.to_nat nZ) 0 in
        sqlite3VdbeRecordUnpack nField (zlen key) key = Some (take (Z.to_nat nField) (stored fmt <$> ms))
    | MadeTooBig => aLimit < zlen (record fmt ms)
    | MadeNoMem => false ∈ a
    end.
Proof.
  intros Hok Hn Hfresh Hz Hlim Hf. destruct (make_record_ok fmt aLimit zMalloc fresh a ms Hok Hn Hfresh) as (r & a' & E & Hr).
  exists r, a'. split; [done|]. destruct r as [z nZ| |]; [|done|done]. destruct Hr as (_ & Erec & Hsz). cbv zeta. rewrite Erec.
  pose proof (types_size fmt ms Hok). pose proof (zlen_nonneg (types fmt ms)).
  destruct (header_size_ok (zlen (types fmt ms))) as [Eh Hh]; [lia|]. rewrite varint_size in Eh by lia.
  set (h := header_size (zlen (types fmt ms))) in *. assert (Ekey : record fmt ms = sqlite3PutVarint h ++ types fmt ms ++ [] ++ contents fmt ms) by done.
  assert (Hpb : bytes_ok (sqlite3PutVarint h)) by (apply putVarint_bytes; lia).
  unfold sqlite3VdbeRecordUnpack. rewrite Ekey at 1. rewrite getVarint32_put; [|lia|].
  2: { apply Forall_app_2; [by apply types_bytes|by apply contents_bytes]. }
  cbn [mbind option_bind].
  destruct (unpack_fields_ok fmt ms (Z.to_nat nField) (sqlite3PutVarint h) [] Hok Hpb) as (d & Eu & Hd); [constructor|rewrite <- Ekey; lia|].
  rewrite <- Ekey in Eu, Hd. change (zlen (@nil Z)) with 0 in Eu. rewrite Z.add_0_r in Eu.
  replace (zlen (sqlite3PutVarint h) + zlen (types fmt ms)) with h in Eu by lia. rewrite Eu. cbn [mbind option_bind].
  destruct (Z.gtb_spec d (zlen (record fmt ms))); [lia|done].
Qed.

Definition sample_values : list Mem :=
  [MInt false 1; MInt false (- 300); MData true [104; 105] None; MInt true (2 ^ 60 + 1); MNull false;
   MReal 0x4009000000000000; MData false [7] (Some 3)].

Lemma record_roundtrip_witness :
  exists z a', make_record 4 1000 [] (fun n => replicate (Z.to_nat n) 0) [] sample_values = (Some (MadeOk z 3), a') /\
    sqlite3VdbeRecordUnpack 9 (zlen z + 3) (z ++ [0; 0; 0]) =
      Some [MInt false 1; MInt false (- 300); MData true [104; 105] None; MReal 0x43b0000000000000; MNull false;
            MReal 0x4009000000000000; MData false [7; 0; 0; 0] None].
Proof.
  assert (Hok : Forall mem_ok sample_values).
  { repeat (apply List.Forall_cons; [cbn [mem_ok]; first [done|lia|idtac]|]); [..|constructor].
    all: split_and!; try (apply (bool_decide_unpack _); exact I). }
  destruct (record_roundtrip 4 1000 [] (fun n => replicate (Z.to_nat n) 0) [] sample_values 9 Hok)
    as (r & a' & E & Hr); [vm_compute; discriminate| |vm_compute; reflexivity|lia|lia|].
  { intros n. rewrite zlen_replicate. lia. }
  vm_compute in E. injection E as <- <-. eexists _, _. split; [reflexivity|]. exact Hr.
Defined.
