(* ===== verification/Compare.v ===== *)
(** Comparing values (vdbeaux.c): integers with doubles
    ([sqlite3IntFloatCompare]), texts under a collation
    ([vdbeCompareMemString]), blobs ([sqlite3BlobCompare]) and any two values
    ([sqlite3MemCompare]); and the order they implement. *)
From S2P Require Import Prelude.
From S2P Require Import Bits.
From S2P Require Import Mem.
From S2P Require Import MakeRecord.
Open Scope Z_scope.

(** * Doubles *)

(** The value of a double that is not a NaN, in units of the smallest one,
    [2^-1074]; the infinities are beyond every finite value. *)
Definition unit_double : Z := 2 ^ 1074.

Definition double_value (r : Z) : Z :=
  let e := (r / 2 ^ 52) mod 2 ^ 11 in
  let f := r mod 2 ^ 52 in
  let a := if e =? 0 then f else (2 ^ 52 + f) * 2 ^ (e - 1) in
  if r <? 2 ^ 63 then a else - a.

(** [r<s], false when one is a NaN. *)
Definition double_lt (r s : Z) : bool :=
  negb (IsNaN r) && negb (IsNaN s) && (double_value r <? double_value s).

(** [(i64)r], undefined for a NaN and for values that do not fit. *)
Definition i64_of_double (r : Z) : option Z :=
  let y := Z.quot (double_value r) unit_double in
  if IsNaN r then None else if (- 2 ^ 63 <=? y) && (y <? 2 ^ 63) then Some y else None.

(** [-9223372036854775808.0] and [9223372036854775808.0]. *)
Definition double_min_i64 : Z := 0xc3e0000000000000.
Definition double_2_63 : Z := 0x43e0000000000000.

(** [wide] is [sizeof(LONGDOUBLE_TYPE)>8]: then an integer is compared in a
    type that holds it exactly. *)
Definition sqlite3IntFloatCompare (wide : bool) (i r : Z) : option Z :=
  if wide then
    if IsNaN r then Some 0
    else if i * unit_double <? double_value r then Some (- 1)
    else if i * unit_double >? double_value r then Some 1
    else Some 0
  else if double_lt r double_min_i64 then Some 1
  else if negb (IsNaN r) && negb (double_lt r double_2_63) then Some (- 1)
  else
    y ← i64_of_double r;
    if i <? y then Some (- 1)
    else if i >? y then Some 1
    else
      let s := double_of_i64 i in
      if double_lt s r then Some (- 1)
      else if double_lt r s then Some 1
      else Some 0.

(** * Texts and blobs *)

(** The sign of [memcmp] on [n] bytes. *)
Fixpoint memcmp (a b : list Z) (n : nat) : option Z :=
  match n with
  | O => Some 0
  | S n =>
      match a, b with
      | x :: a, y :: b => if x =? y then memcmp a b n else Some (x - y)
      | _, _ => None
      end
  end.

Definition isAllZero (z : list Z) : bool := forallb (Z.eqb 0) z.

(** The shorter one first when it is a prefix; [n1] and [n2] are the lengths. *)
Definition bytes_cmp (z1 z2 : list Z) : option Z :=
  c ← memcmp z1 z2 (Z.to_nat (if zlen z1 >? zlen z2 then zlen z2 else zlen z1));
  Some (if negb (c =? 0) then c else zlen z1 - zlen z2).

(** [sqlite3BlobCompare]; a blob with [MEM_Zero] has no other bytes. *)
Definition sqlite3BlobCompare (z1 : list Z) (zero1 : option Z) (z2 : list Z) (zero2 : option Z) : option Z :=
  match zero1, zero2 with
  | Some n1, Some n2 => Some (n1 - n2)
  | Some n1, None => Some (if negb (isAllZero z2) then - 1 else n1 - zlen z2)
  | None, Some n2 => Some (if negb (isAllZero z1) then 1 else zlen z1 - n2)
  | None, None => bytes_cmp z1 z2
  end.

(** A collating sequence compares texts of one encoding. *)
Record CollSeq := { coll_enc : Z; xCmp : list Z -> list Z -> Z }.

Section compare.
(** [sqlite3ValueText] converts a text from an encoding to another; [None]
    when memory is refused. *)
Context (wide : bool) (ValueText : Z -> Z -> list Z -> option (list Z)).

(** The result, [None] when a conversion failed: the code then returns 0 and
    sets the error code. *)
Definition vdbeCompareMemString (enc : Z) (z1 z2 : list Z) (pColl : CollSeq) : option Z :=
  if enc =? coll_enc pColl then Some (xCmp pColl z1 z2)
  else
    match ValueText enc (coll_enc pColl) z1, ValueText enc (coll_enc pColl) z2 with
    | Some v1, Some v2 => Some (xCmp pColl v1 v2)
    | _, _ => None
    end.

(** [pMem1->enc] is [enc], the encoding of the database. *)
Definition sqlite3MemCompare (enc : Z) (pMem1 pMem2 : Mem) (pColl : option CollSeq) : option Z :=
  match pMem1, pMem2 with
  | MNull _, MNull _ => Some 0
  | MNull _, _ => Some (- 1)
  | _, MNull _ => Some 1
  | MInt _ i1, MInt _ i2 => Some (if i1 <? i2 then - 1 else if i1 >? i2 then 1 else 0)
  | MReal r1, MReal r2 => Some (if double_lt r1 r2 then - 1 else if double_lt r2 r1 then 1 else 0)
  | MInt _ i1, MReal r2 => sqlite3IntFloatCompare wide i1 r2
  | MReal r1, MInt _ i2 => c ← sqlite3IntFloatCompare wide i2 r1; Some (- c)
  | (MInt _ _ | MReal _), _ => Some (- 1)
  | _, (MInt _ _ | MReal _) => Some 1
  | MData false _ _, MData true _ _ => Some 1
  | MData true _ _, MData false _ _ => Some (- 1)
  | MData true z1 _, MData true z2 _ =>
      match pColl with
      | Some c => Some (default 0 (vdbeCompareMemString enc z1 z2 c))
      | None => sqlite3BlobCompare z1 None z2 None
      end
  | MData false z1 zero1, MData false z2 zero2 => sqlite3BlobCompare z1 zero1 z2 zero2
  end.
End compare.

Example compare_2_53 : sqlite3IntFloatCompare false (2 ^ 53 + 1) (double_of_i64 (2 ^ 53)) = Some 1.
Proof. vm_compute. reflexivity. Qed.

(** * The order of values *)

(** What the engine compares: numbers in units of the smallest double. *)
Inductive value :=
  | VNull
  | VNumber (x : Z)
  | VText (z : list Z)
  | VBlob (z : list Z).

Definition value_of (m : Mem) : value :=
  match m with
  | MNull _ => VNull
  | MInt _ i => VNumber (i * unit_double)
  | MReal r => if IsNaN r then VNull else VNumber (double_value r)
  | MData true z _ => VText z
  | MData false z zero => VBlob (z ++ zeros zero)
  end.

Fixpoint bytes_compare (a b : list Z) : comparison :=
  match a, b with
  | [], [] => Eq
  | [], _ => Lt
  | _, [] => Gt
  | x :: a, y :: b => match x ?= y with Eq => bytes_compare a b | c => c end
  end.

(** NULL, numbers, texts, blobs. *)
Definition value_compare (text : list Z -> list Z -> option comparison) (a b : value) : option comparison :=
  match a, b with
  | VNull, VNull => Some Eq
  | VNull, _ => Some Lt
  | _, VNull => Some Gt
  | VNumber x, VNumber y => Some (x ?= y)
  | VNumber _, _ => Some Lt
  | _, VNumber _ => Some Gt
  | VText z1, VText z2 => text z1 z2
  | VText _, _ => Some Lt
  | _, VText _ => Some Gt
  | VBlob z1, VBlob z2 => Some (bytes_compare z1 z2)
  end.

(** The order of texts under a collation; without one, the bytes. *)
Definition text_compare (ValueText : Z -> Z -> list Z -> option (list Z)) (enc : Z) (pColl : option CollSeq)
    (z1 z2 : list Z) : option comparison :=
  match pColl with
  | Some c => r ← vdbeCompareMemString ValueText enc z1 z2 c; Some (r ?= 0)
  | None => Some (bytes_compare z1 z2)
  end.

(** ** Doubles *)

Lemma land_shiftl x m n : 0 <= n -> Z.land x (Z.shiftl m n) = Z.shiftl (Z.land (Z.shiftr x n) m) n.
Proof.
  intros Hn. apply Z.bits_inj'. intros k Hk. rewrite Z.land_spec, !Z.shiftl_spec by lia.
  destruct (Z.lt_ge_cases k n); [rewrite !(Z.testbit_neg_r _ (k - n)) by lia; apply andb_false_r|].
  rewrite Z.land_spec, Z.shiftr_spec by lia. do 2 f_equal. lia.
Qed.

Lemma IsNaN_spec r : IsNaN r = (((r / 2 ^ 52) mod 2 ^ 11 =? 2047) && negb (r mod 2 ^ 52 =? 0)).
Proof.
  unfold IsNaN, EXP754, MAN754. rewrite land_shiftl by lia. change 0x7ff with (Z.ones 11).
  rewrite Z.land_ones, Z.shiftr_div_pow2 by lia. rewrite !Z.shiftl_mul_pow2 by lia.
  replace (1 * 2 ^ 52 - 1) with (Z.ones 52) by reflexivity. rewrite Z.land_ones by lia. f_equal.
  change (Z.ones 11) with 2047. destruct (Z.eqb_spec ((r / 2 ^ 52) mod 2 ^ 11) 2047) as [->|]; [done|].
  apply Z.eqb_neq. lia.
Qed.

Lemma double_parts (s : bool) e f : 0 <= e < 2 ^ 11 -> 0 <= f < 2 ^ 52 ->
  let r := (if s then 2 ^ 63 else 0) + e * 2 ^ 52 + f in
  (r / 2 ^ 52) mod 2 ^ 11 = e /\ r mod 2 ^ 52 = f /\ (r <? 2 ^ 63) = negb s.
Proof.
  intros He Hf. assert (Er : (if s then 2 ^ 63 else 0) + e * 2 ^ 52 + f = ((if s then 2 ^ 11 else 0) + e) * 2 ^ 52 + f)
    by (destruct s; lia).
  rewrite Er. cbv zeta. rewrite Z.div_add_l, Z.div_small, Z.add_0_r by lia. split_and!.
  - destruct s; [|by apply Z.mod_small]. rewrite <- (Z.mul_1_l (2 ^ 11)) at 1. rewrite Z.add_comm, Z.mod_add by lia.
    by apply Z.mod_small.
  - rewrite Z.add_comm, Z.mod_add by lia. by apply Z.mod_small.
  - destruct s; [apply Z.ltb_ge|apply Z.ltb_lt]; lia.
Qed.

(** The bits of a nonzero integer as a double, when it has one. *)
Lemma double_exact i M k : Z.abs i = M * 2 ^ k -> 0 <= M < 2 ^ 53 -> 0 <= k -> - 2 ^ 63 <= i < 2 ^ 63 ->
  IsNaN (double_of_i64 i) = false /\ double_value (double_of_i64 i) = i * unit_double.
Proof.
  intros HM HMb Hk Hi. unfold double_of_i64. destruct (Z.eqb_spec (Z.abs i) 0) as [Hz|Hz].
  { replace i with 0 by lia. by split. }
  set (a := Z.abs i) in *. pose proof (Z.log2_spec a ltac:(lia)) as [H1 H2]. rewrite <- Z.add_1_r in H2.
  pose proof (Z.log2_nonneg a) as He0. assert (He : Z.log2 a <= 63) by (apply (Z.log2_le_mono a (2 ^ 63)); lia).
  assert (HeM : Z.log2 a <= 52 + k).
  { enough (Z.log2 a < 53 + k) by lia. apply Z.log2_lt_pow2; [lia|]. rewrite HM, Z.pow_add_r by lia.
    apply Z.mul_lt_mono_pos_r; [apply Z.pow_pos_nonneg|]; lia. }
  set (e := Z.log2 a) in *. cbv zeta.
  assert (Hm : exists m, (if e <=? 52 then a * 2 ^ (52 - e) else round_even a (e - 52)) = m /\
            m * 2 ^ (e + 1022) = a * unit_double /\ 2 ^ 52 <= m < 2 ^ 53).
  { destruct (Z.leb_spec e 52).
    - eexists. split; [done|]. unfold unit_double. split.
      + rewrite <- Z.mul_assoc, <- Z.pow_add_r by lia. do 2 f_equal. lia.
      + replace (2 ^ 52) with (2 ^ e * 2 ^ (52 - e)) by (rewrite <- Z.pow_add_r by lia; f_equal; lia).
        replace (2 ^ 53) with (2 ^ (e + 1) * 2 ^ (52 - e)) by (rewrite <- Z.pow_add_r by lia; f_equal; lia).
        pose proof (Z.pow_pos_nonneg 2 (52 - e)). split; [apply Z.mul_le_mono_nonneg_r|apply Z.mul_lt_mono_pos_r]; lia.
    - set (q := M * 2 ^ (k - (e - 52))). assert (Ha : a = q * 2 ^ (e - 52)).
      { unfold q. rewrite <- Z.mul_assoc, <- Z.pow_add_r, HM by lia. do 2 f_equal. lia. }
      pose proof (Z.pow_pos_nonneg 2 (e - 52) ltac:(lia) ltac:(lia)) as Hp. exists q. split; [|split].
      + unfold round_even. rewrite Ha, Z.div_mul, Z.mod_mul by lia. cbv zeta.
        rewrite (proj2 (Z.eqb_neq (2 * 0) (2 ^ (e - 52)))) by lia. destruct (Z.gtb_spec (2 * 0) (2 ^ (e - 52))); [lia|done].
      + unfold unit_double. rewrite Ha, <- Z.mul_assoc, <- Z.pow_add_r by lia. do 2 f_equal. lia.
      + replace (2 ^ e) with (2 ^ 52 * 2 ^ (e - 52)) in H1 by (rewrite <- Z.pow_add_r by lia; f_equal; lia).
        replace (2 ^ (e + 1)) with (2 ^ 53 * 2 ^ (e - 52)) in H2 by (rewrite <- Z.pow_add_r by lia; f_equal; lia).
        rewrite Ha in H1, H2. split; [eapply Z.mul_le_mono_pos_r|eapply Z.mul_lt_mono_pos_r]; eauto. }
  destruct Hm as (m & -> & Hv & Hmb).
  pose proof (double_parts (i <? 0) (e + 1023) (m - 2 ^ 52) ltac:(lia) ltac:(lia)) as (E1 & E2 & E3). cbv zeta in E1, E2, E3.
  unfold double_value. rewrite IsNaN_spec, E1, E2, E3. rewrite (proj2 (Z.eqb_neq (e + 1023) 2047)), (proj2 (Z.eqb_neq (e + 1023) 0)) by lia.
  split; [done|]. replace (2 ^ 52 + (m - 2 ^ 52)) with m by lia. replace (e + 1023 - 1) with (e + 1022) by lia. rewrite Hv.
  unfold a. destruct (Z.ltb_spec i 0); cbn [negb]; [rewrite Z.abs_neq by lia; ring|rewrite Z.abs_eq by lia; done].
Qed.

Lemma unit_pos : 0 < unit_double.
Proof. by apply Z.pow_pos_nonneg. Qed.

(** A double is a multiple of a power of two. *)
Lemma double_mantissa r : exists M k, Z.abs (double_value r) = M * 2 ^ k /\ 0 <= M < 2 ^ 53 /\ 0 <= k.
Proof.
  unfold double_value. pose proof (Z.mod_pos_bound (r / 2 ^ 52) (2 ^ 11) ltac:(lia)). pose proof (Z.mod_pos_bound r (2 ^ 52) ltac:(lia)).
  set (e := (r / 2 ^ 52) mod 2 ^ 11) in *. set (f := r mod 2 ^ 52) in *. cbv zeta. destruct (Z.eqb_spec e 0).
  - exists f, 0. split; [|lia]. rewrite Z.mul_1_r. destruct (r <? 2 ^ 63); lia.
  - exists (2 ^ 52 + f), (e - 1). split; [|lia]. pose proof (Z.pow_pos_nonneg 2 (e - 1) ltac:(lia) ltac:(lia)).
    assert (0 <= (2 ^ 52 + f) * 2 ^ (e - 1)) by nia. destruct (r <? 2 ^ 63); lia.
Qed.

(** When an integer is the truncation of a double, it has itself a double, or
    the double is that integer. *)
Lemma truncation_exact r y : Z.quot (double_value r) unit_double = y -> - 2 ^ 63 <= y < 2 ^ 63 ->
  IsNaN (double_of_i64 y) = false /\ double_value (double_of_i64 y) = y * unit_double.
Proof.
  intros Hq Hy. destruct (double_mantissa r) as (M & k & HM & HMb & Hk).
  pose proof unit_pos as HU.
  assert (Ha : Z.abs y = Z.abs (double_value r) / unit_double).
  { rewrite <- Hq, <- Z.quot_abs by lia. rewrite (Z.abs_eq unit_double), Z.quot_div_nonneg; lia. }
  rewrite HM in Ha. destruct (Z.le_gt_cases 1074 k).
  - apply (double_exact y M (k - 1074)); [|done|lia|done]. rewrite Ha. unfold unit_double.
    replace (2 ^ k) with (2 ^ (k - 1074) * 2 ^ 1074) by (rewrite <- Z.pow_add_r by lia; f_equal; lia).
    rewrite Z.mul_assoc. apply Z.div_mul. lia.
  - apply (double_exact y (Z.abs y) 0); [lia| |lia|done]. split; [lia|]. rewrite Ha.
    apply Z.div_lt_upper_bound; [done|]. unfold unit_double.
    replace (2 ^ 1074) with (2 ^ k * 2 ^ (1074 - k)) by (rewrite <- Z.pow_add_r by lia; f_equal; lia).
    pose proof (Z.pow_pos_nonneg 2 k ltac:(lia) ltac:(lia)). pose proof (Z.pow_pos_nonneg 2 (1074 - k) ltac:(lia) ltac:(lia)).
    nia.
Qed.

Lemma double_lt_iff r s : IsNaN r = false -> IsNaN s = false -> double_lt r s = (double_value r <? double_value s).
Proof. intros Hr Hs. unfold double_lt. by rewrite Hr, Hs. Qed.

Lemma quot_order i v u : 0 < u ->
  (i < Z.quot v u -> i * u < v) /\ (Z.quot v u < i -> v < i * u).
Proof.
  intros Hu. pose proof (Z.quot_rem v u ltac:(lia)) as Hq. pose proof (Z.rem_bound_abs v u ltac:(lia)) as Hb.
  set (y := Z.quot v u) in *. split; intros H.
  - assert ((i + 1) * u <= y * u) by (apply Z.mul_le_mono_nonneg_r; lia). lia.
  - assert ((y + 1) * u <= i * u) by (apply Z.mul_le_mono_nonneg_r; lia). lia.
Qed.

Lemma quot_range v u b : 0 < u -> 0 < b -> - b * u <= v < b * u -> - b <= Z.quot v u < b.
Proof.
  intros Hu Hb Hv. split; [apply Z.quot_le_lower_bound; lia|]. destruct (Z.lt_ge_cases v 0).
  - assert (Z.quot v u <= 0); [|lia]. apply Z.quot_le_upper_bound; lia.
  - apply Z.quot_lt_upper_bound; lia.
Qed.

Lemma IntFloatCompare_exact wide i r : IsNaN r = false -> - 2 ^ 63 <= i < 2 ^ 63 ->
  exists c, sqlite3IntFloatCompare wide i r = Some c /\ (c ?= 0) = (i * unit_double ?= double_value r).
Proof.
  intros Hr Hi. unfold sqlite3IntFloatCompare, i64_of_double. rewrite Hr. cbn [negb andb].
  rewrite !double_lt_iff by done. change (double_value double_min_i64) with (- 2 ^ 63 * unit_double).
  change (double_value double_2_63) with (2 ^ 63 * unit_double).
  pose proof unit_pos as HU. set (v := double_value r) in *. destruct wide.
  { destruct (Z.ltb_spec (i * unit_double) v); [eexists; split; [done|]; symmetry; by apply Z.compare_lt_iff|].
    rewrite Z.gtb_ltb. destruct (Z.ltb_spec v (i * unit_double)); eexists; (split; [done|]); symmetry;
      [by apply Z.compare_gt_iff|apply Z.compare_eq_iff; lia]. }
  destruct (Z.ltb_spec v (- 2 ^ 63 * unit_double)).
  { eexists. split; [done|]. symmetry. apply Z.compare_gt_iff.
    assert (- 2 ^ 63 * unit_double <= i * unit_double) by (apply Z.mul_le_mono_nonneg_r; lia). lia. }
  destruct (Z.ltb_spec v (2 ^ 63 * unit_double)) as [Hv2|]; cbn [negb]; cycle 1.
  { eexists. split; [done|]. symmetry. apply Z.compare_lt_iff.
    assert (i * unit_double < 2 ^ 63 * unit_double) by (apply Z.mul_lt_mono_pos_r; lia). lia. }
  destruct (quot_order i v unit_double HU) as [Hlt Hgt].
  pose proof (quot_range v unit_double (2 ^ 63) HU ltac:(lia) ltac:(lia)) as Hy.
  destruct (truncation_exact r _ eq_refl Hy) as [En Ev]. fold v in En, Ev.
  set (y := Z.quot v unit_double) in *. rewrite (proj2 (Z.leb_le (- 2 ^ 63) y)), (proj2 (Z.ltb_lt y (2 ^ 63))) by lia.
  cbn [andb mbind option_bind]. destruct (Z.ltb_spec i y); [eexists; split; [done|]; symmetry; apply Z.compare_lt_iff; auto|].
  rewrite Z.gtb_ltb. destruct (Z.ltb_spec y i); [eexists; split; [done|]; symmetry; apply Z.compare_gt_iff; auto|].
  replace y with i in * by lia. rewrite !double_lt_iff, Ev by done. fold v.
  destruct (Z.ltb_spec (i * unit_double) v); [eexists; split; [done|]; symmetry; by apply Z.compare_lt_iff|].
  destruct (Z.ltb_spec v (i * unit_double)); eexists; (split; [done|]); symmetry;
    [by apply Z.compare_gt_iff|apply Z.compare_eq_iff; lia].
Qed.

(** ** Bytes *)

Lemma memcmp_spec a : forall b n, n = Nat.min (length a) (length b) ->
  exists c, memcmp a b n = Some c /\ ((if negb (c =? 0) then c else zlen a - zlen b) ?= 0) = bytes_compare a b.
Proof.
  induction a as [|x a IH]; intros [|y b] n ->; cbn [length Nat.min memcmp bytes_compare].
  - by exists 0.
  - exists 0. split; [done|]. cbn. apply Z.compare_lt_iff. change (zlen (@nil Z)) with 0. rewrite zlen_cons. pose proof (zlen_nonneg b). lia.
  - exists 0. split; [done|]. cbn. apply Z.compare_gt_iff. change (zlen (@nil Z)) with 0. rewrite zlen_cons. pose proof (zlen_nonneg a). lia.
  - destruct (Z.eqb_spec x y) as [->|Hn].
    + destruct (IH b _ eq_refl) as (c & E & Hc). exists c. split; [done|]. rewrite Z.compare_refl, <- Hc, !zlen_cons.
      destruct (c =? 0); cbn [negb]; [f_equal; lia|done].
    + exists (x - y). split; [done|]. rewrite (proj2 (Z.eqb_neq (x - y) 0)) by lia. cbn [negb].
      destruct (Z.compare_spec x y); [lia|apply Z.compare_lt_iff; lia|apply Z.compare_gt_iff; lia].
Qed.

Lemma bytes_cmp_spec a b : exists c, bytes_cmp a b = Some c /\ (c ?= 0) = bytes_compare a b.
Proof.
  unfold bytes_cmp. destruct (memcmp_spec a b (Z.to_nat (if zlen a >? zlen b then zlen b else zlen a))) as (c & -> & Hc).
  - unfold zlen. rewrite Z.gtb_ltb. destruct (Z.ltb_spec (Z.of_nat (length b)) (Z.of_nat (length a))); lia.
  - cbn [mbind option_bind]. by eexists.
Qed.

Lemma bytes_compare_refl a : bytes_compare a a = Eq.
Proof. induction a as [|x a IH]; [done|]. cbn [bytes_compare]. by rewrite Z.compare_refl. Qed.

Lemma bytes_compare_eq a : forall b, bytes_compare a b = Eq -> a = b.
Proof.
  induction a as [|x a IH]; intros [|y b]; cbn [bytes_compare]; try done.
  destruct (Z.compare_spec x y) as [->| |]; try done. intros ?. f_equal. auto.
Qed.

Lemma bytes_compare_opp a : forall b, bytes_compare b a = CompOpp (bytes_compare a b).
Proof.
  induction a as [|x a IH]; intros [|y b]; cbn [bytes_compare]; try done.
  rewrite (Z.compare_antisym x y). destruct (x ?= y); cbn [CompOpp]; auto.
Qed.

Lemma bytes_compare_trans a : forall b c, bytes_compare a b <> Gt -> bytes_compare b c <> Gt -> bytes_compare a c <> Gt.
Proof.
  induction a as [|x a IH]; intros [|y b] [|z c]; cbn [bytes_compare]; try done.
  destruct (Z.compare_spec x y), (Z.compare_spec y z), (Z.compare_spec x z); subst; try done || lia. apply IH.
Qed.

(** A blob of zeros. *)
Lemma isAllZero_spec z : isAllZero z = true -> z = replicate (length z) 0.
Proof.
  induction z as [|x z IH]; cbn [isAllZero forallb length replicate]; [done|].
  intros [Hx%Z.eqb_eq Hz]%andb_true_iff. rewrite <- Hx. f_equal. by apply IH.
Qed.

Lemma compare_replicate n m : bytes_compare (replicate n 0) (replicate m 0) = (Z.of_nat n - Z.of_nat m ?= 0).
Proof.
  revert m. induction n as [|n IH]; intros [|m]; cbn [replicate bytes_compare].
  - done.
  - symmetry. apply Z.compare_lt_iff. lia.
  - symmetry. apply Z.compare_gt_iff. lia.
  - rewrite Z.compare_refl, IH. f_equal. lia.
Qed.

(** Zeros come before anything of bytes that is not all zeros. *)
Lemma zeros_below n z : bytes_ok z -> isAllZero z = false -> bytes_compare (replicate n 0) z = Lt.
Proof.
  revert n. induction z as [|x z IH]; intros n Hb Hz; [done|]. apply Forall_cons_1 in Hb as [Hx Hb]. unfold byte_ok in Hx.
  destruct n as [|n]; [done|]. cbn [replicate bytes_compare isAllZero forallb] in *.
  destruct (Z.eqb_spec 0 x) as [<-|]; cbn [andb] in Hz.
  - rewrite Z.compare_refl. by apply IH.
  - by rewrite (proj2 (Z.compare_lt_iff 0 x)) by lia.
Qed.

Definition zero_blob (z : list Z) (zero : option Z) : Prop := match zero with Some n => z = [] /\ 0 <= n | None => True end.

Lemma zero_blob_data z zero : zero_blob z zero -> z ++ zeros zero = match zero with Some n => replicate (Z.to_nat n) 0 | None => z end.
Proof. destruct zero as [n|]; unfold zeros; cbn; [by intros [-> _]|intros _; apply app_nil_r]. Qed.

Lemma BlobCompare_spec z1 zero1 z2 zero2 : bytes_ok z1 -> bytes_ok z2 -> zero_blob z1 zero1 -> zero_blob z2 zero2 ->
  exists c, sqlite3BlobCompare z1 zero1 z2 zero2 = Some c /\ (c ?= 0) = bytes_compare (z1 ++ zeros zero1) (z2 ++ zeros zero2).
Proof.
  intros H1 H2 Hz1 Hz2. rewrite !zero_blob_data by done. unfold sqlite3BlobCompare.
  destruct zero1 as [n1|], zero2 as [n2|]; cbn in Hz1, Hz2; [| | |apply bytes_cmp_spec]; eexists; (split; [done|]).
  - rewrite compare_replicate. f_equal. lia.
  - destruct (isAllZero z2) eqn:E; cbn [negb]; [|symmetry; by apply zeros_below].
    apply isAllZero_spec in E. rewrite E. rewrite compare_replicate, zlen_replicate. f_equal. lia.
  - destruct (isAllZero z1) eqn:E; cbn [negb].
    + apply isAllZero_spec in E. rewrite E. rewrite compare_replicate, zlen_replicate. f_equal. lia.
    + rewrite bytes_compare_opp, zeros_below by done. done.
Qed.

(** ** Values *)

(** Values as the engine compares them: no NaN, and [MEM_Zero] only on blobs
    without other bytes. *)
Definition comparable (m : Mem) : Prop :=
  mem_ok m /\
  match m with
  | MReal r => IsNaN r = false
  | MData str z zero => zero_blob z zero /\ (str = true -> zero = None)
  | _ => True
  end.

Lemma three_way x y : ((if x <? y then - 1 else if y <? x then 1 else 0) ?= 0) = (x ?= y).
Proof. destruct (Z.ltb_spec x y), (Z.ltb_spec y x), (Z.compare_spec x y); done || lia. Qed.

Lemma compare_unit x y : (x * unit_double ?= y * unit_double) = (x ?= y).
Proof. symmetry. apply Zmult_compare_compat_r. pose proof unit_pos. lia. Qed.

Lemma compare_sub_opp c x y : (c ?= 0) = (x ?= y) -> (- c ?= 0) = (y ?= x).
Proof. intros H. rewrite (Z.compare_antisym x y), <- H. change 0 with (- 0) at 1. rewrite Z.compare_opp. apply Z.compare_antisym. Qed.

Lemma MemCompare_spec wide ValueText enc pColl a b c : comparable a -> comparable b ->
  value_compare (text_compare ValueText enc pColl) (value_of a) (value_of b) = Some c ->
  exists r, sqlite3MemCompare wide ValueText enc a b pColl = Some r /\ (r ?= 0) = c.
Proof.
  intros [Ha Ca] [Hb Cb] H.
  destruct a as [na|ka i|r|[] z zero], b as [nb|kb j|s|[] z' zero']; cbn [value_of value_compare sqlite3MemCompare mem_ok] in *;
    rewrite ?Ca, ?Cb in H; cbn [value_compare] in H; try (injection H as <-; by eexists).
  - injection H as <-. eexists. split; [done|]. by rewrite Z.gtb_ltb, three_way, compare_unit.
  - injection H as <-. by apply IntFloatCompare_exact.
  - injection H as <-. destruct (IntFloatCompare_exact wide j r Ca Hb) as (c & -> & Hc). eexists. split; [done|].
    by apply compare_sub_opp.
  - injection H as <-. eexists. split; [done|]. by rewrite !double_lt_iff, three_way by done.
  - destruct pColl as [cs|]; cbn [text_compare] in H.
    + destruct (vdbeCompareMemString ValueText enc z z' cs) as [v|]; cbn in H; [|done]. injection H as <-. by eexists.
    + injection H as <-. apply bytes_cmp_spec.
  - injection H as <-. apply BlobCompare_spec; tauto.
Qed.

(** What is documented of a collation: it orders the texts, and conversions
    to its encoding succeed. *)
Record coll_ok (ValueText : Z -> Z -> list Z -> option (list Z)) (enc : Z) (c : CollSeq) : Prop := {
  coll_convert : enc <> coll_enc c -> forall z, is_Some (ValueText enc (coll_enc c) z);
  coll_opp : forall x y, Z.sgn (xCmp c y x) = - Z.sgn (xCmp c x y);
  coll_trans : forall x y z, xCmp c x y <= 0 -> xCmp c y z <= 0 -> xCmp c x z <= 0;
}.

Lemma sgn_compare x y : Z.sgn y = - Z.sgn x -> (y ?= 0) = CompOpp (x ?= 0).
Proof. intros H. destruct (Z.compare_spec x 0), (Z.compare_spec y 0); done || lia. Qed.

Lemma text_compare_order ValueText enc pColl :
  match pColl with Some c => coll_ok ValueText enc c | None => True end ->
  exists order, (forall x y, text_compare ValueText enc pColl x y = Some (order x y)) /\
    (forall x y, order y x = CompOpp (order x y)) /\
    (forall x y z, order x y <> Gt -> order y z <> Gt -> order x z <> Gt).
Proof.
  intros H. destruct pColl as [c|]; cbn [text_compare].
  - destruct H as [Hc Ho Ht].
    exists (fun x y => let conv z := if enc =? coll_enc c then z else default [] (ValueText enc (coll_enc c) z) in
                       (xCmp c (conv x) (conv y) ?= 0)). cbv zeta. split_and!.
    + intros x y. unfold vdbeCompareMemString. destruct (Z.eqb_spec enc (coll_enc c)) as [|Hn]; [done|].
      destruct (Hc Hn x) as [v1 ->], (Hc Hn y) as [v2 ->]. done.
    + intros x y. by apply sgn_compare.
    + intros x y z. rewrite !Z.compare_gt_iff, !Z.nlt_ge. apply Ht.
  - exists bytes_compare. split_and!; [done|intros; apply bytes_compare_opp|intros; by eapply bytes_compare_trans].
Qed.

Lemma value_compare_order text order : (forall x y, text x y = Some (order x y)) ->
  (forall x y, order y x = CompOpp (order x y)) ->
  (forall x y z, order x y <> Gt -> order y z <> Gt -> order x z <> Gt) ->
  exists vorder, (forall a b, value_compare text a b = Some (vorder a b)) /\
    (forall a b, vorder b a = CompOpp (vorder a b)) /\
    (forall a b c, vorder a b <> Gt -> vorder b c <> Gt -> vorder a c <> Gt).
Proof.
  intros Ht Ho Htr. exists (fun a b => default Eq (value_compare text a b)). split_and!.
  - intros [] []; cbn [value_compare]; rewrite ?Ht; done.
  - intros [|x|x|x] [|y|y|y]; cbn [value_compare]; rewrite ?Ht; cbn; try done;
      first [apply Z.compare_antisym|apply Ho|apply bytes_compare_opp].
  - intros [|x|x|x] [|y|y|y] [|z|z|z]; cbn [value_compare]; rewrite ?Ht; cbn; try done.
    + rewrite !Z.compare_gt_iff. lia.
    + apply Htr.
    + apply bytes_compare_trans.
Qed.

(** * Theorem *)

(** C39.  [sqlite3MemCompare] orders all values: NULLs are equal and come
    first, then numbers by their exact values, integers and doubles together,
    with or without a wide [long double]; then texts by the collation; then
    blobs by their bytes.  The order is total and transitive when the
    collation is, and without a collation only equal values compare equal. *)
Theorem MemCompare_orders wide ValueText enc pColl a b c :
  comparable a -> comparable b -> comparable c ->
  match pColl with Some cs => coll_ok ValueText enc cs | None => True end ->
  let cmp x y := sqlite3MemCompare wide ValueText enc x y pColl in
  exists ab ba bc ac, cmp a b = Some ab /\ cmp b a = Some ba /\ cmp b c = Some bc /\ cmp a c = Some ac /\
    value_compare (text_compare ValueText enc pColl) (value_of a) (value_of b) = Some (ab ?= 0) /\
    Z.sgn ba = - Z.sgn ab /\
    (ab <= 0 -> bc <= 0 -> ac <= 0) /\
    (pColl = None -> (ab = 0 <-> value_of a = value_of b)).
Proof.
  intros Ha Hb Hc Hcoll cmp. destruct (text_compare_order ValueText enc pColl Hcoll) as (order & Ht & Ho & Htr).
  destruct (value_compare_order _ _ Ht Ho Htr) as (v & Hv & Hvo & Hvt).
  assert (Hcmp : forall x y, comparable x -> comparable y -> exists r, cmp x y = Some r /\ (r ?= 0) = v (value_of x) (value_of y)).
  { intros x y Hx Hy. by apply MemCompare_spec. }
  destruct (Hcmp a b Ha Hb) as (ab & Eab & Vab), (Hcmp b a Hb Ha) as (ba & Eba & Vba),
    (Hcmp b c Hb Hc) as (bc & Ebc & Vbc), (Hcmp a c Ha Hc) as (ac & Eac & Vac).
  exists ab, ba, bc, ac. split_and!; try done.
  - by rewrite Hv, Vab.
  - rewrite Hvo, <- Vab in Vba. destruct (Z.compare_spec ab 0), (Z.compare_spec ba 0); cbn in Vba; done || lia.
  - specialize (Hvt (value_of a) (value_of b) (value_of c)). rewrite <- Vab, <- Vbc, <- Vac, !Z.compare_gt_iff in Hvt. lia.
  - intros ->. rewrite <- Z.compare_eq_iff, Vab. specialize (Hv (value_of a) (value_of b)).
    split; [intros E; rewrite E in Hv|intros E; rewrite E in *].
    + destruct (value_of a), (value_of b); cbn [value_compare text_compare] in Hv; try done; injection Hv as Hv; f_equal;
        first [by apply Z.compare_eq_iff|by apply bytes_compare_eq].
    + destruct (value_of b); cbn [value_compare text_compare] in Hv; injection Hv as <-; try done;
        first [apply Z.compare_refl|apply bytes_compare_refl].
Qed.

(** A collation by length, for texts of the encoding 2. *)
Definition by_length : CollSeq := {| coll_enc := 2; xCmp := fun x y => zlen x - zlen y |}.

Lemma by_length_ok : coll_ok (fun _ _ z => Some z) 1 by_length.
Proof. split; cbn; [by eexists|lia|lia]. Qed.

Lemma MemCompare_orders_witness :
  sqlite3MemCompare false (fun _ _ z => Some z) 1 (MInt false (2 ^ 53 + 1)) (MReal 0x4340000000000000) (Some by_length) = Some 1 /\
  sqlite3MemCompare false (fun _ _ z => Some z) 1 (MReal 0x4340000000000000) (MInt false (2 ^ 53 + 1)) (Some by_length) = Some (- 1) /\
  Z.sgn (- 1) = - Z.sgn 1.
Proof.
  destruct (MemCompare_orders false (fun _ _ z => Some z) 1 (Some by_length) (MInt false (2 ^ 53 + 1)) (MReal 0x4340000000000000)
    (MData true [104; 105] None)) as (ab & ba & bc & ac & E1 & E2 & _ & _ & _ & Hs & _).
  - split; [cbn; lia|done].
  - split; [cbn; lia|vm_compute; reflexivity].
  - split; [|done]. cbn [mem_ok]. split; [apply (bool_decide_unpack _); exact I|vm_compute; split; discriminate].
  - apply by_length_ok.
  - vm_compute in E1, E2. injection E1 as <-. injection E2 as <-. split; [vm_compute; reflexivity|]. split; [vm_compute; reflexivity|exact Hs].
Defined.
