(* ===== verification/RecordCompare.v ===== *)
(** Comparing an encoded record with an unpacked one (vdbeaux.c):
    [sqlite3VdbeRecordCompareWithSkip], its two fast versions, and the choice
    between them ([sqlite3VdbeFindCompare]). *)
From S2P Require Import Prelude.
From S2P Require Import Bits.
From S2P Require Import Varint.
From S2P Require Import Vfs.
From S2P Require Import Mem.
From S2P Require Import MakeRecord.
From S2P Require Import Compare.
Open Scope Z_scope.

Definition KEYINFO_ORDER_DESC : Z := 0x01.
Definition KEYINFO_ORDER_BIGNULL : Z := 0x02.

Record KeyInfo := {
  ki_enc : Z;
  nAllField : Z;
  aSortFlags : list Z;
  aColl : list (option CollSeq);
}.

(** The union [u], with [n]: a copy of the first value. *)
Inductive FirstValue := FirstNone | FirstInt (i : Z) | FirstText (z : list Z).

Record UnpackedRecord := {
  pKeyInfo : KeyInfo;
  aMem : list Mem;
  ur_u : FirstValue;
  nField : Z;
  default_rc : Z;
  errCode : Z;
  r1 : Z;
  r2 : Z;
  eqSeen : Z;
}.

Definition set_errCode (p : UnpackedRecord) (e : Z) : UnpackedRecord :=
  {| pKeyInfo := pKeyInfo p; aMem := aMem p; ur_u := ur_u p; nField := nField p; default_rc := default_rc p;
     errCode := e; r1 := r1 p; r2 := r2 p; eqSeen := eqSeen p |}.
Definition set_eqSeen (p : UnpackedRecord) : UnpackedRecord :=
  {| pKeyInfo := pKeyInfo p; aMem := aMem p; ur_u := ur_u p; nField := nField p; default_rc := default_rc p;
     errCode := errCode p; r1 := r1 p; r2 := r2 p; eqSeen := 1 |}.
Definition set_first (p : UnpackedRecord) (a b : Z) (u : FirstValue) : UnpackedRecord :=
  {| pKeyInfo := pKeyInfo p; aMem := aMem p; ur_u := u; nField := nField p; default_rc := default_rc p;
     errCode := errCode p; r1 := a; r2 := b; eqSeen := eqSeen p |}.

Definition vdbeRecordDecodeInt (serial_type : Z) (buf : list Z) (o : Z) : option Z :=
  if (serial_type =? 0) || (serial_type =? 1) then a ← buf.[o]; Some (i8 a)
  else if serial_type =? 2 then TWO_BYTE_INT buf o
  else if serial_type =? 3 then THREE_BYTE_INT buf o
  else if serial_type =? 4 then y ← FOUR_BYTE_UINT buf o; Some (i32 y)
  else if serial_type =? 5 then
    x ← FOUR_BYTE_UINT buf (o + 2);
    y ← TWO_BYTE_INT buf o;
    Some (x + 2 ^ 32 * y)
  else if serial_type =? 6 then
    x ← FOUR_BYTE_UINT buf o;
    y ← FOUR_BYTE_UINT buf (o + 4);
    Some (i64 (Z.lor (u64 (Z.shiftl x 32)) y))
  else Some (serial_type - 8).

(** [mem1.u.r] after reading a double; any NaN when it is one. *)
Definition read_real (m : Mem) : Z := match m with MReal r => r | _ => 0x7ff8000000000000 end.

(** One field: the result, the serial type and the error code, or
    corruption. *)
Inductive FieldResult := FieldRc (rc serial_type err : Z) | FieldCorrupt.

Section compare.
Context (wide : bool) (ValueText : Z -> Z -> list Z -> option (list Z)).

Definition compare_int (aKey1 : list Z) (d1 idx1 i err : Z) : option FieldResult :=
  serial_type ← aKey1.[idx1];
  if serial_type >=? 10 then Some (FieldRc (if serial_type =? 10 then - 1 else 1) serial_type err)
  else if serial_type =? 0 then Some (FieldRc (- 1) serial_type err)
  else if serial_type =? 7 then
    m ← sqlite3VdbeSerialGet aKey1 d1 serial_type;
    c ← sqlite3IntFloatCompare wide i (read_real m);
    Some (FieldRc (- c) serial_type err)
  else
    lhs ← vdbeRecordDecodeInt serial_type aKey1 d1;
    Some (FieldRc (if lhs <? i then - 1 else if lhs >? i then 1 else 0) serial_type err).

Definition compare_real (aKey1 : list Z) (d1 idx1 r err : Z) : option FieldResult :=
  serial_type ← aKey1.[idx1];
  if serial_type >=? 10 then Some (FieldRc (if serial_type =? 10 then - 1 else 1) serial_type err)
  else if serial_type =? 0 then Some (FieldRc (- 1) serial_type err)
  else
    m ← sqlite3VdbeSerialGet aKey1 d1 serial_type;
    if serial_type =? 7 then
      let l := read_real m in
      Some (FieldRc (if double_lt l r then - 1 else if double_lt r l then 1 else 0) serial_type err)
    else
      match m with
      | MInt _ i => c ← sqlite3IntFloatCompare wide i r; Some (FieldRc c serial_type err)
      | _ => None
      end.

Definition compare_text (info : KeyInfo) (aKey1 : list Z) (nKey1 i d1 idx1 : Z) (z : list Z) (err : Z) : option FieldResult :=
  '(_, serial_type) ← getVarint32 (drop (Z.to_nat idx1) aKey1);
  if serial_type <? 12 then Some (FieldRc (- 1) serial_type err)
  else if negb (Z.odd serial_type) then Some (FieldRc 1 serial_type err)
  else
    let n := u32 (serial_type - 12) / 2 in
    if (u32 (d1 + n) >? nKey1) || (nAllField info <=? i) then Some FieldCorrupt
    else
      z1 ← mem_read aKey1 d1 n;
      coll ← aColl info !! Z.to_nat i;
      match coll with
      | Some c =>
          match vdbeCompareMemString ValueText (ki_enc info) z1 z c with
          | Some rc => Some (FieldRc rc serial_type err)
          | None => Some (FieldRc 0 serial_type SQLITE_NOMEM)
          end
      | None => rc ← bytes_cmp z1 z; Some (FieldRc rc serial_type err)
      end.

Definition compare_blob (aKey1 : list Z) (nKey1 d1 idx1 : Z) (z : list Z) (zero : option Z) (err : Z) : option FieldResult :=
  '(_, serial_type) ← getVarint32 (drop (Z.to_nat idx1) aKey1);
  if (serial_type <? 12) || Z.odd serial_type then Some (FieldRc (- 1) serial_type err)
  else
    let nStr := u32 (serial_type - 12) / 2 in
    if u32 (d1 + nStr) >? nKey1 then Some FieldCorrupt
    else
      z1 ← mem_read aKey1 d1 nStr;
      match zero with
      | Some nZero => Some (FieldRc (if negb (isAllZero z1) then 1 else nStr - nZero) serial_type err)
      | None => rc ← bytes_cmp z1 z; Some (FieldRc rc serial_type err)
      end.

Definition compare_null (aKey1 : list Z) (idx1 err : Z) : option FieldResult :=
  serial_type ← aKey1.[idx1];
  Some (FieldRc (if negb (serial_type =? 0) && negb (serial_type =? 10) then 1 else 0) serial_type err).

Definition compare_field (info : KeyInfo) (aKey1 : list Z) (nKey1 i d1 idx1 : Z) (pRhs : Mem) (err : Z) : option FieldResult :=
  match pRhs with
  | MInt _ v => compare_int aKey1 d1 idx1 v err
  | MReal r => compare_real aKey1 d1 idx1 r err
  | MData true z _ => compare_text info aKey1 nKey1 i d1 idx1 z err
  | MData false z zero => compare_blob aKey1 nKey1 d1 idx1 z zero err
  | MNull _ => compare_null aKey1 idx1 err
  end.

(** The result under the sort order of the column. *)
Definition sort_rc (sortFlags rc serial_type : Z) (pRhs : Mem) : Z :=
  let isNull := (serial_type =? 0) || match pRhs with MNull _ => true | _ => false end in
  if negb (sortFlags =? 0) then
    if (Z.land sortFlags KEYINFO_ORDER_BIGNULL =? 0)
       || negb (Z.land sortFlags KEYINFO_ORDER_DESC =? (if isNull then 1 else 0)) then - rc
    else rc
  else rc.

(** The loop over the fields, [n] of them after this one. *)
Fixpoint compare_loop (n : nat) (nKey1 : Z) (aKey1 : list Z) (szHdr1 i d1 idx1 : Z) (p : UnpackedRecord)
    : option (Z * UnpackedRecord) :=
  pRhs ← aMem p !! Z.to_nat i;
  f ← compare_field (pKeyInfo p) aKey1 nKey1 i d1 idx1 pRhs (errCode p);
  match f with
  | FieldCorrupt => Some (0, set_errCode p SQLITE_CORRUPT)
  | FieldRc rc serial_type err =>
      let p := set_errCode p err in
      if negb (rc =? 0) then
        sortFlags ← (aSortFlags (pKeyInfo p)).[i];
        Some (sort_rc sortFlags rc serial_type pRhs, p)
      else
        match n with
        | O => Some (default_rc p, set_eqSeen p)
        | S n =>
            len ← sqlite3VdbeSerialTypeLen serial_type;
            let d1 := u32 (d1 + len) in
            if d1 >? nKey1 then Some (default_rc p, set_eqSeen p)
            else
              let idx1 := u32 (idx1 + sqlite3VarintLen serial_type) in
              if idx1 >=? szHdr1 then Some (0, set_errCode p SQLITE_CORRUPT)
              else compare_loop n nKey1 aKey1 szHdr1 (i + 1) d1 idx1 p
        end
  end.

Definition sqlite3VdbeRecordCompareWithSkip (nKey1 : Z) (aKey1 : list Z) (pPKey2 : UnpackedRecord) (bSkip : bool)
    : option (Z * UnpackedRecord) :=
  '(szHdr1, idx1, d1, i) ←
    (if bSkip then
       s1 ← aKey1.[1];
       '(idx1, s1) ← (if s1 <? 0x80 then Some (2, s1)
                      else '(k, s1) ← sqlite3GetVarint32 (drop 1 aKey1); Some (1 + k, s1));
       szHdr1 ← aKey1.[0];
       len ← sqlite3VdbeSerialTypeLen s1;
       Some (szHdr1, idx1, u32 (szHdr1 + len), 1)
     else
       szHdr1 ← aKey1.[0];
       '(idx1, szHdr1) ← (if szHdr1 <? 0x80 then Some (1, szHdr1) else sqlite3GetVarint32 aKey1);
       Some (szHdr1, idx1, szHdr1, 0));
  if d1 >? nKey1 then Some (0, set_errCode pPKey2 SQLITE_CORRUPT)
  else compare_loop (Z.to_nat (nField pPKey2 - i - 1)) nKey1 aKey1 szHdr1 i d1 idx1 pPKey2.

Definition sqlite3VdbeRecordCompare (nKey1 : Z) (aKey1 : list Z) (pPKey2 : UnpackedRecord) : option (Z * UnpackedRecord) :=
  sqlite3VdbeRecordCompareWithSkip nKey1 aKey1 pPKey2 false.

(** The trailing fields, when the first ones are equal. *)
Definition compare_rest (nKey1 : Z) (aKey1 : list Z) (pPKey2 : UnpackedRecord) : option (Z * UnpackedRecord) :=
  if nField pPKey2 >? 1 then sqlite3VdbeRecordCompareWithSkip nKey1 aKey1 pPKey2 true
  else Some (default_rc pPKey2, set_eqSeen pPKey2).

Definition vdbeRecordCompareInt (nKey1 : Z) (aKey1 : list Z) (pPKey2 : UnpackedRecord) : option (Z * UnpackedRecord) :=
  b ← aKey1.[0];
  serial_type ← aKey1.[1];
  if (1 <=? serial_type) && (serial_type <=? 6) || (serial_type =? 8) || (serial_type =? 9) then
    lhs ← vdbeRecordDecodeInt serial_type aKey1 (Z.land b 0x3F);
    match ur_u pPKey2 with
    | FirstInt v =>
        if v >? lhs then Some (r1 pPKey2, pPKey2)
        else if v <? lhs then Some (r2 pPKey2, pPKey2)
        else compare_rest nKey1 aKey1 pPKey2
    | _ => None
    end
  else sqlite3VdbeRecordCompare nKey1 aKey1 pPKey2.

Definition vdbeRecordCompareString (nKey1 : Z) (aKey1 : list Z) (pPKey2 : UnpackedRecord) : option (Z * UnpackedRecord) :=
  b ← aKey1.[1];
  serial_type ← (if i8 b <? 0 then '(_, t) ← sqlite3GetVarint32 (drop 1 aKey1); Some (i32 t) else Some (i8 b));
  if serial_type <? 12 then Some (r1 pPKey2, pPKey2)
  else if negb (Z.odd serial_type) then Some (r2 pPKey2, pPKey2)
  else
    szHdr ← aKey1.[0];
    let nStr := (serial_type - 12) / 2 in
    if szHdr + nStr >? nKey1 then Some (0, set_errCode pPKey2 SQLITE_CORRUPT)
    else
      match ur_u pPKey2 with
      | FirstText z =>
          z1 ← mem_read aKey1 szHdr nStr;
          res ← bytes_cmp z1 z;
          if res >? 0 then Some (r2 pPKey2, pPKey2)
          else if res <? 0 then Some (r1 pPKey2, pPKey2)
          else compare_rest nKey1 aKey1 pPKey2
      | _ => None
      end.

(** The functions [sqlite3VdbeFindCompare] chooses from. *)
Inductive RecordCompare := CompareGeneric | CompareInt | CompareString.

Definition run_compare (f : RecordCompare) : Z -> list Z -> UnpackedRecord -> option (Z * UnpackedRecord) :=
  match f with
  | CompareGeneric => sqlite3VdbeRecordCompare
  | CompareInt => vdbeRecordCompareInt
  | CompareString => vdbeRecordCompareString
  end.
End compare.

Definition sqlite3VdbeFindCompare (p : UnpackedRecord) : option (RecordCompare * UnpackedRecord) :=
  if nAllField (pKeyInfo p) <=? 13 then
    m ← aMem p !! 0%nat;
    sortFlags ← (aSortFlags (pKeyInfo p)).[0];
    if negb (sortFlags =? 0) && negb (Z.land sortFlags KEYINFO_ORDER_BIGNULL =? 0) then Some (CompareGeneric, p)
    else
      let '(a, b) := if negb (sortFlags =? 0) then (1, - 1) else (- 1, 1) in
      match m with
      | MInt false i => Some (CompareInt, set_first p a b (FirstInt i))
      | MData true z _ =>
          coll ← aColl (pKeyInfo p) !! 0%nat;
          match coll with
          | None => Some (CompareString, set_first p a b (FirstText z))
          | Some _ => Some (CompareGeneric, set_first p a b (ur_u p))
          end
      | _ => Some (CompareGeneric, set_first p a b (ur_u p))
      end
  else Some (CompareGeneric, p).

(** * The order of records *)

(** The order of one column: [KEYINFO_ORDER_BIGNULL] puts NULL last,
    [KEYINFO_ORDER_DESC] turns the order around. *)
Definition column_compare (sortFlags : Z) (text : list Z -> list Z -> option comparison) (a b : value) : option comparison :=
  c ← value_compare text a b;
  let c := if negb (Z.land sortFlags KEYINFO_ORDER_BIGNULL =? 0) then
             match a, b with VNull, _ | _, VNull => CompOpp c | _, _ => c end
           else c in
  Some (if negb (Z.land sortFlags KEYINFO_ORDER_DESC =? 0) then CompOpp c else c).

(** Columns one after the other, as long as both records have them. *)
Fixpoint key_compare (ValueText : Z -> Z -> list Z -> option (list Z)) (enc : Z) (flags : list Z) (colls : list (option CollSeq))
    (lhs rhs : list value) {struct lhs} : option comparison :=
  match lhs, rhs, flags, colls with
  | a :: lhs, b :: rhs, f :: flags, c :: colls =>
      r ← column_compare f (text_compare ValueText enc c) a b;
      match r with Eq => key_compare ValueText enc flags colls lhs rhs | _ => Some r end
  | _, _, _, _ => Some Eq
  end.

(** ** Reading the fields of a record *)

(** The values of a key: no NaN, and no serial type 10, which is used only
    between a virtual table and its update. *)
Definition key_field (m : Mem) : Prop :=
  mem_ok m /\ match m with MNull nochng => nochng = false | MReal r => IsNaN r = false | _ => True end.

(** An integer never becomes a NaN. *)
Lemma double_not_nan i : - 2 ^ 63 <= i < 2 ^ 63 -> IsNaN (double_of_i64 i) = false.
Proof.
  intros Hi. unfold double_of_i64. destruct (Z.eqb_spec (Z.abs i) 0) as [|Hz]; [done|]. cbv zeta.
  destruct (double_significand (Z.abs i)) as [He Hm]; [lia|]. set (e := Z.log2 (Z.abs i)) in *.
  set (m := if e <=? 52 then _ else _) in *. rewrite IsNaN_spec. apply andb_false_iff.
  destruct (decide (m = 2 ^ 53)) as [->|].
  - left. pose proof (double_parts (i <? 0) (e + 1024) 0 ltac:(lia) ltac:(lia)) as (E & _). cbv zeta in E.
    replace ((if i <? 0 then 2 ^ 63 else 0) + (e + 1023) * 2 ^ 52 + (2 ^ 53 - 2 ^ 52)) with
      ((if i <? 0 then 2 ^ 63 else 0) + (e + 1024) * 2 ^ 52 + 0) by lia.
    rewrite E. apply Z.eqb_neq. lia.
  - left. pose proof (double_parts (i <? 0) (e + 1023) (m - 2 ^ 52) ltac:(lia) ltac:(lia)) as (E & _). cbv zeta in E.
    rewrite E. apply Z.eqb_neq. lia.
Qed.

Lemma zget_byte (d : list Z) i x : bytes_ok d -> d.[i] = Some x -> byte_ok x.
Proof. by apply (Forall_zget byte_ok). Qed.

Lemma four_bytes_range buf o x : bytes_ok buf -> FOUR_BYTE_UINT buf o = Some x -> 0 <= x < 2 ^ 32.
Proof.
  intros Hb. unfold FOUR_BYTE_UINT.
  destruct (buf.[o]) as [a|] eqn:Ea, (buf.[o + 1]) as [b|] eqn:Eb, (buf.[o + 2]) as [c|] eqn:Ec, (buf.[o + 3]) as [d|] eqn:Ed;
    cbn [mbind option_bind]; try done.
  apply zget_byte in Ea, Eb, Ec, Ed; try done. intros [= <-].
  replace (Z.shiftl a 24) with (16777216 * a) by (rewrite Z.shiftl_mul_pow2; lia). rewrite or4 by done.
  unfold byte_ok in *. lia.
Qed.

(** [vdbeRecordDecodeInt] reads what [sqlite3VdbeSerialGet] reads. *)
Lemma decode_get t buf o i : 1 <= t <= 6 \/ 8 <= t <= 9 -> bytes_ok buf -> sqlite3VdbeSerialGet buf o t = Some (MInt false i) ->
  vdbeRecordDecodeInt t buf o = Some i.
Proof.
  intros Ht Hb. assert (Hcase : t = 1 \/ t = 2 \/ t = 3 \/ t = 4 \/ t = 5 \/ t = 6 \/ t = 8 \/ t = 9) by lia.
  unfold sqlite3VdbeSerialGet, vdbeRecordDecodeInt.
  destruct Hcase as [->|[->|[->|[->|[->|[->|[->| ->]]]]]]]; cbn [Z.eqb Pos.eqb orb].
  - destruct (buf.[o]); cbn [mbind option_bind]; [|done]. by intros [= <-].
  - destruct (TWO_BYTE_INT buf o); cbn [mbind option_bind]; [|done]. by intros [= <-].
  - destruct (THREE_BYTE_INT buf o); cbn [mbind option_bind]; [|done]. by intros [= <-].
  - unfold FOUR_BYTE_INT, FOUR_BYTE_UINT.
    destruct (buf.[o]) as [a|] eqn:Ea, (buf.[o + 1]) as [b|] eqn:Eb, (buf.[o + 2]) as [c|] eqn:Ec, (buf.[o + 3]) as [d|] eqn:Ed;
      cbn [mbind option_bind]; try done.
    apply zget_byte in Ea, Eb, Ec, Ed; try done. intros [= <-]. f_equal. rewrite or4 by done.
    replace (Z.shiftl a 24) with (16777216 * a) by (rewrite Z.shiftl_mul_pow2; lia). rewrite or4 by done.
    unfold byte_ok, i32, i8 in *. destruct (Z.ltb_spec a 128); Z.to_euclidean_division_equations; lia.
  - destruct (FOUR_BYTE_UINT buf (o + 2)); cbn [mbind option_bind]; [|done].
    destruct (TWO_BYTE_INT buf o); cbn [mbind option_bind]; [|done]. by intros [= <-].
  - unfold serialGet. destruct (FOUR_BYTE_UINT buf o) as [x|] eqn:Ex; cbn [mbind option_bind]; [|done].
    destruct (FOUR_BYTE_UINT buf (o + 4)) as [y|] eqn:Ey; cbn [mbind option_bind Z.eqb Pos.eqb]; [|done]. intros [= <-].
    apply four_bytes_range in Ex, Ey; try done. do 2 f_equal.
    assert (Eu : u64 (Z.shiftl x 32) = Z.shiftl x 32) by (apply u64_small; rewrite Z.shiftl_mul_pow2; lia).
    rewrite Eu, lor_disjoint_add by lia. rewrite Z.shiftl_mul_pow2, u64_small by lia. done.
  - by intros [= <-].
  - by intros [= <-].
Qed.

Section fields.
Context (fmt : Z).

(** What a field of a record holds. *)
Inductive field_kind (m : Mem) : Prop :=
  | kind_null : serial fmt m = 0 -> stored fmt m = MNull false -> field_kind m
  | kind_int i : stored fmt m = MInt false i -> 1 <= serial fmt m <= 6 \/ 8 <= serial fmt m <= 9 -> - 2 ^ 63 <= i < 2 ^ 63 ->
      field_kind m
  | kind_real r : stored fmt m = MReal r -> serial fmt m = 7 -> IsNaN r = false -> field_kind m
  | kind_data str z : stored fmt m = MData str z None -> content fmt m = z -> 12 <= serial fmt m < 2 ^ 32 ->
      Z.odd (serial fmt m) = str -> u32 (serial fmt m - 12) / 2 = zlen z -> field_kind m.

Lemma key_field_kind m : key_field m -> field_kind m.
Proof using.
  intros [Hm Hk]. destruct m as [nc|ir i|r|str z zero].
  - subst nc. by apply kind_null.
  - cbn [mem_ok] in Hm. pose proof (double_not_nan i Hm) as Hn.
    destruct (int_type_cases fmt i Hm) as [(E & Hi & _)|(k & t & E & _ & Hc)].
    + apply (kind_int _ i); cbn [stored serial]; rewrite ?E; cbn [fst];
        rewrite ?(proj2 (Z.eqb_neq (8 + i) 6)) by lia; cbn [andb]; done || lia.
    + assert (Ht : 1 <= t <= 6) by (destruct Hc as [X|[X|[X|[X|[X|X]]]]]; injection X as -> _; lia).
      destruct ((t =? 6) && ir) eqn:Ei.
      * apply (kind_real _ (double_of_i64 i)); cbn [stored serial]; rewrite ?E; cbn [fst]; rewrite ?Ei; try done.
        unfold real_value. by rewrite Hn.
      * apply (kind_int _ i); cbn [stored serial]; rewrite ?E; cbn [fst]; rewrite ?Ei; done || lia.
  - apply (kind_real _ r); try done. cbn [stored]. unfold real_value. by rewrite Hk.
  - destruct (serial_data fmt str z zero Hm) as (Hs & Ho & Hl). apply (kind_data _ str (z ++ zeros zero)); try done.
    rewrite Hl. unfold zeros. rewrite zlen_app, zlen_replicate. destruct Hm as (_ & H0 & _). lia.
Qed.

(** Where the code stands before the field [m]: at [idx] in the header, at [d] in
    the contents. *)
Record field_at (aKey : list Z) (idx d : Z) (m : Mem) : Prop := {
  fa_type : getVarint32 (drop (Z.to_nat idx) aKey) = Some (zlen (sqlite3PutVarint (serial fmt m)), serial fmt m);
  fa_byte : exists b, aKey.[idx] = Some b /\ (serial fmt m < 128 -> b = serial fmt m) /\ (128 <= serial fmt m -> 128 <= b);
  fa_content : mem_read aKey d (zlen (content fmt m)) = Some (content fmt m);
  fa_bytes : bytes_ok aKey;
  fa_d : 0 <= d;
  fa_len : zlen aKey < 2 ^ 31;
}.

Context (wide : bool) (ValueText : Z -> Z -> list Z -> option (list Z)).

(** The result of a field: its sign is the order of the values, or a
    conversion failed. *)
Definition field_result (m : Mem) (order : option comparison) (err : Z) (r : option FieldResult) : Prop :=
  exists rc st err', r = Some (FieldRc rc st err') /\ (rc = 0 -> st = serial fmt m) /\ (st = 0 <-> serial fmt m = 0) /\
    match order with Some c => (rc ?= 0) = c /\ err' = err | None => rc = 0 /\ err' <> 0 end.

Lemma field_result_some m c err rc st : (rc ?= 0) = c -> (rc = 0 -> st = serial fmt m) -> (st = 0 <-> serial fmt m = 0) ->
  field_result m (Some c) err (Some (FieldRc rc st err)).
Proof using. intros. by exists rc, st, err. Qed.

Section field.
Context (aKey : list Z) (idx d : Z) (m : Mem).
Hypotheses (Hat : field_at aKey idx d m) (Hm : key_field m).

(** The byte in the header is the type of small types. *)
Lemma type_byte : exists b, aKey.[idx] = Some b /\ (b < 128 -> b = serial fmt m) /\ (serial fmt m < 128 -> b = serial fmt m) /\ 0 <= b.
Proof using Hat.
  destruct (fa_byte _ _ _ _ Hat) as (b & E & H1 & H2). exists b. split; [done|].
  pose proof (Forall_zget byte_ok _ _ _ (fa_bytes _ _ _ _ Hat) E) as Hb. unfold byte_ok in Hb.
  destruct (Z.lt_ge_cases (serial fmt m) 128); split_and!; auto; lia.
Qed.

Lemma read_stored : sqlite3VdbeSerialGet aKey d (serial fmt m) = Some (stored fmt m).
Proof using Hat Hm. apply get_value; [by apply Hm|by eapply fa_content]. Qed.

Lemma compare_null_ok err nc text :
  field_result m (value_compare text (value_of (stored fmt m)) (value_of (MNull nc))) err (compare_null aKey idx err).
Proof using Hat Hm.
  destruct type_byte as (b & E & H1 & H2 & H3). unfold compare_null. rewrite E. cbn [mbind option_bind value_of].
  destruct (key_field_kind m Hm) as [Et Es|i Es Et _|r Es Et Hr|str z Es Ec Et _ _]; rewrite Es; cbn [value_of].
  - rewrite Et in *. rewrite H2 by lia. apply field_result_some; done || lia.
  - rewrite H2 by lia. rewrite (proj2 (Z.eqb_neq _ 0)), (proj2 (Z.eqb_neq _ 10)) by lia. by apply field_result_some.
  - rewrite H2, Et by lia. rewrite Hr. apply field_result_some; done || lia.
  - assert (b <> 0 /\ b <> 10) by (destruct (Z.lt_ge_cases b 128); [rewrite H1 by lia|]; lia).
    rewrite (proj2 (Z.eqb_neq b 0)), (proj2 (Z.eqb_neq b 10)) by lia. destruct str; apply field_result_some; done || lia.
Qed.

Lemma compare_int_ok err k v text : - 2 ^ 63 <= v < 2 ^ 63 ->
  field_result m (value_compare text (value_of (stored fmt m)) (value_of (MInt k v))) err (compare_int wide aKey d idx v err).
Proof using Hat Hm.
  intros Hv. destruct type_byte as (b & E & H1 & H2 & H3). unfold compare_int. rewrite E. cbn [mbind option_bind value_of].
  pose proof read_stored as Hget.
  destruct (key_field_kind m Hm) as [Et Es|i Es Et Hi|r Es Et Hr|str z Es Ec Et _ _]; rewrite Es in *; cbn [value_of].
  - rewrite Et in *. rewrite H2 by lia. apply field_result_some; done || lia.
  - rewrite H2 by lia. destruct (Z.geb_spec (serial fmt m) 10); [lia|].
    rewrite (proj2 (Z.eqb_neq _ 0)), (proj2 (Z.eqb_neq _ 7)) by lia.
    rewrite (decode_get _ _ _ i Et) by (done || eapply fa_bytes, Hat). cbn [mbind option_bind value_compare].
    apply field_result_some; [by rewrite Z.gtb_ltb, three_way, compare_unit|done|lia].
  - rewrite H2, Et in * by lia. cbn [Z.geb Z.compare Pos.compare Pos.compare_cont Z.eqb Pos.eqb]. rewrite Hget. cbn [mbind option_bind read_real].
    rewrite Hr. destruct (IntFloatCompare_exact wide v r Hr Hv) as (c & -> & Hc). cbn [mbind option_bind value_compare].
    apply field_result_some; [by apply compare_sub_opp|done|lia].
  - assert (10 < b) by (destruct (Z.lt_ge_cases b 128); [rewrite H1 by lia|]; lia).
    destruct (Z.geb_spec b 10); [|lia]. rewrite (proj2 (Z.eqb_neq b 10)) by lia.
    destruct str; apply field_result_some; done || lia.
Qed.

Lemma compare_real_ok err r text : IsNaN r = false ->
  field_result m (value_compare text (value_of (stored fmt m)) (value_of (MReal r))) err (compare_real wide aKey d idx r err).
Proof using Hat Hm.
  intros Hr. destruct type_byte as (b & E & H1 & H2 & H3). unfold compare_real. rewrite E. cbn [mbind option_bind value_of].
  rewrite Hr. pose proof read_stored as Hget.
  destruct (key_field_kind m Hm) as [Et Es|i Es Et Hi|l Es Et Hl|str z Es Ec Et _ _]; rewrite Es in *; cbn [value_of].
  - rewrite Et in *. rewrite H2 by lia. apply field_result_some; done || lia.
  - rewrite H2 by lia. destruct (Z.geb_spec (serial fmt m) 10); [lia|].
    rewrite (proj2 (Z.eqb_neq _ 0)), (proj2 (Z.eqb_neq _ 7)) by lia. rewrite Hget. cbn [mbind option_bind value_compare].
    destruct (IntFloatCompare_exact wide i r Hr Hi) as (c & -> & Hc). cbn [mbind option_bind].
    apply field_result_some; done || lia.
  - rewrite H2, Et in * by lia. cbn [Z.geb Z.compare Pos.compare Pos.compare_cont Z.eqb Pos.eqb]. rewrite Hget. cbn [mbind option_bind read_real].
    rewrite Hl. cbn [value_compare]. rewrite !double_lt_iff by done. apply field_result_some; [apply three_way|done|lia].
  - assert (10 < b) by (destruct (Z.lt_ge_cases b 128); [rewrite H1 by lia|]; lia).
    destruct (Z.geb_spec b 10); [|lia]. rewrite (proj2 (Z.eqb_neq b 10)) by lia.
    destruct str; apply field_result_some; done || lia.
Qed.

(** The bytes of a text or a blob. *)
Lemma data_bytes z : content fmt m = z -> mem_read aKey d (zlen z) = Some z /\ u32 (d + zlen z) <= zlen aKey /\ bytes_ok z.
Proof using Hat.
  intros <-. pose proof (fa_content _ _ _ _ Hat) as Hr. pose proof (mem_read_inv _ _ _ _ Hr) as (_ & Hl & _ & _).
  pose proof (fa_len _ _ _ _ Hat). pose proof (fa_d _ _ _ _ Hat). pose proof (zlen_nonneg (content fmt m)).
  split_and!; [done|rewrite u32_small by lia; lia|]. eapply mem_read_bytes; [eapply fa_bytes, Hat|done].
Qed.

Lemma compare_text_ok err info i coll z' : i < nAllField info -> aColl info !! Z.to_nat i = Some coll ->
  field_result m (value_compare (text_compare ValueText (ki_enc info) coll) (value_of (stored fmt m)) (VText z')) err
    (compare_text ValueText info aKey (zlen aKey) i d idx z' err).
Proof using Hat Hm.
  intros Hi Hcoll. unfold compare_text. rewrite (fa_type _ _ _ _ Hat). cbn [mbind option_bind].
  destruct (key_field_kind m Hm) as [Et Es|j Es Et _|r Es Et Hr|str z Es Ec Et Ho Hl]; rewrite Es; cbn [value_of].
  - rewrite Et. cbn [Z.ltb Z.compare]. apply field_result_some; done || lia.
  - rewrite (proj2 (Z.ltb_lt _ 12)) by lia. apply field_result_some; done || lia.
  - rewrite Hr, Et. cbn [Z.ltb Z.compare Pos.compare Pos.compare_cont]. apply field_result_some; done || lia.
  - rewrite (proj2 (Z.ltb_ge _ 12)), Ho, Hl by lia. destruct str; cbn [negb]; [|apply field_result_some; done || lia].
    destruct (data_bytes z Ec) as (Hr & Hd & Hb). rewrite Z.gtb_ltb, (proj2 (Z.ltb_ge _ _)), (proj2 (Z.leb_gt _ _)) by lia.
    cbn [orb]. rewrite Hr, Hcoll. cbn [mbind option_bind value_compare]. destruct coll as [c|]; cbn [text_compare].
    + destruct (vdbeCompareMemString ValueText (ki_enc info) z z' c) as [rc|]; cbn [mbind option_bind].
      * apply field_result_some; done || lia.
      * exists 0, (serial fmt m), SQLITE_NOMEM. done.
    + destruct (bytes_cmp_spec z z') as (rc & -> & Hrc). cbn [mbind option_bind]. apply field_result_some; done || lia.
Qed.

Lemma compare_blob_ok err z' zero text : zero_blob z' zero ->
  field_result m (value_compare text (value_of (stored fmt m)) (VBlob (z' ++ zeros zero))) err
    (compare_blob aKey (zlen aKey) d idx z' zero err).
Proof using Hat Hm.
  intros Hz. unfold compare_blob. rewrite (fa_type _ _ _ _ Hat). cbn [mbind option_bind].
  destruct (key_field_kind m Hm) as [Et Es|j Es Et _|r Es Et Hr|str z Es Ec Et Ho Hl]; rewrite Es; cbn [value_of].
  - rewrite Et. cbn [Z.ltb Z.compare orb]. apply field_result_some; done || lia.
  - rewrite (proj2 (Z.ltb_lt _ 12)) by lia. cbn [orb]. apply field_result_some; done || lia.
  - rewrite Hr, Et. cbn [Z.ltb Z.compare Pos.compare Pos.compare_cont orb]. apply field_result_some; done || lia.
  - rewrite (proj2 (Z.ltb_ge _ 12)), Ho, Hl by lia. cbn [orb]. destruct str; [apply field_result_some; done || lia|].
    destruct (data_bytes z Ec) as (Hr & Hd & Hb). rewrite Z.gtb_ltb, (proj2 (Z.ltb_ge _ _)) by lia.
    rewrite Hr. cbn [mbind option_bind value_compare]. rewrite (zero_blob_data z None), (zero_blob_data z' zero) by done.
    destruct zero as [n|]; cbn in Hz.
    + apply field_result_some; [|lia..]. destruct (isAllZero z) eqn:E; cbn [negb].
      * apply isAllZero_spec in E. rewrite E, compare_replicate, zlen_replicate. f_equal. lia.
      * by rewrite bytes_compare_opp, zeros_below by done.
    + destruct (bytes_cmp_spec z z') as (rc & -> & Hrc). cbn [mbind option_bind]. apply field_result_some; done || lia.
Qed.

Lemma compare_field_ok info i coll rhs err : comparable rhs -> i < nAllField info -> aColl info !! Z.to_nat i = Some coll ->
  field_result m (value_compare (text_compare ValueText (ki_enc info) coll) (value_of (stored fmt m)) (value_of rhs)) err
    (compare_field wide ValueText info aKey (zlen aKey) i d idx rhs err).
Proof using Hat Hm.
  intros [Hok Hc] Hi Hcoll. destruct rhs as [nc|k v|r|[] z zero]; cbn [compare_field].
  - apply compare_null_ok.
  - by apply compare_int_ok.
  - by apply compare_real_ok.
  - by apply compare_text_ok.
  - apply compare_blob_ok. tauto.
Qed.
End field.

(** ** The order of a column *)

Definition flags_ok (f : Z) : Prop := 0 <= f <= 3.

Lemma sort_rc_ok f rc st m rhs text c : flags_ok f -> rc <> 0 -> key_field m -> (st = 0 <-> serial fmt m = 0) ->
  comparable rhs -> value_compare text (value_of (stored fmt m)) (value_of rhs) = Some c -> (rc ?= 0) = c ->
  column_compare f text (value_of (stored fmt m)) (value_of rhs) = Some (sort_rc f rc st rhs ?= 0).
Proof using.
  intros Hf Hrc Hm Hst [_ Hrhs] Hv Hc. unfold column_compare. rewrite Hv. cbn [mbind option_bind].
  assert (Hopp : (- rc ?= 0) = CompOpp c) by (rewrite <- Hc; destruct (Z.compare_spec (- rc) 0), (Z.compare_spec rc 0); done || lia).
  assert (Hl : value_of (stored fmt m) = VNull <-> st = 0).
  { rewrite Hst. destruct (key_field_kind m Hm) as [Et Es|j Es Et _|r Es Et Hr|str z Es Ec Et Ho Hl]; rewrite Es; cbn [value_of].
    - done. - split; [done|lia]. - rewrite Hr. split; [done|lia]. - destruct str; (split; [done|lia]). }
  assert (Hr : value_of rhs = VNull <-> match rhs with MNull _ => True | _ => False end).
  { destruct rhs as [nc|k v|r|[] z zero]; cbn [value_of]; rewrite ?Hrhs; done. }
  unfold sort_rc. set (isnull := (st =? 0) || _).
  assert (Hnull : match value_of (stored fmt m), value_of rhs with VNull, _ | _, VNull => CompOpp c | _, _ => c end =
          if isnull then CompOpp c else c).
  { unfold isnull. destruct (Z.eqb_spec st 0) as [E|E]; cbn [orb].
    - apply Hl in E. by rewrite E.
    - destruct (value_of (stored fmt m)), rhs as [nc|k v|r|[] y zero]; try (by exfalso; apply E, Hl);
        cbn [value_of]; cbn [value_of] in Hr; rewrite ?Hrhs; done. }
  rewrite Hnull. assert (Hcases : f = 0 \/ f = 1 \/ f = 2 \/ f = 3) by (unfold flags_ok in Hf; lia).
  destruct Hcases as [->|[->|[->| ->]]], isnull; unfold KEYINFO_ORDER_BIGNULL, KEYINFO_ORDER_DESC;
    repeat match goal with |- context [Z.land ?a ?b] => let x := eval vm_compute in (Z.land a b) in change (Z.land a b) with x end;
    cbn -[CompOpp Z.compare Z.opp]; rewrite ?Hopp, ?Hc, ?CompOpp_involutive; done.
Qed.

(** ** Where the fields are *)

Lemma types_app a b : types fmt (a ++ b) = types fmt a ++ types fmt b.
Proof using. unfold types, hdr_bytes. by rewrite !fmap_app, concat_app. Qed.

Lemma contents_app a b : contents fmt (a ++ b) = contents fmt a ++ contents fmt b.
Proof using. unfold contents. by rewrite fmap_app, concat_app. Qed.

(** The first byte of a varint. *)
Lemma putVarint_first t : 0 <= t < 2 ^ 32 -> exists b l, sqlite3PutVarint t = b :: l /\ byte_ok b /\ (t < 128 -> b = t) /\ (128 <= t -> 128 <= b).
Proof using.
  intros Ht. pose proof (getVarint32_put t [] Ht ltac:(constructor)) as Hg. rewrite app_nil_r in Hg.
  pose proof (putVarint_bytes t ltac:(lia)) as Hb. destruct (sqlite3PutVarint t) as [|b l] eqn:E; [done|].
  apply Forall_cons_1 in Hb as [Hb _]. exists b, l. split_and!; [done|done| |].
  - intros Hl. rewrite varint_one in E by lia. by injection E.
  - intros Hl. unfold getVarint32 in Hg. rewrite zget_cons_0 in Hg. cbn [mbind option_bind] in Hg.
    destruct (Z.ltb_spec b 128) as [Hlt|]; [|done]. injection Hg as _ ->. lia.
Qed.

Section record.
Context (ms : list Mem).
Hypotheses (Hms : Forall key_field ms) (Hn : zlen ms <= 32767) (Hlen : zlen (record fmt ms) < 2 ^ 31).

Definition hdr : Z := header_size (zlen (types fmt ms)).
Definition idx_of (k : list Mem) : Z := zlen (sqlite3PutVarint hdr) + zlen (types fmt k).
Definition off_of (k : list Mem) : Z := hdr + zlen (contents fmt k).

Lemma fields_ok : Forall mem_ok ms.
Proof using Hms. eapply List.Forall_impl; [|exact Hms]. by intros m [? _]. Qed.

Lemma hdr_ok : hdr = zlen (sqlite3PutVarint hdr) + zlen (types fmt ms) /\ 0 < hdr < 2 ^ 28 /\ bytes_ok (sqlite3PutVarint hdr).
Proof using Hms Hn.
  pose proof fields_ok as Hok. pose proof (types_size fmt ms Hok). pose proof (zlen_nonneg (types fmt ms)).
  destruct (header_size_ok (zlen (types fmt ms))) as [Eh Hh]; [lia|]. fold hdr in *. rewrite varint_size in Eh by lia.
  split_and!; [lia|lia|lia|]. apply putVarint_bytes. lia.
Qed.

Lemma record_len : zlen (record fmt ms) = hdr + zlen (contents fmt ms).
Proof using Hms Hn. unfold record. fold hdr. rewrite !zlen_app. destruct hdr_ok. lia. Qed.

Lemma record_bytes : bytes_ok (record fmt ms).
Proof using Hms Hn.
  unfold record. fold hdr. destruct hdr_ok as (_ & _ & Hb). pose proof fields_ok as Hok.
  apply Forall_app_2; [done|]. apply Forall_app_2; [by apply types_bytes|by apply contents_bytes].
Qed.

Lemma record_field pre m post : ms = pre ++ m :: post ->
  field_at (record fmt ms) (idx_of pre) (off_of pre) m /\ idx_of pre < hdr /\
  idx_of (pre ++ [m]) = idx_of pre + sqlite3VarintLen (serial fmt m) /\
  off_of (pre ++ [m]) = off_of pre + zlen (content fmt m) /\
  off_of (pre ++ [m]) <= zlen (record fmt ms) /\ idx_of (pre ++ [m]) <= hdr /\ 0 <= idx_of pre /\
  (idx_of (pre ++ [m]) < hdr <-> post <> []).
Proof using Hms Hn Hlen.
  intros E. destruct hdr_ok as (Eh & Hh & Hhb). pose proof fields_ok as Hok. pose proof record_bytes as Hrb. pose proof record_len as El.
  set (A := sqlite3PutVarint hdr) in *. assert (Hm : mem_ok m) by (rewrite E in Hok; by apply Forall_app in Hok as [_ [? _]%Forall_cons_1]).
  pose proof (serial_range fmt m Hm) as Hs. set (h := sqlite3PutVarint (serial fmt m)).
  assert (Et : types fmt ms = types fmt pre ++ h ++ types fmt post).
  { rewrite E, types_app. do 1 f_equal. }
  assert (Ec : contents fmt ms = contents fmt pre ++ content fmt m ++ contents fmt post).
  { rewrite E, contents_app. do 1 f_equal. }
  destruct (putVarint_first (serial fmt m) Hs) as (b & l & Eb & Hb & Hb1 & Hb2). fold h in Eb.
  assert (Erec : record fmt ms = (A ++ types fmt pre) ++ h ++ types fmt post ++ contents fmt ms).
  { unfold record. fold hdr. fold A. rewrite Et. by rewrite <- !app_assoc. }
  assert (Erec2 : record fmt ms = (A ++ types fmt ms ++ contents fmt pre) ++ content fmt m ++ contents fmt post).
  { unfold record. fold hdr. fold A. rewrite Ec. by rewrite <- !app_assoc. }
  pose proof (zlen_nonneg A). pose proof (zlen_nonneg (types fmt pre)). pose proof (zlen_nonneg (contents fmt pre)).
  pose proof (zlen_nonneg (types fmt post)). pose proof (zlen_nonneg (contents fmt post)). pose proof (zlen_nonneg (content fmt m)).
  pose proof (varint_size (serial fmt m) Hs) as Hv. fold h in Hv.
  assert (Hh1 : 1 <= zlen h) by (rewrite Eb, zlen_cons; pose proof (zlen_nonneg l); lia).
  rewrite Et, !zlen_app in Eh. rewrite Ec, !zlen_app in El.
  assert (Ei : idx_of pre = zlen (A ++ types fmt pre)) by (unfold idx_of; by rewrite zlen_app).
  assert (Eo : off_of pre = zlen (A ++ types fmt ms ++ contents fmt pre)) by (unfold off_of; rewrite Et, !zlen_app; lia).
  assert (Ei2 : idx_of (pre ++ [m]) = idx_of pre + zlen h).
  { unfold idx_of. rewrite types_app, zlen_app. unfold types at 2, hdr_bytes. cbn [fmap list_fmap concat]. fold h. rewrite app_nil_r. lia. }
  assert (Eo2 : off_of (pre ++ [m]) = off_of pre + zlen (content fmt m)).
  { unfold off_of. rewrite contents_app, zlen_app. unfold contents at 2. cbn [fmap list_fmap concat]. rewrite app_nil_r. lia. }
  unfold idx_of, off_of in Ei2, Eo2 |- *. fold A in Ei2 |- *.
  split_and!; try lia.
  - split; [| | |done|unfold off_of in *; lia|done].
    + unfold idx_of in Ei. fold A in Ei. rewrite Ei, Erec, drop_zlen. apply getVarint32_put; [done|].
      rewrite Erec in Hrb. by apply Forall_app in Hrb as [_ [_ ?]%Forall_app].
    + exists b. split; [|done]. unfold idx_of in Ei. fold A in Ei. rewrite Ei, Erec, zget_app_r, Z.sub_diag, zget_app_l by lia.
      by rewrite Eb, zget_cons_0.
    + unfold off_of in Eo. rewrite Eo, Erec2. apply mem_read_mid.
  - split; [intros Hlt ->; change (types fmt []) with (@nil Z) in *; change (zlen (@nil Z)) with 0 in *; lia|].
    intros Hp. destruct post as [|m' post]; [done|].
    assert (1 <= zlen (types fmt (m' :: post))); [|lia].
    change (types fmt (m' :: post)) with (sqlite3PutVarint (serial fmt m') ++ types fmt post). rewrite zlen_app.
    assert (Hm' : mem_ok m') by (rewrite E in Hok; apply Forall_app in Hok as [_ [_ [? _]%Forall_cons_1]%Forall_cons_1]; done).
    destruct (putVarint_first (serial fmt m') (serial_range fmt m' Hm')) as (b' & l' & -> & _).
    rewrite zlen_cons. pose proof (zlen_nonneg l'). pose proof (zlen_nonneg (types fmt post)). lia.
Qed.

(** ** The loop *)

(** A key to compare with. *)
Record unpacked_ok (p : UnpackedRecord) : Prop := {
  up_nField : 1 <= nField p <= zlen (aMem p);
  up_all : nField p <= nAllField (pKeyInfo p);
  up_flags : nField p <= zlen (aSortFlags (pKeyInfo p));
  up_coll : nField p <= zlen (aColl (pKeyInfo p));
  up_flags_ok : Forall flags_ok (aSortFlags (pKeyInfo p));
  up_values : Forall comparable (aMem p);
}.

(** The result of a comparison: the order of the keys; the default when they
    agree; corruption when the record has too few fields; an error when a
    conversion failed. *)
Definition outcome (p : UnpackedRecord) (order : option comparison) (rc : Z) (p' : UnpackedRecord) : Prop :=
  match order with
  | None => errCode p' <> 0
  | Some Eq =>
      if nField p <=? zlen ms then rc = default_rc p /\ p' = set_eqSeen p else rc = 0 /\ p' = set_errCode p SQLITE_CORRUPT
  | Some c => (rc ?= 0) = c /\ p' = p
  end.

(** The order of the columns from [k] on. *)
Definition order_from (p : UnpackedRecord) (k : nat) : option comparison :=
  key_compare ValueText (ki_enc (pKeyInfo p)) (drop k (aSortFlags (pKeyInfo p))) (drop k (aColl (pKeyInfo p)))
    (drop k ((fun m => value_of (stored fmt m)) <$> ms)) (drop k (value_of <$> take (Z.to_nat (nField p)) (aMem p))).

Lemma set_errCode_same p : set_errCode p (errCode p) = p.
Proof using. by destruct p. Qed.

Lemma Z2len (l : list Mem) : Z.to_nat (zlen l) = length l.
Proof using. unfold zlen. lia. Qed.

(** One step of the order. *)
Lemma order_step p k m rhs f coll : ms !! k = Some m -> aMem p !! k = Some rhs -> aSortFlags (pKeyInfo p) !! k = Some f ->
  aColl (pKeyInfo p) !! k = Some coll -> Z.of_nat k < nField p ->
  order_from p k = (r ← column_compare f (text_compare ValueText (ki_enc (pKeyInfo p)) coll) (value_of (stored fmt m)) (value_of rhs);
                    match r with Eq => order_from p (S k) | _ => Some r end).
Proof using.
  intros Em Er Ef Ec Hk. unfold order_from. rewrite (drop_S _ f k Ef), (drop_S _ coll k Ec).
  rewrite (drop_S (_ <$> ms) (value_of (stored fmt m)) k) by (by rewrite list_lookup_fmap, Em).
  rewrite (drop_S (_ <$> take _ _) (value_of rhs) k); [done|]. rewrite list_lookup_fmap, lookup_take_lt by lia. by rewrite Er.
Qed.

Lemma order_end p k : (nField p <= Z.of_nat k \/ zlen ms <= Z.of_nat k) -> order_from p k = Some Eq.
Proof using.
  intros Hk. unfold order_from. destruct Hk as [Hk|Hk].
  - rewrite (drop_ge (_ <$> take _ _)) by (rewrite length_fmap, length_take; lia).
    by destruct (drop k (_ <$> ms)).
  - rewrite (drop_ge (_ <$> ms)) by (rewrite length_fmap; unfold zlen in Hk; lia). done.
Qed.

(** What is expected of the loop from the field [k] on. *)
Definition loop_result (p : UnpackedRecord) (k : nat) (r : option (Z * UnpackedRecord)) : Prop :=
  exists rc p', r = Some (rc, p') /\ (errCode p <> 0 -> errCode p' <> 0) /\
    (errCode p = 0 -> outcome p (order_from p k) rc p').

(** After a field of type [st] that is equal. *)
Definition next_field (n : nat) (st i d1 idx1 : Z) (p : UnpackedRecord) : option (Z * UnpackedRecord) :=
  match n with
  | O => Some (default_rc p, set_eqSeen p)
  | S n =>
      len ← sqlite3VdbeSerialTypeLen st;
      let d1 := u32 (d1 + len) in
      if d1 >? zlen (record fmt ms) then Some (default_rc p, set_eqSeen p)
      else
        let idx1 := u32 (idx1 + sqlite3VarintLen st) in
        if idx1 >=? hdr then Some (0, set_errCode p SQLITE_CORRUPT)
        else compare_loop wide ValueText n (zlen (record fmt ms)) (record fmt ms) hdr (i + 1) d1 idx1 p
  end.

Lemma unpacked_err p e : unpacked_ok p -> unpacked_ok (set_errCode p e).
Proof using. by intros []. Qed.

Lemma compare_step n p pre m post : ms = pre ++ m :: post -> unpacked_ok p -> zlen pre + Z.of_nat n + 1 = nField p ->
  (forall e, loop_result (set_errCode p e) (S (length pre))
               (next_field n (serial fmt m) (zlen pre) (off_of pre) (idx_of pre) (set_errCode p e))) ->
  loop_result p (length pre)
    (compare_loop wide ValueText n (zlen (record fmt ms)) (record fmt ms) hdr (zlen pre) (off_of pre) (idx_of pre) p).
Proof using Hms Hn Hlen.
  intros E Hp Hk Hnext. destruct (record_field pre m post E) as (Hat & _).
  assert (Em : ms !! length pre = Some m) by (rewrite E; by apply list_lookup_middle).
  assert (Hm : key_field m) by (by eapply Forall_lookup_1).
  pose proof (zlen_nonneg pre) as Hpre. pose proof Hp as [Hf Ha Hfl Hc Hfo Hv].
  destruct (lookup_lt_is_Some_2 (aMem p) (length pre)) as [rhs Er]; [unfold zlen in *; lia|].
  destruct (lookup_lt_is_Some_2 (aSortFlags (pKeyInfo p)) (length pre)) as [f Ef]; [unfold zlen in *; lia|].
  destruct (lookup_lt_is_Some_2 (aColl (pKeyInfo p)) (length pre)) as [coll Ec]; [unfold zlen in *; lia|].
  assert (Hrhs : comparable rhs) by (by eapply Forall_lookup_1). assert (Hflags : flags_ok f) by (by eapply Forall_lookup_1).
  pose proof (order_step p _ _ _ _ _ Em Er Ef Ec ltac:(unfold zlen in *; lia)) as Hord.
  destruct (compare_field_ok (record fmt ms) (idx_of pre) (off_of pre) m Hat Hm (pKeyInfo p) (zlen pre) coll rhs (errCode p))
    as (rc & st & err & Hcf & Hst & Hst0 & Hres); [done|lia|by rewrite Z2len|].
  assert (Hloop : compare_loop wide ValueText n (zlen (record fmt ms)) (record fmt ms) hdr (zlen pre) (off_of pre) (idx_of pre) p =
            if negb (rc =? 0) then Some (sort_rc f rc st rhs, set_errCode p err)
            else next_field n st (zlen pre) (off_of pre) (idx_of pre) (set_errCode p err)).
  { destruct n; cbn [compare_loop]; rewrite Z2len, Er; cbn [mbind option_bind]; rewrite Hcf; cbn [mbind option_bind pKeyInfo set_errCode];
      rewrite zget_to_nat, Z2len, Ef by lia; done. }
  rewrite Hloop. specialize (Hnext err) as (rc' & p' & Hnf & Herr & Hout).
  destruct (value_compare (text_compare ValueText (ki_enc (pKeyInfo p)) coll) (value_of (stored fmt m)) (value_of rhs)) as [c|] eqn:Ev.
  - destruct Hres as [Hrc ->]. rewrite set_errCode_same in *. destruct (Z.eqb_spec rc 0) as [->|Hne]; cbn [negb].
    + rewrite Hst by done. exists rc', p'. split_and!; [done|done|]. intros H0. rewrite Hord. cbn in Hrc. subst c.
      unfold column_compare. rewrite Ev. cbn [mbind option_bind CompOpp].
      assert (Heq : forall b1 b2 : bool, (if b1 then CompOpp (if b2 then match value_of (stored fmt m), value_of rhs with VNull, _ | _, VNull => Eq | _, _ => Eq end else Eq)
                else (if b2 then match value_of (stored fmt m), value_of rhs with VNull, _ | _, VNull => Eq | _, _ => Eq end else Eq)) = Eq).
      { intros [] []; by destruct (value_of (stored fmt m)), (value_of rhs). }
      rewrite Heq. by apply Hout.
    + pose proof (sort_rc_ok f rc st m rhs _ c Hflags Hne Hm Hst0 Hrhs Ev Hrc) as Hcol.
      exists (sort_rc f rc st rhs), p. split_and!; [done|done|]. intros H0. rewrite Hord, Hcol. cbn [mbind option_bind].
      assert (Hs0 : sort_rc f rc st rhs <> 0) by (unfold sort_rc; repeat case_match; lia).
      destruct (Z.compare_spec (sort_rc f rc st rhs) 0) as [|Hlt|Hgt]; [done| |]; cbn [outcome]; split; try done;
        by first [apply Z.compare_lt_iff|apply Z.compare_gt_iff].
  - destruct Hres as [-> He]. cbn [Z.eqb negb]. rewrite Hst by done. exists rc', p'. split_and!; [done| |].
    + intros _. by apply Herr.
    + intros _. rewrite Hord. unfold column_compare. rewrite Ev. cbn [mbind option_bind outcome]. by apply Herr.
Qed.

Lemma compare_loop_ok n : forall p pre m post, ms = pre ++ m :: post -> unpacked_ok p -> zlen pre + Z.of_nat n + 1 = nField p ->
  loop_result p (length pre)
    (compare_loop wide ValueText n (zlen (record fmt ms)) (record fmt ms) hdr (zlen pre) (off_of pre) (idx_of pre) p).
Proof using Hms Hn Hlen.
  induction n as [|n IH]; intros p pre m post E Hp Hk; apply (compare_step _ p pre m post E Hp Hk); intros e; cbn [next_field].
  all: assert (El : zlen ms = zlen pre + 1 + zlen post) by (rewrite E, zlen_app, zlen_cons; lia).
  all: pose proof (zlen_nonneg post); pose proof (zlen_nonneg pre).
  - eexists _, _. split; [done|]. split; [done|]. intros _. rewrite order_end by (left; cbn [nField set_errCode]; unfold zlen in *; lia).
    cbn [outcome nField set_errCode default_rc]. by rewrite (proj2 (Z.leb_le _ _)) by lia.
  - destruct (record_field pre m post E) as (Hat & Hidx & Ei & Eo & Hoff & Hih & Hi0 & Hpost).
    assert (Hm : mem_ok m) by (assert (Hm : key_field m) by (eapply Forall_lookup_1; [exact Hms|rewrite E; by apply list_lookup_middle]); apply Hm).
    rewrite serial_len by done. cbn [mbind option_bind]. destruct hdr_ok as (_ & Hh & _).
    pose proof (fa_d _ _ _ _ Hat). pose proof (zlen_nonneg (content fmt m)).
    assert (Hi1 : 0 <= idx_of (pre ++ [m])) by (unfold idx_of; apply Z.add_nonneg_nonneg; apply zlen_nonneg).
    rewrite <- Eo, <- Ei. rewrite !u32_small by lia.
    rewrite Z.gtb_ltb, (proj2 (Z.ltb_ge _ _)) by lia. destruct post as [|m' post].
    + destruct (Z.geb_spec (idx_of (pre ++ [m])) hdr) as [|Hlt]; [|by apply Hpost in Hlt].
      change (zlen (@nil Mem)) with 0 in *. eexists _, _. split; [done|]. split; [done|]. intros _.
      rewrite order_end by (right; unfold zlen in *; lia). cbn [outcome nField set_errCode].
      by rewrite (proj2 (Z.leb_gt _ _)) by lia.
    + destruct (Z.geb_spec (idx_of (pre ++ [m])) hdr) as [Hge|_]; [assert (idx_of (pre ++ [m]) < hdr) by (by apply Hpost); lia|].
      pose proof (IH (set_errCode p e) (pre ++ [m]) m' post) as H'. rewrite zlen_app, length_app in H'.
      change (zlen [m]) with 1 in H'. cbn [length] in H'. rewrite Nat.add_1_r in H'.
      apply H'; [by rewrite E, <- app_assoc|by apply unpacked_err|cbn [nField set_errCode]; lia].
Qed.

(** ** The general function *)

Lemma header_read : getVarint32 (record fmt ms) = Some (zlen (sqlite3PutVarint hdr), hdr).
Proof using Hms Hn.
  destruct hdr_ok as (Eh & Hh & Hb). unfold record. fold hdr. apply getVarint32_put; [lia|].
  pose proof fields_ok. apply Forall_app_2; [by apply types_bytes|by apply contents_bytes].
Qed.

Lemma RecordCompare_ok p m post : ms = m :: post -> unpacked_ok p ->
  loop_result p 0 (sqlite3VdbeRecordCompare wide ValueText (zlen (record fmt ms)) (record fmt ms) p).
Proof using Hms Hn Hlen.
  intros E Hp. unfold sqlite3VdbeRecordCompare, sqlite3VdbeRecordCompareWithSkip. pose proof header_read as Hh.
  unfold getVarint32 in Hh. destruct ((record fmt ms).[0]) as [b|]; cbn [mbind option_bind] in *; [|done].
  assert (Hdr : (if b <? 128 then Some (1, b) else sqlite3GetVarint32 (record fmt ms)) = Some (zlen (sqlite3PutVarint hdr), hdr)) by done.
  rewrite Hdr. cbn [mbind option_bind]. pose proof record_len as El. pose proof (zlen_nonneg (contents fmt ms)).
  rewrite Z.gtb_ltb, (proj2 (Z.ltb_ge _ _)) by lia. pose proof Hp as [Hf _ _ _ _ _].
  pose proof (compare_loop_ok (Z.to_nat (nField p - 0 - 1)) p [] m post E Hp) as H'.
  unfold idx_of, off_of in H'. change (types fmt []) with (@nil Z) in H'. change (contents fmt []) with (@nil Z) in H'.
  change (zlen (@nil Z)) with 0 in H'. change (zlen (@nil Mem)) with 0 in H'. rewrite !Z.add_0_r in H'. apply H'. lia.
Qed.

(** ** The fast functions *)

Section fast.
Context (m : Mem) (post : list Mem) (E : ms = m :: post) (Hsmall : hdr < 128).

Lemma one_byte : zlen (sqlite3PutVarint hdr) = 1 /\ (record fmt ms).[0] = Some hdr.
Proof using Hms Hn Hsmall.
  destruct hdr_ok as (_ & Hh & _). unfold record. fold hdr. rewrite varint_one by lia. split; [done|]. cbn [app]. by rewrite zget_cons_0.
Qed.

Lemma first_field : field_at (record fmt ms) 1 hdr m /\ key_field m /\
  (exists b, (record fmt ms).[1] = Some b /\
     (if b <? 128 then Some (2, b) else '(k, s1) ← sqlite3GetVarint32 (drop 1 (record fmt ms)); Some (1 + k, s1)) =
       Some (1 + sqlite3VarintLen (serial fmt m), serial fmt m)).
Proof using Hms Hn Hlen Hsmall E.
  destruct one_byte as [H1 _]. destruct (record_field [] m post E) as (Hat & _).
  assert (Hm : key_field m) by (rewrite E in Hms; by apply Forall_cons_1 in Hms as [? _]).
  unfold idx_of, off_of in Hat. change (types fmt []) with (@nil Z) in Hat. change (contents fmt []) with (@nil Z) in Hat.
  change (zlen (@nil Z)) with 0 in Hat. rewrite !Z.add_0_r, H1 in Hat. split_and!; [done|done|].
  destruct (type_byte _ _ _ _ Hat) as (b & Eb & _ & _ & _). exists b. split; [done|].
  pose proof (fa_type _ _ _ _ Hat) as Ht. unfold getVarint32 in Ht. rewrite zget_drop in Ht by lia.
  change (1 + 0) with 1 in Ht. rewrite Eb in Ht. cbn [mbind option_bind] in Ht. change (Z.to_nat 1) with 1%nat in Ht.
  rewrite varint_size by (apply serial_range, Hm). destruct (b <? 128).
  - injection Ht as Hz ->. by rewrite <- Hz.
  - rewrite Ht. done.
Qed.

(** What is common to the fast functions: the first values decide, or the
    rest does. *)
Section first.
Context (p : UnpackedRecord) (rhs : Mem) (f : Z) (coll : option CollSeq).
Hypotheses (Hp : unpacked_ok p) (Hfields : nField p <= zlen ms).
Hypotheses (Er : aMem p !! 0%nat = Some rhs) (Ef : aSortFlags (pKeyInfo p) !! 0%nat = Some f) (Ec : aColl (pKeyInfo p) !! 0%nat = Some coll).
Hypotheses (Hf : f = 0 \/ f = 1) (Hr1 : r1 p = if f =? 0 then - 1 else 1) (Hr2 : r2 p = if f =? 0 then 1 else - 1).
Abbreviation first_order := (value_compare (text_compare ValueText (ki_enc (pKeyInfo p)) coll) (value_of (stored fmt m)) (value_of rhs)).

Lemma order_first : order_from p 0 = (r ← column_compare f (text_compare ValueText (ki_enc (pKeyInfo p)) coll) (value_of (stored fmt m)) (value_of rhs);
                    match r with Eq => order_from p 1 | _ => Some r end).
Proof using E Er Ef Ec Hp.
  apply order_step; try done; [by rewrite E|]. destruct Hp as [Hn1 _ _ _ _ _]. lia.
Qed.

Lemma column_first c : first_order = Some c ->
  column_compare f (text_compare ValueText (ki_enc (pKeyInfo p)) coll) (value_of (stored fmt m)) (value_of rhs) =
    Some (if f =? 0 then c else CompOpp c).
Proof using Hf.
  intros Ev. unfold column_compare. rewrite Ev. by destruct Hf as [H|H]; rewrite H.
Qed.

Lemma first_less : first_order = Some Lt -> loop_result p 0 (Some (r1 p, p)).
Proof using E Er Ef Ec Hp Hf Hr1.
  intros Ev. exists (r1 p), p. split_and!; [done|done|]. intros _. rewrite order_first, (column_first _ Ev). cbn [mbind option_bind].
  rewrite Hr1. by destruct Hf as [H|H]; rewrite H.
Qed.

Lemma first_greater : first_order = Some Gt -> loop_result p 0 (Some (r2 p, p)).
Proof using E Er Ef Ec Hp Hf Hr2.
  intros Ev. exists (r2 p), p. split_and!; [done|done|]. intros _. rewrite order_first, (column_first _ Ev). cbn [mbind option_bind].
  rewrite Hr2. by destruct Hf as [H|H]; rewrite H.
Qed.

Lemma first_equal : first_order = Some Eq ->
  loop_result p 0 (compare_rest wide ValueText (zlen (record fmt ms)) (record fmt ms) p).
Proof using Hms Hn Hlen Hsmall E Er Ef Ec Hp Hf Hfields.
  clear Hr1 Hr2. intros Ev. assert (Hord : order_from p 0 = order_from p 1).
  { rewrite order_first, (column_first _ Ev). cbn [mbind option_bind]. by destruct (f =? 0). }
  unfold compare_rest. rewrite Z.gtb_ltb. destruct (Z.ltb_spec 1 (nField p)) as [Hgt|Hle]; cycle 1.
  { eexists _, _. split; [done|]. split; [done|]. intros _. rewrite Hord, order_end by lia. cbn [outcome].
    by rewrite (proj2 (Z.leb_le _ _)) by lia. }
  assert (Hpost : exists m1 post', post = m1 :: post').
  { destruct post as [|m1 post'] eqn:Epost; [|by eexists _, _]. rewrite E in Hfields. change (zlen [m]) with 1 in Hfields. lia. }
  destruct Hpost as (m1 & post' & Epost). assert (E2 : ms = [m] ++ m1 :: post') by (by rewrite E, Epost).
  destruct first_field as (Hat & Hm & b & Eb & Es). destruct one_byte as [H1 H0].
  unfold sqlite3VdbeRecordCompareWithSkip. rewrite Eb. cbn [mbind option_bind].
  assert (Es' : (if b <? 128 then Some (2, b) else '(k, s1) ← sqlite3GetVarint32 (drop 1 (record fmt ms)); Some (1 + k, s1)) =
            Some (1 + sqlite3VarintLen (serial fmt m), serial fmt m)) by done.
  cbn [mbind option_bind] in Es'. rewrite Es'. cbn [mbind option_bind]. rewrite H0. cbn [mbind option_bind].
  rewrite serial_len by apply Hm. cbn [mbind option_bind].
  destruct (record_field [] m post E) as (_ & _ & Ei & Eo & Hoff & _).
  change ([] ++ [m]) with [m] in *. pose proof (zlen_nonneg (content fmt m)).
  assert (Hoi : off_of [] = hdr /\ idx_of [] = 1).
  { unfold off_of, idx_of. change (types fmt []) with (@nil Z). change (contents fmt []) with (@nil Z).
    change (zlen (@nil Z)) with 0. lia. }
  destruct Hoi as [Ho Hi]. rewrite Ho in Eo. rewrite Hi in Ei. rewrite <- Eo, <- Ei. destruct hdr_ok as (_ & Hh & _).
  rewrite u32_small by lia. rewrite Z.gtb_ltb, (proj2 (Z.ltb_ge _ _)) by lia.
  pose proof (compare_loop_ok (Z.to_nat (nField p - 1 - 1)) p [m] m1 post' E2 Hp) as H'. change (zlen [m]) with 1 in H'.
  destruct H' as (rc & p' & Hl & Herr & Hout); [lia|]. exists rc, p'. split; [done|]. split; [done|]. rewrite Hord. exact Hout.
Qed.

(** [vdbeRecordCompareInt]. *)
Lemma CompareInt_ok v : hdr < 64 \/ ~ (1 <= serial fmt m <= 6 \/ 8 <= serial fmt m <= 9) -> rhs = MInt false v -> - 2 ^ 63 <= v < 2 ^ 63 ->
  ur_u p = FirstInt v -> loop_result p 0 (vdbeRecordCompareInt wide ValueText (zlen (record fmt ms)) (record fmt ms) p).
Proof using All.
  intros H64 Hrhs Hv Hu. destruct first_field as (Hat & Hm & _). destruct one_byte as [H1 H0].
  destruct (type_byte _ _ _ _ Hat) as (b & Eb & Hb1 & Hb2 & Hb3). unfold vdbeRecordCompareInt. rewrite H0, Eb. cbn [mbind option_bind].
  destruct ((1 <=? b) && (b <=? 6) || (b =? 8) || (b =? 9)) eqn:Hcond; [|by apply (RecordCompare_ok p m post)].
  rewrite !orb_true_iff, andb_true_iff, !Z.leb_le, !Z.eqb_eq in Hcond. assert (Hs : b = serial fmt m) by (apply Hb1; lia). clear Hb1 Hb2.
  rewrite Hs in *. pose proof (read_stored _ _ _ _ Hat Hm) as Hget.
  destruct (key_field_kind m Hm) as [Et Es|i Es Et Hi|r Es Et Hr|str z Es Eco Et _ _]; [lia| |lia|lia].
  destruct hdr_ok as (_ & Hh & _). assert (Hland : Z.land hdr 0x3F = hdr).
  { change 0x3F with (Z.ones 6). rewrite Z.land_ones, Z.mod_small; lia. }
  rewrite Hland. rewrite Es in Hget. rewrite (decode_get _ _ _ i Et) by (done || eapply fa_bytes, Hat). cbn [mbind option_bind].
  rewrite Hu. assert (Hfirst : first_order = Some (i ?= v)).
  { rewrite Es, Hrhs. cbn [value_of value_compare]. by rewrite compare_unit. }
  rewrite Z.gtb_ltb. destruct (Z.ltb_spec i v); [apply first_less; rewrite Hfirst; f_equal; by apply Z.compare_lt_iff|].
  destruct (Z.ltb_spec v i); [apply first_greater; rewrite Hfirst; f_equal; by apply Z.compare_gt_iff|].
  apply first_equal. rewrite Hfirst. f_equal. apply Z.compare_eq_iff. lia.
Qed.

(** Types fit an [int]. *)
Lemma serial_i32 x : mem_ok x -> 0 <= serial fmt x < 2 ^ 31.
Proof using.
  intros Hx. pose proof (serial_range fmt x Hx). destruct x as [nc|ir i|r|str z zero]; cbn [serial] in *.
  - destruct nc; lia.
  - cbn [mem_ok] in Hx. destruct (int_type_cases fmt i Hx) as [(-> & Hi & _)|(k & t & -> & _ & Hc)]; cbn [fst] in *.
    + destruct ((8 + i =? 6) && ir); lia.
    + assert (1 <= t <= 6) by (destruct Hc as [X|[X|[X|[X|[X|X]]]]]; injection X as -> _; lia). destruct ((t =? 6) && ir); lia.
  - lia.
  - destruct Hx as (_ & H0 & H1). unfold SQLITE_MAX_LENGTH in H1. destruct str; lia.
Qed.

(** [vdbeRecordCompareString]. *)
Lemma CompareString_ok z : rhs = MData true z None -> coll = None -> ur_u p = FirstText z ->
  loop_result p 0 (vdbeRecordCompareString wide ValueText (zlen (record fmt ms)) (record fmt ms) p).
Proof using All.
  intros Hrhs Hcoll Hu. destruct first_field as (Hat & Hm & b & Eb & Es). destruct one_byte as [H1 H0].
  pose proof (serial_i32 m (proj1 Hm)) as Hs. pose proof (Forall_zget byte_ok _ _ _ (fa_bytes _ _ _ _ Hat) Eb) as Hb. unfold byte_ok in Hb.
  unfold vdbeRecordCompareString. rewrite Eb. cbn [mbind option_bind].
  assert (Et : (if i8 b <? 0 then '(_, t) ← sqlite3GetVarint32 (drop 1 (record fmt ms)); Some (i32 t) else Some (i8 b)) = Some (serial fmt m)).
  { unfold i8. destruct (Z.ltb_spec b 128).
    - injection Es as _ ->. destruct (Z.ltb_spec (serial fmt m) 0); [lia|done].
    - destruct (Z.ltb_spec (b - 256) 0); [|lia]. destruct (sqlite3GetVarint32 _) as [[k s1]|]; cbn [mbind option_bind] in *; [|done].
      injection Es as _ ->. unfold i32. f_equal. rewrite Z.mod_small; lia. }
  cbn [mbind option_bind] in Et. rewrite Et. cbn [mbind option_bind].
  pose proof (fa_content _ _ _ _ Hat) as Hr. pose proof (mem_read_inv _ _ _ _ Hr) as (_ & Hl & _ & _).
  destruct (key_field_kind m Hm) as [Es0 Es1|i Es1 Es0 Hi|r Es1 Es0 Hr0|str y Es1 Eco Es0 Ho Hlen'].
  1,2,3: rewrite (proj2 (Z.ltb_lt _ 12)) by lia; apply first_less; rewrite Es1, Hrhs; cbn [value_of]; rewrite ?Hr0; done.
  rewrite (proj2 (Z.ltb_ge _ 12)), Ho by lia. destruct str; cbn [negb]; cycle 1.
  { apply first_greater. by rewrite Es1, Hrhs. }
  rewrite H0. cbn [mbind option_bind]. rewrite u32_small in Hlen' by lia. rewrite Hlen', Eco in *.
  rewrite Z.gtb_ltb, (proj2 (Z.ltb_ge _ _)) by lia. rewrite Hu, Hr. cbn [mbind option_bind].
  destruct (bytes_cmp_spec y z) as (rc & -> & Hrc). cbn [mbind option_bind].
  assert (Hfirst : first_order = Some (rc ?= 0)).
  { rewrite Es1, Hrhs, Hcoll. cbn [value_of value_compare text_compare]. by rewrite Hrc. }
  rewrite Z.gtb_ltb. destruct (Z.ltb_spec 0 rc); [apply first_greater; rewrite Hfirst; f_equal; by apply Z.compare_gt_iff|].
  destruct (Z.ltb_spec rc 0); [apply first_less; rewrite Hfirst; f_equal; by apply Z.compare_lt_iff|].
  apply first_equal. rewrite Hfirst. f_equal. apply Z.compare_eq_iff. lia.
Qed.
End first.

(** ** The choice *)

Lemma small_header : zlen ms <= 13 -> hdr < 128 /\ (hdr < 64 \/ ~ (1 <= serial fmt m <= 6 \/ 8 <= serial fmt m <= 9)).
Proof using Hms Hn E.
  clear Hsmall. intros H13. pose proof fields_ok as Hok. pose proof (types_size fmt ms Hok) as Ht. pose proof (zlen_nonneg (types fmt ms)).
  assert (Eh : hdr = zlen (types fmt ms) + 1) by (unfold hdr, header_size; by rewrite (proj2 (Z.leb_le _ 126)) by lia).
  split; [lia|]. destruct (Z.lt_ge_cases (serial fmt m) 128) as [Hs|]; [left|right; lia].
  rewrite E in Hok. apply Forall_cons_1 in Hok as [Hm Hpost]. pose proof (serial_range fmt m Hm).
  assert (Et : types fmt ms = sqlite3PutVarint (serial fmt m) ++ types fmt post) by (by rewrite E).
  pose proof (types_size fmt post Hpost). rewrite varint_one in Et by lia. rewrite E, zlen_cons in H13.
  rewrite Eh, Et, zlen_app. change (zlen [serial fmt m]) with 1. lia.
Qed.
End fast.

Lemma unpacked_first p a b u : unpacked_ok p -> unpacked_ok (set_first p a b u).
Proof using. by intros []. Qed.

Lemma FindCompare_ok p m post : ms = m :: post -> unpacked_ok p -> nField p <= zlen ms <= nAllField (pKeyInfo p) ->
  exists f p0, sqlite3VdbeFindCompare p = Some (f, p0) /\ (p0 = p \/ exists a b u, p0 = set_first p a b u) /\
    loop_result p0 0 (run_compare wide ValueText f (zlen (record fmt ms)) (record fmt ms) p0).
Proof using Hms Hn Hlen.
  intros E Hp Hfields. pose proof Hp as [Hf Ha Hfl Hc Hfo Hv].
  destruct (lookup_lt_is_Some_2 (aMem p) 0) as [rhs Er]; [unfold zlen in *; lia|].
  destruct (lookup_lt_is_Some_2 (aSortFlags (pKeyInfo p)) 0) as [f Ef]; [unfold zlen in *; lia|].
  destruct (lookup_lt_is_Some_2 (aColl (pKeyInfo p)) 0) as [coll Ec]; [unfold zlen in *; lia|].
  assert (Hrhs : comparable rhs) by (by eapply Forall_lookup_1). assert (Hflags : flags_ok f) by (by eapply Forall_lookup_1).
  unfold sqlite3VdbeFindCompare. destruct (Z.leb_spec (nAllField (pKeyInfo p)) 13); cycle 1.
  { exists CompareGeneric, p. split_and!; [done|by left|]. by apply (RecordCompare_ok p m post). }
  destruct (small_header m post E ltac:(lia)) as [Hsmall H64]. rewrite Er. cbn [mbind option_bind].
  rewrite zget_to_nat by lia. change (Z.to_nat 0) with 0%nat. rewrite Ef. cbn [mbind option_bind].
  destruct (negb (f =? 0) && negb (Z.land f KEYINFO_ORDER_BIGNULL =? 0)) eqn:Hbig.
  { exists CompareGeneric, p. split_and!; [done|by left|]. by apply (RecordCompare_ok p m post). }
  assert (Hf01 : f = 0 \/ f = 1).
  { assert (f = 0 \/ f = 1 \/ f = 2 \/ f = 3) as [->|[->|[->| ->]]] by (unfold flags_ok in Hflags; lia); auto; done. }
  assert (Hab : exists a b, (if negb (f =? 0) then (1, - 1) else (- 1, 1)) = (a, b) /\ a = (if f =? 0 then - 1 else 1) /\
            b = (if f =? 0 then 1 else - 1)) by (destruct (f =? 0); by eexists _, _).
  destruct Hab as (a & b & -> & Ea & Eb).
  assert (Hgen : forall u, loop_result (set_first p a b u) 0 (run_compare wide ValueText CompareGeneric (zlen (record fmt ms)) (record fmt ms) (set_first p a b u)))
    by (intros u; apply (RecordCompare_ok _ m post E); by apply unpacked_first).
  destruct rhs as [nc|[] v|r|[] z zero].
  1,2,4,6: eexists _, _; split_and!; [done|right; by eexists _, _, _|apply Hgen].
  - eexists _, _. split_and!; [done|right; by eexists _, _, _|].
    eapply (CompareInt_ok m post E Hsmall _ _ f coll (unpacked_first p _ _ _ Hp)); try done; [cbn [nField set_first]; lia|apply Hrhs].
  - rewrite Ec. cbn [mbind option_bind]. destruct coll as [c|]; eexists _, _; (split_and!; [done|right; by eexists _, _, _|]); [apply Hgen|].
    destruct Hrhs as (_ & _ & Hz). rewrite (Hz eq_refl) in Er.
    eapply (CompareString_ok m post E Hsmall _ _ f None (unpacked_first p _ _ _ Hp)); try done. cbn [nField set_first]; lia.
Qed.
End record.
End fields.

(** * Theorem *)

(** C40.  Comparing an encoded record with an unpacked one orders them as
    their values are, column after column, under the sort order and the
    collation of each column.  This holds of [sqlite3VdbeRecordCompare] for
    every record that [OP_MakeRecord] can make, and of the function that
    [sqlite3VdbeFindCompare] chooses for records with at least the columns of
    the key: the fast functions are right whatever the type of the first
    value.  When the columns agree, the result is [default_rc]; when the record has
    fewer columns than the key and they agree, corruption is reported; and when
    a text could not be converted to the encoding of its collation, the error
    code is set. *)
Theorem RecordCompare_orders wide ValueText fmt ms p :
  ms <> [] -> Forall key_field ms -> zlen ms <= nAllField (pKeyInfo p) <= 32767 -> zlen (record fmt ms) < 2 ^ 31 ->
  unpacked_ok p -> errCode p = 0 ->
  let aKey := record fmt ms in
  let order := key_compare ValueText (ki_enc (pKeyInfo p)) (aSortFlags (pKeyInfo p)) (aColl (pKeyInfo p))
                 ((fun m => value_of (stored fmt m)) <$> ms) (value_of <$> take (Z.to_nat (nField p)) (aMem p)) in
  (exists rc p', sqlite3VdbeRecordCompare wide ValueText (zlen aKey) aKey p = Some (rc, p') /\ outcome ms p order rc p') /\
  (nField p <= zlen ms ->
   exists f p0 rc p', sqlite3VdbeFindCompare p = Some (f, p0) /\
     run_compare wide ValueText f (zlen aKey) aKey p0 = Some (rc, p') /\ outcome ms p0 order rc p').
Proof.
  intros Hne Hms Hn Hlen Hp He aKey order. assert (exists m post, ms = m :: post) as (m & post & E) by (destruct ms; [done|by eexists _, _]).
  assert (Hn' : zlen ms <= 32767) by lia. split.
  - destruct (RecordCompare_ok fmt wide ValueText ms Hms Hn' Hlen p m post E Hp) as (rc & p' & Hr & _ & Ho). exists rc, p'. auto.
  - intros Hf. destruct (FindCompare_ok fmt wide ValueText ms Hms Hn' Hlen p m post E Hp ltac:(lia))
      as (f & p0 & Hfind & Hp0 & rc & p' & Hr & _ & Ho).
    exists f, p0, rc, p'. split_and!; [done|done|]. destruct Hp0 as [->|(a & b & u & ->)]; by apply Ho.
Qed.

(** An index on an integer, a text in descending order, and a text by length
    with NULL last. *)
Definition sample_key : UnpackedRecord :=
  {| pKeyInfo := {| ki_enc := 1; nAllField := 3; aSortFlags := [0; 1; 2]; aColl := [None; None; Some by_length] |};
     aMem := [MInt false 5; MData true [104; 101; 108; 108; 111] None]; ur_u := FirstNone; nField := 2; default_rc := 0;
     errCode := 0; r1 := 0; r2 := 0; eqSeen := 0 |}.

Definition sample_row : list Mem := [MInt true 5; MData true [104; 105] None; MNull false].

Lemma RecordCompare_orders_witness :
  (exists rc p', sqlite3VdbeRecordCompare false (fun _ _ z => Some z) 7 [4; 1; 17; 0; 5; 104; 105] sample_key = Some (rc, p') /\
     (rc ?= 0) = Lt /\ p' = sample_key) /\
  exists p0 rc p', sqlite3VdbeFindCompare sample_key = Some (CompareInt, p0) /\
    vdbeRecordCompareInt false (fun _ _ z => Some z) 7 [4; 1; 17; 0; 5; 104; 105] p0 = Some (rc, p') /\ (rc ?= 0) = Lt /\ p' = p0.
Proof.
  destruct (RecordCompare_orders false (fun _ _ z => Some z) 4 sample_row sample_key) as [H1 H2].
  - discriminate.
  - constructor; [|constructor; [|constructor; [|constructor]]]; split; try done; cbn [mem_ok]; try lia.
    split; [apply (bool_decide_unpack _); exact I|vm_compute; split; discriminate].
  - vm_compute. split; discriminate.
  - vm_compute. reflexivity.
  - split; [split; discriminate|discriminate|discriminate|discriminate| |].
    + constructor; [|constructor; [|constructor; [|constructor]]]; unfold flags_ok; lia.
    + constructor; [|constructor; [|constructor]]; split; try done; cbn [mem_ok]; try lia.
      split; [apply (bool_decide_unpack _); exact I|vm_compute; split; discriminate].
  - reflexivity.
  - destruct H1 as (rc & p' & E1 & O1). destruct H2 as (f & p0 & rc2 & p2 & E2 & E3 & O2); [vm_compute; discriminate|]. split.
    + exists rc, p'. split; [exact E1|]. exact O1.
    + vm_compute in E2. injection E2 as <- <-. eexists _, rc2, p2. split; [reflexivity|]. split; [exact E3|]. exact O2.
Defined.
