(* ===== verification/BtPages.v ===== *)
(** The pages of a database as the B-tree sees them (btree.c): the pager, an
    interface; words on pages; and the pointer map of auto-vacuum databases
    ([ptrmapPut], [ptrmapGet]). *)
From S2P Require Import Prelude.
From S2P Require Import Bits.
From S2P Require Import Util.
From S2P Require Import Vfs.
From S2P Require Import Mem.
From S2P Require Import Bitvec.
From S2P Require Import BtPage.
Open Scope Z_scope.

Definition PAGER_GET_NOCONTENT : Z := 0x01.
Definition PAGER_GET_READONLY : Z := 0x02.
Definition PENDING_BYTE : Z := 0x40000000.
Definition PTRMAP_FREEPAGE : Z := 2.
Definition PTRMAP_OVERFLOW1 : Z := 3.
Definition PTRMAP_OVERFLOW2 : Z := 4.
Definition BTS_SECURE_DELETE : Z := 0x0004.

(** * The pager *)

(** Result codes and answers of the pager, from its state [T]. *)
Class Pager (T : Type) := {
  sqlite3PagerGet : T -> Z -> Z -> Z * T;
  sqlite3PagerWrite : T -> Z -> Z * T;
  sqlite3PagerLookup : T -> Z -> bool;
  sqlite3PagerPageRefcount : T -> Z -> Z;
  sqlite3PagerDontWrite : T -> Z -> T;
}.

(** Nothing fails, and no page has a reference but the one of its user. *)
Class QuietPager (T : Type) {P : Pager T} := {
  quiet_get : forall t p flags, (sqlite3PagerGet t p flags).1 = SQLITE_OK;
  quiet_write : forall t p, (sqlite3PagerWrite t p).1 = SQLITE_OK;
  quiet_refs : forall t p, sqlite3PagerPageRefcount t p = 1;
}.

(** [BtShared] with the pages: [bt_isInit] has the pages whose [MemPage] is
    initialised, [bt_alloc] the allocations of [pHasContent]. *)
Record Bt (T : Type) := mkBt {
  bt_shared : BtShared;
  autoVacuum : bool;
  bDoTruncate : bool;
  nPage : Z;
  bt_pages : gmap Z (list Z);
  bt_isInit : gset Z;
  pHasContent : option Bitvec;
  bt_alloc : Alloc;
  pPager : T;
}.
#[global] Arguments mkBt {_}.
#[global] Arguments bt_shared {_}.
#[global] Arguments autoVacuum {_}.
#[global] Arguments bDoTruncate {_}.
#[global] Arguments nPage {_}.
#[global] Arguments bt_pages {_}.
#[global] Arguments bt_isInit {_}.
#[global] Arguments pHasContent {_}.
#[global] Arguments bt_alloc {_}.
#[global] Arguments pPager {_}.

Section pages.
Context {T : Type}.

Definition set_nPage (n : Z) (s : Bt T) : Bt T :=
  mkBt (bt_shared s) (autoVacuum s) (bDoTruncate s) n (bt_pages s) (bt_isInit s) (pHasContent s) (bt_alloc s) (pPager s).
Definition set_page (p : Z) (d : list Z) (s : Bt T) : Bt T :=
  mkBt (bt_shared s) (autoVacuum s) (bDoTruncate s) (nPage s) (<[p := d]> (bt_pages s)) (bt_isInit s) (pHasContent s) (bt_alloc s) (pPager s).
Definition clear_isInit (p : Z) (s : Bt T) : Bt T :=
  mkBt (bt_shared s) (autoVacuum s) (bDoTruncate s) (nPage s) (bt_pages s) (bt_isInit s ∖ {[p]}) (pHasContent s) (bt_alloc s) (pPager s).
Definition set_hasContent (v : option Bitvec) (a : Alloc) (s : Bt T) : Bt T :=
  mkBt (bt_shared s) (autoVacuum s) (bDoTruncate s) (nPage s) (bt_pages s) (bt_isInit s) v a (pPager s).
Definition set_pager (t : T) (s : Bt T) : Bt T :=
  mkBt (bt_shared s) (autoVacuum s) (bDoTruncate s) (nPage s) (bt_pages s) (bt_isInit s) (pHasContent s) (bt_alloc s) t.

(** The bytes of a page; a page that was never written is zero. *)
Definition content (s : Bt T) (p : Z) : list Z :=
  default (replicate (Z.to_nat (pageSize (bt_shared s))) 0) (bt_pages s !! p).

(** * Code that may fail

    [None] is undefined behaviour, [inl rc] a return with the error [rc]. *)
Definition M (A : Type) : Type := Bt T -> option ((Z + A) * Bt T).

Definition ret {A} (a : A) : M A := fun s => Some (inr a, s).
Definition fail {A} (rc : Z) : M A := fun s => Some (inl rc, s).
Definition undefined {A} : M A := fun _ => None.
Definition bind {A B} (m : M A) (f : A -> M B) : M B := fun s =>
  match m s with
  | Some (inr a, s) => f a s
  | Some (inl rc, s) => Some (inl rc, s)
  | None => None
  end.
(** [goto] a label where [f] is done, then return. *)
Definition finally {A} (m : M A) (f : Bt T -> Bt T) : M A := fun s => '(r, s) ← m s; Some (r, f s).
Definition gets {A} (f : Bt T -> A) : M A := fun s => Some (inr (f s), s).
Definition modify (f : Bt T -> Bt T) : M unit := fun s => Some (inr tt, f s).
Definition lift {A} (o : option A) : M A := match o with Some a => ret a | None => undefined end.
End pages.
#[global] Arguments M : clear implicits.

Declare Scope bt_scope.
Delimit Scope bt_scope with bt.
Notation "'let!' x ':=' m 'in' k" := (bind m (fun x => k))
  (at level 10, x binder, m at level 200, k at level 200) : bt_scope.
Notation "'let!' ' p ':=' m 'in' k" := (bind m (fun x => match x with p => k end))
  (at level 10, p pattern, m at level 200, k at level 200) : bt_scope.
Notation "m ;;; k" := (bind m (fun _ => k)) (at level 199, k at level 200, right associativity) : bt_scope.
Open Scope bt_scope.

(** * Words on pages *)

Definition get4 (d : list Z) (i : Z) : option Z := b ← mem_read d i 4; sqlite3Get4byte b.
Definition put4 (d : list Z) (i v : Z) : option (list Z) := mem_write d i (sqlite3Put4byte v).

Section code.
Context {T : Type} {P : Pager T}.
Abbreviation Bt := (Bt T).
Abbreviation M := (M T).

(** [get4byte(&aData[i])] and [put4byte(&aData[i], v)] of a page. *)
Definition read4 (p i : Z) : M Z := fun s => lift (get4 (content s p) i) s.
Definition write4 (p i v : Z) : M unit := fun s => bind (lift (put4 (content s p) i v)) (fun d => modify (set_page p d)) s.

(** [memcpy(&aDst[i], &aSrc[j], n)] from page to page. *)
Definition copy_page (p i q j n : Z) : M unit := fun s =>
  bind (lift (b ← mem_read (content s q) j n; mem_write (content s p) i b)) (fun d => modify (set_page p d)) s.

(** [sqlite3PagerGet]: a page that is fetched without its content is zeroed. *)
Definition pager_get (pgno flags : Z) : M unit := fun s =>
  if pgno =? 0 then Some (inl SQLITE_CORRUPT, s)
  else
    let '(rc, t) := sqlite3PagerGet (pPager s) pgno flags in
    let s := set_pager t s in
    if negb (rc =? SQLITE_OK) then Some (inl rc, s)
    else
      Some (inr tt, if negb (Z.land flags PAGER_GET_NOCONTENT =? 0) then
                      set_page pgno (replicate (Z.to_nat (pageSize (bt_shared s))) 0) s
                    else s).

Definition pager_write (pgno : Z) : M unit := fun s =>
  let '(rc, t) := sqlite3PagerWrite (pPager s) pgno in
  if negb (rc =? SQLITE_OK) then Some (inl rc, set_pager t s) else Some (inr tt, set_pager t s).

Definition btreeGetPage (pgno flags : Z) : M unit := pager_get pgno flags.

Definition btreeGetUnusedPage (pgno flags : Z) : M unit :=
  btreeGetPage pgno flags ;;;
  let! refs := gets (fun s => sqlite3PagerPageRefcount (pPager s) pgno) in
  if refs >? 1 then fail SQLITE_CORRUPT else modify (clear_isInit pgno).

(** * Pages with a special use *)

Definition PENDING_BYTE_PAGE (pBt : BtShared) : Z := PENDING_BYTE / pageSize pBt + 1.

Definition ptrmapPageno (pBt : BtShared) (pgno : Z) : Z :=
  if pgno <? 2 then 0
  else
    let nPagesPerMapPage := usableSize pBt / 5 + 1 in
    let iPtrMap := (pgno - 2) / nPagesPerMapPage in
    let ret := u32 (iPtrMap * nPagesPerMapPage + 2) in
    if ret =? PENDING_BYTE_PAGE pBt then u32 (ret + 1) else ret.

Definition PTRMAP_PTROFFSET (pgptrmap pgno : Z) : Z := i32 (u32 (5 * u32 (u32 (pgno - pgptrmap) - 1))).
Definition PTRMAP_ISPAGE (pBt : BtShared) (pgno : Z) : bool := ptrmapPageno pBt pgno =? pgno.

Definition ptrmapPut (key eType parent : Z) : M unit :=
  if key =? 0 then fail SQLITE_CORRUPT
  else
    let! iPtrmap := gets (fun s => ptrmapPageno (bt_shared s) key) in
    pager_get iPtrmap 0 ;;;
    let! init := gets (fun s => bool_decide (iPtrmap ∈ bt_isInit s)) in
    if init : bool then fail SQLITE_CORRUPT
    else
      let offset := PTRMAP_PTROFFSET iPtrmap key in
      if offset <? 0 then fail SQLITE_CORRUPT
      else
        let! pPtrmap := gets (fun s => content s iPtrmap) in
        let! t := lift (pPtrmap.[offset]) in
        let! q := lift (get4 pPtrmap (offset + 1)) in
        if negb (eType =? t) || negb (q =? parent) then
          pager_write iPtrmap ;;;
          let! pPtrmap := gets (fun s => content s iPtrmap) in
          let! d := lift (d ← pPtrmap.[offset <- u8 eType]; put4 d (offset + 1) parent) in
          modify (set_page iPtrmap d)
        else ret tt.

(** The type and the parent of the page [key]. *)
Definition ptrmapGet (key : Z) : M (Z * Z) :=
  let! iPtrmap := gets (fun s => ptrmapPageno (bt_shared s) key) in
  pager_get iPtrmap 0 ;;;
  let! pPtrmap := gets (fun s => content s iPtrmap) in
  let offset := PTRMAP_PTROFFSET iPtrmap key in
  if offset <? 0 then fail SQLITE_CORRUPT
  else
    let! eType := lift (pPtrmap.[offset]) in
    let! pgno := lift (get4 pPtrmap (offset + 1)) in
    if (eType <? 1) || (eType >? 5) then fail SQLITE_CORRUPT else ret (eType, pgno).

(** * Pages whose content a rollback needs *)

Definition btreeSetHasContent (pgno : Z) : M unit := fun s =>
  let '(v, a) := match pHasContent s with
                 | Some v => (Some v, bt_alloc s)
                 | None => sqlite3BitvecCreate (nPage s) (bt_alloc s)
                 end in
  match v with
  | None => Some (inl SQLITE_NOMEM, set_hasContent None a s)
  | Some p =>
      if pgno <=? sqlite3BitvecSize p then
        '(rc, v, a) ← sqlite3BitvecSet (Some p) pgno a;
        Some (if rc =? SQLITE_OK then inr tt else inl rc, set_hasContent v a s)
      else Some (inr tt, set_hasContent v a s)
  end.

Definition btreeGetHasContent (pgno : Z) : M bool := fun s =>
  match pHasContent s with
  | None => Some (inr false, s)
  | Some p =>
      if pgno >? sqlite3BitvecSize p then Some (inr true, s)
      else b ← sqlite3BitvecTestNotNull p pgno; Some (inr b, s)
  end.

(** * Reasoning

    [wp m s Q E]: [m] is defined from [s]; it returns what satisfies [Q], or an
    error and a state that satisfy [E]. *)
Definition wp {A} (m : M A) (s : Bt) (Q : A -> Bt -> Prop) (E : Z -> Bt -> Prop) : Prop :=
  match m s with
  | Some (inr a, s') => Q a s'
  | Some (inl rc, s') => rc <> SQLITE_OK /\ E rc s'
  | None => False
  end.

Lemma bt_mono {A} (m : M A) s Q E (Q' : A -> Bt -> Prop) (E' : Z -> Bt -> Prop) : wp m s Q E ->
  (forall a s', Q a s' -> Q' a s') -> (forall rc s', rc <> SQLITE_OK -> E rc s' -> E' rc s') -> wp m s Q' E'.
Proof using. unfold wp. destruct (m s) as [[[rc|a] s']|]; intuition. Qed.

Lemma bt_bind {A B} (m : M A) (f : A -> M B) s Q E : wp m s (fun a s' => wp (f a) s' Q E) E -> wp (bind m f) s Q E.
Proof using. unfold wp, bind. by destruct (m s) as [[[rc|a] s']|]. Qed.

Lemma bt_ret {A} (a : A) s Q E : Q a s -> wp (ret a) s Q E.
Proof using. done. Qed.

Lemma bt_fail {A} rc s (Q : A -> Bt -> Prop) E : rc <> SQLITE_OK -> E rc s -> wp (fail rc) s Q E.
Proof using. done. Qed.

Lemma bt_gets {A} (f : Bt -> A) s Q E : Q (f s) s -> wp (gets f) s Q E.
Proof using. done. Qed.

Lemma bt_modify f s Q E : Q tt (f s) -> wp (modify f) s Q E.
Proof using. done. Qed.

Lemma bt_lift {A} (o : option A) a s Q E : o = Some a -> Q a s -> wp (lift o) s Q E.
Proof using. by intros ->. Qed.
End code.

(** ** Words *)

Lemma get4_some d i : bytes_ok d -> 0 <= i -> i + 4 <= zlen d -> exists v, get4 d i = Some v /\ 0 <= v < 2 ^ 32.
Proof.
  intros Hd Hi Hl. unfold get4. destruct (mem_read_ok d i 4) as (b & E & Lb & _); [lia..|]. rewrite E. cbn [mbind option_bind].
  pose proof (mem_read_bytes _ _ _ _ Hd E) as Hb. destruct b as [|b0 [|b1 [|b2 [|b3 [|]]]]]; unfold zlen in Lb; cbn [length] in Lb; try lia.
  repeat match goal with H : bytes_ok (_ :: _) |- _ => apply Forall_cons_1 in H as [? H] end.
  destruct (Put4byte_Get4byte b0 b1 b2 b3 []) as (v & -> & Hv & _); [done..|]. by exists v.
Qed.

Lemma get4_inv d i v : get4 d i = Some v -> 0 <= i /\ i + 4 <= zlen d.
Proof. unfold get4. destruct (mem_read d i 4) eqn:E; [|done]. apply mem_read_inv in E. lia. Qed.

Lemma get4_range d i v : bytes_ok d -> get4 d i = Some v -> 0 <= v < 2 ^ 32.
Proof.
  intros Hd E. destruct (get4_inv _ _ _ E) as [? ?]. destruct (get4_some d i) as (w & Ew & Hw); [done..|]. congruence.
Qed.

Lemma put4_ok d i v : 0 <= i -> i + 4 <= zlen d -> 0 <= v < 2 ^ 32 ->
  exists d', put4 d i v = Some d' /\ only i (i + 4) d d' /\ get4 d' i = Some v.
Proof.
  intros Hi Hl Hv. unfold put4. destruct (mem_write_ok d i (sqlite3Put4byte v)) as (d' & E & O & V); [done|done|apply Put4byte_bytes|].
  change (zlen (sqlite3Put4byte v)) with 4 in *. exists d'. split; [done|]. split; [done|]. unfold get4.
  destruct (mem_read_ok d' i 4) as (b & Eb & Lb & Gb); [lia|lia|rewrite (on_len _ _ _ _ O); lia|]. rewrite Eb. cbn [mbind option_bind].
  assert (b = sqlite3Put4byte v) as ->.
  { apply zget_ext; [by rewrite Lb|]. intros j Hj. rewrite Lb in Hj. rewrite Gb, V by lia. f_equal. lia. }
  rewrite <- (app_nil_r (sqlite3Put4byte v)). by apply Get4byte_Put4byte.
Qed.

Lemma only_get4 lo hi d d' i : only lo hi d d' -> i + 4 <= lo \/ hi <= i -> get4 d' i = get4 d i.
Proof. intros O Hd. unfold get4. by rewrite (only_read _ _ _ _ _ _ O). Qed.

Lemma get4_read d d' i j : mem_read d' i 4 = mem_read d j 4 -> get4 d' i = get4 d j.
Proof. unfold get4. by intros ->. Qed.

Lemma get4_sub d d' i j n k : mem_read d' i n = mem_read d j n -> 0 <= j -> j + n <= zlen d -> 0 <= k -> k + 4 <= n ->
  get4 d' (i + k) = get4 d (j + k).
Proof.
  intros E Hj Hn Hk Hkn. destruct (mem_read_ok d j n) as (b & Eb & _ & Gb); [lia..|]. rewrite Eb in E.
  destruct (mem_read_inv _ _ _ _ E) as (Hi & Hin & _ & Gb'). destruct (mem_read_ok d (j + k) 4) as (c & Ec & Lc & Gc); [lia..|].
  apply get4_read. rewrite Ec. eapply mem_read_move; [exact Ec|lia|lia|]. intros x Hx.
  rewrite <- (Z.add_assoc i), <- (Z.add_assoc j), <- Gb, <- Gb' by lia. done.
Qed.

(** * Where the pointer map is *)

(** An ordinary page: not a page of the pointer map, nor the one that is never
    used. *)
Definition ordinary (b : BtShared) (p : Z) : Prop :=
  2 <= p < 2 ^ 32 /\ PTRMAP_ISPAGE b p = false /\ p <> PENDING_BYTE_PAGE b.

Definition map_page (b : BtShared) (p : Z) : Z := ptrmapPageno b p.
Definition map_slot (b : BtShared) (p : Z) : Z := 5 * (p - map_page b p - 1).

Lemma pending_range b : 512 <= pageSize b <= 65536 -> 2 <= PENDING_BYTE_PAGE b <= 2097153.
Proof.
  intros Hb. unfold PENDING_BYTE_PAGE, PENDING_BYTE.
  assert (H : 0x40000000 / 65536 <= 0x40000000 / pageSize b <= 0x40000000 / 512);
    [|change (0x40000000 / 65536) with 16384 in H; change (0x40000000 / 512) with 2097152 in H; lia].
  split; [apply Z.div_le_compat_l|apply Z.div_le_compat_l]; lia.
Qed.

(** The page of the map that has the entry of [p], and the first page whose
    entry it has. *)
Lemma map_base b p : 480 <= usableSize b <= pageSize b -> 512 <= pageSize b <= 65536 -> 2 <= p < 2 ^ 32 ->
  exists base, let n := usableSize b / 5 + 1 in
    map_page b p = (if base =? PENDING_BYTE_PAGE b then base + 1 else base) /\ 2 <= base <= p /\ p < base + n /\ 97 <= n /\ 5 * n <= usableSize b + 5 /\
    forall q, base <= q < base + n -> map_page b q = map_page b p.
Proof.
  intros Hu Hb Hp. pose proof (pending_range b Hb) as Hpr.
  assert (Hn : 97 <= usableSize b / 5 + 1) by (assert (96 <= usableSize b / 5) by (apply Z.div_le_lower_bound; lia); lia).
  pose proof (Z.mul_div_le (usableSize b) 5 ltac:(lia)) as Hn5. set (n := usableSize b / 5 + 1) in *.
  exists ((p - 2) / n * n + 2). cbv zeta. pose proof (Z.mul_div_le (p - 2) n ltac:(lia)). pose proof (Z.mul_succ_div_gt (p - 2) n ltac:(lia)).
  pose proof (Z.div_pos (p - 2) n ltac:(lia) ltac:(lia)). assert (0 <= (p - 2) / n * n) by (apply Z.mul_nonneg_nonneg; lia).
  assert (Hq : forall q, (p - 2) / n * n + 2 <= q < (p - 2) / n * n + 2 + n ->
            map_page b q = (if (p - 2) / n * n + 2 =? PENDING_BYTE_PAGE b then (p - 2) / n * n + 2 + 1 else (p - 2) / n * n + 2)).
  { intros q Hq. unfold map_page, ptrmapPageno. rewrite (proj2 (Z.ltb_ge q 2)) by lia. fold n. cbv zeta.
    assert (Ediv : (q - 2) / n = (p - 2) / n) by (symmetry; apply (Z.div_unique _ _ _ (q - 2 - (p - 2) / n * n)); lia).
    rewrite Ediv, (u32_small ((p - 2) / n * n + 2)) by lia.
    destruct (Z.eqb_spec ((p - 2) / n * n + 2) (PENDING_BYTE_PAGE b)); [apply u32_small; lia|done]. }
  split_and!; [apply Hq; lia|lia|lia|lia|lia|lia|]. intros q Hqr. rewrite (Hq q Hqr). symmetry. apply Hq. lia.
Qed.

Lemma ptroffset_ok b p : 480 <= usableSize b <= pageSize b -> 512 <= pageSize b <= 65536 -> 2 <= p < 2 ^ 32 ->
  PTRMAP_PTROFFSET (map_page b p) p = map_slot b p /\ -10 <= map_slot b p /\ map_slot b p + 5 <= usableSize b.
Proof.
  intros Hu Hb Hp. destruct (map_base b p Hu Hb Hp) as (base & Em & Hbase & Hlt & Hn & Hn5 & _). cbv zeta in *.
  unfold map_slot. set (m := map_page b p) in *.
  assert (Hm : base <= m <= base + 1) by (rewrite Em; destruct (_ =? _); lia). split; [|lia].
  unfold PTRMAP_PTROFFSET, u32, i32. set (n := usableSize b / 5 + 1) in *.
  assert (Hd : - 1 <= p - m <= 13200) by lia. clearbody m n. Z.to_euclidean_division_equations. lia.
Qed.

Lemma map_ok b p : 480 <= usableSize b <= pageSize b -> 512 <= pageSize b <= 65536 -> ordinary b p ->
  2 <= map_page b p < p /\ 0 <= map_slot b p /\ map_slot b p + 5 <= usableSize b /\ ~ ordinary b (map_page b p).
Proof.
  intros Hu Hb (Hp & Hi & Hpend). destruct (map_base b p Hu Hb Hp) as (base & Em & Hbase & Hlt & Hn & Hn5 & Hq). cbv zeta in *.
  unfold map_slot. unfold PTRMAP_ISPAGE in Hi. apply Z.eqb_neq in Hi. fold (map_page b p) in Hi.
  assert (Hm : base <= map_page b p <= base + 1 /\ map_page b p < p) by (rewrite Em in *; destruct (Z.eqb_spec base (PENDING_BYTE_PAGE b)); lia).
  split_and!; try lia. intros (_ & Hm2 & _). unfold PTRMAP_ISPAGE in Hm2. apply Z.eqb_neq in Hm2. apply Hm2.
  change (map_page b (map_page b p) = map_page b p). apply Hq. lia.
Qed.

(** * States *)

Section state.
Context {T : Type} {P : Pager T}.
Abbreviation Bt := (Bt T).

Record wf (s : Bt) : Prop := {
  wf_usable : 480 <= usableSize (bt_shared s) <= pageSize (bt_shared s);
  wf_pageSize : 512 <= pageSize (bt_shared s) <= 65536;
  wf_pages : forall p d, bt_pages s !! p = Some d -> zlen d = pageSize (bt_shared s) /\ bytes_ok d;
  wf_has : match pHasContent s with Some v => bitvec_ok v | None => True end;
  wf_map : forall p, ordinary (bt_shared s) p -> map_page (bt_shared s) p ∉ bt_isInit s;
}.

(** What changed: pages in [D] at most, and pages may have been added. *)
Record frame (D : Z -> Prop) (s s' : Bt) : Prop := {
  fr_shared : bt_shared s' = bt_shared s;
  fr_vacuum : autoVacuum s' = autoVacuum s;
  fr_wf : wf s -> wf s';
  fr_content : forall p, ~ D p -> content s' p = content s p;
  fr_nPage : nPage s <= nPage s';
  fr_isInit : bt_isInit s' ⊆ bt_isInit s;
}.

Lemma frame_refl D s : frame D s s.
Proof using. by constructor. Qed.

Lemma frame_then D s1 s2 s3 : frame D s1 s2 -> frame D s2 s3 -> frame D s1 s3.
Proof using.
  intros [] []. constructor; try congruence; auto; [|lia|set_solver].
  intros p Hp. rewrite fr_content1 by done. auto.
Qed.

Lemma frame_weaken (D D' : Z -> Prop) s s' : (forall p, D p -> D' p) -> frame D s s' -> frame D' s s'.
Proof using. intros Hs []. constructor; auto. Qed.

Lemma content_len s p : wf s -> zlen (content s p) = pageSize (bt_shared s) /\ bytes_ok (content s p).
Proof using.
  intros [Hu Hz Hp _ _]. unfold content. destruct (bt_pages s !! p) as [d|] eqn:E; cbn [default from_option id]; [by eapply Hp|].
  rewrite zlen_replicate. split; [lia|]. apply Forall_replicate. unfold byte_ok. lia.
Qed.

Lemma content_set p d (s : Bt) q : content (set_page p d s) q = if decide (p = q) then d else content s q.
Proof using. unfold content. cbn [bt_pages bt_shared set_page]. rewrite lookup_insert. by case_decide. Qed.

Lemma frame_set_page (D : Z -> Prop) p d s : D p -> (wf s -> zlen d = pageSize (bt_shared s) /\ bytes_ok d) -> frame D s (set_page p d s).
Proof using.
  intros Hp Hd. constructor; try done.
  - intros Hw. pose proof Hw as [Hu Hz Hpp Hh Hm]. constructor; try done. intros q e. cbn [bt_pages set_page bt_shared].
    rewrite lookup_insert. case_decide; [intros [= <-]; by apply Hd|apply Hpp].
  - intros q Hq. rewrite content_set. case_decide; [by subst|done].
Qed.

Lemma frame_pager D t s : frame D s (set_pager t s).
Proof using. constructor; try done. by intros []. Qed.

Lemma frame_isInit D p s : frame D s (clear_isInit p s).
Proof using. constructor; try done; [intros []; constructor; try done; cbn; set_solver|cbn; set_solver]. Qed.

(** ** Rules for the operations

    An operation that started in [s0] fails with its changes in [D]; when the
    pager does not fail, only for lack of memory, if it allocates ([oom]). *)
Definition fails (oom : Prop) (D : Z -> Prop) (s0 : Bt) (rc : Z) (s' : Bt) : Prop :=
  frame D s0 s' /\ (QuietPager T -> oom /\ rc = SQLITE_NOMEM).

Context (oom : Prop) (D : Z -> Prop) (s0 : Bt).

Lemma bt_corrupt {A} s (Q : A -> Bt -> Prop) : frame D s0 s -> (QuietPager T -> False) -> wp (fail SQLITE_CORRUPT) s Q (fails oom D s0).
Proof using. intros Hf Hq. apply bt_fail; [done|]. split; [done|]. intros H. by destruct Hq. Qed.

Lemma bt_get p flags s Q : Z.land flags PAGER_GET_NOCONTENT = 0 -> frame D s0 s -> (QuietPager T -> p <> 0) ->
  (forall t, frame D s0 (set_pager t s) -> p <> 0 -> Q tt (set_pager t s)) -> wp (pager_get p flags) s Q (fails oom D s0).
Proof using.
  intros Hfl Hf Hz HQ. unfold wp, pager_get. rewrite Hfl. destruct (Z.eqb_spec p 0); [split; [done|split; [done|intros H; by apply Hz in H]]|].
  destruct (sqlite3PagerGet (pPager s) p flags) as [rc t] eqn:E. assert (Hf' : frame D s0 (set_pager t s)) by (eapply frame_then; [done|apply frame_pager]).
  destruct (Z.eqb_spec rc SQLITE_OK); cbn [negb]; [by apply HQ|]. split; [done|]. split; [done|].
  intros H. pose proof (quiet_get (pPager s) p flags) as Hq. by rewrite E in Hq.
Qed.

(** The content that a fetch with these flags leaves. *)
Definition fetched (flags p : Z) (s : Bt) : Bt :=
  if negb (Z.land flags PAGER_GET_NOCONTENT =? 0) then set_page p (replicate (Z.to_nat (pageSize (bt_shared s))) 0) s else s.

Lemma frame_fetched flags p s : D p -> frame D s (fetched flags p s).
Proof using.
  intros Hp. unfold fetched. destruct (_ =? 0); cbn [negb]; [apply frame_refl|]. apply frame_set_page; [done|].
  intros [Hu Hz _ _ _]. rewrite zlen_replicate. split; [lia|]. apply Forall_replicate. unfold byte_ok. lia.
Qed.

Lemma bt_get_unused p flags s Q : frame D s0 s -> D p \/ flags = 0 -> (QuietPager T -> p <> 0) ->
  (forall t, let s' := clear_isInit p (fetched flags p (set_pager t s)) in frame D s0 s' -> p <> 0 -> Q tt s') ->
  wp (btreeGetUnusedPage p flags) s Q (fails oom D s0).
Proof using.
  intros Hf Hp Hz HQ. unfold btreeGetUnusedPage, btreeGetPage. apply bt_bind. unfold wp at 1, pager_get.
  destruct (Z.eqb_spec p 0); [split; [done|split; [done|intros H; by apply Hz in H]]|].
  destruct (sqlite3PagerGet (pPager s) p flags) as [rc t] eqn:E.
  assert (Hf' : frame D s0 (set_pager t s)) by (eapply frame_then; [done|apply frame_pager]).
  destruct (Z.eqb_spec rc SQLITE_OK); cbn [negb]; cycle 1.
  { split; [done|]. split; [done|]. intros H. pose proof (quiet_get (pPager s) p flags) as Hq. by rewrite E in Hq. }
  change (if negb (Z.land flags PAGER_GET_NOCONTENT =? 0) then _ else _) with (fetched flags p (set_pager t s)).
  assert (Hf2 : frame D s0 (fetched flags p (set_pager t s))).
  { destruct Hp as [Hp| ->]; [|done]. eapply frame_then; [done|]. by apply frame_fetched. }
  apply bt_bind, bt_gets. rewrite Z.gtb_ltb. destruct (Z.ltb_spec 1 (sqlite3PagerPageRefcount (pPager (fetched flags p (set_pager t s))) p)).
  { apply bt_corrupt; [done|]. intros Hq. pose proof (quiet_refs (pPager (fetched flags p (set_pager t s))) p). lia. }
  apply bt_modify, HQ; [|done]. eapply frame_then; [done|apply frame_isInit].
Qed.

Lemma bt_write p s Q : frame D s0 s -> (forall t, frame D s0 (set_pager t s) -> Q tt (set_pager t s)) ->
  wp (pager_write p) s Q (fails oom D s0).
Proof using.
  intros Hf HQ. unfold wp, pager_write. destruct (sqlite3PagerWrite (pPager s) p) as [rc t] eqn:E.
  assert (Hf' : frame D s0 (set_pager t s)) by (eapply frame_then; [done|apply frame_pager]).
  destruct (Z.eqb_spec rc SQLITE_OK); cbn [negb]; [by apply HQ|]. split; [done|]. split; [done|].
  intros H. pose proof (quiet_write (pPager s) p) as Hq. by rewrite E in Hq.
Qed.

Lemma bt_read4 p i v (s : Bt) Q E : get4 (content s p) i = Some v -> Q v s -> wp (read4 p i) s Q E.
Proof using. intros Hv HQ. unfold wp, read4. by rewrite Hv. Qed.

(** A page with a word changed. *)
Definition word_set (s s' : Bt) (p i v : Z) : Prop :=
  exists d, s' = set_page p d s /\ only i (i + 4) (content s p) d /\ get4 d i = Some v.

Lemma bt_write4 p i v s Q : wf s -> 0 <= i -> i + 4 <= pageSize (bt_shared s) -> 0 <= v < 2 ^ 32 -> D p -> frame D s0 s ->
  (forall s', word_set s s' p i v -> frame D s0 s' -> Q tt s') -> wp (write4 p i v) s Q (fails oom D s0).
Proof using.
  intros Hw Hi Hl Hv Hp Hf HQ. destruct (content_len s p Hw) as [Lc Bc].
  destruct (put4_ok (content s p) i v) as (d & E & O & G); [done|lia|done|]. unfold wp, write4. rewrite E.
  cbn. apply HQ; [by exists d|]. eapply frame_then; [done|]. apply frame_set_page; [done|]. intros _.
  split; [rewrite (on_len _ _ _ _ O); lia|by apply (on_bytes _ _ _ _ O)].
Qed.

(** A page that took [n] bytes of another. *)
Definition copied (s s' : Bt) (p i q j n : Z) : Prop :=
  exists d, s' = set_page p d s /\ only i (i + n) (content s p) d /\ mem_read d i n = mem_read (content s q) j n.

Lemma bt_copy p i q j n s Q : wf s -> 0 <= i -> i + n <= pageSize (bt_shared s) -> 0 <= j -> 0 <= n -> j + n <= pageSize (bt_shared s) ->
  D p -> frame D s0 s ->
  (forall s', copied s s' p i q j n -> frame D s0 s' -> Q tt s') -> wp (copy_page p i q j n) s Q (fails oom D s0).
Proof using.
  intros Hw Hi Hl Hj Hn Hjl Hp Hf HQ. destruct (content_len s p Hw) as [Lc Bc], (content_len s q Hw) as [Lq Bq].
  destruct (mem_read_ok (content s q) j n) as (b & Eb & Lb & Gb); [lia..|].
  destruct (mem_write_ok (content s p) i b) as (d & Ed & O & V); [lia|lia|by eapply mem_read_bytes|].
  unfold wp, copy_page. rewrite Eb. cbn [mbind option_bind]. rewrite Ed. cbn. rewrite Lb in O, V.
  apply HQ.
  - exists d. split; [done|]. split; [done|]. rewrite Eb. destruct (mem_read_ok d i n) as (b' & Eb' & Lb' & Gb'); [lia|lia|rewrite (on_len _ _ _ _ O); lia|].
    rewrite Eb'. f_equal. apply zget_ext; [lia|]. intros k Hk. rewrite Gb', V by lia. f_equal. lia.
  - eapply frame_then; [done|]. apply frame_set_page; [done|]. intros _.
    split; [rewrite (on_len _ _ _ _ O); lia|by apply (on_bytes _ _ _ _ O)].
Qed.

(** ** Entries of the pointer map *)

(** The entry of a page in the pointer map. *)
Definition ptr_type (s : Bt) (p : Z) : option Z := (content s (map_page (bt_shared s) p)).[map_slot (bt_shared s) p].
Definition ptr_parent (s : Bt) (p : Z) : option Z := get4 (content s (map_page (bt_shared s) p)) (map_slot (bt_shared s) p + 1).

(** Another state with the same pages, but for those in [D]. *)
Record edits (D : Z -> Prop) (s s' : Bt) : Prop := {
  ed_frame : frame D s s';
  ed_nPage : nPage s' = nPage s;
  ed_trunc : bDoTruncate s' = bDoTruncate s;
  ed_has : pHasContent s' = pHasContent s;
}.

Lemma bt_ptrmapGet key s Q : wf s -> 1 <= key < 2 ^ 32 -> frame D s0 s ->
  (QuietPager T -> ordinary (bt_shared s) key /\ exists ty, ptr_type s key = Some ty /\ 1 <= ty <= 5) ->
  (forall t ty q, frame D s0 (set_pager t s) -> (2 <= key -> ptr_type s key = Some ty /\ ptr_parent s key = Some q) -> 1 <= ty <= 5 ->
     Q (ty, q) (set_pager t s)) ->
  wp (ptrmapGet key) s Q (fails oom D s0).
Proof using.
  intros Hw Hk Hf Hquiet HQ. pose proof Hw as [Hu Hz _ _ _]. unfold ptrmapGet. apply bt_bind, bt_gets, bt_bind, bt_get; [done|done| |].
  { intros H. destruct (Hquiet H) as [Hord _]. destruct (map_ok _ _ Hu Hz Hord) as (? & _). unfold map_page in *. lia. }
  intros t Ht Hne. apply bt_bind, bt_gets. assert (Hk2 : 2 <= key).
  { destruct (decide (key = 1)) as [->|]; [done|lia]. }
  destruct (ptroffset_ok (bt_shared s) key Hu Hz ltac:(lia)) as (Eo & Hlo & Hhi). fold (map_page (bt_shared s) key). rewrite Eo.
  destruct (Z.ltb_spec (map_slot (bt_shared s) key) 0).
  { apply bt_corrupt; [done|]. intros H'. destruct (Hquiet H') as [Hord _]. destruct (map_ok _ _ Hu Hz Hord) as (_ & ? & _). lia. }
  change (content (set_pager t s) (map_page (bt_shared s) key)) with (content s (map_page (bt_shared s) key)).
  destruct (content_len s (map_page (bt_shared s) key) Hw) as [Lc Bc].
  destruct (zget_some (content s (map_page (bt_shared s) key)) (map_slot (bt_shared s) key)) as [ty Ety]; [lia|].
  destruct (get4_some (content s (map_page (bt_shared s) key)) (map_slot (bt_shared s) key + 1)) as (q & Eq & _); [done|lia|lia|].
  apply bt_bind. eapply bt_lift; [done|]. apply bt_bind. eapply bt_lift; [done|].
  destruct ((ty <? 1) || (ty >? 5)) eqn:Ebad.
  { apply bt_corrupt; [done|]. intros H'. destruct (Hquiet H') as (_ & ty' & Ety' & Hty'). unfold ptr_type in Ety'.
    apply orb_true_iff in Ebad. rewrite Z.gtb_ltb, !Z.ltb_lt in Ebad. assert (ty = ty') by congruence. lia. }
  apply bt_ret, HQ; [done|done|].
  apply orb_false_iff in Ebad as [E1 E2]. rewrite Z.gtb_ltb in E2. lia.
Qed.

Lemma bt_ptrmapPut key ty q s Q : wf s -> ordinary (bt_shared s) key -> 0 <= ty < 256 -> 0 <= q < 2 ^ 32 ->
  D (map_page (bt_shared s) key) -> frame D s0 s ->
  (forall s', frame D s0 s' -> edits (fun p => p = map_page (bt_shared s) key) s s' ->
     ptr_type s' key = Some ty -> ptr_parent s' key = Some q ->
     (forall k, ordinary (bt_shared s) k -> k <> key -> ptr_type s' k = ptr_type s k /\ ptr_parent s' k = ptr_parent s k) -> Q tt s') ->
  wp (ptrmapPut key ty q) s Q (fails oom D s0).
Proof using.
  intros Hw Hk Hty Hq HD Hf HQ. pose proof Hw as [Hu Hz _ _ Hmap]. destruct (map_ok (bt_shared s) key Hu Hz Hk) as (Hm & Hlo & Hhi & _).
  unfold ptrmapPut. rewrite (proj2 (Z.eqb_neq key 0)) by lia. apply bt_bind, bt_gets, bt_bind, bt_get; [done|done|unfold map_page in *; lia|].
  fold (map_page (bt_shared s) key). intros t Ht _. apply bt_bind, bt_gets. cbn [bt_isInit set_pager].
  rewrite bool_decide_eq_false_2 by (by apply Hmap).
  destruct (ptroffset_ok (bt_shared s) key Hu Hz ltac:(destruct Hk; lia)) as (Eo & _ & _). rewrite Eo.
  rewrite (proj2 (Z.ltb_ge _ 0)) by lia. apply bt_bind, bt_gets.
  change (content (set_pager t s) (map_page (bt_shared s) key)) with (content s (map_page (bt_shared s) key)).
  destruct (content_len s (map_page (bt_shared s) key) Hw) as [Lc Bc].
  destruct (zget_some (content s (map_page (bt_shared s) key)) (map_slot (bt_shared s) key)) as [ty0 Ety]; [lia|].
  destruct (get4_some (content s (map_page (bt_shared s) key)) (map_slot (bt_shared s) key + 1)) as (q0 & Eq & _); [done|lia|lia|].
  apply bt_bind. eapply bt_lift; [done|]. apply bt_bind. eapply bt_lift; [done|].
  destruct (negb (ty =? ty0) || negb (q0 =? q)) eqn:Ediff; cycle 1.
  { apply orb_false_iff in Ediff as [E1%negb_false_iff%Z.eqb_eq E2%negb_false_iff%Z.eqb_eq]. subst ty0 q0.
    apply bt_ret, HQ; try done. constructor; [apply frame_pager|done..]. }
  apply bt_bind, bt_write; [done|]. intros t2 Ht2. apply bt_bind, bt_gets.
  change (content (set_pager t2 (set_pager t s)) (map_page (bt_shared s) key)) with (content s (map_page (bt_shared s) key)).
  destruct (only_set (content s (map_page (bt_shared s) key)) (map_slot (bt_shared s) key) (u8 ty)) as (d1 & E1 & O1 & V1); [lia|apply u8_ok|].
  rewrite E1. cbn [mbind option_bind]. pose proof (on_len _ _ _ _ O1) as L1.
  destruct (put4_ok d1 (map_slot (bt_shared s) key + 1) q) as (d2 & E2 & O2 & V2); [lia|lia|done|].
  apply bt_bind. eapply bt_lift; [exact E2|]. apply bt_modify.
  assert (O : only (map_slot (bt_shared s) key) (map_slot (bt_shared s) key + 5) (content s (map_page (bt_shared s) key)) d2).
  { eapply only_trans; eapply only_weaken; try eassumption; lia. }
  assert (Hfr : forall D' : Z -> Prop, D' (map_page (bt_shared s) key) ->
            frame D' (set_pager t2 (set_pager t s)) (set_page (map_page (bt_shared s) key) d2 (set_pager t2 (set_pager t s)))).
  { intros D' HD'. apply frame_set_page; [done|]. intros _. split; [rewrite (on_len _ _ _ _ O); done|by apply (on_bytes _ _ _ _ O)]. }
  assert (Ec : forall k, map_page (bt_shared s) k = map_page (bt_shared s) key ->
            content (set_page (map_page (bt_shared s) key) d2 (set_pager t2 (set_pager t s))) (map_page (bt_shared s) k) = d2).
  { intros k ->. rewrite content_set. by rewrite decide_True. }
  apply HQ; try done.
  - eapply frame_then; [done|]. by apply Hfr.
  - constructor; try done. eapply frame_then; [apply frame_pager|]. eapply frame_then; [apply frame_pager|]. by apply Hfr.
  - unfold ptr_type. cbn [bt_shared set_page set_pager]. rewrite Ec by done.
    rewrite (on_get _ _ _ _ O2) by lia. rewrite V1. f_equal. apply u8_small. lia.
  - unfold ptr_parent. cbn [bt_shared set_page set_pager]. by rewrite Ec.
  - intros k Hk2 Hne. unfold ptr_type, ptr_parent. cbn [bt_shared set_page set_pager].
    destruct (map_ok (bt_shared s) k Hu Hz Hk2) as (Hmk & Hlk & Hhk & _).
    destruct (decide (map_page (bt_shared s) k = map_page (bt_shared s) key)) as [Em|Em].
    + rewrite Ec, Em by done. assert (map_slot (bt_shared s) k + 5 <= map_slot (bt_shared s) key \/ map_slot (bt_shared s) key + 5 <= map_slot (bt_shared s) k)
        by (unfold map_slot in *; lia).
      split; [apply (on_get _ _ _ _ O); lia|apply (only_get4 _ _ _ _ _ O); lia].
    + rewrite content_set, decide_False by done. done.
Qed.

(** ** Content that a rollback needs *)

(** The page may not be fetched without its content. *)
Definition has_content (s : Bt) (p : Z) : Prop :=
  match pHasContent s with Some v => iSize v < p \/ bit BITVEC_DEPTH v (p - 1) | None => False end.

Lemma bt_setHas pgno s Q : oom -> wf s -> 1 <= pgno <= nPage s -> nPage s < 2 ^ 32 -> frame D s0 s ->
  (forall v a, let s' := set_hasContent v a s in frame D s0 s' -> has_content s' pgno ->
     (forall p, 1 <= p -> has_content s p -> has_content s' p) -> Q tt s') ->
  wp (btreeSetHasContent pgno) s Q (fails oom D s0).
Proof using.
  intros Hoom Hw Hp Hn Hf HQ. pose proof Hw as [Hu Hz Hpg Hh Hm].
  assert (Hframe : forall v a, match v with Some v => bitvec_ok v | None => True end -> frame D s0 (set_hasContent v a s)).
  { intros v a Hv. eapply frame_then; [done|]. constructor; done. }
  unfold wp, btreeSetHasContent.
  assert (Hset : forall p a, bitvec_ok p -> (forall q, 1 <= q -> has_content s q -> iSize p < q \/ bit BITVEC_DEPTH p (q - 1)) ->
    match (if pgno <=? sqlite3BitvecSize p then '(rc, v, a) ← sqlite3BitvecSet (Some p) pgno a;
             Some (if rc =? SQLITE_OK then inr tt else inl rc, set_hasContent v a s) else Some (inr tt, set_hasContent (Some p) a s)) with
    | Some (inr u, s') => Q u s' | Some (inl rc, s') => rc <> SQLITE_OK /\ fails oom D s0 rc s' | None => False end).
  { intros p a Hpo Hmono. unfold sqlite3BitvecSize. destruct (Z.leb_spec pgno (iSize p)) as [Hle|Hgt].
    - destruct (sqlite3BitvecSet_ok p pgno a Hpo) as (rc & p' & a' & E & [Hwf Hsz Hrcs _ Hset]); [lia|]. rewrite E. cbn [mbind option_bind].
      destruct (Z.eqb_spec rc SQLITE_OK) as [Hrc|Hrc]; [|split; [done|split; [by apply Hframe|by destruct Hrcs]]].
      apply HQ; [by apply Hframe| |].
      + right. apply Hset; [done|lia|by left].
      + intros q Hq1 Hq. unfold has_content. cbn [pHasContent set_hasContent]. rewrite Hsz.
        destruct (decide (iSize p < q)); [by left|right]. apply Hset; [done|lia|right].
        by destruct (Hmono q Hq1 Hq); [lia|].
    - apply HQ; [by apply Hframe|by left|done]. }
  destruct (pHasContent s) as [v|] eqn:Ev.
  - apply Hset; [done|]. intros q _ Hq. unfold has_content in Hq. by rewrite Ev in Hq.
  - unfold sqlite3BitvecCreate. destruct (malloc (bt_alloc s)) as [[] a].
    + apply Hset; [apply create_ok; lia|]. intros q _ Hq. unfold has_content in Hq. by rewrite Ev in Hq.
    + split; [done|]. split; [by apply Hframe|done].
Qed.

Lemma bt_getHas pgno s Q : wf s -> 1 <= pgno < 2 ^ 32 -> (forall b : bool, (b = true <-> has_content s pgno) -> Q b s) ->
  wp (btreeGetHasContent pgno) s Q (fails oom D s0).
Proof using.
  intros [_ _ _ Hh _] Hp HQ. unfold wp, btreeGetHasContent, has_content in *. destruct (pHasContent s) as [v|]; [|by apply HQ].
  unfold sqlite3BitvecSize. rewrite Z.gtb_ltb. destruct (Z.ltb_spec (iSize v) pgno); [apply HQ; split; [by left|done]|].
  destruct (sqlite3BitvecTest_ok v pgno Hh) as (b & E & Hb); [lia|]. cbn [sqlite3BitvecTest] in E. rewrite E. cbn [mbind option_bind].
  apply HQ. rewrite Hb. split; [intros [_ ?]; by right|intros [|]; [lia|split; [lia|done]]].
Qed.
End state.

Section edits.
Context {T : Type} {P : Pager T}.
Abbreviation Bt := (Bt T).

Lemma edits_refl D (s : Bt) : edits D s s.
Proof using. constructor; [apply frame_refl|done..]. Qed.

Lemma edits_trans D (s1 s2 s3 : Bt) : edits D s1 s2 -> edits D s2 s3 -> edits D s1 s3.
Proof using. intros [] []. constructor; [by eapply frame_then|congruence..]. Qed.

Lemma edits_weaken (D D' : Z -> Prop) (s s' : Bt) : (forall p, D p -> D' p) -> edits D s s' -> edits D' s s'.
Proof using. intros HD []. constructor; [by eapply frame_weaken|done..]. Qed.

Lemma edits_pager D t (s : Bt) : edits D s (set_pager t s).
Proof using. constructor; [apply frame_pager|done..]. Qed.

Lemma edits_isInit D p (s : Bt) : edits D s (clear_isInit p s).
Proof using. constructor; [apply frame_isInit|done..]. Qed.

Lemma edits_set_page (D : Z -> Prop) p d (s : Bt) : D p -> zlen d = zlen (content s p) -> (bytes_ok (content s p) -> bytes_ok d) -> edits D s (set_page p d s).
Proof using.
  intros Hp Hl Hb. constructor; [|done..]. apply frame_set_page; [done|]. intros Hw. destruct (content_len s p Hw) as [? ?]. split; [congruence|auto].
Qed.

Lemma edits_word (D : Z -> Prop) (s s' : Bt) p i v : D p -> word_set s s' p i v ->
  edits D s s' /\ only i (i + 4) (content s p) (content s' p) /\ get4 (content s' p) i = Some v.
Proof using.
  intros Hp (d & -> & O & G). rewrite content_set, decide_True by done. split; [|done]. apply edits_set_page; [done|apply (on_len _ _ _ _ O)|apply (on_bytes _ _ _ _ O)].
Qed.

Lemma edits_copied (D : Z -> Prop) (s s' : Bt) p i q j n : D p -> copied s s' p i q j n ->
  edits D s s' /\ only i (i + n) (content s p) (content s' p) /\ mem_read (content s' p) i n = mem_read (content s q) j n.
Proof using.
  intros Hp (d & -> & O & G). rewrite content_set, decide_True by done. split; [|done]. apply edits_set_page; [done|apply (on_len _ _ _ _ O)|apply (on_bytes _ _ _ _ O)].
Qed.

Lemma edits_fetched (D : Z -> Prop) flags p (s : Bt) : D p \/ flags = 0 -> wf s -> edits D s (fetched flags p s).
Proof using.
  intros HD Hw. unfold fetched. destruct (Z.land flags PAGER_GET_NOCONTENT =? 0) eqn:E; cbn [negb]; [apply edits_refl|].
  destruct HD as [HD| ->]; [|done]. destruct (content_len s p Hw) as [Lc _]. pose proof (wf_pageSize _ Hw). apply edits_set_page; [done| |].
  - rewrite zlen_replicate, Lc. lia.
  - intros _. apply Forall_replicate. unfold byte_ok. lia.
Qed.

(** What the pages show. *)
Lemma edits_content D (s s' : Bt) p : edits D s s' -> ~ D p -> content s' p = content s p.
Proof using. intros [[_ _ _ Hc _ _] _ _ _]. apply Hc. Qed.
Lemma edits_shared D (s s' : Bt) : edits D s s' -> bt_shared s' = bt_shared s.
Proof using. by intros [[] _ _ _]. Qed.
Lemma edits_vacuum D (s s' : Bt) : edits D s s' -> autoVacuum s' = autoVacuum s.
Proof using. by intros [[] _ _ _]. Qed.
Lemma edits_wf D (s s' : Bt) : edits D s s' -> wf s -> wf s'.
Proof using. by intros [[] _ _ _]. Qed.
Lemma edits_in_frame (D D' : Z -> Prop) (s0 s s' : Bt) : frame D s0 s -> edits D' s s' -> (forall p, D' p -> D p) -> frame D s0 s'.
Proof using. intros Hf [He _ _ _] HD. eapply frame_then; [done|]. by eapply frame_weaken. Qed.
Lemma edits_has_content D (s s' : Bt) p : edits D s s' -> has_content s p -> has_content s' p.
Proof using. intros [_ _ _ Hh]. unfold has_content. by rewrite Hh. Qed.
End edits.
