(* ===== verification/BtFree.v ===== *)
(** The list of free pages (btree.c): [allocateBtreePage], [freePage2]. *)
From S2P Require Import Prelude.
From S2P Require Import Bits.
From S2P Require Import Util.
From S2P Require Import Vfs.
From S2P Require Import Mem.
From S2P Require Import Bitvec.
From S2P Require Import BtPage.
From S2P Require Import BtPages.
Open Scope Z_scope.

Definition BTALLOC_ANY : Z := 0.
Definition BTALLOC_EXACT : Z := 1.
Definition BTALLOC_LE : Z := 2.

Section code.
Context {T : Type} {P : Pager T}.
Abbreviation Bt := (Bt T).
Abbreviation M := (M T).

(** ** Allocation *)

(** [for(i=0; i<k; i++)]: the first leaf that is not after [nearby], else 0. *)
Fixpoint closest_le (n : nat) (aData : list Z) (i nearby : Z) : option Z :=
  match n with
  | O => Some 0
  | S n =>
      iPage ← get4 aData (8 + i * 4);
      if iPage <=? nearby then Some i else closest_le n aData (i + 1) nearby
  end.

(** [for(i=1; i<k; i++)]: the nearest leaf; [closest] has distance [dist]. *)
Fixpoint closest_any (n : nat) (aData : list Z) (i nearby closest dist : Z) : option Z :=
  match n with
  | O => Some closest
  | S n =>
      iPage ← get4 aData (8 + i * 4);
      let d2 := sqlite3AbsInt32 (i32 (u32 (iPage - nearby))) in
      if d2 <? dist then closest_any n aData (i + 1) nearby i d2
      else closest_any n aData (i + 1) nearby closest dist
  end.

Definition closest_leaf (aData : list Z) (k nearby eMode : Z) : option Z :=
  if nearby >? 0 then
    if eMode =? BTALLOC_LE then closest_le (Z.to_nat k) aData 0 nearby
    else
      iPage ← get4 aData 8;
      closest_any (Z.to_nat (k - 1)) aData 1 nearby 0 (sqlite3AbsInt32 (i32 (u32 (iPage - nearby))))
  else Some 0.

(** The trunk page [iTrunk] is needed, but it has leaves: the first of them becomes
    a trunk page; [prev] is the trunk before it, or 0. *)
Definition replace_trunk (mxPage k iTrunk prev : Z) : M unit :=
  let! iNewTrunk := read4 iTrunk 8 in
  if iNewTrunk >? mxPage then fail SQLITE_CORRUPT
  else
    btreeGetUnusedPage iNewTrunk 0 ;;;
    pager_write iNewTrunk ;;;
    copy_page iNewTrunk 0 iTrunk 0 4 ;;;
    write4 iNewTrunk 4 (u32 (k - 1)) ;;;
    copy_page iNewTrunk 8 iTrunk 12 ((k - 1) * 4) ;;;
    if prev =? 0 then write4 1 32 iNewTrunk
    else
      pager_write prev ;;;
      write4 prev 0 iNewTrunk.

(** The trunk page [iTrunk] itself is the page to allocate. *)
Definition take_trunk (mxPage k iTrunk prev : Z) : M unit :=
  pager_write iTrunk ;;;
  if k =? 0 then
    if prev =? 0 then copy_page 1 32 iTrunk 0 4
    else
      pager_write prev ;;;
      copy_page prev 0 iTrunk 0 4
  else replace_trunk mxPage k iTrunk prev.

(** The leaf [closest], the page [iPage], is the page to allocate. *)
Definition take_leaf (k iTrunk closest iPage : Z) : M unit :=
  pager_write iTrunk ;;;
  (if closest <? k - 1 then copy_page iTrunk (8 + closest * 4) iTrunk (4 + k * 4) 4 else ret tt) ;;;
  write4 iTrunk 4 (u32 (k - 1)) ;;;
  let! has := btreeGetHasContent iPage in
  btreeGetUnusedPage iPage (if negb has then PAGER_GET_NOCONTENT else 0) ;;;
  pager_write iPage.

(** At the trunk page [iTrunk], which has [k] leaves; [again] is the rest of
    the search. *)
Definition alloc_visit (mxPage nearby eMode : Z) (searchList : bool) (prev iTrunk : Z) (again : M Z) : M Z :=
  let! k := read4 iTrunk 4 in
  let! usable := gets (fun s => usableSize (bt_shared s)) in
  if (k =? 0) && negb searchList then
    pager_write iTrunk ;;;
    copy_page 1 32 iTrunk 0 4 ;;;
    ret iTrunk
  else if k >? u32 (usable / 4 - 2) then fail SQLITE_CORRUPT
  else if searchList && ((nearby =? iTrunk) || (iTrunk <? nearby) && (eMode =? BTALLOC_LE)) then
    take_trunk mxPage k iTrunk prev ;;;
    ret iTrunk
  else if k >? 0 then
    let! aData := gets (fun s => content s iTrunk) in
    let! closest := lift (closest_leaf aData k nearby eMode) in
    let! iPage := read4 iTrunk (8 + closest * 4) in
    if (iPage >? mxPage) || (iPage <? 2) then fail SQLITE_CORRUPT
    else if negb searchList || ((iPage =? nearby) || (iPage <? nearby) && (eMode =? BTALLOC_LE)) then
      take_leaf k iTrunk closest iPage ;;;
      ret iPage
    else again
  else again.

(** The loop over the trunk pages: [prev] is the last one, or 0; the loop goes
    on only while the list is searched. *)
Fixpoint alloc_loop (fuel : nat) (mxPage n nearby eMode : Z) (searchList : bool) (nSearch prev : Z) : M Z :=
  match fuel with
  | O => undefined
  | S fuel =>
      let! iTrunk := (if negb (prev =? 0) then read4 prev 0 else read4 1 32) in
      if (iTrunk >? mxPage) || (nSearch >? n) then fail SQLITE_CORRUPT
      else
        btreeGetUnusedPage iTrunk 0 ;;;
        alloc_visit mxPage nearby eMode searchList prev iTrunk
          (alloc_loop fuel mxPage n nearby eMode searchList (nSearch + 1) iTrunk)
  end.

(** [pBt->nPage++], past the page that is never used. *)
Definition next_nPage : M unit :=
  modify (fun s =>
    let n := u32 (nPage s + 1) in
    set_nPage (if n =? PENDING_BYTE_PAGE (bt_shared s) then u32 (n + 1) else n) s).

Definition append_page : M Z :=
  let! trunc := gets bDoTruncate in
  let bNoContent := if trunc : bool then 0 else PAGER_GET_NOCONTENT in
  pager_write 1 ;;;
  next_nPage ;;;
  let! map := gets (fun s => autoVacuum s && PTRMAP_ISPAGE (bt_shared s) (nPage s)) in
  (if map : bool then
     let! n := gets nPage in
     btreeGetUnusedPage n bNoContent ;;;
     pager_write n ;;;
     next_nPage
   else ret tt) ;;;
  let! n := gets nPage in
  write4 1 28 n ;;;
  btreeGetUnusedPage n bNoContent ;;;
  pager_write n ;;;
  ret n.

(** Whether the list is searched. *)
Definition search_mode (nearby eMode mxPage : Z) : M bool :=
  if eMode =? BTALLOC_EXACT then
    if nearby <=? mxPage then let! e := ptrmapGet nearby in ret (e.1 =? PTRMAP_FREEPAGE) else ret false
  else ret (eMode =? BTALLOC_LE).

(** The page that was allocated. *)
Definition allocateBtreePage (nearby eMode : Z) : M Z :=
  let! mxPage := gets nPage in
  let! n := read4 1 36 in
  if n >=? mxPage then fail SQLITE_CORRUPT
  else if n >? 0 then
    let! searchList := search_mode nearby eMode mxPage in
    pager_write 1 ;;;
    write4 1 36 (n - 1) ;;;
    alloc_loop (Z.to_nat n + 3) mxPage n nearby eMode searchList 0 0
  else append_page.

(** ** Freeing *)

(** The page becomes the first trunk page. *)
Definition new_trunk (have : bool) (iTrunk iPage : Z) : M unit :=
  (if have then ret tt else btreeGetPage iPage 0) ;;;
  pager_write iPage ;;;
  write4 iPage 0 iTrunk ;;;
  write4 iPage 4 0 ;;;
  write4 1 32 iPage.

(** The page becomes the last leaf of the trunk page [iTrunk]. *)
Definition new_leaf (dontWrite : bool) (nLeaf iTrunk iPage : Z) : M unit :=
  pager_write iTrunk ;;;
  write4 iTrunk 4 (nLeaf + 1) ;;;
  write4 iTrunk (8 + nLeaf * 4) iPage ;;;
  (if dontWrite then modify (fun s => set_pager (sqlite3PagerDontWrite (pPager s) iPage) s) else ret tt) ;;;
  btreeSetHasContent iPage.

(** [have]: the page is in memory. *)
Definition link_free (have secure : bool) (nFree iPage : Z) : M unit :=
  if negb (nFree =? 0) then
    let! iTrunk := read4 1 32 in
    let! mx := gets nPage in
    if iTrunk >? mx then fail SQLITE_CORRUPT
    else
      btreeGetPage iTrunk 0 ;;;
      let! nLeaf := read4 iTrunk 4 in
      let! usable := gets (fun s => usableSize (bt_shared s)) in
      if nLeaf >? usable / 4 - 2 then fail SQLITE_CORRUPT
      else if nLeaf <? usable / 4 - 8 then new_leaf (have && negb secure) nLeaf iTrunk iPage
      else new_trunk have iTrunk iPage
  else new_trunk have 0 iPage.

(** Before the page is linked in: the page and its entry in the pointer map. *)
Definition free_prepare (have secure vacuum : bool) (iPage : Z) : M unit :=
  (if secure then
     (if have then ret tt else btreeGetPage iPage 0) ;;;
     pager_write iPage ;;;
     modify (fun s => set_page iPage (replicate (Z.to_nat (pageSize (bt_shared s))) 0) s)
   else ret tt) ;;;
  (if vacuum then ptrmapPut iPage PTRMAP_FREEPAGE 0 else ret tt).

(** [given]: the page was passed, not only its number.  At the end the page is
    no longer initialised; a page that is not in memory never is. *)
Definition freePage2 (given : bool) (iPage : Z) : M unit :=
  let! mx := gets nPage in
  if (iPage <? 2) || (iPage >? mx) then fail SQLITE_CORRUPT
  else
    let! have := gets (fun s => given || sqlite3PagerLookup (pPager s) iPage) in
    finally
      (pager_write 1 ;;;
       let! nFree := read4 1 36 in
       write4 1 36 (u32 (nFree + 1)) ;;;
       let! secure := gets (fun s => negb (Z.land (btsFlags (bt_shared s)) BTS_SECURE_DELETE =? 0)) in
       let! vacuum := gets autoVacuum in
       free_prepare have secure vacuum iPage ;;;
       link_free (have || secure) secure nFree iPage)
      (clear_isInit iPage).

Definition freePage (pgno : Z) : M unit := freePage2 true pgno.
End code.

(** * The list

    A trunk page holds the number of the next one, and the number of its
    leaves, which follow. *)
Section list.
Context {T : Type}.
Abbreviation Bt := (Bt T).

Record trunk_at (s : Bt) (t next : Z) (ls : list Z) : Prop := {
  tr_next : get4 (content s t) 0 = Some next;
  tr_count : get4 (content s t) 4 = Some (zlen ls);
  tr_room : zlen ls <= usableSize (bt_shared s) / 4 - 2;
  tr_leaf : forall i, 0 <= i < zlen ls -> get4 (content s t) (8 + i * 4) = ls.[i];
}.

(** From [first], the trunks [tl] lead to [last]. *)
Fixpoint seg (s : Bt) (first : Z) (tl : list (Z * list Z)) (last : Z) : Prop :=
  match tl with
  | [] => first = last
  | (t, ls) :: tl => first = t /\ exists next, trunk_at s t next ls /\ seg s next tl last
  end.

Definition trunks (tl : list (Z * list Z)) : list Z := tl.*1.
Definition free_pages (tl : list (Z * list Z)) : list Z := concat ((fun '(t, ls) => t :: ls) <$> tl).

(** A page that may be on the list. *)
Definition usable_page (s : Bt) (p : Z) : Prop := 2 <= p <= nPage s /\ (autoVacuum s = true -> ordinary (bt_shared s) p).

(** One that holds data, or is on the list. *)
Definition data_page (s : Bt) (p : Z) : Prop := usable_page s p /\ p <> PENDING_BYTE_PAGE (bt_shared s).

Record free_list (s : Bt) (tl : list (Z * list Z)) : Prop := {
  fl_first : exists first, get4 (content s 1) 32 = Some first /\ seg s first tl 0;
  fl_count : get4 (content s 1) 36 = Some (zlen (free_pages tl));
  fl_nodup : NoDup (free_pages tl);
  fl_range : Forall (usable_page s) (free_pages tl);
  fl_map : autoVacuum s = true -> Forall (fun p => ptr_type s p = Some PTRMAP_FREEPAGE) (free_pages tl);
}.

Lemma free_pages_app a b : free_pages (a ++ b) = free_pages a ++ free_pages b.
Proof using. unfold free_pages. by rewrite fmap_app, concat_app. Qed.

Lemma free_pages_cons t ls tl : free_pages ((t, ls) :: tl) = t :: ls ++ free_pages tl.
Proof using. done. Qed.

Lemma trunks_free tl : trunks tl ⊆ free_pages tl.
Proof using.
  induction tl as [|[t ls] tl IH]; [done|]. rewrite free_pages_cons. cbn [trunks fmap list_fmap fst]. intros p. rewrite !elem_of_cons, elem_of_app.
  intros [->|Hp]; [by left|]. right. right. by apply IH.
Qed.

Lemma trunks_length tl : zlen tl <= zlen (free_pages tl).
Proof using.
  induction tl as [|[t ls] tl IH]; [done|]. rewrite free_pages_cons, !zlen_cons, zlen_app. pose proof (zlen_nonneg ls). lia.
Qed.

Lemma free_list_length s tl : free_list s tl -> 1 <= nPage s -> zlen (free_pages tl) < nPage s.
Proof using.
  intros [_ _ Hnd Hr _] Hn. assert (Hsub : free_pages tl ⊆+ seqZ 2 (nPage s - 1)).
  { apply NoDup_submseteq; [done|]. intros p Hp. rewrite list.Forall_forall in Hr. destruct (Hr p Hp). apply elem_of_seqZ. lia. }
  apply submseteq_length in Hsub. rewrite length_seqZ in Hsub. unfold zlen. lia.
Qed.

(** The list is what its trunk pages hold. *)
Lemma trunk_ext s s' t next ls : bt_shared s' = bt_shared s -> content s' t = content s t -> trunk_at s t next ls -> trunk_at s' t next ls.
Proof using. intros Eb Ec []. constructor; rewrite ?Ec, ?Eb; done. Qed.

Lemma seg_ext s s' tl : forall first last, bt_shared s' = bt_shared s -> (forall t, t ∈ trunks tl -> content s' t = content s t) ->
  seg s first tl last -> seg s' first tl last.
Proof using.
  induction tl as [|[t ls] tl IH]; intros first last Eb Ec; [done|]. cbn [seg]. intros [-> (next & Ht & Hs)]. split; [done|].
  exists next. split; [eapply trunk_ext; [done| |done]; apply Ec; by left|]. apply IH; [done| |done]. intros t' Ht'. apply Ec. by right.
Qed.

Lemma seg_app s a : forall b first last, seg s first (a ++ b) last <-> exists mid, seg s first a mid /\ seg s mid b last.
Proof using.
  induction a as [|[t ls] a IH]; intros b first last; cbn [app seg].
  - split; [by exists first|]. by intros (mid & -> & ?).
  - split.
    + intros [-> (next & Ht & Hs)]. apply IH in Hs as (mid & Ha & Hb). exists mid. split; [|done]. split; [done|]. by exists next.
    + intros (mid & [-> (next & Ht & Ha)] & Hb). split; [done|]. exists next. split; [done|]. apply IH. by exists mid.
Qed.

Lemma free_list_ext s s' tl : bt_shared s' = bt_shared s -> autoVacuum s' = autoVacuum s -> nPage s' = nPage s ->
  (forall q, q ∈ 1 :: trunks tl -> content s' q = content s q) ->
  (forall q, autoVacuum s = true -> q ∈ free_pages tl -> ptr_type s' q = ptr_type s q) ->
  free_list s tl -> free_list s' tl.
Proof using.
  intros Eb Ev En Ec Em [(first & Hf & Hs) Hc Hnd Hr Hm]. constructor.
  - exists first. split; [by rewrite Ec by by left|]. eapply seg_ext; [done| |done]. intros q Hq. apply Ec. by right.
  - by rewrite Ec by by left.
  - done.
  - eapply List.Forall_impl; [|exact Hr]. intros q. unfold usable_page. by rewrite Eb, Ev, En.
  - rewrite Ev. intros Hv. specialize (Hm Hv). rewrite list.Forall_forall in Hm |- *. intros q Hq. rewrite Em by done. by apply Hm.
Qed.

(** ** Changing a trunk page *)

(** Where the number of the page after [pre] is: in its last trunk, or in page 1. *)
Definition link_page (pre : list (Z * list Z)) : Z := default 1 (list.last (trunks pre)).
Definition link_off (pre : list (Z * list Z)) : Z := match pre with [] => 32 | _ => 0 end.

(** [pPrevTrunk], or 0. *)
Definition prev_of (pre : list (Z * list Z)) : Z := match pre with [] => 0 | _ => link_page pre end.

Definition linked (s : Bt) (pre : list (Z * list Z)) (mid : Z) : Prop :=
  exists first, get4 (content s 1) 32 = Some first /\ seg s first pre mid.

Lemma link_snoc pre t ls : link_page (pre ++ [(t, ls)]) = t /\ link_off (pre ++ [(t, ls)]) = 0.
Proof using.
  unfold link_page, trunks. rewrite fmap_app. cbn [fmap list_fmap fst]. rewrite last_snoc. split; [done|]. by destruct pre.
Qed.

Lemma linked_snoc s pre t ls mid : linked s (pre ++ [(t, ls)]) mid <-> linked s pre t /\ trunk_at s t mid ls.
Proof using.
  unfold linked. split.
  - intros (first & Hf & Hs). apply seg_app in Hs as (m & Ha & -> & next & Ht & <-). split; [by exists first|done].
  - intros [(first & Hf & Hs) Ht]. exists first. split; [done|]. apply seg_app. exists t. split; [done|]. split; [done|]. by exists mid.
Qed.

Lemma linked_get s pre mid : linked s pre mid -> get4 (content s (link_page pre)) (link_off pre) = Some mid.
Proof using.
  induction pre as [|[t ls] pre _] using rev_ind; intros Hl.
  - destruct Hl as (first & Hf & ->). done.
  - destruct (link_snoc pre t ls) as [-> ->]. by apply linked_snoc in Hl as [_ []].
Qed.

Lemma link_in pre : link_page pre ∈ 1 :: trunks pre.
Proof using.
  induction pre as [|[t ls] pre _] using rev_ind; [by left|]. destruct (link_snoc pre t ls) as [-> _]. right. unfold trunks. rewrite fmap_app.
  apply elem_of_app. right. by left.
Qed.

(** The number after [pre] becomes [v]. *)
Lemma relink s s' pre mid v : linked s pre mid -> NoDup (1 :: trunks pre) -> bt_shared s' = bt_shared s ->
  (forall q, q ∈ 1 :: trunks pre -> q <> link_page pre -> content s' q = content s q) ->
  only (link_off pre) (link_off pre + 4) (content s (link_page pre)) (content s' (link_page pre)) ->
  get4 (content s' (link_page pre)) (link_off pre) = Some v -> linked s' pre v.
Proof using.
  induction pre as [|[t ls] pre _] using rev_ind; intros Hl Hnd Eb Hq Ho Hv.
  - by exists v.
  - destruct (link_snoc pre t ls) as [Ep Eo]. rewrite Ep, Eo in *. apply linked_snoc in Hl as [(first & Hf & Hs) Ht].
    assert (Hin : trunks (pre ++ [(t, ls)]) = trunks pre ++ [t]) by (unfold trunks; by rewrite fmap_app).
    rewrite Hin in *. change (1 :: trunks pre ++ [t]) with ((1 :: trunks pre) ++ [t]) in *.
    apply list.NoDup_app in Hnd as (_ & Hnd & _). assert (Hne : forall q, q ∈ 1 :: trunks pre -> content s' q = content s q).
    { intros q Hin'. apply Hq; [apply elem_of_app; by left|]. intros ->. apply (Hnd t Hin'). by left. }
    apply linked_snoc. split.
    + exists first. split; [by rewrite Hne by by left|]. eapply seg_ext; [done| |done]. intros q Hq'. apply Hne. by right.
    + destruct Ht as [Hn Hc Hr Hlf]. constructor; [done| |by rewrite Eb|].
      * rewrite <- Hc. apply (only_get4 _ _ _ _ _ Ho). lia.
      * intros i Hi. rewrite <- Hlf by done. apply (only_get4 _ _ _ _ _ Ho). lia.
Qed.

Lemma linked_ext s s' pre mid : linked s pre mid -> bt_shared s' = bt_shared s ->
  (forall q, q ∈ 1 :: trunks pre -> content s' q = content s q) -> linked s' pre mid.
Proof using.
  intros (first & Hf & Hs) Eb Hq. exists first. split; [by rewrite Hq by by left|]. eapply seg_ext; [done| |done].
  intros q Hin. apply Hq. by right.
Qed.

(** The last element takes the place of the one that is removed. *)
Lemma swap_remove (ls : list Z) c x : ls.[c] = Some x -> exists ls', ls ≡ₚ x :: ls' /\ zlen ls' = zlen ls - 1 /\
  forall i, 0 <= i < zlen ls' -> ls'.[i] = if i =? c then ls.[zlen ls - 1] else ls.[i].
Proof using.
  intros Hx. pose proof (zget_range _ _ _ Hx) as Hc. destruct ls as [|z l _] using rev_ind; [change (zlen (@nil Z)) with 0 in Hc; lia|].
  rewrite zlen_app in *. change (zlen [z]) with 1 in *. replace (zlen l + 1 - 1) with (zlen l) by lia.
  rewrite (zget_app_r l [z] (zlen l)), Z.sub_diag by lia. change ([z].[0]) with (Some z).
  destruct (decide (c = zlen l)) as [->|Hne].
  - rewrite zget_app_r, Z.sub_diag in Hx by lia. injection Hx as <-. exists l. split; [symmetry; apply Permutation_cons_append|]. split; [done|].
    intros i Hi. rewrite (proj2 (Z.eqb_neq i (zlen l))) by lia. by rewrite zget_app_l by lia.
  - rewrite zget_app_l in Hx by lia. rewrite zget_to_nat in Hx by lia. apply list_elem_of_split_length in Hx as (l1 & l2 & -> & El).
    exists (l1 ++ z :: l2). assert (L1 : zlen l1 = c) by (unfold zlen; lia). split; [|split].
    + rewrite <- app_assoc. cbn [app]. rewrite <- Permutation_middle. constructor. apply Permutation_app_head. symmetry. apply Permutation_cons_append.
    + rewrite !zlen_app, !zlen_cons. done.
    + intros i Hi. rewrite zlen_app, zlen_cons in Hi. destruct (Z.eqb_spec i c) as [->|Hic].
      * rewrite zget_app_r by lia. by rewrite L1, Z.sub_diag.
      * rewrite (zget_app_l (l1 ++ x :: l2)) by (rewrite ?zlen_app, ?zlen_cons; lia). destruct (Z.lt_ge_cases i c).
        -- by rewrite !zget_app_l by lia.
        -- rewrite !zget_app_r by lia. by rewrite !zget_cons_pos by lia.
Qed.
End list.

(** * The leaf nearest to [nearby] *)

(** The page that a search looks for. *)
Definition wanted (eMode nearby p : Z) : Prop := p = nearby \/ p < nearby /\ eMode = BTALLOC_LE.

Lemma wanted_test (eMode nearby p : Z) : ((nearby =? p) || ((p <? nearby) && (eMode =? BTALLOC_LE))) = true <-> wanted eMode nearby p.
Proof. unfold wanted. rewrite orb_true_iff, andb_true_iff, Z.eqb_eq, Z.ltb_lt, Z.eqb_eq. intuition. Qed.

Definition page_dist (nearby p : Z) : Z := sqlite3AbsInt32 (i32 (u32 (p - nearby))).

Lemma page_dist_ok nearby p : 0 <= nearby < 2 ^ 32 -> 0 <= p < 2 ^ 32 -> 0 <= page_dist nearby p /\ (page_dist nearby p = 0 <-> p = nearby).
Proof.
  intros Hn Hp. unfold page_dist. assert (Hr : - 2 ^ 31 <= i32 (u32 (p - nearby)) < 2 ^ 31) by (unfold i32; Z.to_euclidean_division_equations; lia).
  rewrite AbsInt32_spec by done. clear Hr. unfold i32, u32 in *. Z.to_euclidean_division_equations. lia.
Qed.

Section closest.
Context (d : list Z) (ls : list Z) (nearby : Z).
Hypothesis Hleaf : forall i, 0 <= i < zlen ls -> get4 d (8 + i * 4) = ls.[i].

Lemma closest_le_ok n : forall i, 0 < zlen ls -> 0 <= i -> i + Z.of_nat n = zlen ls ->
  exists c x, closest_le n d i nearby = Some c /\ 0 <= c < zlen ls /\ ls.[c] = Some x /\
    ((exists j y, i <= j /\ ls.[j] = Some y /\ y <= nearby) -> x <= nearby).
Proof using Hleaf.
  induction n as [|n IH]; intros i Hl Hi Hn; cbn [closest_le].
  - destruct (zget_some ls 0) as [x Hx]; [lia|]. exists 0, x. split_and!; try done; try lia. intros (j & y & Hj & Hy & _).
    apply zget_range in Hy. lia.
  - destruct (zget_some ls i) as [x Hx]; [lia|]. rewrite Hleaf, Hx by lia. cbn [mbind option_bind].
    destruct (Z.leb_spec x nearby) as [Hle|Hgt]; [exists i, x; split_and!; try done; lia|].
    destruct (IH (i + 1)) as (c & x' & E & Hc & Hx' & Hmin); [lia..|]. exists c, x'. split_and!; try done; try lia.
    intros (j & y & Hj & Hy & Hyn). apply Hmin. exists j, y. split_and!; try done.
    destruct (decide (j = i)) as [->|]; [|lia]. assert (x = y) by congruence. lia.
Qed.

Lemma closest_any_ok n : forall i c x, 0 <= i -> i + Z.of_nat n = zlen ls -> ls.[c] = Some x ->
  exists c' x', closest_any n d i nearby c (page_dist nearby x) = Some c' /\ ls.[c'] = Some x' /\ page_dist nearby x' <= page_dist nearby x /\
    forall j y, i <= j -> ls.[j] = Some y -> page_dist nearby x' <= page_dist nearby y.
Proof using Hleaf.
  induction n as [|n IH]; intros i c x Hi Hn Hx; cbn [closest_any].
  - exists c, x. split_and!; try done; try lia. intros j y Hj Hy. apply zget_range in Hy. lia.
  - destruct (zget_some ls i) as [z Hz]; [lia|]. rewrite Hleaf, Hz by lia. cbn [mbind option_bind].
    change (sqlite3AbsInt32 (i32 (u32 (z - nearby)))) with (page_dist nearby z).
    assert (Hj : forall x', page_dist nearby x' <= page_dist nearby z -> (forall j y, i + 1 <= j -> ls.[j] = Some y -> page_dist nearby x' <= page_dist nearby y) ->
              forall j y, i <= j -> ls.[j] = Some y -> page_dist nearby x' <= page_dist nearby y).
    { intros x' Hxz Hrest j y Hj Hy. destruct (decide (j = i)) as [->|]; [|apply (Hrest j y); [lia|done]]. assert (z = y) by congruence. by subst. }
    destruct (Z.ltb_spec (page_dist nearby z) (page_dist nearby x)) as [Hlt|Hge].
    + destruct (IH (i + 1) i z) as (c' & x' & E & Hx' & Hle & Hmin); [lia..|done|]. exists c', x'. split_and!; try done; [lia|]. by apply Hj.
    + destruct (IH (i + 1) c x) as (c' & x' & E & Hx' & Hle & Hmin); [lia..|done|]. exists c', x'. split_and!; try done. apply Hj; [lia|done].
Qed.

(** When a leaf is wanted, the one that is chosen is. *)
Lemma closest_leaf_ok eMode : 0 < zlen ls -> Forall (fun p => 0 < p < 2 ^ 32) ls -> 0 <= nearby < 2 ^ 32 ->
  exists c x, closest_leaf d (zlen ls) nearby eMode = Some c /\ ls.[c] = Some x /\ (Exists (wanted eMode nearby) ls -> wanted eMode nearby x).
Proof using Hleaf.
  intros Hl Hr Hn. destruct (zget_some ls 0) as [x0 Hx0]; [lia|]. unfold closest_leaf. rewrite Z.gtb_ltb. rewrite list.Forall_forall in Hr.
  assert (Hrg : forall j y, ls.[j] = Some y -> 0 < y < 2 ^ 32) by (intros j y Hy; apply Hr; by eapply zget_elem_of).
  assert (Hex : Exists (wanted eMode nearby) ls -> exists j y, 0 <= j /\ ls.[j] = Some y /\ wanted eMode nearby y).
  { intros (y & Hy & Hw)%list.Exists_exists. apply list_elem_of_lookup in Hy as [j Hj]. exists (Z.of_nat j), y. split; [lia|]. by rewrite zget_lookup. }
  destruct (Z.ltb_spec 0 nearby) as [Hpos|Hz]; [destruct (Z.eqb_spec eMode BTALLOC_LE) as [->|Hne]|].
  - destruct (closest_le_ok (Z.to_nat (zlen ls)) 0) as (c & x & E & Hc & Hx & Hm); [lia..|]. exists c, x. split_and!; try done.
    intros (j & y & Hj & Hy & Hw)%Hex. assert (x <= nearby) by (apply Hm; exists j, y; split_and!; try done; destruct Hw; lia).
    destruct (decide (x = nearby)); [by left|right; split; [lia|done]].
  - change 8 with (8 + 0 * 4). rewrite Hleaf, Hx0 by lia. cbn [mbind option_bind].
    change (sqlite3AbsInt32 (i32 (u32 (x0 - nearby)))) with (page_dist nearby x0).
    destruct (closest_any_ok (Z.to_nat (zlen ls - 1)) 1 0 x0) as (c & x & E & Hx & Hle & Hm); [lia..|done|]. exists c, x. split_and!; try done.
    intros (j & y & Hj & Hy & [-> | [_ ?]])%Hex; [left|done]. pose proof (Hrg _ _ Hx). pose proof (Hrg _ _ Hx0).
    destruct (page_dist_ok nearby x) as [Hp0 Hpz]; [lia..|]. destruct (page_dist_ok nearby nearby) as [_ Hzz]; [lia..|].
    apply Hpz. pose proof (proj2 Hzz eq_refl) as E0.
    destruct (decide (j = 0)) as [->|]; [assert (x0 = nearby) as -> by congruence|pose proof (Hm j nearby ltac:(lia) Hy)]; lia.
  - exists 0, x0. split_and!; try done. intros (j & y & Hj & Hy & Hw)%Hex. pose proof (Hrg _ _ Hy). destruct Hw; lia.
Qed.
End closest.

(** * What allocation does *)
Section alloc.
Context {T : Type} {P : Pager T}.
Abbreviation Bt := (Bt T).
Context (D : Z -> Prop) (s0 : Bt) (Hw0 : wf s0).

Lemma frame_wf (s : Bt) : frame D s0 s -> wf s.
Proof using Hw0. intros []. auto. Qed.

Lemma room_ok (s : Bt) n : wf s -> 0 <= n <= usableSize (bt_shared s) / 4 - 2 -> 8 + n * 4 <= pageSize (bt_shared s).
Proof using. intros [Hu Hz _ _ _] Hn. pose proof (Z.mul_div_le (usableSize (bt_shared s)) 4 ltac:(lia)). lia. Qed.

(** Taking a leaf from its trunk page. *)
Lemma take_leaf_ok k t closest leaf next ls s : trunk_at s t next ls -> k = zlen ls -> ls.[closest] = Some leaf -> t <> leaf -> 2 <= leaf < 2 ^ 32 ->
  D t -> D leaf -> frame D s0 s ->
  wp (take_leaf k t closest leaf) s (fun _ s' => frame D s0 s' /\ edits (fun p => p = t \/ p = leaf) s s' /\
    (exists ls', ls ≡ₚ leaf :: ls' /\ trunk_at s' t next ls') /\ (has_content s leaf -> content s' leaf = content s leaf)) (fails False D s0).
Proof using Hw0.
  intros Ht Ek Hleaf Hne Hlr HDt HDl Hf. pose proof (zget_range _ _ _ Hleaf) as Hcl. pose proof (frame_wf _ Hf) as Hw.
  destruct Ht as [Hnext Hcount Hroom Hlf]. pose proof (room_ok s (zlen ls) Hw ltac:(lia)) as Hrm. pose proof (wf_pageSize _ Hw) as Hps. pose proof (wf_usable _ Hw) as Hus.
  unfold take_leaf. apply bt_bind, bt_write; [done|]. intros t1 Hf1. apply bt_bind.
  eapply (bt_mono _ _ (fun _ s1 => frame D s0 s1 /\ edits (fun p => p = t) s s1 /\ get4 (content s1 t) 0 = Some next /\
            forall i, 0 <= i < k - 1 -> get4 (content s1 t) (8 + i * 4) = if i =? closest then ls.[k - 1] else ls.[i])); [|intros _ s1|done].
  { destruct (Z.ltb_spec closest (k - 1)).
    - apply bt_copy; try done; try (cbn; lia); [by apply frame_wf|]. intros s1 Hc Hf2.
      destruct (edits_copied (fun p => p = t) _ _ _ _ _ _ _ eq_refl Hc) as (He & Ho & Hr). change (content (set_pager t1 s) t) with (content s t) in *.
      split; [done|]. split; [eapply edits_trans; [apply edits_pager|done]|].
      split; [rewrite <- Hnext; apply (only_get4 _ _ _ _ _ Ho); lia|]. intros i Hi. destruct (Z.eqb_spec i closest) as [->|Hic].
      + rewrite (get4_read _ _ _ _ Hr). replace (4 + k * 4) with (8 + (k - 1) * 4) by lia. apply Hlf. lia.
      + rewrite (only_get4 _ _ _ _ _ Ho) by lia. apply Hlf. lia.
    - apply bt_ret. split; [done|]. split; [apply edits_pager|]. split; [done|]. intros i Hi. rewrite (proj2 (Z.eqb_neq i closest)) by lia. apply Hlf. lia. }
  intros (Hf2 & He2 & Hn2 & Hl2). pose proof (frame_wf _ Hf2) as Hw2. rewrite (u32_small (k - 1)) by lia.
  apply bt_bind, bt_write4; try done; try lia; [rewrite (edits_shared _ _ _ He2); lia|]. intros s3 Hws Hf3.
  destruct (edits_word (fun p => p = t) _ _ _ _ _ eq_refl Hws) as (He3 & Ho3 & Hk3). pose proof (frame_wf _ Hf3) as Hw3.
  apply bt_bind, bt_getHas; [done|lia|]. intros b Hb. apply bt_bind, bt_get_unused; [done|by left|lia|].
  intros t4. cbv zeta. intros Hf4 _. apply bt_write; [done|]. intros t5 Hf5. split; [done|].
  assert (He : edits (fun p => p = t) s s3) by (eapply edits_trans; done). set (flags := if negb b then PAGER_GET_NOCONTENT else 0) in *.
  assert (He5 : edits (fun p => p = leaf) s3 (set_pager t5 (clear_isInit leaf (fetched flags leaf (set_pager t4 s3))))).
  { eapply edits_trans; [apply edits_pager|]. eapply edits_trans; [|apply edits_pager]. eapply edits_trans; [|apply edits_isInit].
    apply edits_fetched; [by left|]. by apply (edits_wf _ _ _ (edits_pager D t4 s3)). }
  split; [eapply edits_trans; (eapply edits_weaken; [|done]); cbv beta; tauto|]. split.
  - destruct (swap_remove ls closest leaf Hleaf) as (ls' & Hp & Ll & Hls'). exists ls'. split; [done|].
    pose proof (edits_content _ _ _ t He5 Hne) as Ec. pose proof (edits_shared _ _ _ (edits_trans _ _ _ _ (edits_weaken _ (fun _ => True) _ _ ltac:(done) He) (edits_weaken _ (fun _ => True) _ _ ltac:(done) He5))) as Eb.
    constructor; rewrite ?Ec, ?Eb; [|rewrite Hk3; f_equal; lia|lia|].
    + rewrite <- Hn2. apply (only_get4 _ _ _ _ _ Ho3). lia.
    + intros i Hi. rewrite Hls' by done. rewrite (only_get4 _ _ _ _ _ Ho3) by lia. rewrite Hl2 by lia. subst k. done.
  - intros Hh. assert (b = true) as -> by (apply Hb; by eapply edits_has_content). cbn [negb] in flags.
    assert (He6 : edits (fun _ => False) s3 (set_pager t5 (clear_isInit leaf (fetched flags leaf (set_pager t4 s3))))).
    { eapply edits_trans; [apply edits_pager|]. eapply edits_trans; [|apply edits_pager]. eapply edits_trans; [|apply edits_isInit].
      apply edits_fetched; [by right|]. by apply (edits_wf _ _ _ (edits_pager D t4 s3)). }
    rewrite (edits_content _ _ _ _ He6) by tauto. apply (edits_content _ _ _ _ He). congruence.
Qed.

(** Changing the number after the trunk pages [pre]. *)
Definition good_pre (pre : list (Z * list Z)) : Prop := NoDup (1 :: trunks pre) /\ Forall (fun t => 2 <= t) (trunks pre).

Lemma prev_of_cases pre : good_pre pre -> prev_of pre = 0 /\ pre = [] \/ prev_of pre = link_page pre /\ 0 < prev_of pre /\ pre <> [] /\ link_off pre = 0.
Proof using.
  intros [Hnd Hr]. destruct pre as [|e pre]; [by left|right]. unfold prev_of. split; [done|]. split; [|done].
  pose proof (link_in (e :: pre)) as Hin. apply elem_of_cons in Hin as [->|Hin]; [lia|]. rewrite list.Forall_forall in Hr. specialize (Hr _ Hin). lia.
Qed.

(** The number of free pages, in page 1, is not touched. *)
Definition count_kept (s s' : Bt) : Prop := get4 (content s' 1) 36 = get4 (content s 1) 36.

Lemma link_count pre s s' : good_pre pre -> edits (fun p => p = link_page pre) s s' ->
  only (link_off pre) (link_off pre + 4) (content s (link_page pre)) (content s' (link_page pre)) -> count_kept s s'.
Proof using.
  intros Hg He Ho. unfold count_kept. destruct (prev_of_cases pre Hg) as [[_ ->]|(Ep & Hpos & Hne & Eo)].
  - apply (only_get4 _ _ _ _ _ Ho). cbn. lia.
  - f_equal. apply (edits_content _ _ _ _ He). rewrite <- Ep. destruct Hg as [Hnd _]. intros E. apply list.NoDup_cons in Hnd as [H1 _].
    pose proof (link_in pre) as Hin. rewrite <- Ep, <- E in Hin. apply elem_of_cons in Hin as [_|Hin]; [|done].
    destruct pre as [|e pre] using rev_ind; [done|]. destruct e as [t ls]. destruct (link_snoc pre t ls) as [El _]. rewrite <- Ep, <- E in El. subst t.
    apply H1. unfold trunks. rewrite fmap_app. apply elem_of_app. right. by left.
Qed.

Lemma link_write_ok pre mid v s : linked s pre mid -> good_pre pre -> D (link_page pre) -> frame D s0 s -> 0 <= v < 2 ^ 32 ->
  wp (if prev_of pre =? 0 then write4 1 32 v else (pager_write (prev_of pre) ;;; write4 (prev_of pre) 0 v)) s
    (fun _ s' => frame D s0 s' /\ edits (fun p => p = link_page pre) s s' /\ linked s' pre v /\ count_kept s s') (fails False D s0).
Proof using Hw0.
  intros Hl Hg HD Hf Hv. pose proof (frame_wf _ Hf) as Hw. pose proof (wf_pageSize _ Hw) as Hps.
  assert (Hw4 : forall t, frame D s0 (set_pager t s) -> wp (write4 (link_page pre) (link_off pre) v) (set_pager t s)
      (fun _ s' => frame D s0 s' /\ edits (fun p => p = link_page pre) s s' /\ linked s' pre v /\ count_kept s s') (fails False D s0)).
  { intros t Hft. apply bt_write4; try done; [by apply frame_wf|destruct pre; cbn; lia|destruct pre; cbn; lia|]. intros s' Hws Hf'.
    destruct (edits_word (fun p => p = link_page pre) _ _ _ _ _ eq_refl Hws) as (He & Ho & Hg4). split; [done|].
    split; [eapply edits_trans; [apply edits_pager|done]|].
    split; [|by apply (link_count pre (set_pager _ s) s' Hg He)]. destruct Hg as [Hnd _]. eapply (relink s s' pre mid); try done.
    - apply (edits_shared _ _ _ He).
    - intros q _ Hq. by rewrite (edits_content _ _ _ _ He). }
  destruct (prev_of_cases pre Hg) as [[-> ->]|(Ep & Hpos & _ & Eo)].
  - specialize (Hw4 (pPager s)). destruct s. by apply Hw4.
  - rewrite (proj2 (Z.eqb_neq _ 0)) by lia. rewrite Eo in Hw4. rewrite Ep. apply bt_bind, bt_write; [done|]. intros t Hft. by apply Hw4.
Qed.

Lemma link_copy_ok pre mid t v s : linked s pre mid -> good_pre pre -> D (link_page pre) -> frame D s0 s -> get4 (content s t) 0 = Some v ->
  wp (if prev_of pre =? 0 then copy_page 1 32 t 0 4 else (pager_write (prev_of pre) ;;; copy_page (prev_of pre) 0 t 0 4)) s
    (fun _ s' => frame D s0 s' /\ edits (fun p => p = link_page pre) s s' /\ linked s' pre v /\ count_kept s s') (fails False D s0).
Proof using Hw0.
  intros Hl Hg HD Hf Hv. pose proof (frame_wf _ Hf) as Hw. pose proof (wf_pageSize _ Hw) as Hps.
  assert (Hw4 : forall u, frame D s0 (set_pager u s) -> wp (copy_page (link_page pre) (link_off pre) t 0 4) (set_pager u s)
      (fun _ s' => frame D s0 s' /\ edits (fun p => p = link_page pre) s s' /\ linked s' pre v /\ count_kept s s') (fails False D s0)).
  { intros u Hft. apply bt_copy; try done; [by apply frame_wf|destruct pre; cbn; lia|destruct pre; cbn; lia|cbn; lia|]. intros s' Hws Hf'.
    destruct (edits_copied (fun p => p = link_page pre) _ _ _ _ _ _ _ eq_refl Hws) as (He & Ho & Hr). split; [done|].
    split; [eapply edits_trans; [apply edits_pager|done]|].
    split; [|by apply (link_count pre (set_pager _ s) s' Hg He)]. destruct Hg as [Hnd _]. eapply (relink s s' pre mid); try done.
    - apply (edits_shared _ _ _ He).
    - intros q _ Hq. by rewrite (edits_content _ _ _ _ He).
    - by rewrite (get4_read _ _ _ _ Hr). }
  destruct (prev_of_cases pre Hg) as [[-> ->]|(Ep & Hpos & _ & Eo)].
  - specialize (Hw4 (pPager s)). destruct s. by apply Hw4.
  - rewrite (proj2 (Z.eqb_neq _ 0)) by lia. rewrite Eo in Hw4. rewrite Ep. apply bt_bind, bt_write; [done|]. intros u Hft. by apply Hw4.
Qed.

(** A trunk page with leaves is taken: the first leaf becomes a trunk page. *)
Lemma replace_trunk_ok mx t next l0 ls pre s : linked s pre t -> trunk_at s t next (l0 :: ls) -> good_pre pre -> l0 ∉ t :: 1 :: trunks pre ->
  2 <= l0 <= mx -> mx < 2 ^ 32 -> D (link_page pre) -> D l0 -> frame D s0 s ->
  wp (replace_trunk mx (zlen (l0 :: ls)) t (prev_of pre)) s (fun _ s' => frame D s0 s' /\ edits (fun p => p = link_page pre \/ p = l0) s s' /\
    linked s' (pre ++ [(l0, ls)]) next /\ count_kept s s') (fails False D s0).
Proof using Hw0.
  intros Hl Ht Hg Hni Hlr Hmx HDp HDl Hf. pose proof (frame_wf _ Hf) as Hw. destruct Ht as [Hnext Hcount Hroom Hlf].
  pose proof (room_ok s _ Hw (conj (zlen_nonneg _) Hroom)) as Hrm. pose proof (wf_pageSize _ Hw) as Hps. rewrite zlen_cons in *.
  pose proof (zlen_nonneg ls) as Hls. pose proof (wf_usable _ Hw) as Hus. replace (zlen ls + 1 - 1) with (zlen ls) by lia.
  apply not_elem_of_cons in Hni as [Hnt Hni].
  unfold replace_trunk. apply bt_bind. eapply bt_read4; [apply (Hlf 0); lia|]. rewrite Z.gtb_ltb, (proj2 (Z.ltb_ge mx l0)) by lia.
  replace (zlen ls + 1 - 1) with (zlen ls) by lia. rewrite (u32_small (zlen ls)) by lia.
  apply bt_bind, bt_get_unused; [done|by left|lia|]. intros t1. cbv zeta. change (fetched 0 l0 (set_pager t1 s)) with (set_pager t1 s).
  intros Hf1 _. apply bt_bind, bt_write; [done|]. intros t2 Hf2.
  assert (He2 : edits (fun p => p = l0) s (set_pager t2 (clear_isInit l0 (set_pager t1 s)))).
  { eapply edits_trans; [apply edits_pager|]. eapply edits_trans; [apply edits_isInit|apply edits_pager]. }
  assert (Ec2 : content (set_pager t2 (clear_isInit l0 (set_pager t1 s))) t = content s t) by done.
  set (s2 := set_pager t2 _) in *. clearbody s2.
  apply bt_bind, bt_copy; try done; [by apply frame_wf|rewrite (edits_shared _ _ _ He2); lia..|]. intros s3 Hc3 Hf3.
  destruct (edits_copied (fun p => p = l0) _ _ _ _ _ _ _ eq_refl Hc3) as (He3 & Ho3 & Hr3). pose proof (edits_trans _ _ _ _ He2 He3) as He03.
  apply bt_bind, bt_write4; try done; [by apply frame_wf|rewrite (edits_shared _ _ _ He03); lia|lia|]. intros s4 Hw4 Hf4.
  destruct (edits_word (fun p => p = l0) _ _ _ _ _ eq_refl Hw4) as (He4 & Ho4 & Hk4). pose proof (edits_trans _ _ _ _ He03 He4) as He04.
  apply bt_bind, bt_copy; try done; [by apply frame_wf|rewrite ?(edits_shared _ _ _ He04); lia..|]. intros s5 Hc5 Hf5.
  destruct (edits_copied (fun p => p = l0) _ _ _ _ _ _ _ eq_refl Hc5) as (He5 & Ho5 & Hr5). pose proof (edits_trans _ _ _ _ He04 He5) as He05.
  rewrite (edits_content _ _ _ t He04) in Hr5 by congruence. destruct (content_len s t Hw) as [Lc _].
  assert (Hout : forall q, q ∈ 1 :: trunks pre -> content s5 q = content s q) by (intros q Hq; apply (edits_content _ _ _ _ He05); intros ->; done).
  eapply bt_mono; [apply (link_write_ok pre t l0 s5)|intros _ s6 (Hf6 & He6 & Hl6 & Hk6)|done]; try done; [|lia|].
  - by apply (linked_ext s s5 pre t Hl); [apply (edits_shared _ _ _ He05)|].
  - split; [done|]. split; [eapply edits_trans; (eapply edits_weaken; [|done]); cbv beta; tauto|].
    split; [|unfold count_kept in *; by rewrite Hk6, (Hout 1) by by left]. apply linked_snoc. split; [done|].
    assert (Hne : l0 <> link_page pre) by (intros ->; apply Hni, link_in).
    eapply trunk_ext; [apply (edits_shared _ _ _ He6)|by apply (edits_content _ _ _ _ He6)|].
    constructor; [| |rewrite (edits_shared _ _ _ He05); lia|].
    + rewrite (only_get4 _ _ _ _ _ Ho5), (only_get4 _ _ _ _ _ Ho4), (get4_read _ _ _ _ Hr3), Ec2 by lia. done.
    + by rewrite (only_get4 _ _ _ _ _ Ho5) by lia.
    + intros i Hi. rewrite (get4_sub _ _ _ _ _ (i * 4) Hr5) by lia. replace (12 + i * 4) with (8 + (i + 1) * 4) by lia.
      rewrite Hlf, zget_cons_pos by lia. f_equal. lia.
Qed.

Lemma take_trunk_ok mx t next ls pre s : linked s pre t -> trunk_at s t next ls -> good_pre pre -> NoDup (trunks pre ++ t :: ls) -> 1 ∉ ls ->
  Forall (fun p => 2 <= p <= mx /\ D p) ls -> mx < 2 ^ 32 -> D (link_page pre) -> frame D s0 s ->
  wp (take_trunk mx (zlen ls) t (prev_of pre)) s (fun _ s' => frame D s0 s' /\ edits (fun p => p = link_page pre \/ p ∈ ls) s s' /\
    (exists tl1, free_pages tl1 = ls /\ linked s' (pre ++ tl1) next) /\ count_kept s s') (fails False D s0).
Proof using Hw0.
  intros Hl Ht Hg Hnd H1 Hr Hmx HDp Hf. unfold take_trunk. apply bt_bind, bt_write; [done|]. intros t1 Hf1.
  pose proof (edits_pager (fun p => p = link_page pre) t1 s) as He1. pose proof (edits_shared _ _ _ He1) as Eb.
  assert (Hl1 : linked (set_pager t1 s) pre t) by (by eapply linked_ext).
  assert (Ht1 : trunk_at (set_pager t1 s) t next ls) by (by eapply trunk_ext).
  assert (Hk1 : count_kept s (set_pager t1 s)) by done. set (s1 := set_pager t1 s) in *. clearbody s1. destruct ls as [|l0 ls].
  - change (zlen (@nil Z)) with 0. eapply bt_mono; [apply (link_copy_ok pre t t next); try done; by destruct Ht1|intros _ s6 (Hf6 & He6 & Hl6 & Hk6)|done].
    split; [done|]. split; [eapply edits_trans; (eapply edits_weaken; [|done]); cbv beta; tauto|]. split; [|unfold count_kept in *; congruence].
    exists []. by rewrite app_nil_r.
  - rewrite (proj2 (Z.eqb_neq _ 0)) by (rewrite zlen_cons; pose proof (zlen_nonneg ls); lia).
    apply Forall_cons_1 in Hr as [[Hl0 HDl] _]. apply not_elem_of_cons in H1 as [H1 _].
    eapply bt_mono; [apply (replace_trunk_ok mx t next l0 ls pre s1); try done|intros _ s6 (Hf6 & He6 & Hl6 & Hk6)|done].
    + apply list.NoDup_app in Hnd as (_ & Hd & Hnd). apply list.NoDup_cons in Hnd as [Hnt _]. rewrite !not_elem_of_cons. split_and!; [|done|].
      * intros ->. apply Hnt. by left.
      * intros Hin. apply (Hd l0 Hin). right. by left.
    + split; [done|]. split; [eapply edits_trans; (eapply edits_weaken; [|done]); cbv beta|].
      * tauto.
      * intros p [?| ->]; [by left|right; by left].
      * split; [|unfold count_kept in *; congruence]. exists [(l0, ls)]. split; [|done]. unfold free_pages. cbn. by rewrite app_nil_r.
Qed.

(** ** The loop *)

(** The page [pgno] was taken from the list [tl]. *)
Record taken (s : Bt) (tl : list (Z * list Z)) (pgno : Z) (s' : Bt) : Prop := {
  tk_edits : edits (fun p => p = 1 \/ p ∈ free_pages tl) s s';
  tk_list : exists tl', free_pages tl ≡ₚ pgno :: free_pages tl' /\ linked s' tl' 0;
  tk_kept : has_content s pgno -> content s' pgno = content s pgno;
  tk_count : count_kept s s';
}.

(** The trunk pages [pre] were passed; [m] is the first one of [rest]. *)
Record walk (s : Bt) (mx : Z) (pre rest : list (Z * list Z)) (m : Z) : Prop := {
  wk_linked : linked s pre m;
  wk_seg : seg s m rest 0;
  wk_nodup : NoDup (free_pages (pre ++ rest));
  wk_range : Forall (fun p => 2 <= p <= mx /\ D p) (free_pages (pre ++ rest));
}.

Lemma walk_ext s s' mx pre rest m : edits (fun _ => False) s s' -> walk s mx pre rest m -> walk s' mx pre rest m.
Proof using.
  intros He [Hl Hs Hnd Hr]. pose proof (edits_shared _ _ _ He) as Eb. assert (Ec : forall q, content s' q = content s q) by (intros q; apply (edits_content _ _ _ _ He); tauto).
  constructor; [by apply (linked_ext s s')|by apply (seg_ext s s')|done|done].
Qed.

Lemma walk_good s mx pre rest m : walk s mx pre rest m -> good_pre pre.
Proof using.
  intros [_ _ Hnd Hr]. rewrite free_pages_app in *. apply list.NoDup_app in Hnd as (Hnd & _ & _). apply list.Forall_app in Hr as [Hr _].
  rewrite list.Forall_forall in Hr. split; [|apply list.Forall_forall; intros p Hp%trunks_free; by apply Hr].
  apply list.NoDup_cons. split; [intros H%trunks_free; apply Hr in H; lia|]. clear Hr. induction pre as [|[t ls] pre IH]; [constructor|].
  rewrite free_pages_cons in Hnd. apply list.NoDup_cons in Hnd as [Hn Hnd]. apply list.NoDup_app in Hnd as (_ & _ & Hnd).
  cbn. apply list.NoDup_cons. split; [|by apply IH]. intros Hin%trunks_free. apply Hn, elem_of_app. by right.
Qed.

Lemma walk_trunk s mx pre t ls rest m : walk s mx pre ((t, ls) :: rest) m ->
  m = t /\ 2 <= t <= mx /\ D t /\ (exists next, trunk_at s t next ls /\ seg s next rest 0 /\ (walk s mx (pre ++ [(t, ls)]) rest next)) /\
  Forall (fun p => 2 <= p <= mx /\ D p) ls /\ NoDup (t :: ls) /\
  forall p, p ∈ t :: ls -> ~ (p ∈ free_pages pre) /\ ~ (p ∈ free_pages rest).
Proof using.
  intros [Hl [-> (next & Ht & Hs)] Hnd Hr]. split; [done|]. pose proof Hr as Hr'. pose proof Hnd as Hnd'. rewrite free_pages_app, free_pages_cons in Hr', Hnd'.
  apply list.Forall_app in Hr' as [_ Hr']. apply Forall_cons_1 in Hr' as [[Ht1 HDt] Hr']. apply list.Forall_app in Hr' as [Hls _].
  split; [done|]. split; [done|]. split.
  { exists next. split; [done|]. split; [done|]. constructor; [by apply linked_snoc|done|by rewrite <- app_assoc..]. }
  split; [done|]. change (t :: ls ++ free_pages rest) with ((t :: ls) ++ free_pages rest) in Hnd'.
  apply list.NoDup_app in Hnd' as (_ & Hd & Hnd'). apply list.NoDup_app in Hnd' as (Hndl & Hd2 & _). split; [done|].
  intros p Hp. split; [|by apply Hd2]. intros Hpre. apply (Hd p Hpre), elem_of_app. by left.
Qed.

Lemma elem_trunk pre t ls rest p : p ∈ t :: ls -> p ∈ free_pages (pre ++ (t, ls) :: rest).
Proof using. intros Hp. rewrite free_pages_app, free_pages_cons. apply elem_of_app. right. change (t :: ls ++ free_pages rest) with ((t :: ls) ++ free_pages rest). apply elem_of_app. by left. Qed.

Lemma link_page_free pre rest : link_page pre = 1 \/ link_page pre ∈ free_pages (pre ++ rest).
Proof using. pose proof (link_in pre) as H. apply elem_of_cons in H as [|H%trunks_free]; [by left|right]. rewrite free_pages_app. apply elem_of_app. by left. Qed.

(** The rest of the list stays. *)
Lemma seg_rest s s' mx pre t ls rest m next E : walk s mx pre ((t, ls) :: rest) m -> seg s next rest 0 -> edits E s s' ->
  (forall p, E p -> p = link_page pre \/ p ∈ t :: ls) -> seg s' next rest 0.
Proof using.
  intros Hwk Hs He HE. eapply seg_ext; [apply (edits_shared _ _ _ He)| |done]. intros q Hq. apply (edits_content _ _ _ _ He). intros HEq.
  destruct (walk_trunk _ _ _ _ _ _ _ Hwk) as (_ & _ & _ & _ & _ & _ & Hdisj). pose proof Hwk as [_ _ Hnd Hr].
  apply HE in HEq as [->|Hin]; [|by apply (Hdisj q Hin), trunks_free]. rewrite free_pages_app, free_pages_cons in Hnd, Hr.
  rewrite list.Forall_forall in Hr. apply list.NoDup_app in Hnd as (_ & Hd & _). pose proof (link_in pre) as Hl. apply elem_of_cons in Hl as [E1|Hl].
  - rewrite E1 in Hq. assert (2 <= 1 <= mx /\ D 1) by (apply Hr, elem_of_app; right; right; apply elem_of_app; right; by apply trunks_free). lia.
  - apply (Hd _ (trunks_free _ _ Hl)). right. apply elem_of_app. right. by apply trunks_free.
Qed.

Lemma leaf_taken s mx pre t ls rest m c leaf : walk s mx pre ((t, ls) :: rest) m -> ls.[c] = Some leaf -> mx < 2 ^ 32 -> frame D s0 s ->
  wp (take_leaf (zlen ls) t c leaf) s (fun _ s' => frame D s0 s' /\ taken s (pre ++ (t, ls) :: rest) leaf s') (fails False D s0).
Proof using Hw0.
  intros Hwk Hc Hmx Hf. pose proof (walk_good _ _ _ _ _ Hwk) as Hg. pose proof (zget_elem_of _ _ _ Hc) as Hin.
  destruct (walk_trunk _ _ _ _ _ _ _ Hwk) as (-> & Ht & HDt & (next & Htr & Hs & _) & Hr & Hnd & Hdisj).
  rewrite list.Forall_forall in Hr. destruct (Hr leaf Hin) as [Hl HDl]. apply list.NoDup_cons in Hnd as [Hnt Hnd].
  eapply bt_mono; [apply (take_leaf_ok (zlen ls) t c leaf next ls s); try done; [by intros ->|lia]|intros _ s' (Hf' & He & (ls' & Hp & Htr') & Hk)|done].
  assert (HE : forall p, p = t \/ p = leaf -> p ∈ t :: ls) by (intros p [-> | ->]; [by left|by right]).
  pose proof Hwk as [Hlk _ _ Hra]. rewrite list.Forall_forall in Hra.
  assert (Hpre : forall q, q ∈ 1 :: trunks pre -> content s' q = content s q).
  { intros q Hq. apply (edits_content _ _ _ _ He). intros HEq%HE. apply elem_of_cons in Hq as [->|Hq%trunks_free]; [|by destruct (Hdisj q HEq)].
    apply (elem_trunk pre t ls rest) in HEq. apply Hra in HEq. lia. }
  split; [done|]. constructor; [|exists (pre ++ (t, ls') :: rest); split|done|unfold count_kept; by rewrite (Hpre 1) by by left].
  - eapply edits_weaken; [|done]. cbv beta. intros p Hp'. right. apply elem_trunk. by apply HE.
  - rewrite !free_pages_app, !free_pages_cons, Hp. cbn [app]. transitivity (free_pages pre ++ leaf :: t :: ls' ++ free_pages rest);
      [apply Permutation_app_head, perm_swap|symmetry; apply Permutation_middle].
  - destruct Hlk as (first & Hf1 & Hs1). exists first. split; [by rewrite (Hpre 1) by by left|]. apply seg_app. exists t. split.
    + eapply seg_ext; [apply (edits_shared _ _ _ He)| |done]. intros q Hq. apply Hpre. by right.
    + split; [done|]. exists next. split; [done|]. eapply (seg_rest s s' mx pre t ls rest t); try done. intros p Hp'. right. by apply HE.
Qed.

Lemma linked_join (s : Bt) pre mid rest : linked s pre mid -> seg s mid rest 0 -> linked s (pre ++ rest) 0.
Proof using. intros (first & Hf & Hs) Hr. exists first. split; [done|]. apply seg_app. by exists mid. Qed.

Lemma trunk_taken s mx pre t ls rest m : walk s mx pre ((t, ls) :: rest) m -> mx < 2 ^ 32 -> D 1 -> frame D s0 s ->
  wp (take_trunk mx (zlen ls) t (prev_of pre)) s (fun _ s' => frame D s0 s' /\ taken s (pre ++ (t, ls) :: rest) t s') (fails False D s0).
Proof using Hw0.
  intros Hwk Hmx HD1 Hf. pose proof (walk_good _ _ _ _ _ Hwk) as Hg. pose proof Hwk as [Hlk _ _ Hra]. rewrite list.Forall_forall in Hra.
  destruct (walk_trunk _ _ _ _ _ _ _ Hwk) as (-> & Ht & HDt & (next & Htr & Hs & _) & Hr & Hnd & Hdisj).
  assert (Hlp : link_page pre ∉ t :: ls).
  { intros Hin. pose proof (link_in pre) as Hl. apply elem_of_cons in Hl as [E|Hl%trunks_free]; [|by destruct (Hdisj _ Hin)].
    apply (elem_trunk pre t ls rest), Hra in Hin. lia. }
  eapply bt_mono; [apply (take_trunk_ok mx t next ls pre s); try done|intros _ s' (Hf' & He & (tl1 & Hfp & Hl') & Hk)|done].
  - apply list.NoDup_app. split; [by destruct Hg as [Hg _]; apply list.NoDup_cons in Hg as [_ Hg]|]. split; [|done]. intros p Hp%trunks_free Hin. by destruct (Hdisj p Hin).
  - intros Hin. assert (1 ∈ t :: ls) as H1 by (by right). apply (elem_trunk pre t ls rest), Hra in H1. lia.
  - destruct (link_page_free pre ((t, ls) :: rest)) as [->|Hin]; [done|]. by apply Hra.
  - split; [done|]. constructor; [|exists ((pre ++ tl1) ++ rest); split| |done].
    + eapply edits_weaken; [|done]. cbv beta. intros p [-> |Hp]; [apply link_page_free|]. right. apply elem_trunk. by right.
    + rewrite !free_pages_app, free_pages_cons, Hfp. rewrite <- app_assoc. symmetry. apply Permutation_middle.
    + apply (linked_join _ _ _ _ Hl'). eapply (seg_rest s s' mx pre t ls rest t); try done. intros p [?|?]; [by left|right; by right].
    + intros _. apply (edits_content _ _ _ _ He). intros [->|Hin]; [apply Hlp; by left|]. by apply list.NoDup_cons in Hnd as [? _].
Qed.

Lemma first_taken s mx t rest m : walk s mx [] ((t, []) :: rest) m -> mx < 2 ^ 32 -> D 1 -> frame D s0 s ->
  wp (pager_write t ;;; copy_page 1 32 t 0 4 ;;; ret t) s (fun p s' => p = t /\ frame D s0 s' /\ taken s ((t, []) :: rest) t s') (fails False D s0).
Proof using Hw0.
  intros Hwk Hmx HD1 Hf. apply bt_bind, bt_write; [done|]. intros t1 Hf1.
  assert (Hwk1 : walk (set_pager t1 s) mx [] ((t, []) :: rest) m) by (eapply walk_ext; [apply edits_pager|done]).
  destruct (walk_trunk _ _ _ _ _ _ _ Hwk1) as (-> & Ht & _ & (next & Htr & Hs & _) & _).
  apply bt_bind. eapply bt_mono; [apply (link_copy_ok [] t t next (set_pager t1 s)); try done|intros _ s' (Hf' & He & Hl' & Hk)|done].
  - apply Hwk1.
  - by apply (walk_good _ _ _ _ _ Hwk1).
  - by destruct Htr.
  - apply bt_ret. split; [done|]. split; [done|]. constructor; [|exists rest; split| |done].
    + eapply edits_trans; [apply edits_pager|]. eapply edits_weaken; [|done]. cbv beta. intros p ->. by left.
    + by rewrite free_pages_cons.
    + apply (linked_join _ [] _ _ Hl'). eapply (seg_rest _ s' mx [] t [] rest t); try done. cbv beta. tauto.
    + intros _. change (content s t) with (content (set_pager t1 s) t). apply (edits_content _ _ _ _ He). cbn. lia.
Qed.

(** What the search finds. *)
Definition found (search : bool) (eMode nearby : Z) (s : Bt) (tl : list (Z * list Z)) (pgno : Z) (s' : Bt) : Prop :=
  frame D s0 s' /\ taken s tl pgno s' /\ (search = true -> wanted eMode nearby pgno).

Lemma taken_ext s s' tl pgno s'' : edits (fun _ => False) s s' -> taken s' tl pgno s'' -> taken s tl pgno s''.
Proof using.
  intros He [H1 H2 H3 H4]. assert (Ec : forall q, content s' q = content s q) by (intros q; apply (edits_content _ _ _ _ He); by intros []).
  constructor; [|done| |].
  - eapply edits_trans; [|done]. by eapply edits_weaken; [|done].
  - intros Hh. rewrite <- Ec. apply H3. by eapply edits_has_content.
  - unfold count_kept in *. by rewrite H4, Ec.
Qed.

(** The pointer to the next trunk page. *)
Lemma next_read pre m (s : Bt) Q E : linked s pre m -> good_pre pre -> Q m s ->
  wp (if negb (prev_of pre =? 0) then read4 (prev_of pre) 0 else read4 1 32) s Q E.
Proof using.
  intros Hl Hg HQ. pose proof (linked_get _ _ _ Hl) as Hm. destruct (prev_of_cases pre Hg) as [[-> ->]|(Ep & Hpos & _ & Eo)].
  - by apply (bt_read4 _ _ m).
  - rewrite (proj2 (Z.eqb_neq _ 0)) by lia. cbn [negb]. apply (bt_read4 _ _ m); [|done]. by rewrite Ep, <- Eo.
Qed.

Lemma alloc_visit_ok mx nearby eMode (search : bool) pre t ls rest s again : walk s mx pre ((t, ls) :: rest) t -> mx < 2 ^ 32 ->
  0 <= nearby < 2 ^ 32 -> D 1 -> frame D s0 s -> (search = false -> pre = []) ->
  (search = true -> (QuietPager T -> ~ wanted eMode nearby t /\ ~ Exists (wanted eMode nearby) ls) ->
    wp again s (found search eMode nearby s (pre ++ (t, ls) :: rest)) (fails False D s0)) ->
  wp (alloc_visit mx nearby eMode search (prev_of pre) t again) s (found search eMode nearby s (pre ++ (t, ls) :: rest)) (fails False D s0).
Proof using Hw0.
  intros Hwk Hmx Hnb HD1 Hf Hpre Hcont. destruct (walk_trunk _ _ _ _ _ _ _ Hwk) as (_ & Ht & _ & (next & [_ Hc Hroom Hlf] & _) & Hr & _).
  pose proof (wf_usable _ (frame_wf _ Hf)). pose proof (wf_pageSize _ (frame_wf _ Hf)). unfold alloc_visit.
  apply bt_bind. eapply bt_read4; [exact Hc|]. apply bt_bind, bt_gets. pose proof (zlen_nonneg ls) as Hk.
  destruct ((zlen ls =? 0) && negb search) eqn:E0.
  { apply andb_true_iff in E0 as [E0%Z.eqb_eq ->%negb_true_iff]. rewrite Hpre in * by done.
    destruct ls; [|rewrite zlen_cons in E0; pose proof (zlen_nonneg ls); lia].
    eapply bt_mono; [by apply (first_taken s mx t rest t)|by intros p s' (-> & ? & ?)|done]. }
  rewrite !Z.gtb_ltb, u32_small, (proj2 (Z.ltb_ge _ (zlen ls))) by (Z.to_euclidean_division_equations; lia).
  destruct (search && _) eqn:E1.
  { apply andb_true_iff in E1 as [-> Hw%wanted_test]. apply bt_bind.
    eapply bt_mono; [by apply (trunk_taken s mx pre t ls rest t)|intros _ s' [? ?]|done]. by apply bt_ret. }
  assert (Hnt : search = true -> ~ wanted eMode nearby t) by (intros -> Hw%wanted_test; by rewrite Hw in E1).
  destruct (Z.ltb_spec 0 (zlen ls)) as [Hpos|Hz]; cycle 1.
  { destruct ls; [|rewrite zlen_cons in *; pose proof (zlen_nonneg ls); lia]. destruct search; [|done]. apply Hcont; [done|]. intros _.
    split; [by apply Hnt|]. by intros ?%List.Exists_nil. }
  apply bt_bind, bt_gets. destruct (closest_leaf_ok (content s t) ls nearby Hlf eMode) as (c & x & Ec & Hx & Hbest); [done| |done|].
  { eapply List.Forall_impl; [|exact Hr]. cbv beta. lia. }
  apply bt_bind. eapply bt_lift; [exact Ec|]. pose proof (zget_range _ _ _ Hx). apply bt_bind. eapply bt_read4; [by rewrite Hlf|].
  rewrite list.Forall_forall in Hr. destruct (Hr x) as [Hxr _]; [by eapply zget_elem_of|].
  rewrite Z.gtb_ltb, (proj2 (Z.ltb_ge mx x)), (proj2 (Z.ltb_ge x 2)) by lia. cbn [orb]. rewrite (Z.eqb_sym x nearby).
  destruct (negb search || _) eqn:E2.
  - apply bt_bind. eapply bt_mono; [by apply (leaf_taken s mx pre t ls rest t c x)|intros _ s' [? ?]|done]. apply bt_ret. split; [done|].
    split; [done|]. intros ->. by apply wanted_test.
  - apply orb_false_iff in E2 as [->%negb_false_iff E2]. apply Hcont; [done|]. intros _. split; [by apply Hnt|].
    intros Hw%Hbest%wanted_test. by rewrite Hw in E2.
Qed.

Lemma alloc_loop_ok mx n nearby eMode (search : bool) fuel : forall rest pre m s, walk s mx pre rest m -> (length rest < fuel)%nat ->
  n = zlen (free_pages (pre ++ rest)) -> mx < 2 ^ 32 -> 0 <= nearby < 2 ^ 32 -> D 1 -> frame D s0 s -> (search = false -> pre = []) ->
  (QuietPager T -> if search then Exists (wanted eMode nearby) (free_pages rest) else rest <> []) ->
  wp (alloc_loop fuel mx n nearby eMode search (zlen pre) (prev_of pre)) s (found search eMode nearby s (pre ++ rest)) (fails False D s0).
Proof using Hw0.
  induction fuel as [|fuel IH]; intros rest pre m s Hwk Hfu Hn Hmx Hnb HD1 Hf Hpre Hq; [lia|]. cbn [alloc_loop].
  pose proof (walk_good _ _ _ _ _ Hwk) as Hg. apply bt_bind, (next_read pre m); [apply Hwk|done|].
  destruct rest as [|[t ls] rest].
  { assert (QuietPager T -> False) as Hqf by (intros H; apply Hq in H; destruct search; [by apply List.Exists_nil in H|done]).
    destruct Hwk as [_ -> _ _]. destruct (_ || _); [by apply bt_corrupt|]. apply bt_bind, bt_get_unused; [done|by right|done|done]. }
  destruct (walk_trunk _ _ _ _ _ _ _ Hwk) as (-> & Ht & HDt & (next & Htr & _ & Hwk2) & Hr & _).
  rewrite !Z.gtb_ltb, (proj2 (Z.ltb_ge mx t)), (proj2 (Z.ltb_ge n (zlen pre))); cycle 1.
  { pose proof (trunks_length pre). rewrite Hn, free_pages_app, free_pages_cons, zlen_app, zlen_cons. pose proof (zlen_nonneg (ls ++ free_pages rest)). lia. }
  { lia. }
  cbn [orb]. apply bt_bind, bt_get_unused; [done|by right|lia|]. intros t1. cbv zeta. change (fetched 0 t (set_pager t1 s)) with (set_pager t1 s).
  intros Hf1 _. assert (He : edits (fun _ => False) s (clear_isInit t (set_pager t1 s))) by (eapply edits_trans; [apply edits_pager|apply edits_isInit]).
  apply (bt_mono _ _ (found search eMode nearby (clear_isInit t (set_pager t1 s)) (pre ++ (t, ls) :: rest)) (fails False D s0));
    [|intros pg s' (? & ? & ?); split; [done|split; [by eapply taken_ext|done]]|done].
  pose proof (walk_ext _ _ _ _ _ _ He Hwk) as Hwk1. pose proof (walk_ext _ _ _ _ _ _ He Hwk2) as Hwk21.
  set (s1 := clear_isInit t (set_pager t1 s)) in *. clearbody s1. clear Hwk2 Htr.
  assert (Hcont : search = true -> (QuietPager T -> ~ wanted eMode nearby t /\ ~ Exists (wanted eMode nearby) ls) ->
    wp (alloc_loop fuel mx n nearby eMode search (zlen pre + 1) t) s1 (found search eMode nearby s1 (pre ++ (t, ls) :: rest)) (fails False D s0)).
  { intros -> Hno. specialize (IH rest (pre ++ [(t, ls)]) next s1). rewrite <- app_assoc in IH. cbn [app] in IH.
    rewrite zlen_app in IH. destruct (link_snoc pre t ls) as [El _]. unfold prev_of in IH. rewrite El in IH.
    replace (match pre ++ [(t, ls)] with [] => 0 | _ => t end) with t in IH by (by destruct pre).
    apply IH; try done; [cbn in Hfu; lia|]. intros H'. specialize (Hq H'). rewrite free_pages_cons in Hq. destruct (Hno H') as [N1 N2].
    apply List.Exists_cons in Hq as [?|Hq]; [done|]. by apply List.Exists_app in Hq as [?|?]. }
  apply (alloc_visit_ok mx nearby eMode search pre t ls rest s1); try done.
Qed.
End alloc.

(** * The allocator

    [free_list] is the abstraction: the free pages are a set, of which an
    allocation takes one; when there is none, the file grows. *)
Section allocator.
Context {T : Type} {P : Pager T}.
Abbreviation Bt := (Bt T).

(** The pages that an allocation may change. *)
Definition alloc_pages (s : Bt) (tl : list (Z * list Z)) (p : Z) : Prop := p = 1 \/ p ∈ free_pages tl \/ nPage s < p.

(** A page at the end of the file. *)
Record appended (s : Bt) (pgno : Z) (s' : Bt) : Prop := {
  ap_new : nPage s < pgno <= nPage s + 4;
  ap_last : nPage s' = pgno;
  ap_use : data_page s' pgno;
  ap_skip : forall q, nPage s < q < pgno -> ~ data_page s' q;
  ap_size : get4 (content s' 1) 28 = Some pgno;
  ap_free : forall i, 32 <= i -> get4 (content s' 1) i = get4 (content s 1) i;
}.

Lemma next_nPage_ok (s : Bt) n : n = nPage s -> 0 <= n < 2 ^ 32 - 2 -> exists n', nPage (set_nPage n' s) = n' /\ n < n' <= n + 2 /\
  n' <> PENDING_BYTE_PAGE (bt_shared s) /\ (n + 1 < n' -> n + 1 = PENDING_BYTE_PAGE (bt_shared s)) /\
  forall Q E, Q tt (set_nPage n' s) -> wp next_nPage s Q E.
Proof using.
  intros -> Hn. exists (if nPage s + 1 =? PENDING_BYTE_PAGE (bt_shared s) then nPage s + 2 else nPage s + 1). split; [done|].
  destruct (Z.eqb_spec (nPage s + 1) (PENDING_BYTE_PAGE (bt_shared s))) as [E|E].
  - split_and!; try lia. intros Q E' HQ. unfold next_nPage. apply bt_modify. cbv zeta. rewrite (u32_small (nPage s + 1)), E, Z.eqb_refl, u32_small by lia.
    by replace (PENDING_BYTE_PAGE (bt_shared s) + 1) with (nPage s + 2) by lia.
  - split_and!; try lia. intros Q E' HQ. unfold next_nPage. apply bt_modify. cbv zeta. rewrite (u32_small (nPage s + 1)) by lia.
    by rewrite (proj2 (Z.eqb_neq _ _)).
Qed.

(** The page after a page of the pointer map is ordinary. *)
Lemma after_map b n n' : 480 <= usableSize b <= pageSize b -> 512 <= pageSize b <= 65536 -> 2 <= n -> n' < 2 ^ 32 -> PTRMAP_ISPAGE b n = true ->
  n < n' <= n + 2 -> n' <> PENDING_BYTE_PAGE b -> ordinary b n'.
Proof using.
  intros Hu Hb Hn Hn' Hi Hr Hp. apply Z.eqb_eq in Hi. fold (map_page b n) in Hi. destruct (map_base b n Hu Hb) as (base & Em & Hbase & Hlt & Hn97 & _ & Hq); [lia|].
  cbv zeta in *. split; [lia|]. split; [|done]. apply Z.eqb_neq. fold (map_page b n'). rewrite Hq, Hi; [lia|].
  rewrite Em in Hi. destruct (base =? _); lia.
Qed.

Lemma frame_nPage (D : Z -> Prop) n (s : Bt) : nPage s <= n -> frame D s (set_nPage n s).
Proof using. intros Hn. constructor; try done. by intros []. Qed.

(** Fetching a new page for writing. *)
Lemma bt_new_page {A} (k : BtPages.M T A) (D : Z -> Prop) (s0 s : Bt) p flags Q : wf s0 -> frame D s0 s -> D p -> 1 < p ->
  (forall s', frame D s0 s' -> edits (fun q => q = p) s s' -> wp k s' Q (fails False D s0)) ->
  wp (btreeGetUnusedPage p flags ;;; pager_write p ;;; k) s Q (fails False D s0).
Proof using.
  intros Hw Hf Hp H1 HQ. apply bt_bind, bt_get_unused; [done|by left|lia|]. intros t. cbv zeta. intros Hf1 _. apply bt_bind, bt_write; [done|].
  intros t2 Hf2. apply HQ; [done|]. eapply edits_trans; [apply edits_pager|]. eapply edits_trans; [|apply edits_pager]. eapply edits_trans; [|apply edits_isInit].
  apply edits_fetched; [by left|]. apply (edits_wf _ _ _ (edits_pager D t s)). destruct Hf. auto.
Qed.

Lemma append_page_ok s : wf s -> 1 <= nPage s < 2 ^ 32 - 8 ->
  wp append_page s (fun pgno s' => frame (fun p => p = 1 \/ nPage s < p) s s' /\ appended s pgno s') (fails False (fun p => p = 1 \/ nPage s < p) s).
Proof using.
  intros Hw Hn. set (D := fun p => p = 1 \/ nPage s < p). pose proof (wf_pageSize _ Hw) as Hps. pose proof (wf_usable _ Hw) as Hus.
  unfold append_page. apply bt_bind, bt_gets, bt_bind, bt_write; [apply frame_refl|]. intros t1 Hf1.
  destruct (next_nPage_ok (set_pager t1 s) (nPage s) eq_refl) as (n1 & _ & Hn1 & Hp1 & Hs1 & Hwp); [lia|]. apply bt_bind, Hwp. clear Hwp.
  assert (Hf2 : frame D s (set_nPage n1 (set_pager t1 s))) by (eapply frame_then; [done|apply frame_nPage; cbn; lia]).
  apply bt_bind, bt_gets, bt_bind.
  apply (bt_mono _ _ (fun _ s2 => frame D s s2 /\ content s2 1 = content s 1 /\ bDoTruncate s2 = bDoTruncate s /\
            nPage s < nPage s2 <= nPage s + 4 /\ data_page s2 (nPage s2) /\
            forall q, nPage s < q < nPage s2 -> q = PENDING_BYTE_PAGE (bt_shared s) \/ autoVacuum s = true /\ PTRMAP_ISPAGE (bt_shared s) q = true) (fails False D s));
    [|intros _ s2 (Hf & Ec & _ & Hr & [Hus2 Hp] & Hskip)|done].
  - cbn [autoVacuum set_nPage set_pager bt_shared nPage] in *. destruct (autoVacuum s && PTRMAP_ISPAGE (bt_shared s) n1) eqn:Em.
    + apply andb_true_iff in Em as [Ev Em]. apply bt_bind, bt_gets. cbn [nPage set_nPage].
      apply bt_new_page; [done|done|right; lia|lia|]. intros s2 Hfs2 He2.
      pose proof (edits_shared _ _ _ He2) as Eb2. pose proof (ed_nPage _ _ _ He2) as En2. cbn [nPage set_nPage bt_shared set_pager] in *.
      destruct (next_nPage_ok s2 n1 ltac:(done)) as (n2 & _ & Hn2 & Hp2 & Hs2 & Hwp); [lia|]. apply Hwp.
      rewrite Eb2 in Hp2, Hs2. split; [eapply frame_then; [exact Hfs2|apply frame_nPage; lia]|]. split; [apply (edits_content _ _ _ 1 He2); lia|].
      split; [by apply (ed_trunc _ _ _ He2)|]. cbn [nPage set_nPage]. split; [lia|]. split.
      * split; [|cbn [bt_shared set_nPage]; by rewrite Eb2]. split; [cbn; lia|]. intros _. cbn [bt_shared set_nPage]. rewrite Eb2. apply (after_map (bt_shared s) n1 n2); done || lia.
      * intros q Hq. destruct (Z.lt_trichotomy q n1) as [?|[->|?]]; [left; replace q with (nPage s + 1) by lia; apply Hs1; lia|by right|].
        left. replace q with (n1 + 1) by lia. apply Hs2. lia.
    + apply bt_ret. cbn [nPage set_nPage bt_shared set_pager]. split; [done|]. split; [done|]. split; [done|]. split; [lia|]. split.
      * split; [|done]. split; [cbn; lia|]. intros Ev. cbn [autoVacuum set_nPage set_pager bt_shared] in *. rewrite Ev in Em. split; [lia|done].
      * intros q Hq. left. replace q with (nPage s + 1) by lia. apply Hs1. lia.
  - pose proof (fr_wf _ _ _ Hf Hw) as Hw2. pose proof (fr_shared _ _ _ Hf) as Eb. apply bt_bind, bt_gets, bt_bind, bt_write4; try done; [rewrite Eb; lia|lia|by left|].
    intros s3 Hws3 Hf3. destruct (edits_word (fun p => p = 1) _ _ _ _ _ eq_refl Hws3) as (He3 & Ho3 & Hk3).
    apply bt_new_page; [done|done|right; lia|lia|]. intros s4 Hf4 He4. apply bt_ret. split; [done|].
    assert (Ec4 : content s4 1 = content s3 1) by (apply (edits_content _ _ _ 1 He4); lia). pose proof (edits_shared _ _ _ He4) as Eb4. pose proof (edits_shared _ _ _ He3) as Eb3.
    constructor; [lia|by rewrite (ed_nPage _ _ _ He4), (ed_nPage _ _ _ He3)| | |by rewrite Ec4|].
    + destruct Hus2 as [Hru Hou]. split; [|by rewrite Eb4, Eb3]. split; [by rewrite (ed_nPage _ _ _ He4), (ed_nPage _ _ _ He3)|].
      rewrite Eb4, Eb3, (edits_vacuum _ _ _ He4), (edits_vacuum _ _ _ He3). done.
    + intros q Hq [[_ Ho] Hpq]. pose proof (fr_shared _ _ _ Hf4) as Eb0. pose proof (fr_vacuum _ _ _ Hf4) as Ev0.
      destruct (Hskip q Hq) as [?|[Hv Hi]]; [congruence|]. rewrite Ev0, Eb0 in Ho. destruct (Ho Hv) as (_ & Hi' & _). congruence.
    + intros i Hi. rewrite Ec4, (only_get4 _ _ _ _ _ Ho3), Ec by lia. done.
Qed.

(** What a caller of [allocateBtreePage] may ask for; [rq_le] and [rq_exact] are
    needed for success only. *)
Record request (s : Bt) (tl : list (Z * list Z)) (nearby eMode : Z) : Prop := {
  rq_nearby : 0 <= nearby < 2 ^ 32;
  rq_vacuum : eMode <> BTALLOC_ANY -> 0 < nearby /\ autoVacuum s = true;
  rq_le : QuietPager T -> eMode = BTALLOC_LE -> free_pages tl <> [] -> Exists (fun p => p <= nearby) (free_pages tl);
  rq_exact : QuietPager T -> eMode = BTALLOC_EXACT -> nearby <= nPage s -> ordinary (bt_shared s) nearby /\
    exists ty, ptr_type s nearby = Some ty /\ 1 <= ty <= 5 /\ (ty = PTRMAP_FREEPAGE -> nearby ∈ free_pages tl);
}.

Record allocated (s : Bt) (tl : list (Z * list Z)) (nearby eMode pgno : Z) (s' : Bt) : Prop := {
  al_frame : frame (alloc_pages s tl) s s';
  al_list : exists tl', free_list s' tl' /\
    (free_pages tl ≡ₚ pgno :: free_pages tl' /\ nPage s' = nPage s /\ (has_content s pgno -> content s' pgno = content s pgno) \/
     free_pages tl = [] /\ free_pages tl' = [] /\ appended s pgno s');
  al_exact : eMode = BTALLOC_EXACT -> nearby ∈ free_pages tl -> pgno = nearby;
  al_le : eMode = BTALLOC_LE -> free_pages tl <> [] -> pgno <= nearby;
}.

Lemma free_pages_nil tl : free_pages tl = [] -> tl = [].
Proof using. by destruct tl as [|[t ls] tl]. Qed.

(** Entries of ordinary pages are not on pages that an allocation changes. *)
Lemma alloc_map s tl s' p : wf s -> free_list s tl -> autoVacuum s = true -> p ∈ free_pages tl -> frame (alloc_pages s tl) s s' -> ptr_type s' p = ptr_type s p.
Proof using.
  intros [Hu Hz _ _ _] [_ _ _ Hr _] Hv Hp Hf. pose proof (fr_shared _ _ _ Hf) as Eb. unfold ptr_type. rewrite Eb. f_equal. apply (fr_content _ _ _ Hf).
  rewrite list.Forall_forall in Hr. destruct (Hr p Hp) as [Hpr Ho]. destruct (map_ok (bt_shared s) p Hu Hz (Ho Hv)) as (Hm & _ & _ & Hno).
  intros [?|[Hin|?]]; [lia| |lia]. by apply Hno, (Hr _ Hin).
Qed.

Lemma perm_free_list s tl s' tl' pgno : wf s -> free_list s tl -> frame (alloc_pages s tl) s s' -> nPage s' = nPage s -> free_pages tl ≡ₚ pgno :: free_pages tl' ->
  linked s' tl' 0 -> get4 (content s' 1) 36 = Some (zlen (free_pages tl) - 1) -> free_list s' tl'.
Proof using.
  intros Hw Hfl Hf En Hp Hl Hc. pose proof (alloc_map s tl s') as Hm. pose proof Hfl as [_ _ Hnd Hr Hfm].
  assert (Hsub : forall p, p ∈ free_pages tl' -> p ∈ free_pages tl) by (intros p Hin; rewrite Hp; by right).
  pose proof (fr_shared _ _ _ Hf) as Eb. pose proof (fr_vacuum _ _ _ Hf) as Ev. rewrite list.Forall_forall in Hr. constructor; [done| | | |].
  - rewrite Hc. f_equal. unfold zlen. rewrite Hp. cbn [length]. lia.
  - rewrite Hp in Hnd. by apply list.NoDup_cons in Hnd as [_ ?].
  - apply list.Forall_forall. intros p Hin%Hsub. destruct (Hr p Hin) as [H1 H2]. split; [by rewrite En|by rewrite Eb, Ev].
  - rewrite Ev. intros Hv. apply list.Forall_forall. intros p Hin%Hsub. rewrite Hm by done. specialize (Hfm Hv). rewrite list.Forall_forall in Hfm. by apply Hfm.
Qed.

Lemma search_mode_ok s tl nearby eMode D Q : wf s -> free_list s tl -> nPage s < 2 ^ 32 - 8 -> free_pages tl <> [] -> request s tl nearby eMode ->
  (forall t (search : bool), frame D s (set_pager t s) ->
     (QuietPager T -> search = true -> Exists (wanted eMode nearby) (free_pages tl)) ->
     (eMode = BTALLOC_LE -> search = true) -> (eMode = BTALLOC_EXACT -> nearby ∈ free_pages tl -> search = true) -> Q search (set_pager t s)) ->
  wp (search_mode nearby eMode (nPage s)) s Q (fails False D s).
Proof using.
  intros Hw Hfl Hn Hne [Hnb Hv Hle Hex] HQ. pose proof (wf_usable _ Hw). unfold search_mode. assert (Hself : Q = Q) by done.
  assert (Hs : set_pager (pPager s) s = s) by (by destruct s). destruct (Z.eqb_spec eMode BTALLOC_EXACT) as [->|Hx].
  - destruct (Hv ltac:(done)) as [Hpos Hva]. destruct (Z.leb_spec nearby (nPage s)) as [Hin|Hout].
    + apply bt_bind, bt_ptrmapGet; [done|lia|apply frame_refl| |].
      { intros Hqp. destruct (Hex Hqp eq_refl Hin) as (Ho & ty & Hty & Hr & _). split; [done|]. by exists ty. }
      intros t ty q Hf Hty Hr. apply bt_ret, HQ; [done| |done|].
      * intros Hqp E%Z.eqb_eq. cbn [fst] in E. subst ty. destruct (Hex Hqp eq_refl Hin) as ((Ho & _) & ty & Hty' & _ & Hf'). destruct Hty as [Hty _]; [lia|].
        assert (ty = PTRMAP_FREEPAGE) as -> by congruence. apply list.Exists_exists. exists nearby. split; [by apply Hf'|by left].
      * intros _ Hfr. pose proof Hfl as [_ _ _ Hrg Hfm]. specialize (Hfm Hva). rewrite list.Forall_forall in Hrg, Hfm.
        destruct (Hrg _ Hfr) as [? _]. destruct Hty as [Hty _]; [lia|]. rewrite (Hfm _ Hfr) in Hty. injection Hty as <-. done.
    + apply bt_ret. rewrite <- Hs. apply HQ; [rewrite Hs; apply frame_refl|done|done|]. intros _ Hfr. destruct Hfl as [_ _ _ Hrg _]. rewrite list.Forall_forall in Hrg.
      destruct (Hrg _ Hfr). lia.
  - apply bt_ret. rewrite <- Hs. apply HQ; [rewrite Hs; apply frame_refl| |by intros ->|done]. intros Hqp ->%Z.eqb_eq.
    eapply List.Exists_impl; [|by apply Hle]. cbv beta. intros p Hp. destruct (decide (p = nearby)); [by left|right; split; [lia|done]].
Qed.

Lemma allocateBtreePage_ok s tl nearby eMode : wf s -> free_list s tl -> 1 <= nPage s < 2 ^ 32 - 8 ->
  request s tl nearby eMode ->
  wp (allocateBtreePage nearby eMode) s (allocated s tl nearby eMode) (fails False (alloc_pages s tl) s).
Proof using.
  intros Hw Hfl Hn Hrq. pose proof (free_list_length s tl Hfl ltac:(lia)) as Hlen. pose proof Hfl as [(first & Hf1 & Hseg) Hc Hnd Hr Hfm]. pose proof (zlen_nonneg (free_pages tl)) as Hz. pose proof (wf_pageSize _ Hw) as Hps.
  unfold allocateBtreePage. apply bt_bind, bt_gets, bt_bind. eapply bt_read4; [exact Hc|].
  rewrite Z.geb_leb, (proj2 (Z.leb_gt _ _)), Z.gtb_ltb by lia. destruct (Z.ltb_spec 0 (zlen (free_pages tl))) as [Hpos|Hzero].
  - assert (Hne : free_pages tl <> []) by (intros E; rewrite E in Hpos; done).
    apply bt_bind, (search_mode_ok s tl); [done..|lia|done|done|]. intros t1 search Hft1 Hq Hsle Hsex.
    apply bt_bind, bt_write; [done|]. intros t2 Hft2. apply bt_bind, bt_write4; try done; [by apply (fr_wf _ _ _ Hft2)|cbn; lia|lia|by left|].
    intros s2 Hws Hf2. destruct (edits_word (fun p => p = 1) _ _ _ _ _ eq_refl Hws) as (He2 & Ho2 & Hk2).
    assert (He : edits (fun p => p = 1) s s2) by (eapply edits_trans; [apply (edits_pager _ t1)|]; eapply edits_trans; [apply edits_pager|done]).
    change (content (set_pager t2 (set_pager t1 s)) 1) with (content s 1) in Ho2. clear Hws He2 Hft1 Hft2.
    assert (Hwk : walk (alloc_pages s tl) s2 (nPage s) [] tl first).
    { constructor; [|eapply seg_ext; [apply (edits_shared _ _ _ He)| |done]|done|].
      - exists first. split; [|done]. by rewrite (only_get4 _ _ _ _ _ Ho2) by lia.
      - intros t Ht%trunks_free. rewrite list.Forall_forall in Hr. destruct (Hr t Ht). apply (edits_content _ _ _ _ He). lia.
      - rewrite list.Forall_forall in Hr |- *. intros p Hp. destruct (Hr p Hp). split; [done|]. by right; left. }
    eapply bt_mono; [apply (alloc_loop_ok (alloc_pages s tl) s Hw (nPage s) (zlen (free_pages tl)) nearby eMode search _ tl [] first s2 Hwk)|intros pgno s' (Hf' & Htk & Hwant)|done];
      try done; try lia.
    + pose proof (trunks_length tl) as Htl. assert (length (trunks tl) = length tl) by apply length_fmap. unfold zlen in *. lia.
    + by apply Hrq.
    + by left.
    + intros H. destruct search; [by apply Hq|]. by intros ->.
    + destruct Htk as [Het (tl' & Hp & Hl') Hkept Hcnt]. constructor; [done| | |].
      * exists tl'. assert (En : nPage s' = nPage s) by (by rewrite (ed_nPage _ _ _ Het), (ed_nPage _ _ _ He)). split.
        -- apply (perm_free_list s tl s' tl' pgno); try done. by rewrite Hcnt.
        -- left. split; [done|]. split; [done|]. intros Hh. rewrite Hkept by (by apply (edits_has_content _ _ _ _ He)). apply (edits_content _ _ _ _ He).
           assert (pgno ∈ free_pages tl) as Hin by (rewrite Hp; by left). rewrite list.Forall_forall in Hr. destruct (Hr _ Hin). lia.
      * intros -> Hin. by destruct (Hwant (Hsex eq_refl Hin)) as [|[_ ?]].
      * intros -> _. destruct (Hwant (Hsle eq_refl)); lia.
  - assert (free_pages tl = []) as E0 by (destruct (free_pages tl) as [|p l]; [done|rewrite zlen_cons in *; pose proof (zlen_nonneg l); lia]). apply free_pages_nil in E0. subst tl. cbn in Hseg. subst first.
    assert (Hwk : forall p, p = 1 \/ nPage s < p -> alloc_pages s [] p) by (intros p [?|?]; [by left|by right; right]).
    eapply bt_mono; [by apply append_page_ok|intros pgno s' [Hf' Ha]|intros rc s' _ [Hf' Hq']; split; [by apply (frame_weaken _ _ _ _ Hwk)|done]].
    constructor; [by apply (frame_weaken _ _ _ _ Hwk)| |by intros _ ?%elem_of_nil|done]. exists []. split; [|by right].
    destruct Ha as [_ _ _ _ _ Hfree]. constructor; [|by rewrite Hfree by lia|constructor|constructor|intros _; constructor]. exists 0. by rewrite Hfree by lia.
Qed.
End allocator.

(** * What freeing does *)
Section free.
Context {T : Type} {P : Pager T}.
Abbreviation Bt := (Bt T).
Context (D : Z -> Prop) (s0 : Bt) (Hw0 : wf s0).

(** The page [p] was added to the list [tl]. *)
Record linked_in (s : Bt) (tl : list (Z * list Z)) (p : Z) (s' : Bt) : Prop := {
  li_frame : frame (fun q => q = 1 \/ q = p \/ q ∈ trunks tl) s s';
  li_nPage : nPage s' = nPage s;
  li_count : count_kept s s';
  li_list : exists tl', free_pages tl' ≡ₚ p :: free_pages tl /\ linked s' tl' 0 /\ (p ∈ trunks tl' \/ has_content s' p);
  li_has : forall q, 1 <= q -> has_content s q -> has_content s' q;
}.

Lemma new_trunk_ok (have : bool) s tl first p : get4 (content s 1) 32 = Some first -> seg s first tl 0 -> 1 ∉ p :: free_pages tl -> p ∉ free_pages tl -> 2 <= p < 2 ^ 32 ->
  D 1 -> D p -> frame D s0 s ->
  wp (new_trunk have first p) s (fun _ s' => frame D s0 s' /\ linked_in s tl p s') (fails True D s0).
Proof using Hw0.
  intros Hf32 Hseg H1 Hni Hp HD1 HDp Hf. pose proof (frame_wf D s0 Hw0 _ Hf) as Hw. pose proof (wf_pageSize _ Hw) as Hps.
  apply not_elem_of_cons in H1 as [Hp1 H1]. pose proof (get4_range _ _ _ (proj2 (content_len s 1 Hw)) Hf32) as Hfr. unfold new_trunk.
  apply bt_bind. eapply (bt_mono _ _ (fun _ s1 => frame D s0 s1 /\ edits (fun q => q = p) s s1)); [|intros _ s1 [Hf1 He1]|done].
  { destruct have; [apply bt_ret; split; [done|apply edits_refl]|]. apply bt_get; [done|done|lia|]. intros t Hft _. split; [done|apply edits_pager]. }
  apply bt_bind, bt_write; [done|]. intros t2 Hf2. assert (He2 : edits (fun q => q = p) s (set_pager t2 s1)) by (eapply edits_trans; [done|apply edits_pager]).
  set (s2 := set_pager t2 s1) in *. clearbody s2. pose proof (edits_shared _ _ _ He2) as Eb2.
  apply bt_bind, bt_write4; try done; [by apply (frame_wf D s0)|rewrite Eb2; lia|]. intros s3 Hw3 Hf3.
  destruct (edits_word (fun q => q = p) _ _ _ _ _ eq_refl Hw3) as (He3 & Ho3 & Hk3). pose proof (edits_trans _ _ _ _ He2 He3) as He03.
  apply bt_bind, bt_write4; try done; [by apply (frame_wf D s0)|rewrite (edits_shared _ _ _ He03); lia|]. intros s4 Hw4 Hf4.
  destruct (edits_word (fun q => q = p) _ _ _ _ _ eq_refl Hw4) as (He4 & Ho4 & Hk4). pose proof (edits_trans _ _ _ _ He03 He4) as He04.
  apply bt_write4; try done; [by apply (frame_wf D s0)|rewrite (edits_shared _ _ _ He04); lia|lia|]. intros s5 Hw5 Hf5.
  destruct (edits_word (fun q => q = 1) _ _ _ _ _ eq_refl Hw5) as (He5 & Ho5 & Hk5). pose proof (wf_usable _ Hw) as Hus.
  assert (Hout : forall q, q <> 1 -> q <> p -> content s5 q = content s q).
  { intros q Hq1 Hq. rewrite (edits_content _ _ _ _ He5) by done. by apply (edits_content _ _ _ _ He04). }
  assert (Ep : content s5 p = content s4 p) by (by apply (edits_content _ _ _ _ He5)).
  assert (He : edits (fun q => q = 1 \/ q = p \/ q ∈ trunks tl) s s5) by (eapply edits_trans; (eapply edits_weaken; [|done]); cbv beta; tauto).
  split; [done|]. constructor; [apply He|apply He| |exists ((p, []) :: tl); split; [by rewrite free_pages_cons|split; [|by left; left]]|].
  - unfold count_kept. rewrite (only_get4 _ _ _ _ _ Ho5) by lia. by rewrite (edits_content _ _ _ 1 He04).
  - exists p. split; [done|]. split; [done|]. exists first. split.
    + constructor; rewrite ?Ep, ?(edits_shared _ _ _ He); [by rewrite (only_get4 _ _ _ _ _ Ho4) by lia|done| |].
      * change (zlen (@nil Z)) with 0. Z.to_euclidean_division_equations. lia.
      * change (zlen (@nil Z)) with 0. lia.
    + eapply seg_ext; [apply (edits_shared _ _ _ He)| |done]. intros q Hq%trunks_free. apply Hout; by intros ->.
  - intros q _. by apply edits_has_content with (D := fun q => q = 1 \/ q = p \/ q ∈ trunks tl).
Qed.

Lemma linked_in_ext s s' tl p s'' : edits (fun _ => False) s s' -> linked_in s' tl p s'' -> linked_in s tl p s''.
Proof using.
  intros He [H1 H2 H3 H4 H5]. assert (Ec : forall q, content s' q = content s q) by (intros q; apply (edits_content _ _ _ _ He); by intros []).
  constructor; [|by rewrite H2, (ed_nPage _ _ _ He)|unfold count_kept in *; by rewrite H3, Ec|done|].
  - eapply frame_then; [|done]. eapply frame_weaken; [|apply He]. by intros q [].
  - intros q Hq Hh. apply H5; [done|]. by apply (edits_has_content _ _ _ _ He).
Qed.

Lemma new_leaf_ok (dont : bool) s t ls rest p : get4 (content s 1) 32 = Some t -> seg s t ((t, ls) :: rest) 0 -> p ∉ free_pages ((t, ls) :: rest) ->
  1 ∉ p :: free_pages ((t, ls) :: rest) -> NoDup (t :: trunks rest) -> 2 <= p <= nPage s -> nPage s < 2 ^ 32 ->
  zlen ls < usableSize (bt_shared s) / 4 - 8 -> D t -> frame D s0 s ->
  wp (new_leaf dont (zlen ls) t p) s (fun _ s' => frame D s0 s' /\ linked_in s ((t, ls) :: rest) p s') (fails True D s0).
Proof using Hw0.
  intros Hf32 [_ (next & [Hn Hc Hr Hlf] & Hs)] Hni H1 Hnd Hp Hn32 Hroom HDt Hf. pose proof (frame_wf D s0 Hw0 _ Hf) as Hw. pose proof (zlen_nonneg ls) as Hz.
  pose proof (room_ok s (zlen ls + 1) Hw ltac:(lia)) as Hrm. pose proof (wf_pageSize _ Hw) as Hps. pose proof (wf_usable _ Hw) as Hus.
  unfold new_leaf. apply bt_bind, bt_write; [done|]. intros t1 Hf1.
  apply bt_bind, bt_write4; try done; [by apply (frame_wf D s0)|cbn; lia|lia|]. intros s2 Hw2 Hf2.
  destruct (edits_word (fun q => q = t) _ _ _ _ _ eq_refl Hw2) as (He2 & Ho2 & Hk2).
  apply bt_bind, bt_write4; try done; [by apply (frame_wf D s0)|lia|rewrite (edits_shared _ _ _ He2); cbn; lia|lia|]. intros s3 Hw3 Hf3.
  destruct (edits_word (fun q => q = t) _ _ _ _ _ eq_refl Hw3) as (He3 & Ho3 & Hk3).
  assert (He : edits (fun q => q = t) s s3) by (eapply edits_trans; [apply (edits_pager _ t1)|]; by eapply edits_trans).
  change (content (set_pager t1 s) t) with (content s t) in Ho2. clear Hw2 Hw3 He2 He3.
  apply bt_bind. eapply (bt_mono _ _ (fun _ s4 => frame D s0 s4 /\ edits (fun _ => False) s3 s4)); [|intros _ s4 [Hf4 He4]|done].
  { destruct dont; [|apply bt_ret; split; [done|apply edits_refl]]. apply bt_modify. split; [|apply edits_pager].
    eapply frame_then; [exact Hf3|apply frame_pager]. }
  assert (Ec : forall q, content s4 q = content s3 q) by (intros q; apply (edits_content _ _ _ _ He4); by intros []).
  assert (He04 : edits (fun q => q = t) s s4) by (eapply edits_trans; [done|]; by eapply edits_weaken; [|done]).
  apply bt_setHas; [done|by apply (frame_wf D s0)|rewrite (ed_nPage _ _ _ He04); lia|by rewrite (ed_nPage _ _ _ He04)|done|].
  intros v a. cbv zeta. intros Hf5 Hhas Hmono. split; [done|].
  assert (Hout : forall q, q <> t -> content s4 q = content s q) by (intros q; apply (edits_content _ _ _ _ He04)).
  apply not_elem_of_cons in H1 as [_ H1]. assert (Ht1 : 1 <> t) by (intros <-; apply H1; by left).
  constructor; [|apply He04|by unfold count_kept; f_equal; apply Hout| |].
  - constructor; try (by apply He04); [by intros ?; apply (fr_wf _ _ _ Hf5), Hw0|]. intros q Hq. apply Hout. intros ->. apply Hq. right. right. by left.
  - exists ((t, ls ++ [p]) :: rest). split; [|split; [|by right]].
    + rewrite !free_pages_cons, <- app_assoc. cbn [app]. rewrite <- (Permutation_middle ls). apply perm_swap.
    + exists t. split; [by change (get4 (content s4 1) 32 = Some t); rewrite Hout|]. split; [done|]. exists next. split.
      * change (content (set_hasContent v a s4) t) with (content s4 t). constructor; change (content (set_hasContent v a s4) t) with (content s4 t); rewrite ?Ec; rewrite ?zlen_app.
        -- by rewrite (only_get4 _ _ _ _ _ Ho3), (only_get4 _ _ _ _ _ Ho2) by lia.
        -- by rewrite (only_get4 _ _ _ _ _ Ho3) by lia.
        -- change (bt_shared (set_hasContent v a s4)) with (bt_shared s4). rewrite (edits_shared _ _ _ He04). change (zlen [p]) with 1. lia.
        -- change (zlen [p]) with 1. intros i Hi. destruct (decide (i = zlen ls)) as [->|Hne].
           ++ rewrite Hk3, zget_app_r, Z.sub_diag by lia. done.
           ++ rewrite (only_get4 _ _ _ _ _ Ho3), (only_get4 _ _ _ _ _ Ho2), Hlf, zget_app_l by lia. done.
      * eapply (seg_ext s); [apply (edits_shared _ _ _ He04)| |done]. intros q Hq. apply Hout. intros ->. by apply list.NoDup_cons in Hnd as [? _].
  - intros q Hq Hh. apply Hmono; [done|]. by apply (edits_has_content _ _ _ _ He04).
Qed.

Lemma trunks_nodup tl : NoDup (free_pages tl) -> NoDup (trunks tl).
Proof using.
  induction tl as [|[t ls] tl IH]; [intros _; constructor|]. rewrite free_pages_cons. cbn. intros [Hn Hnd]%list.NoDup_cons.
  apply list.NoDup_app in Hnd as (_ & _ & Hnd). apply list.NoDup_cons. split; [|by apply IH]. intros Hin%trunks_free. apply Hn, elem_of_app. by right.
Qed.

Lemma link_free_ok (have secure : bool) s tl first p : get4 (content s 1) 32 = Some first -> seg s first tl 0 -> NoDup (free_pages tl) ->
  Forall (fun q => 2 <= q <= nPage s /\ D q) (free_pages tl) -> p ∉ free_pages tl -> 2 <= p <= nPage s -> nPage s < 2 ^ 32 -> D 1 -> D p -> frame D s0 s ->
  wp (link_free have secure (zlen (free_pages tl)) p) s (fun _ s' => frame D s0 s' /\ linked_in s tl p s') (fails True D s0).
Proof using Hw0.
  intros Hf32 Hseg Hnd Hr Hni Hp Hn HD1 HDp Hf. assert (H1 : 1 ∉ p :: free_pages tl).
  { rewrite list.Forall_forall in Hr. intros [?|Hin%Hr]%elem_of_cons; lia. }
  unfold link_free. destruct tl as [|[t ls] rest].
  { change (zlen (free_pages [])) with 0. cbn [Z.eqb negb]. cbn in Hseg. subst first. by apply new_trunk_ok; try done; lia. }
  rewrite (proj2 (Z.eqb_neq _ 0)) by (rewrite free_pages_cons, zlen_cons; pose proof (zlen_nonneg (ls ++ free_pages rest)); lia). cbn [negb].
  pose proof Hseg as [-> (next & [Hn1 Hc Hroom Hlf] & Hs)]. pose proof Hr as Hr'. rewrite free_pages_cons in Hr'. apply Forall_cons_1 in Hr' as [[Ht HDt] _].
  apply bt_bind. eapply bt_read4; [exact Hf32|]. apply bt_bind, bt_gets. rewrite !Z.gtb_ltb, (proj2 (Z.ltb_ge (nPage s) t)) by lia.
  apply bt_bind, bt_get; [done|done|lia|]. intros u Hfu _. assert (He : edits (fun _ => False) s (set_pager u s)) by apply edits_pager.
  apply bt_bind. eapply bt_read4; [exact Hc|]. apply bt_bind, bt_gets. change (bt_shared (set_pager u s)) with (bt_shared s).
  rewrite Z.gtb_ltb, (proj2 (Z.ltb_ge _ (zlen ls))) by lia.
  assert (Hsg : seg (set_pager u s) t ((t, ls) :: rest) 0) by (by eapply (seg_ext s)).
  destruct (Z.ltb_spec (zlen ls) (usableSize (bt_shared s) / 4 - 8)) as [Hlt|Hge].
  - eapply bt_mono; [apply new_leaf_ok; try done; by apply (trunks_nodup ((t, ls) :: rest))|intros _ s' [? ?]|done].
    split; [done|]. by eapply linked_in_ext.
  - eapply bt_mono; [apply new_trunk_ok; try done; lia|intros _ s' [? ?]|done]. split; [done|]. by eapply linked_in_ext.
Qed.
End free.

Section freePage.
Context {T : Type} {P : Pager T}.
Abbreviation Bt := (Bt T).

(** The pages that freeing [p] may change. *)
Definition freed_pages (s : Bt) (tl : list (Z * list Z)) (p q : Z) : Prop :=
  q = 1 \/ q = p \/ q ∈ free_pages tl \/ autoVacuum s = true /\ q = map_page (bt_shared s) p.

Record freed (s : Bt) (tl : list (Z * list Z)) (p : Z) (s' : Bt) : Prop := {
  fd_frame : frame (freed_pages s tl p) s s';
  fd_nPage : nPage s' = nPage s;
  fd_list : exists tl', free_list s' tl' /\ free_pages tl' ≡ₚ p :: free_pages tl /\ (p ∈ trunks tl' \/ has_content s' p);
  fd_has : forall q, 1 <= q -> has_content s q -> has_content s' q;
  fd_isInit : p ∉ bt_isInit s';
  fd_map : autoVacuum s = true -> forall k, ordinary (bt_shared s) k -> k <> p -> ptr_type s' k = ptr_type s k /\ ptr_parent s' k = ptr_parent s k;
}.

Lemma bt_finally {A} (m : BtPages.M T A) f (s : Bt) Q E : wp m s (fun a s' => Q a (f s')) (fun rc s' => E rc (f s')) -> wp (finally m f) s Q E.
Proof using. unfold wp, finally. destruct (m s) as [[[rc|a] s']|]; done. Qed.

Lemma free_prepare_ok (D : Z -> Prop) (s0 s : Bt) (have secure : bool) p : wf s0 -> frame D s0 s -> 2 <= p ->
  (autoVacuum s = true -> ordinary (bt_shared s) p) -> D p -> (autoVacuum s = true -> D (map_page (bt_shared s) p)) ->
  wp (free_prepare have secure (autoVacuum s) p) s (fun _ s' => frame D s0 s' /\
    edits (fun q => q = p \/ autoVacuum s = true /\ q = map_page (bt_shared s) p) s s' /\
    (autoVacuum s = true -> ptr_type s' p = Some PTRMAP_FREEPAGE /\
       forall k, ordinary (bt_shared s) k -> k <> p -> map_page (bt_shared s) k <> p -> ptr_type s' k = ptr_type s k /\ ptr_parent s' k = ptr_parent s k)) (fails True D s0).
Proof using.
  intros Hw0 Hf Hp Ho HDp HDm. unfold free_prepare. apply bt_bind.
  eapply (bt_mono _ _ (fun _ s1 => frame D s0 s1 /\ edits (fun q => q = p) s s1)); [|intros _ s1 [Hf1 He1]|done].
  { destruct secure; [|apply bt_ret; split; [done|apply edits_refl]]. apply bt_bind.
    eapply (bt_mono _ _ (fun _ s1 => frame D s0 s1 /\ edits (fun q => q = p) s s1)); [|intros _ s1 [Hf1 He1]|done].
    { destruct have; [apply bt_ret; split; [done|apply edits_refl]|]. apply bt_get; [done|done|lia|]. intros t Hft _. split; [done|apply edits_pager]. }
    apply bt_bind, bt_write; [done|]. intros t Hft. apply bt_modify.
    assert (He : edits (fun q => q = p) (set_pager t s1) (fetched PAGER_GET_NOCONTENT p (set_pager t s1))).
    { apply edits_fetched; [by left|]. destruct Hft. auto. }
    split; [eapply edits_in_frame; [exact Hft|exact He|by intros q ->]|]. eapply edits_trans; [done|]. eapply edits_trans; [apply edits_pager|done]. }
  assert (Hw1 : wf s1) by (destruct Hf1; auto). destruct (autoVacuum s) eqn:Ev; cycle 1.
  { apply bt_ret. split; [done|]. split; [|done]. eapply edits_weaken; [|done]. by left. }
  pose proof (edits_shared _ _ _ He1) as Eb1. specialize (Ho eq_refl). specialize (HDm eq_refl). rewrite <- Eb1 in *.
  apply bt_ptrmapPut; [done|done|done|done|done|done|]. intros s' Hf' He' Hty _ Hoth. split; [done|]. split.
  { eapply edits_trans; (eapply edits_weaken; [|done]); cbv beta; tauto. }
  intros _. split; [done|]. intros k Hk Hkp Hkm. destruct (Hoth k Hk Hkp) as [-> ->]. unfold ptr_type, ptr_parent. rewrite Eb1 in *.
  by rewrite (edits_content _ _ _ _ He1).
Qed.

Lemma add_free_list (s : Bt) tl p (s' : Bt) tl' : free_list s tl -> usable_page s p -> p ∉ free_pages tl -> bt_shared s' = bt_shared s -> autoVacuum s' = autoVacuum s ->
  nPage s' = nPage s -> linked s' tl' 0 -> get4 (content s' 1) 36 = Some (zlen (free_pages tl) + 1) -> free_pages tl' ≡ₚ p :: free_pages tl ->
  (autoVacuum s = true -> forall q, q ∈ p :: free_pages tl -> ptr_type s' q = Some PTRMAP_FREEPAGE) -> free_list s' tl'.
Proof using.
  intros [_ _ Hnd Hr _] Hup Hni Eb Ev En Hl Hc Hp Hm. assert (Hin : forall q, q ∈ free_pages tl' -> q ∈ p :: free_pages tl) by (intros q; by rewrite Hp).
  constructor; [done|rewrite Hc; f_equal; unfold zlen; rewrite Hp; cbn [length]; lia|rewrite Hp; by apply list.NoDup_cons| |].
  - apply list.Forall_forall. intros q Hq%Hin. unfold usable_page. rewrite Eb, Ev, En. apply elem_of_cons in Hq as [->|Hq]; [done|].
    rewrite list.Forall_forall in Hr. by apply Hr.
  - rewrite Ev. intros Hv. apply list.Forall_forall. intros q Hq%Hin. by apply Hm.
Qed.

Lemma freePage2_ok s tl (given : bool) p : wf s -> free_list s tl -> nPage s < 2 ^ 32 -> usable_page s p -> p ∉ free_pages tl ->
  wp (freePage2 given p) s (fun _ => freed s tl p) (fails True (freed_pages s tl p) s).
Proof using.
  intros Hw Hfl Hn [Hp Ho] Hni. pose proof (free_list_length s tl Hfl ltac:(lia)) as Hlen. pose proof Hfl as [(first & Hf32 & Hseg) Hc Hnd Hr Hfm]. pose proof (zlen_nonneg (free_pages tl)) as Hz. pose proof (wf_pageSize _ Hw) as Hps.
  pose proof Hw as [Hu Hzz _ _ _]. unfold freePage2. apply bt_bind, bt_gets. rewrite Z.gtb_ltb, (proj2 (Z.ltb_ge p 2)), (proj2 (Z.ltb_ge (nPage s) p)) by lia. cbn [orb].
  apply bt_bind, bt_gets, bt_finally. set (have := given || _). clearbody have. set (D := freed_pages s tl p).
  eapply (bt_mono _ _ _ (fails True D s)); [|intros a s' HQ; exact HQ|intros rc s' _ [Hf Hq]; split; [eapply frame_then; [done|apply frame_isInit]|done]].
  apply bt_bind, bt_write; [apply frame_refl|]. intros t1 Hf1. apply bt_bind. eapply bt_read4; [exact Hc|]. rewrite u32_small by lia.
  apply bt_bind, bt_write4; try done; [by apply (fr_wf _ _ _ Hf1)|cbn; lia|lia|by left|]. intros s2 Hws Hf2.
  destruct (edits_word (fun q => q = 1) _ _ _ _ _ eq_refl Hws) as (He2 & Ho2 & Hk2). change (content (set_pager t1 s) 1) with (content s 1) in Ho2.
  assert (He : edits (fun q => q = 1) s s2) by (eapply edits_trans; [apply (edits_pager _ t1)|done]). clear Hws He2 Hf1.
  pose proof (edits_shared _ _ _ He) as Eb. pose proof (edits_vacuum _ _ _ He) as Ev. pose proof (ed_nPage _ _ _ He) as En.
  apply bt_bind, bt_gets, bt_bind, bt_gets, bt_bind.
  assert (Hmap : autoVacuum s = true -> forall q, ordinary (bt_shared s) q -> 2 <= map_page (bt_shared s) q /\ ~ ordinary (bt_shared s) (map_page (bt_shared s) q)).
  { intros Hv q Hq. destruct (map_ok (bt_shared s) q Hu Hzz Hq) as (? & _ & _ & ?). split; [lia|done]. }
  eapply bt_mono; [apply (free_prepare_ok D s s2 have _ p Hw Hf2); [lia|by rewrite Ev, Eb|by right; left|rewrite Ev, Eb; intros ?; by right; right; right]|
    intros _ s3 (Hf3 & He3 & Hty)|done]. rewrite Ev, Eb in *.
  assert (Hfree : forall q, q ∈ free_pages tl -> 2 <= q <= nPage s /\ q <> p /\ (autoVacuum s = true -> ordinary (bt_shared s) q /\ q <> map_page (bt_shared s) p)).
  { intros q Hq. rewrite list.Forall_forall in Hr. destruct (Hr q Hq) as [Hqr Hqo]. split; [done|]. split; [by intros ->|]. intros Hv. split; [by apply Hqo|].
    intros ->. by apply (Hmap Hv p (Ho Hv)), Hqo. }
  assert (Ec3 : forall q, q ∈ free_pages tl -> content s3 q = content s q).
  { intros q Hq. destruct (Hfree q Hq) as (Hq1 & Hqp & Hqm). rewrite (edits_content _ _ _ _ He3) by (intros [?|[Hv ?]]; [done|by apply Hqm]).
    apply (edits_content _ _ _ _ He). lia. }
  assert (Ec1 : content s3 1 = content s2 1).
  { apply (edits_content _ _ _ _ He3). intros [?|[Hv Em]]; [lia|]. destruct (Hmap Hv p (Ho Hv)). lia. }
  eapply bt_mono; [apply (link_free_ok D s Hw (have || _) _ s3 tl first p); try done|intros _ s4 [Hf4 [Hli Hln Hlc (tl' & Hperm & Hl' & Htl') Hlh]]|done].
  - rewrite Ec1. by rewrite (only_get4 _ _ _ _ _ Ho2) by lia.
  - eapply seg_ext; [by rewrite (edits_shared _ _ _ He3)| |done]. intros q Hq%trunks_free. by apply Ec3.
  - apply list.Forall_forall. intros q Hq. rewrite (ed_nPage _ _ _ He3), En. split; [by apply Hfree|]. by right; right; left.
  - rewrite (ed_nPage _ _ _ He3), En. lia.
  - by rewrite (ed_nPage _ _ _ He3), En.
  - by left.
  - by right; left.
  - assert (Eb4 : bt_shared s4 = bt_shared s) by (by rewrite (fr_shared _ _ _ Hli), (edits_shared _ _ _ He3)).
    assert (Ev4 : autoVacuum s4 = autoVacuum s) by (by rewrite (fr_vacuum _ _ _ Hli), (edits_vacuum _ _ _ He3)).
    assert (En4 : nPage s4 = nPage s) by (by rewrite Hln, (ed_nPage _ _ _ He3)).
    assert (Hmap4 : autoVacuum s = true -> forall k, ordinary (bt_shared s) k -> content s4 (map_page (bt_shared s) k) = content s3 (map_page (bt_shared s) k)).
    { intros Hv k Hk. apply (fr_content _ _ _ Hli). destruct (Hmap Hv k Hk) as [Hm2 Hmo].
      intros [?|[E|Hin%trunks_free]]; [lia| |]; [rewrite E in Hmo; by apply Hmo, Ho|by apply Hmo, Hfree]. }
    assert (Hother : autoVacuum s = true -> forall k, ordinary (bt_shared s) k -> k <> p -> ptr_type s4 k = ptr_type s k /\ ptr_parent s4 k = ptr_parent s k).
    { intros Hv k Hk Hkp. destruct (Hty Hv) as [_ Hoth]. destruct (Hmap Hv k Hk) as [Hm2 Hmo].
      destruct (Hoth k Hk Hkp) as [E1 E2]; [intros Em; rewrite Em in Hmo; by apply Hmo, Ho|].
      unfold ptr_type, ptr_parent in *. rewrite Eb4, (Hmap4 Hv k Hk). rewrite (edits_shared _ _ _ He3), Eb in E1, E2. rewrite E1, E2.
      rewrite (edits_content _ _ _ _ He) by lia. done. }
    constructor; [eapply frame_then; [exact Hf4|apply frame_isInit]|cbn; by rewrite En4| | |cbn; set_solver|exact Hother]; cycle 1.
    { intros q Hq Hh. apply Hlh; [done|]. apply (edits_has_content _ _ _ _ He3), (edits_has_content _ _ _ _ He), Hh. }
    exists tl'. split; [|done].
    apply (add_free_list s tl p (clear_isInit p s4)); try done; [by apply (linked_ext s4)| |].
    + change (get4 (content s4 1) 36 = Some (zlen (free_pages tl) + 1)). unfold count_kept in Hlc. by rewrite Hlc, Ec1.
    + intros Hv q Hq. destruct (Hty Hv) as [Hpt _]. change (ptr_type s4 q = Some PTRMAP_FREEPAGE). apply elem_of_cons in Hq as [->|Hq].
      * rewrite <- Hpt. unfold ptr_type. rewrite Eb4, (Hmap4 Hv p (Ho Hv)). by rewrite (edits_shared _ _ _ He3), Eb.
      * destruct (Hfree q Hq) as (_ & Hqp & Hqo). destruct (Hother Hv q) as [-> _]; [by apply Hqo|done|]. specialize (Hfm Hv). rewrite list.Forall_forall in Hfm. by apply Hfm.
Qed.
End freePage.
