(* ===== verification/BtAlloc.v ===== *)
(** Clients of the allocation of pages (btree.c): however pages are allocated,
    written and freed, a page in use is never handed out again and never changes
    under its user. *)
From S2P Require Import Prelude.
From S2P Require Import Bits.
From S2P Require Import Util.
From S2P Require Import Vfs.
From S2P Require Import Mem.
From S2P Require Import Bitvec.
From S2P Require Import BtPage.
From S2P Require Import BtPages.
From S2P Require Import BtFree.
Open Scope Z_scope.

Section clients.
Context {T : Type} {P : Pager T}.
Abbreviation Bt := (Bt T).
Abbreviation M := (M T).

(** What a client does: [Write] replaces the content of a page. *)
Inductive client_op :=
  | Allocate (nearby : Z)
  | Free (given : bool) (p : Z)
  | Write (p : Z) (d : list Z).

Definition client_write (p : Z) (d : list Z) : M unit :=
  pager_write p ;;;
  modify (set_page p d).

(** [owned]: the pages that the client has; it frees and writes no others. *)
Fixpoint run_client (ops : list client_op) (owned : gset Z) : M (gset Z) :=
  match ops with
  | [] => ret owned
  | Allocate nearby :: ops =>
      let! p := allocateBtreePage nearby BTALLOC_ANY in
      run_client ops (owned ∪ {[p]})
  | Free given p :: ops =>
      if bool_decide (p ∈ owned) then
        freePage2 given p ;;;
        run_client ops (owned ∖ {[p]})
      else run_client ops owned
  | Write p d :: ops =>
      if bool_decide (p ∈ owned) then
        client_write p d ;;;
        run_client ops owned
      else run_client ops owned
  end.

Definition op_ok (b : BtShared) (o : client_op) : Prop :=
  match o with
  | Allocate nearby => 0 <= nearby < 2 ^ 32
  | Free _ _ => True
  | Write _ d => zlen d = pageSize b /\ bytes_ok d
  end.

(** The specification: the pages in use, with their contents. *)
Inductive op_spec : client_op -> gmap Z (list Z) -> gmap Z (list Z) -> Prop :=
  | spec_allocate nearby m p d : 2 <= p -> m !! p = None -> op_spec (Allocate nearby) m (<[p := d]> m)
  | spec_free given m p : op_spec (Free given p) m (delete p m)
  | spec_write m p d d' : m !! p = Some d' -> op_spec (Write p d) m (<[p := d]> m)
  | spec_skip m p d : m !! p = None -> op_spec (Write p d) m m.

Inductive run_spec : list client_op -> gmap Z (list Z) -> gmap Z (list Z) -> Prop :=
  | run_nil m : run_spec [] m m
  | run_cons o ops m1 m2 m3 : op_spec o m1 m2 -> run_spec ops m2 m3 -> run_spec (o :: ops) m1 m3.

(** The state implements the pages in use [m]: every page that may hold data is in
    use or free. *)
Record pages (s : Bt) (m : gmap Z (list Z)) : Prop := {
  pg_wf : wf s;
  pg_list : exists tl, free_list s tl /\ (forall p, is_Some (m !! p) -> p ∉ free_pages tl) /\
    forall p, data_page s p -> is_Some (m !! p) \/ p ∈ free_pages tl;
  pg_use : forall p d, m !! p = Some d -> usable_page s p /\ content s p = d;
}.

Lemma usable_frame D (s s' : Bt) p : frame D s s' -> usable_page s p -> usable_page s' p.
Proof using. intros [Eb Ev _ _ Hn _] [H1 H2]. unfold usable_page. rewrite Eb, Ev. split; [lia|done]. Qed.

Lemma data_frame D (s s' : Bt) p : frame D s s' -> data_page s' p -> p <= nPage s -> data_page s p.
Proof using. intros [Eb Ev _ _ _ _] [[H1 H2] H3] Hp. unfold data_page, usable_page. rewrite <- Eb, <- Ev. split; [split; [lia|done]|done]. Qed.

(** A page in use is not among those that an operation changes. *)
Lemma pages_keep D (s s' : Bt) m p d : pages s m -> frame D s s' -> m !! p = Some d -> ~ D p -> usable_page s' p /\ content s' p = d.
Proof using.
  intros Hpg Hf Hm Hp. destruct (pg_use _ _ Hpg p d Hm) as [Hu Hc]. split; [by eapply usable_frame|]. by rewrite (fr_content _ _ _ Hf).
Qed.

(** The entry of a page in use, in the pointer map, is not on a page that an
    operation changes. *)
Definition same_map (s s' : Bt) (m : gmap Z (list Z)) : Prop := autoVacuum s = true -> forall q, is_Some (m !! q) ->
  ptr_type s' q = ptr_type s q /\ ptr_parent s' q = ptr_parent s q.

Lemma keep_map (D : Z -> Prop) s s' m : pages s m -> frame D s s' ->
  (forall p, D p -> 2 <= p <= nPage s -> autoVacuum s = true -> ordinary (bt_shared s) p) -> same_map s s' m.
Proof using.
  intros Hpg Hf HD Hv q [d Hq]. destruct (pg_use _ _ Hpg q d Hq) as [[Hr Ho] _]. pose proof (pg_wf _ _ Hpg) as [Hu Hz _ _ _].
  destruct (map_ok (bt_shared s) q Hu Hz (Ho Hv)) as (Hm & _ & _ & Hno). unfold ptr_type, ptr_parent. rewrite (fr_shared _ _ _ Hf).
  rewrite (fr_content _ _ _ Hf); [done|]. intros Hd. apply Hno, HD; [done|lia|done].
Qed.

Lemma allocate_pages s m nearby : pages s m -> 0 <= nearby < 2 ^ 32 -> 1 <= nPage s < 2 ^ 32 - 8 ->
  wp (allocateBtreePage nearby BTALLOC_ANY) s
    (fun p s' => exists d, 2 <= p /\ m !! p = None /\ pages s' (<[p := d]> m) /\ same_map s s' m /\
      bt_shared s' = bt_shared s /\ autoVacuum s' = autoVacuum s /\ nPage s <= nPage s' <= nPage s + 4)
    (fun rc _ => ~ QuietPager T).
Proof using.
  intros Hpg Hnb Hn. pose proof Hpg as [Hw (tl & Hfl & Hdis & Hall) Huse]. eapply bt_mono; [apply (allocateBtreePage_ok s tl nearby BTALLOC_ANY Hw Hfl Hn)|intros p s' [Hf (tl' & Hfl' & Hcase) _ _]|intros rc s' _ [_ Hq] Hqp; by destruct (Hq Hqp)].
  { constructor; done. }
  assert (Hnew : 2 <= p /\ m !! p = None /\ usable_page s' p /\ ~ (p ∈ free_pages tl') /\ (forall q, q ∈ free_pages tl' -> q ∈ free_pages tl) /\
    nPage s <= nPage s' <= nPage s + 4 /\ forall q, data_page s' q -> q = p \/ data_page s q /\ (q ∈ free_pages tl -> q = p \/ q ∈ free_pages tl')).
  { destruct Hcase as [(Hp & En & _)|(E1 & E2 & [Hr El [Hu _] Hskip _ _])].
    - pose proof Hfl as [_ _ Hnd Hrg _]. rewrite list.Forall_forall in Hrg. assert (Hin : p ∈ free_pages tl) by (rewrite Hp; by left).
      rewrite Hp in Hnd. apply list.NoDup_cons in Hnd as [Hnp _]. destruct (Hrg p Hin) as [Hr _]. split_and!; try lia; try done.
      + destruct (m !! p) eqn:Em; [|done]. exfalso. apply (Hdis p); [by rewrite Em|done].
      + eapply usable_frame; [exact Hf|by apply Hrg].
      + intros q Hq. rewrite Hp. by right.
      + intros q Hq. right. split; [eapply data_frame; [exact Hf|done|destruct Hq as [[? _] _]; lia]|]. rewrite Hp. intros Hq'. by apply elem_of_cons in Hq'.
    - rewrite E1, E2. split_and!; try lia; try done.
      + destruct (m !! p) eqn:Em; [|done]. destruct (Huse _ _ Em) as [[? _] _]. lia.
      + apply not_elem_of_nil.
      + intros q Hq. destruct (decide (q = p)) as [->|Hne]; [by left|right]. split; [|by intros ?%elem_of_nil]. eapply data_frame; [exact Hf|done|].
        pose proof Hq as [[Hr' _] _]. destruct (Z.le_gt_cases q (nPage s)); [done|]. exfalso. apply (Hskip q); [lia|done]. }
  destruct Hnew as (H2 & Hno & Hu & Hnp & Hsub & Hn' & Hback). exists (content s' p). split; [done|]. split; [done|].
  split; [|split; [|split; [apply (fr_shared _ _ _ Hf)|split; [apply (fr_vacuum _ _ _ Hf)|done]]]]; cycle 1.
  { apply (keep_map _ s s' m Hpg Hf). intros q [->|[Hin|?]] Hr Hv; [lia| |lia]. pose proof Hfl as [_ _ _ Hrg _]. rewrite list.Forall_forall in Hrg. by apply Hrg. }
  constructor; [by apply (fr_wf _ _ _ Hf)|exists tl'; split; [done|split]|].
  - intros q Hq. destruct (decide (q = p)) as [->|Hne]; [done|]. rewrite lookup_insert_ne in Hq by done. intros Hin%Hsub. by apply (Hdis q).
  - intros q Hq. destruct (Hback q Hq) as [->|[Hd Hfr]]; [left; by rewrite lookup_insert_eq|]. destruct (decide (q = p)) as [->|Hne]; [left; by rewrite lookup_insert_eq|].
    rewrite lookup_insert_ne by done. destruct (Hall q Hd) as [?|Hin]; [by left|right]. by destruct (Hfr Hin).
  - intros q d Hq. destruct (decide (q = p)) as [->|Hne]; [rewrite lookup_insert_eq in Hq; by injection Hq as <-|]. rewrite lookup_insert_ne in Hq by done.
    eapply pages_keep; [done|done|done|]. destruct (Huse _ _ Hq) as [[Hr _] _]. intros [?|[Hin|?]]; [lia| |lia]. apply (Hdis q); [by rewrite Hq|done].
Qed.

Lemma free_pages_spec s m given p : pages s m -> is_Some (m !! p) -> 1 <= nPage s < 2 ^ 32 - 8 ->
  wp (freePage2 given p) s (fun _ s' => pages s' (delete p m) /\ same_map s s' (delete p m) /\ bt_shared s' = bt_shared s /\ autoVacuum s' = autoVacuum s /\ nPage s' = nPage s)
    (fun rc _ => QuietPager T -> rc = SQLITE_NOMEM).
Proof using.
  intros Hpg Hp Hn. pose proof Hpg as [Hw (tl & Hfl & Hdis & Hall) Huse]. destruct Hp as [dp Hdp]. destruct (Huse _ _ Hdp) as [Hup _].
  assert (Hnf : p ∉ free_pages tl) by (apply Hdis; by rewrite Hdp).
  eapply bt_mono; [apply (freePage2_ok s tl given p Hw Hfl); [lia|done|done]|intros _ s' [Hf En (tl' & Hfl' & Hp' & _) _ _ Hmap]|intros rc s' _ [_ Hq] Hqp; by destruct (Hq Hqp)].
  split; [|split; [|split; [apply (fr_shared _ _ _ Hf)|by split; [apply (fr_vacuum _ _ _ Hf)|]]]]; cycle 1.
  { intros Hv q [d Hq]. apply lookup_delete_Some in Hq as [Hne Hq]. destruct (Huse _ _ Hq) as [[_ Ho] _]. by apply Hmap; [|apply Ho|]. }
  constructor; [by apply (fr_wf _ _ _ Hf)|exists tl'; split; [done|split]|].
  - intros q [d Hq]. apply lookup_delete_Some in Hq as [Hne Hq]. rewrite Hp'. intros [->|Hin]%elem_of_cons; [done|]. apply (Hdis q); [by rewrite Hq|done].
  - intros q Hq. rewrite Hp'. destruct (decide (q = p)) as [->|Hne]; [right; by left|]. rewrite lookup_delete_ne by done.
    destruct (Hall q) as [?|?]; [eapply data_frame; [exact Hf|done|destruct Hq as [[? _] _]; lia]|by left|right; by right].
  - intros q d Hq. apply lookup_delete_Some in Hq as [Hne Hq]. eapply pages_keep; [done|done|done|]. destruct (Huse _ _ Hq) as [[Hr Ho] _].
    intros [?|[?|[Hin|[Hv ->]]]]; [lia|done|by apply (Hdis q); [by rewrite Hq|]|].
    pose proof Hw as [Hu Hz _ _ _]. destruct Hup as [_ Hop]. destruct (map_ok (bt_shared s) p Hu Hz (Hop Hv)) as (_ & _ & _ & Hno). by apply Hno, Ho.
Qed.

Lemma pages_edits (s s' : Bt) m : edits (fun _ => False) s s' -> pages s m -> pages s' m.
Proof using.
  intros He [Hw (tl & Hfl & Hdis & Hall) Huse]. pose proof (ed_frame _ _ _ He) as Hf. pose proof (ed_nPage _ _ _ He) as En.
  assert (Ec : forall q, content s' q = content s q) by (intros q; apply (edits_content _ _ _ _ He); by intros []).
  constructor; [by apply (fr_wf _ _ _ Hf)|exists tl; split; [|split; [done|]]|].
  - apply (free_list_ext s); try done; [apply (edits_shared _ _ _ He)|apply (edits_vacuum _ _ _ He)|].
    intros q _ _. unfold ptr_type. by rewrite Ec, (edits_shared _ _ _ He).
  - intros q Hq. apply Hall. eapply data_frame; [exact Hf|done|destruct Hq as [[? _] _]; lia].
  - intros q d Hq. destruct (Huse _ _ Hq). split; [by eapply usable_frame|]. by rewrite Ec.
Qed.

(** A page in use gets other bytes. *)
Lemma set_pages s m p d : pages s m -> is_Some (m !! p) -> zlen d = pageSize (bt_shared s) -> bytes_ok d ->
  pages (set_page p d s) (<[p := d]> m) /\ same_map s (set_page p d s) m.
Proof using.
  intros Hpg [dp Hdp] Hl Hb. pose proof Hpg as [Hw (tl & Hfl & Hdis & Hall) Huse]. destruct (Huse _ _ Hdp) as [[Hr Ho] _].
  assert (Hf : frame (fun q => q = p) s (set_page p d s)) by (by apply frame_set_page).
  split; [|eapply keep_map; [done|exact Hf|by intros q ->]].
  assert (Hout : forall q, q <> p -> content (set_page p d s) q = content s q) by (intros q Hq; by apply (fr_content _ _ _ Hf)).
  assert (Hnf : p ∉ free_pages tl) by (apply Hdis; by rewrite Hdp). constructor; [by apply (fr_wf _ _ _ Hf)|exists tl; split; [|split]|].
  - apply (free_list_ext s); try done.
    + intros q Hq. apply Hout. intros ->. apply elem_of_cons in Hq as [?|Hq%trunks_free]; [lia|done].
    + intros q Hv Hq. unfold ptr_type. cbn [bt_shared set_page]. f_equal. apply Hout. intros E. pose proof Hfl as [_ _ _ Hrg _]. rewrite list.Forall_forall in Hrg. destruct (Hrg q Hq) as [_ Hqo].
      pose proof Hw as [Hu Hz _ _ _]. destruct (map_ok (bt_shared s) q Hu Hz (Hqo Hv)) as (_ & _ & _ & Hno). apply Hno. rewrite E. by apply Ho.
  - intros q Hq. apply Hdis. destruct (decide (q = p)) as [->|Hne]; [by rewrite Hdp|by rewrite lookup_insert_ne in Hq].
  - intros q Hq. destruct (Hall q) as [Hs|?]; [eapply data_frame; [exact Hf|done|apply Hq]| |by right]. left. by apply lookup_insert_is_Some'; right.
  - intros q e Hq. destruct (decide (q = p)) as [->|Hne].
    + rewrite lookup_insert_eq in Hq. injection Hq as <-. split; [by split|]. rewrite content_set. by rewrite decide_True.
    + rewrite lookup_insert_ne in Hq by done. destruct (Huse _ _ Hq). split; [by eapply usable_frame|]. by rewrite Hout.
Qed.

Lemma write_pages s m p d : pages s m -> is_Some (m !! p) -> zlen d = pageSize (bt_shared s) -> bytes_ok d ->
  wp (client_write p d) s (fun _ s' => pages s' (<[p := d]> m) /\ bt_shared s' = bt_shared s /\ nPage s' = nPage s) (fun rc _ => ~ QuietPager T).
Proof using.
  intros Hpg Hp Hl Hb. apply bt_bind.
  eapply bt_mono; [apply (bt_write False (fun _ => True) s p s (fun _ s' => exists t, s' = set_pager t s)); [apply frame_refl|intros t _; by exists t]|
    intros _ s1 [t ->]|intros rc s1 _ [_ Hq] Hqp; by destruct (Hq Hqp)].
  apply bt_modify. split; [|done]. apply (set_pages (set_pager t s) m); [|done..]. eapply pages_edits; [apply edits_pager|done].
Qed.

(** An entry of the pointer map is set. *)
Lemma put_pages s m p ty q : pages s m -> is_Some (m !! p) -> autoVacuum s = true -> 0 <= ty < 256 -> 0 <= q < 2 ^ 32 ->
  wp (ptrmapPut p ty q) s (fun _ s' => pages s' m /\ ptr_type s' p = Some ty /\ ptr_parent s' p = Some q /\
    (forall k, is_Some (m !! k) -> k <> p -> ptr_type s' k = ptr_type s k /\ ptr_parent s' k = ptr_parent s k) /\
    bt_shared s' = bt_shared s /\ autoVacuum s' = autoVacuum s /\ nPage s' = nPage s) (fun rc _ => ~ QuietPager T).
Proof using.
  intros Hpg [dp Hdp] Hv Hty Hq. pose proof Hpg as [Hw (tl & Hfl & Hdis & Hall) Huse]. destruct (Huse _ _ Hdp) as [[Hr Ho] _]. pose proof Hw as [Hu Hz _ _ _].
  assert (Hord : forall k, is_Some (m !! k) -> ordinary (bt_shared s) k) by (intros k [d Hd]; destruct (Huse _ _ Hd) as [[_ Hk] _]; by apply Hk).
  assert (Hfree : forall k, k ∈ free_pages tl -> ordinary (bt_shared s) k).
  { intros k Hk. pose proof Hfl as [_ _ _ Hrg _]. rewrite list.Forall_forall in Hrg. by apply (Hrg k Hk). }
  destruct (map_ok (bt_shared s) p Hu Hz (Ho Hv)) as (Hm & _ & _ & Hno).
  assert (Hput : wp (ptrmapPut p ty q) s (fun _ s' => edits (fun k => k = map_page (bt_shared s) p) s s' /\ ptr_type s' p = Some ty /\ ptr_parent s' p = Some q /\
    forall k, ordinary (bt_shared s) k -> k <> p -> ptr_type s' k = ptr_type s k /\ ptr_parent s' k = ptr_parent s k)
    (fails False (fun k => k = map_page (bt_shared s) p) s)).
  { apply bt_ptrmapPut; try done. by apply Ho. }
  eapply bt_mono; [exact Hput|
    intros _ s' (He & H1 & H2 & Hoth)|intros rc s1 _ [_ Hq'] Hqp; by destruct (Hq' Hqp)].
  pose proof (ed_frame _ _ _ He) as Hf. assert (Hc : forall k, k = 1 \/ ordinary (bt_shared s) k -> content s' k = content s k).
  { intros k Hk. apply (edits_content _ _ _ _ He). intros ->. destruct Hk; [lia|done]. }
  split; [|split; [done|split; [done|split; [intros k Hk Hne; by apply Hoth; [apply Hord|]|split; [apply (edits_shared _ _ _ He)|split; [apply (edits_vacuum _ _ _ He)|apply He]]]]]].
  constructor; [by apply (fr_wf _ _ _ Hf)|exists tl; split; [|split; [done|]]|].
  - apply (free_list_ext s); try done; [apply (edits_shared _ _ _ He)|apply (edits_vacuum _ _ _ He)|apply He| |].
    + intros k [->|Hk%trunks_free]%elem_of_cons; apply Hc; [by left|right; by apply Hfree].
    + intros k _ Hk. apply Hoth; [by apply Hfree|]. intros ->. apply (Hdis p); [by rewrite Hdp|done].
  - intros k Hk. apply Hall. eapply data_frame; [exact Hf|done|]. destruct Hk as [[? _] _]. pose proof (ed_nPage _ _ _ He). lia.
  - intros k d Hk. destruct (Huse _ _ Hk). split; [by eapply usable_frame|]. rewrite Hc; [done|]. right. apply Hord. by rewrite Hk.
Qed.

(** C17. Allocation and freeing of pages implement a map from the pages in use
    to their contents: whatever a client allocates, frees and writes, in any order,
    an allocated page was not in use, and no page in use changes but by the
    client's own writes; with a pager that does not fail, only lack of memory
    stops the client. *)
Theorem run_refines ops : forall s m, pages s m -> Forall (op_ok (bt_shared s)) ops -> 1 <= nPage s -> nPage s + 4 * zlen ops < 2 ^ 32 - 8 ->
  wp (run_client ops (dom m)) s (fun owned s' => exists m', run_spec ops m m' /\ pages s' m' /\ owned = dom m') (fun rc _ => QuietPager T -> rc = SQLITE_NOMEM).
Proof using.
  induction ops as [|o ops IH]; intros s m Hpg Hok H1 Hn; [apply bt_ret; exists m; split; [constructor|done]|].
  apply Forall_cons_1 in Hok as [Ho Hok]. rewrite zlen_cons in Hn. pose proof (zlen_nonneg ops) as Hz. destruct o as [nearby|given p|p d]; cbn [run_client].
  - apply bt_bind. eapply bt_mono; [by apply (allocate_pages s m nearby Hpg Ho); lia|intros p s1 (d & H2 & Hnone & Hpg1 & _ & Eb & _ & Hn1)|by intros rc s' _ Hq ?].
    replace (dom m ∪ {[p]}) with (dom (<[p := d]> m)) by (rewrite dom_insert_L; set_solver). rewrite <- Eb in Hok.
    eapply bt_mono; [apply (IH s1 _ Hpg1 Hok); lia|intros owned s' (m' & Hr & Hp' & ->)|done]. exists m'. split; [|done]. econstructor; [by constructor|done].
  - case_bool_decide as Hin.
    + apply elem_of_dom in Hin. apply bt_bind. eapply bt_mono; [by apply (free_pages_spec s m given p Hpg Hin); lia|intros _ s1 (Hpg1 & _ & Eb & _ & En)|done].
      rewrite <- dom_delete_L. rewrite <- Eb in Hok. eapply bt_mono; [apply (IH s1 _ Hpg1 Hok); lia|intros owned s' (m' & Hr & Hp' & ->)|done].
      exists m'. split; [|done]. econstructor; [constructor|done].
    + eapply bt_mono; [apply (IH s m Hpg Hok); lia|intros owned s' (m' & Hr & Hp' & ->)|done]. exists m'. split; [|done].
      econstructor; [apply spec_free|]. apply not_elem_of_dom in Hin. by rewrite delete_id.
  - case_bool_decide as Hin.
    + apply elem_of_dom in Hin as [d' Hd']. apply bt_bind.
      eapply bt_mono; [apply (write_pages s m p d Hpg); [by rewrite Hd'|by destruct Ho..]|intros _ s1 (Hpg1 & Eb & En)|by intros rc s' _ Hq ?].
      replace (dom m) with (dom (<[p := d]> m)) by (rewrite dom_insert_L; apply elem_of_dom_2 in Hd'; set_solver). rewrite <- Eb in Hok.
      eapply bt_mono; [apply (IH s1 _ Hpg1 Hok); lia|intros owned s' (m' & Hr & Hp' & ->)|done]. exists m'. split; [|done]. econstructor; [by eapply spec_write|done].
    + eapply bt_mono; [apply (IH s m Hpg Hok); lia|intros owned s' (m' & Hr & Hp' & ->)|done]. exists m'. split; [|done].
      apply not_elem_of_dom in Hin. econstructor; [by apply spec_skip|done].
Qed.
End clients.

(** * An example *)

#[local] Instance unit_pager : Pager unit := {
  sqlite3PagerGet := fun t _ _ => (SQLITE_OK, t);
  sqlite3PagerWrite := fun t _ => (SQLITE_OK, t);
  sqlite3PagerLookup := fun _ _ => false;
  sqlite3PagerPageRefcount := fun _ _ => 1;
  sqlite3PagerDontWrite := fun t _ => t;
}.

#[local] Instance unit_quiet : QuietPager unit.
Proof. by constructor. Qed.

(** An auto-vacuum database of five pages: the second one is a page of the
    pointer map. *)
Definition sample_shared : BtShared := mkBtShared 0 0 0 0 0 0 512 512 false.
Definition sample_state : Bt unit := mkBt sample_shared true false 5 ∅ ∅ None [] tt.
Definition sample_zeros : list Z := replicate 512 0.
Definition sample_pages : gmap Z (list Z) := <[3 := sample_zeros]> (<[4 := sample_zeros]> {[ 5 := sample_zeros ]}).
Definition sample_ops : list client_op := [Free true 4; Write 5 (replicate 512 7); Free false 5; Allocate 0; Allocate 0; Allocate 0].

Lemma sample_pages_ok : pages sample_state sample_pages.
Proof.
  assert (Hz : forall p, content sample_state p = sample_zeros) by (intros p; unfold content; cbn [bt_pages sample_state]; by rewrite lookup_empty).
  assert (Hu : usable_page sample_state 3 /\ usable_page sample_state 4 /\ usable_page sample_state 5).
  { unfold usable_page, ordinary. cbn [bt_shared sample_state nPage]. split_and!; lia || intros _; split_and!; by vm_compute. }
  constructor.
  - constructor; [vm_compute; split; congruence..|by intros p d ?|done|intros p _; apply not_elem_of_empty].
  - exists []. split; [|split; [intros p _; apply not_elem_of_nil|]].
    + constructor; [exists 0; split; [rewrite Hz; by vm_compute|done]|rewrite Hz; by vm_compute|constructor..|]. intros _. constructor.
    + intros p [[Hr Ho] _]. left. destruct (Ho eq_refl) as (_ & Hi & _). cbn in Hr. assert (p = 2 \/ p = 3 \/ p = 4 \/ p = 5) as [->|[->|[->| ->]]] by lia;
        [by vm_compute in Hi|vm_compute; by eexists..].
  - intros p d. unfold sample_pages. rewrite !lookup_insert_Some, lookup_singleton_Some. rewrite Hz.
    by intros [[<- <-]|[_ [[<- <-]|[_ [<- <-]]]]].
Qed.

Lemma run_refines_witness : wp (run_client sample_ops (dom sample_pages)) sample_state
  (fun owned s' => exists m', run_spec sample_ops sample_pages m' /\ pages s' m' /\ owned = dom m') (fun rc _ => QuietPager unit -> rc = SQLITE_NOMEM).
Proof.
  apply run_refines; [apply sample_pages_ok| |vm_compute; congruence|by vm_compute].
  apply List.Forall_cons; [exact I|]. apply List.Forall_cons; [split; [by vm_compute|apply Forall_replicate; unfold byte_ok; lia]|].
  repeat (apply List.Forall_cons; [first [exact I|by vm_compute]|]). apply List.Forall_nil.
Defined.

(** The pages 4 and 5 are reused, then the file grows. *)
Example run_example : match run_client sample_ops (dom sample_pages) sample_state with
  | Some (inr owned, s') => (elements owned, nPage s') = ([5; 3; 6; 4], 6)
  | _ => False
  end.
Proof. by vm_compute. Qed.
