(* ===== verification/BtOvfl.v ===== *)
(** Payloads on overflow pages (btree.c): [fillInCell], [accessPayload],
    [clearCellOverflow]. *)
From S2P Require Import Prelude.
From S2P Require Import Bits.
From S2P Require Import Util.
From S2P Require Import Varint.
From S2P Require Import Vfs.
From S2P Require Import Mem.
From S2P Require Import Bitvec.
From S2P Require Import BtPage.
From S2P Require Import BtPages.
From S2P Require Import BtFree.
From S2P Require Import BtAlloc.
Open Scope Z_scope.


(** What [fillInCell] writes to a cell. *)
Record BtreePayload := mkPayload {
  px_pKey : list Z;
  px_nKey : Z;
  px_pData : list Z;
  px_nZero : Z;
}.

(** The fields of a cursor that reading its payload uses.  [c_pPage] is the page
    of the cell; what it holds is the content of the page [c_pgno].  An entry of
    [c_aOverflow] that was never written is [None]. *)
Record BtCursor := mkCursor {
  c_pgno : Z;
  c_pPage : MemPage;
  c_ix : Z;
  c_info : CellInfo;
  c_ValidNKey : bool;
  c_ValidOvfl : bool;
  c_aOverflow : option (list (option Z));
}.

Definition set_info (i : CellInfo) (c : BtCursor) : BtCursor :=
  mkCursor (c_pgno c) (c_pPage c) (c_ix c) i true (c_ValidOvfl c) (c_aOverflow c).
Definition set_aOverflow (l : list (option Z)) (c : BtCursor) : BtCursor :=
  mkCursor (c_pgno c) (c_pPage c) (c_ix c) (c_info c) (c_ValidNKey c) true (Some l).

(** From [p] on, the first page that is neither a page of the pointer map nor
    the one that is never used. *)
Fixpoint next_ordinary (fuel : nat) (pBt : BtShared) (p : Z) : option Z :=
  match fuel with
  | O => None
  | S fuel =>
      if PTRMAP_ISPAGE pBt p || (p =? PENDING_BYTE_PAGE pBt) then next_ordinary fuel pBt (u32 (p + 1)) else Some p
  end.

Definition putVarint32 (v : Z) : list Z := if u32 v <? 0x80 then [u8 v] else sqlite3PutVarint (u64 v).

Section code.
Context {T : Type} {P : Pager T}.
Abbreviation Bt := (Bt T).
Abbreviation M := (M T).

(** The result of [m] as a value, errors included. *)
Definition attempt {A} (m : M A) : M (Z + A) := fun s => '(r, s) ← m s; Some (inr r, s).

(** [memcpy] to a page. *)
Definition write_page (p i : Z) (b : list Z) : M unit := fun s =>
  bind (lift (mem_write (content s p) i b)) (fun d => modify (set_page p d)) s.

(** [given]: the page is asked for too; the second result is whether it was
    fetched for the caller. *)
Definition getOverflowPage (ovfl : Z) (given : bool) : M (Z * bool) :=
  let! vacuum := gets autoVacuum in
  let! guess :=
    (if vacuum : bool then
       let! b := gets bt_shared in
       let! iGuess := lift (next_ordinary 4 b (u32 (ovfl + 1))) in
       let! n := gets nPage in
       if iGuess <=? n then
         let! e := ptrmapGet iGuess in
         ret (if (e.1 =? PTRMAP_OVERFLOW2) && (e.2 =? ovfl) then Some iGuess else None)
       else ret None
     else ret None) in
  match guess with
  | Some next => ret (next, false)
  | None =>
      btreeGetPage ovfl (if given then 0 else PAGER_GET_READONLY) ;;;
      let! next := read4 ovfl 0 in
      ret (next, given)
  end.

(** Between [nByte] bytes of the page [pg] and the buffer [pBuf] from [pos] on. *)
Definition copyPayload (pg i : Z) (pBuf : list Z) (pos nByte : Z) (eOp : bool) : M (list Z) :=
  if eOp then
    pager_write pg ;;;
    let! b := lift (mem_read pBuf pos nByte) in
    write_page pg i b ;;;
    ret pBuf
  else
    let! d := gets (fun s => content s pg) in
    lift (b ← mem_read d i nByte; mem_write pBuf pos b).

(** ** Reading and overwriting *)

Definition getCellInfo (pCur : BtCursor) : M BtCursor := fun s =>
  if nSize (c_info pCur) =? 0 then
    info ← btreeParseCell (bt_shared s) (set_aData (content s (c_pgno pCur)) (c_pPage pCur)) (c_ix pCur);
    Some (inr (set_info info pCur), s)
  else Some (inr pCur, s).

(** [pCur->aOverflow[iIdx] = nextPage]. *)
Definition bt_cache (pCur : BtCursor) (iIdx nextPage : Z) : option (list (option Z)) :=
  l ← c_aOverflow pCur; l.[iIdx <- Some nextPage].

(** [while( nextPage )]: the result code, the cursor, the buffer, and the bytes
    that are still to be copied. *)
Fixpoint access_loop (fuel : nat) (pCur : BtCursor) (nextPage iIdx offset amt : Z) (pBuf : list Z) (pos : Z) (eOp : bool)
    : M (Z * BtCursor * list Z * Z) :=
  match fuel with
  | O => undefined
  | S fuel =>
      if nextPage =? 0 then ret (SQLITE_OK, pCur, pBuf, amt)
      else
        let! n := gets nPage in
        if nextPage >? n then ret (SQLITE_CORRUPT, pCur, pBuf, amt)
        else
          let! ovflSize := gets (fun s => u32 (usableSize (bt_shared s) - 4)) in
          let! aOverflow := lift (bt_cache pCur iIdx nextPage) in
          let pCur := set_aOverflow aOverflow pCur in
          if offset >=? ovflSize then
            let! known := lift (x ← aOverflow.[iIdx + 1]; x) in
            let! r := (if negb (known =? 0) then ret (inr (known, false)) else attempt (getOverflowPage nextPage false)) in
            match r with
            | inl rc => ret (rc, pCur, pBuf, amt)
            | inr (nextPage, _) => access_loop fuel pCur nextPage (iIdx + 1) (offset - ovflSize) amt pBuf pos eOp
            end
          else
            let a := if amt + offset >? ovflSize then ovflSize - offset else amt in
            let! r := attempt (pager_get nextPage (if eOp then 0 else PAGER_GET_READONLY) ;;;
                               let! next := read4 nextPage 0 in
                               let! pBuf := copyPayload nextPage (offset + 4) pBuf pos a eOp in
                               ret (next, pBuf)) in
            match r with
            | inl rc => ret (rc, pCur, pBuf, amt - a)
            | inr (nextPage, pBuf) =>
                if amt - a =? 0 then ret (SQLITE_OK, pCur, pBuf, 0)
                else access_loop fuel pCur nextPage (iIdx + 1) 0 (amt - a) pBuf (pos + a) eOp
            end
  end.

(** The cache of the overflow pages, and where to begin: with [None], an
    allocation failed. *)
Definition access_start (pCur : BtCursor) (nextPage offset ovflSize : Z) : M (option (BtCursor * Z * Z * Z)) := fun s =>
  if negb (c_ValidOvfl pCur) then
    let nOvfl := u32 (u32 (u32 (nPayload (c_info pCur) - nLocal (c_info pCur)) + ovflSize) - 1) / ovflSize in
    let clear (l : list (option Z)) := replicate (Z.to_nat nOvfl) (Some 0) ++ drop (Z.to_nat nOvfl) l in
    let room := match c_aOverflow pCur with Some l => nOvfl <=? zlen l | None => false end in
    if room then
      l ← c_aOverflow pCur;
      Some (inr (Some (set_aOverflow (clear l) pCur, nextPage, 0, offset)), s)
    else
      let '(ok, a) := malloc (bt_alloc s) in
      let s := set_hasContent (pHasContent s) a s in
      if ok then Some (inr (Some (set_aOverflow (clear (replicate (Z.to_nat (nOvfl * 2)) None)) pCur, nextPage, 0, offset)), s)
      else Some (inr None, s)
  else
    l ← c_aOverflow pCur;
    known ← l.[offset / ovflSize];
    known ← known;
    if negb (known =? 0) then Some (inr (Some (pCur, known, offset / ovflSize, offset mod ovflSize)), s)
    else Some (inr (Some (pCur, nextPage, 0, offset)), s).

(** The bytes that are not on the page of the cell. *)
Definition access_overflow (pCur : BtCursor) (offset amt : Z) (pBuf : list Z) (pos : Z) (eOp : bool) : M (Z * BtCursor * list Z) :=
  let! ovflSize := gets (fun s => u32 (usableSize (bt_shared s) - 4)) in
  let! nextPage := read4 (c_pgno pCur) (pPayload (c_info pCur) + nLocal (c_info pCur)) in
  let! start := access_start pCur nextPage offset ovflSize in
  match start with
  | None => ret (SQLITE_NOMEM, pCur, pBuf)
  | Some (pCur, nextPage, iIdx, offset) =>
      let! ' (rc, pCur, pBuf, amt) := access_loop (Z.to_nat (offset + amt) + 1) pCur nextPage iIdx offset amt pBuf pos eOp in
      ret (if (rc =? SQLITE_OK) && (amt >? 0) then SQLITE_CORRUPT else rc, pCur, pBuf)
  end.

(** [eOp]: the bytes of [pBuf] are written to the payload. *)
Definition accessPayload (pCur : BtCursor) (offset amt : Z) (pBuf : list Z) (eOp : bool) : M (Z * BtCursor * list Z) :=
  if c_ix pCur >=? nCell (c_pPage pCur) then ret (SQLITE_CORRUPT, pCur, pBuf)
  else
    let! pCur := getCellInfo pCur in
    let aPayload := pPayload (c_info pCur) in
    let nLocal := nLocal (c_info pCur) in
    let! usable := gets (fun s => usableSize (bt_shared s)) in
    if aPayload >? u32 (usable - nLocal) then ret (SQLITE_CORRUPT, pCur, pBuf)
    else if offset <? nLocal then
      let a := if amt + offset >? nLocal then nLocal - offset else amt in
      let! r := attempt (copyPayload (c_pgno pCur) (aPayload + offset) pBuf 0 a eOp) in
      match r with
      | inl rc => ret (rc, pCur, pBuf)
      | inr pBuf => if amt - a >? 0 then access_overflow pCur 0 (amt - a) pBuf a eOp else ret (SQLITE_OK, pCur, pBuf)
      end
    else if amt >? 0 then access_overflow pCur (offset - nLocal) amt pBuf 0 eOp
    else ret (SQLITE_OK, pCur, pBuf).

Definition sqlite3BtreePayload (pCur : BtCursor) (offset amt : Z) (pBuf : list Z) : M (Z * BtCursor * list Z) :=
  accessPayload pCur offset amt pBuf false.

(** ** Freeing *)

Fixpoint clear_loop (nOvfl : nat) (ovflPgno : Z) : M unit :=
  match nOvfl with
  | O => ret tt
  | S nOvfl =>
      let! n := gets nPage in
      if (ovflPgno <? 2) || (ovflPgno >? n) then fail SQLITE_CORRUPT
      else
        let! ' (iNext, held) := (match nOvfl with O => ret (0, false) | S _ => getOverflowPage ovflPgno true end) in
        let! pOvfl := gets (fun s => held || sqlite3PagerLookup (pPager s) ovflPgno) in
        let! refs := gets (fun s => sqlite3PagerPageRefcount (pPager s) ovflPgno) in
        if pOvfl && negb (refs =? 1) then fail SQLITE_CORRUPT
        else
          freePage2 pOvfl ovflPgno ;;;
          clear_loop nOvfl iNext
  end.

(** The cell at [pCell] of the page [pg]. *)
Definition clearCellOverflow (pg pCell : Z) (pInfo : CellInfo) : M unit :=
  let! b := gets bt_shared in
  if pCell + nSize pInfo >? pageSize b then fail SQLITE_CORRUPT
  else
    let! ovflPgno := read4 pg (pCell + nSize pInfo - 4) in
    let ovflPageSize := u32 (usableSize b - 4) in
    let nOvfl := u32 (u32 (u32 (nPayload pInfo - nLocal pInfo) + ovflPageSize) - 1) / ovflPageSize in
    clear_loop (Z.to_nat nOvfl) ovflPgno.

(** ** Writing a cell *)

(** [memcpy] to where [pPayload] or [pPrior] points: with [pg] zero, into the
    cell. *)
Definition store (cell : list Z) (pg i : Z) (b : list Z) : M (list Z) :=
  if pg =? 0 then lift (mem_write cell i b)
  else
    write_page pg i b ;;;
    ret cell.

(** Allocates an overflow page after [pgnoOvfl], or the first one. *)
Definition next_overflow (pgnoOvfl : Z) : M Z :=
  let! vacuum := gets autoVacuum in
  let! b := gets bt_shared in
  let! nearby := (if vacuum : bool then lift (next_ordinary 4 b (u32 (pgnoOvfl + 1))) else ret pgnoOvfl) in
  let! pgno := allocateBtreePage nearby BTALLOC_ANY in
  (if vacuum then ptrmapPut pgno (if negb (pgnoOvfl =? 0) then PTRMAP_OVERFLOW2 else PTRMAP_OVERFLOW1) pgnoOvfl else ret tt) ;;;
  ret pgno.

(** [pg], [pay] and [prior] are [pPayload] and [pPrior]; [left] is [nPayload]. *)
Fixpoint fill_loop (fuel : nat) (cell : list Z) (pg pay prior left : Z) (pSrc : list Z) (nSrc spaceLeft pgnoOvfl : Z) : M (list Z) :=
  match fuel with
  | O => undefined
  | S fuel =>
      let n := if left >? spaceLeft then spaceLeft else left in
      let n := if (nSrc >=? n) || (nSrc <=? 0) then n else nSrc in
      let! b := (if nSrc >? 0 then lift (mem_read pSrc 0 n) else ret (replicate (Z.to_nat n) 0)) in
      let! cell := store cell pg pay b in
      if left - n <=? 0 then ret cell
      else if spaceLeft - n =? 0 then
        let! pgno := next_overflow pgnoOvfl in
        let! cell := store cell pg prior (sqlite3Put4byte pgno) in
        write4 pgno 0 0 ;;;
        let! usable := gets (fun s => usableSize (bt_shared s)) in
        fill_loop fuel cell pgno 4 0 (left - n) (drop (Z.to_nat n) pSrc) (nSrc - n) (usable - 4) pgno
      else fill_loop fuel cell pg (pay + n) prior (left - n) (drop (Z.to_nat n) pSrc) (nSrc - n) (spaceLeft - n) pgnoOvfl
  end.

(** The size of the cell, and the cell. *)
Definition fillInCell (t : PageType) (pCell : list Z) (pX : BtreePayload) : M (Z * list Z) :=
  let '(nPayload, pSrc, nSrc) :=
    if intKey t then (i32 (zlen (px_pData pX) + px_nZero pX), px_pData pX, zlen (px_pData pX))
    else (i32 (px_nKey pX), px_pKey pX, i32 (px_nKey pX)) in
  let hdr := putVarint32 nPayload ++ (if intKey t then sqlite3PutVarint (u64 (px_nKey pX)) else []) in
  let nHeader := childPtrSize t + zlen hdr in
  let! pCell := lift (mem_write pCell (childPtrSize t) hdr) in
  if nPayload <=? maxLocal t then
    let! b := lift (mem_read pSrc 0 nSrc) in
    let! pCell := lift (mem_write pCell nHeader (b ++ replicate (Z.to_nat (nPayload - nSrc)) 0)) in
    ret (Z.max 4 (nHeader + nPayload), pCell)
  else
    let! usable := gets (fun s => usableSize (bt_shared s)) in
    let n := i32 (u32 (minLocal t + u32 (nPayload - minLocal t) mod u32 (usable - 4))) in
    let n := if n >? maxLocal t then minLocal t else n in
    let! pCell := fill_loop (Z.to_nat nPayload) pCell 0 nHeader (nHeader + n) nPayload pSrc nSrc n 0 in
    ret (n + nHeader + 4, pCell).
End code.

(** * Chains of overflow pages *)

(** A page in use that is no overflow page. *)
Class Root := root : Z.

Section chains.
Context {T : Type} {P : Pager T} {R : Root}.
Abbreviation Bt := (Bt T).

(** From [first], the pages [ps] are linked to the end. *)
Fixpoint chain (m : gmap Z (list Z)) (first : Z) (ps : list Z) : Prop :=
  match ps with
  | [] => first = 0
  | p :: ps => first = p /\ exists d next, m !! p = Some d /\ get4 d 0 = Some next /\ chain m next ps
  end.

(** What they hold, [u] being the usable size. *)
Definition page_bytes (u : Z) (m : gmap Z (list Z)) (p : Z) : list Z := slice 4 (u - 4) (default [] (m !! p)).
Definition chain_bytes (u : Z) (m : gmap Z (list Z)) (ps : list Z) : list Z := concat (page_bytes u m <$> ps).

(** The pointer map knows the pages in use, [x] apart; the parent of an overflow
    page points to it. *)
Definition maps (s : Bt) (m : gmap Z (list Z)) (x : Z) : Prop := autoVacuum s = true -> forall g, is_Some (m !! g) -> g <> x ->
  exists ty par, ptr_type s g = Some ty /\ ptr_parent s g = Some par /\ 1 <= ty <= 5 /\
    (ty = PTRMAP_OVERFLOW2 -> par <> root /\ exists d, m !! par = Some d /\ get4 d 0 = Some g).

(** ** The next ordinary page *)

Lemma next_ordinary_ok b p : 480 <= usableSize b <= pageSize b -> 512 <= pageSize b <= 65536 -> 1 <= p < 2 ^ 32 - 8 ->
  exists g, next_ordinary 4 b p = Some g /\ p <= g <= p + 2 /\ (2 <= p -> ordinary b g).
Proof using.
  intros Hu Hz Hp. pose proof (pending_range b Hz) as Hpend.
  assert (Hstep : forall n q, next_ordinary (S n) b q = if PTRMAP_ISPAGE b q || (q =? PENDING_BYTE_PAGE b) then next_ordinary n b (u32 (q + 1)) else Some q) by done.
  assert (Hord : forall n q, 1 <= q < 2 ^ 32 -> PTRMAP_ISPAGE b q = false -> q <> PENDING_BYTE_PAGE b -> next_ordinary (S n) b q = Some q /\ (2 <= q -> ordinary b q)).
  { intros n q Hq Hi Hne. rewrite Hstep, Hi, (proj2 (Z.eqb_neq _ _) Hne). split; [done|]. intros Hq2. split; [lia|done]. }
  assert (Hafter : forall n q, 2 <= q < 2 ^ 32 - 4 -> PTRMAP_ISPAGE b q = true -> exists g, next_ordinary (S (S (S n))) b q = Some g /\ q <= g <= q + 2 /\ ordinary b g).
  { intros n q Hq Hi. rewrite Hstep, Hi. cbn [orb]. rewrite u32_small by lia. destruct (decide (q + 1 = PENDING_BYTE_PAGE b)) as [E|E].
    - exists (q + 2). rewrite Hstep, (proj2 (Z.eqb_eq _ _) E), orb_true_r, u32_small by lia. replace (q + 1 + 1) with (q + 2) by lia.
      assert (Ho : ordinary b (q + 2)) by (apply (after_map b q); done || lia). split; [apply Hord; [lia|apply Ho..]|split; [lia|done]].
    - exists (q + 1). assert (Ho : ordinary b (q + 1)) by (apply (after_map b q); done || lia). split; [apply Hord; [lia|apply Ho..]|split; [lia|done]]. }
  destruct (PTRMAP_ISPAGE b p) eqn:Hi.
  - assert (2 <= p) by (destruct (decide (p = 1)) as [->|]; [done|lia]). destruct (Hafter 1%nat p) as (g & Hg & Hr & Ho); [lia|done|]. by exists g.
  - destruct (decide (p = PENDING_BYTE_PAGE b)) as [E|E]; [|exists p; split; [apply Hord; done || lia|split; [lia|apply (Hord 0%nat); done || lia]]].
    rewrite Hstep, Hi, (proj2 (Z.eqb_eq _ _) E), u32_small by lia. cbn [orb].
    destruct (PTRMAP_ISPAGE b (p + 1)) eqn:Hi1.
    + assert (Ho : ordinary b (p + 2)) by (apply (after_map b (p + 1)); done || lia). exists (p + 2). split; [|split; [lia|done]].
      rewrite Hstep, Hi1, u32_small by lia. cbn [orb]. replace (p + 1 + 1) with (p + 2) by lia. apply Hord; [lia|apply Ho..].
    + exists (p + 1). split; [apply Hord; done || lia|split; [lia|]]. intros _. apply (Hord 0%nat); done || lia.
Qed.

(** ** The next overflow page *)

Lemma getOverflowPage_ok s m x q d next given : pages s m -> maps s m x -> x <= q -> nPage s < 2 ^ 32 - 16 -> m !! q = Some d -> get4 d 0 = Some next ->
  wp (getOverflowPage q given) s (fun r s' => r.1 = next /\ edits (fun _ => False) s s') (fun rc s' => frame (fun _ => False) s s' /\ ~ QuietPager T).
Proof using.
  intros Hpg Hmaps Hx Hn Hq Hnext. pose proof Hpg as [Hw (tl & Hfl & Hdis & Hall) Huse]. pose proof Hw as [Hu Hz _ _ _]. destruct (Huse _ _ Hq) as [[Hqr Ho] Hc].
  unfold getOverflowPage. apply bt_bind, bt_gets, bt_bind.
  eapply (bt_mono _ _ (fun o s' => edits (fun _ => False) s s' /\ (o = None \/ o = Some next)) (fails False (fun _ => False) s));
    [|intros o s1 [He Hor]|intros rc s' _ [Hfr Hq']; split; [done|]; intros Hqp; by destruct (Hq' Hqp)].
  - destruct (autoVacuum s) eqn:Ev; [|apply bt_ret; split; [apply edits_refl|by left]]. apply bt_bind, bt_gets. rewrite u32_small by lia.
    destruct (next_ordinary_ok (bt_shared s) (q + 1) Hu Hz) as (g & Hg & Hgr & Hgo); [lia|]. specialize (Hgo ltac:(lia)).
    apply bt_bind. eapply bt_lift; [exact Hg|]. apply bt_bind, bt_gets. destruct (Z.leb_spec g (nPage s)) as [Hle|Hgt]; [|apply bt_ret; split; [apply edits_refl|by left]].
    assert (Hent : exists ty par, ptr_type s g = Some ty /\ 1 <= ty <= 5 /\ (ty = PTRMAP_OVERFLOW2 -> ptr_parent s g = Some par /\ (par = q -> g = next))).
    { destruct (Hall g) as [Hin|Hin]; [split; [split; [lia|by intros _]|apply Hgo]| |].
      - destruct (Hmaps Ev g Hin ltac:(lia)) as (ty & par & Hty & Hpar & Hr & Hnx). exists ty, par. split; [done|]. split; [done|]. intros E. split; [done|].
        intros ->. destruct (Hnx E) as (_ & d' & Hd' & Hg'). congruence.
      - exists PTRMAP_FREEPAGE, 0. pose proof Hfl as [_ _ _ _ Hfm]. specialize (Hfm Ev). rewrite list.Forall_forall in Hfm. split; [by apply Hfm|]. done. }
    destruct Hent as (ty & par & Hty & Htr & Hpar).
    apply bt_bind, bt_ptrmapGet; [done|lia|apply frame_refl|intros _; split; [done|by exists ty]|].
    intros t ty' par' Hf Hent _. destruct (Hent ltac:(lia)) as [Hty' Hpar']. assert (ty' = ty) as -> by congruence.
    cbn [fst snd]. destruct ((ty =? PTRMAP_OVERFLOW2) && (par' =? q)) eqn:E; apply bt_ret; (split; [apply edits_pager|]); [|by left].
    apply andb_true_iff in E as [E1%Z.eqb_eq E2%Z.eqb_eq]. right. destruct (Hpar E1) as [Hp Hpn]. assert (par' = par) as -> by congruence. by rewrite Hpn.
  - destruct Hor as [-> | ->]; [|by apply bt_ret].
    assert (Hfl0 : Z.land (if given then 0 else PAGER_GET_READONLY) PAGER_GET_NOCONTENT = 0) by (by destruct given).
    apply bt_bind. unfold btreeGetPage. eapply (bt_mono _ _ (fun _ s2 => edits (fun _ => False) s s2) (fails False (fun _ => False) s));
      [|intros _ s2 He2|intros rc s' _ [Hfr Hq']; split; [done|]; intros Hqp; by destruct (Hq' Hqp)].
    { apply bt_get; [done|apply He|lia|]. intros t Hft _. eapply edits_trans; [done|apply edits_pager]. }
    apply bt_bind. eapply bt_read4; [rewrite (edits_content _ _ _ _ He2) by (by intros []); by rewrite Hc|]. by apply bt_ret.
Qed.

(** ** Reading *)

(** The cache of a cursor has the pages of the chain, where it has any. *)
Definition cache_ok (c : BtCursor) (ps : list Z) : Prop := c_ValidOvfl c = true -> exists l, c_aOverflow c = Some l /\ zlen ps <= zlen l /\
  forall i, 0 <= i < zlen ps -> exists v, l.[i] = Some (Some v) /\ (v = 0 \/ ps.[i] = Some v).

(** Only the cache and the parse of the cell may differ. *)
Definition same_place (c c' : BtCursor) : Prop := c_pgno c' = c_pgno c /\ c_pPage c' = c_pPage c /\ c_ix c' = c_ix c /\ c_info c' = c_info c.

Lemma bt_attempt {A} (m : BtPages.M T A) (s : Bt) Q E : wp m s (fun a => Q (inr a)) (fun rc s' => rc <> SQLITE_OK -> Q (inl rc) s') -> wp (attempt m) s Q E.
Proof using. unfold wp, attempt. destruct (m s) as [[[rc|a] s']|]; [|done..]. intros [H1 H2]. by apply H2. Qed.

Lemma zlen_page_bytes (s : Bt) m p d : pages s m -> m !! p = Some d -> zlen (page_bytes (usableSize (bt_shared s)) m p) = usableSize (bt_shared s) - 4 /\
  forall j, 0 <= j < usableSize (bt_shared s) - 4 -> (page_bytes (usableSize (bt_shared s)) m p).[j] = d.[4 + j].
Proof using.
  intros Hpg Hp. destruct (pg_use _ _ Hpg p d Hp) as [_ Hc]. pose proof (pg_wf _ _ Hpg) as Hw. destruct (content_len s p Hw) as [Lc _]. rewrite Hc in Lc.
  pose proof (wf_usable _ Hw). unfold page_bytes. rewrite Hp. cbn [default from_option id]. split; [apply length_slice; lia|]. intros j Hj. apply zget_slice; lia.
Qed.

Lemma chain_bytes_cons u m p ps : chain_bytes u m (p :: ps) = page_bytes u m p ++ chain_bytes u m ps.
Proof using. done. Qed.

Lemma zlen_chain_bytes (s : Bt) m ps : forall first, pages s m -> chain m first ps -> zlen (chain_bytes (usableSize (bt_shared s)) m ps) = zlen ps * (usableSize (bt_shared s) - 4).
Proof using.
  induction ps as [|p ps IH]; intros first Hpg Hc; [done|]. destruct Hc as [_ (d & next & Hd & _ & Hc)].
  rewrite chain_bytes_cons, zlen_app, zlen_cons, (IH next Hpg Hc). destruct (zlen_page_bytes s m p d Hpg Hd) as [-> _]. lia.
Qed.

(** The bytes of the buffer [pBuf] from [pos] on are replaced by [amt] others. *)
Definition filled (pBuf pBuf' : list Z) (pos amt : Z) (f : Z -> option Z) : Prop :=
  zlen pBuf' = zlen pBuf /\ (forall j, 0 <= j -> ~ pos <= j < pos + amt -> pBuf'.[j] = pBuf.[j]) /\ forall j, 0 <= j < amt -> pBuf'.[pos + j] = f j.

Lemma bt_copy_read pg i pBuf pos n d (s : Bt) Q E : content s pg = d -> bytes_ok d -> 0 <= i -> 0 <= n -> i + n <= zlen d -> 0 <= pos -> pos + n <= zlen pBuf ->
  (forall pBuf', filled pBuf pBuf' pos n (fun j => d.[i + j]) -> Q pBuf' s) -> wp (copyPayload pg i pBuf pos n false) s Q E.
Proof using.
  intros Hc Hd Hi Hn Hl Hp Hpl HQ. unfold copyPayload. apply bt_bind, bt_gets. rewrite Hc.
  destruct (mem_read_ok d i n) as (b & Eb & Lb & Gb); [lia..|]. rewrite Eb. cbn [mbind option_bind].
  destruct (mem_write_ok pBuf pos b) as (d' & Ed & O & G); [lia|lia|by eapply mem_read_bytes|]. rewrite Lb in *.
  eapply bt_lift; [exact Ed|]. apply HQ. split; [apply (on_len _ _ _ _ O)|]. split; [intros j Hj Hn'; by apply (on_get _ _ _ _ O)|].
  intros j Hj. rewrite G by lia. replace (pos + j - pos) with j by lia. by rewrite Gb.
Qed.

Lemma filled_trans a b c pos n k (f g : Z -> option Z) : 0 <= pos -> 0 <= n -> 0 <= k -> filled a b pos n f -> filled b c (pos + n) k g ->
  filled a c pos (n + k) (fun j => if j <? n then f j else g (j - n)).
Proof using.
  intros Hp Hn Hk (L1 & O1 & V1) (L2 & O2 & V2). split; [congruence|]. split; [intros j Hj Hout; rewrite O2, O1 by lia; done|].
  intros j Hj. destruct (Z.ltb_spec j n) as [Hlt|Hge]; [rewrite O2 by lia; apply V1; lia|]. replace (pos + j) with (pos + n + (j - n)) by lia. apply V2. lia.
Qed.

Lemma filled_ext a b pos n (f g : Z -> option Z) : (forall j, 0 <= j < n -> f j = g j) -> filled a b pos n f -> filled a b pos n g.
Proof using. intros Hfg (L & O & V). split; [done|]. split; [done|]. intros j Hj. by rewrite V, Hfg. Qed.

Lemma maps_edits (s s' : Bt) m x : edits (fun _ => False) s s' -> maps s m x -> maps s' m x.
Proof using.
  intros He Hm Hv g Hg Hx. rewrite (edits_vacuum _ _ _ He) in Hv. destruct (Hm Hv g Hg Hx) as (ty & par & H1 & H2 & H3). exists ty, par.
  unfold ptr_type, ptr_parent in *. rewrite (edits_shared _ _ _ He), (edits_content _ _ _ _ He) by (by intros []). done.
Qed.

(** An entry of the cache is written. *)
Lemma cache_set c ps pre p rest : ps = pre ++ p :: rest -> cache_ok c ps -> c_ValidOvfl c = true ->
  exists l, bt_cache c (zlen pre) p = Some l /\ cache_ok (set_aOverflow l c) ps.
Proof using.
  intros -> Hc Hv. destruct (Hc Hv) as (l & El & Hlen & Hl). pose proof (zlen_nonneg pre). pose proof (zlen_nonneg rest). rewrite zlen_app, zlen_cons in *.
  unfold bt_cache. rewrite El. cbn [mbind option_bind]. rewrite zset_zupd by lia. eexists. split; [done|]. intros _. eexists. split; [done|].
  rewrite zlen_zupd. rewrite zlen_app, zlen_cons. split; [lia|]. intros i Hi. destruct (decide (i = zlen pre)) as [->|Hne].
  - exists p. rewrite zget_zupd_eq by lia. split; [done|]. right. rewrite zget_app_r, Z.sub_diag by lia. apply zget_cons_0.
  - rewrite zget_zupd_ne by lia. apply Hl. lia.
Qed.

Lemma read_loop m ps u : forall fuel s c next pre rest offset amt pBuf pos, ps = pre ++ rest -> pages s m -> maps s m 0 -> usableSize (bt_shared s) = u ->
  nPage s < 2 ^ 32 - 16 -> cache_ok c ps -> c_ValidOvfl c = true -> chain m next rest -> 0 <= offset -> 0 < amt -> offset + amt <= zlen rest * (u - 4) ->
  0 <= pos -> pos + amt <= zlen pBuf -> offset + amt < Z.of_nat fuel ->
  wp (access_loop fuel c next (zlen pre) offset amt pBuf pos false) s
    (fun r s' => let '(rc, c', pBuf', amt') := r in frame (fun _ => False) s s' /\ cache_ok c' ps /\ same_place c c' /\
       (rc = SQLITE_OK -> edits (fun _ => False) s s' /\ amt' = 0 /\ filled pBuf pBuf' pos amt (fun j => (chain_bytes u m rest).[offset + j])) /\ (QuietPager T -> rc = SQLITE_OK)) (fun _ _ => False).
Proof using.
  induction fuel as [|fuel IH]; intros s c next pre rest offset amt pBuf pos Eps Hpg Hmaps Eu Hn Hcache Hval Hch Ho Ha Hoa Hpos Hpl Hf; [lia|].
  cbn [access_loop]. pose proof (pg_wf _ _ Hpg) as Hw. pose proof (wf_usable _ Hw) as Hus. pose proof (wf_pageSize _ Hw) as Hps.
  destruct rest as [|p rest]; [change (zlen (@nil Z)) with 0 in Hoa; lia|]. pose proof Hch as [-> (d & next2 & Hd & Hnx & Hch2)].
  destruct (pg_use _ _ Hpg p d Hd) as [[Hpr _] Hc]. rewrite (proj2 (Z.eqb_neq p 0)) by lia. apply bt_bind, bt_gets. rewrite Z.gtb_ltb, (proj2 (Z.ltb_ge _ p)) by lia.
  apply bt_bind, bt_gets. rewrite Eu, u32_small by lia. destruct (cache_set c ps pre p rest Eps Hcache Hval) as (l & El & Hcache1).
  apply bt_bind. eapply bt_lift; [exact El|]. set (c1 := set_aOverflow l c) in *.
  assert (Eps1 : ps = (pre ++ [p]) ++ rest) by (by rewrite <- app_assoc). assert (Ezp : zlen (pre ++ [p]) = zlen pre + 1) by (by rewrite zlen_app).
  rewrite zlen_cons in Hoa. rewrite Z.geb_leb. destruct (Z.leb_spec (u - 4) offset) as [Hskip|Hread].
  - destruct rest as [|p2 rest]; [change (zlen (@nil Z)) with 0 in Hoa; lia|]. pose proof Hch2 as [E2 _]. subst next2. pose proof (zlen_nonneg pre). pose proof (zlen_nonneg rest).
    destruct (Hcache1 eq_refl) as (l' & El' & _ & Hl'). injection El' as <-. destruct (Hl' (zlen pre + 1)) as (v & Hv & Hv2).
    { rewrite Eps, zlen_app, !zlen_cons. lia. }
    apply bt_bind. eapply bt_lift; [by rewrite Hv|]. apply bt_bind.
    apply (bt_mono _ _ (fun (r : Z + Z * bool) s1 => match r with inr (n, _) => edits (fun _ => False) s s1 /\ n = p2 |
        inl rc => frame (fun _ => False) s s1 /\ rc <> SQLITE_OK /\ ~ QuietPager T end) (fun _ _ => False)); [|intros r s1 Hr|done].
    { destruct (Z.eqb_spec v 0) as [->|Hv0]; cbn [negb].
      - apply bt_attempt. eapply bt_mono; [eapply (getOverflowPage_ok s m 0 p d p2); done || lia|intros [n g] s1 [E He]; by split|].
        intros rc s1 _ [Hfr Hnq] Hrc. by split.
      - apply bt_ret. split; [apply edits_refl|]. destruct Hv2 as [?|Hv2]; [done|].
        rewrite Eps1, zget_app_r, Ezp, Z.sub_diag, zget_cons_0 in Hv2 by lia. by injection Hv2. }
    destruct r as [rc|[n g]].
    { destruct Hr as (Hfr & Hrc & Hnq). apply bt_ret. split; [done|]. split; [done|]. split; [done|]. split; [by intros ?|by intros ?]. }
    destruct Hr as [He ->]. rewrite <- Ezp. eapply bt_mono; [apply (IH s1 c1 p2 (pre ++ [p]) (p2 :: rest) (offset - (u - 4)) amt pBuf pos); try done; try lia|
      intros [[[rc c'] pBuf'] amt'] s' (Hfr & Hc' & Hpl' & Hok & Hqu)|done].
    + by eapply pages_edits.
    + by eapply maps_edits.
    + by rewrite (edits_shared _ _ _ He).
    + by rewrite (ed_nPage _ _ _ He).
    + split; [eapply frame_then; [apply He|done]|]. split; [done|]. split; [done|]. split; [|done]. intros Hrc. destruct (Hok Hrc) as (He' & -> & Hfil).
      split; [by eapply edits_trans|]. split; [done|]. eapply filled_ext; [|exact Hfil]. intros j Hj. cbv beta.
      destruct (zlen_page_bytes s m p d Hpg Hd) as [Lp _]. rewrite Eu in Lp. rewrite (chain_bytes_cons u m p), zget_app_r by lia. f_equal. lia.
  - set (a := if amt + offset >? u - 4 then u - 4 - offset else amt). assert (Ha' : 0 < a <= amt /\ offset + a <= u - 4 /\ (a < amt -> offset + a = u - 4)).
    { unfold a. rewrite Z.gtb_ltb. destruct (Z.ltb_spec (u - 4) (amt + offset)); lia. }
    destruct (zlen_page_bytes s m p d Hpg Hd) as [Lp Gp]. rewrite Eu in Lp, Gp. destruct (content_len s p Hw) as [Lc Bc]. rewrite Hc in Lc, Bc.
    apply bt_bind. apply (bt_mono _ _ (fun (r : Z + Z * list Z) s1 => match r with
        inr (n, pBuf1) => edits (fun _ => False) s s1 /\ n = next2 /\ filled pBuf pBuf1 pos a (fun j => (chain_bytes u m (p :: rest)).[offset + j]) |
        inl rc => frame (fun _ => False) s s1 /\ rc <> SQLITE_OK /\ ~ QuietPager T end) (fun _ _ => False)); [|intros r s1 Hr|done].
    { apply bt_attempt. apply bt_bind. apply (bt_mono _ _ (fun _ s1 => edits (fun _ => False) s s1) (fails False (fun _ => False) s)).
      - apply bt_get; [done|apply frame_refl|lia|]. intros t _ _. apply edits_pager.
      - intros _ s1 He. assert (Ec : content s1 p = d) by (rewrite <- Hc; apply (edits_content _ _ _ _ He); by intros []).
        apply bt_bind. eapply bt_read4; [by rewrite Ec|]. apply bt_bind. eapply bt_copy_read; [exact Ec|done|lia..|].
        intros pBuf1 Hfil. apply bt_ret. split; [done|]. split; [done|]. eapply filled_ext; [|exact Hfil]. intros j Hj. cbv beta.
        rewrite (chain_bytes_cons u m p), zget_app_l, Gp by lia. f_equal. lia.
      - intros rc s1 _ [Hfr Hq] Hrc. split; [done|]. split; [done|]. intros Hqp. by destruct (Hq Hqp). }
    destruct r as [rc|[n pBuf1]].
    { destruct Hr as (Hfr & Hrc & Hnq). apply bt_ret. split; [done|]. split; [done|]. split; [done|]. split; [by intros ?|by intros ?]. }
    destruct Hr as (He & -> & Hfil). destruct (Z.eqb_spec (amt - a) 0) as [Hend|Hmore].
    { apply bt_ret. split; [apply He|]. split; [done|]. split; [done|]. split; [|done]. intros _. split; [done|]. split; [done|]. by replace amt with a by lia. }
    rewrite <- Ezp. pose proof Hfil as (Lb & _ & _).
    eapply bt_mono; [apply (IH s1 c1 next2 (pre ++ [p]) rest 0 (amt - a) pBuf1 (pos + a)); try done; try lia|
      intros [[[rc c'] pBuf'] amt'] s' (Hfr & Hc' & Hpl' & Hok & Hqu)|done].
    + by eapply pages_edits.
    + by eapply maps_edits.
    + by rewrite (edits_shared _ _ _ He).
    + by rewrite (ed_nPage _ _ _ He).
    + split; [eapply frame_then; [apply He|done]|]. split; [done|]. split; [done|]. split; [|done]. intros Hrc. destruct (Hok Hrc) as (He' & -> & Hfil').
      split; [by eapply edits_trans|]. split; [done|]. replace amt with (a + (amt - a)) by lia. eapply filled_ext; [|eapply filled_trans; [| | |exact Hfil|exact Hfil']; lia].
      intros j Hj. cbv beta. destruct (Z.ltb_spec j a); [done|]. rewrite (chain_bytes_cons u m p), zget_app_r by lia. f_equal. lia.
Qed.

(** A payload: [nl] bytes at [pay] of a buffer, the rest on the pages [ps], the
    first of which the buffer names after the local bytes. *)
Record stored (u : Z) (m : gmap Z (list Z)) (buf : list Z) (pay nl : Z) (ps payload : list Z) : Prop := {
  so_pay : 0 <= pay /\ pay + nl <= zlen buf;
  so_nl : 0 <= nl <= zlen payload;
  so_local : forall j, 0 <= j < nl -> buf.[pay + j] = payload.[j];
  so_count : (zlen ps - 1) * (u - 4) < zlen payload - nl <= zlen ps * (u - 4);
  so_first : ps <> [] -> exists first, get4 buf (pay + nl) = Some first /\ chain m first ps;
  so_rest : forall j, 0 <= j < zlen payload - nl -> (chain_bytes u m ps).[j] = payload.[nl + j];
  so_nodup : NoDup ps;
}.

Lemma chain_drop m ps : forall first pre p rest, chain m first ps -> ps = pre ++ p :: rest -> chain m p (p :: rest).
Proof using.
  induction ps as [|q ps IH]; intros first pre p rest Hc E; [by destruct pre|]. destruct pre as [|x pre].
  - cbn in E. injection E as -> ->. destruct Hc as [-> Hc]. by split.
  - cbn in E. injection E as -> ->. destruct Hc as (_ & d & next & _ & _ & Hc). by eapply (IH next pre).
Qed.

(** What [access_loop] starts from. *)
Definition started (m : gmap Z (list Z)) (ps : list Z) (u offset : Z) (c : BtCursor) (start : BtCursor * Z * Z * Z) : Prop :=
  let '(c', next, iIdx, offset') := start in cache_ok c' ps /\ c_ValidOvfl c' = true /\ same_place c c' /\
    exists pre rest, ps = pre ++ rest /\ iIdx = zlen pre /\ chain m next rest /\ 0 <= offset' /\ offset = zlen pre * (u - 4) + offset'.

Lemma access_start_ok (s : Bt) m ps u c first offset : pages s m -> 4 < u < 2 ^ 17 -> cache_ok c ps -> chain m first ps ->
  0 <= nLocal (c_info c) < nPayload (c_info c) -> nPayload (c_info c) < 2 ^ 31 -> 0 <= offset < nPayload (c_info c) - nLocal (c_info c) ->
  (zlen ps - 1) * (u - 4) < nPayload (c_info c) - nLocal (c_info c) <= zlen ps * (u - 4) ->
  wp (access_start c first offset (u - 4)) s (fun o s' => edits (fun _ => False) s s' /\ match o with Some st => started m ps u offset c st | None => True end) (fun _ _ => False).
Proof using.
  intros Hpg Hu Hcache Hch Hnl Hnp Hoff Hcount. unfold access_start, wp.
  assert (Ho : u32 (u32 (u32 (nPayload (c_info c) - nLocal (c_info c)) + (u - 4)) - 1) / (u - 4) = zlen ps).
  { rewrite (u32_small (nPayload _ - _)) by lia. rewrite (u32_small (_ + (u - 4))) by lia. rewrite u32_small by lia. symmetry.
    apply (Z.div_unique _ _ _ (nPayload (c_info c) - nLocal (c_info c) + (u - 4) - 1 - (u - 4) * zlen ps)); lia. }
  rewrite Ho. destruct (c_ValidOvfl c) eqn:Ev; cbn [negb].
  - destruct (Hcache Ev) as (l & El & Hlen & Hl). rewrite El. cbn [mbind option_bind].
    assert (Hq : 0 <= offset / (u - 4) < zlen ps) by (split; [apply Z.div_pos; lia|apply Z.div_lt_upper_bound; lia]).
    destruct (Hl _ Hq) as (v & Ev' & Hv). rewrite Ev'. cbn [mbind option_bind]. destruct (Z.eqb_spec v 0) as [->|Hv0]; cbn [negb].
    + split; [apply edits_refl|]. split; [done|]. split; [done|]. split; [done|]. exists [], ps. split; [done|]. split; [done|]. split; [done|]. change (zlen (@nil Z)) with 0. lia.
    + split; [apply edits_refl|]. split; [done|]. split; [done|]. split; [done|]. destruct Hv as [?|Hv]; [done|].
      rewrite zget_to_nat in Hv by lia. apply list_elem_of_split_length in Hv as (pre & rest & -> & Elen). exists pre, (v :: rest). split; [done|].
      assert (Ez : zlen pre = offset / (u - 4)) by (unfold zlen; lia). split; [done|]. split; [by eapply chain_drop|].
      pose proof (Z.mod_pos_bound offset (u - 4) ltac:(lia)). pose proof (Z.div_mod offset (u - 4) ltac:(lia)). lia.
  - assert (Hclear : forall l, zlen ps <= zlen l ->
        started m ps u offset c (set_aOverflow (replicate (Z.to_nat (zlen ps)) (Some 0) ++ drop (Z.to_nat (zlen ps)) l) c, first, 0, offset)).
    { intros l Hl. pose proof (zlen_nonneg ps). split; [|split; [done|split; [done|]]].
      - intros _. eexists. split; [done|]. rewrite zlen_app, zlen_replicate. pose proof (zlen_nonneg (drop (Z.to_nat (zlen ps)) l)). split; [lia|].
        intros i Hi. exists 0. split; [|by left]. rewrite zget_app_l by (rewrite zlen_replicate; lia). apply zget_replicate. lia.
      - exists [], ps. split; [done|]. split; [done|]. split; [done|]. change (zlen (@nil Z)) with 0. lia. }
    assert (Hal : forall a, edits (fun _ => False) s (set_hasContent (pHasContent s) a s)) by (intros a; constructor; [|done..]; constructor; try done; by intros []).
    destruct (c_aOverflow c) as [l|]; [destruct (Z.leb_spec (zlen ps) (zlen l)) as [Hle|_]; [split; [apply edits_refl|by apply Hclear]|]|];
      (destruct (malloc (bt_alloc s)) as [[] a]; (split; [apply Hal|]); [|done]); apply Hclear; rewrite zlen_replicate; pose proof (zlen_nonneg ps); lia.
Qed.

(** The parse of the cell that the cursor is at. *)
Definition cell_info (c : BtCursor) (s : Bt) : option CellInfo :=
  if nSize (c_info c) =? 0 then btreeParseCell (bt_shared s) (set_aData (content s (c_pgno c)) (c_pPage c)) (c_ix c) else Some (c_info c).

(** What reading promises. *)
Definition read_post (s : Bt) (ps : list Z) (pBuf : list Z) (amt : Z) (f : Z -> option Z) (r : Z * BtCursor * list Z) (s' : Bt) : Prop :=
  let '(rc, c', pBuf') := r in frame (fun _ => False) s s' /\ cache_ok c' ps /\
    (rc = SQLITE_OK -> edits (fun _ => False) s s' /\ filled pBuf pBuf' 0 amt f) /\ (QuietPager T -> rc = SQLITE_OK \/ rc = SQLITE_NOMEM).

Lemma access_overflow_read s m ps u c d payload offset amt pBuf pos : pages s m -> maps s m 0 -> usableSize (bt_shared s) = u -> nPage s < 2 ^ 32 - 16 ->
  m !! c_pgno c = Some d -> stored u m d (pPayload (c_info c)) (nLocal (c_info c)) ps payload -> nPayload (c_info c) = zlen payload -> zlen payload < 2 ^ 31 ->
  cache_ok c ps -> 0 <= offset -> 0 < amt -> offset + amt <= zlen payload - nLocal (c_info c) -> 0 <= pos -> pos + amt <= zlen pBuf ->
  wp (access_overflow c offset amt pBuf pos false) s
    (fun r s' => let '(rc, c', pBuf') := r in frame (fun _ => False) s s' /\ cache_ok c' ps /\
       (rc = SQLITE_OK -> edits (fun _ => False) s s' /\ filled pBuf pBuf' pos amt (fun j => payload.[nLocal (c_info c) + (offset + j)])) /\
       (QuietPager T -> rc = SQLITE_OK \/ rc = SQLITE_NOMEM)) (fun _ _ => False).
Proof using.
  intros Hpg Hmaps Eu Hn Hd [Hpay Hnl Hlocal Hcount Hfirst Hrest Hnd] Enp Hmax Hcache Ho Ha Hoa Hpos Hpl. pose proof (pg_wf _ _ Hpg) as Hw.
  pose proof (wf_usable _ Hw) as Hus. pose proof (wf_pageSize _ Hw) as Hps. destruct (pg_use _ _ Hpg _ _ Hd) as [_ Hc].
  unfold access_overflow. apply bt_bind, bt_gets. rewrite Eu, u32_small by lia.
  assert (Hne : ps <> []) by (intros ->; change (zlen (@nil Z)) with 0 in Hcount; lia). destruct (Hfirst Hne) as (first & Hf & Hch).
  apply bt_bind. eapply bt_read4; [by rewrite Hc|]. apply bt_bind.
  eapply bt_mono; [apply (access_start_ok s m ps u c first offset Hpg); try done; lia|intros st s1 [He Hst]|done].
  destruct st as [[[[c1 next] iIdx] off]|]; [|apply bt_ret; split; [apply He|split; [done|split; [done|by right]]]].
  destruct Hst as (Hcache1 & Hval & Hplace & pre & rest & Eps & -> & Hch1 & Hoff & Eoff).
  assert (Hlen : zlen ps = zlen pre + zlen rest) by (rewrite Eps; apply zlen_app).
  apply bt_bind. eapply bt_mono; [apply (read_loop m ps u _ s1 c1 next pre rest off amt pBuf pos Eps); try done; try lia|
    intros [[[rc c2] pBuf2] amt2] s2 (Hfr & Hc2 & _ & Hok & Hqu)|done].
  - by eapply pages_edits.
  - by eapply maps_edits.
  - by rewrite (edits_shared _ _ _ He).
  - by rewrite (ed_nPage _ _ _ He).
  - apply bt_ret. split; [eapply frame_then; [apply He|done]|]. split; [done|]. destruct (Z.eqb_spec rc SQLITE_OK) as [->|Hrc]; cbn [andb].
    + destruct (Hok eq_refl) as (He2 & -> & Hfil). cbn. split; [|by left]. intros _. split; [by eapply edits_trans|].
      eapply filled_ext; [|exact Hfil]. intros j Hj. cbv beta. rewrite <- Hrest by lia. rewrite Eps. unfold chain_bytes. rewrite fmap_app, concat_app.
      change (concat (page_bytes u m <$> pre)) with (chain_bytes u m pre). change (concat (page_bytes u m <$> rest)) with (chain_bytes u m rest).
      assert (Lpre : zlen (chain_bytes u m pre) = zlen pre * (u - 4)).
      { pose proof (zlen_chain_bytes s m ps first Hpg Hch) as L. pose proof (zlen_chain_bytes s m rest next Hpg Hch1) as L'. rewrite Eu in L, L'.
        rewrite Eps in L. unfold chain_bytes in L. rewrite fmap_app, concat_app, !zlen_app in L. unfold chain_bytes in *. lia. }
      rewrite zget_app_r by lia. f_equal. lia.
    + split; [by intros ?|]. intros Hqp. by destruct (Hrc (Hqu Hqp)).
Qed.

Lemma accessPayload_read s m ps u c d payload offset amt pBuf info : pages s m -> maps s m 0 -> usableSize (bt_shared s) = u -> nPage s < 2 ^ 32 - 16 ->
  m !! c_pgno c = Some d -> c_ix c < nCell (c_pPage c) -> cell_info c s = Some info -> stored u m d (pPayload info) (nLocal info) ps payload ->
  nPayload info = zlen payload -> zlen payload < 2 ^ 31 -> pPayload info + nLocal info <= u -> cache_ok c ps ->
  0 <= offset -> 0 <= amt -> offset + amt <= zlen payload -> amt <= zlen pBuf ->
  wp (accessPayload c offset amt pBuf false) s (read_post s ps pBuf amt (fun j => payload.[offset + j])) (fun _ _ => False).
Proof using.
  intros Hpg Hmaps Eu Hn Hd Hix Hinfo Hst Enp Hmax Hend Hcache Ho Ha Hoa Hbuf. pose proof Hst as [Hpay Hnl Hlocal _ _ _ _].
  pose proof (pg_wf _ _ Hpg) as Hw. pose proof (wf_usable _ Hw) as Hus. pose proof (wf_pageSize _ Hw) as Hps. destruct (pg_use _ _ Hpg _ _ Hd) as [_ Hc].
  destruct (content_len s (c_pgno c) Hw) as [Lc Bc]. rewrite Hc in Lc, Bc. unfold accessPayload. rewrite Z.geb_leb, (proj2 (Z.leb_gt _ _)) by done.
  apply bt_bind. apply (bt_mono _ _ (fun c1 s1 => s1 = s /\ c_pgno c1 = c_pgno c /\ c_info c1 = info /\ cache_ok c1 ps) (fun _ _ => False)); [|intros c1 s1 (-> & Epg & Ei & Hcache1)|done].
  { unfold getCellInfo, cell_info, wp in *. destruct (nSize (c_info c) =? 0); [rewrite Hinfo; cbn [mbind option_bind]; done|]. by injection Hinfo as <-. }
  apply bt_bind, bt_gets. rewrite Eu, Ei, Z.gtb_ltb, u32_small, (proj2 (Z.ltb_ge _ _)) by lia. destruct (Z.ltb_spec offset (nLocal info)) as [Hloc|Hovf].
  - set (a := if amt + offset >? nLocal info then nLocal info - offset else amt).
    assert (Ha' : 0 <= a <= amt /\ offset + a <= nLocal info /\ (a < amt -> offset + a = nLocal info)).
    { unfold a. rewrite Z.gtb_ltb. destruct (Z.ltb_spec (nLocal info) (amt + offset)); lia. }
    apply bt_bind, bt_attempt. rewrite Epg. eapply bt_copy_read; [exact Hc|done|lia..|]. intros pBuf1 Hfil.
    assert (Hfil1 : filled pBuf pBuf1 0 a (fun j => payload.[offset + j])).
    { eapply filled_ext; [|exact Hfil]. intros j Hj. cbv beta. rewrite <- Hlocal by lia. f_equal. lia. }
    rewrite Z.gtb_ltb. destruct (Z.ltb_spec 0 (amt - a)).
    + pose proof Hfil1 as (Lb & _). eapply bt_mono; [apply (access_overflow_read s m ps u c1 d payload 0 (amt - a) pBuf1 a); rewrite ?Epg, ?Ei; try done; lia|
        intros [[rc c2] pBuf2] s2 (Hfr & Hc2 & Hok & Hq)|done].
      split; [done|]. split; [done|]. split; [|done]. intros Hrc. destruct (Hok Hrc) as [He Hfil2]. split; [done|].
      replace amt with (a + (amt - a)) by lia. eapply filled_ext; [|eapply (filled_trans _ _ _ 0); [| | |exact Hfil1|exact Hfil2]; lia].
      intros j Hj. cbv beta. destruct (Z.ltb_spec j a); [done|]. rewrite Ei. f_equal. lia.
    + apply bt_ret. split; [apply frame_refl|]. split; [done|]. split; [|by left]. intros _. split; [apply edits_refl|]. by replace amt with a by lia.
  - rewrite Z.gtb_ltb. destruct (Z.ltb_spec 0 amt).
    + eapply bt_mono; [apply (access_overflow_read s m ps u c1 d payload (offset - nLocal info) amt pBuf 0); rewrite ?Epg, ?Ei; try done; lia|
        intros [[rc c2] pBuf2] s2 (Hfr & Hc2 & Hok & Hq)|done].
      split; [done|]. split; [done|]. split; [|done]. intros Hrc. destruct (Hok Hrc) as [He Hfil2]. split; [done|].
      eapply filled_ext; [|exact Hfil2]. intros j Hj. cbv beta. rewrite Ei. f_equal. lia.
    + apply bt_ret. split; [apply frame_refl|]. split; [done|]. split; [|by left]. intros _. split; [apply edits_refl|]. split; [done|]. split; [done|]. intros j Hj. lia.
Qed.

(** ** Freeing *)

Fixpoint remove_pages (m : gmap Z (list Z)) (ps : list Z) : gmap Z (list Z) :=
  match ps with
  | [] => m
  | p :: ps => remove_pages (delete p m) ps
  end.

Lemma lookup_remove ps : forall m q, remove_pages m ps !! q = if decide (q ∈ ps) then None else m !! q.
Proof using.
  induction ps as [|p ps IH]; intros m q; cbn [remove_pages]; [by rewrite decide_False by apply not_elem_of_nil|].
  rewrite IH. destruct (decide (q ∈ ps)) as [Hin|Hni]; [by rewrite decide_True by (by right)|].
  destruct (decide (q = p)) as [->|Hne]; [by rewrite lookup_delete_eq, decide_True by (by left)|]. rewrite lookup_delete_ne by done.
  rewrite decide_False; [done|]. by intros [?|?]%elem_of_cons.
Qed.

Lemma chain_ext m m' ps : forall first, (forall p, p ∈ ps -> m' !! p = m !! p) -> chain m first ps -> chain m' first ps.
Proof using.
  induction ps as [|p ps IH]; intros first Hm Hc; [done|]. destruct Hc as [-> (d & next & Hd & Hn & Hc)]. split; [done|]. exists d, next.
  rewrite Hm by by left. split; [done|]. split; [done|]. apply IH; [|done]. intros q Hq. apply Hm. by right.
Qed.

Lemma chain_bytes_ext u m m' ps : (forall p, p ∈ ps -> m' !! p = m !! p) -> chain_bytes u m' ps = chain_bytes u m ps.
Proof using.
  induction ps as [|p ps IH]; intros Hm; [done|]. rewrite !chain_bytes_cons. f_equal; [unfold page_bytes; by rewrite Hm by by left|]. apply IH. intros q Hq. apply Hm. by right.
Qed.

(** The first page of a chain is freed. *)
Lemma maps_free s s' m p d next : maps s m p -> m !! p = Some d -> get4 d 0 = Some next -> same_map s s' (delete p m) -> autoVacuum s' = autoVacuum s ->
  maps s' (delete p m) next.
Proof using.
  intros Hm Hd Hn Hs Ev Hv g Hg Hx. rewrite Ev in Hv. pose proof Hg as [e He]. apply lookup_delete_Some in He as [Hgp He].
  destruct (Hm Hv g) as (ty & par & H1 & H2 & H3 & H4); [by rewrite He|by intros ->|]. destruct (Hs Hv g Hg) as [-> ->]. exists ty, par.
  split; [done|]. split; [done|]. split; [done|]. intros E. destruct (H4 E) as (Hr & d' & Hd' & Hg'). split; [done|]. exists d'. split; [|done].
  rewrite lookup_delete_ne; [done|]. intros <-. congruence.
Qed.

Lemma clear_loop_ok ps : forall s m first, pages s m -> maps s m first -> chain m first ps -> NoDup ps -> nPage s < 2 ^ 32 - 16 ->
  wp (clear_loop (length ps) first) s (fun _ s' => pages s' (remove_pages m ps) /\ maps s' (remove_pages m ps) 0 /\ bt_shared s' = bt_shared s /\
     autoVacuum s' = autoVacuum s /\ nPage s' = nPage s) (fun rc _ => QuietPager T -> rc = SQLITE_NOMEM).
Proof using.
  induction ps as [|p ps IH]; intros s m first Hpg Hmaps Hch Hnd Hn; cbn [length clear_loop remove_pages].
  { cbn in Hch. subst first. by apply bt_ret. }
  destruct Hch as [-> (d & next & Hd & Hnx & Hch)]. apply list.NoDup_cons in Hnd as [Hni Hnd]. destruct (pg_use _ _ Hpg p d Hd) as [[Hpr _] _].
  apply bt_bind, bt_gets. rewrite Z.gtb_ltb, (proj2 (Z.ltb_ge p 2)), (proj2 (Z.ltb_ge _ p)) by lia. cbn [orb]. apply bt_bind.
  apply (bt_mono _ _ (fun r s1 => edits (fun _ => False) s s1 /\ (ps <> [] -> r.1 = next)) (fun rc _ => ~ QuietPager T)); [|intros [iNext held] s1 [He Hin]|by intros rc s1 _ Hq ?].
  { destruct ps as [|p2 ps]; [apply bt_ret; split; [apply edits_refl|done]|]. cbn [length].
    eapply bt_mono; [apply (getOverflowPage_ok s m p p d next true); done || lia|intros r s1 [Hr He]; by split|by intros rc s1 _ [_ Hq]]. }
  apply bt_bind, bt_gets, bt_bind, bt_gets. destruct (_ && negb _) eqn:Eref.
  { apply bt_fail; [done|]. intros Hq. apply andb_true_iff in Eref as [_ Eref]. by rewrite quiet_refs in Eref. }
  pose proof (pages_edits _ _ _ He Hpg) as Hpg1. pose proof (maps_edits _ _ _ _ He Hmaps) as Hmaps1. apply bt_bind.
  eapply bt_mono; [apply (free_pages_spec s1 m _ p Hpg1); [by rewrite Hd|rewrite (ed_nPage _ _ _ He); lia]|intros _ s2 (Hpg2 & Hs2 & Eb2 & Ev2 & En2)|done].
  pose proof (maps_free _ _ _ _ _ _ Hmaps1 Hd Hnx Hs2 Ev2) as Hmaps2.
  assert (Hch2 : chain (delete p m) next ps).
  { eapply chain_ext; [|exact Hch]. intros q Hq. apply lookup_delete_ne. by intros ->. }
  assert (Enext : wp (clear_loop (length ps) iNext) s2 = wp (clear_loop (length ps) next) s2).
  { destruct ps; [done|]. cbn [fst] in Hin. by rewrite Hin. }
  rewrite Enext. eapply bt_mono; [apply (IH s2 (delete p m) next Hpg2 Hmaps2 Hch2 Hnd)|intros _ s3 (H1 & H2 & H3 & H4 & H5)|done].
  - rewrite En2, (ed_nPage _ _ _ He). done.
  - split; [done|]. split; [done|]. rewrite H3, H4, H5, Eb2, Ev2, En2, (edits_shared _ _ _ He), (edits_vacuum _ _ _ He), (ed_nPage _ _ _ He). done.
Qed.

Lemma clearCellOverflow_ok s m pg d pCell info ps payload : pages s m -> maps s m 0 -> nPage s < 2 ^ 32 - 16 -> m !! pg = Some d ->
  stored (usableSize (bt_shared s)) m d (pPayload info) (nLocal info) ps payload -> nPayload info = zlen payload -> zlen payload < 2 ^ 31 -> ps <> [] ->
  pCell + nSize info = pPayload info + nLocal info + 4 -> pCell + nSize info <= pageSize (bt_shared s) ->
  wp (clearCellOverflow pg pCell info) s (fun _ s' => pages s' (remove_pages m ps) /\ maps s' (remove_pages m ps) 0 /\ bt_shared s' = bt_shared s /\
     autoVacuum s' = autoVacuum s /\ nPage s' = nPage s) (fun rc _ => QuietPager T -> rc = SQLITE_NOMEM).
Proof using.
  intros Hpg Hmaps Hn Hd [Hpay Hnl Hlocal Hcount Hfirst Hrest Hnd] Enp Hmax Hne Hsz Hend. pose proof (pg_wf _ _ Hpg) as Hw. pose proof (wf_usable _ Hw) as Hus.
  pose proof (wf_pageSize _ Hw) as Hps. destruct (pg_use _ _ Hpg _ _ Hd) as [_ Hc]. destruct (Hfirst Hne) as (first & Hf & Hch).
  unfold clearCellOverflow. apply bt_bind, bt_gets. rewrite Z.gtb_ltb, (proj2 (Z.ltb_ge _ _)) by lia.
  apply bt_bind. eapply bt_read4; [rewrite Hc; by replace (pCell + nSize info - 4) with (pPayload info + nLocal info) by lia|].
  set (u := usableSize (bt_shared s)) in *. rewrite (u32_small (u - 4)) by lia. assert (0 < zlen ps) by (destruct ps; [done|rewrite zlen_cons; pose proof (zlen_nonneg ps); lia]).
  assert (Ho : u32 (u32 (u32 (nPayload info - nLocal info) + (u - 4)) - 1) / (u - 4) = zlen ps).
  { rewrite (u32_small (nPayload _ - _)) by lia. rewrite (u32_small (_ + (u - 4))) by lia. rewrite u32_small by lia. symmetry.
    apply (Z.div_unique _ _ _ (nPayload info - nLocal info + (u - 4) - 1 - (u - 4) * zlen ps)); lia. }
  rewrite Ho. replace (Z.to_nat (zlen ps)) with (length ps) by (unfold zlen; lia). apply clear_loop_ok; try done.
  intros Hv g Hg Hx. apply Hmaps; [done|done|]. intros ->. destruct Hg as [e He]. destruct (pg_use _ _ Hpg _ _ He) as [[? _] _]. lia.
Qed.
End chains.

(** * Writing a cell *)
Section fill.
Context {T : Type} {P : Pager T} {R : Root}.
Abbreviation Bt := (Bt T).

(** The bytes that are written to: the cell with [pg] zero, else a page in use. *)
Definition target (cell : list Z) (m : gmap Z (list Z)) (pg : Z) : option (list Z) := if pg =? 0 then Some cell else m !! pg.
Definition put_target (m : gmap Z (list Z)) (pg : Z) (d : list Z) : gmap Z (list Z) := if pg =? 0 then m else <[pg := d]> m.

(** The same database but for contents. *)
Definition same_db (s s' : Bt) : Prop := bt_shared s' = bt_shared s /\ autoVacuum s' = autoVacuum s.

Lemma bt_write_page p i b d (s : Bt) Q E : mem_write (content s p) i b = Some d -> Q tt (set_page p d s) -> wp (write_page p i b) s Q E.
Proof using. intros Hd HQ. unfold wp, write_page. by rewrite Hd. Qed.

Lemma store_ok s m cell pg i b d : pages s m -> target cell m pg = Some d -> 0 <= i -> i + zlen b <= zlen d -> bytes_ok b ->
  wp (store cell pg i b) s (fun cell' s' => exists d', pages s' (put_target m pg d') /\ cell' = (if pg =? 0 then d' else cell) /\
    mem_write d i b = Some d' /\
    only i (i + zlen b) d d' /\ (forall j, 0 <= j < zlen b -> d'.[i + j] = b.[j]) /\ same_map s s' m /\ same_db s s' /\ nPage s' = nPage s) (fun _ _ => False).
Proof using.
  intros Hpg Hd Hi Hl Hb. destruct (mem_write_ok d i b Hi Hl Hb) as (d' & E & O & G).
  assert (G' : forall j, 0 <= j < zlen b -> d'.[i + j] = b.[j]) by (intros j Hj; rewrite G by lia; f_equal; lia).
  unfold store, target, put_target in *. destruct (pg =? 0).
  - injection Hd as ->. eapply bt_lift; [exact E|]. exists d'. done.
  - destruct (pg_use _ _ Hpg _ _ Hd) as [_ Hc]. destruct (content_len s pg (pg_wf _ _ Hpg)) as [Lc Bc]. rewrite Hc in Lc, Bc.
    apply bt_bind. eapply bt_write_page; [by rewrite Hc|]. apply bt_ret. exists d'.
    destruct (set_pages s m pg d' Hpg) as [Hp' Hs']; [by rewrite Hd|rewrite (on_len _ _ _ _ O); done|by apply (on_bytes _ _ _ _ O)|]. done.
Qed.

Lemma write_head_ok s m p d v : pages s m -> m !! p = Some d -> 0 <= v < 2 ^ 32 ->
  wp (write4 p 0 v) s (fun _ s' => exists d', pages s' (<[p := d']> m) /\ get4 d' 0 = Some v /\ zlen d' = zlen d /\ same_map s s' m /\ same_db s s' /\ nPage s' = nPage s) (fun _ _ => False).
Proof using.
  intros Hpg Hd Hv. destruct (pg_use _ _ Hpg _ _ Hd) as [_ Hc]. destruct (content_len s p (pg_wf _ _ Hpg)) as [Lc Bc]. rewrite Hc in Lc, Bc.
  pose proof (wf_pageSize _ (pg_wf _ _ Hpg)). destruct (put4_ok d 0 v) as (d' & E & O & G); [lia..|].
  eapply bt_write_page; [by rewrite Hc|]. exists d'.
  destruct (set_pages s m p d' Hpg) as [Hp' Hs']; [by rewrite Hd|rewrite (on_len _ _ _ _ O); done|by apply (on_bytes _ _ _ _ O)|].
  split; [done|]. split; [done|]. split; [apply (on_len _ _ _ _ O)|done].
Qed.

(** A new overflow page, after the page [prev]. *)
Lemma next_overflow_ok s m prev : pages s m -> maps s m 0 -> 0 <= prev <= nPage s -> 1 <= nPage s < 2 ^ 32 - 20 ->
  wp (next_overflow prev) s (fun p s' => exists d, m !! p = None /\ 2 <= p < 2 ^ 32 /\ pages s' (<[p := d]> m) /\ same_map s s' m /\
    (autoVacuum s = true -> ptr_type s' p = Some (if negb (prev =? 0) then PTRMAP_OVERFLOW2 else PTRMAP_OVERFLOW1) /\ ptr_parent s' p = Some prev) /\
    same_db s s' /\ nPage s <= nPage s' <= nPage s + 4) (fun rc _ => ~ QuietPager T).
Proof using.
  intros Hpg Hmaps Hpr Hn. pose proof (pg_wf _ _ Hpg) as [Hu Hz _ _ _]. unfold next_overflow. apply bt_bind, bt_gets, bt_bind, bt_gets, bt_bind.
  apply (bt_mono _ _ (fun near s1 => s1 = s /\ 0 <= near < 2 ^ 32) (fun _ _ => False)); [|intros near s1 [-> Hnear]|done].
  { destruct (autoVacuum s); [|apply bt_ret; split; [done|lia]]. rewrite u32_small by lia.
    destruct (next_ordinary_ok (bt_shared s) (prev + 1) Hu Hz) as (g & Hg & Hgr & _); [lia|]. eapply bt_lift; [exact Hg|]. split; [done|lia]. }
  apply bt_bind. eapply bt_mono; [apply (allocate_pages s m near Hpg Hnear); lia|intros p s1 (d & Hpge & Hpm & Hpg1 & Hs1 & Eb1 & Ev1 & Hn1)|done].
  destruct (pg_use _ _ Hpg1 p d) as [[Hpr1 _] _]; [apply lookup_insert_eq|]. apply bt_bind.
  destruct (autoVacuum s) eqn:Ev; cycle 1.
  { apply bt_ret, bt_ret. exists d. split; [done|]. split; [lia|]. split; [done|]. split; [exact Hs1|]. split; [congruence|]. split; [|lia]. split; [done|congruence]. }
  eapply bt_mono; [apply (put_pages s1 (<[p := d]> m) p _ prev Hpg1); [by rewrite lookup_insert_eq|congruence|by destruct (negb _)|lia]|
    intros _ s2 (Hpg2 & Hty & Hpar & Hoth & Eb2 & Ev2 & En2)|done].
  apply bt_ret. exists d. split; [done|]. split; [lia|]. split; [done|]. split; [|split; [done|split; [split; congruence|lia]]].
  intros _ g Hg. destruct (Hoth g) as [-> ->]; [apply lookup_insert_is_Some'; by right|intros ->; destruct Hg; congruence|]. by apply Hs1.
Qed.

Lemma lookup_put_ne m pg d q : q <> pg -> put_target m pg d !! q = m !! q.
Proof using. intros Hq. unfold put_target. destruct (pg =? 0); [done|]. by rewrite lookup_insert_ne. Qed.

Lemma lookup_put m pg d e q : target [] m pg = Some e \/ pg = 0 -> is_Some (put_target m pg d !! q) <-> is_Some (m !! q).
Proof using.
  intros Ht. unfold put_target, target in *. destruct (Z.eqb_spec pg 0); [done|]. rewrite lookup_insert_is_Some'. split; [|by right].
  intros [<-|?]; [|done]. destruct Ht; [by eexists|done].
Qed.

Lemma target_some cell m pg d : target cell m pg = Some d -> target [] m pg = Some d \/ pg = 0.
Proof using. unfold target. destruct (Z.eqb_spec pg 0); [by right|by left]. Qed.

Lemma target_put cell m pg d : target (if pg =? 0 then d else cell) (put_target m pg d) pg = Some d.
Proof using. unfold target, put_target. destruct (pg =? 0); [done|apply lookup_insert_eq]. Qed.

(** The pointer map after a page was added to the chain at its end [pg]. *)
Lemma maps_link (s s' : Bt) m m' p pg d : pages s m -> maps s m 0 -> m !! p = None -> autoVacuum s' = autoVacuum s -> (pg <> 0 -> pg <> root /\ m !! pg = Some d /\ get4 d 0 = Some 0) ->
  (forall g, is_Some (m' !! g) -> g = p \/ is_Some (m !! g)) -> (forall g, g <> p -> g <> pg -> m' !! g = m !! g) ->
  (pg <> 0 -> exists d', m' !! pg = Some d' /\ get4 d' 0 = Some p) -> same_map s s' m ->
  (autoVacuum s = true -> ptr_type s' p = Some (if negb (pg =? 0) then PTRMAP_OVERFLOW2 else PTRMAP_OVERFLOW1) /\ ptr_parent s' p = Some pg) -> maps s' m' 0.
Proof using.
  intros Hpg Hm Hp Ev Hend Hdom Hother Hnew Hs Hent Hv g Hg Hx. rewrite Ev in Hv. destruct (Hdom g Hg) as [->|Hgm].
  - destruct (Hent Hv) as [H1 H2]. eexists _, pg. split; [exact H1|]. split; [done|]. destruct (Z.eqb_spec pg 0); cbn [negb]; [by split|]. split; [done|]. intros _. split; [by apply Hend|by apply Hnew].
  - destruct (Hm Hv g Hgm Hx) as (ty & par & H1 & H2 & H3 & H4). destruct (Hs Hv g Hgm) as [-> ->]. exists ty, par. split; [done|]. split; [done|]. split; [done|].
    intros E. destruct (H4 E) as (Hr & d0 & Hd0 & Hg0). split; [done|]. exists d0. split; [|done]. rewrite Hother; [done|congruence|]. intros ->.
    destruct (pg_use _ _ Hpg _ _ Hd0) as [[? _] _]. destruct Hend as (_ & Hd & Hz); [lia|]. assert (g = 0) by congruence. lia.
Qed.

Lemma extend_ok {A} (k : Z -> list Z -> BtPages.M T A) s m cell pg prior d Q (E : Z -> Bt -> Prop) : pages s m -> maps s m 0 -> target cell m pg = Some d ->
  0 <= prior -> prior + 4 <= zlen d -> (pg <> 0 -> pg <> root /\ prior = 0 /\ get4 d 0 = Some 0) -> 0 <= pg -> 1 <= nPage s < 2 ^ 32 - 20 ->
  (forall rc s', ~ QuietPager T -> E rc s') ->
  (forall p s' d' e, m !! p = None -> 2 <= p < 2 ^ 32 -> pages s' (<[p := e]> (put_target m pg d')) -> maps s' (<[p := e]> (put_target m pg d')) 0 ->
     get4 e 0 = Some 0 -> zlen e = pageSize (bt_shared s) -> only prior (prior + 4) d d' -> get4 d' prior = Some p -> same_db s s' -> nPage s <= nPage s' <= nPage s + 4 ->
     wp (k p (if pg =? 0 then d' else cell)) s' Q E) ->
  wp (let! p := next_overflow pg in let! cell := store cell pg prior (sqlite3Put4byte p) in write4 p 0 0 ;;; k p cell) s Q E.
Proof using.
  intros Hpg Hmaps Hd Hpr Hpl Hend Hpg0 Hn HE Hk. assert (Hpgn : 0 <= pg <= nPage s).
  { unfold target in Hd. destruct (Z.eqb_spec pg 0); [lia|]. destruct (pg_use _ _ Hpg _ _ Hd) as [[? _] _]. lia. }
  apply bt_bind. eapply bt_mono; [apply (next_overflow_ok s m pg Hpg Hmaps Hpgn Hn)|intros p s1 (e0 & Hp & Hp2 & Hpg1 & Hs1 & Hent & [Eb1 Ev1] & Hn1)|intros rc s1 _; apply HE].
  assert (Hpne : pg <> p). { intros ->. unfold target in Hd. destruct (Z.eqb_spec p 0); [lia|congruence]. }
  assert (Hd1 : target cell (<[p := e0]> m) pg = Some d) by (unfold target in *; destruct (pg =? 0); [done|by rewrite lookup_insert_ne]).
  apply bt_bind. eapply bt_mono; [apply (store_ok s1 _ cell pg prior (sqlite3Put4byte p) d Hpg1 Hd1 Hpr); [done|apply Put4byte_bytes]|
    intros cell1 s2 (d' & Hpg2 & -> & Ew & Ho & _ & Hs2 & [Eb2 Ev2] & En2)|done].
  change (zlen (sqlite3Put4byte p)) with 4 in *.
  assert (Hp4 : get4 d' prior = Some p).
  { destruct (put4_ok d prior p Hpr Hpl ltac:(lia)) as (x & Ex & _ & Gx). unfold put4 in Ex. congruence. }
  assert (Hep : put_target (<[p := e0]> m) pg d' !! p = Some e0) by (rewrite lookup_put_ne by done; apply lookup_insert_eq).
  apply bt_bind. eapply bt_mono; [apply (write_head_ok s2 _ p e0 0 Hpg2 Hep); lia|intros _ s3 (e & Hpg3 & He4 & Hel & Hs3 & [Eb3 Ev3] & En3)|done].
  assert (Em : <[p := e]> (put_target (<[p := e0]> m) pg d') = <[p := e]> (put_target m pg d')).
  { unfold put_target. destruct (pg =? 0); [apply insert_insert_eq|]. rewrite insert_insert_ne by done. rewrite insert_insert_eq. by rewrite insert_insert_ne. }
  rewrite Em in Hpg3. destruct (pg_use _ _ Hpg1 p e0) as [[_ _] Hce]; [apply lookup_insert_eq|]. destruct (content_len s1 p (pg_wf _ _ Hpg1)) as [Lc _]. rewrite Hce in Lc.
  assert (Hsm : same_map s s3 m).
  { intros Hv g Hg. assert (Hg1 : is_Some ((<[p := e0]> m : gmap Z (list Z)) !! g)) by (apply lookup_insert_is_Some'; by right).
    destruct (Hs1 Hv g Hg) as [<- <-]. destruct (Hs2 ltac:(congruence) g Hg1) as [<- <-]. apply Hs3; [congruence|].
    apply (lookup_put _ _ _ d); [by eapply target_some|done]. }
  apply (Hk p s3 d' e); try done; try lia.
  - apply (maps_link s s3 m _ p pg d Hpg Hmaps Hp); [congruence| | | | |done|].
    + intros Hne. destruct (Hend Hne) as (? & _ & ?). split; [done|]. split; [|done]. unfold target in Hd. by rewrite (proj2 (Z.eqb_neq _ _) Hne) in Hd.
    + intros g [<-|Hg]%lookup_insert_is_Some'; [by left|]. right. by apply (lookup_put m pg d' d) in Hg; [|by eapply target_some].
    + intros g H1 H2. rewrite lookup_insert_ne by done. by apply lookup_put_ne.
    + intros Hne. exists d'. split; [|destruct (Hend Hne) as (_ & <- & _); done]. rewrite lookup_insert_ne by done. unfold put_target. rewrite (proj2 (Z.eqb_neq _ _) Hne). apply lookup_insert_eq.
    + intros Hv. assert (Hg1 : is_Some ((<[p := e0]> m : gmap Z (list Z)) !! p)) by (by rewrite lookup_insert_eq).
      destruct (Hent Hv) as [<- <-]. destruct (Hs2 ltac:(congruence) p Hg1) as [<- <-]. apply Hs3; [congruence|by rewrite Hep].
  - congruence.
  - split; congruence.
Qed.

(** What the loop does from the target [pg], whose bytes were [d], with [left]
    bytes to go, given by [f]: [ps] are the pages it adds. *)
Record fill_done (u : Z) (m : gmap Z (list Z)) (pg pay prior space left : Z) (f : Z -> option Z) (d : list Z) (m' : gmap Z (list Z)) (ps d' : list Z) : Prop := {
  fi_len : zlen d' = zlen d;
  fi_bytes : bytes_ok d -> bytes_ok d';
  fi_out : forall j, 0 <= j -> ~ pay <= j < pay + space -> ~ prior <= j < prior + 4 -> d'.[j] = d.[j];
  fi_in : forall j, 0 <= j < left -> j < space -> d'.[pay + j] = f j;
  fi_none : ps = [] -> left <= space /\ get4 d' prior = get4 d prior;
  fi_first : ps <> [] -> get4 d' prior = Some (default 0 (head ps)) /\ space < left;
  fi_count : ps <> [] -> (zlen ps - 1) * (u - 4) < left - space <= zlen ps * (u - 4);
  fi_chain : chain m' (default 0 (head ps)) ps;
  fi_new : NoDup ps /\ Forall (fun p => m !! p = None /\ 0 < p /\ p <> pg) ps;
  fi_keep : forall q, q <> pg -> q ∉ ps -> m' !! q = m !! q;
  fi_rest : forall j, 0 <= j < left - space -> (chain_bytes u m' ps).[j] = f (space + j);
}.

(** The bytes to be written: those of [src], then zeros. *)
Definition source (src : list Z) (nSrc j : Z) : option Z := if j <? nSrc then src.[j] else Some 0.

Lemma source_drop src nSrc n j : 0 <= n -> 0 <= j -> source (drop (Z.to_nat n) src) (nSrc - n) j = source src nSrc (n + j).
Proof using. intros Hn Hj. unfold source. rewrite zget_drop by lia. destruct (Z.ltb_spec j (nSrc - n)), (Z.ltb_spec (n + j) nSrc); done || lia. Qed.

(** The next chunk. *)
Lemma chunk_ok (s : Bt) src nSrc n Q E : bytes_ok src -> nSrc <= zlen src -> 0 < n -> (0 < nSrc -> n <= nSrc) ->
  (forall b, zlen b = n -> bytes_ok b -> (forall j, 0 <= j < n -> b.[j] = source src nSrc j) -> Q b s) ->
  wp (if nSrc >? 0 then lift (mem_read src 0 n) else ret (replicate (Z.to_nat n) 0)) s Q E.
Proof using.
  intros Hb Hl Hn Hns HQ. rewrite Z.gtb_ltb. destruct (Z.ltb_spec 0 nSrc).
  - destruct (mem_read_ok src 0 n) as (b & Eb & Lb & Gb); [lia..|]. eapply bt_lift; [exact Eb|]. apply HQ; [done|by eapply mem_read_bytes|].
    intros j Hj. unfold source. rewrite Gb, (proj2 (Z.ltb_lt j nSrc)) by lia. done.
  - apply bt_ret, HQ; [rewrite zlen_replicate; lia|apply Forall_replicate; unfold byte_ok; lia|]. intros j Hj. unfold source.
    rewrite (proj2 (Z.ltb_ge j nSrc)) by lia. apply zget_replicate. lia.
Qed.

(** The payload bytes of a page in use change. *)
Lemma maps_write (s s' : Bt) m pg d d' : maps s m 0 -> same_map s s' m -> autoVacuum s' = autoVacuum s -> target [] m pg = Some d \/ pg = 0 ->
  (pg <> 0 -> get4 d' 0 = get4 d 0) -> maps s' (put_target m pg d') 0.
Proof using.
  intros Hm Hs Ev Ht Hz Hv g Hg Hx. rewrite Ev in Hv. assert (Hgm : is_Some (m !! g)) by (by apply (lookup_put m pg d' d)).
  destruct (Hm Hv g Hgm Hx) as (ty & par & H1 & H2 & H3 & H4). destruct (Hs Hv g Hgm) as [-> ->]. exists ty, par. split; [done|]. split; [done|]. split; [done|].
  intros E. destruct (H4 E) as (Hr & d0 & Hd0 & Hg0). split; [done|]. unfold put_target, target in *. destruct (Z.eqb_spec pg 0) as [|Hne]; [by exists d0|].
  destruct (decide (par = pg)) as [->|Hp]; [|exists d0; by rewrite lookup_insert_ne by done].
  exists d'. rewrite lookup_insert_eq. split; [done|]. destruct Ht as [Ht|?]; [|done]. rewrite Hz by done. congruence.
Qed.

(** A part of the target was written, the rest follows. *)
Lemma fill_more u m m1 pg pay prior space left f n d d1 m' ps d' : 0 < n -> n <= space -> n < left -> 0 <= pay -> (pay + space <= prior \/ prior + 4 <= pay) ->
  (forall q, q <> pg -> m1 !! q = m !! q) -> only pay (pay + n) d d1 -> (forall j, 0 <= j < n -> d1.[pay + j] = f j) ->
  fill_done u m1 pg (pay + n) prior (space - n) (left - n) (fun j => f (n + j)) d1 m' ps d' -> fill_done u m pg pay prior space left f d m' ps d'.
Proof using.
  intros Hn Hns Hnl Hpay Hdis Hm1 Ho Hin [H1 H2 H3 H4 H5 H6 H7 H8 [H9 H9'] H10 H11]. constructor; try done.
  - rewrite H1. apply (on_len _ _ _ _ Ho).
  - intros Hb. apply H2, (on_bytes _ _ _ _ Ho), Hb.
  - intros j Hj Hp Hpr. rewrite H3 by lia. apply (on_get _ _ _ _ Ho); lia.
  - intros j Hj Hjs. destruct (Z.lt_ge_cases j n); [rewrite H3 by lia; apply Hin; lia|]. replace (pay + j) with (pay + n + (j - n)) by lia. rewrite H4 by lia. f_equal. lia.
  - intros E. destruct (H5 E) as [? ->]. split; [lia|]. apply (only_get4 _ _ _ _ _ Ho). lia.
  - intros E. destruct (H6 E) as [? ?]. split; [done|lia].
  - intros E. specialize (H7 E). lia.
  - split; [done|]. eapply List.Forall_impl; [|exact H9']. cbv beta. intros p (Hp & ? & ?). split; [|done]. by rewrite <- Hm1.
  - intros q Hq Hqp. rewrite H10 by done. by apply Hm1.
  - intros j Hj. rewrite H11 by lia. f_equal. lia.
Qed.

(** The target was filled, and the rest went to a new page and those after it. *)
Lemma fill_page u m pg pay prior space left f d d1 d2 p e m' ps e' : 0 < space -> space < left -> 0 <= pay -> 0 <= prior ->
  (pay + space <= prior \/ prior + 4 <= pay) -> only pay (pay + space) d d1 -> (forall j, 0 <= j < space -> d1.[pay + j] = f j) ->
  only prior (prior + 4) d1 d2 -> get4 d2 prior = Some p -> m !! p = None -> 2 <= p -> p <> pg -> get4 e 0 = Some 0 -> 4 < u <= zlen e -> m' !! p = Some e' ->
  fill_done u (<[p := e]> (put_target m pg d2)) p 4 0 (u - 4) (left - space) (fun j => f (space + j)) e m' ps e' ->
  fill_done u m pg pay prior space left f d m' (p :: ps) d2.
Proof using.
  intros Hsp Hl Hpay Hpr Hdis Ho1 Hin Ho2 Hp4 Hp Hp2 Hpg He Hu Hmp [H1 H2 H3 H4 H5 H6 H7 H8 [H9 H9'] H10 H11].
  assert (Hnp : p ∉ ps). { intros Hin'. rewrite list.Forall_forall in H9'. destruct (H9' p Hin') as (? & ? & ?). done. }
  assert (Lb : zlen (page_bytes u m' p) = u - 4 /\ forall j, 0 <= j < u - 4 -> (page_bytes u m' p).[j] = e'.[4 + j]).
  { unfold page_bytes. rewrite Hmp. cbn [default from_option id]. split; [apply length_slice; lia|]. intros j Hj. apply zget_slice; lia. }
  destruct Lb as [Lb Gb]. constructor; try done.
  - rewrite (on_len _ _ _ _ Ho2). apply (on_len _ _ _ _ Ho1).
  - intros Hb. apply (on_bytes _ _ _ _ Ho2), (on_bytes _ _ _ _ Ho1), Hb.
  - intros j Hj Hjp Hjr. rewrite (on_get _ _ _ _ Ho2) by lia. apply (on_get _ _ _ _ Ho1); lia.
  - intros j Hj Hjs. rewrite (on_get _ _ _ _ Ho2) by lia. apply Hin. lia.
  - intros _. rewrite zlen_cons. destruct ps as [|q ps]; [destruct (H5 eq_refl); change (zlen (@nil Z)) with 0; lia|]. specialize (H7 ltac:(done)). lia.
  - cbn [head default]. split; [done|]. exists e', (default 0 (head ps)). split; [done|]. split; [|done].
    destruct ps as [|q ps]; [destruct (H5 eq_refl) as [_ ->]; done|]. destruct (H6 ltac:(done)) as [? _]. done.
  - split; [by apply list.NoDup_cons|]. apply list.Forall_forall. intros q [->|Hq]%elem_of_cons; [split; [done|split; [lia|done]]|]. rewrite list.Forall_forall in H9'.
    destruct (H9' q Hq) as (Hqm & Hq0 & Hqp). rewrite lookup_insert_ne in Hqm by congruence. unfold put_target in Hqm.
    destruct (Z.eqb_spec pg 0) as [->|Hpz]; [split; [done|split; [done|lia]]|]. destruct (decide (q = pg)) as [->|Hne]; [by rewrite lookup_insert_eq in Hqm|].
    rewrite lookup_insert_ne in Hqm by congruence. done.
  - intros q Hq Hqn. apply not_elem_of_cons in Hqn as [Hqp Hqn]. rewrite H10 by done. rewrite lookup_insert_ne by congruence. by apply lookup_put_ne.
  - intros j Hj. rewrite chain_bytes_cons. destruct (Z.lt_ge_cases j (u - 4)).
    + rewrite zget_app_l, Gb by lia. rewrite H4 by lia. done.
    + rewrite zget_app_r by lia. rewrite Lb, H11 by lia. f_equal. lia.
Qed.

Lemma fill_loop_ok u fuel : forall s m cell pg pay prior left src nSrc space k d, pages s m -> maps s m 0 -> usableSize (bt_shared s) = u -> target cell m pg = Some d ->
  bytes_ok src -> nSrc <= zlen src -> 0 < space -> 0 < left -> left <= Z.of_nat fuel -> 0 <= pay -> 0 <= prior -> (pay + space <= prior \/ prior + 4 <= pay) ->
  pay + space <= zlen d -> prior + 4 <= zlen d -> 0 <= pg -> (pg <> 0 -> pg <> root /\ prior = 0 /\ get4 d 0 = Some 0) -> is_Some (m !! root) ->
  0 <= k -> left - space <= k * (u - 4) -> 1 <= nPage s -> nPage s + 4 * k < 2 ^ 32 - 20 ->
  wp (fill_loop fuel cell pg pay prior left src nSrc space pg) s
    (fun cell' s' => exists m' ps d', pages s' m' /\ maps s' m' 0 /\ target cell' m' pg = Some d' /\ (pg <> 0 -> cell' = cell) /\
       fill_done u m pg pay prior space left (source src nSrc) d m' ps d' /\ same_db s s' /\ nPage s <= nPage s' <= nPage s + 4 * k) (fun rc _ => ~ QuietPager T).
Proof using.
  induction fuel as [|fuel IH]; intros s m cell pg pay prior left src nSrc space k d Hpg Hmaps Eu Hd Hsrc Hns Hsp Hl Hfu Hpay Hpr Hdis Hpl Hprl Hpg0 Hend Hroot Hk Hlk Hn1 Hnk; [lia|].
  pose proof (wf_usable _ (pg_wf _ _ Hpg)) as Hus. pose proof (wf_pageSize _ (pg_wf _ _ Hpg)) as Hps. cbn [fill_loop].
  set (n0 := if left >? space then space else left). assert (Hn0 : n0 = Z.min left space) by (unfold n0; rewrite Z.gtb_ltb; destruct (Z.ltb_spec space left); lia).
  set (n := if (nSrc >=? n0) || (nSrc <=? 0) then n0 else nSrc).
  assert (Hn : 0 < n <= n0 /\ (0 < nSrc -> n <= nSrc)).
  { unfold n. rewrite Z.geb_leb. destruct (Z.leb_spec n0 nSrc), (Z.leb_spec nSrc 0); cbn [orb]; lia. }
  apply bt_bind. apply chunk_ok; [done|done|lia|apply Hn|]. intros b Lb Bb Gb. apply bt_bind.
  eapply bt_mono; [apply (store_ok s m cell pg pay b d Hpg Hd Hpay); [lia|done]|intros cell1 s1 (d1 & Hpg1 & Ecell & _ & Ho1 & Gd1 & Hs1 & [Eb1 Ev1] & En1)|done].
  rewrite Lb in *. assert (Gd : forall j, 0 <= j < n -> d1.[pay + j] = source src nSrc j) by (intros j Hj; by rewrite Gd1, Gb).
  assert (Hz1 : pg <> 0 -> get4 d1 0 = get4 d 0) by (intros Hne; destruct (Hend Hne) as (_ & -> & _); apply (only_get4 _ _ _ _ _ Ho1); lia).
  assert (Hmaps1 : maps s1 (put_target m pg d1) 0) by (by apply (maps_write s s1 m pg d d1 Hmaps Hs1 Ev1); [eapply target_some|]).
  assert (Ht1 : target cell1 (put_target m pg d1) pg = Some d1) by (subst cell1; apply target_put). pose proof (on_len _ _ _ _ Ho1) as L1.
  assert (Hput : forall q, q <> pg -> put_target m pg d1 !! q = m !! q) by (intros q; apply lookup_put_ne).
  destruct (Z.leb_spec (left - n) 0) as [Hfin|Hmore]; [|destruct (Z.eqb_spec (space - n) 0) as [Hfull|Hpart]].
  - apply bt_ret. exists (put_target m pg d1), [], d1. split; [done|]. split; [done|]. split; [done|]. split; [intros Hne; subst cell1; by rewrite (proj2 (Z.eqb_neq _ _) Hne)|]. split; [|split; [by split|nia]].
    constructor; try done; [apply (on_bytes _ _ _ _ Ho1)|intros j Hj Hjp Hjr; apply (on_get _ _ _ _ Ho1); lia|intros j Hj Hjs; apply Gd; lia|
      intros _; split; [lia|apply (only_get4 _ _ _ _ _ Ho1); lia]|split; constructor|intros q Hq _; by apply Hput|intros j Hj; lia].
  - assert (1 <= k) by nia. eapply (extend_ok _ s1 (put_target m pg d1) cell1 pg prior d1); try done; try lia.
    { intros Hne. destruct (Hend Hne) as (? & ? & Hz). split; [done|]. split; [done|]. by rewrite Hz1. }
    intros p s2 d2 e Hp Hp2 Hpg2 Hmaps2 He Le Ho2 Hp4 [Eb2 Ev2] Hn2. assert (Hpne : p <> pg).
    { intros ->. unfold target in Ht1. destruct (Z.eqb_spec pg 0); [lia|congruence]. }
    assert (Emm : put_target (put_target m pg d1) pg d2 = put_target m pg d2) by (unfold put_target; destruct (pg =? 0); [done|apply insert_insert_eq]).
    assert (Hpm : m !! p = None) by (by rewrite Hput in Hp). rewrite Emm in Hpg2, Hmaps2. apply bt_bind, bt_gets. rewrite Eb1 in Eb2, Le. rewrite Eb2, Eu.
    eapply bt_mono; [apply (IH s2 _ (if pg =? 0 then d2 else cell1) p 4 0 (left - n) (drop (Z.to_nat n) src) (nSrc - n) (u - 4) (k - 1) e Hpg2 Hmaps2); try lia|
      intros cell3 s3 (m3 & ps & e3 & Hpg3 & Hmaps3 & Ht3 & Hc3 & Hdone & [Eb3 Ev3] & Hn3)|done].
    + by rewrite Eb2.
    + unfold target. rewrite (proj2 (Z.eqb_neq p 0)) by lia. apply lookup_insert_eq.
    + by apply Forall_drop.
    + unfold zlen in *. rewrite length_drop. lia.
    + intros _. split; [|done]. intros ->. destruct Hroot. congruence.
    + apply lookup_insert_is_Some'. right. by apply (lookup_put _ _ _ d); [eapply target_some|].
    + exists m3, (p :: ps), d2. split; [done|]. split; [done|]. specialize (Hc3 ltac:(lia)). subst cell3.
      assert (Hm3 : m3 !! p = Some e3) by (unfold target in Ht3; by rewrite (proj2 (Z.eqb_neq p 0)) in Ht3 by lia).
      replace n with space in * by lia.
      assert (Hdone' : fill_done u m pg pay prior space left (source src nSrc) d m3 (p :: ps) d2).
      { eapply (fill_page u m pg pay prior space left (source src nSrc) d d1 d2 p e m3 ps e3); try done; try lia.
        destruct Hdone as [F1 F2 F3 F4 F5 F6 F7 F8 F9 F10 F11]. constructor; try done; [intros j Hj Hjs; rewrite F4 by done; apply source_drop; lia|].
        intros j Hj. rewrite F11 by done. apply source_drop; lia. }
      split; [|split; [|split; [exact Hdone'|split; [split; congruence|lia]]]].
      * unfold target. destruct (Z.eqb_spec pg 0) as [|Hne]; [done|]. destruct Hdone as [_ _ _ _ _ _ _ _ [_ F9] F10 _].
        rewrite F10; [|congruence|]. { rewrite lookup_insert_ne by congruence. unfold put_target. rewrite (proj2 (Z.eqb_neq _ _) Hne). apply lookup_insert_eq. }
        intros Hin. rewrite list.Forall_forall in F9. destruct (F9 pg Hin) as (F & _). rewrite lookup_insert_ne in F by congruence.
        unfold put_target in F. rewrite (proj2 (Z.eqb_neq _ _) Hne), lookup_insert_eq in F. done.
      * intros Hne. subst cell1. by rewrite (proj2 (Z.eqb_neq _ _) Hne).
  - eapply bt_mono; [apply (IH s1 (put_target m pg d1) cell1 pg (pay + n) prior (left - n) (drop (Z.to_nat n) src) (nSrc - n) (space - n) k d1 Hpg1 Hmaps1); try done; try lia|
      intros cell3 s3 (m3 & ps & d3 & Hpg3 & Hmaps3 & Ht3 & Hc3 & Hdone & [Eb3 Ev3] & Hn3)|done].
    + by rewrite Eb1.
    + by apply Forall_drop.
    + unfold zlen in *. rewrite length_drop. lia.
    + intros Hne. destruct (Hend Hne) as (? & ? & Hz). split; [done|]. split; [done|]. by rewrite Hz1.
    + by apply (lookup_put _ _ _ d); [eapply target_some|].
    + exists m3, ps, d3. split; [done|]. split; [done|]. split; [done|]. split; [intros Hne; rewrite Hc3 by done; subst cell1; by rewrite (proj2 (Z.eqb_neq _ _) Hne)|].
      split; [|split; [split; congruence|lia]]. eapply (fill_more u m (put_target m pg d1) pg pay prior space left (source src nSrc) n d d1); try done; try lia.
      destruct Hdone as [F1 F2 F3 F4 F5 F6 F7 F8 F9 F10 F11]. constructor; try done; [intros j Hj Hjs; rewrite F4 by done; apply source_drop; lia|].
      intros j Hj. rewrite F11 by done. rewrite source_drop by lia. done.
Qed.
End fill.
