(* ===== verification/BtStore.v ===== *)
(** Entries of a B-tree page and their overflow pages (btree.c): what
    [sqlite3BtreeInsert] and [sqlite3BtreeDelete] do to the page the cursor is
    at, and reading an entry back. *)
From S2P Require Import Prelude.
From S2P Require Import Bits.
From S2P Require Import Util.
From S2P Require Import Varint.
From S2P Require Import Vfs.
From S2P Require Import Mem.
From S2P Require Import Bitvec.
From S2P Require Import BtPage.
From S2P Require Import BtSpace.
From S2P Require Import BtDefrag.
From S2P Require Import BtCells.
From S2P Require Import BtList.
From S2P Require Import BtPages.
From S2P Require Import BtFree.
From S2P Require Import BtAlloc.
From S2P Require Import BtOvfl.
Open Scope Z_scope.

Section code.
Context {T : Type} {P : Pager T}.
Abbreviation Bt := (Bt T).
Abbreviation M := (M T).

(** The page [pg] as [p] knows it, with its content. *)
Definition load (pg : Z) (p : MemPage) : M MemPage := gets (fun s => set_aData (content s pg) p).

(** An operation on the bytes of the page, with its result code. *)
Definition on_page (pg : Z) (op : option (Z * MemPage)) : M MemPage :=
  let! ' (rc, p) := lift op in
  modify (set_page pg (aData p)) ;;;
  if negb (rc =? SQLITE_OK) then fail rc else ret p.

(** [pEnd] is [pSrc->aDataEnd] when [pCell] points into the page [pSrc]. *)
Definition ptrmapPutOvflPtr (pg : Z) (t : PageType) (pEnd : option Z) (buf : list Z) (pCell : Z) : M unit :=
  let! b := gets bt_shared in
  let! info := lift (parseCell b t buf pCell) in
  if nLocal info <? nPayload info then
    if (match pEnd with Some e => (pCell <=? e) && (e <? pCell + nLocal info) | None => false end) then fail SQLITE_CORRUPT
    else
      let! ovfl := lift (get4 buf (pCell + nSize info - 4)) in
      ptrmapPut ovfl PTRMAP_OVERFLOW1 pg
  else ret tt.

(** [insertCellFast], with its calls of the pager and of [ptrmapPutOvflPtr]. *)
Definition insert_cell (pg : Z) (pPage : MemPage) (temp : list Z) (i : Z) (pCell : list Z) (sz : Z) : M MemPage :=
  let! b := gets bt_shared in
  if sz + 2 >? nFree pPage then
    let! ' (_, pPage) := lift (insertCellFast b pPage temp SQLITE_OK SQLITE_OK i pCell sz) in
    ret pPage
  else
    pager_write pg ;;;
    let! pPage := load pg pPage in
    let! pPage := on_page pg (insertCellFast b pPage temp SQLITE_OK SQLITE_OK i pCell sz) in
    let! vacuum := gets autoVacuum in
    (if vacuum : bool then ptrmapPutOvflPtr pg (pgType pPage) None pCell 0 else ret tt) ;;;
    ret pPage.

Definition BTREE_CLEAR_CELL (pg : Z) (t : PageType) (pCell : Z) : M CellInfo :=
  let! b := gets bt_shared in
  let! d := gets (fun s => content s pg) in
  let! info := lift (parseCell b t d pCell) in
  (if negb (nLocal info =? nPayload info) then clearCellOverflow pg pCell info else ret tt) ;;;
  ret info.

(** [if( pPage->nFree<0 )] *)
Definition count_free (pg : Z) (pPage : MemPage) : M MemPage :=
  if nFree pPage <? 0 then
    let! b := gets bt_shared in
    let! pPage := load pg pPage in
    let! ' (rc, pPage) := lift (btreeComputeFreeSpace b pPage) in
    if negb (rc =? SQLITE_OK) then fail rc else ret pPage
  else ret pPage.

Definition set_pPage (p : MemPage) (c : BtCursor) : BtCursor :=
  mkCursor (c_pgno c) p (c_ix c) (c_info c) (c_ValidNKey c) (c_ValidOvfl c) (c_aOverflow c).
(** [pCur->info.nSize = 0] *)
Definition forget_info (c : BtCursor) : BtCursor :=
  let i := c_info c in
  mkCursor (c_pgno c) (c_pPage c) (c_ix c) (mkCellInfo (nKey i) (pPayload i) (nPayload i) (nLocal i) 0) (c_ValidNKey c) (c_ValidOvfl c) (c_aOverflow c).
Definition invalidateOverflowCache (c : BtCursor) : BtCursor :=
  mkCursor (c_pgno c) (c_pPage c) (c_ix c) (c_info c) (c_ValidNKey c) false (c_aOverflow c).
(** [idx = ++pCur->ix; pCur->curFlags &= ~BTCF_ValidNKey;] *)
Definition next_ix (c : BtCursor) : BtCursor :=
  mkCursor (c_pgno c) (c_pPage c) (u16 (c_ix c + 1)) (c_info c) false (c_ValidOvfl c) (c_aOverflow c).

(** From the place that was found on, to the call of [balance]; [newCell] is
    [pTmpSpace], [temp] the buffer of the pager. *)
Definition insert_entry (pCur : BtCursor) (pX : BtreePayload) (loc : Z) (newCell temp : list Z) : M BtCursor :=
  let pg := c_pgno pCur in
  let! pPage := count_free pg (c_pPage pCur) in
  let! ' (szNew, newCell) := fillInCell (pgType pPage) newCell pX in
  let pCur := forget_info pCur in
  if loc =? 0 then
    let idx := c_ix pCur in
    if idx >=? nCell pPage then fail SQLITE_CORRUPT
    else
      pager_write pg ;;;
      let! pPage := load pg pPage in
      let! oldCell := lift (findCell pPage idx) in
      let! newCell := (if negb (leaf (pgType pPage)) then lift (b ← mem_read (aData pPage) oldCell 4; mem_write newCell 0 b)
                       else ret newCell) in
      let! info := BTREE_CLEAR_CELL pg (pgType pPage) oldCell in
      let pCur := invalidateOverflowCache pCur in
      let! b := gets bt_shared in
      let! vacuum := gets autoVacuum in
      if (nSize info =? szNew) && (nLocal info =? nPayload info) && (negb vacuum || (szNew <? minLocal (pgType pPage))) then
        if oldCell <? hdrOffset pPage + 10 then fail SQLITE_CORRUPT
        else if oldCell + szNew >? pageSize b then fail SQLITE_CORRUPT
        else
          let! c := lift (mem_read newCell 0 szNew) in
          write_page pg oldCell c ;;;
          let! pPage := load pg pPage in
          ret (set_pPage pPage pCur)
      else
        let! pPage := load pg pPage in
        let! pPage := on_page pg (dropCell b pPage idx (nSize info) SQLITE_OK) in
        let! pPage := insert_cell pg pPage temp idx newCell szNew in
        ret (set_pPage pPage pCur)
  else
    let pCur := if (loc <? 0) && (nCell pPage >? 0) then next_ix pCur else pCur in
    let! pPage := insert_cell pg pPage temp (c_ix pCur) newCell szNew in
    ret (set_pPage pPage pCur).

(** On a leaf page, to the call of [balance]. *)
Definition delete_entry (pCur : BtCursor) : M BtCursor :=
  let pg := c_pgno pCur in
  let iCellIdx := c_ix pCur in
  if nCell (c_pPage pCur) <=? iCellIdx then fail SQLITE_CORRUPT
  else
    let! pPage := load pg (c_pPage pCur) in
    let! pCell := lift (findCell pPage iCellIdx) in
    let! pPage := (let! r := attempt (count_free pg pPage) in
                   match r with inl _ => fail SQLITE_CORRUPT | inr p => ret p end) in
    if pCell <? cellOffset pPage + nCell pPage then fail SQLITE_CORRUPT
    else
      pager_write pg ;;;
      let! info := BTREE_CLEAR_CELL pg (pgType pPage) pCell in
      let! b := gets bt_shared in
      let! pPage := load pg pPage in
      let! pPage := on_page pg (dropCell b pPage iCellIdx (nSize info) SQLITE_OK) in
      ret (set_pPage pPage pCur).

Definition sqlite3BtreeIntegerKey (pCur : BtCursor) : M (Z * BtCursor) :=
  let! pCur := getCellInfo pCur in
  ret (nKey (c_info pCur), pCur).
End code.

(** * The header of a cell *)

Definition cell_header (t : PageType) (n key : Z) : list Z := putVarint32 n ++ (if intKey t then sqlite3PutVarint (u64 key) else []).

(** Where the payload begins. *)
Definition cell_start (t : PageType) (n key : Z) : Z := childPtrSize t + zlen (cell_header t n key).

Definition key_ok (t : PageType) (n key : Z) : Prop := if intKey t then - 2 ^ 63 <= key < 2 ^ 63 else key = n.

Lemma i64_u64 x : - 2 ^ 63 <= x < 2 ^ 63 -> i64 (u64 x) = x.
Proof. intros Hx. unfold i64, u64. rewrite Zplus_mod_idemp_l, Z.mod_small; lia. Qed.

Lemma read_split buf p n h : mem_read buf p n = Some h -> drop (Z.to_nat p) buf = h ++ drop (Z.to_nat (p + n)) buf.
Proof.
  intros E. pose proof E as (Hp & Hn & Lh & _)%mem_read_inv. pose proof (zlen_nonneg h). unfold mem_read in E. destruct (_ && _ && _); [|done]. injection E as E. rewrite <- E. unfold slice.
  rewrite <- (take_drop (Z.to_nat n) (drop (Z.to_nat p) buf)) at 1. f_equal. rewrite drop_drop. f_equal. lia.
Qed.

Lemma read_part buf p n a b : mem_read buf p n = Some (a ++ b) -> mem_read buf p (zlen a) = Some a /\ mem_read buf (p + zlen a) (zlen b) = Some b.
Proof.
  intros E. pose proof E as (Hp & Hn & Lh & Hg)%mem_read_inv. rewrite zlen_app in Lh. pose proof (zlen_nonneg a). pose proof (zlen_nonneg b). split.
  - destruct (mem_read_ok buf p (zlen a)) as (x & -> & Lx & Gx); [lia..|]. f_equal. apply zget_ext; [done|]. intros j Hj. rewrite Gx, <- Hg, zget_app_l by lia. done.
  - destruct (mem_read_ok buf (p + zlen a) (zlen b)) as (x & -> & Lx & Gx); [lia..|]. f_equal. apply zget_ext; [done|]. intros j Hj.
    rewrite Gx by lia. replace (p + zlen a + j) with (p + (zlen a + j)) by lia. rewrite <- Hg, zget_app_r by lia. f_equal. lia.
Qed.

Lemma putVarint32_ok n : 0 <= n < 2 ^ 31 -> putVarint32 n = sqlite3PutVarint n /\ 1 <= zlen (sqlite3PutVarint n) <= 5.
Proof.
  intros Hn. split.
  - unfold putVarint32. rewrite u32_small by lia. destruct (Z.ltb_spec n 0x80); [rewrite varint_one, u8_small by lia|rewrite u64_small by lia]; done.
  - rewrite putVarint_len, (proj2 (Z.ltb_lt _ _)) by lia. apply (varint_len_below 5); [lia|]. change (128 ^ Z.of_nat 5) with (2 ^ 35). lia.
Qed.

Lemma key_varint k : 1 <= zlen (sqlite3PutVarint (u64 k)) <= 9.
Proof.
  pose proof (u64_range k). rewrite putVarint_len by lia. destruct (Z.ltb_spec (u64 k) (2 ^ 63)); [|lia]. apply (varint_len_below 9); [lia|].
  change (128 ^ Z.of_nat 9) with (2 ^ 63). lia.
Qed.

Lemma cell_header_len t n key : 0 <= n < 2 ^ 31 -> 1 <= zlen (cell_header t n key) <= 14.
Proof.
  intros Hn. destruct (putVarint32_ok n Hn) as [E L]. unfold cell_header. rewrite E, zlen_app. pose proof (key_varint key).
  destruct (intKey t); [lia|change (zlen (@nil Z)) with 0; lia].
Qed.

Lemma cell_header_bytes t n key : 0 <= n < 2 ^ 31 -> bytes_ok (cell_header t n key).
Proof.
  intros Hn. destruct (putVarint32_ok n Hn) as [E L]. unfold cell_header. rewrite E. apply Forall_app_2; [apply putVarint_bytes; lia|].
  pose proof (u64_range key). destruct (intKey t); [apply putVarint_bytes; lia|constructor].
Qed.

Section header.
Context (b : BtShared) (t : PageType) (Hb : bt_ok b) (Ht : type_ok b t) (Hx : xParseCell t <> pc_NoPayload).

Lemma start_range n key : 0 <= n < 2 ^ 31 -> 1 <= cell_start t n key <= 18 /\ childPtrSize t < cell_start t n key /\ 0 <= childPtrSize t.
Proof using Ht.
  intros Hn. pose proof (cell_header_len t n key Hn). unfold cell_start.
  destruct (childPtrSize_cases _ _ Ht) as [-> | ->]; lia.
Qed.

(** The parse of a cell finds what its header says. *)
Lemma parse_header buf pos n key : bytes_ok buf -> 0 <= pos -> 0 <= n < 2 ^ 31 -> key_ok t n key ->
  mem_read buf (pos + childPtrSize t) (zlen (cell_header t n key)) = Some (cell_header t n key) ->
  parseCell b t buf pos = Some (mkCellInfo key (pos + cell_start t n key) n (local b t n) (cell_size b t n (cell_start t n key))).
Proof using Hb Ht Hx.
  intros Hbuf Hpos Hn Hk Hr. destruct (putVarint32_ok n Hn) as [E L]. destruct (start_range n key Hn) as (Hs & _ & Hc). unfold parseCell.
  assert (Hps : forall p rest, 0 <= p -> drop (Z.to_nat p) buf = sqlite3PutVarint n ++ rest -> payload_size buf p = Some (n, p + zlen (sqlite3PutVarint n))).
  { intros p rest Hp Ed. rewrite (payload_size_decode buf p (zlen (sqlite3PutVarint n)) n); [by rewrite u32_small by lia|done|done| |lia].
    rewrite Ed. apply putVarint_decode. lia. }
  assert (Hsz : parse_sizes b t pos n (pos + cell_start t n key) = (local b t n, cell_size b t n (cell_start t n key))).
  { rewrite parse_sizes_ok by (done || lia). do 2 f_equal. lia. }
  pose proof (u64_range key) as Hu64.
  destruct (type_ok_cases b t Ht) as [Et|[Et|[Et|Et]]]; rewrite Et in Hx; cbn [xParseCell] in Hx; try done;
    assert (Ei : intKey t = _) by (rewrite Et; cbn [intKey]; reflexivity);
    assert (Ec : childPtrSize t = _) by (rewrite Et; cbn [childPtrSize]; reflexivity);
    assert (Ex : xParseCell t = _) by (rewrite Et; cbn [xParseCell]; reflexivity); cbn in Ei, Ec, Ex; rewrite Ex;
    unfold cell_start, cell_header, key_ok in *; rewrite Ei, Ec, E in *.
  - rewrite Z.add_0_r in Hr. apply read_part in Hr as [Hr1 Hr2]. apply read_split in Hr1, Hr2. unfold btreeParseCellPtr.
    rewrite (Hps pos _ Hpos Hr1). cbn [mbind option_bind]. rewrite parse_key_decode by (done || lia). rewrite Hr2, putVarint_decode by lia. cbn [mbind option_bind].
    rewrite zlen_app in *. replace (pos + zlen (sqlite3PutVarint n) + zlen (sqlite3PutVarint (u64 key))) with (pos + (0 + (zlen (sqlite3PutVarint n) + zlen (sqlite3PutVarint (u64 key))))) by lia.
    rewrite Hsz. do 2 f_equal. by apply i64_u64.
  - rewrite app_nil_r in *. apply read_split in Hr. unfold btreeParseCellPtrIndex. rewrite Ec, (Hps (pos + 0) _ ltac:(lia) Hr). cbn [mbind option_bind].
    replace (pos + 0 + zlen (sqlite3PutVarint n)) with (pos + (0 + zlen (sqlite3PutVarint n))) by lia. by rewrite Hsz, Hk.
  - rewrite app_nil_r in *. apply read_split in Hr. unfold btreeParseCellPtrIndex. rewrite Ec, (Hps (pos + 4) _ ltac:(lia) Hr). cbn [mbind option_bind].
    replace (pos + 4 + zlen (sqlite3PutVarint n)) with (pos + (4 + zlen (sqlite3PutVarint n))) by lia. by rewrite Hsz, Hk.
Qed.

Lemma minLocal_pos : 0 < minLocal t.
Proof using Hb Ht.
  clear Hx. pose proof (bo_size _ Hb). destruct Hb as [_ Hu Hlim].
  assert (H32 : 58 <= (usableSize b - 12) * 32 / 255 <= usableSize b).
  { split; [apply Z.div_le_lower_bound; lia|apply Z.div_le_upper_bound; lia]. }
  pose proof (f_equal bt_minLocal Hlim) as E2. pose proof (f_equal bt_minLeaf Hlim) as E4. cbn [bt_minLocal bt_minLeaf set_limits] in *. rewrite u16_small in E2, E4 by lia.
  destruct (type_ok_cases b t Ht) as [->|[->|[->| ->]]]; cbn [minLocal]; lia.
Qed.

Lemma local_pos n : maxLocal t < n -> 0 < local b t n < n.
Proof using Hb Ht.
  clear Hx. intros Hn. pose proof minLocal_pos. pose proof (limits_range _ _ Hb Ht). pose proof (local_range b t Hb Ht n ltac:(lia)). pose proof (bo_usable _ Hb). unfold local in *.
  rewrite (proj2 (Z.leb_gt _ _)) in * by done. pose proof (Z.mod_pos_bound (n - minLocal t) (usableSize b - 4) ltac:(lia)).
  destruct (_ <=? _); lia.
Qed.
End header.

(** * Replacing a cell by one of the same size *)

Lemma zupd_id {A} (l : list A) k x : l.[k] = Some x -> zupd l k x = l.
Proof. intros E. pose proof (zget_range _ _ _ E). rewrite zget_to_nat in E by lia. by apply list_insert_id. Qed.

Lemma zupd_fmap {A B} (f : A -> B) l k x : f <$> zupd l k x = zupd (f <$> l) k (f x).
Proof. apply list_fmap_insert. Qed.

Lemma zupd_ins {A} (l : list A) k x : 0 <= k < zlen l -> zupd l k x = ins k x (del k l).
Proof.
  intros Hk. unfold zupd, ins, del, zlen in *. rewrite insert_take_drop by lia.
  rewrite take_app_le by (rewrite length_take; lia). rewrite drop_app_ge by (rewrite length_take; lia). rewrite take_take, Nat.min_id, length_take.
  replace (Z.to_nat k - Z.to_nat k `min` length l)%nat with O by lia. done.
Qed.

Section replace.
Context (b : BtShared) (p : MemPage) (cs : list (list Z)) (i : Z) (c0 c : list Z) (pc : Z).
Hypothesis Hb : bt_ok b.
Hypothesis Hp : page_ok b p cs.
Hypothesis Hi : cs.[i] = Some c0.
Hypothesis Hpc : findCell p i = Some pc.
Hypothesis Hc : cell_image b (pgType p) c.
Hypothesis Hl : zlen c = zlen c0.

Lemma replace_cell_ok : exists d, mem_write (aData p) pc c = Some d /\ page_ok b (set_aData d p) (zupd cs i c) /\ BtCells.frame p (set_aData d p).
Proof using Hb Hp Hi Hpc Hc Hl.
  destruct (page_cell _ _ _ Hb Hp i c0 Hi) as (pc' & Epc & _ & Hptr & _ & Hr & _). assert (pc' = pc) as -> by congruence.
  pose proof Hp as [(top & bs & items & Ha & Ecs) Hfree Hcnt Hov Hmask Hinit Hhdr Hflag]. rewrite <- Ecs, zget_fmap in Hi.
  destruct items.[i] as [[a x]|] eqn:Ei; [|done]. cbn in Hi. injection Hi as ->. pose proof (ca_ptr _ _ _ (pa_cells _ _ _ _ _ _ Ha) _ _ _ Ei) as Hptr'.
  assert (a = pc) as -> by congruence. pose proof (zget_range _ _ _ Ei) as Hir. destruct Hc as (_ & H4 & Hcb).
  pose proof Ha as [Hty Hsp Hoff Hca Hni Hbl Himg]. pose proof (childPtrSize_cases _ _ Hty). pose proof (sp_layout _ _ _ _ _ _ Hsp) as Hlay.
  assert (Hbl' : cells bs ≡ₚ (pc, zlen c) :: blocks_of (del i items)) by (etransitivity; [exact Hbl|]; rewrite Hl; apply (blocks_of_perm _ ((pc, c0) :: del i items)), del_perm, Ei).
  destruct (cells_apart _ _ _ _ _ _ Hlay Hbl') as (Hcs & Hfs & H1 & H2 & _). pose proof (sp_hdr _ _ _ _ _ _ Hsp). pose proof (sp_u _ _ _ _ _ _ Hsp).
  destruct (mem_write_ok (aData p) pc c) as (d & E & O & G); [lia|lia|done|]. pose proof (on_len _ _ _ _ O) as L.
  assert (Hfr : BtCells.frame p (set_aData d p)).
  { constructor; try done. split; [done|]. intros j Hj. apply (on_get _ _ _ _ O); lia. }
  exists d. split; [done|]. split; [|done]. constructor; try done.
  - exists top, bs, (zupd items i (pc, c)). split; [|by rewrite zupd_fmap, Ecs]. constructor; try done.
    + cbn [set_aData hdrOffset cellOffset nCell aData]. eapply space_frame; [exact Hsp|lia|done|by apply (on_bytes _ _ _ _ O); destruct Hsp|].
      intros j Hj Hrg. apply (on_get _ _ _ _ O); [done|]. destruct Hrg as [?|[?|(a & n & Hin & Hja)]]; [cbn in *; lia|cbn in *; lia|].
      pose proof (Hfs _ Hin) as Hap. apply of_kind_elem in Hin. apply (layout_in _ _ _ _ _ _ Hlay) in Hin. destruct Hap; cbn in *; lia.
    + constructor; intros j a e Ej; cbn [set_aData aData cellOffset] in *; (destruct (decide (j = i)) as [->|Hne]; [rewrite zget_zupd_eq in Ej by lia; injection Ej as <- <-|rewrite zget_zupd_ne in Ej by lia]).
      * rewrite (only_word _ _ _ _ _ O); [done|lia|lia].
      * pose proof (zget_range _ _ _ Ej). rewrite (only_word _ _ _ _ _ O); [by eapply ca_ptr|lia|lia].
      * destruct (mem_read_ok d pc (zlen c)) as (y & -> & Ly & Gy); [lia..|]. f_equal. apply zget_ext; [done|]. intros k Hk. rewrite Gy, G by lia. f_equal. lia.
      * assert (Hin : (a, zlen e) ∈ blocks_of (del i items)).
        { apply blocks_of_elem. exists e. split; [|done]. pose proof (zget_range _ _ _ Ej). destruct (Z.lt_ge_cases j i).
          - eapply (zget_elem_of _ j). unfold del. rewrite zget_app_l, zget_take by (rewrite ?zlen_take; lia). done.
          - eapply (zget_elem_of _ (j - 1)). unfold del. rewrite zget_app_r, zlen_take by (rewrite ?zlen_take; lia).
            replace (S (Z.to_nat i)) with (Z.to_nat (i + 1)) by lia. rewrite zget_drop by lia. rewrite <- Ej. f_equal. lia. }
        rewrite (only_read _ _ _ _ _ _ O); [by eapply ca_mem|]. pose proof (Hcs _ Hin) as Hap. destruct Hap; cbn in *; lia.
    + by rewrite zlen_zupd.
    + rewrite app_nil_l. unfold blocks_of at 1. rewrite zupd_fmap. cbn [fst snd]. rewrite Hl. fold (blocks_of items). rewrite zupd_id; [done|].
      unfold blocks_of. by rewrite zget_fmap, Ei.
    + by apply Forall_zupd.
  - cbn [nFree set_aData cellOffset nCell]. rewrite Hfree. f_equal. rewrite <- Ecs. assert (Hi' : (items.*2).[i] = Some c0) by (by rewrite zget_fmap, Ei). rewrite zupd_ins by (unfold zlen in *; rewrite length_fmap; lia). rewrite (cell_bytes_perm _ _ (ins_perm _ _ _)), (cell_bytes_perm _ _ (del_perm _ _ _ Hi')).
    rewrite !cell_bytes_cons. lia.
  - cbn [set_aData aData hdrOffset nCell]. rewrite <- Hcnt. apply (only_word _ _ _ _ _ O); lia.
  - eapply (frame_flag _ p); [done|lia|done].
Qed.
End replace.

(** * Entries *)

(** What is stored, [pX] being asked for. *)
Definition entry_payload (t : PageType) (pX : BtreePayload) : list Z :=
  if intKey t then px_pData pX ++ replicate (Z.to_nat (px_nZero pX)) 0 else px_pKey pX.
Definition entry_key (t : PageType) (pX : BtreePayload) : Z := px_nKey pX.

Record entry_ok (t : PageType) (pX : BtreePayload) : Prop := {
  eo_data : bytes_ok (px_pData pX);
  eo_pKey : bytes_ok (px_pKey pX);
  eo_nZero : 0 <= px_nZero pX;
  eo_size : zlen (entry_payload t pX) < 2 ^ 31;
  eo_key : key_ok t (zlen (px_pKey pX)) (px_nKey pX);
}.

(** The bytes [c] of a cell: its header, and its payload with the overflow pages
    [ps]. *)
Record entry_cell (b : BtShared) (t : PageType) (m : gmap Z (list Z)) (c : list Z) (key : Z) (payload ps : list Z) : Prop := {
  ec_bytes : bytes_ok c;
  ec_header : mem_read c (childPtrSize t) (zlen (cell_header t (zlen payload) key)) = Some (cell_header t (zlen payload) key);
  ec_size : zlen c = cell_size b t (zlen payload) (cell_start t (zlen payload) key);
  ec_stored : stored (usableSize b) m c (cell_start t (zlen payload) key) (local b t (zlen payload)) ps payload;
  ec_max : zlen payload < 2 ^ 31;
  ec_key : key_ok t (zlen payload) key;
}.

Section fillin.
Context {T : Type} {P : Pager T} {R : Root}.
Abbreviation Bt := (Bt T).

Lemma entry_source t pX j : entry_ok t pX -> 0 <= j < zlen (entry_payload t pX) ->
  (entry_payload t pX).[j] = source (if intKey t then px_pData pX else px_pKey pX) (if intKey t then zlen (px_pData pX) else i32 (px_nKey pX)) j.
Proof using.
  intros [Hd Hk Hz Hs Hkey] Hj. unfold entry_payload, source, key_ok in *. destruct (intKey t).
  - destruct (Z.ltb_spec j (zlen (px_pData pX))); [by rewrite zget_app_l|]. rewrite zget_app_r by lia. rewrite zlen_app, zlen_replicate in Hj. apply zget_replicate. lia.
  - rewrite Hkey, i32_small by lia. by rewrite (proj2 (Z.ltb_lt _ _)) by lia.
Qed.

(** The local payload with its header, and the same with the number of the first
    overflow page. *)
Lemma entry_cell_intro b t m cell sz key payload ps : bt_ok b -> type_ok b t -> bytes_ok cell -> zlen payload < 2 ^ 31 -> key_ok t (zlen payload) key ->
  sz = cell_size b t (zlen payload) (cell_start t (zlen payload) key) -> sz <= zlen cell ->
  mem_read cell (childPtrSize t) (zlen (cell_header t (zlen payload) key)) = Some (cell_header t (zlen payload) key) ->
  stored (usableSize b) m cell (cell_start t (zlen payload) key) (local b t (zlen payload)) ps payload -> (ps <> [] -> maxLocal t < zlen payload) ->
  entry_cell b t m (take (Z.to_nat sz) cell) key payload ps.
Proof using.
  intros Hb Ht Hc Hmax Hk Esz Hsz Hh [Hpay Hnl Hloc Hcount Hfirst Hrest Hnd] Hps. pose proof (zlen_nonneg payload).
  destruct (start_range b t Ht (zlen payload) key) as (Hs & Hs2 & Hc0); [lia|]. pose proof (cell_size_range b t Hb Ht (zlen payload) _ ltac:(lia) Hs) as Hr.
  assert (L : zlen (take (Z.to_nat sz) cell) = sz) by (apply zlen_take; lia).
  assert (Hin : cell_start t (zlen payload) key + local b t (zlen payload) <= sz /\ (ps <> [] -> cell_start t (zlen payload) key + local b t (zlen payload) + 4 <= sz)).
  { rewrite Esz. unfold cell_size. destruct (Z.leb_spec (zlen payload) (maxLocal t)); [|lia]. unfold local. rewrite (proj2 (Z.leb_le _ _)) by lia.
    split; [lia|]. intros Hne. specialize (Hps Hne). lia. }
  assert (G : forall j, j < sz -> (take (Z.to_nat sz) cell).[j] = cell.[j]) by (intros j Hj; by apply zget_take).
  constructor; try done.
  - by apply Forall_take.
  - apply (mem_read_move cell _ _ _ _ _ Hh); [lia|unfold cell_start in *; lia|]. intros j Hj. apply G. unfold cell_start in *. lia.
  - lia.
  - constructor; try done; [lia|intros j Hj; rewrite G by lia; by apply Hloc|]. intros Hne. destruct (Hfirst Hne) as (first & Hf & Hch). exists first. split; [|done].
    destruct Hin as [_ Hin]. specialize (Hin Hne). rewrite <- Hf. unfold get4. f_equal. destruct (mem_read_ok cell (cell_start t (zlen payload) key + local b t (zlen payload)) 4) as (x & Ex & _); [lia..|].
    rewrite Ex. apply (mem_read_move cell _ _ _ _ _ Ex); [lia|lia|]. intros j Hj. apply G. lia.
Qed.

(** The database pages that storing a payload of [n] bytes may add. *)
Definition page_cost (n : Z) : Z := 4 * (n / 476 + 1).

Definition entry_src (t : PageType) (pX : BtreePayload) : list Z := if intKey t then px_pData pX else px_pKey pX.
Definition entry_nSrc (t : PageType) (pX : BtreePayload) : Z := if intKey t then zlen (px_pData pX) else i32 (px_nKey pX).

Lemma entry_nSrc_ok t pX : entry_ok t pX -> entry_nSrc t pX = zlen (entry_src t pX) /\ entry_nSrc t pX <= zlen (entry_payload t pX) /\ bytes_ok (entry_src t pX) /\
  (if intKey t then (i32 (zlen (px_pData pX) + px_nZero pX), px_pData pX, zlen (px_pData pX)) else (i32 (px_nKey pX), px_pKey pX, i32 (px_nKey pX))) =
    (zlen (entry_payload t pX), entry_src t pX, entry_nSrc t pX).
Proof using.
  intros [Hd Hk Hz Hs Hkey]. pose proof (zlen_nonneg (px_pData pX)). pose proof (zlen_nonneg (px_pKey pX)).
  unfold entry_nSrc, entry_src, entry_payload, key_ok in *. destruct (intKey t).
  - rewrite zlen_app, zlen_replicate in *. rewrite Z2Nat.id in * by lia. rewrite i32_small by lia. repeat split; done || lia.
  - rewrite Hkey, i32_small by lia. repeat split; done || lia.
Qed.

(** The cell and the pages that [fillInCell] makes. *)
Definition filled_in (s : Bt) (m : gmap Z (list Z)) (t : PageType) (pX : BtreePayload) (cell : list Z) (r : Z * list Z) (s' : Bt) : Prop :=
  let '(sz, cell') := r in exists m' ps, pages s' m' /\ maps s' m' 0 /\
    entry_cell (bt_shared s) t m' (take (Z.to_nat sz) cell') (entry_key t pX) (entry_payload t pX) ps /\ (ps <> [] <-> maxLocal t < zlen (entry_payload t pX)) /\
    sz = cell_size (bt_shared s) t (zlen (entry_payload t pX)) (cell_start t (zlen (entry_payload t pX)) (entry_key t pX)) /\
    zlen cell' = zlen cell /\ bytes_ok cell' /\ (forall q, ~ (q ∈ ps) -> m' !! q = m !! q) /\ Forall (fun p => m !! p = None) ps /\
    same_db s s' /\ nPage s <= nPage s' <= nPage s + page_cost (zlen (entry_payload t pX)).

Lemma fillInCell_ok s m t pX cell : pages s m -> maps s m 0 -> bt_ok (bt_shared s) -> type_ok (bt_shared s) t -> xParseCell t <> pc_NoPayload -> entry_ok t pX ->
  bytes_ok cell -> usableSize (bt_shared s) <= zlen cell -> is_Some (m !! root) -> 1 <= nPage s -> nPage s + page_cost (zlen (entry_payload t pX)) < 2 ^ 32 - 20 ->
  wp (fillInCell t cell pX) s (filled_in s m t pX cell) (fun rc _ => ~ QuietPager T).
Proof using.
  intros Hpg Hmaps Hb Ht Hx He Hc Hl Hroot Hn1 Hn. destruct (entry_nSrc_ok t pX He) as (Ens & Hns & Hsrc & Eq). pose proof (entry_source t pX) as Hes.
  fold (entry_src t pX) (entry_nSrc t pX) in Hes. unfold fillInCell. rewrite Eq. pose proof He as [_ _ _ Hmax Hkey]. set (n := zlen (entry_payload t pX)) in *.
  assert (Hn0 : 0 <= n < 2 ^ 31) by (split; [apply zlen_nonneg|done]). set (key := px_nKey pX) in *. cbv zeta. change (putVarint32 n ++ _) with (cell_header t n key).
  change (childPtrSize t + zlen (cell_header t n key)) with (cell_start t n key).
  destruct (start_range _ t Ht n key Hn0) as (Hs & Hs2 & Hc0). pose proof (cell_size_range _ t Hb Ht n _ ltac:(lia) Hs) as Hr. pose proof (limits_range _ _ Hb Ht) as Hlim.
  pose proof (cell_header_len t n key Hn0) as Hhl. pose proof (bo_usable _ Hb) as Hus. pose proof (bo_size _ Hb) as Hps.
  destruct (mem_write_ok cell (childPtrSize t) (cell_header t n key)) as (c1 & E1 & O1 & G1); [lia|unfold cell_start in *; lia|by apply cell_header_bytes|].
  apply bt_bind. eapply bt_lift; [exact E1|]. pose proof (on_len _ _ _ _ O1) as L1. pose proof (on_bytes _ _ _ _ O1 Hc) as B1.
  assert (Hhdr : forall c2, zlen c2 = zlen c1 -> (forall j, 0 <= j < cell_start t n key -> c2.[j] = c1.[j]) ->
    mem_read c2 (childPtrSize t) (zlen (cell_header t n key)) = Some (cell_header t n key)).
  { intros c2 L2 G2. destruct (mem_read_ok c2 (childPtrSize t) (zlen (cell_header t n key))) as (x & -> & Lx & Gx); [lia|lia|unfold cell_start in *; lia|].
    f_equal. apply zget_ext; [done|]. intros j Hj. rewrite Gx, G2, G1 by (unfold cell_start in *; lia). f_equal. lia. }
  assert (Hk : key_ok t n key) by (unfold key_ok, n, entry_payload in *; by destruct (intKey t)).
  assert (Hcost : 0 <= page_cost n) by (unfold page_cost; pose proof (Z.div_pos n 476); lia).
  destruct (Z.leb_spec n (maxLocal t)) as [Hfit|Hbig].
  - destruct (mem_read_ok (entry_src t pX) 0 (entry_nSrc t pX)) as (x & Ex & Lx & Gx); [lia|rewrite Ens; apply zlen_nonneg|lia|].
    pose proof (zlen_nonneg x). apply bt_bind. eapply bt_lift; [exact Ex|]. set (bs := x ++ replicate (Z.to_nat (n - entry_nSrc t pX)) 0).
    assert (Lb : zlen bs = n) by (unfold bs; rewrite zlen_app, zlen_replicate; lia).
    assert (Esz : Z.max 4 (cell_start t n key + n) = cell_size (bt_shared s) t n (cell_start t n key)).
    { unfold cell_size. rewrite (proj2 (Z.leb_le _ _)) by done. lia. }
    destruct (mem_write_ok c1 (cell_start t n key) bs) as (c2 & E2 & O2 & G2); [lia|lia|unfold bs; apply Forall_app_2; [exact (mem_read_bytes _ _ _ _ Hsrc Ex)|apply Forall_replicate; unfold byte_ok; lia]|].
    apply bt_bind. eapply bt_lift; [exact E2|]. apply bt_ret. pose proof (on_len _ _ _ _ O2) as L2. exists m, [].
    assert (Hloc : local (bt_shared s) t n = n) by (unfold local; by rewrite (proj2 (Z.leb_le _ _))).
    split; [done|]. split; [done|]. split; [|split; [split; [done|lia]|split; [done|split; [lia|split; [by apply (on_bytes _ _ _ _ O2)|split; [done|split; [by apply list.Forall_nil|split; [done|fold n; lia]]]]]]]].
    apply entry_cell_intro; try done; [by apply (on_bytes _ _ _ _ O2)|lia|apply Hhdr; [done|intros j Hj; apply (on_get _ _ _ _ O2); lia]|].
    fold n. change (entry_key t pX) with key. rewrite Hloc. constructor; [lia|fold n; lia| |fold n; change (zlen (@nil Z)) with 0; lia|done|fold n; lia|constructor].
    intros j Hj. rewrite G2 by lia. replace (cell_start t n key + j - cell_start t n key) with j by lia. rewrite (Hes j He) by (fold n; lia). unfold source, bs.
    destruct (Z.ltb_spec j (entry_nSrc t pX)); [rewrite zget_app_l, Gx by lia; done|]. rewrite zget_app_r by lia. apply zget_replicate. lia.
  - apply bt_bind, bt_gets. rewrite (u32_small (usableSize _ - 4)) by lia. destruct (surplus_eq _ t Hb Ht n) as [Esur Hsur]; [lia|]. rewrite Esur, i32_small by lia.
    assert (Eloc : (if minLocal t + (n - minLocal t) mod (usableSize (bt_shared s) - 4) >? maxLocal t then minLocal t
                    else minLocal t + (n - minLocal t) mod (usableSize (bt_shared s) - 4)) = local (bt_shared s) t n).
    { unfold local. rewrite (proj2 (Z.leb_gt n _)) by done. rewrite Z.gtb_ltb, Z.ltb_antisym. by destruct (_ <=? maxLocal t). }
    rewrite Eloc. pose proof (local_pos _ t Hb Ht n Hbig) as Hlp. pose proof (local_range _ t Hb Ht n ltac:(lia)) as Hlr.
    assert (Esz : cell_size (bt_shared s) t n (cell_start t n key) = local (bt_shared s) t n + cell_start t n key + 4).
    { unfold cell_size. by rewrite (proj2 (Z.leb_gt _ _)) by done. }
    apply bt_bind. eapply bt_mono; [apply (fill_loop_ok (usableSize (bt_shared s)) _ s m c1 0 (cell_start t n key) (cell_start t n key + local (bt_shared s) t n) n
        (entry_src t pX) (entry_nSrc t pX) (local (bt_shared s) t n) (n / 476 + 1) c1 Hpg Hmaps); try done; try lia|
      intros c2 s2 (m2 & ps & d2 & Hpg2 & Hmaps2 & Hd2 & _ & [F1 F2 F3 F4 F5 F6 F7 F8 [F9 F9'] F10 F11] & Hsd & Hn2)|done].
    + pose proof (Z.div_pos n 476 ltac:(lia)). lia.
    + pose proof (Z.div_mod n 476 ltac:(lia)). pose proof (Z.mod_pos_bound n 476 ltac:(lia)). assert (0 <= n / 476) by (apply Z.div_pos; lia). nia.
    + cbn in Hd2. injection Hd2 as <-. apply bt_ret. exists m2, ps. specialize (F2 B1). fold n in F4, F5, F6, F7, F11.
      assert (Hne : ps <> []) by (intros ->; destruct (F5 eq_refl); lia). destruct (F6 Hne) as [F6' _].
      split; [done|]. split; [done|]. split; [|split; [split; [done|done]|split; [change (entry_key t pX) with key; fold n; lia|split; [lia|split; [done|split; [|split; [|split; [done|]]]]]]]].
      * apply entry_cell_intro; try done; [lia|apply Hhdr; [done|intros j Hj; apply F3; lia]|].
        fold n. change (entry_key t pX) with key. constructor; fold n; try lia; try done.
        -- intros j Hj. rewrite F4 by lia. symmetry. apply Hes; [done|fold n; lia].
        -- by apply F7.
        -- intros _. eexists. split; [exact F6'|done].
        -- intros j Hj. rewrite F11 by lia. symmetry. apply Hes; [done|fold n; lia].
      * intros q Hq. destruct (decide (q = 0)) as [->|Hq0]; [|by apply F10].
        destruct (m2 !! 0) eqn:E0; [destruct (pg_use _ _ Hpg2 _ _ E0) as [[? _] _]; lia|]. destruct (m !! 0) eqn:E0'; [destruct (pg_use _ _ Hpg _ _ E0') as [[? _] _]; lia|done].
      * eapply List.Forall_impl; [|exact F9']. by intros p (? & _).
      * unfold page_cost. fold n. lia.
Qed.

(** * A page of entries *)

(** An entry of a page: what was stored, and where. *)
Record Entry := mkEntry {
  e_key : Z;
  e_payload : list Z;
  e_cell : list Z;
  e_pages : list Z;
}.

Definition entry_at (b : BtShared) (t : PageType) (m : gmap Z (list Z)) (e : Entry) : Prop :=
  entry_cell b t m (e_cell e) (e_key e) (e_payload e) (e_pages e) /\ (e_pages e <> [] <-> maxLocal t < zlen (e_payload e)).

(** The pages of the entries. *)
Definition entry_pages (es : list Entry) : list Z := mjoin (e_pages <$> es).

(** The leaf page [root], known as [p]; and with the entries [es], which have
    overflow pages of their own. *)
Record root_page (s : Bt) (m : gmap Z (list Z)) (p : MemPage) : Prop := {
  rp_pages : pages s m;
  rp_maps : maps s m 0;
  rp_shared : bt_ok (bt_shared s);
  rp_content : m !! root = Some (aData p);
  rp_leaf : leaf (pgType p) = true;
}.

Record leaf_page (s : Bt) (m : gmap Z (list Z)) (p : MemPage) (es : list Entry) : Prop := {
  lp_root : root_page s m p;
  lp_page : page_ok (bt_shared s) p (e_cell <$> es);
  lp_entries : Forall (entry_at (bt_shared s) (pgType p) m) es;
  lp_own : NoDup (root :: entry_pages es) /\ Forall (fun q => is_Some (m !! q)) (entry_pages es);
}.

Lemma leaf_types b p cs : page_ok b p cs -> leaf (pgType p) = true -> type_ok b (pgType p) /\ xParseCell (pgType p) <> pc_NoPayload /\ childPtrSize (pgType p) = 0.
Proof using.
  intros [(top & bs & items & Ha & _) _ _ _ _ _ _ _] Hl. pose proof (pa_type _ _ _ _ _ _ Ha) as Ht. split; [done|].
  destruct (type_ok_cases _ _ Ht) as [E|[E|[E|E]]]; rewrite E in *; done.
Qed.

(** ** Moving and keeping what is stored *)

Lemma stored_move u m c d pc pay nl ps payload : mem_read d pc (zlen c) = Some c -> stored u m c pay nl ps payload -> stored u m d (pc + pay) nl ps payload.
Proof using.
  intros (Hpc & Hl & _ & Hg)%mem_read_inv [Hpay Hnl Hloc Hcount Hfirst Hrest Hnd]. constructor; try done; [lia|intros j Hj; rewrite <- Hloc by done; rewrite Hg by lia; f_equal; lia|].
  intros Hne. destruct (Hfirst Hne) as (first & Hf & Hch). exists first. split; [|done]. rewrite <- Hf. destruct (get4_inv _ _ _ Hf) as [H0 H4].
  unfold get4. f_equal. destruct (mem_read_ok c (pay + nl) 4) as (x & Ex & _); [lia..|]. rewrite Ex. apply (mem_read_move c _ _ _ _ _ Ex); [lia|lia|].
  intros j Hj. rewrite Hg by lia. f_equal. lia.
Qed.

Lemma stored_ext u m m' buf pay nl ps payload : (forall q, q ∈ ps -> m' !! q = m !! q) -> stored u m buf pay nl ps payload -> stored u m' buf pay nl ps payload.
Proof using.
  intros Hm [Hpay Hnl Hloc Hcount Hfirst Hrest Hnd]. constructor; try done.
  - intros Hne. destruct (Hfirst Hne) as (first & Hf & Hch). exists first. split; [done|]. by eapply chain_ext.
  - intros j Hj. by rewrite (chain_bytes_ext u m m' ps Hm), Hrest.
Qed.

Lemma entry_at_ext b t m m' e : (forall q, q ∈ e_pages e -> m' !! q = m !! q) -> entry_at b t m e -> entry_at b t m' e.
Proof using. intros Hm [[? ? ? Hs ? ?] Hp]. split; [|done]. constructor; try done. by eapply stored_ext. Qed.

Lemma entry_in es e q : e ∈ es -> q ∈ e_pages e -> q ∈ entry_pages es.
Proof using. intros He Hq. unfold entry_pages. rewrite list_elem_of_join. exists (e_pages e). split; [done|]. by apply list_elem_of_fmap_2. Qed.

Lemma entries_ext b t m m' es : (forall q, q ∈ entry_pages es -> m' !! q = m !! q) -> Forall (entry_at b t m) es -> Forall (entry_at b t m') es.
Proof using.
  rewrite !list.Forall_forall. intros Hm Hes e He. eapply entry_at_ext; [|by apply Hes]. intros q Hq. apply Hm. by eapply entry_in.
Qed.

Lemma entry_pages_perm es es' : es ≡ₚ es' -> entry_pages es ≡ₚ entry_pages es'.
Proof using. intros E. unfold entry_pages. by rewrite E. Qed.

(** ** The cell of an entry on the page *)

Lemma leaf_cell s m p es i e : leaf_page s m p es -> es.[i] = Some e ->
  exists pc info, findCell p i = Some pc /\ 0 <= pc /\ cellOffset p + 2 * nCell p <= pc /\ pc + zlen (e_cell e) <= usableSize (bt_shared s) /\
    parseCell (bt_shared s) (pgType p) (aData p) pc = Some info /\ nKey info = e_key e /\ nPayload info = zlen (e_payload e) /\ nSize info = zlen (e_cell e) /\
    stored (usableSize (bt_shared s)) m (aData p) (pPayload info) (nLocal info) (e_pages e) (e_payload e) /\
    pPayload info + nLocal info <= pc + zlen (e_cell e) /\ zlen (e_payload e) < 2 ^ 31 /\
    (nLocal info = nPayload info <-> e_pages e = []) /\ (e_pages e <> [] -> pc + nSize info = pPayload info + nLocal info + 4).
Proof using.
  intros [[Hpg Hmaps Hb Hc Hl] Hp Hes _] Hi. destruct (leaf_types _ _ _ Hp Hl) as (Ht & Hx & Hc0). destruct (content_len s root (pg_wf _ _ Hpg)) as [_ Bd].
  destruct (pg_use _ _ Hpg _ _ Hc) as [_ Ec]. rewrite Ec in Bd.
  destruct (Forall_zget _ _ _ _ Hes Hi) as [[Hcb Hh Hsz Hst Hmax Hk] Hps]. assert (Hic : (e_cell <$> es).[i] = Some (e_cell e)) by (by rewrite zget_fmap, Hi).
  destruct (page_cell _ _ _ Hb Hp i (e_cell e) Hic) as (pc & Hpc & Hpc0 & _ & _ & Hr & _ & Hlo & Hhi). pose proof (zlen_nonneg (e_payload e)).
  destruct (start_range _ _ Ht (zlen (e_payload e)) (e_key e)) as (Hs & Hs2 & _); [lia|].
  exists pc. eexists. split; [done|]. split; [done|]. split; [done|]. split; [done|]. split.
  { apply (parse_header _ _ Hb Ht Hx (aData p) pc (zlen (e_payload e)) (e_key e)); [done|done|lia|done|].
    destruct (mem_read_inv _ _ _ _ Hh) as (_ & Hn & _). pose proof Hr as (_ & Hl2 & _ & Hg)%mem_read_inv. apply (mem_read_move (e_cell e) _ _ _ _ _ Hh); [lia|lia|].
    intros j Hj. rewrite Hg by lia. f_equal. lia. }
  cbn [nKey nPayload nSize pPayload nLocal]. split; [done|]. split; [done|]. split; [done|]. split; [by eapply stored_move|].
  assert (Hin : (e_pages e <> [] -> zlen (e_cell e) = local (bt_shared s) (pgType p) (zlen (e_payload e)) + cell_start (pgType p) (zlen (e_payload e)) (e_key e) + 4) /\
    (e_pages e = [] -> local (bt_shared s) (pgType p) (zlen (e_payload e)) = zlen (e_payload e) /\ zlen (e_payload e) + cell_start (pgType p) (zlen (e_payload e)) (e_key e) <= zlen (e_cell e))).
  { rewrite Hsz. unfold cell_size. destruct (Z.leb_spec (zlen (e_payload e)) (maxLocal (pgType p))).
    - split; [intros Hne%Hps; lia|]. intros _. unfold local. rewrite (proj2 (Z.leb_le _ _)) by done. lia.
    - split; [done|]. intros E. exfalso. assert (Hf : e_pages e <> []) by (apply Hps; lia). done. }
  destruct Hin as [Hin1 Hin2]. destruct (decide (e_pages e = [])) as [E|E].
  - destruct (Hin2 E). split; [lia|]. split; [done|]. split; [split; [done|lia]|done].
  - specialize (Hin1 E). split; [lia|]. split; [done|]. split; [|intros _; lia]. split; [|done]. intros El.
    pose proof (local_pos _ _ Hb Ht (zlen (e_payload e)) (proj1 Hps E)). lia.
Qed.

(** ** Writing the page *)

Lemma maps_root (s s' : Bt) m d : maps s m 0 -> is_Some (m !! root) -> same_map s s' m -> autoVacuum s' = autoVacuum s -> maps s' (<[root := d]> m) 0.
Proof using.
  intros Hm Hr Hs Ev Hv g Hg Hx. rewrite Ev in Hv. assert (Hgm : is_Some (m !! g)) by (by apply lookup_insert_is_Some' in Hg as [<-|?]).
  destruct (Hm Hv g Hgm Hx) as (ty & par & H1 & H2 & H3 & H4). destruct (Hs Hv g Hgm) as [-> ->]. exists ty, par. split; [done|]. split; [done|]. split; [done|].
  intros E. destruct (H4 E) as (Hne & d0 & Hd0 & Hg0). split; [done|]. exists d0. by rewrite lookup_insert_ne.
Qed.

Lemma leaf_same (s s' : Bt) m p es : leaf_page s m p es -> pages s' m -> maps s' m 0 -> bt_shared s' = bt_shared s -> leaf_page s' m p es.
Proof using. intros [[Hpg Hmaps Hb Hc Hl] Hp Hes Ho] H1 H2 H3. constructor; rewrite ?H3; try done. constructor; rewrite ?H3; done. Qed.

Lemma leaf_edits (s s' : Bt) m p es : edits (fun _ => False) s s' -> leaf_page s m p es -> leaf_page s' m p es.
Proof using.
  intros He Hlp. eapply leaf_same; [done|eapply pages_edits; [done|apply Hlp]|eapply maps_edits; [done|apply Hlp]|by eapply edits_shared].
Qed.

Lemma leaf_write s m p p' es : root_page s m p -> page_ok (bt_shared s) p' (e_cell <$> es) -> BtCells.frame p p' ->
  Forall (entry_at (bt_shared s) (pgType p) m) es -> NoDup (root :: entry_pages es) -> Forall (fun q => is_Some (m !! q)) (entry_pages es) ->
  leaf_page (set_page root (aData p') s) (<[root := aData p']> m) p' es /\ same_db s (set_page root (aData p') s).
Proof using.
  intros [Hpg Hmaps Hb Hc Hl] Hp' [[L _] _ _ Ety] Hes Hnd Hin. destruct (pg_use _ _ Hpg _ _ Hc) as [_ Ec].
  destruct (content_len s root (pg_wf _ _ Hpg)) as [Lc _]. rewrite Ec in Lc. destruct (po_at _ _ _ Hp') as (top & bs & items & Ha & _).
  pose proof (pa_space _ _ _ _ _ _ Ha) as [_ _ Hbd _ _ _ _ _].
  destruct (set_pages s m root (aData p') Hpg) as [Hpg' Hsm]; [by rewrite Hc|by rewrite L|done|]. apply list.NoDup_cons in Hnd as [Hni Hnd]. split; [|done].
  constructor; try done; [constructor; try done; [by apply (maps_root s)|by rewrite lookup_insert_eq|by rewrite Ety]| |split].
  - rewrite Ety. cbn [bt_shared set_page]. eapply entries_ext; [|exact Hes]. intros q Hq. apply lookup_insert_ne. by intros <-.
  - by apply list.NoDup_cons.
  - eapply List.Forall_impl; [|exact Hin]. intros q Hq. apply lookup_insert_is_Some'. by right.
Qed.

Lemma load_ok s m p Q E : root_page s m p -> Q p s -> wp (load root p) s Q E.
Proof using.
  intros Hlp HQ. apply bt_gets. destruct (pg_use _ _ (rp_pages _ _ _ Hlp) _ _ (rp_content _ _ _ Hlp)) as [_ ->]. by destruct p.
Qed.

Lemma on_page_ok pg op (s : Bt) p Q E : op = Some (SQLITE_OK, p) -> Q p (set_page pg (aData p) s) -> wp (on_page pg op) s Q E.
Proof using. intros -> HQ. apply bt_bind. eapply bt_lift; [done|]. cbv beta iota. apply bt_bind, bt_modify. by apply bt_ret. Qed.

Lemma entry_image b t m e : bt_ok b -> type_ok b t -> xParseCell t <> pc_NoPayload -> entry_at b t m e -> cell_image b t (e_cell e).
Proof using.
  intros Hb Ht Hx [[Hcb Hh Hsz Hst Hmax Hk] _]. pose proof (zlen_nonneg (e_payload e)). destruct (start_range _ _ Ht (zlen (e_payload e)) (e_key e)) as (Hs & Hs2 & _); [lia|].
  assert (Hpar := parse_header _ _ Hb Ht Hx (e_cell e) 0 (zlen (e_payload e)) (e_key e) Hcb ltac:(lia) ltac:(lia) Hk). specialize (Hpar Hh).
  destruct (parse_cell_ok _ _ Hb Ht _ _ _ Hcb (Z.le_refl 0) Hpar) as (n & En & [Hn1 Hn2 _ _]). cbn [nSize] in Hn1. split; [by rewrite En, Hn1, Hsz|split; [lia|done]].
Qed.

Lemma insertCellFast_part b p temp i cell sz c : mem_read cell 0 sz = Some c -> sz + 2 <= nFree p ->
  insertCellFast b p temp SQLITE_OK SQLITE_OK i cell sz = insertCellFast b p temp SQLITE_OK SQLITE_OK i c (zlen c).
Proof using.
  intros Hr Hroom. pose proof Hr as (_ & _ & Lc & _)%mem_read_inv. rewrite Lc. unfold insertCellFast.
  rewrite Z.gtb_ltb, (proj2 (Z.ltb_ge _ _)) by lia. rewrite Hr, mem_read_all by done. done.
Qed.

Lemma bt_write_page_init p (s : Bt) Q : (forall t, edits (fun _ => False) s (set_pager t s) -> Q tt (set_pager t s)) -> wp (pager_write p) s Q (fun rc _ => ~ QuietPager T).
Proof using.
  intros HQ. eapply bt_mono; [apply (bt_write False (fun _ => True) s p s Q); [apply frame_refl|]|done|intros rc s1 _ [_ Hq] Hqp; by destruct (Hq Hqp)].
  intros t _. apply HQ, edits_pager.
Qed.

(** The first overflow page of a cell gets its entry in the pointer map. *)
Lemma ptrmapPutOvflPtr_ok s m p es cell e : leaf_page s m p es -> entry_at (bt_shared s) (pgType p) m e -> mem_read cell 0 (zlen (e_cell e)) = Some (e_cell e) -> bytes_ok cell ->
  autoVacuum s = true -> Forall (fun q => is_Some (m !! q)) (e_pages e) ->
  wp (ptrmapPutOvflPtr root (pgType p) None cell 0) s (fun _ s' => leaf_page s' m p es /\ same_db s s' /\ nPage s' = nPage s) (fun rc _ => ~ QuietPager T).
Proof using.
  intros Hlp [[Hcb Hh Hsz Hst Hmax Hk] Hps] Hr Hcell Hv Hin. pose proof Hlp as [[Hpg Hmaps Hb Hc Hl] Hp Hes Ho]. destruct (leaf_types _ _ _ Hp Hl) as (Ht & Hx & Hc0).
  pose proof (zlen_nonneg (e_payload e)). pose proof Hr as (_ & Hl2 & _ & Hg)%mem_read_inv. destruct (start_range _ _ Ht (zlen (e_payload e)) (e_key e)) as (Hs & Hs2 & _); [lia|].
  unfold ptrmapPutOvflPtr. apply bt_bind, bt_gets, bt_bind. eapply bt_lift.
  { apply (parse_header _ _ Hb Ht Hx cell 0 (zlen (e_payload e)) (e_key e)); [done|lia|lia|done|].
    destruct (mem_read_inv _ _ _ _ Hh) as (_ & Hn & _). apply (mem_read_move (e_cell e) _ _ _ _ _ Hh); [lia|lia|]. intros j Hj. rewrite Hg by lia. f_equal. }
  cbn [nPayload nLocal nSize]. destruct (decide (e_pages e = [])) as [E|E].
  { assert (Hle : zlen (e_payload e) <= maxLocal (pgType p)) by (destruct (Z.le_gt_cases (zlen (e_payload e)) (maxLocal (pgType p))) as [|Hgt]; [done|exfalso; apply Hps in Hgt; done]).
    unfold local. rewrite (proj2 (Z.leb_le _ _)) by done. rewrite Z.ltb_irrefl. by apply bt_ret. }
  pose proof (proj1 Hps E) as Hbig. pose proof (local_pos _ _ Hb Ht _ Hbig). rewrite (proj2 (Z.ltb_lt _ _)) by lia. cbv iota.
  pose proof (stored_move _ _ _ cell 0 _ _ _ _ Hr Hst) as Hst'. destruct (so_first _ _ _ _ _ _ _ Hst' E) as (first & Hf & Hch).
  assert (Esz : cell_size (bt_shared s) (pgType p) (zlen (e_payload e)) (cell_start (pgType p) (zlen (e_payload e)) (e_key e)) =
    local (bt_shared s) (pgType p) (zlen (e_payload e)) + cell_start (pgType p) (zlen (e_payload e)) (e_key e) + 4).
  { unfold cell_size. by rewrite (proj2 (Z.leb_gt _ _)) by done. }
  apply bt_bind. eapply bt_lift.
  { rewrite Esz. replace (0 + (local (bt_shared s) (pgType p) (zlen (e_payload e)) + cell_start (pgType p) (zlen (e_payload e)) (e_key e) + 4) - 4) with
      (0 + cell_start (pgType p) (zlen (e_payload e)) (e_key e) + local (bt_shared s) (pgType p) (zlen (e_payload e))) by lia. exact Hf. }
  assert (Hfm : is_Some (m !! first)).
  { destruct (e_pages e) as [|q ps]; [done|]. destruct Hch as [-> _]. by apply Forall_cons_1 in Hin as [? _]. }
  destruct (pg_use _ _ Hpg _ _ Hc) as [[Hroot _] _].
  eapply bt_mono; [apply (put_pages s m first PTRMAP_OVERFLOW1 root Hpg Hfm Hv); [done|]|intros _ s' (Hpg' & H1 & H2 & H3 & H4 & H5 & H6)|done].
  { assert (Ho1 : root < 2 ^ 32); [|lia]. destruct (pg_use _ _ Hpg _ _ Hc) as [[_ Hor] _]. destruct (Hor Hv) as [? _]. lia. }
  split; [|done]. eapply leaf_same; [done|done| |done]. intros Hv' g Hg' Hx'. destruct (decide (g = first)) as [->|Hne].
  - exists PTRMAP_OVERFLOW1, root. by split_and!.
  - destruct (H3 g Hg' Hne) as [-> ->]. apply Hmaps; done.
Qed.

Lemma insert_cell_ok s m p es i cell e temp : leaf_page s m p es -> entry_at (bt_shared s) (pgType p) m e -> mem_read cell 0 (zlen (e_cell e)) = Some (e_cell e) -> bytes_ok cell ->
  NoDup (root :: e_pages e ++ entry_pages es) -> Forall (fun q => is_Some (m !! q)) (e_pages e) -> 0 <= i <= zlen es -> zlen temp = pageSize (bt_shared s) -> bytes_ok temp ->
  wp (insert_cell root p temp i cell (zlen (e_cell e))) s
    (fun p' s' => if zlen (e_cell e) + 2 <=? nFree p then leaf_page s' (<[root := aData p']> m) p' (ins i e es) /\ same_db s s' /\ nPage s' = nPage s /\ BtCells.frame p p'
                  else p' = overflowed p i cell /\ s' = s) (fun rc _ => ~ QuietPager T).
Proof using.
  intros Hlp He Hr Hcell Hnd Hin Hi Htl Htb. pose proof Hlp as [[Hpg Hmaps Hb Hc Hl] Hp Hes Ho]. destruct (leaf_types _ _ _ Hp Hl) as (Ht & Hx & Hc0).
  destruct (pg_use _ _ Hpg _ _ Hc) as [_ Ec]. destruct (content_len s root (pg_wf _ _ Hpg)) as [Lc _]. rewrite Ec in Lc.
  unfold insert_cell. apply bt_bind, bt_gets. rewrite Z.gtb_ltb, Z.ltb_antisym. destruct (Z.leb_spec (zlen (e_cell e) + 2) (nFree p)) as [Hroom|Hno]; cbn [negb].
  - apply bt_bind, bt_write_page_init. intros t Het. pose proof (leaf_edits _ _ _ _ _ Het Hlp) as Hlp1. apply bt_bind. eapply load_ok; [apply Hlp1|].
    assert (Himg : cell_image (bt_shared s) (pgType p) (e_cell e)) by by eapply entry_image.
    rewrite (insertCellFast_part _ _ _ _ _ _ _ Hr Hroom).
    destruct (insertCellFast_ok (bt_shared s) temp Htb p (e_cell <$> es) i (e_cell e) Hp) as (p' & E & Hfit & _); [congruence|done|rewrite (page_nCell _ _ _ Hp), zlen_fmap; done|].
    destruct (Hfit Hroom) as [Hp' Hfr]. rewrite <- ins_fmap in Hp'. apply bt_bind. eapply on_page_ok; [exact E|].
    pose proof (entry_pages_perm _ _ (ins_perm i e es)) as Hperm. change (entry_pages (e :: es)) with (e_pages e ++ entry_pages es) in Hperm. destruct Ho as [Hnd0 Hin0].
    destruct (leaf_write _ m p p' (ins i e es) (lp_root _ _ _ _ Hlp1)) as [Hlp2 Hsd]; try done.
    { rewrite ins_perm. by constructor. }
    { by rewrite Hperm. }
    { rewrite Hperm. by apply Forall_app_2. }
    apply bt_bind, bt_gets. cbn [autoVacuum set_page set_pager]. assert (Ety : pgType p' = pgType p) by apply Hfr. apply bt_bind.
    destruct (autoVacuum s) eqn:Ev; [|apply bt_ret, bt_ret; done].
    eapply bt_mono; [eapply (ptrmapPutOvflPtr_ok _ _ _ _ cell e Hlp2); try done|intros _ s3 (Hlp3 & [Hs3 Hv3] & Hn3)|done].
    + rewrite Ety. eapply entry_at_ext; [|exact He]. intros q Hq. apply lookup_insert_ne. intros <-. apply list.NoDup_cons in Hnd as [Hni _]. apply Hni, elem_of_app. by left.
    + eapply List.Forall_impl; [|exact Hin]. intros q Hq. apply lookup_insert_is_Some'. by right.
    + apply bt_ret. split; [done|]. split; [|done]. by split.
  - apply bt_bind. eapply bt_lift.
    { unfold insertCellFast. rewrite Z.gtb_ltb, (proj2 (Z.ltb_lt _ _)) by lia. done. }
    apply bt_ret. split; [|done]. unfold overflowed. by rewrite (po_ovfl _ _ _ Hp).
Qed.

(** ** Pages that come and go *)

(** The pages in use that are neither [root] nor those of the entries. *)
Definition others (m : gmap Z (list Z)) (es : list Entry) : gmap Z (list Z) := remove_pages m (root :: entry_pages es).

Lemma lookup_others m es q : others m es !! q = if decide (q ∈ root :: entry_pages es) then None else m !! q.
Proof using. apply lookup_remove. Qed.

Lemma others_eq m es m' es' : (forall q, ~ (q ∈ root :: entry_pages es) -> ~ (q ∈ root :: entry_pages es') -> m' !! q = m !! q) ->
  (forall q, q ∈ root :: entry_pages es -> ~ (q ∈ root :: entry_pages es') -> m' !! q = None) ->
  (forall q, ~ (q ∈ root :: entry_pages es) -> q ∈ root :: entry_pages es' -> m !! q = None) -> others m' es' = others m es.
Proof using. intros H1 H2 H3. apply map_eq. intros q. rewrite !lookup_others. destruct (decide _), (decide _); auto. by rewrite H3. Qed.

Lemma chain_in m ps : forall first, chain m first ps -> Forall (fun q => is_Some (m !! q)) ps.
Proof using. induction ps as [|p ps IH]; intros first Hc; [constructor|]. destruct Hc as [_ (d & next & Hd & _ & Hc)]. constructor; [by rewrite Hd|by eapply IH]. Qed.

Lemma entry_at_in b t m e : entry_at b t m e -> Forall (fun q => is_Some (m !! q)) (e_pages e) /\ NoDup (e_pages e).
Proof using.
  intros [[_ _ _ Hst _ _] _]. split; [|by apply (so_nodup _ _ _ _ _ _ _ Hst)]. destruct (decide (e_pages e = [])) as [->|E]; [constructor|].
  destruct (so_first _ _ _ _ _ _ _ Hst E) as (first & _ & Hch). by eapply chain_in.
Qed.

Lemma leaf_more (s s' : Bt) m m' p es ps : leaf_page s m p es -> pages s' m' -> maps s' m' 0 -> bt_shared s' = bt_shared s ->
  (forall q, ~ (q ∈ ps) -> m' !! q = m !! q) -> Forall (fun q => m !! q = None) ps ->
  leaf_page s' m' p es /\ forall q, q ∈ ps -> ~ (q ∈ root :: entry_pages es).
Proof using.
  intros [[Hpg Hmaps Hb Hc Hl] Hp Hes [Hnd Hin]] Hpg' Hmaps' Eb Hm Hnew. rewrite list.Forall_forall in Hnew, Hin.
  assert (Hni : forall q, q ∈ ps -> ~ (q ∈ root :: entry_pages es)).
  { intros q Hq [->|Hq']%elem_of_cons; [by rewrite (Hnew _ Hq) in Hc|]. destruct (Hin _ Hq') as [d Hd]. rewrite (Hnew _ Hq) in Hd. done. }
  split; [|done]. assert (Hold : forall q, q ∈ root :: entry_pages es -> m' !! q = m !! q) by (intros q Hq; apply Hm; intros Hq'; by apply (Hni q)).
  constructor; rewrite ?Eb; try done.
  - constructor; rewrite ?Eb; try done. by rewrite Hold by by left.
  - eapply entries_ext; [|done]. intros q Hq. apply Hold. by right.
  - split; [done|]. apply list.Forall_forall. intros q Hq. rewrite Hold by (by right). by apply Hin.
Qed.

(** ** Removing an entry *)

Lemma del_pages es i e : es.[i] = Some e -> NoDup (root :: entry_pages es) -> entry_pages es ≡ₚ e_pages e ++ entry_pages (del i es) /\
  NoDup (root :: entry_pages (del i es)) /\ forall q, q ∈ root :: entry_pages (del i es) -> ~ (q ∈ e_pages e).
Proof using.
  intros Hi Hnd. pose proof (entry_pages_perm _ _ (del_perm _ _ _ Hi)) as Hperm. change (entry_pages (e :: del i es)) with (e_pages e ++ entry_pages (del i es)) in Hperm.
  split; [done|]. rewrite Hperm in Hnd. apply list.NoDup_cons in Hnd as [Hr Hnd]. apply list.NoDup_app in Hnd as (Hnd1 & Hdis & Hnd2).
  split; [apply list.NoDup_cons; split; [|done]; intros Hq; apply Hr, elem_of_app; by right|].
  intros q [->|Hq]%elem_of_cons Hq'; [apply Hr, elem_of_app; by left|by apply (Hdis q)].
Qed.

Lemma clear_cell_ok s m p es i e pc : leaf_page s m p es -> es.[i] = Some e -> findCell p i = Some pc -> nPage s < 2 ^ 32 - 16 ->
  wp (BTREE_CLEAR_CELL root (pgType p) pc) s (fun info s' => nSize info = zlen (e_cell e) /\ (nLocal info = nPayload info <-> e_pages e = []) /\
      root_page s' (remove_pages m (e_pages e)) p /\ Forall (entry_at (bt_shared s) (pgType p) (remove_pages m (e_pages e))) (del i es) /\
      Forall (fun q => is_Some (remove_pages m (e_pages e) !! q)) (entry_pages (del i es)) /\ same_db s s' /\ nPage s' = nPage s)
    (fun rc _ => QuietPager T -> rc = SQLITE_NOMEM).
Proof using.
  intros Hlp Hi Hpc Hn. pose proof Hlp as [[Hpg Hmaps Hb Hc Hl] Hp Hes [Hnd Hin]].
  destruct (leaf_cell _ _ _ _ _ _ Hlp Hi) as (pc' & info & Epc & Hpc0 & _ & Hhi & Hpar & _ & Enp & Esz & Hst & Hend & Hmax & Hloc & Hov).
  assert (pc' = pc) as -> by congruence. destruct (pg_use _ _ Hpg _ _ Hc) as [_ Ec]. destruct (del_pages _ _ _ Hi Hnd) as (Hperm & Hnd' & Hdis).
  assert (Hkeep : forall q, q ∈ root :: entry_pages (del i es) -> remove_pages m (e_pages e) !! q = m !! q).
  { intros q Hq. rewrite lookup_remove, decide_False; [done|by apply Hdis]. }
  assert (Hes' : Forall (entry_at (bt_shared s) (pgType p) (remove_pages m (e_pages e))) (del i es)).
  { eapply entries_ext; [intros q Hq; apply Hkeep; by right|]. rewrite (del_perm _ _ _ Hi) in Hes. by apply Forall_cons_1 in Hes as [_ Hes]. }
  assert (Hin' : Forall (fun q => is_Some (remove_pages m (e_pages e) !! q)) (entry_pages (del i es))).
  { rewrite list.Forall_forall in Hin |- *. intros q Hq. rewrite Hkeep by (by right). apply Hin. rewrite Hperm, elem_of_app. by right. }
  unfold BTREE_CLEAR_CELL. apply bt_bind, bt_gets, bt_bind, bt_gets, bt_bind. rewrite Ec. eapply bt_lift; [exact Hpar|]. apply bt_bind.
  destruct (decide (e_pages e = [])) as [E|E].
  - rewrite (proj2 (Z.eqb_eq _ _)) by (by apply Hloc). cbn [negb]. apply bt_ret, bt_ret. rewrite E in *. cbn [remove_pages] in *. split; [done|]. split; [done|]. split; [done|done].
  - rewrite (proj2 (Z.eqb_neq _ _)) by (by intros ?%Hloc). cbn [negb]. specialize (Hov E). pose proof (wf_usable _ (pg_wf _ _ Hpg)).
    eapply bt_mono; [apply (clearCellOverflow_ok s m root (aData p) pc info (e_pages e) (e_payload e)); try done; lia|intros _ s' (Hpg' & Hmaps' & Eb & Ev & En)|done].
    apply bt_ret. split; [done|]. split; [done|]. split; [|done]. constructor; rewrite ?Eb; try done. by rewrite Hkeep by by left.
Qed.

Lemma drop_cell_ok (s : Bt) m p es i e (Q : MemPage -> Bt -> Prop) E : root_page s m p -> page_ok (bt_shared s) p (e_cell <$> es) -> es.[i] = Some e ->
  Forall (entry_at (bt_shared s) (pgType p) m) (del i es) -> NoDup (root :: entry_pages (del i es)) -> Forall (fun q => is_Some (m !! q)) (entry_pages (del i es)) ->
  (forall p', leaf_page (set_page root (aData p') s) (<[root := aData p']> m) p' (del i es) -> BtCells.frame p p' -> Q p' (set_page root (aData p') s)) ->
  wp (on_page root (dropCell (bt_shared s) p i (zlen (e_cell e)) SQLITE_OK)) s Q E.
Proof using.
  intros Hrp Hp Hi Hes Hnd Hin HQ. destruct (dropCell_ok (bt_shared s) p (e_cell <$> es) i (e_cell e) Hp) as (p' & Ed & Hp' & Hfr); [by rewrite zget_fmap, Hi|].
  eapply on_page_ok; [exact Ed|]. apply HQ; [|done]. rewrite <- del_fmap in Hp'. by apply (leaf_write s m p p' (del i es)).
Qed.

Lemma count_free_ok s m p es Q E : leaf_page s m p es -> Q p s -> wp (count_free root p) s Q E.
Proof using.
  intros Hlp HQ. unfold count_free. destruct (page_fits _ _ _ (lp_page _ _ _ _ Hlp)) as (_ & _ & _ & _ & Hf). rewrite (proj2 (Z.ltb_ge _ _)) by done. by apply bt_ret.
Qed.

(** A cursor at an entry of the page. *)
Definition cursor_at (c : BtCursor) (p : MemPage) (i : Z) : Prop := c_pgno c = root /\ c_pPage c = p /\ c_ix c = i.

Lemma delete_entry_ok s m p es c i e : leaf_page s m p es -> cursor_at c p i -> es.[i] = Some e -> nPage s < 2 ^ 32 - 16 ->
  wp (delete_entry c) s (fun c' s' => exists m', leaf_page s' m' (c_pPage c') (del i es) /\ others m' (del i es) = others m es /\ BtCells.frame p (c_pPage c') /\
      same_db s s' /\ nPage s' = nPage s) (fun rc _ => QuietPager T -> rc = SQLITE_NOMEM).
Proof using.
  intros Hlp (Epg & Ep & Eix) Hi Hn. pose proof Hlp as [Hrp Hp Hes [Hnd Hin]]. unfold delete_entry. rewrite Epg, Ep, Eix. pose proof (zget_range _ _ _ Hi) as Hir.
  pose proof (page_nCell _ _ _ Hp) as Hnc. rewrite zlen_fmap in Hnc. rewrite (proj2 (Z.leb_gt _ _)) by lia.
  destruct (leaf_cell _ _ _ _ _ _ Hlp Hi) as (pc & info & Epc & Hpc0 & Hlo & _). apply bt_bind. eapply load_ok; [done|]. apply bt_bind. eapply bt_lift; [exact Epc|].
  apply bt_bind, bt_bind, bt_attempt. eapply count_free_ok; [done|]. apply bt_ret. rewrite (proj2 (Z.ltb_ge _ _)) by lia.
  apply bt_bind. eapply bt_mono; [apply (bt_write_page_init root s (fun _ s1 => leaf_page s1 m p es /\ same_db s s1 /\ nPage s1 = nPage s)); intros t He; split; [by eapply leaf_edits|done]|
    intros _ s1 (Hlp1 & [Hs1 Hv1] & Hn1)|by intros rc s1 _ Hq ?].
  apply bt_bind. eapply bt_mono; [apply (clear_cell_ok s1 m p es i e pc Hlp1 Hi Epc); lia|intros inf s2 (Esz & _ & Hrp2 & Hes2 & Hin2 & [Hs2 Hv2] & Hn2)|done].
  destruct (del_pages _ _ _ Hi Hnd) as (Hperm & Hnd' & Hdis).
  apply bt_bind, bt_gets, bt_bind. eapply load_ok; [exact Hrp2|]. rewrite Esz. apply bt_bind. eapply drop_cell_ok; rewrite ?Hs2; try done; [apply Hlp1|].
  intros p' Hlp' Hfr. apply bt_ret. exists (<[root := aData p']> (remove_pages m (e_pages e))). cbn [c_pPage set_pPage]. split; [done|]. split; [|split; [done|split; [split; cbn; congruence|cbn; congruence]]].
  assert (Hel : forall q, q ∈ root :: entry_pages es <-> q ∈ e_pages e \/ q ∈ root :: entry_pages (del i es)).
  { intros q. rewrite !elem_of_cons, Hperm, elem_of_app. tauto. }
  apply others_eq.
  - intros q Hq1 Hq2. rewrite lookup_insert_ne by (intros <-; apply Hq1; by left). rewrite lookup_remove, decide_False; [done|]. intros Hq. apply Hq1, Hel. by left.
  - intros q Hq1 Hq2. rewrite lookup_insert_ne by (intros <-; apply Hq2; by left). rewrite lookup_remove, decide_True; [done|]. by apply Hel in Hq1 as [?|?].
  - intros q Hq1 Hq2. destruct Hq1. apply Hel. by right.
Qed.

(** ** Reading an entry *)

(** A cursor that knows nothing about its entry. *)
Definition fresh_cursor (c : BtCursor) : Prop := nSize (c_info c) = 0 /\ c_ValidOvfl c = false.

Lemma read_entry_ok s m p es c i e offset amt pBuf : leaf_page s m p es -> cursor_at c p i -> fresh_cursor c -> es.[i] = Some e -> nPage s < 2 ^ 32 - 16 ->
  0 <= offset -> 0 <= amt -> offset + amt <= zlen (e_payload e) -> amt <= zlen pBuf ->
  wp (sqlite3BtreePayload c offset amt pBuf) s (fun r s' => let '(rc, _, pBuf') := r in (rc = SQLITE_OK -> leaf_page s' m p es /\ same_db s s' /\ nPage s' = nPage s /\
      filled pBuf pBuf' 0 amt (fun j => (e_payload e).[offset + j])) /\ (QuietPager T -> rc = SQLITE_OK \/ rc = SQLITE_NOMEM)) (fun _ _ => False).
Proof using.
  intros Hlp (Epg & Ep & Eix) [Hsz Hvo] Hi Hn Ho Ha Hoa Hbuf. pose proof Hlp as [[Hpg Hmaps Hb Hc Hl] Hp Hes [Hnd Hin]]. pose proof (zget_range _ _ _ Hi) as Hir.
  pose proof (page_nCell _ _ _ Hp) as Hnc. rewrite zlen_fmap in Hnc. destruct (pg_use _ _ Hpg _ _ Hc) as [_ Ec].
  destruct (leaf_cell _ _ _ _ _ _ Hlp Hi) as (pc & info & Epc & Hpc0 & _ & Hhi & Hpar & _ & Enp & Esz & Hst & Hend & Hmax & _).
  assert (Hinfo : cell_info c s = Some info).
  { unfold cell_info. rewrite Hsz, Epg, Ep, Ec, Eix. cbn. unfold btreeParseCell. cbn [set_aData pgType aData].
    replace (findCell (set_aData (aData p) p) i) with (findCell p i) by (by destruct p). rewrite Epc. by cbn. }
  assert (Hca : cache_ok c (e_pages e)) by (intros Hv; congruence).
  unfold sqlite3BtreePayload.
  eapply bt_mono; [apply (accessPayload_read s m (e_pages e) (usableSize (bt_shared s)) c (aData p) (e_payload e) offset amt pBuf info); rewrite ?Epg, ?Ep, ?Eix; try done; lia|
    intros [[rc c'] pBuf'] s' (_ & _ & Hok & Hq)|done].
  split; [|done]. intros Hrc. destruct (Hok Hrc) as [He Hfil]. split; [by eapply leaf_edits|]. split; [split; [by eapply edits_shared|by eapply edits_vacuum]|]. by split; [apply He|].
Qed.

Lemma key_entry_ok s m p es c i e (Q : Z * BtCursor -> Bt -> Prop) E : leaf_page s m p es -> cursor_at c p i -> fresh_cursor c -> es.[i] = Some e ->
  (forall c', Q (e_key e, c') s) -> wp (sqlite3BtreeIntegerKey c) s Q E.
Proof using.
  intros Hlp (Epg & Ep & Eix) [Hsz Hvo] Hi HQ. pose proof Hlp as [[Hpg Hmaps Hb Hc Hl] Hp Hes [Hnd Hin]]. destruct (pg_use _ _ Hpg _ _ Hc) as [_ Ec].
  destruct (leaf_cell _ _ _ _ _ _ Hlp Hi) as (pc & info & Epc & _ & _ & _ & Hpar & Ek & _).
  unfold sqlite3BtreeIntegerKey. apply bt_bind. unfold wp at 1, getCellInfo. rewrite Hsz, Epg, Ep, Ec, Eix. cbn [Z.eqb]. unfold btreeParseCell. cbn [set_aData pgType aData].
  replace (findCell (set_aData (aData p) p) i) with (findCell p i) by (by destruct p). rewrite Epc. cbn [mbind option_bind]. rewrite Hpar. cbn [mbind option_bind].
  apply bt_ret. cbn [set_info c_info]. rewrite Ek. apply HQ.
Qed.

(** ** Storing an entry *)

(** The bytes that an entry takes, with its pointer. *)
Definition entry_size (b : BtShared) (t : PageType) (key : Z) (payload : list Z) : Z := cell_size b t (zlen payload) (cell_start t (zlen payload) key) + 2.
Definition entries_size (b : BtShared) (t : PageType) (l : list (Z * list Z)) : Z := foldr (fun x n => entry_size b t x.1 x.2 + n) 0 l.

(** Key and payload. *)
Definition view (e : Entry) : Z * list Z := (e_key e, e_payload e).

Lemma entries_size_ok s m p es : leaf_page s m p es -> nFree p = capacity (bt_shared s) p - entries_size (bt_shared s) (pgType p) (view <$> es).
Proof using.
  intros [_ Hp Hes _]. rewrite (page_free _ _ _ Hp). f_equal. unfold BtList.page_bytes. rewrite zlen_fmap. clear Hp. induction Hes as [|e es [He _] _ IH]; [done|].
  rewrite fmap_cons, cell_bytes_cons, zlen_cons. cbn [fmap list_fmap entries_size foldr view fst snd]. fold (entries_size (bt_shared s) (pgType p) (view <$> es)).
  change (list_fmap _ _ view es) with (view <$> es). rewrite <- IH. unfold entry_size. rewrite (ec_size _ _ _ _ _ _ _ He). lia.
Qed.

(** A cell that does not fit is left to the balancing, with its pages. *)
Definition waits (b : BtShared) (m : gmap Z (list Z)) (p' p : MemPage) (i : Z) (e : Entry) : Prop :=
  exists cell, p' = overflowed p i cell /\ mem_read cell 0 (zlen (e_cell e)) = Some (e_cell e) /\ entry_at b (pgType p) m e.

(** The entry is stored at the place [i] of [es], if it fits. *)
Definition put_entry (s : Bt) (m : gmap Z (list Z)) (p : MemPage) (es0 es : list Entry) (i : Z) (pX : BtreePayload) (c' : BtCursor) (s' : Bt) : Prop :=
  let t := pgType p in let key := entry_key t pX in let payload := entry_payload t pX in
  exists m' e, view e = (key, payload) /\ same_db s s' /\ nPage s <= nPage s' <= nPage s + page_cost (zlen payload) /\
    if entries_size (bt_shared s) t (view <$> es) + entry_size (bt_shared s) t key payload <=? capacity (bt_shared s) p then
      leaf_page s' m' (c_pPage c') (ins i e es) /\ others m' (ins i e es) = others m es0 /\ BtCells.frame p (c_pPage c')
    else exists p1, leaf_page s' m' p1 es /\ waits (bt_shared s) m' (c_pPage c') p1 i e /\ others m' (e :: es) = others m es0 /\ BtCells.frame p p1.

(** The arguments of a store: the entry, and the buffers. *)
Record store_pre (s : Bt) (p : MemPage) (pX : BtreePayload) (newCell temp : list Z) : Prop := {
  st_entry : entry_ok (pgType p) pX;
  st_newCell : bytes_ok newCell /\ usableSize (bt_shared s) <= zlen newCell;
  st_temp : bytes_ok temp /\ zlen temp = pageSize (bt_shared s);
  st_room : 1 <= nPage s /\ nPage s + page_cost (zlen (entry_payload (pgType p) pX)) < 2 ^ 32 - 20;
}.

(** [fillInCell] for an entry of the page. *)
Lemma fill_entry_ok s m p es pX newCell temp : leaf_page s m p es -> store_pre s p pX newCell temp ->
  wp (fillInCell (pgType p) newCell pX) s (fun r s' => let '(sz, cell) := r in exists m' e, leaf_page s' m' p es /\ entry_at (bt_shared s) (pgType p) m' e /\
      view e = (entry_key (pgType p) pX, entry_payload (pgType p) pX) /\ sz = zlen (e_cell e) /\ mem_read cell 0 sz = Some (e_cell e) /\ bytes_ok cell /\
      zlen (e_cell e) + 2 = entry_size (bt_shared s) (pgType p) (entry_key (pgType p) pX) (entry_payload (pgType p) pX) /\
      NoDup (root :: e_pages e ++ entry_pages es) /\ (forall q, ~ (q ∈ e_pages e) -> m' !! q = m !! q) /\ (forall q, q ∈ e_pages e -> m !! q = None) /\
      same_db s s' /\ nPage s <= nPage s' <= nPage s + page_cost (zlen (entry_payload (pgType p) pX))) (fun rc _ => ~ QuietPager T).
Proof using.
  intros Hlp [He [Hcb Hcl] _ [H1 Hn]]. pose proof Hlp as [[Hpg Hmaps Hb Hc Hl] Hp Hes [Hnd Hin]]. destruct (leaf_types _ _ _ Hp Hl) as (Ht & Hx & Hc0).
  eapply bt_mono; [apply (fillInCell_ok s m (pgType p) pX newCell Hpg Hmaps Hb Ht Hx He Hcb Hcl); [by rewrite Hc|done|done]|
    intros [sz cell] s' (m' & ps & Hpg' & Hmaps' & Hec & Hps & Esz & Lc & Bc & Hkeep & Hnew & Hsd & Hn')|done].
  destruct (leaf_more s s' m m' p es ps Hlp Hpg' Hmaps') as [Hlp' Hni]; [apply Hsd|done|done|].
  set (e := mkEntry (entry_key (pgType p) pX) (entry_payload (pgType p) pX) (take (Z.to_nat sz) cell) ps). exists m', e.
  pose proof (zlen_nonneg (entry_payload (pgType p) pX)). pose proof (eo_size _ _ He).
  destruct (start_range _ _ Ht (zlen (entry_payload (pgType p) pX)) (entry_key (pgType p) pX)) as (Hs & _); [lia|].
  pose proof (cell_size_range _ _ Hb Ht (zlen (entry_payload (pgType p) pX)) _ ltac:(lia) Hs) as Hr. rewrite <- Esz in Hr. pose proof (bo_usable _ Hb).
  assert (L : zlen (e_cell e) = sz) by (apply zlen_take; lia). split; [done|]. split; [done|]. split; [done|]. split; [done|]. split; [|split; [done|split; [|split; [|split; [done|split; [|done]]]]]].
  - destruct (mem_read_ok cell 0 sz) as (x & -> & Lx & Gx); [lia..|]. f_equal. apply zget_ext; [congruence|]. intros j Hj. rewrite Gx by lia. cbn [e e_cell]. by rewrite zget_take by lia.
  - rewrite L, Esz. done.
  - cbn [e e_pages]. destruct (entry_at_in _ _ _ e (conj Hec Hps)) as [_ Hnd1]. apply list.NoDup_cons in Hnd as [Hr0 Hnd]. apply list.NoDup_cons. split.
    + rewrite elem_of_app. intros [Hq|Hq]; [|done]. apply (Hni _ Hq). by left.
    + apply list.NoDup_app. split; [done|]. split; [|done]. intros q Hq Hq'. apply (Hni _ Hq). by right.
  - by apply list.Forall_forall.
Qed.

Lemma others_root m es d : others (<[root := d]> m) es = others m es.
Proof using. apply others_eq; [intros q Hq _; apply lookup_insert_ne; intros <-; apply Hq; by left|by intros q H1 H2|by intros q H1 H2]. Qed.

Lemma others_perm m es es' : es ≡ₚ es' -> others m es' = others m es.
Proof using.
  intros E. apply map_eq. intros q. rewrite !lookup_others. pose proof (entry_pages_perm _ _ E) as Ep.
  destruct (decide (q ∈ root :: entry_pages es)) as [H|H], (decide (q ∈ root :: entry_pages es')) as [H'|H']; try done; rewrite Ep in H; done.
Qed.

Lemma entries_size_perm b t l k : l ≡ₚ k -> entries_size b t l = entries_size b t k.
Proof using. induction 1 as [|x l k _ IH|x y l|l k h _ IH1 _ IH2]; cbn [entries_size foldr] in *; [done| | |congruence]; unfold entries_size in *; lia. Qed.

Lemma same_db_trans (s1 s2 s3 : Bt) : same_db s1 s2 -> same_db s2 s3 -> same_db s1 s3.
Proof using. intros [E1 V1] [E2 V2]. split; congruence. Qed.

Section put.
Context (s : Bt) (m : gmap Z (list Z)) (p : MemPage) (es0 : list Entry) (pX : BtreePayload).

(** The cell of the new entry is made, and what it takes the place of is gone. *)
Record to_place (es : list Entry) (s2 : Bt) (m2 : gmap Z (list Z)) (cell : list Z) (e : Entry) : Prop := {
  tp_entry : entry_at (bt_shared s) (pgType p) m2 e;
  tp_view : view e = (entry_key (pgType p) pX, entry_payload (pgType p) pX);
  tp_cell : mem_read cell 0 (zlen (e_cell e)) = Some (e_cell e) /\ bytes_ok cell;
  tp_size : zlen (e_cell e) + 2 = entry_size (bt_shared s) (pgType p) (entry_key (pgType p) pX) (entry_payload (pgType p) pX);
  tp_own : NoDup (root :: e_pages e ++ entry_pages es);
  tp_others : others m2 (e :: es) = others m es0;
  tp_db : same_db s s2;
  tp_nPage : nPage s <= nPage s2 <= nPage s + page_cost (zlen (entry_payload (pgType p) pX));
}.

Lemma place_ok es s2 m2 p2 cell e i temp c : to_place es s2 m2 cell e -> leaf_page s2 m2 p2 es -> BtCells.frame p p2 -> 0 <= i <= zlen es ->
  bytes_ok temp -> zlen temp = pageSize (bt_shared s) ->
  wp (let! pPage := insert_cell root p2 temp i cell (zlen (e_cell e)) in ret (set_pPage pPage c)) s2 (put_entry s m p es0 es i pX) (fun rc _ => ~ QuietPager T).
Proof using.
  intros [He Hv [Hr Hcell] Hsz Hnd Hoth [Hs2 Hv2] Hn2] Hlp Hfr Hi Htb Htl. assert (Ety : pgType p2 = pgType p) by apply Hfr. destruct (entry_at_in _ _ _ _ He) as [Hin _].
  apply bt_bind. eapply bt_mono; [apply (insert_cell_ok s2 m2 p2 es i cell e temp Hlp); rewrite ?Hs2, ?Ety; done|intros p' s3 Hpost|done].
  apply bt_ret. cbv beta in Hpost. pose proof (entries_size_ok _ _ _ _ Hlp) as Hsize. rewrite Hs2, Ety in Hsize.
  assert (Ecap : capacity (bt_shared s) p2 = capacity (bt_shared s) p) by (unfold capacity; by rewrite (BtCells.fr_off _ _ Hfr)).
  unfold put_entry. cbv zeta. destruct (Z.leb_spec (zlen (e_cell e) + 2) (nFree p2)) as [Hfit|Hno].
  - destruct Hpost as (Hlp' & Hsd' & En & Hfr'). exists (<[root := aData p']> m2), e. split; [done|]. split; [by eapply same_db_trans; [|exact Hsd']|]. split; [lia|].
    rewrite (proj2 (Z.leb_le _ _)) by lia. split; [done|]. split; [|by eapply BtCells.frame_trans]. rewrite others_root, (others_perm m2 (e :: es)); [done|]. symmetry. apply ins_perm.
  - destruct Hpost as [-> ->]. exists m2, e. split; [done|]. split; [done|]. split; [done|]. rewrite (proj2 (Z.leb_gt _ _)) by lia.
    exists p2. split; [done|]. split; [|by split]. exists cell. rewrite Ety. by split_and!.
Qed.
End put.

(** An entry is added next to the cursor. *)
Lemma add_entry_ok s m p es c i0 i pX loc newCell temp : leaf_page s m p es -> cursor_at c p i0 -> store_pre s p pX newCell temp ->
  loc <> 0 -> i = (if (loc <? 0) && (nCell p >? 0) then i0 + 1 else i0) -> 0 <= i0 -> i <= zlen es ->
  wp (insert_entry c pX loc newCell temp) s (put_entry s m p es es i pX) (fun rc _ => ~ QuietPager T).
Proof using.
  intros Hlp (Epg & Ep & Eix) Hpre Hloc Ei Hi0 Hi. unfold insert_entry. rewrite Epg, Ep. apply bt_bind. eapply count_free_ok; [done|]. apply bt_bind.
  pose proof Hpre as [_ _ [Htb Htl] _]. eapply bt_mono; [by apply (fill_entry_ok s m p es pX newCell temp)|
    intros [sz cell] s1 (m1 & e & Hlp1 & He & Hv & -> & Hr & Hcell & Hsz & Hnd & Hkeep & Hnew & Hsd & Hn1)|done].
  cbn [c_pPage c_ix forget_info]. rewrite (proj2 (Z.eqb_neq _ _)) by done.
  set (c1 := if (loc <? 0) && (nCell p >? 0) then next_ix (forget_info c) else forget_info c). destruct (page_fits _ _ _ (lp_page _ _ _ _ Hlp)) as (Hnc & Hnc0 & _ & _ & Hnf).
  assert (Eix1 : c_ix c1 = i).
  { unfold c1. rewrite Ei. destruct ((loc <? 0) && (nCell p >? 0)); [|exact Eix]. cbn [next_ix forget_info c_ix]. rewrite Eix. pose proof (page_nCell _ _ _ (lp_page _ _ _ _ Hlp)) as En.
    rewrite zlen_fmap in En. pose proof (bo_size _ (rp_shared _ _ _ (lp_root _ _ _ _ Hlp))). pose proof (bo_usable _ (rp_shared _ _ _ (lp_root _ _ _ _ Hlp))).
    apply u16_small. destruct (page_fits _ _ _ (lp_page _ _ _ _ Hlp)) as (? & ? & ? & _). subst i. lia. }
  rewrite Eix1. apply (place_ok s m p es pX es s1 m1 p cell e i temp c1); try done; [|split; [|lia]].
  - constructor; try done. apply others_eq.
    + intros q _ Hq. apply Hkeep. intros Hq'. apply Hq. right. change (entry_pages (e :: es)) with (e_pages e ++ entry_pages es). apply elem_of_app. by left.
    + intros q [->|Hq]%elem_of_cons Hq'; [destruct Hq'; by left|]. destruct Hq'. right. change (entry_pages (e :: es)) with (e_pages e ++ entry_pages es). apply elem_of_app. by right.
    + intros q Hq Hq'. apply Hnew. apply elem_of_cons in Hq' as [->|Hq']; [destruct Hq; by left|].
      change (entry_pages (e :: es)) with (e_pages e ++ entry_pages es) in Hq'. apply elem_of_app in Hq' as [?|?]; [done|]. destruct Hq. by right.
  - subst i. destruct ((loc <? 0) && (nCell p >? 0)); lia.
Qed.

(** The new cell after the pages of the old one were freed. *)
Lemma to_place_replace s m p pX es i e0 s1 m1 s2 m2 cell e : leaf_page s m p es -> leaf_page s1 m1 p es -> es.[i] = Some e0 ->
  entry_at (bt_shared s) (pgType p) m1 e -> view e = (entry_key (pgType p) pX, entry_payload (pgType p) pX) ->
  mem_read cell 0 (zlen (e_cell e)) = Some (e_cell e) -> bytes_ok cell ->
  zlen (e_cell e) + 2 = entry_size (bt_shared s) (pgType p) (entry_key (pgType p) pX) (entry_payload (pgType p) pX) ->
  NoDup (root :: e_pages e ++ entry_pages es) -> (forall q, ~ (q ∈ e_pages e) -> m1 !! q = m !! q) -> (forall q, q ∈ e_pages e -> m !! q = None) ->
  (forall q, q <> root -> m2 !! q = remove_pages m1 (e_pages e0) !! q) -> same_db s s2 -> nPage s <= nPage s2 <= nPage s + page_cost (zlen (entry_payload (pgType p) pX)) ->
  to_place s m p es pX (del i es) s2 m2 cell e.
Proof using.
  intros Hlp Hlp1 Hi He Hv Hr Hcell Hsz Hnd Hkeep Hnew Hm2 Hsd Hn2. pose proof (lp_own _ _ _ _ Hlp) as [Hnd0 _].
  destruct (del_pages _ _ _ Hi Hnd0) as (Hperm & Hnd' & Hdis). pose proof Hnd as [Hr0 Hnd1]%list.NoDup_cons. apply list.NoDup_app in Hnd1 as (Hnde & Hdise & _).
  assert (Hne : forall q, q ∈ e_pages e -> q <> root /\ ~ (q ∈ e_pages e0)).
  { intros q Hq. split; [intros ->; apply Hr0, elem_of_app; by left|]. intros Hq'. apply (Hdise q Hq). rewrite Hperm, elem_of_app. by left. }
  assert (Hall : forall q, q ∈ root :: entry_pages es <-> q ∈ e_pages e0 \/ q ∈ root :: entry_pages (del i es)) by (intros q; rewrite !elem_of_cons, Hperm, elem_of_app; tauto).
  assert (Hall2 : forall q, q ∈ root :: entry_pages (e :: del i es) <-> q ∈ e_pages e \/ q ∈ root :: entry_pages (del i es)).
  { intros q. change (entry_pages (e :: del i es)) with (e_pages e ++ entry_pages (del i es)). rewrite !elem_of_cons, elem_of_app. tauto. }
  constructor; try done.
  - eapply entry_at_ext; [|exact He]. intros q Hq. destruct (Hne q Hq) as [Hqr Hq0]. rewrite Hm2, lookup_remove, decide_False by done. done.
  - apply list.NoDup_cons. apply list.NoDup_cons in Hnd' as [Hr1 Hnd']. split.
    + rewrite elem_of_app. intros [Hq|Hq]; [by destruct (Hne _ Hq)|done].
    + apply list.NoDup_app. split; [done|]. split; [|done]. intros q Hq Hq'. apply (Hdise q Hq). rewrite Hperm, elem_of_app. by right.
  - apply others_eq.
    + intros q Hq Hq2. rewrite Hall in Hq. rewrite Hall2 in Hq2. rewrite Hm2 by (intros ->; apply Hq; right; by left).
      rewrite lookup_remove, decide_False by (intros ?; apply Hq; by left). apply Hkeep. intros ?. apply Hq2. by left.
    + intros q Hq Hq2. rewrite Hall2 in Hq2. apply Hall in Hq as [Hq|Hq]; [|destruct Hq2; by right].
      rewrite Hm2 by (intros ->; apply Hq2; right; by left). by rewrite lookup_remove, decide_True.
    + intros q Hq Hq2. rewrite Hall in Hq. apply Hall2 in Hq2 as [Hq2|Hq2]; [by apply Hnew|]. destruct Hq. by right.
Qed.

(** The cell is overwritten where it is. *)
Lemma overwrite_ok s m p pX es i e0 s2 m2 cell e pc c : leaf_page s m p es -> es.[i] = Some e0 -> to_place s m p es pX (del i es) s2 m2 cell e -> root_page s2 m2 p ->
  Forall (entry_at (bt_shared s) (pgType p) m2) (del i es) -> Forall (fun q => is_Some (m2 !! q)) (entry_pages (del i es)) -> findCell p i = Some pc ->
  zlen (e_cell e) = zlen (e_cell e0) ->
  wp (let! x := lift (mem_read cell 0 (zlen (e_cell e))) in write_page root pc x ;;; let! pPage := load root p in ret (set_pPage pPage c)) s2
    (put_entry s m p es (del i es) i pX) (fun rc _ => ~ QuietPager T).
Proof using.
  intros Hlp Hi [He Hv [Hr Hcell] Hsz Hnd Hoth [Hs2 Hv2] Hn2] Hrp Hes Hin Hpc Hl. destruct (entry_at_in _ _ _ _ He) as [Hine _]. pose proof (zget_range _ _ _ Hi) as Hir.
  pose proof Hlp as [[Hpg0 Hmaps0 Hb Hc0 Hleaf] Hp _ [Hnd0 _]]. destruct (leaf_types _ _ _ Hp Hleaf) as (Ht & Hx & _). destruct (del_pages _ _ _ Hi Hnd0) as (Hperm & Hnd' & Hdis).
  assert (Himg : cell_image (bt_shared s) (pgType p) (e_cell e)) by by eapply entry_image.
  destruct (replace_cell_ok (bt_shared s) p (e_cell <$> es) i (e_cell e0) (e_cell e) pc Hb Hp) as (d & Ed & Hp' & Hfr); [by rewrite zget_fmap, Hi|done..|].
  rewrite <- zupd_fmap, zupd_ins in Hp' by done. destruct (pg_use _ _ (rp_pages _ _ _ Hrp) _ _ (rp_content _ _ _ Hrp)) as [_ Ec].
  pose proof (entry_pages_perm _ _ (ins_perm i e (del i es))) as Hpi. change (entry_pages (e :: del i es)) with (e_pages e ++ entry_pages (del i es)) in Hpi.
  destruct (leaf_write s2 m2 p (set_aData d p) (ins i e (del i es)) Hrp) as [Hlp' Hsd']; [by rewrite Hs2|done|rewrite Hs2, ins_perm; by constructor|by rewrite Hpi|rewrite Hpi; by apply Forall_app_2|].
  apply bt_bind. eapply bt_lift; [exact Hr|]. apply bt_bind. eapply bt_write_page; [rewrite Ec; exact Ed|]. apply bt_bind, bt_gets. cbn [aData set_aData] in Hlp', Hsd'.
  rewrite content_set, decide_True by done. apply bt_ret. unfold put_entry. cbv zeta. exists (<[root := d]> m2), e. split; [done|]. split; [by eapply same_db_trans; [|exact Hsd']|]. split; [done|].
  pose proof (entries_size_ok _ _ _ _ Hlp) as Hsize. pose proof (page_fits _ _ _ Hp) as (_ & _ & _ & _ & Hnf).
  assert (Hperm2 : view <$> es ≡ₚ view e0 :: (view <$> del i es)) by (by rewrite <- fmap_cons, <- (del_perm _ _ _ Hi)).
  rewrite (entries_size_perm _ _ _ _ Hperm2) in Hsize. cbn [entries_size foldr] in Hsize. fold (entries_size (bt_shared s) (pgType p) (view <$> del i es)) in Hsize.
  assert (Hsz0 : zlen (e_cell e0) + 2 = entry_size (bt_shared s) (pgType p) (e_key e0) (e_payload e0)).
  { pose proof (Forall_zget _ _ _ _ (lp_entries _ _ _ _ Hlp) Hi) as [He0 _]. unfold entry_size. by rewrite (ec_size _ _ _ _ _ _ _ He0). }
  cbn [view fst snd] in Hsize. rewrite (proj2 (Z.leb_le _ _)) by lia. split; [done|]. split; [|done].
  rewrite others_root, (others_perm m2 (e :: del i es)); [done|]. symmetry. apply ins_perm.
Qed.

(** The entry at the cursor is replaced. *)
Lemma replace_entry_ok s m p es c i e0 pX newCell temp : leaf_page s m p es -> cursor_at c p i -> es.[i] = Some e0 -> store_pre s p pX newCell temp ->
  wp (insert_entry c pX 0 newCell temp) s (put_entry s m p es (del i es) i pX) (fun rc _ => QuietPager T -> rc = SQLITE_NOMEM).
Proof using.
  intros Hlp (Epg & Ep & Eix) Hi Hpre. unfold insert_entry. rewrite Epg, Ep. apply bt_bind. eapply count_free_ok; [done|]. apply bt_bind. pose proof (zget_range _ _ _ Hi) as Hir.
  pose proof Hpre as [_ _ [Htb Htl] Hroom]. eapply bt_mono; [by apply (fill_entry_ok s m p es pX newCell temp)|
    intros [sz cell] s1 (m1 & e & Hlp1 & He & Hv & -> & Hr & Hcell & Hsz & Hnd & Hkeep & Hnew & Hsd & Hn1)|by intros rc s' _ Hq ?].
  cbn [c_pPage c_ix forget_info Z.eqb]. rewrite Eix. pose proof (page_nCell _ _ _ (lp_page _ _ _ _ Hlp)) as Hnc. rewrite zlen_fmap in Hnc.
  rewrite Z.geb_leb, (proj2 (Z.leb_gt _ _)) by lia. apply bt_bind.
  eapply bt_mono; [apply (bt_write_page_init root s1 (fun _ s2 => leaf_page s2 m1 p es /\ same_db s s2 /\ nPage s2 = nPage s1)); intros t Het; split; [by eapply leaf_edits|done]|
    intros _ s2 (Hlp2 & Hsd2 & En2)|by intros rc s' _ Hq ?].
  destruct (leaf_cell _ _ _ _ _ _ Hlp2 Hi) as (pc & _ & Epc & Hpc0 & Hlo & Hhi & _). apply bt_bind. eapply load_ok; [apply Hlp2|]. apply bt_bind. eapply bt_lift; [exact Epc|].
  apply bt_bind. rewrite (rp_leaf _ _ _ (lp_root _ _ _ _ Hlp)). cbn [negb]. apply bt_ret. apply bt_bind.
  eapply bt_mono; [apply (clear_cell_ok s2 m1 p es i e0 pc Hlp2 Hi Epc); lia|intros info s3 (Esz & Hloc & Hrp3 & Hes3 & Hin3 & Hsd3 & Hn3)|done].
  assert (Hsd03 : same_db s s3) by (by eapply same_db_trans). destruct Hsd2 as [Eb2 Ev2].
  pose proof (to_place_replace s m p pX es i e0 s1 m1 s3 (remove_pages m1 (e_pages e0)) cell e Hlp Hlp1 Hi He Hv Hr Hcell Hsz Hnd Hkeep Hnew ltac:(done) Hsd03 ltac:(lia)) as Htp.
  apply bt_bind, bt_gets, bt_bind, bt_gets. rewrite Esz. destruct Hsd03 as [Eb3 Ev3]. rewrite Eb2 in Hes3, Hhi.
  destruct (page_fits _ _ _ (lp_page _ _ _ _ Hlp)) as (_ & _ & _ & Eoff & _). destruct (leaf_types _ _ _ (lp_page _ _ _ _ Hlp) (rp_leaf _ _ _ (lp_root _ _ _ _ Hlp))) as (_ & _ & Hc0).
  destruct ((zlen (e_cell e0) =? zlen (e_cell e)) && (nLocal info =? nPayload info) && _) eqn:Ecase.
  - apply andb_true_iff in Ecase as [[Hsame _]%andb_true_iff _]. apply Z.eqb_eq in Hsame. rewrite (proj2 (Z.ltb_ge _ _)) by lia.
    pose proof (bo_usable _ (rp_shared _ _ _ (lp_root _ _ _ _ Hlp))). rewrite Eb3, Z.gtb_ltb, (proj2 (Z.ltb_ge _ _)) by lia.
    eapply bt_mono; [by apply (overwrite_ok s m p pX es i e0 s3 (remove_pages m1 (e_pages e0)) cell e pc)|done|by intros rc s' _ Hq ?].
  - apply bt_bind. eapply load_ok; [exact Hrp3|]. apply bt_bind. destruct (del_pages _ _ _ Hi (proj1 (lp_own _ _ _ _ Hlp))) as (_ & Hnd' & _).
    eapply drop_cell_ok; rewrite ?Eb3; try done; [apply Hlp|]. intros p' Hlp' Hfr.
    eapply bt_mono; [apply (place_ok s m p es pX (del i es) (set_page root (aData p') s3) (<[root := aData p']> (remove_pages m1 (e_pages e0))) p' cell e i temp); [|exact Hlp'|done|rewrite zlen_del by done; lia|done|done]|done|by intros rc s' _ Hq ?].
    apply (to_place_replace s m p pX es i e0 s1 m1 (set_page root (aData p') s3) (<[root := aData p']> (remove_pages m1 (e_pages e0))) cell e); try done; [|cbn; lia]. intros q Hq. by rewrite lookup_insert_ne.
Qed.
End fillin.
(** * Sequences of operations *)

Inductive entry_op :=
  | EPut (i loc : Z) (pX : BtreePayload) (newCell : list Z)
  | ERemove (i : Z)
  | EKey (i : Z)
  | EFetch (i offset amt : Z) (pBuf : list Z).

Section run.
Context {T : Type} {P : Pager T} {R : Root}.
Abbreviation Bt := (Bt T).
Abbreviation M := (M T).

Definition cursor (p : MemPage) (i : Z) : BtCursor := mkCursor root p i (mkCellInfo 0 0 0 0 0) false false None.

(** The keys and payloads that were read, and the page; when an entry does not
    fit, it is the turn of the balancing. *)
Fixpoint run_entries (temp : list Z) (ops : list entry_op) (p : MemPage) : M (list (Z + list Z) * MemPage) :=
  match ops with
  | [] => ret ([], p)
  | EPut i loc pX newCell :: ops =>
      let! c := insert_entry (cursor p i) pX loc newCell temp in
      if negb (Nat.eqb (length (ovfl (c_pPage c))) 0) then ret ([], c_pPage c) else run_entries temp ops (c_pPage c)
  | ERemove i :: ops =>
      let! c := delete_entry (cursor p i) in
      run_entries temp ops (c_pPage c)
  | EKey i :: ops =>
      let! ' (key, _) := sqlite3BtreeIntegerKey (cursor p i) in
      let! ' (rs, p) := run_entries temp ops p in
      ret (inl key :: rs, p)
  | EFetch i offset amt pBuf :: ops =>
      let! ' (rc, _, pBuf) := sqlite3BtreePayload (cursor p i) offset amt pBuf in
      if negb (rc =? SQLITE_OK) then fail rc
      else
        let! ' (rs, p) := run_entries temp ops p in
        ret (inr (take (Z.to_nat amt) pBuf) :: rs, p)
  end.

(** ** On a list of keys and payloads *)

Section spec.
Context (b : BtShared) (t : PageType) (cap : Z).

(** What an entry is stored into, and where. *)
Definition put_base (loc i : Z) (l : list (Z * list Z)) : list (Z * list Z) := if loc =? 0 then del i l else l.
Definition put_place (loc i : Z) (l : list (Z * list Z)) : Z := if (loc <? 0) && (zlen l >? 0) then i + 1 else i.

(** What is read, what is left, and the entry that did not fit with its place. *)
Fixpoint spec_entries (ops : list entry_op) (l : list (Z * list Z)) : list (Z + list Z) * list (Z * list Z) * option (Z * (Z * list Z)) :=
  match ops with
  | [] => ([], l, None)
  | EPut i loc pX _ :: ops =>
      let base := put_base loc i l in
      let x := (entry_key t pX, entry_payload t pX) in
      if entries_size b t base + entry_size b t x.1 x.2 <=? cap then spec_entries ops (ins (put_place loc i l) x base)
      else ([], base, Some (put_place loc i l, x))
  | ERemove i :: ops => spec_entries ops (del i l)
  | EKey i :: ops => let '(rs, l', w) := spec_entries ops l in (inl (from_option fst 0 l.[i]) :: rs, l', w)
  | EFetch i offset amt _ :: ops => let '(rs, l', w) := spec_entries ops l in (inr (slice offset amt (from_option snd [] l.[i])) :: rs, l', w)
  end.

Definition entry_op_ok (o : entry_op) (l : list (Z * list Z)) : Prop :=
  match o with
  | EPut i loc pX newCell => entry_ok t pX /\ bytes_ok newCell /\ usableSize b <= zlen newCell /\
      (if loc =? 0 then 0 <= i < zlen l else 0 <= i /\ put_place loc i l <= zlen l)
  | ERemove i | EKey i => 0 <= i < zlen l
  | EFetch i offset amt pBuf => 0 <= i < zlen l /\ 0 <= offset /\ 0 <= amt /\ offset + amt <= zlen (from_option snd [] l.[i]) /\ amt <= zlen pBuf
  end.

(** The operations make sense, as long as everything fits. *)
Fixpoint entry_ops_ok (ops : list entry_op) (l : list (Z * list Z)) : Prop :=
  match ops with
  | [] => True
  | o :: ops => entry_op_ok o l /\
      match o with
      | EPut i loc pX _ => entry_ops_ok ops (ins (put_place loc i l) (entry_key t pX, entry_payload t pX) (put_base loc i l))
      | ERemove i => entry_ops_ok ops (del i l)
      | _ => entry_ops_ok ops l
      end
  end.

(** The pages that they may add to the database. *)
Definition ops_cost (ops : list entry_op) : Z :=
  foldr (fun o n => match o with EPut _ _ pX _ => page_cost (zlen (entry_payload t pX)) + n | _ => n end) 0 ops.
End spec.

(** The result of the operations on a list is that on the page. *)
Definition entries_result (s : Bt) (m : gmap Z (list Z)) (p : MemPage) (es : list Entry) (spec : list (Z + list Z) * list (Z * list Z) * option (Z * (Z * list Z)))
    (r : list (Z + list Z) * MemPage) (s' : Bt) : Prop :=
  let '(rs, l, w) := spec in
  exists m' es', r.1 = rs /\ view <$> es' = l /\
    match w with
    | None => leaf_page s' m' r.2 es' /\ others m' es' = others m es
    | Some (i, x) => exists p1 e, leaf_page s' m' p1 es' /\ waits (bt_shared s) m' r.2 p1 i e /\ view e = x /\ others m' (e :: es') = others m es
    end.

Lemma entries_result_move (s s1 s' : Bt) m m1 p p1 es es1 spec r : same_db s s1 -> others m1 es1 = others m es ->
  entries_result s1 m1 p1 es1 spec r s' -> entries_result s m p es spec r s'.
Proof using.
  intros [Eb _] Eo. unfold entries_result. destruct spec as [[rs l] w]. intros (m' & es' & H1 & H2 & Hw). exists m', es'. split; [done|]. split; [done|].
  destruct w as [[i x]|]; rewrite <- Eo, <- ?Eb; done.
Qed.

Lemma view_get es i : 0 <= i < zlen (view <$> es) -> exists e, es.[i] = Some e /\ (view <$> es).[i] = Some (view e).
Proof using. intros Hi. rewrite zlen_fmap in Hi. destruct (zget_some es i Hi) as [e Ee]. exists e. by rewrite zget_fmap, Ee. Qed.

Lemma cursor_ok p i : cursor_at (cursor p i) p i /\ fresh_cursor (cursor p i).
Proof using. done. Qed.

Lemma put_entry_ok s m p es i loc pX newCell temp : leaf_page s m p es -> entry_op_ok (bt_shared s) (pgType p) (EPut i loc pX newCell) (view <$> es) ->
  bytes_ok temp -> zlen temp = pageSize (bt_shared s) -> 1 <= nPage s -> nPage s + page_cost (zlen (entry_payload (pgType p) pX)) < 2 ^ 32 - 20 ->
  wp (insert_entry (cursor p i) pX loc newCell temp) s
    (put_entry s m p es (if loc =? 0 then del i es else es) (put_place loc i (view <$> es)) pX) (fun rc _ => QuietPager T -> rc = SQLITE_NOMEM).
Proof using.
  intros Hlp (He & Hcb & Hcl & Hi) Htb Htl H1 Hn. destruct (cursor_ok p i) as [Hat _]. pose proof (page_nCell _ _ _ (lp_page _ _ _ _ Hlp)) as Hnc. rewrite zlen_fmap in Hnc.
  assert (Hpre : store_pre s p pX newCell temp) by (constructor; done). destruct (Z.eqb_spec loc 0) as [->|Hloc].
  - destruct (view_get es i Hi) as (e0 & Ee & _). change (put_place 0 i (view <$> es)) with i. by apply (replace_entry_ok s m p es _ i e0).
  - destruct Hi as [Hi0 Hi]. unfold put_place in *. rewrite !zlen_fmap, <- Hnc in *.
    eapply bt_mono; [apply (add_entry_ok s m p es (cursor p i) i _ pX loc newCell temp Hlp Hat Hpre Hloc eq_refl); [done|by rewrite <- Hnc]|done|by intros rc s' _ Hq ?].
Qed.

Lemma page_cost_pos n : 0 <= n -> 0 < page_cost n.
Proof using. intros Hn. unfold page_cost. pose proof (Z.div_pos n 476). lia. Qed.

Lemma ops_cost_nonneg t ops : 0 <= ops_cost t ops.
Proof using.
  induction ops as [|o ops IH]; [done|]. cbn [ops_cost foldr] in *. fold (ops_cost t ops) in *. destruct o as [i loc pX newCell| | |]; try done.
  pose proof (page_cost_pos (zlen (entry_payload t pX)) (zlen_nonneg _)). lia.
Qed.

(** C16. A leaf page, with the overflow pages of its entries, is a list of keys
    and payloads.  Whatever entries are inserted, replaced, removed and read, at
    whatever places and of whatever sizes, what is read is what was stored; an
    entry is left to the balancing exactly when the cells do not fit, and the
    pages of the database are those that they were, those of the entries and the
    page itself, so that none is lost and none is shared; with a pager that does
    not fail, only lack of memory stops the operations. *)
Theorem leaf_page_refines temp ops : forall s m p es, leaf_page s m p es -> bytes_ok temp -> zlen temp = pageSize (bt_shared s) ->
  entry_ops_ok (bt_shared s) (pgType p) ops (view <$> es) -> 1 <= nPage s -> nPage s + ops_cost (pgType p) ops < 2 ^ 32 - 20 ->
  wp (run_entries temp ops p) s (entries_result s m p es (spec_entries (bt_shared s) (pgType p) (capacity (bt_shared s) p) ops (view <$> es)))
    (fun rc _ => QuietPager T -> rc = SQLITE_NOMEM).
Proof using.
  induction ops as [|o ops IH]; intros s m p es Hlp Htb Htl Hok H1 Hn; cbn [run_entries spec_entries].
  { apply bt_ret. by exists m, es. }
  pose proof (ops_cost_nonneg (pgType p) ops) as Hcost.
  destruct Hok as [Ho Hok]. cbn [ops_cost foldr] in Hn. fold (ops_cost (pgType p) ops) in Hn.
  destruct o as [i loc pX newCell|i|i|i offset amt pBuf].
  - set (n := page_cost (zlen (entry_payload (pgType p) pX))) in *. apply bt_bind.
    eapply bt_mono; [apply (put_entry_ok s m p es i loc pX newCell temp Hlp Ho Htb Htl H1); fold n; lia|intros c s1 (m1 & e & Hv & Hsd & Hn1 & Hput)|done]. fold n in Hn1.
    set (es1 := if loc =? 0 then del i es else es) in *. set (k := put_place loc i (view <$> es)) in *.
    assert (Ebase : put_base loc i (view <$> es) = view <$> es1) by (unfold put_base, es1; destruct (loc =? 0); [by rewrite del_fmap|done]). rewrite Ebase in *. cbn [fst snd].
    destruct (_ <=? capacity (bt_shared s) p) eqn:Efit.
    + destruct Hput as (Hlp1 & Hoth & Hfr). rewrite (po_ovfl _ _ _ (lp_page _ _ _ _ Hlp1)). cbn [length Nat.eqb negb]. rewrite <- Hv, <- ins_fmap in Hok |- *.
      pose proof Hsd as [Eb _]. assert (Ety : pgType (c_pPage c) = pgType p) by apply Hfr. assert (Ecap : capacity (bt_shared s) (c_pPage c) = capacity (bt_shared s) p) by (unfold capacity; by rewrite (BtCells.fr_off _ _ Hfr)).
      rewrite <- Ety, <- Ecap, <- Eb. eapply bt_mono; [apply (IH s1 m1 _ _ Hlp1 Htb); rewrite ?Eb, ?Ety; try done; lia|intros r s' Hr|done]. by eapply entries_result_move.
    + destruct Hput as (p1 & Hlp1 & Hw & Hoth & Hfr). destruct Hw as (cell & Ew & Hr & He). rewrite Ew. cbn [overflowed set_ovfl ovfl length Nat.eqb negb]. apply bt_ret.
      exists m1, es1. split; [done|]. split; [done|]. exists p1, e. split; [done|]. split; [by exists cell|]. by split.
  - destruct (view_get es i Ho) as (e & Ee & _). apply bt_bind. eapply bt_mono; [apply (delete_entry_ok s m p es _ i e Hlp (proj1 (cursor_ok p i)) Ee); lia|
      intros c s1 (m1 & Hlp1 & Hoth & Hfr & Hsd & Hn1)|done].
    pose proof Hsd as [Eb _]. assert (Ety : pgType (c_pPage c) = pgType p) by apply Hfr. assert (Ecap : capacity (bt_shared s) (c_pPage c) = capacity (bt_shared s) p) by (unfold capacity; by rewrite (BtCells.fr_off _ _ Hfr)).
    rewrite <- del_fmap in *. rewrite <- Ety, <- Ecap, <- Eb. eapply bt_mono; [apply (IH s1 m1 _ _ Hlp1 Htb); rewrite ?Eb, ?Ety; try done; lia|intros r s' Hr|done]. by eapply entries_result_move.
  - destruct (view_get es i Ho) as (e & Ee & Ev). apply bt_bind. eapply key_entry_ok; [done|apply cursor_ok..|exact Ee|]. intros c'. apply bt_bind.
    eapply bt_mono; [by apply (IH s m p es Hlp Htb)|intros [rs p'] s' Hr|done]. apply bt_ret. unfold entries_result in *. rewrite Ev. cbn [from_option].
    destruct (spec_entries _ _ _ ops _) as [[rs0 l] w]. destruct Hr as (m' & es' & E1 & E2 & Hw). exists m', es'. split; [cbn in *; by rewrite E1|done].
  - destruct Ho as (Hi & Ho1 & Ho2 & Ho3 & Ho4). destruct (view_get es i Hi) as (e & Ee & Ev). rewrite Ev in *. cbn [from_option snd view] in *. apply bt_bind.
    eapply bt_mono; [apply (read_entry_ok s m p es (cursor p i) i e offset amt pBuf Hlp); try apply cursor_ok; try done; lia|intros [[rc c'] buf] s1 (Hrc & Hq)|done].
    destruct (Z.eqb_spec rc SQLITE_OK) as [->|Hne]; cbn [negb]; [|apply bt_fail; [done|]; intros Hqp; by destruct (Hq Hqp)].
    destruct (Hrc eq_refl) as (Hlp1 & Hsd & Hn1 & (Lb & _ & Gb)). pose proof Hsd as [Eb _]. apply bt_bind. rewrite <- Eb.
    eapply bt_mono; [apply (IH s1 m p es Hlp1 Htb); rewrite ?Eb; done || lia|intros [rs p'] s' Hr|done]. apply bt_ret. rewrite Eb in *.
    apply (entries_result_move s s1 s' m m p p es es _ _ Hsd eq_refl). unfold entries_result in *. destruct (spec_entries _ _ _ ops _) as [[rs0 l] w].
    destruct Hr as (m' & es' & E1 & E2 & Hw). exists m', es'. split; [|done]. cbn in *. rewrite E1. do 2 f_equal.
    apply zget_ext; [rewrite zlen_take, length_slice; lia|]. intros j Hj. rewrite zlen_take in Hj by lia. rewrite zget_take, zget_slice by lia. by rewrite <- (Gb j Hj).
Qed.
End run.

(** * An example *)

#[local] Existing Instance unit_pager.
#[local] Existing Instance unit_quiet.
#[local] Instance sample_root : Root := 3.

(** An auto-vacuum database with an empty leaf page of a table. *)
Definition store_page : MemPage := default blank_page (zeroPage sample_bt blank_page 13).
Definition store_state : Bt unit :=
  mkBt sample_bt true false 3 (<[2 := 1 :: replicate 1023 0]> {[ 3 := aData store_page ]}) ∅ None [] tt.
Definition store_zeros : list Z := replicate 1024 0.
(** A payload of 3000 bytes and another one. *)
Definition store_first : BtreePayload := mkPayload [] 7 (seqZ 0 100) 2900.
Definition store_second : BtreePayload := mkPayload [] 9 [1; 2; 3] 0.
Definition store_ops : list entry_op :=
  [EPut 0 1 store_first store_zeros; EPut 0 (-1) store_second store_zeros; EFetch 0 90 20 store_zeros; EKey 1;
   EPut 0 0 store_second store_zeros; ERemove 1; EFetch 0 0 3 store_zeros].

Lemma store_page_ok : leaf_page store_state {[ 3 := aData store_page ]} store_page [].
Proof.
  destruct sample_raw as [Hh Hl Hb _]. destruct (zeroPage_ok sample_bt blank_page 13 sample_bt_ok Hh Hl Hb eq_refl) as (p0 & E0 & Hp0 & L0 & T0 & _).
  assert (E : p0 = store_page) by (unfold store_page; by rewrite E0). rewrite E in *. change (pageSize sample_bt) with 1024 in L0.
  assert (Hbd : bytes_ok (aData store_page)) by (apply (bool_decide_unpack _); by vm_compute).
  constructor; [|done|constructor|split; [|constructor]]; [|change (entry_pages []) with (@nil Z); apply NoDup_singleton]. constructor; [| |exact sample_bt_ok|apply lookup_singleton_eq|by vm_compute].
  - constructor.
    + constructor; [split; by vm_compute..| |done|intros q _; apply not_elem_of_empty]. intros q d. cbn [bt_pages store_state]. rewrite lookup_insert_Some, lookup_singleton_Some.
      intros [[<- <-]|[_ [<- <-]]]; [|by split]. split; [by vm_compute|]. constructor; [unfold byte_ok; lia|apply Forall_replicate; unfold byte_ok; lia].
    + exists []. split; [|split; [intros q _; apply not_elem_of_nil|]].
      * constructor; [exists 0; split; [by vm_compute|done]|by vm_compute|constructor..|]. intros _. constructor.
      * intros q [[Hr Ho] _]. left. destruct (Ho eq_refl) as (_ & Hi & _). cbn in Hr. assert (q = 2 \/ q = 3) as [->| ->] by lia; [by vm_compute in Hi|by rewrite lookup_singleton_eq].
    + intros q d. rewrite lookup_singleton_Some. intros [<- <-]. split; [|by vm_compute]. split; [cbn; lia|]. intros _. split; [lia|]. by vm_compute.
  - intros _ g [d Hg]. apply lookup_singleton_Some in Hg as [<- _]. intros _. exists 1, 0. split; [by vm_compute|]. split; [by vm_compute|]. split; [lia|done].
Qed.

Lemma leaf_page_refines_witness : wp (run_entries store_zeros store_ops store_page) store_state
  (entries_result store_state {[ 3 := aData store_page ]} store_page [] ([inr (seqZ 90 10 ++ replicate 10 0); inl 9; inr [1; 2; 3]], [(9, [1; 2; 3])], None))
  (fun rc _ => QuietPager unit -> rc = SQLITE_NOMEM).
Proof.
  assert (Hz : bytes_ok store_zeros) by (apply Forall_replicate; unfold byte_ok; lia).
  assert (E1 : entry_ok sample_type store_first /\ entry_ok sample_type store_second).
  { split; (constructor; [apply (bool_decide_unpack _); by vm_compute|constructor|by vm_compute|by vm_compute|split; by vm_compute]). }
  destruct E1 as [E1 E2].
  apply (leaf_page_refines store_zeros store_ops store_state _ store_page [] store_page_ok Hz eq_refl); [|by vm_compute|by vm_compute].
  change (pgType store_page) with sample_type.
  repeat split; try done; try (by vm_compute); apply E1 || apply E2.
Defined.

(** Storing 3000 bytes took the pages 4 and 5, which were freed; they are the trunk
    and its leaf in the list of free pages. *)
Example leaf_page_run : match run_entries store_zeros store_ops store_page store_state with
  | Some (inr (rs, p), s) => (rs, nCell p, nPage s, get4 (content s 1) 32, get4 (content s 1) 36) = ([inr (seqZ 90 10 ++ replicate 10 0); inl 9; inr [1; 2; 3]], 1, 5, Some 4, Some 2)
  | _ => False
  end.
Proof. by vm_compute. Qed.
