(* ===== verification/BtMove.v ===== *)
(** Moving a cursor over a B-tree (btree.c): [getAndInitPage], [moveToChild],
    [moveToParent], [moveToRoot], the first and the last entry, the next and the
    previous one, searching a table, and saving and restoring a position. *)
From S2P Require Import Prelude.
From S2P Require Import Bits.
From S2P Require Import Varint.
From S2P Require Import Util.
From S2P Require Import Vfs.
From S2P Require Import Mem.
From S2P Require Import BtPage.
From S2P Require Import BtPages.
Open Scope Z_scope.

Definition BTCURSOR_MAX_DEPTH : Z := 20.
Definition SQLITE_EMPTY : Z := 16.
Definition SQLITE_DONE : Z := 101.
Definition SQLITE_CONSTRAINT_PINNED : Z := 2835.

Inductive CursorState := CURSOR_VALID | CURSOR_INVALID | CURSOR_SKIPNEXT | CURSOR_REQUIRESEEK | CURSOR_FAULT.
#[export] Instance CursorState_eq_dec : EqDecision CursorState.
Proof. solve_decision. Defined.

(** [eState>=CURSOR_REQUIRESEEK] *)
Definition requires_seek (e : CursorState) : bool :=
  match e with CURSOR_REQUIRESEEK | CURSOR_FAULT => true | _ => false end.

(** [BtCursor]; pages are given by their numbers.  [pKeyInfo] is whether there
    is one, [savedKey] the field [nKey].  [pKey] is null, as it always is for a
    table. *)
Record Cursor := mkCursor {
  eState : CursorState;
  AtLast : bool;
  ValidNKey : bool;
  ValidOvfl : bool;
  Pinned : bool;
  curPagerFlags : Z;
  skipNext : Z;
  info : CellInfo;
  savedKey : Z;
  pgnoRoot : Z;
  iPage : Z;
  curIntKey : bool;
  ix : Z;
  aiIdx : list Z;
  pKeyInfo : bool;
  pPage : Z;
  apPage : list Z;
}.

Definition set_state (e : CursorState) (c : Cursor) : Cursor :=
  mkCursor e (AtLast c) (ValidNKey c) (ValidOvfl c) (Pinned c) (curPagerFlags c) (skipNext c) (info c) (savedKey c) (pgnoRoot c) (iPage c) (curIntKey c) (ix c) (aiIdx c) (pKeyInfo c) (pPage c) (apPage c).
Definition set_AtLast (b : bool) (c : Cursor) : Cursor :=
  mkCursor (eState c) b (ValidNKey c) (ValidOvfl c) (Pinned c) (curPagerFlags c) (skipNext c) (info c) (savedKey c) (pgnoRoot c) (iPage c) (curIntKey c) (ix c) (aiIdx c) (pKeyInfo c) (pPage c) (apPage c).
Definition set_skipNext (n : Z) (c : Cursor) : Cursor :=
  mkCursor (eState c) (AtLast c) (ValidNKey c) (ValidOvfl c) (Pinned c) (curPagerFlags c) n (info c) (savedKey c) (pgnoRoot c) (iPage c) (curIntKey c) (ix c) (aiIdx c) (pKeyInfo c) (pPage c) (apPage c).
Definition set_savedKey (k : Z) (c : Cursor) : Cursor :=
  mkCursor (eState c) (AtLast c) (ValidNKey c) (ValidOvfl c) (Pinned c) (curPagerFlags c) (skipNext c) (info c) k (pgnoRoot c) (iPage c) (curIntKey c) (ix c) (aiIdx c) (pKeyInfo c) (pPage c) (apPage c).
Definition set_curIntKey (b : bool) (c : Cursor) : Cursor :=
  mkCursor (eState c) (AtLast c) (ValidNKey c) (ValidOvfl c) (Pinned c) (curPagerFlags c) (skipNext c) (info c) (savedKey c) (pgnoRoot c) (iPage c) b (ix c) (aiIdx c) (pKeyInfo c) (pPage c) (apPage c).
Definition set_ix (i : Z) (c : Cursor) : Cursor :=
  mkCursor (eState c) (AtLast c) (ValidNKey c) (ValidOvfl c) (Pinned c) (curPagerFlags c) (skipNext c) (info c) (savedKey c) (pgnoRoot c) (iPage c) (curIntKey c) i (aiIdx c) (pKeyInfo c) (pPage c) (apPage c).
(** The page [pg], which is the [i]-th of the path. *)
Definition set_level (i pg : Z) (c : Cursor) : Cursor :=
  mkCursor (eState c) (AtLast c) (ValidNKey c) (ValidOvfl c) (Pinned c) (curPagerFlags c) (skipNext c) (info c) (savedKey c) (pgnoRoot c) i (curIntKey c) (ix c) (aiIdx c) (pKeyInfo c) pg (apPage c).
Definition set_stack (idx ap : list Z) (c : Cursor) : Cursor :=
  mkCursor (eState c) (AtLast c) (ValidNKey c) (ValidOvfl c) (Pinned c) (curPagerFlags c) (skipNext c) (info c) (savedKey c) (pgnoRoot c) (iPage c) (curIntKey c) (ix c) idx (pKeyInfo c) (pPage c) ap.
(** The information on the cell, and whether its key is valid. *)
Definition set_cell (i : CellInfo) (valid : bool) (c : Cursor) : Cursor :=
  mkCursor (eState c) (AtLast c) valid (ValidOvfl c) (Pinned c) (curPagerFlags c) (skipNext c) i (savedKey c) (pgnoRoot c) (iPage c) (curIntKey c) (ix c) (aiIdx c) (pKeyInfo c) (pPage c) (apPage c).
(** [info.nSize = 0] *)
Definition no_size (i : CellInfo) : CellInfo := mkCellInfo (nKey i) (pPayload i) (nPayload i) (nLocal i) 0.
(** [pCur->info.nSize = 0; pCur->curFlags &= ~(BTCF_ValidNKey|BTCF_ValidOvfl);] *)
Definition forget_cell (c : Cursor) : Cursor :=
  mkCursor (eState c) (AtLast c) false false (Pinned c) (curPagerFlags c) (skipNext c) (no_size (info c)) (savedKey c) (pgnoRoot c) (iPage c) (curIntKey c) (ix c) (aiIdx c) (pKeyInfo c) (pPage c) (apPage c).

(** [pCur->curFlags &= ~(BTCF_ValidNKey|BTCF_ValidOvfl)] *)
Definition forget_flags (c : Cursor) : Cursor :=
  mkCursor (eState c) (AtLast c) false false (Pinned c) (curPagerFlags c) (skipNext c) (info c) (savedKey c) (pgnoRoot c) (iPage c) (curIntKey c) (ix c) (aiIdx c) (pKeyInfo c) (pPage c) (apPage c).

(** The database with the [MemPage]s of the page cache; those of the pages in
    [bt_isInit] are initialised.  Their bytes are the content of the page. *)
Record Db (T : Type) := mkDb {
  db_bt : Bt T;
  db_mem : gmap Z MemPage;
}.
#[global] Arguments mkDb {_}.
#[global] Arguments db_bt {_}.
#[global] Arguments db_mem {_}.

Definition hdr_of (pgno : Z) : Z := if pgno =? 1 then 100 else 0.

Section code.
Context {T : Type} {P : Pager T}.
Abbreviation Db := (Db T).

Definition page_isInit (d : Db) (pg : Z) : bool := bool_decide (pg ∈ bt_isInit (db_bt d)).
Definition page_of (d : Db) (pg : Z) : option MemPage := set_aData (content (db_bt d) pg) <$> db_mem d !! pg.

(** [btreePageFromDbPage] and [btreeInitPage] of a page that is not initialised. *)
Definition init_page (d : Db) (pg : Z) : option (Z * Db) :=
  let bt := db_bt d in
  let q := default (mkMemPage false (mkPageType false false false 0 0 0 0 cs_Ptr pc_Index) 0 0 0 0 0 [] []) (db_mem d !! pg) in
  let q := mkMemPage false (pgType q) (hdr_of pg) (cellOffset q) (nFree q) (nCell q) (maskPage q) (ovfl q) (content bt pg) in
  '(rc, p) ← btreeInitPage (bt_shared bt) q;
  let inits := if isInit p then bt_isInit bt ∪ {[pg]} else bt_isInit bt in
  Some (rc, mkDb (mkBt (bt_shared bt) (autoVacuum bt) (bDoTruncate bt) (nPage bt) (bt_pages bt) inits (pHasContent bt) (bt_alloc bt) (pPager bt))
              (<[pg := p]> (db_mem d))).

(** ** Opening a cursor *)

Definition sqlite3BtreeCursorZero (c : Cursor) : Cursor :=
  mkCursor CURSOR_VALID false false false false 0 0 (info c) (savedKey c) (pgnoRoot c) (iPage c) (curIntKey c) (ix c) (aiIdx c) (pKeyInfo c) (pPage c) (apPage c).

(** On the memory [c].  The list of all cursors and the buffer for new cells are
    left out. *)
Definition btreeCursor (d : Db) (iTable : Z) (wrFlag keyInfo : bool) (c : Cursor) : Z * Cursor :=
  if iTable <? 1 then (SQLITE_CORRUPT, c)
  else
    let iTable := if (iTable <=? 1) && (nPage (db_bt d) =? 0) then 0 else iTable in
    (SQLITE_OK, mkCursor CURSOR_INVALID false false false false (if wrFlag then 0 else PAGER_GET_READONLY) (skipNext c) (info c) (savedKey c) iTable (-1) (curIntKey c)
                  (ix c) (aiIdx c) keyInfo (pPage c) (apPage c)).

(** ** Fetching a page *)

(** [kind] is [pCur->curIntKey] when there is a cursor; that a cursor goes back
    to the parent is in [moveToChild]. *)
Definition getAndInitPage (d : Db) (pgno : Z) (kind : option bool) (bReadOnly : Z) : option (Z * Db) :=
  if pgno >? nPage (db_bt d) then Some (SQLITE_CORRUPT, d)
  else
    '(r, bt) ← pager_get pgno bReadOnly (db_bt d);
    let d := mkDb bt (db_mem d) in
    match r with
    | inl rc => Some (rc, d)
    | inr _ =>
        '(rc, d) ← (if page_isInit d pgno then Some (SQLITE_OK, d) else init_page d pgno);
        if negb (rc =? SQLITE_OK) then Some (rc, d)
        else
          p ← page_of d pgno;
          if match kind with Some k => (nCell p <? 1) || negb (Bool.eqb (intKey (pgType p)) k) | None => false end then Some (SQLITE_CORRUPT, d)
          else Some (SQLITE_OK, d)
    end.

Definition moveToChild (c : Cursor) (d : Db) (newPgno : Z) : option (Z * Cursor * Db) :=
  if iPage c >=? BTCURSOR_MAX_DEPTH - 1 then Some (SQLITE_CORRUPT, c, d)
  else
    let c := forget_cell c in
    idx ← (aiIdx c).[iPage c <- ix c];
    ap ← (apPage c).[iPage c <- pPage c];
    let c := set_ix 0 (set_stack idx ap c) in
    '(rc, d) ← getAndInitPage d newPgno (Some (curIntKey c)) (curPagerFlags c);
    if rc =? SQLITE_OK then Some (SQLITE_OK, set_level (iPage c + 1) newPgno c, d)
    else
      pg ← ap.[iPage c];
      Some (rc, set_level (iPage c) pg c, d).

Definition moveToParent (c : Cursor) : option Cursor :=
  let c := forget_cell c in
  i ← (aiIdx c).[iPage c - 1];
  pg ← (apPage c).[iPage c - 1];
  Some (set_level (iPage c - 1) pg (set_ix i c)).

Definition sqlite3BtreeClearCursor (c : Cursor) : Cursor := set_state CURSOR_INVALID c.
Definition btreeReleaseAllCursorPages (c : Cursor) : Cursor := if iPage c >=? 0 then set_level (-1) (pPage c) c else c.

(** From [skip_init] on. *)
Definition root_ready (c : Cursor) (d : Db) : option (Z * Cursor * Db) :=
  pRoot ← page_of d (pPage c);
  let c := set_AtLast false (forget_cell (set_ix 0 c)) in
  if nCell pRoot >? 0 then Some (SQLITE_OK, set_state CURSOR_VALID c, d)
  else if negb (leaf (pgType pRoot)) then
    if negb (pPage c =? 1) then Some (SQLITE_CORRUPT, c, d)
    else
      subpage ← get4 (aData pRoot) (hdrOffset pRoot + 8);
      moveToChild (set_state CURSOR_VALID c) d subpage
  else Some (SQLITE_EMPTY, set_state CURSOR_INVALID c, d).

(** The root page is of the kind that was asked for. *)
Definition root_check (c : Cursor) (d : Db) : option (Z * Cursor * Db) :=
  pRoot ← page_of d (pPage c);
  if negb (page_isInit d (pPage c)) || negb (Bool.eqb (negb (pKeyInfo c)) (intKey (pgType pRoot))) then Some (SQLITE_CORRUPT, c, d)
  else root_ready c d.

Definition moveToRoot (c : Cursor) (d : Db) : option (Z * Cursor * Db) :=
  if iPage c >=? 0 then
    if negb (iPage c =? 0) then pg ← (apPage c).[0]; root_ready (set_level 0 pg c) d
    else root_check c d
  else if pgnoRoot c =? 0 then Some (SQLITE_EMPTY, set_state CURSOR_INVALID c, d)
  else if bool_decide (eState c = CURSOR_FAULT) then Some (skipNext c, c, d)
  else
    let c := if requires_seek (eState c) then sqlite3BtreeClearCursor c else c in
    '(rc, d) ← getAndInitPage d (pgnoRoot c) None (curPagerFlags c);
    if negb (rc =? SQLITE_OK) then Some (rc, set_state CURSOR_INVALID c, d)
    else
      p ← page_of d (pgnoRoot c);
      root_check (set_curIntKey (intKey (pgType p)) (set_level 0 (pgnoRoot c) c)) d.

(** The right child, and the child of the [i]-th cell. *)
Definition right_child (p : MemPage) : option Z := get4 (aData p) (hdrOffset p + 8).
Definition cell_child (p : MemPage) (i : Z) : option Z := pc ← findCell p i; get4 (aData p) pc.

Fixpoint moveToLeftmost (fuel : nat) (c : Cursor) (d : Db) : option (Z * Cursor * Db) :=
  match fuel with
  | O => None
  | S fuel =>
      p ← page_of d (pPage c);
      if leaf (pgType p) then Some (SQLITE_OK, c, d)
      else
        pgno ← cell_child p (ix c);
        '(rc, c, d) ← moveToChild c d pgno;
        if rc =? SQLITE_OK then moveToLeftmost fuel c d else Some (rc, c, d)
  end.

Fixpoint moveToRightmost (fuel : nat) (c : Cursor) (d : Db) : option (Z * Cursor * Db) :=
  match fuel with
  | O => None
  | S fuel =>
      p ← page_of d (pPage c);
      if leaf (pgType p) then Some (SQLITE_OK, set_ix (u16 (nCell p - 1)) c, d)
      else
        pgno ← right_child p;
        '(rc, c, d) ← moveToChild (set_ix (nCell p) c) d pgno;
        if rc =? SQLITE_OK then moveToRightmost fuel c d else Some (rc, c, d)
  end.

(** No path has more pages. *)
Definition max_path : nat := Z.to_nat BTCURSOR_MAX_DEPTH + 1.

(** ** The first and the last entry *)

(** With the value of [*pRes]. *)
Definition sqlite3BtreeFirst (c : Cursor) (d : Db) (pRes : Z) : option (Z * Z * Cursor * Db) :=
  '(rc, c, d) ← moveToRoot c d;
  if rc =? SQLITE_OK then '(rc, c, d) ← moveToLeftmost max_path c d; Some (rc, 0, c, d)
  else if rc =? SQLITE_EMPTY then Some (SQLITE_OK, 1, c, d)
  else Some (rc, pRes, c, d).

Definition btreeLast (c : Cursor) (d : Db) (pRes : Z) : option (Z * Z * Cursor * Db) :=
  '(rc, c, d) ← moveToRoot c d;
  if rc =? SQLITE_OK then
    '(rc, c, d) ← moveToRightmost max_path c d;
    Some (rc, 0, set_AtLast (rc =? SQLITE_OK) c, d)
  else if rc =? SQLITE_EMPTY then Some (SQLITE_OK, 1, c, d)
  else Some (rc, pRes, c, d).

Definition sqlite3BtreeLast (c : Cursor) (d : Db) (pRes : Z) : option (Z * Z * Cursor * Db) :=
  if bool_decide (eState c = CURSOR_VALID) && AtLast c then Some (SQLITE_OK, 0, c, d) else btreeLast c d pRes.

Definition sqlite3BtreeEof (c : Cursor) : bool := negb (bool_decide (eState c = CURSOR_VALID)).

(** ** The next and the previous entry *)

(** How far [btreeNext] and [btreePrevious] get before they look at the page:
    [inl] is a return. *)
Definition restored (restore : Cursor -> Db -> option (Z * Cursor * Db)) (skip : Z -> bool) (c : Cursor) (d : Db) : option (Z * Cursor * Db + Cursor * Db) :=
  if bool_decide (eState c = CURSOR_VALID) then Some (inr (c, d))
  else
    '(rc, c, d) ← restore c d;
    if negb (rc =? SQLITE_OK) then Some (inl (rc, c, d))
    else if bool_decide (eState c = CURSOR_INVALID) then Some (inl (SQLITE_DONE, c, d))
    else if bool_decide (eState c = CURSOR_SKIPNEXT) then
      let c := set_state CURSOR_VALID c in
      if skip (skipNext c) then Some (inl (SQLITE_OK, c, d)) else Some (inr (c, d))
    else Some (inr (c, d)).

(** [do{ }while( pCur->ix>=pPage->nCell )]; [false] at the end of the tree. *)
Fixpoint up_next (fuel : nat) (c : Cursor) (d : Db) : option (bool * Cursor) :=
  match fuel with
  | O => None
  | S fuel =>
      if iPage c =? 0 then Some (false, c)
      else
        c ← moveToParent c;
        p ← page_of d (pPage c);
        if ix c >=? nCell p then up_next fuel c d else Some (true, c)
  end.

(** [while( pCur->ix==0 )] *)
Fixpoint up_previous (fuel : nat) (c : Cursor) : option (bool * Cursor) :=
  match fuel with
  | O => None
  | S fuel =>
      if negb (ix c =? 0) then Some (true, c)
      else if iPage c =? 0 then Some (false, c)
      else c ← moveToParent c; up_previous fuel c
  end.

(** [restore] is [restoreCursorPosition], [again] the call of the public
    function for the parent of a leaf. *)
Definition Step : Type := Cursor -> Db -> option (Z * Cursor * Db).

Definition btreeNext (restore again : Step) : Step := fun c d =>
  r ← restored restore (fun n => n >? 0) c d;
  match r with
  | inl r => Some r
  | inr (c, d) =>
      let c := set_ix (u16 (ix c + 1)) c in
      p ← page_of d (pPage c);
      if negb (page_isInit d (pPage c)) then Some (SQLITE_CORRUPT, c, d)
      else if ix c >=? nCell p then
        if negb (leaf (pgType p)) then
          pgno ← right_child p;
          '(rc, c, d) ← moveToChild c d pgno;
          if negb (rc =? SQLITE_OK) then Some (rc, c, d) else moveToLeftmost max_path c d
        else
          '(found, c) ← up_next max_path c d;
          if negb found then Some (SQLITE_DONE, set_state CURSOR_INVALID c, d)
          else
            p ← page_of d (pPage c);
            if intKey (pgType p) then again c d else Some (SQLITE_OK, c, d)
      else if leaf (pgType p) then Some (SQLITE_OK, c, d)
      else moveToLeftmost max_path c d
  end.

(** [fuel] bounds the calls: one, and one for a parent. *)
Fixpoint next_step (fuel : nat) (restore : Step) : Step := fun c d =>
  match fuel with
  | O => None
  | S fuel =>
      let c := forget_cell c in
      if negb (bool_decide (eState c = CURSOR_VALID)) then btreeNext restore (next_step fuel restore) c d
      else
        p ← page_of d (pPage c);
        let i := u16 (ix c + 1) in
        if i >=? nCell p then btreeNext restore (next_step fuel restore) (set_ix (u16 (i - 1)) c) d
        else if leaf (pgType p) then Some (SQLITE_OK, set_ix i c, d)
        else moveToLeftmost max_path (set_ix i c) d
  end.

Definition btreePrevious (restore again : Step) : Step := fun c d =>
  r ← restored restore (fun n => n <? 0) c d;
  match r with
  | inl r => Some r
  | inr (c, d) =>
      p ← page_of d (pPage c);
      if negb (leaf (pgType p)) then
        pgno ← cell_child p (ix c);
        '(rc, c, d) ← moveToChild c d pgno;
        if negb (rc =? SQLITE_OK) then Some (rc, c, d) else moveToRightmost max_path c d
      else
        '(found, c) ← up_previous max_path c;
        if negb found then Some (SQLITE_DONE, set_state CURSOR_INVALID c, d)
        else
          let c := set_ix (u16 (ix c - 1)) c in
          p ← page_of d (pPage c);
          if intKey (pgType p) && negb (leaf (pgType p)) then again c d else Some (SQLITE_OK, c, d)
  end.

Fixpoint previous_step (fuel : nat) (restore : Step) : Step := fun c d =>
  match fuel with
  | O => None
  | S fuel =>
      let c := set_AtLast false (forget_cell c) in
      if negb (bool_decide (eState c = CURSOR_VALID)) || (ix c =? 0) then btreePrevious restore (previous_step fuel restore) c d
      else
        p ← page_of d (pPage c);
        if negb (leaf (pgType p)) then btreePrevious restore (previous_step fuel restore) c d
        else Some (SQLITE_OK, set_ix (u16 (ix c - 1)) c, d)
  end.

(** ** Searching a table *)

Definition getCellInfo (c : Cursor) (d : Db) : option Cursor :=
  if nSize (info c) =? 0 then
    p ← page_of d (pPage c);
    i ← btreeParseCell (bt_shared (db_bt d)) p (ix c);
    Some (set_cell i true c)
  else Some c.

Definition sqlite3BtreeIntegerKey (c : Cursor) (d : Db) : option (Z * Cursor) :=
  c ← getCellInfo c d; Some (nKey (info c), c).

(** [while( 0x80 <= *(pCell++) )]; [None] inside: the page is corrupt. *)
Fixpoint skip_payload_size (fuel : nat) (data : list Z) (pCell aDataEnd : Z) : option (option Z) :=
  match fuel with
  | O => None
  | S fuel =>
      b ← data.[pCell];
      let pCell := pCell + 1 in
      if 0x80 <=? b then if pCell >=? aDataEnd then Some None else skip_payload_size fuel data pCell aDataEnd
      else Some (Some pCell)
  end.

(** The key of the [idx]-th cell, as the search reads it. *)
Definition search_key (b : BtShared) (p : MemPage) (idx : Z) : option (option Z) :=
  pc ← findCell p idx;
  let pCell := pc + childPtrSize (pgType p) in
  r ← (if intKeyLeaf (pgType p) then skip_payload_size (length (aData p)) (aData p) pCell (pageSize b) else Some (Some pCell));
  match r with
  | None => Some None
  | Some pCell => '(_, k) ← sqlite3GetVarint (drop (Z.to_nat pCell) (aData p)); Some (Some (i64 k))
  end.

(** The binary search of a page: the result of the last comparison, [idx] and
    [lwr]; [None] inside: the page is corrupt. *)
Fixpoint search_page (fuel : nat) (b : BtShared) (p : MemPage) (key lwr upr idx : Z) : option (option (Z * Z * Z)) :=
  match fuel with
  | O => None
  | S fuel =>
      r ← search_key b p idx;
      match r with
      | None => Some None
      | Some nCellKey =>
          if nCellKey <? key then
            let lwr := idx + 1 in
            if lwr >? upr then Some (Some (-1, idx, lwr)) else search_page fuel b p key lwr upr (Z.shiftr (lwr + upr) 1)
          else if nCellKey >? key then
            let upr := idx - 1 in
            if lwr >? upr then Some (Some (1, idx, lwr)) else search_page fuel b p key lwr upr (Z.shiftr (lwr + upr) 1)
          else Some (Some (0, idx, if leaf (pgType p) then lwr else idx))
      end
  end.

(** From the page the cursor is at, down to a leaf; with the value of [*pRes]. *)
Fixpoint search_down (fuel : nat) (c : Cursor) (d : Db) (key biasRight pRes : Z) : option (Z * Z * Cursor * Db) :=
  match fuel with
  | O => None
  | S fuel =>
      p ← page_of d (pPage c);
      let upr := nCell p - 1 in
      r ← search_page (Z.to_nat (nCell p) + 1) (bt_shared (db_bt d)) p key 0 upr (Z.shiftr upr (1 - biasRight));
      match r with
      | None => Some (SQLITE_CORRUPT, pRes, c, d)
      | Some (cmp, idx, lwr) =>
          if leaf (pgType p) then
            let c := set_ix (u16 idx) c in
            let i := info c in
            if cmp =? 0 then Some (SQLITE_OK, 0, set_cell (mkCellInfo key (pPayload i) (nPayload i) (nLocal i) 0) true c, d)
            else Some (SQLITE_OK, cmp, set_cell (no_size i) (ValidNKey c) c, d)
          else
            chldPg ← (if lwr >=? nCell p then right_child p else cell_child p lwr);
            '(rc, c, d) ← moveToChild (set_ix (u16 lwr) c) d chldPg;
            if rc =? SQLITE_OK then search_down fuel c d key biasRight pRes
            else Some (rc, pRes, set_cell (no_size (info c)) (ValidNKey c) c, d)
      end
  end.

(** From [moveToRoot] on. *)
Definition search_root (c : Cursor) (d : Db) (key biasRight pRes : Z) : option (Z * Z * Cursor * Db) :=
  '(rc, c, d) ← moveToRoot c d;
  if rc =? SQLITE_OK then search_down max_path c d key biasRight pRes
  else if rc =? SQLITE_EMPTY then Some (SQLITE_OK, -1, c, d)
  else Some (rc, pRes, c, d).

(** The cursor that is moved to the next entry is valid: there is nothing to restore. *)
Definition sqlite3BtreeTableMoveto (c : Cursor) (d : Db) (key biasRight pRes : Z) : option (Z * Z * Cursor * Db) :=
  if bool_decide (eState c = CURSOR_VALID) && ValidNKey c then
    if nKey (info c) =? key then Some (SQLITE_OK, 0, c, d)
    else if nKey (info c) <? key then
      if AtLast c then Some (SQLITE_OK, -1, c, d)
      else if i64 (nKey (info c) + 1) =? key then
        '(rc, c, d) ← next_step 2 (fun _ _ => None) c d;
        if rc =? SQLITE_OK then
          c ← getCellInfo c d;
          if nKey (info c) =? key then Some (SQLITE_OK, 0, c, d) else search_root c d key biasRight 0
        else if negb (rc =? SQLITE_DONE) then Some (rc, 0, c, d)
        else search_root c d key biasRight 0
      else search_root c d key biasRight pRes
    else search_root c d key biasRight pRes
  else search_root c d key biasRight pRes.

(** ** Saving and restoring a position in a table *)

Definition saveCursorKey (c : Cursor) (d : Db) : option (Z * Cursor) :=
  '(k, c) ← sqlite3BtreeIntegerKey c d; Some (SQLITE_OK, set_savedKey k c).

Definition saveCursorPosition (c : Cursor) (d : Db) : option (Z * Cursor) :=
  if Pinned c then Some (SQLITE_CONSTRAINT_PINNED, c)
  else
    let c := if bool_decide (eState c = CURSOR_SKIPNEXT) then set_state CURSOR_VALID c else set_skipNext 0 c in
    '(rc, c) ← saveCursorKey c d;
    let c := if rc =? SQLITE_OK then set_state CURSOR_REQUIRESEEK (btreeReleaseAllCursorPages c) else c in
    Some (rc, set_AtLast false (forget_flags c)).

(** [saveCursorsOnList] for one cursor. *)
Definition save_cursor (c : Cursor) (d : Db) : option (Z * Cursor) :=
  if bool_decide (eState c = CURSOR_VALID) || bool_decide (eState c = CURSOR_SKIPNEXT) then saveCursorPosition c d
  else Some (SQLITE_OK, btreeReleaseAllCursorPages c).

Definition btreeRestoreCursorPosition : Step := fun c d =>
  if bool_decide (eState c = CURSOR_FAULT) then Some (skipNext c, c, d)
  else
    '(rc, skip, c, d) ← sqlite3BtreeTableMoveto (set_state CURSOR_INVALID c) d (savedKey c) 0 0;
    if rc =? SQLITE_OK then
      let c := if negb (skip =? 0) then set_skipNext skip c else c in
      Some (rc, if negb (skipNext c =? 0) && bool_decide (eState c = CURSOR_VALID) then set_state CURSOR_SKIPNEXT c else c, d)
    else Some (rc, c, d).

Definition restoreCursorPosition : Step := fun c d =>
  if requires_seek (eState c) then btreeRestoreCursorPosition c d else Some (SQLITE_OK, c, d).

Definition sqlite3BtreeNext : Step := next_step 2 restoreCursorPosition.
Definition sqlite3BtreePrevious : Step := previous_step 2 restoreCursorPosition.

Definition sqlite3BtreeCursorHasMoved (c : Cursor) : bool := negb (bool_decide (eState c = CURSOR_VALID)).

(** With [*pDifferentRow]. *)
Definition sqlite3BtreeCursorRestore (c : Cursor) (d : Db) : option (Z * bool * Cursor * Db) :=
  '(rc, c, d) ← restoreCursorPosition c d;
  if negb (rc =? SQLITE_OK) then Some (rc, true, c, d)
  else Some (SQLITE_OK, negb (bool_decide (eState c = CURSOR_VALID)), c, d).

(** ** Counting *)

(** [isInterrupted] is whether the connection was told to stop. *)
Definition count_next (c : Cursor) (d : Db) : option (Z * Cursor * Db) :=
  p ← page_of d (pPage c);
  pgno ← (if ix c =? nCell p then right_child p else cell_child p (ix c));
  moveToChild c d pgno.

(** The pages from the cursor on; [n] entries were counted; the second result is
    [*pnEntry] when it is written. *)
Fixpoint count_loop (fuel : nat) (isInterrupted : T -> bool) (n : Z) (c : Cursor) (d : Db) : option (Z * option Z * Cursor * Db) :=
  match fuel with
  | O => None
  | S fuel =>
      if isInterrupted (pPager (db_bt d)) then Some (SQLITE_OK, None, c, d)
      else
        p ← page_of d (pPage c);
        let n := if leaf (pgType p) || negb (intKey (pgType p)) then n + nCell p else n in
        if leaf (pgType p) then
          '(found, c) ← up_next max_path c d;
          if negb found then '(rc, c, d) ← moveToRoot c d; Some (rc, Some n, c, d)
          else
            '(rc, c, d) ← count_next (set_ix (u16 (ix c + 1)) c) d;
            if rc =? SQLITE_OK then count_loop fuel isInterrupted n c d else Some (rc, None, c, d)
        else
          '(rc, c, d) ← count_next c d;
          if rc =? SQLITE_OK then count_loop fuel isInterrupted n c d else Some (rc, None, c, d)
  end.

Definition sqlite3BtreeCount (fuel : nat) (isInterrupted : T -> bool) (c : Cursor) (d : Db) : option (Z * option Z * Cursor * Db) :=
  '(rc, c, d) ← moveToRoot c d;
  if rc =? SQLITE_EMPTY then Some (SQLITE_OK, Some 0, c, d)
  else if rc =? SQLITE_OK then count_loop fuel isInterrupted 0 c d
  else Some (rc, None, c, d).
End code.
