(* ===== verification/BtTree.v ===== *)
(** B-trees and the way of a cursor through them: the entries of a tree of
    pages in order, and what the moves of BtMove.v do to a position in this
    list, in tables and in indexes. *)
From S2P Require Import Prelude.
From S2P Require Import Bits.
From S2P Require Import Util.
From S2P Require Import Vfs.
From S2P Require Import Mem.
From S2P Require Import BtPage.
From S2P Require Import BtSpace.
From S2P Require Import BtDefrag.
From S2P Require Import BtCells.
From S2P Require Import BtList.
From S2P Require Import BtPages.
From S2P Require Import BtMove.
Open Scope Z_scope.

Lemma zlen_pos {A} (l : list A) : l <> [] -> 0 < zlen l.
Proof. destruct l as [|x l]; [done|]. intros _. rewrite zlen_cons. pose proof (zlen_nonneg l). lia. Qed.

(** * Trees *)

(** A page with its number, its header, its cells and the pages below it. *)
#[warnings="-register-all"] Inductive tree := Tree (pg : Z) (p : MemPage) (cs : list (list Z)) (ks : list tree).
Definition t_page (t : tree) : Z := let 'Tree pg _ _ _ := t in pg.
Definition t_mem (t : tree) : MemPage := let 'Tree _ p _ _ := t in p.
Definition t_cells (t : tree) : list (list Z) := let 'Tree _ _ cs _ := t in cs.
Definition t_kids (t : tree) : list tree := let 'Tree _ _ _ ks := t in ks.

(** The cells of an interior page are entries in an index ([ik] is false). *)
Definition sep (ik : bool) (c : list Z) : list (list Z) := if ik then [] else [c].

Fixpoint entries (ik : bool) (t : tree) : list (list Z) :=
  match t with
  | Tree _ _ cs [] => cs
  | Tree _ _ cs (k :: ks) => entries ik k ++ mjoin (zip_with (fun k c => sep ik c ++ entries ik k) ks cs)
  end.

(** What is before and after the [i]-th child. *)
Definition before_kid (ik : bool) (t : tree) (i : Z) : list (list Z) :=
  mjoin (zip_with (fun k c => entries ik k ++ sep ik c) (take (Z.to_nat i) (t_kids t)) (take (Z.to_nat i) (t_cells t))).
Definition after_kid (ik : bool) (t : tree) (i : Z) : list (list Z) :=
  mjoin (zip_with (fun k c => sep ik c ++ entries ik k) (drop (S (Z.to_nat i)) (t_kids t)) (drop (Z.to_nat i) (t_cells t))).

Section order.
Context (ik : bool) (t : tree).
Hypothesis Hk : zlen (t_kids t) = zlen (t_cells t) + 1.

Lemma kid_some i : 0 <= i <= zlen (t_cells t) -> exists k, (t_kids t).[i] = Some k.
Proof using Hk. intros Hi. apply zget_some. lia. Qed.

Lemma before_first : before_kid ik t 0 = [].
Proof using. done. Qed.

Lemma after_last i : zlen (t_cells t) <= i -> after_kid ik t i = [].
Proof using. intros Hi. unfold after_kid. rewrite (drop_ge (t_cells t)) by (unfold zlen in Hi; lia). by rewrite zip_with_nil_r. Qed.

Lemma before_next i k c : (t_kids t).[i] = Some k -> (t_cells t).[i] = Some c ->
  before_kid ik t (i + 1) = before_kid ik t i ++ entries ik k ++ sep ik c.
Proof using.
  intros Ek Ec. pose proof (zget_range _ _ _ Ek). rewrite !zget_to_nat in * by lia. unfold before_kid.
  replace (Z.to_nat (i + 1)) with (S (Z.to_nat i)) by lia. rewrite (take_S_r _ _ _ Ek), (take_S_r _ _ _ Ec).
  rewrite zip_with_app by (rewrite !length_take; apply lookup_lt_Some in Ek, Ec; lia). cbn [zip_with]. rewrite join_app. cbn [mjoin list_join]. by rewrite app_nil_r.
Qed.

Lemma after_next i k c : (t_kids t).[i + 1] = Some k -> (t_cells t).[i] = Some c ->
  after_kid ik t i = sep ik c ++ entries ik k ++ after_kid ik t (i + 1).
Proof using.
  intros Ek Ec. pose proof (zget_range _ _ _ Ec). rewrite !zget_to_nat in * by lia. unfold after_kid.
  replace (Z.to_nat (i + 1)) with (S (Z.to_nat i)) in * by lia. rewrite (drop_S _ _ _ Ek), (drop_S _ _ _ Ec). cbn [zip_with mjoin list_join].
  by rewrite <- app_assoc.
Qed.

(** The entries of the tree around those of a child. *)
Lemma entries_kid i k : (t_kids t).[i] = Some k -> entries ik t = before_kid ik t i ++ entries ik k ++ after_kid ik t i.
Proof using Hk.
  intros Ek. pose proof (zget_range _ _ _ Ek) as Hi. rewrite zget_to_nat in Ek by lia. unfold before_kid, after_kid.
  destruct t as [pg p cs ks]. cbn [t_kids t_cells] in *. unfold zlen in Hk, Hi. assert (Hl : length ks = S (length cs)) by lia. clear Hk Hi. generalize dependent (Z.to_nat i).
  clear i. intros i. revert ks cs Hl. induction i as [|i IH]; intros [|k0 ks] cs Hl Ek; try done.
  - injection Ek as ->. rewrite drop_0. cbn [entries take zip_with mjoin list_join app drop]. by rewrite drop_0.
  - destruct cs as [|c cs]; [destruct ks; [done|cbn [length] in Hl; lia]|]. destruct ks as [|k1 ks]; [done|]. cbn [lookup list_lookup] in Ek. cbn [length] in Hl.
    specialize (IH (k1 :: ks) cs ltac:(cbn [length]; lia) Ek). cbn [take drop zip_with mjoin list_join entries] in *. rewrite <- !app_assoc.
    f_equal. f_equal. exact IH.
Qed.
End order.

(** * The tree of a database *)

Section tree.
Context {T : Type} {P : Pager T}.
Abbreviation Bt := (Bt T).
Abbreviation Db := (Db T).

(** The page [t_page t] is the root of [t]. *)
Record node_ok (ik : bool) (s : Bt) (t : tree) : Prop := {
  no_page : page_ok (bt_shared s) (t_mem t) (t_cells t);
  no_data : aData (t_mem t) = content s (t_page t);
  no_hdr : hdrOffset (t_mem t) = hdr_of (t_page t);
  no_pgno : 1 <= t_page t <= nPage s;
  no_kind : intKey (pgType (t_mem t)) = ik;
  no_leaf : leaf (pgType (t_mem t)) = true <-> t_kids t = [];
  no_kids : t_kids t <> [] -> zlen (t_kids t) = zlen (t_cells t) + 1;
  no_child : forall i k c, (t_kids t).[i] = Some k -> (t_cells t).[i] = Some c -> get4 c 0 = Some (t_page k);
  no_right : forall k, (t_kids t).[zlen (t_cells t)] = Some k -> right_child (t_mem t) = Some (t_page k);
}.

(** A tree of height [h]; pages below the root are not empty. *)
Fixpoint tree_ok (ik : bool) (s : Bt) (h : nat) (t : tree) : Prop :=
  node_ok ik s t /\
  match h with
  | O => t_kids t = []
  | S h => t_kids t <> [] /\ Forall (fun k => t_cells k <> [] /\ tree_ok ik s h k) (t_kids t)
  end.

Definition same_pages (s s' : Bt) : Prop := bt_shared s' = bt_shared s /\ nPage s' = nPage s /\ bt_pages s' = bt_pages s.

Lemma same_content s s' p : same_pages s s' -> content s' p = content s p.
Proof using. intros (E1 & _ & E3). unfold content. by rewrite E1, E3. Qed.

Lemma node_same ik s s' t : same_pages s s' -> node_ok ik s t -> node_ok ik s' t.
Proof using.
  intros Hs [? E ? Hp ? ? ? ? ?]. pose proof Hs as (E1 & E2 & _). constructor; rewrite ?E1, ?(same_content _ _ _ Hs), ?E2; done.
Qed.

Lemma tree_same ik s s' : same_pages s s' -> forall h t, tree_ok ik s h t -> tree_ok ik s' h t.
Proof using.
  intros Hs. induction h as [|h IH]; intros t [Hn Ht]; (split; [by apply (node_same _ s)|]); [done|].
  destruct Ht as [? Hk]. split; [done|]. eapply List.Forall_impl; [|exact Hk]. intros k [? ?]. split; [done|]. by apply IH.
Qed.

Lemma tree_node ik s h t : tree_ok ik s h t -> node_ok ik s t.
Proof using. by destruct h; intros [? _]. Qed.

(** The fields of a page, but for [nFree], which moving does not use. *)
Section node.
Context (ik : bool) (s : Bt) (t : tree).
Hypothesis Hb : bt_ok (bt_shared s).
Hypothesis Ht : node_ok ik s t.

Lemma node_nCell : nCell (t_mem t) = zlen (t_cells t).
Proof using Ht. apply (page_nCell _ _ _ (no_page _ _ _ Ht)). Qed.

Lemma node_count : 0 <= zlen (t_cells t) < 65535.
Proof using Hb Ht.
  pose proof (page_fits _ _ _ (no_page _ _ _ Ht)). pose proof node_nCell. pose proof (bo_usable _ Hb). pose proof (bo_size _ Hb). lia.
Qed.

Lemma node_child i k : (t_kids t).[i] = Some k -> i < zlen (t_cells t) -> cell_child (t_mem t) i = Some (t_page k).
Proof using Hb Ht.
  intros Ek Hi. pose proof (zget_range _ _ _ Ek). destruct (zget_some (t_cells t) i ltac:(lia)) as [c Ec].
  destruct (page_cell _ _ _ Hb (no_page _ _ _ Ht) i c Ec) as (pc & Hpc & Hpc0 & _ & _ & Hr & _). unfold cell_child. rewrite Hpc. cbn [mbind option_bind].
  pose proof (no_child _ _ _ Ht i k c Ek Ec) as Hg. destruct (get4_inv _ _ _ Hg) as [_ H4]. rewrite <- Hg.
  apply get4_read. destruct (mem_read_ok c 0 4) as (x & Ex & _); [lia..|]. rewrite Ex.
  apply (mem_read_move c _ _ _ _ _ Ex); [lia|apply mem_read_inv in Hr; lia|]. intros j Hj. apply mem_read_inv in Hr as (_ & _ & _ & Hg'). rewrite Hg' by lia. f_equal; lia.
Qed.

(** The child that the [i]-th position leads to. *)
Lemma node_kid i k : (t_kids t).[i] = Some k -> i = zlen (t_cells t) /\ right_child (t_mem t) = Some (t_page k) \/
  i < zlen (t_cells t) /\ cell_child (t_mem t) i = Some (t_page k).
Proof using Hb Ht.
  intros Ek. pose proof (zget_range _ _ _ Ek). pose proof (no_kids _ _ _ Ht) as Hk.
  assert (zlen (t_kids t) = zlen (t_cells t) + 1) by (apply Hk; intros E; rewrite E, zlen_nil in *; lia).
  destruct (Z.eqb_spec i (zlen (t_cells t))) as [->|]; [left|right].
  - split; [done|]. by apply (no_right _ _ _ Ht).
  - split; [lia|]. apply node_child; [done|lia].
Qed.
End node.

(** * The path of a cursor *)

Section walk.
Context {Q : QuietPager T} (ik : bool) (height : nat) (root : tree).

(** [path fs h t L R]: the pages and positions [fs] lead from the root to [t], of
    height [h], with the entries [L] before and [R] after those of [t]. *)
Inductive path : list (Z * Z) -> nat -> tree -> list (list Z) -> list (list Z) -> Prop :=
  | path_root : path [] height root [] []
  | path_down fs h t L R i k : path fs (S h) t L R -> (t_kids t).[i] = Some k ->
      path (fs ++ [(t_page t, i)]) h k (L ++ before_kid ik t i) (after_kid ik t i ++ R).

(** The page is initialised, with the fields that its bytes ask for. *)
Definition cached (d : Db) (t : tree) : Prop :=
  page_isInit d (t_page t) = true /\ exists n, db_mem d !! t_page t = Some (set_nFree n (t_mem t)).

Record db_ok (d : Db) : Prop := {
  dk_shared : bt_ok (bt_shared (db_bt d));
  dk_tree : tree_ok ik (db_bt d) height root;
  dk_height : (height < 20)%nat;
  dk_root : t_cells root = [] -> t_kids root <> [] -> t_page root = 1;
  dk_mem : forall fs h t L R, path fs h t L R -> page_isInit d (t_page t) = true -> cached d t;
}.

Lemma path_tree d fs h t L R : db_ok d -> path fs h t L R -> tree_ok ik (db_bt d) h t /\ (fs <> [] -> t_cells t <> []) /\ (length fs + h = height)%nat.
Proof using.
  intros Hd. induction 1 as [|fs h t L R i k Hp IH Ek]; [split; [apply Hd|done]|]. destruct IH as ([_ [_ Hk]] & _ & Hl).
  destruct (Forall_zget _ _ _ _ Hk Ek). split; [done|]. split; [done|]. rewrite length_app. cbn [length]. lia.
Qed.

Lemma path_node d fs h t L R : db_ok d -> path fs h t L R -> node_ok ik (db_bt d) t /\ (h = O <-> t_kids t = []).
Proof using.
  intros Hd Hp. destruct (path_tree d _ _ _ _ _ Hd Hp) as (Ht & _). split; [by apply tree_node in Ht|].
  destruct h as [|h], Ht as [_ Ht]; [done|]. destruct Ht as [Ht _]. done.
Qed.

Lemma path_count d fs h t L R : db_ok d -> path fs (S h) t L R -> zlen (t_kids t) = zlen (t_cells t) + 1.
Proof using. intros Hd Hp. destruct (path_node d _ _ _ _ _ Hd Hp) as [Hn Hh]. apply (no_kids _ _ _ Hn). intros E. by apply Hh in E. Qed.

Lemma path_entries d fs h t L R : db_ok d -> path fs h t L R -> entries ik root = L ++ entries ik t ++ R.
Proof using.
  intros Hd. induction 1 as [|fs h t L R i k Hp IH Ek]; [by rewrite app_nil_r|].
  rewrite IH, (entries_kid ik t (path_count _ _ _ _ _ _ Hd Hp) i k Ek). by rewrite <- !app_assoc.
Qed.

Lemma path_up fs pg i h k L R : path (fs ++ [(pg, i)]) h k L R ->
  exists t L0 R0, path fs (S h) t L0 R0 /\ pg = t_page t /\ (t_kids t).[i] = Some k /\ L = L0 ++ before_kid ik t i /\ R = after_kid ik t i ++ R0.
Proof using.
  intros Hp. remember (fs ++ [(pg, i)]) as fs' eqn:E. destruct Hp as [|fs0 h t L R j k Hp Ek]; [by destruct fs|].
  apply app_inj_tail in E as [-> E]. injection E as <- <-. by exists t, L, R.
Qed.

Lemma path_fun fs h t L R : path fs h t L R -> forall h' t' L' R', path fs h' t' L' R' -> h' = h /\ t' = t /\ L' = L /\ R' = R.
Proof using.
  induction 1 as [|fs h t L R i k Hp IH Ek]; intros h' t' L' R' Hp'; [inversion Hp'; [done|by destruct fs]|].
  apply path_up in Hp' as (t0 & L0 & R0 & Hp0 & _ & Ek0 & -> & ->). destruct (IH _ _ _ _ Hp0) as (E & -> & -> & ->).
  injection E as ->. rewrite Ek in Ek0. by injection Ek0 as <-.
Qed.

(** The page at the top of the path. *)
Lemma path_first fs h t L R : path fs h t L R -> forall fr, fs.[0] = Some fr -> fr.1 = t_page root.
Proof using.
  induction 1 as [|fs h t L R i k Hp IH Ek]; intros fr E; [done|]. destruct fs as [|fr0 fs].
  - inversion Hp; subst; [by injection E as <-|]. by destruct fs.
  - apply (IH fr). exact E.
Qed.

Lemma page_of_cached d t : node_ok ik (db_bt d) t -> cached d t -> exists n, page_of d (t_page t) = Some (set_nFree n (t_mem t)).
Proof using.
  intros Hn [_ [n E]]. exists n. unfold page_of. rewrite E. cbn [fmap option_fmap option_map]. rewrite <- (no_data _ _ _ Hn). by destruct (t_mem t).
Qed.

(** What happens to the database while a cursor moves. *)
Record kept (d d' : Db) : Prop := {
  kp_pages : same_pages (db_bt d) (db_bt d');
  kp_cached : forall fs h t L R, path fs h t L R -> cached d t -> cached d' t;
}.

Lemma kept_refl d : kept d d.
Proof using. by constructor. Qed.

Lemma kept_trans d1 d2 d3 : kept d1 d2 -> kept d2 d3 -> kept d1 d3.
Proof using.
  intros [(A1 & A2 & A3) H1] [(B1 & B2 & B3) H2]. constructor; [unfold same_pages; by rewrite B1, B2, B3|]. intros fs h t L R Hp Hc. by eapply H2, H1.
Qed.

(** The pages on the path are in use, so that they stay in the cache. *)
Definition held (d : Db) (fs : list (Z * Z)) : Prop := forall fs1 fs2 h t L R, fs = fs1 ++ fs2 -> path fs1 h t L R -> cached d t.

(** ** Fetching a page *)

Lemma get_quiet (s : Bt) p flags : 1 <= p -> Z.land flags PAGER_GET_NOCONTENT = 0 -> exists t, pager_get p flags s = Some (inr tt, set_pager t s).
Proof using Q.
  intros Hp Hf. unfold pager_get. destruct (Z.eqb_spec p 0); [lia|]. pose proof (quiet_get (pPager s) p flags) as Hq.
  destruct (sqlite3PagerGet (pPager s) p flags) as [rc t]. cbn [fst] in Hq. subst rc. rewrite Hf. by exists t.
Qed.

Lemma init_same (d : Db) t1 t2 : bt_ok (bt_shared (db_bt d)) -> node_ok ik (db_bt d) t1 -> node_ok ik (db_bt d) t2 -> t_page t1 = t_page t2 ->
  set_nFree (-1) (t_mem t1) = set_nFree (-1) (t_mem t2).
Proof using.
  intros Hb H1 H2 E. pose proof (init_page_ok _ _ _ Hb (no_page _ _ _ H1) (t_mem t1) (conj eq_refl eq_refl)) as E1.
  rewrite (init_page_ok _ _ _ Hb (no_page _ _ _ H2) (t_mem t1)) in E1; [congruence|].
  split; [by rewrite (no_data _ _ _ H1), (no_data _ _ _ H2), E|by rewrite (no_hdr _ _ _ H1), (no_hdr _ _ _ H2), E].
Qed.

Lemma init_page_tree d fs h t L R : db_ok d -> path fs h t L R -> page_isInit d (t_page t) = false ->
  exists d', init_page d (t_page t) = Some (SQLITE_OK, d') /\ kept d d' /\ db_ok d' /\ cached d' t.
Proof using Q.
  intros Hd Hp Hi. destruct (path_node d _ _ _ _ _ Hd Hp) as [Hn _]. pose proof (dk_shared _ Hd) as Hb. unfold init_page.
  rewrite (init_page_ok _ _ _ Hb (no_page _ _ _ Hn)) by (split; [symmetry; apply Hn|symmetry; apply Hn]).
  cbn [mbind option_bind]. cbn [isInit set_nFree]. rewrite (po_init _ _ _ (no_page _ _ _ Hn)). set (d' := mkDb _ _).
  assert (Hs : same_pages (db_bt d) (db_bt d')) by done. exists d'.
  assert (Hnew : forall fs' h' t' L' R', path fs' h' t' L' R' -> t_page t' = t_page t -> cached d' t').
  { intros fs' h' t' L' R' Hp' E. destruct (path_node d _ _ _ _ _ Hd Hp') as [Hn' _]. split; [apply bool_decide_eq_true; cbn [db_bt d' bt_isInit]; rewrite E; set_solver|].
    exists (-1). cbn [db_mem d']. rewrite E, lookup_insert_eq. f_equal. symmetry. by apply (init_same d). }
  assert (Hold : forall fs' h' t' L' R', path fs' h' t' L' R' -> t_page t' <> t_page t -> page_isInit d' (t_page t') = true -> cached d t').
  { intros fs' h' t' L' R' Hp' Hne Hi'. apply (dk_mem _ Hd _ _ _ _ _ Hp'). apply bool_decide_eq_true in Hi'. apply bool_decide_eq_true. cbn [db_bt d' bt_isInit] in Hi'. set_solver. }
  assert (Hkeep : forall fs' h' t' L' R', path fs' h' t' L' R' -> cached d t' -> cached d' t').
  { intros fs' h' t' L' R' Hp' [Hi' [n E]]. destruct (decide (t_page t' = t_page t)) as [Ep|Ep]; [by eapply Hnew|]. split.
    - apply bool_decide_eq_true in Hi'. apply bool_decide_eq_true. cbn [db_bt d' bt_isInit]. set_solver.
    - exists n. cbn [db_mem d']. by rewrite lookup_insert_ne. }
  split; [done|]. split; [by constructor|]. split; [|by eapply Hnew]. destruct Hd as [H1 H2 H3 H4 H5]. constructor; try done; [by apply (tree_same ik (db_bt d))|].
  intros fs' h' t' L' R' Hp' Hi'. destruct (decide (t_page t' = t_page t)) as [Ep|Ep]; [by eapply Hnew|]. eapply Hkeep; [done|]. by eapply Hold.
Qed.

Lemma getAndInitPage_ok d fs h t L R kind flags : db_ok d -> path fs h t L R -> Z.land flags PAGER_GET_NOCONTENT = 0 ->
  (forall k, kind = Some k -> k = ik /\ t_cells t <> []) ->
  exists d', getAndInitPage d (t_page t) kind flags = Some (SQLITE_OK, d') /\ kept d d' /\ db_ok d' /\ cached d' t.
Proof using Q.
  intros Hd Hp Hf Hkind. destruct (path_node d _ _ _ _ _ Hd Hp) as [Hn _]. destruct (no_pgno _ _ _ Hn). unfold getAndInitPage.
  destruct (Z.gtb_spec (t_page t) (nPage (db_bt d))); [lia|]. destruct (get_quiet (db_bt d) (t_page t) flags) as [pt ->]; [done|done|]. cbn [mbind option_bind].
  set (d1 := mkDb _ _). assert (Hk1 : kept d d1) by done. assert (Hd1 : db_ok d1).
  { destruct Hd as [A1 A2 A3 A4 A5]. constructor; try done. by apply (tree_same ik (db_bt d)). }
  assert (Hinit : exists d', (if page_isInit d1 (t_page t) then Some (SQLITE_OK, d1) else init_page d1 (t_page t)) = Some (SQLITE_OK, d') /\ kept d d' /\ db_ok d' /\ cached d' t).
  { destruct (page_isInit d1 (t_page t)) eqn:Ei; [exists d1; split; [done|]; split; [done|]; split; [done|]; by eapply dk_mem|].
    destruct (init_page_tree d1 _ _ _ _ _ Hd1 Hp Ei) as (d' & E & Hk & Hd' & Hc). exists d'. split; [done|]. split; [by eapply kept_trans|done]. }
  destruct Hinit as (d' & -> & Hk & Hd' & Hc). cbn [mbind option_bind negb Z.eqb SQLITE_OK]. destruct (path_node d' _ _ _ _ _ Hd' Hp) as [Hn' _].
  destruct (page_of_cached d' t Hn' Hc) as [n ->]. cbn [mbind option_bind]. exists d'. destruct kind as [k|]; [|done].
  destruct (Hkind k eq_refl) as [-> Hne]. cbn [nCell pgType set_nFree]. rewrite (node_nCell _ _ _ Hn'), (no_kind _ _ _ Hn'), eqb_reflx.
  destruct (Z.ltb_spec (zlen (t_cells t)) 1); [|done]. pose proof (zlen_pos _ Hne). lia.
Qed.

(** ** The cursor *)

Definition settled (c : Cursor) : Prop := ValidNKey c = false /\ nSize (info c) = 0.

(** Moving changes nothing else. *)
Record moved (c c' : Cursor) : Prop := {
  mv_eState : eState c' = eState c;
  mv_AtLast : AtLast c' = AtLast c;
  mv_skipNext : skipNext c' = skipNext c;
  mv_Pinned : Pinned c' = Pinned c;
  mv_nKey : nKey (info c') = nKey (info c);
  mv_valid : ValidNKey c = false -> ValidNKey c' = false;
  mv_size : nSize (info c) = 0 -> nSize (info c') = 0;
}.

Lemma mv_settled c c' : moved c c' -> settled c -> settled c'.
Proof using. intros Hm [H1 H2]. split; [by apply (mv_valid _ _ Hm)|by apply (mv_size _ _ Hm)]. Qed.

Lemma moved_refl c : moved c c.
Proof using. done. Qed.

Lemma moved_trans c1 c2 c3 : moved c1 c2 -> moved c2 c3 -> moved c1 c3.
Proof using. intros [A1 A2 A3 A4 A5 A6 A7] [B1 B2 B3 B4 B5 B6 B7]. constructor; [congruence..|by auto|by auto]. Qed.

Record cur_ok (c : Cursor) : Prop := {
  co_root : pgnoRoot c = t_page root;
  co_kind : pKeyInfo c = negb ik;
  co_flags : Z.land (curPagerFlags c) PAGER_GET_NOCONTENT = 0;
  co_idx : zlen (aiIdx c) = BTCURSOR_MAX_DEPTH - 1;
  co_pages : zlen (apPage c) = BTCURSOR_MAX_DEPTH - 1;
}.

(** The cursor is at the page [t], with its path in the arrays. *)
Record on (c : Cursor) (d : Db) (fs : list (Z * Z)) (h : nat) (t : tree) (L R : list (list Z)) : Prop := {
  on_path : path fs h t L R;
  on_db : db_ok d;
  on_cur : cur_ok c;
  on_iPage : iPage c = zlen fs;
  on_stack : forall j fr, fs.[j] = Some fr -> (apPage c).[j] = Some fr.1 /\ (aiIdx c).[j] = Some fr.2;
  on_pPage : pPage c = t_page t;
  on_kind : curIntKey c = ik;
  on_held : held d fs;
}.

Lemma held_cached d fs h t L R : held d fs -> path fs h t L R -> cached d t.
Proof using. intros Hh Hp. apply (Hh fs [] h t L R); [by rewrite app_nil_r|done]. Qed.

Lemma held_kept d d' fs : kept d d' -> held d fs -> held d' fs.
Proof using. intros Hk Hh fs1 fs2 h t L R E Hp. eapply (kp_cached _ _ Hk); [done|]. by eapply Hh. Qed.

Lemma on_page_of c d fs h t L R : on c d fs h t L R -> exists n, page_of d (pPage c) = Some (set_nFree n (t_mem t)).
Proof using.
  intros [Hp Hd _ _ _ -> _ Hh]. destruct (path_node d _ _ _ _ _ Hd Hp) as [Hn _]. apply page_of_cached; [done|]. by eapply held_cached.
Qed.

(** Only the fields of the path matter. *)
Lemma on_fields c c' d d' fs h t L R : on c d fs h t L R -> kept d d' -> db_ok d' ->
  (pgnoRoot c', pKeyInfo c', curPagerFlags c', aiIdx c', apPage c', iPage c', pPage c', curIntKey c') =
  (pgnoRoot c, pKeyInfo c, curPagerFlags c, aiIdx c, apPage c, iPage c, pPage c, curIntKey c) -> on c' d' fs h t L R.
Proof using.
  intros [H1 H2 [G1 G2 G3 G4 G5] H4 H5 H6 H7 H8] Hk Hd' E. injection E as E1 E2 E3 E4 E5 E6 E7 E8.
  constructor; rewrite ?E1, ?E2, ?E3, ?E4, ?E5, ?E6, ?E7, ?E8; try done; [|by eapply held_kept]. constructor; rewrite ?E1, ?E2, ?E3, ?E4, ?E5; done.
Qed.

Lemma on_same c c' d fs h t L R : on c d fs h t L R ->
  (pgnoRoot c', pKeyInfo c', curPagerFlags c', aiIdx c', apPage c', iPage c', pPage c', curIntKey c') =
  (pgnoRoot c, pKeyInfo c, curPagerFlags c, aiIdx c, apPage c, iPage c, pPage c, curIntKey c) -> on c' d fs h t L R.
Proof using. intros Ho. apply (on_fields c c' d d); [done|apply kept_refl|apply Ho]. Qed.

Lemma stack_push (l : list Z) fs (f : Z * Z -> Z) x : zlen fs < zlen l -> (forall j fr, fs.[j] = Some fr -> l.[j] = Some (f fr)) ->
  forall fr, f fr = x -> forall j fr', (fs ++ [fr]).[j] = Some fr' -> (zupd l (zlen fs) x).[j] = Some (f fr').
Proof using.
  intros Hl Hs fr <- j fr' E. pose proof (zget_range _ _ _ E) as Hj. rewrite zlen_app in Hj. change (zlen [fr]) with 1 in Hj. pose proof (zlen_nonneg fs).
  destruct (Z.eqb_spec j (zlen fs)) as [->|].
  - rewrite zget_app_r in E by lia. rewrite Z.sub_diag in E. injection E as <-. apply zget_zupd_eq. lia.
  - rewrite zget_app_l in E by lia. rewrite zget_zupd_ne by lia. by apply Hs.
Qed.

Lemma moveToChild_ok c d fs h t L R i k : on c d fs (S h) t L R -> (t_kids t).[i] = Some k -> ix c = i ->
  exists c' d', moveToChild c d (t_page k) = Some (SQLITE_OK, c', d') /\ kept d d' /\ moved c c' /\ settled c' /\ ix c' = 0 /\
    on c' d' (fs ++ [(t_page t, i)]) h k (L ++ before_kid ik t i) (after_kid ik t i ++ R).
Proof using Q.
  intros Ho Ek Ei. pose proof Ho as [Hp Hd Hc Hlev Hst Hpg Hkind Hh]. pose proof (path_down _ _ _ _ _ _ _ Hp Ek) as Hp'.
  destruct (path_tree d _ _ _ _ _ Hd Hp') as (_ & Hne & Hlen). rewrite length_app in Hlen. cbn [length] in Hlen.
  pose proof (dk_height _ Hd) as Hht. assert (Hi : iPage c < 19) by (rewrite Hlev; unfold zlen; lia). pose proof (zlen_nonneg fs).
  destruct Hc as [C1 C2 C3 C4 C5]. unfold moveToChild, BTCURSOR_MAX_DEPTH in *. destruct (Z.geb_spec (iPage c) (20 - 1)); [lia|].
  cbn [forget_cell aiIdx apPage iPage ix pPage curIntKey curPagerFlags set_ix set_stack]. rewrite !zset_zupd by lia. cbn [mbind option_bind].
  destruct (getAndInitPage_ok d _ _ _ _ _ (Some (curIntKey c)) (curPagerFlags c) Hd Hp' C3) as (d' & -> & Hk & Hd' & Hca).
  { intros x E. injection E as <-. split; [done|]. apply Hne. by destruct fs. }
  cbn [mbind option_bind Z.eqb SQLITE_OK]. eexists _, d'. split; [done|]. split; [done|]. split; [done|]. split; [done|]. split; [done|].
  constructor; cbn; try done; try (by rewrite zlen_app, Hlev).
  - constructor; cbn; rewrite ?zlen_zupd; done.
  - rewrite Hlev. intros j fr E. split; [apply (stack_push _ fs fst (pPage c)) with (fr := (t_page t, i)); [lia|intros; by apply Hst|done|done]|].
    apply (stack_push _ fs snd (ix c)) with (fr := (t_page t, i)); [lia|intros; by apply Hst|done|done].
  - intros fs1 fs2 h' t' L' R' E Hp1. destruct fs2 as [|fr fs2] using rev_ind.
    + rewrite app_nil_r in E. subst fs1. by destruct (path_fun _ _ _ _ _ Hp' _ _ _ _ Hp1) as (_ & -> & _).
    + rewrite app_assoc in E. apply app_inj_tail in E as [E _]. eapply (kp_cached _ _ Hk); [done|]. by eapply Hh.
Qed.

Lemma moveToParent_ok c d fs pg i h k L R : on c d (fs ++ [(pg, i)]) h k L R ->
  exists c' t L0 R0, moveToParent c = Some c' /\ moved c c' /\ settled c' /\ ix c' = i /\ on c' d fs (S h) t L0 R0 /\
    (t_kids t).[i] = Some k /\ L = L0 ++ before_kid ik t i /\ R = after_kid ik t i ++ R0.
Proof using.
  intros [Hp Hd [C1 C2 C3 C4 C5] Hlev Hst Hpg Hkind Hh]. pose proof (path_up _ _ _ _ _ _ _ Hp) as (t & L0 & R0 & Hp0 & -> & Ek & EL & ER).
  rewrite zlen_app in Hlev. change (zlen [(t_page t, i)]) with 1 in Hlev.
  assert (E : (fs ++ [(t_page t, i)]).[zlen fs] = Some (t_page t, i)) by (by rewrite zget_app_r, Z.sub_diag by lia).
  destruct (Hst _ _ E) as [E1 E2]. unfold moveToParent. cbn [forget_cell aiIdx apPage iPage]. replace (iPage c - 1) with (zlen fs) by lia.
  rewrite E1, E2. cbn [mbind option_bind fst snd]. eexists _, t, L0, R0. split; [done|]. do 3 (split; [done|]). split; [|done].
  constructor; cbn; try done.
  - intros j fr Ej. apply Hst. pose proof (zget_range _ _ _ Ej). by rewrite zget_app_l by lia.
  - intros fs1 fs2 h' t' L' R' -> Hp1. eapply (Hh fs1 (fs2 ++ [(t_page t, i)])); [by rewrite app_assoc|done].
Qed.

(** ** To the first and the last entry below a page *)

(** The cursor is at the entry [x], with the entries [B] before and [A] after. *)
Record at_entry (c : Cursor) (d : Db) (x : list Z) (B A : list (list Z)) : Prop := mk_at {
  ae_on : exists fs h t L R, on c d fs h t L R /\ (t_cells t).[ix c] = Some x /\
    match h with
    | O => B = L ++ take (Z.to_nat (ix c)) (t_cells t) /\ A = drop (S (Z.to_nat (ix c))) (t_cells t) ++ R
    | S _ => ik = false /\ exists k, (t_kids t).[ix c] = Some k /\ B = L ++ before_kid ik t (ix c) ++ entries ik k /\ x :: A = after_kid ik t (ix c) ++ R
    end;
}.

(** The result of a move to an entry. *)
Definition arrives (r : option (Z * Cursor * Db)) (c : Cursor) (d : Db) (x : list Z) (B A : list (list Z)) : Prop :=
  exists c' d', r = Some (SQLITE_OK, c', d') /\ kept d d' /\ moved c c' /\ at_entry c' d' x B A.

Lemma arrives_via r c d c1 d1 x B A : kept d d1 -> moved c c1 -> arrives r c1 d1 x B A -> arrives r c d x B A.
Proof using.
  intros Hk Hm (c' & d' & E & Hk' & Hm' & Ha). exists c', d'. split; [done|]. split; [by eapply kept_trans|]. split; [by eapply moved_trans|done].
Qed.

Lemma leaf_entries d fs t L R : db_ok d -> path fs O t L R -> entries ik t = t_cells t.
Proof using. intros Hd Hp. destruct (path_node d _ _ _ _ _ Hd Hp) as [_ [Hk _]]. specialize (Hk eq_refl). destruct t as [pg p cs ks]. cbn in *. by subst ks. Qed.

Lemma leftmost_ok h : forall fuel c d fs t L R, (h < fuel)%nat -> on c d fs h t L R -> settled c -> ix c = 0 -> t_cells t <> [] ->
  exists x A, entries ik t ++ R = x :: A /\ arrives (moveToLeftmost fuel c d) c d x L A.
Proof using Q.
  induction h as [|h IH]; intros fuel c d fs t L R Hf Ho Hs Ei Hne; (destruct fuel as [|fuel]; [lia|]); cbn [moveToLeftmost];
    pose proof Ho as [Hp Hd _ _ _ _ _ _]; destruct (path_node d _ _ _ _ _ Hd Hp) as [Hn Hleaf]; destruct (on_page_of _ _ _ _ _ _ _ Ho) as [n ->]; cbn [mbind option_bind];
    change (pgType (set_nFree n (t_mem t))) with (pgType (t_mem t)).
  - rewrite (proj2 (no_leaf _ _ _ Hn)) by (by apply Hleaf). rewrite (leaf_entries d _ _ _ _ Hd Hp). destruct (t_cells t) as [|x cs] eqn:Ec; [done|].
    exists x, (cs ++ R). split; [done|]. exists c, d. split; [done|]. split; [apply kept_refl|]. split; [apply moved_refl|].
    constructor. exists fs, O, t, L, R. split; [done|]. rewrite Ei, Ec. split; [done|]. split; [by rewrite app_nil_r|done].
  - destruct (leaf (pgType (t_mem t))) eqn:El; [apply (no_leaf _ _ _ Hn), Hleaf in El; done|].
    pose proof (path_count _ _ _ _ _ _ Hd Hp) as Hcount. pose proof (zlen_pos _ Hne).
    destruct (kid_some t Hcount 0 ltac:(lia)) as [k Ek]. rewrite Ei.
    change (cell_child (set_nFree n (t_mem t)) 0) with (cell_child (t_mem t) 0). rewrite (node_child ik (db_bt d) t (dk_shared _ Hd) Hn 0 k Ek) by lia. cbn [mbind option_bind].
    destruct (moveToChild_ok c d fs h t L R 0 k Ho Ek Ei) as (c' & d' & -> & Hk & Hm & Hs' & Ei' & Ho'). cbn [mbind option_bind Z.eqb SQLITE_OK].
    assert (Hne' : t_cells k <> []) by (eapply path_tree; [apply Hd|eapply path_down; done|by destruct fs]).
    rewrite before_first, app_nil_r in Ho'. destruct (IH fuel c' d' _ k L _ ltac:(lia) Ho' Hs' Ei' Hne') as (x & A & E & Ha).
    exists x, A. split; [|by eapply arrives_via]. rewrite (entries_kid ik t Hcount 0 k Ek), before_first. cbn [app]. by rewrite <- app_assoc.
Qed.

(** From the position [i] of an interior page, down its child. *)
Lemma child_leftmost n c d fs h t L R i k r : (20 <= n)%nat -> on c d fs (S h) t L R -> ix c = i -> (t_kids t).[i] = Some k ->
  (forall c' d', moveToChild c d (t_page k) = Some (SQLITE_OK, c', d') -> r = moveToLeftmost n c' d') ->
  exists x A, entries ik k ++ after_kid ik t i ++ R = x :: A /\ arrives r c d x (L ++ before_kid ik t i) A.
Proof using Q.
  intros Hn20 Ho Ei Ek Hr. pose proof Ho as [Hp Hd _ _ _ _ _ _]. pose proof (path_down _ _ _ _ _ _ _ Hp Ek) as Hp'.
  destruct (path_tree d _ _ _ _ _ Hd Hp') as (_ & Hne & Hlen). rewrite length_app in Hlen. cbn [length] in Hlen. pose proof (dk_height _ Hd).
  destruct (moveToChild_ok c d fs h t L R i k Ho Ek Ei) as (c' & d' & E & Hk & Hm & Hs & E0 & Ho').
  destruct (leftmost_ok h n c' d' _ k _ _ ltac:(lia) Ho' Hs E0 ltac:(apply Hne; by destruct fs)) as (x & A & EA & Ha).
  exists x, A. split; [done|]. rewrite (Hr c' d' E). by eapply arrives_via.
Qed.

Lemma rightmost_ok h : forall fuel c d fs t L R, (h < fuel)%nat -> on c d fs h t L R -> settled c -> t_cells t <> [] ->
  exists B x, L ++ entries ik t = B ++ [x] /\ arrives (moveToRightmost fuel c d) c d x B R.
Proof using Q.
  induction h as [|h IH]; intros fuel c d fs t L R Hf Ho Hs Hne; (destruct fuel as [|fuel]; [lia|]); cbn [moveToRightmost];
    pose proof Ho as [Hp Hd _ _ _ _ _ _]; destruct (path_node d _ _ _ _ _ Hd Hp) as [Hn Hleaf]; destruct (on_page_of _ _ _ _ _ _ _ Ho) as [n ->]; cbn [mbind option_bind];
    change (pgType (set_nFree n (t_mem t))) with (pgType (t_mem t)); change (nCell (set_nFree n (t_mem t))) with (nCell (t_mem t));
    rewrite (node_nCell _ _ _ Hn); pose proof (zlen_pos _ Hne); pose proof (node_count _ _ _ (dk_shared _ Hd) Hn).
  - rewrite (proj2 (no_leaf _ _ _ Hn)) by (by apply Hleaf). rewrite (leaf_entries d _ _ _ _ Hd Hp). destruct (t_cells t) as [|x cs _] eqn:Ec using rev_ind; [done|].
    exists (L ++ cs), x. split; [by rewrite app_assoc|]. eexists _, d. split; [done|]. split; [apply kept_refl|]. split; [done|].
    rewrite zlen_app in *. change (zlen [x]) with 1 in *. rewrite u16_small by lia. replace (zlen cs + 1 - 1) with (zlen cs) by lia.
    constructor. exists fs, O, t, L, R. split; [by eapply on_same|]. cbn [ix set_ix]. rewrite Ec, zget_app_r, Z.sub_diag by lia. split; [done|].
    unfold zlen. rewrite Nat2Z.id, take_app_length. split; [done|]. by rewrite drop_ge by (rewrite length_app; cbn [length]; lia).
  - destruct (leaf (pgType (t_mem t))) eqn:El; [apply (no_leaf _ _ _ Hn), Hleaf in El; done|].
    pose proof (path_count _ _ _ _ _ _ Hd Hp) as Hcount. destruct (kid_some t Hcount (zlen (t_cells t)) ltac:(lia)) as [k Ek].
    change (right_child (set_nFree n (t_mem t))) with (right_child (t_mem t)). rewrite (no_right _ _ _ Hn k Ek). cbn [mbind option_bind].
    set (c1 := set_ix _ c). assert (Ho1 : on c1 d fs (S h) t L R) by (by eapply on_same).
    destruct (moveToChild_ok c1 d fs h t L R _ k Ho1 Ek eq_refl) as (c' & d' & -> & Hk & Hm & Hs' & _ & Ho'). cbn [mbind option_bind Z.eqb SQLITE_OK].
    assert (Hne' : t_cells k <> []) by (eapply path_tree; [apply Hd|eapply path_down; done|by destruct fs]).
    rewrite after_last in Ho' by lia. cbn [app] in Ho'. destruct (IH fuel c' d' _ k _ _ ltac:(lia) Ho' Hs' Hne') as (B & x & E & Ha).
    exists B, x. split; [|by apply (arrives_via _ c d c' d'); [done|apply (moved_trans c c1 c')|]]. rewrite <- E, (entries_kid ik t Hcount _ k Ek), after_last, app_nil_r by lia. by rewrite app_assoc.
Qed.

(** ** Up from a page *)

(** At the child [k] of an interior page. *)
Definition at_kid (c : Cursor) (d : Db) (fs : list (Z * Z)) (h : nat) (t : tree) (L R : list (list Z)) (k : tree) : Prop :=
  on c d fs (S h) t L R /\ (t_kids t).[ix c] = Some k.

Lemma on_level c d fs h t L R : on c d fs h t L R -> fs = [] /\ iPage c = 0 /\ h = height /\ t = root /\ L = [] /\ R = [] \/ fs <> [] /\ iPage c <> 0.
Proof using.
  intros [Hp _ _ Hlev _ _ _ _]. destruct fs as [|fr fs]; [left|right].
  - destruct (path_fun _ _ _ _ _ path_root _ _ _ _ Hp) as (-> & -> & -> & ->). done.
  - split; [done|]. rewrite Hlev, zlen_cons. pose proof (zlen_nonneg fs). lia.
Qed.

Lemma up_next_ok fuel : forall c d fs h t L R, (length fs < fuel)%nat -> on c d fs h t L R ->
  exists found c', up_next fuel c d = Some (found, c') /\ moved c c' /\
    if found : bool then exists fs' h' t' L' R' k, at_kid c' d fs' h' t' L' R' k /\ ix c' < zlen (t_cells t') /\
        L ++ entries ik t = L' ++ before_kid ik t' (ix c') ++ entries ik k /\ R = after_kid ik t' (ix c') ++ R'
    else R = [] /\ on c' d [] height root [] [].
Proof using.
  induction fuel as [|fuel IH]; intros c d fs h t L R Hf Ho; [lia|]. cbn [up_next].
  destruct (on_level _ _ _ _ _ _ _ Ho) as [(-> & -> & -> & -> & -> & ->)|[Hne Hi]]; [exists false, c; by split_and!|].
  destruct (Z.eqb_spec (iPage c) 0) as [?|_]; [done|]. destruct fs as [|[pg i] fs _] using rev_ind; [done|]. rewrite length_app in Hf. cbn [length] in Hf.
  destruct (moveToParent_ok _ _ _ _ _ _ _ _ _ Ho) as (c' & t0 & L0 & R0 & -> & Hm & Hs & Ei & Ho' & Ek & -> & ->). cbn [mbind option_bind].
  destruct (on_page_of _ _ _ _ _ _ _ Ho') as [n ->]. cbn [mbind option_bind]. change (nCell (set_nFree n (t_mem t0))) with (nCell (t_mem t0)).
  pose proof Ho' as [Hp' Hd _ _ _ _ _ _]. destruct (path_node d _ _ _ _ _ Hd Hp') as [Hn _]. pose proof (path_count _ _ _ _ _ _ Hd Hp') as Hcount.
  rewrite (node_nCell _ _ _ Hn), Ei. destruct (Z.geb_spec i (zlen (t_cells t0))).
  - destruct (IH c' d fs _ t0 L0 R0 ltac:(lia) Ho') as (found & c2 & E & Hm2 & Hres). exists found, c2. split; [done|]. split; [by eapply moved_trans|].
    rewrite after_last by lia. cbn [app]. rewrite (entries_kid ik t0 Hcount i t Ek), (after_last ik t0 i), app_nil_r in Hres by lia. by rewrite <- app_assoc.
  - exists true, c'. split; [done|]. split; [done|]. exists fs, h, t0, L0, R0, t. unfold at_kid. rewrite Ei, <- app_assoc. split_and!; done.
Qed.

Lemma up_previous_ok fuel : forall c d fs h t L R, (length fs < fuel)%nat -> on c d fs h t L R ->
  exists found c', up_previous fuel c = Some (found, c') /\ moved c c' /\
    if found : bool then ix c <> 0 /\ c' = c \/ ix c = 0 /\ exists fs' h' t' L' R' k, at_kid c' d fs' h' t' L' R' k /\ ix c' <> 0 /\
        L = L' ++ before_kid ik t' (ix c') /\ entries ik t ++ R = entries ik k ++ after_kid ik t' (ix c') ++ R'
    else ix c = 0 /\ L = [] /\ on c' d [] height root [] [].
Proof using.
  induction fuel as [|fuel IH]; intros c d fs h t L R Hf Ho; [lia|]. cbn [up_previous].
  destruct (Z.eqb_spec (ix c) 0) as [E0|E0]; cbn [negb]; [|exists true, c; split; [done|]; split; [apply moved_refl|]; by left].
  destruct (on_level _ _ _ _ _ _ _ Ho) as [(-> & -> & -> & -> & -> & ->)|[Hne Hi]]; [exists false, c; by split_and!|].
  destruct (Z.eqb_spec (iPage c) 0) as [?|_]; [done|]. destruct fs as [|[pg i] fs _] using rev_ind; [done|]. rewrite length_app in Hf. cbn [length] in Hf.
  destruct (moveToParent_ok _ _ _ _ _ _ _ _ _ Ho) as (c' & t0 & L0 & R0 & -> & Hm & Hs & Ei & Ho' & Ek & -> & ->). cbn [mbind option_bind].
  pose proof Ho' as [Hp' Hd _ _ _ _ _ _]. pose proof (path_count _ _ _ _ _ _ Hd Hp') as Hcount.
  destruct (IH c' d fs _ t0 L0 R0 ltac:(lia) Ho') as (found & c2 & E & Hm2 & Hres). exists found, c2. split; [done|]. split; [by eapply moved_trans|]. destruct found.
  - right. split; [done|]. destruct Hres as [[Hne' ->]|[E0' (fs' & h' & t' & L' & R' & k & Hak & Hi' & -> & E')]].
    + exists fs, h, t0, L0, R0, t. unfold at_kid. rewrite Ei in *. done.
    + exists fs', h', t', L', R', k. split; [done|]. split; [done|]. rewrite E0' in Ei. subst i. rewrite before_first, app_nil_r. split; [done|].
      rewrite <- E', (entries_kid ik t0 Hcount 0 t Ek), before_first. cbn [app]. by rewrite <- app_assoc.
  - destruct Hres as (E0' & -> & Ho2). rewrite E0' in Ei. subst i. by rewrite before_first.
Qed.

(** ** The next entry *)

(** There is no entry left. *)
Definition ends (r : option (Z * Cursor * Db)) (c : Cursor) (d : Db) : Prop :=
  exists c' d', r = Some (SQLITE_DONE, c', d') /\ kept d d' /\ Pinned c' = Pinned c /\ eState c' = CURSOR_INVALID /\ on c' d' [] height root [] [].

Lemma ends_via r c d c1 d1 : kept d d1 -> moved c c1 -> ends r c1 d1 -> ends r c d.
Proof using.
  intros Hk Hm (c' & d' & E & Hk' & Hp & He & Ho). exists c', d'. split; [done|]. split; [by eapply kept_trans|]. by rewrite Hp, (mv_Pinned _ _ Hm).
Qed.

Lemma inner_page c d fs h t L R : on c d fs (S h) t L R ->
  leaf (pgType (t_mem t)) = false /\ nCell (t_mem t) = zlen (t_cells t) /\ intKey (pgType (t_mem t)) = ik /\ zlen (t_cells t) < 65535 /\
  zlen (t_kids t) = zlen (t_cells t) + 1 /\ page_isInit d (pPage c) = true /\ node_ok ik (db_bt d) t /\ bt_ok (bt_shared (db_bt d)).
Proof using.
  intros Ho. pose proof Ho as [Hp Hd _ _ _ Hpg _ Hh]. destruct (path_node d _ _ _ _ _ Hd Hp) as [Hn Hleaf]. destruct (held_cached _ _ _ _ _ _ Hh Hp) as [Hi _].
  pose proof (path_count _ _ _ _ _ _ Hd Hp). pose proof (node_count _ _ _ (dk_shared _ Hd) Hn). rewrite Hpg. split_and!; try done; try lia.
  - destruct (leaf _) eqn:El; [apply (no_leaf _ _ _ Hn), Hleaf in El; done|done].
  - by eapply node_nCell.
  - apply Hn.
  - apply Hd.
Qed.

Lemma leaf_page c d fs t L R : on c d fs O t L R ->
  leaf (pgType (t_mem t)) = true /\ nCell (t_mem t) = zlen (t_cells t) /\ intKey (pgType (t_mem t)) = ik /\ zlen (t_cells t) < 65535 /\
  page_isInit d (pPage c) = true /\ entries ik t = t_cells t.
Proof using.
  intros Ho. pose proof Ho as [Hp Hd _ _ _ Hpg _ Hh]. destruct (path_node d _ _ _ _ _ Hd Hp) as [Hn Hleaf]. destruct (held_cached _ _ _ _ _ _ Hh Hp) as [Hi _].
  pose proof (node_count _ _ _ (dk_shared _ Hd) Hn). rewrite Hpg. split_and!; try done; try lia.
  - by apply (no_leaf _ _ _ Hn), Hleaf.
  - by eapply node_nCell.
  - apply Hn.
  - by apply (leaf_entries d fs t L R).
Qed.

(** The child that follows the [i]-th cell of an interior page is visited next. *)
Definition enters (r : option (Z * Cursor * Db)) (c : Cursor) (d : Db) (t : tree) (i : Z) (L R : list (list Z)) : Prop :=
  exists k y A, (t_kids t).[i + 1] = Some k /\ entries ik k ++ after_kid ik t (i + 1) ++ R = y :: A /\ arrives r c d y (L ++ before_kid ik t (i + 1)) A.

Lemma moved_via r c c1 d x B A : moved c c1 -> arrives r c1 d x B A -> arrives r c d x B A.
Proof using. apply arrives_via, kept_refl. Qed.

Lemma leftmost_at c d fs h t L R i k : on c d fs (S h) t L R -> ix c = i -> (t_kids t).[i] = Some k -> i < zlen (t_cells t) ->
  exists x A, entries ik k ++ after_kid ik t i ++ R = x :: A /\ arrives (moveToLeftmost max_path c d) c d x (L ++ before_kid ik t i) A.
Proof using Q.
  intros Ho Ei Ek Hi. destruct (inner_page _ _ _ _ _ _ _ Ho) as (Hl & _ & _ & _ & _ & _ & Hn & Hb). destruct (on_page_of _ _ _ _ _ _ _ Ho) as [n Epg].
  apply (child_leftmost 20 c d fs h t L R i k); try done. intros c' d' E. change max_path with 21%nat. cbn [moveToLeftmost].
  rewrite Epg. cbn [mbind option_bind]. change (pgType (set_nFree n (t_mem t))) with (pgType (t_mem t)). rewrite Hl, Ei.
  change (cell_child (set_nFree n (t_mem t)) i) with (cell_child (t_mem t) i). rewrite (node_child ik (db_bt d) t Hb Hn i k Ek Hi). cbn [mbind option_bind].
  by rewrite E.
Qed.

Lemma btreeNext_inner restore again c d fs h t L R i : on c d fs (S h) t L R -> eState c = CURSOR_VALID -> ix c = i -> 0 <= i < zlen (t_cells t) ->
  enters (btreeNext restore again c d) c d t i L R.
Proof using Q.
  intros Ho Hv Ei Hi. destruct (inner_page _ _ _ _ _ _ _ Ho) as (Hl & Hnc & _ & Hmax & Hcount & Hinit & Hn & Hb).
  destruct (kid_some t Hcount (i + 1) ltac:(lia)) as [k Ek]. unfold enters. exists k.
  set (c1 := set_ix (i + 1) c). assert (Ho1 : on c1 d fs (S h) t L R) by (by eapply on_same). assert (Hm1 : moved c c1) by done.
  unfold btreeNext, restored. rewrite Hv, bool_decide_eq_true_2 by done. cbn [mbind option_bind]. rewrite Ei, u16_small by lia. fold c1.
  change (pPage c1) with (pPage c). destruct (on_page_of _ _ _ _ _ _ _ Ho) as [n ->]. cbn [mbind option_bind]. rewrite Hinit. cbn [negb].
  change (nCell (set_nFree n (t_mem t))) with (nCell (t_mem t)). change (pgType (set_nFree n (t_mem t))) with (pgType (t_mem t)). rewrite Hnc, Hl.
  change (ix c1) with (i + 1). destruct (Z.geb_spec (i + 1) (zlen (t_cells t))).
  - cbn [negb]. assert (E : i + 1 = zlen (t_cells t)) by lia. change (right_child (set_nFree n (t_mem t))) with (right_child (t_mem t)).
    rewrite (no_right _ _ _ Hn k) by (by rewrite <- E). cbn [mbind option_bind].
    match goal with |- context [arrives ?r _ _ _ _ _] => destruct (child_leftmost 21 c1 d fs h t L R (i + 1) k r) as (x & A & EA & Ha) end;
      [lia|done|done|done|by intros c' d' ->|].
    exists x, A. split; [done|]. split; [done|]. by apply (moved_via _ c c1).
  - destruct (leftmost_at c1 d fs h t L R (i + 1) k Ho1 eq_refl Ek ltac:(lia)) as (x & A & EA & Ha). exists x, A. split; [done|]. split; [done|]. by apply (moved_via _ c c1).
Qed.

Lemma next_inner n restore c d fs h t L R i : on c d fs (S h) t L R -> eState c = CURSOR_VALID -> ix c = i -> 0 <= i < zlen (t_cells t) ->
  enters (next_step (S n) restore c d) c d t i L R.
Proof using Q.
  intros Ho Hv Ei Hi. destruct (inner_page _ _ _ _ _ _ _ Ho) as (Hl & Hnc & _ & Hmax & Hcount & Hinit & Hn & Hb).
  set (c1 := forget_cell c). assert (Ho1 : on c1 d fs (S h) t L R) by (by eapply on_same). assert (Hm1 : moved c c1) by done.
  cbn [next_step]. fold c1. change (eState c1) with (eState c). rewrite Hv, bool_decide_eq_true_2 by done. cbn [negb]. change (pPage c1) with (pPage c).
  destruct (on_page_of _ _ _ _ _ _ _ Ho) as [m ->]. cbn [mbind option_bind]. change (ix c1) with (ix c). rewrite Ei, u16_small by lia.
  change (nCell (set_nFree m (t_mem t))) with (nCell (t_mem t)). change (pgType (set_nFree m (t_mem t))) with (pgType (t_mem t)). rewrite Hnc, Hl.
  destruct (Z.geb_spec (i + 1) (zlen (t_cells t))).
  - replace (u16 (i + 1 - 1)) with i by (rewrite u16_small; lia). set (c2 := set_ix i c1).
    destruct (btreeNext_inner restore (next_step n restore) c2 d fs h t L R i) as (k & y & A & Ek & EA & Ha); [by eapply on_same|done|done|done|].
    exists k, y, A. split; [done|]. split; [done|]. by apply (moved_via _ c c2).
  - set (c2 := set_ix (i + 1) c1). destruct (kid_some t Hcount (i + 1) ltac:(lia)) as [k Ek].
    destruct (leftmost_at c2 d fs h t L R (i + 1) k) as (y & A & EA & Ha); [by eapply on_same|done|done|lia|].
    exists k, y, A. split; [done|]. split; [done|]. by apply (moved_via _ c c2).
Qed.

Definition steps (r : option (Z * Cursor * Db)) (c : Cursor) (d : Db) (x : list Z) (B A : list (list Z)) : Prop :=
  match A with [] => ends r c d | y :: A => arrives r c d y (B ++ [x]) A end.

Lemma steps_via r c c1 d x B A : moved c c1 -> steps r c1 d x B A -> steps r c d x B A.
Proof using. intros Hm. destruct A; [by apply ends_via, Hm; apply kept_refl|by apply moved_via]. Qed.

Lemma at_entry_same c c' d x B A : at_entry c d x B A ->
  (pgnoRoot c', pKeyInfo c', curPagerFlags c', aiIdx c', apPage c', iPage c', pPage c', curIntKey c', ix c') =
  (pgnoRoot c, pKeyInfo c, curPagerFlags c, aiIdx c, apPage c, iPage c, pPage c, curIntKey c, ix c) -> at_entry c' d x B A.
Proof using.
  intros [(fs & h & t & L & R & Ho & Hx & Hp)] E. injection E as E1 E2 E3 E4 E5 E6 E7 E8 E9. constructor. exists fs, h, t, L, R.
  rewrite E9. split; [|done]. apply (on_same c); [done|]. congruence.
Qed.

(** The entries around a cell of an interior page. *)
Lemma after_cell c d fs h t L R i x k : on c d fs (S h) t L R -> (t_cells t).[i] = Some x -> (t_kids t).[i] = Some k ->
  exists k', (t_kids t).[i + 1] = Some k' /\ after_kid ik t i = sep ik x ++ entries ik k' ++ after_kid ik t (i + 1) /\
    before_kid ik t (i + 1) = before_kid ik t i ++ entries ik k ++ sep ik x.
Proof using.
  intros Ho Ex Ek. destruct (inner_page _ _ _ _ _ _ _ Ho) as (_ & _ & _ & _ & Hcount & _). pose proof (zget_range _ _ _ Ex).
  destruct (kid_some t Hcount (i + 1) ltac:(lia)) as [k' Ek']. exists k'. split; [done|]. split; [by apply after_next|by apply before_next].
Qed.

Lemma enters_steps r c d fs h t L R i x k B A : ik = false -> on c d fs (S h) t L R -> (t_cells t).[i] = Some x -> (t_kids t).[i] = Some k ->
  B = L ++ before_kid ik t i ++ entries ik k -> x :: A = after_kid ik t i ++ R -> enters r c d t i L R -> steps r c d x B A.
Proof using.
  intros Hik Ho Ex Ek -> EA (k' & y & A' & Ek' & EA' & Ha). destruct (after_cell _ _ _ _ _ _ _ _ _ _ Ho Ex Ek) as (k2 & Ek2 & Ea & Eb).
  rewrite Ek2 in Ek'. injection Ek' as ->. rewrite Ea in EA. unfold sep in *. rewrite Hik in *. injection EA as ->. rewrite <- Hik in *.
  rewrite <- app_assoc, EA'. cbn [steps]. rewrite Eb in Ha. by rewrite <- !app_assoc in *.
Qed.

Lemma leaf_entry c d fs t L R i x : on c d fs O t L R -> (t_cells t).[i] = Some x -> ix c = i ->
  at_entry c d x (L ++ take (Z.to_nat i) (t_cells t)) (drop (S (Z.to_nat i)) (t_cells t) ++ R).
Proof using. intros Ho Ex <-. constructor. by exists fs, O, t, L, R. Qed.

Lemma leaf_next r c d fs t L R i x : on c d fs O t L R -> (t_cells t).[i] = Some x -> i + 1 < zlen (t_cells t) ->
  r = Some (SQLITE_OK, set_ix (i + 1) c, d) -> moved c (set_ix (i + 1) c) ->
  steps r c d x (L ++ take (Z.to_nat i) (t_cells t)) (drop (S (Z.to_nat i)) (t_cells t) ++ R).
Proof using.
  intros Ho Ex Hi -> Hm. pose proof (zget_range _ _ _ Ex). destruct (zget_some (t_cells t) (i + 1) ltac:(lia)) as [y Ey].
  pose proof (leaf_entry (set_ix (i + 1) c) d fs t L R (i + 1) y ltac:(by eapply on_same) Ey eq_refl) as Ha. rewrite !zget_to_nat in * by lia.
  replace (Z.to_nat (i + 1)) with (S (Z.to_nat i)) in * by lia. rewrite (take_S_r _ _ _ Ex) in Ha. rewrite (drop_S _ _ _ Ey). cbn [app steps].
  rewrite <- app_assoc. eexists _, d. split; [done|]. split; [apply kept_refl|]. split; [done|]. exact Ha.
Qed.

Lemma btreeNext_ok n restore c d x B A : at_entry c d x B A -> eState c = CURSOR_VALID ->
  steps (btreeNext restore (next_step (S n) restore) c d) c d x B A.
Proof using Q.
  intros [(fs & h & t & L & R & Ho & Ex & Hpos)] Hv. pose proof (zget_range _ _ _ Ex) as Hi. destruct h as [|h].
  - destruct Hpos as [-> ->]. destruct (leaf_page _ _ _ _ _ _ Ho) as (Hl & Hnc & _ & Hmax & Hinit & Hent). set (i := ix c) in *.
    set (c1 := set_ix (i + 1) c). assert (Ho1 : on c1 d fs O t L R) by (by eapply on_same). assert (Hm1 : moved c c1) by done.
    unfold btreeNext, restored. rewrite Hv, bool_decide_eq_true_2 by done. cbn [mbind option_bind]. fold i. rewrite u16_small by lia. fold c1.
    change (pPage c1) with (pPage c). destruct (on_page_of _ _ _ _ _ _ _ Ho) as [m ->]. cbn [mbind option_bind]. rewrite Hinit. cbn [negb].
    change (nCell (set_nFree m (t_mem t))) with (nCell (t_mem t)). change (pgType (set_nFree m (t_mem t))) with (pgType (t_mem t)). rewrite Hnc, Hl.
    change (ix c1) with (i + 1). cbn [negb]. destruct (Z.geb_spec (i + 1) (zlen (t_cells t))) as [Hlast|]; [|by apply (leaf_next _ c d fs)].
    pose proof Ho as [Hp Hd _ _ _ _ _ _]. destruct (path_tree d _ _ _ _ _ Hd Hp) as (_ & _ & Hlen). pose proof (dk_height _ Hd).
    destruct (up_next_ok max_path c1 d fs O t L R) as (found & c' & -> & Hm & Hres); [change max_path with 21%nat; lia|done|]. cbn [mbind option_bind].
    rewrite (drop_ge (t_cells t)) by (unfold zlen in *; lia). cbn [app].
    assert (Eall : L ++ entries ik t = (L ++ take (Z.to_nat i) (t_cells t)) ++ [x]).
    { rewrite Hent, <- app_assoc. f_equal. rewrite zget_to_nat in Ex by lia. rewrite <- (take_S_r _ _ _ Ex), take_ge; [done|unfold zlen in *; lia]. }
    destruct found; cbn [negb].
    + destruct Hres as (fs' & h' & t' & L' & R' & k & [Ho' Ek] & Hi' & EL & ->). destruct (inner_page _ _ _ _ _ _ _ Ho') as (_ & _ & Hik & _).
      destruct (on_page_of _ _ _ _ _ _ _ Ho') as [m' ->]. cbn [mbind option_bind]. change (pgType (set_nFree m' (t_mem t'))) with (pgType (t_mem t')). rewrite Hik.
      pose proof (zget_range _ _ _ Ek). destruct (zget_some (t_cells t') (ix c') ltac:(lia)) as [y Ey].
      destruct (after_cell _ _ _ _ _ _ _ _ _ _ Ho' Ey Ek) as (k' & Ek' & Ea & Eb). assert (Hmc : moved c c') by (by eapply moved_trans).
      destruct (Bool.bool_dec ik true) as [Ei|Ei].
      * destruct (next_inner n restore c' d fs' h' t' L' R' (ix c') Ho') as (k2 & y' & A' & Ek2 & EA & Ha); [by rewrite (mv_eState _ _ Hmc)|done|lia|].
        rewrite Ek2 in Ek'. injection Ek' as <-. rewrite Ea, Ei in *. unfold sep in *. cbn [app]. rewrite <- app_assoc, EA. cbn [steps].
        apply (moved_via _ c c'); [done|]. rewrite Eb in Ha. by rewrite <- Eall, EL, app_nil_r in *.
      * apply not_true_is_false in Ei. rewrite Ei at 1. rewrite Ea. unfold sep at 1. rewrite Ei at 1. cbn [app steps]. rewrite <- Eall, EL.
        exists c', d. split; [done|]. split; [apply kept_refl|]. split; [done|]. constructor. exists fs', (S h'), t', L', R'. split; [done|]. split; [done|].
        split; [done|]. exists k. split; [done|]. split; [done|]. rewrite Ea. unfold sep. by rewrite Ei.
    + destruct Hres as [-> Hor]. cbn [steps]. eexists _, d. split; [done|]. split; [apply kept_refl|]. split; [apply (mv_Pinned _ _ (moved_trans _ _ _ Hm1 Hm))|].
      split; [done|]. by eapply on_same.
  - destruct Hpos as (Hik & k & Ek & EB & EA). eapply enters_steps; [done|done|done|done|done|done|]. by apply (btreeNext_inner _ _ c d fs h t L R).
Qed.

Lemma next_ok n restore c d x B A : at_entry c d x B A -> eState c = CURSOR_VALID ->
  steps (next_step (S (S n)) restore c d) c d x B A.
Proof using Q.
  intros Ha Hv. pose proof Ha as [(fs & h & t & L & R & Ho & Ex & Hpos)]. pose proof (zget_range _ _ _ Ex) as Hi. destruct h as [|h].
  - destruct (leaf_page _ _ _ _ _ _ Ho) as (Hl & Hnc & _ & Hmax & _). set (i := ix c) in *.
    set (c1 := forget_cell c). assert (Hm1 : moved c c1) by done. assert (Ho1 : on c1 d fs O t L R) by (by eapply on_same). apply (steps_via _ c c1); [done|].
    change (next_step (S (S n)) restore c d) with (if negb (bool_decide (eState c1 = CURSOR_VALID)) then btreeNext restore (next_step (S n) restore) c1 d else
      p ← page_of d (pPage c1); let i := u16 (ix c1 + 1) in if i >=? nCell p then btreeNext restore (next_step (S n) restore) (set_ix (u16 (i - 1)) c1) d
      else if leaf (pgType p) then Some (SQLITE_OK, set_ix i c1, d) else moveToLeftmost max_path (set_ix i c1) d).
    change (eState c1) with (eState c). rewrite Hv, bool_decide_eq_true_2 by done. cbn [negb]. change (pPage c1) with (pPage c). change (ix c1) with i.
    destruct (on_page_of _ _ _ _ _ _ _ Ho) as [m ->]. cbn [mbind option_bind]. rewrite u16_small by lia.
    change (nCell (set_nFree m (t_mem t))) with (nCell (t_mem t)). change (pgType (set_nFree m (t_mem t))) with (pgType (t_mem t)). rewrite Hnc, Hl. cbv zeta.
    destruct (Z.geb_spec (i + 1) (zlen (t_cells t))) as [Hlast|].
    + replace (u16 (i + 1 - 1)) with i by (rewrite u16_small; lia). apply (steps_via _ c1 (set_ix i c1)); [done|]. apply btreeNext_ok; [|done].
      by apply (at_entry_same c).
    + destruct Hpos as [-> ->]. by apply (leaf_next _ c1 d fs).
  - destruct Hpos as (Hik & k & Ek & EB & EA). eapply enters_steps; [done|done|done|done|done|done|]. by apply (next_inner _ _ c d fs h t L R).
Qed.

(** ** The previous entry *)

Definition steps_back (r : option (Z * Cursor * Db)) (c : Cursor) (d : Db) (x : list Z) (B A : list (list Z)) : Prop :=
  B = [] /\ ends r c d \/ exists B' y, B = B' ++ [y] /\ arrives r c d y B' (x :: A).

Lemma steps_back_via r c c1 d x B A : moved c c1 -> steps_back r c1 d x B A -> steps_back r c d x B A.
Proof using.
  intros Hm [[-> He]|(B' & y & -> & Ha)]; [left; split; [done|]; by apply (ends_via _ _ _ c1 d); [apply kept_refl|..]|right].
  exists B', y. split; [done|]. by apply (moved_via _ c c1).
Qed.

(** The child before the [i]-th cell of an interior page is visited next. *)
Definition enters_back (r : option (Z * Cursor * Db)) (c : Cursor) (d : Db) (t : tree) (i : Z) (L R : list (list Z)) : Prop :=
  exists k y B, (t_kids t).[i] = Some k /\ L ++ before_kid ik t i ++ entries ik k = B ++ [y] /\ arrives r c d y B (after_kid ik t i ++ R).

Lemma btreePrevious_inner restore again c d fs h t L R i : on c d fs (S h) t L R -> eState c = CURSOR_VALID -> ix c = i -> 0 <= i < zlen (t_cells t) ->
  enters_back (btreePrevious restore again c d) c d t i L R.
Proof using Q.
  intros Ho Hv Ei Hi. destruct (inner_page _ _ _ _ _ _ _ Ho) as (Hl & Hnc & _ & Hmax & Hcount & Hinit & Hn & Hb).
  destruct (kid_some t Hcount i ltac:(lia)) as [k Ek]. exists k. unfold btreePrevious, restored. rewrite Hv, bool_decide_eq_true_2 by done. cbn [mbind option_bind].
  destruct (on_page_of _ _ _ _ _ _ _ Ho) as [n ->]. cbn [mbind option_bind]. change (pgType (set_nFree n (t_mem t))) with (pgType (t_mem t)). rewrite Hl, Ei. cbn [negb].
  change (cell_child (set_nFree n (t_mem t)) i) with (cell_child (t_mem t) i). rewrite (node_child ik (db_bt d) t Hb Hn i k Ek) by lia. cbn [mbind option_bind].
  destruct (moveToChild_ok c d fs h t L R i k Ho Ek Ei) as (c' & d' & -> & Hk & Hm & Hs & _ & Ho'). cbn [mbind option_bind negb Z.eqb SQLITE_OK].
  pose proof Ho' as [Hp' Hd' _ _ _ _ _ _]. destruct (path_tree d' _ _ _ _ _ Hd' Hp') as (_ & Hne & Hlen). rewrite length_app in Hlen. cbn [length] in Hlen.
  pose proof (dk_height _ Hd'). destruct (rightmost_ok h max_path c' d' _ k _ _ ltac:(change max_path with 21%nat; lia) Ho' Hs ltac:(apply Hne; by destruct fs)) as (B & y & EB & Ha).
  exists y, B. rewrite app_assoc. split; [done|]. split; [done|]. by eapply arrives_via.
Qed.

Lemma previous_inner n restore c d fs h t L R i : on c d fs (S h) t L R -> eState c = CURSOR_VALID -> AtLast c = false -> ix c = i -> 0 <= i < zlen (t_cells t) ->
  enters_back (previous_step (S n) restore c d) c d t i L R.
Proof using Q.
  intros Ho Hv Hal Ei Hi. destruct (inner_page _ _ _ _ _ _ _ Ho) as (Hl & _). set (c1 := set_AtLast false (forget_cell c)).
  assert (Hm1 : moved c c1) by (by constructor). assert (Ho1 : on c1 d fs (S h) t L R) by (by eapply on_same).
  assert (E : previous_step (S n) restore c d = btreePrevious restore (previous_step n restore) c1 d).
  { cbn [previous_step]. fold c1. change (eState c1) with (eState c). rewrite Hv, bool_decide_eq_true_2 by done. cbn [negb orb]. change (ix c1) with (ix c). change (pPage c1) with (pPage c).
    destruct (Z.eqb_spec (ix c) 0); [done|]. destruct (on_page_of _ _ _ _ _ _ _ Ho) as [m ->]. cbn [mbind option_bind].
    change (pgType (set_nFree m (t_mem t))) with (pgType (t_mem t)). by rewrite Hl. }
  rewrite E. destruct (btreePrevious_inner restore (previous_step n restore) c1 d fs h t L R i Ho1 Hv Ei Hi) as (k & y & B & Ek & EB & Ha).
  exists k, y, B. split; [done|]. split; [done|]. by apply (moved_via _ c c1).
Qed.

Lemma enters_steps_back r c d fs h t L R i x k B A : on c d fs (S h) t L R -> (t_cells t).[i] = Some x -> (t_kids t).[i] = Some k ->
  B = L ++ before_kid ik t i ++ entries ik k -> x :: A = after_kid ik t i ++ R -> enters_back r c d t i L R -> steps_back r c d x B A.
Proof using.
  intros Ho Ex Ek -> EA (k' & y & B' & Ek' & EB & Ha). right. rewrite Ek in Ek'. injection Ek' as <-. exists B', y. by rewrite EA.
Qed.

Lemma leaf_previous r c d fs t L R i x : on c d fs O t L R -> (t_cells t).[i] = Some x -> 0 < i ->
  r = Some (SQLITE_OK, set_ix (i - 1) c, d) -> moved c (set_ix (i - 1) c) ->
  steps_back r c d x (L ++ take (Z.to_nat i) (t_cells t)) (drop (S (Z.to_nat i)) (t_cells t) ++ R).
Proof using.
  intros Ho Ex Hi -> Hm. pose proof (zget_range _ _ _ Ex). destruct (zget_some (t_cells t) (i - 1) ltac:(lia)) as [y Ey].
  pose proof (leaf_entry (set_ix (i - 1) c) d fs t L R (i - 1) y ltac:(by eapply on_same) Ey eq_refl) as Ha. rewrite !zget_to_nat in * by lia.
  replace (Z.to_nat i) with (S (Z.to_nat (i - 1))) in * by lia. rewrite (take_S_r _ _ _ Ey). rewrite (drop_S _ _ _ Ex) in Ha. right.
  exists (L ++ take (Z.to_nat (i - 1)) (t_cells t)), y. split; [by rewrite app_assoc|]. eexists _, d. split; [done|]. split; [apply kept_refl|]. by split.
Qed.

Lemma btreePrevious_ok n restore c d x B A : at_entry c d x B A -> eState c = CURSOR_VALID -> AtLast c = false ->
  steps_back (btreePrevious restore (previous_step (S n) restore) c d) c d x B A.
Proof using Q.
  intros [(fs & h & t & L & R & Ho & Ex & Hpos)] Hv Hal. pose proof (zget_range _ _ _ Ex) as Hi. destruct h as [|h];
    [|destruct Hpos as (Hik & k & Ek & EB & EA); eapply enters_steps_back; [done|done|done|done|done|]; by apply (btreePrevious_inner _ _ c d fs h t L R)].
  destruct Hpos as [-> ->]. destruct (leaf_page _ _ _ _ _ _ Ho) as (Hl & Hnc & Hik & Hmax & Hinit & Hent). set (i := ix c) in *.
  unfold btreePrevious, restored. rewrite Hv, bool_decide_eq_true_2 by done. cbn [mbind option_bind].
  destruct (on_page_of _ _ _ _ _ _ _ Ho) as [m Epg]. rewrite Epg. cbn [mbind option_bind]. change (pgType (set_nFree m (t_mem t))) with (pgType (t_mem t)). rewrite Hl. cbn [negb].
  pose proof Ho as [Hp Hd _ _ _ _ _ _]. destruct (path_tree d _ _ _ _ _ Hd Hp) as (_ & _ & Hlen). pose proof (dk_height _ Hd).
  destruct (up_previous_ok max_path c d fs O t L R) as (found & c' & -> & Hm & Hres); [change max_path with 21%nat; lia|done|]. cbn [mbind option_bind].
  fold i in Hres. destruct found; cbn [negb].
  - destruct Hres as [[Hne ->]|[E0 (fs' & h' & t' & L' & R' & k & [Ho' Ek] & Hi' & -> & ER)]].
    + fold i. rewrite u16_small by lia. change (pPage (set_ix (i - 1) c)) with (pPage c). rewrite Epg. cbn [mbind option_bind]. change (pgType (set_nFree m (t_mem t))) with (pgType (t_mem t)).
      rewrite Hl, andb_false_r. apply (leaf_previous _ c d fs); try done. lia.
    + destruct (inner_page _ _ _ _ _ _ _ Ho') as (Hl' & Hnc' & Hik' & Hmax' & Hcount & _). pose proof (zget_range _ _ _ Ek).
      rewrite u16_small by lia. set (j := ix c' - 1). change (pPage (set_ix j c')) with (pPage c'). set (c2 := set_ix j c').
      assert (Ho2 : on c2 d fs' (S h') t' L' R') by (by eapply on_same). destruct (on_page_of _ _ _ _ _ _ _ Ho') as [m' ->]. cbn [mbind option_bind].
      change (pgType (set_nFree m' (t_mem t'))) with (pgType (t_mem t')). rewrite Hl', Hik'. cbn [negb]. rewrite andb_true_r.
      destruct (zget_some (t_cells t') j ltac:(lia)) as [y Ey]. destruct (kid_some t' Hcount j ltac:(lia)) as [k1 Ek1].
      destruct (after_cell _ _ _ _ _ _ _ _ _ _ Ho2 Ey Ek1) as (k' & Ek' & Ea & Eb). replace (j + 1) with (ix c') in * by lia. rewrite Ek in Ek'. injection Ek' as <-.
      assert (Hmc : moved c c2) by (by apply (moved_trans c c')). rewrite E0 in *. change (Z.to_nat 0) with O. cbn [take]. rewrite app_nil_r.
      assert (EA : x :: drop 1 (t_cells t) ++ R = entries ik k ++ after_kid ik t' (ix c') ++ R').
      { rewrite <- ER, Hent. rewrite zget_to_nat in Ex by lia. pose proof (drop_S _ _ _ Ex) as Edrop. change (Z.to_nat 0) with O in Edrop. rewrite drop_0 in Edrop. by rewrite Edrop. }
      destruct (Bool.bool_dec ik true) as [Ei|Ei].
      * assert (Es : sep ik y = []) by (unfold sep; by rewrite Ei). rewrite Es in Ea, Eb. rewrite Ei at 1.
        destruct (previous_inner n restore c2 d fs' h' t' L' R' j Ho2) as (k2 & y' & B' & Ek2 & EB & Ha); [by rewrite (mv_eState _ _ Hmc)|by rewrite (mv_AtLast _ _ Hmc)|done|lia|].
        rewrite Ek1 in Ek2. injection Ek2 as <-. right. exists B', y'. rewrite Eb, app_nil_r. split; [done|].
        rewrite EA. rewrite Ea in Ha. cbn [app] in Ha. rewrite <- app_assoc in Ha. by apply (moved_via _ c c2).
      * apply not_true_is_false in Ei. assert (Es : sep ik y = [y]) by (unfold sep; by rewrite Ei). rewrite Es in Ea, Eb. rewrite Ei at 1.
        right. exists (L' ++ before_kid ik t' j ++ entries ik k1), y. rewrite Eb, <- !app_assoc. split; [done|].
        exists c2, d. split; [done|]. split; [apply kept_refl|]. split; [done|]. constructor. exists fs', (S h'), t', L', R'. split; [done|]. split; [done|].
        split; [done|]. exists k1. split; [done|]. split; [done|]. rewrite EA. change (ix c2) with j. rewrite Ea. cbn [app]. by rewrite <- app_assoc.
  - destruct Hres as (E0 & -> & Hor). left. rewrite E0. split; [done|]. eexists _, d. split; [done|]. split; [apply kept_refl|]. split; [apply (mv_Pinned _ _ Hm)|].
    split; [done|]. by eapply on_same.
Qed.

Lemma previous_ok n restore c d x B A : at_entry c d x B A -> eState c = CURSOR_VALID ->
  steps_back (previous_step (S (S n)) restore c d) (set_AtLast false c) d x B A.
Proof using Q.
  intros Ha Hv. set (c1 := set_AtLast false (forget_cell c)). assert (Ha1 : at_entry c1 d x B A) by (by apply (at_entry_same c)).
  apply (steps_back_via _ _ c1); [done|]. change (previous_step (S (S n)) restore c d) with
    (if negb (bool_decide (eState c1 = CURSOR_VALID)) || (ix c1 =? 0) then btreePrevious restore (previous_step (S n) restore) c1 d else
     p ← page_of d (pPage c1); if negb (leaf (pgType p)) then btreePrevious restore (previous_step (S n) restore) c1 d else Some (SQLITE_OK, set_ix (u16 (ix c1 - 1)) c1, d)).
  change (eState c1) with (eState c). rewrite Hv, bool_decide_eq_true_2 by done. cbn [negb orb]. destruct (Z.eqb_spec (ix c1) 0) as [E0|E0]; [by apply btreePrevious_ok|].
  destruct Ha1 as [(fs & h & t & L & R & Ho & Ex & Hpos)]. pose proof (zget_range _ _ _ Ex) as Hi. destruct (on_page_of _ _ _ _ _ _ _ Ho) as [m ->]. cbn [mbind option_bind].
  change (pgType (set_nFree m (t_mem t))) with (pgType (t_mem t)). destruct h as [|h].
  - destruct (leaf_page _ _ _ _ _ _ Ho) as (Hl & _ & _ & Hmax & _). rewrite Hl. cbn [negb]. destruct Hpos as [-> ->]. rewrite u16_small by lia. apply (leaf_previous _ c1 d fs); try done. lia.
  - destruct (inner_page _ _ _ _ _ _ _ Ho) as (Hl & _). rewrite Hl. cbn [negb]. apply btreePrevious_ok; [|done|done]. constructor. by exists fs, (S h), t, L, R.
Qed.

(** ** To the root *)

Definition rests (c : Cursor) (d : Db) : Prop := iPage c = -1 \/ exists fs h t L R, on c d fs h t L R.

(** What moving to the root changes. *)
Record at_root (c c' : Cursor) (d d' : Db) : Prop := {
  ar_kept : kept d d';
  ar_Pinned : Pinned c' = Pinned c;
  ar_AtLast : AtLast c' = false;
  ar_skipNext : skipNext c' = skipNext c;
  ar_settled : settled c';
}.

Definition rooted (r : option (Z * Cursor * Db)) (c : Cursor) (d : Db) : Prop :=
  exists c' d', at_root c c' d d' /\
    (r = Some (SQLITE_EMPTY, c', d') /\ entries ik root = [] /\ eState c' = CURSOR_INVALID /\ on c' d' [] height root [] [] \/
     r = Some (SQLITE_OK, c', d') /\ eState c' = CURSOR_VALID /\ ix c' = 0 /\
       exists fs h t, on c' d' fs h t [] [] /\ t_cells t <> [] /\ entries ik t = entries ik root).

Lemma rooted_via r c d c1 d1 : kept d d1 -> Pinned c1 = Pinned c -> skipNext c1 = skipNext c -> rooted r c1 d1 -> rooted r c d.
Proof using.
  intros Hk Hp Hs (c' & d' & [A1 A2 A3 A4 A5] & Hr). exists c', d'. split; [|done]. constructor; [by eapply kept_trans|congruence..|done].
Qed.

Lemma root_ready_ok c d : on c d [] height root [] [] -> rooted (root_ready c d) c d.
Proof using Q.
  intros Ho. pose proof Ho as [Hp Hd _ _ _ Hpg _ _]. destruct (path_node d _ _ _ _ _ Hd Hp) as [Hn Hleaf]. unfold root_ready.
  destruct (on_page_of _ _ _ _ _ _ _ Ho) as [n ->]. cbn [mbind option_bind]. change (nCell (set_nFree n (t_mem root))) with (nCell (t_mem root)).
  change (pgType (set_nFree n (t_mem root))) with (pgType (t_mem root)). rewrite (node_nCell _ _ _ Hn). set (c1 := set_AtLast false _).
  assert (Ho1 : forall e, on (set_state e c1) d [] height root [] []) by (intros e; by eapply on_same).
  destruct (Z.gtb_spec (zlen (t_cells root)) 0) as [Hpos|Hpos].
  - exists (set_state CURSOR_VALID c1), d. split; [by constructor|]. right. split_and!; try done. exists [], height, root. split; [done|]. split; [|done].
    intros E. by rewrite E in Hpos.
  - assert (Ec : t_cells root = []) by (destruct (t_cells root) eqn:E; [done|rewrite <- E in *; pose proof (zlen_pos (t_cells root)); rewrite E in *; naive_solver lia]).
    destruct (leaf (pgType (t_mem root))) eqn:El; cbn [negb].
    + exists (set_state CURSOR_INVALID c1), d. split; [by constructor|]. left. apply (no_leaf _ _ _ Hn) in El. split_and!; try done. destruct root as [pg p cs ks]. cbn in *. by subst.
    + assert (Hk : t_kids root <> []) by (intros E; apply (no_leaf _ _ _ Hn) in E; congruence).
      change (pPage c1) with (pPage c). rewrite Hpg, (dk_root _ Hd Ec Hk). cbn [negb Z.eqb Pos.eqb]. pose proof (no_kids _ _ _ Hn Hk) as Hcount. destruct (kid_some root Hcount 0) as [k Ek]; [by rewrite Ec|].
      change (get4 (aData (set_nFree n (t_mem root))) (hdrOffset (set_nFree n (t_mem root)) + 8)) with (right_child (t_mem root)).
      rewrite (no_right _ _ _ Hn k) by (by rewrite Ec). cbn [mbind option_bind]. assert (Eh : exists h, height = S h).
      { destruct (Nat.eq_dec height 0) as [E|E]; [by apply Hleaf in E|]. exists (pred height). lia. }
      destruct Eh as [h Eh]. specialize (Ho1 CURSOR_VALID). rewrite Eh in Ho1.
      destruct (moveToChild_ok _ d [] h root [] [] 0 k Ho1 Ek eq_refl) as (c' & d' & -> & Hkp & Hm & Hs & E0 & Ho'). exists c', d'.
      split; [constructor; try done; [apply Hm..]|]. right. split; [done|]. split; [apply Hm|]. split; [done|]. exists ([] ++ [(t_page root, 0)]), h, k.
      rewrite before_first, after_last in Ho' by (by rewrite Ec). split; [done|]. split; [|by rewrite (entries_kid ik root Hcount 0 k Ek), before_first, after_last, app_nil_r by (by rewrite Ec)].
      destruct Ho' as [Hp' Hd' _ _ _ _ _ _]. by destruct (path_tree d' _ _ _ _ _ Hd' Hp') as (_ & Hne & _); apply Hne.
Qed.

Lemma root_check_ok c d : on c d [] height root [] [] -> rooted (root_check c d) c d.
Proof using Q.
  intros Ho. pose proof Ho as [Hp Hd [_ Hki _ _ _] _ _ Hpg _ Hh]. destruct (path_node d _ _ _ _ _ Hd Hp) as [Hn _]. unfold root_check.
  destruct (held_cached _ _ _ _ _ _ Hh Hp) as [Hi _]. destruct (on_page_of _ _ _ _ _ _ _ Ho) as [n ->]. cbn [mbind option_bind].
  change (pgType (set_nFree n (t_mem root))) with (pgType (t_mem root)). rewrite Hpg, Hi, Hki, negb_involutive, (no_kind _ _ _ Hn), eqb_reflx. cbn [negb orb]. by apply root_ready_ok.
Qed.

Lemma root_on c d : cur_ok c -> db_ok d -> iPage c = 0 -> pPage c = t_page root -> curIntKey c = ik -> cached d root -> on c d [] height root [] [].
Proof using.
  intros Hc Hd Hi Hpg Hk Hca. constructor; try done; [apply path_root|intros j fr E; apply zget_range in E; change (zlen (@nil (Z * Z))) with 0 in E; lia|].
  intros fs1 fs2 h' t' L' R' E Hp1. destruct fs1; [|done]. by destruct (path_fun _ _ _ _ _ path_root _ _ _ _ Hp1) as (_ & -> & _).
Qed.

Lemma on_root c d fs h t L R : on c d fs h t L R -> on (set_level 0 (t_page root) c) d [] height root [] [].
Proof using.
  intros [Hp Hd Hc Hlev Hst Hpg Hkind Hh]. apply root_on; try done; [by destruct Hc|]. by eapply (Hh [] fs); [|apply path_root].
Qed.

Lemma moveToRoot_ok c d : cur_ok c -> db_ok d -> rests c d -> eState c <> CURSOR_FAULT -> rooted (moveToRoot c d) c d.
Proof using Q.
  intros Hc Hd [Hi|(fs & h & t & L & R & Ho)] Hf; unfold moveToRoot.
  - rewrite Hi. cbn [Z.geb Z.compare]. pose proof path_root as Hp. destruct (path_node d _ _ _ _ _ Hd Hp) as [Hn _]. pose proof Hc as [C1 C2 C3 C4 C5].
    rewrite C1. destruct (no_pgno _ _ _ Hn) as [H1 _]. destruct (Z.eqb_spec (t_page root) 0); [lia|]. rewrite bool_decide_eq_false_2 by done.
    set (c0 := if requires_seek (eState c) then _ else _). assert (Ec : exists e, c0 = set_state e c).
    { subst c0. destruct (requires_seek (eState c)); [by exists CURSOR_INVALID|]. exists (eState c). by destruct c. }
    destruct Ec as [e ->]. cbn [pgnoRoot set_state curPagerFlags]. rewrite C1.
    destruct (getAndInitPage_ok d _ _ _ _ _ None (curPagerFlags c) Hd Hp C3 ltac:(done)) as (d' & -> & Hk & Hd' & Hca). cbn [mbind option_bind negb Z.eqb SQLITE_OK].
    destruct (path_node d' _ _ _ _ _ Hd' Hp) as [Hn' _]. destruct (page_of_cached d' root Hn' Hca) as [n' ->]. cbn [mbind option_bind].
    set (c1 := set_curIntKey _ _). apply (rooted_via _ c d c1 d'); [done|done|done|]. apply root_check_ok. apply root_on; try done. cbn. apply (no_kind _ _ _ Hn').
  - pose proof Ho as [Hp _ _ Hlev Hst _ _ _]. pose proof (zlen_nonneg fs). destruct (Z.geb_spec (iPage c) 0); [|lia]. pose proof (on_root _ _ _ _ _ _ _ Ho) as Hor.
    destruct (on_level _ _ _ _ _ _ _ Ho) as [(-> & E0 & -> & -> & -> & ->)|[Hne Hne']].
    + rewrite E0. cbn [negb Z.eqb]. by apply root_check_ok.
    + destruct (Z.eqb_spec (iPage c) 0); [done|]. cbn [negb]. pose proof (zlen_pos _ Hne). destruct (zget_some fs 0 ltac:(lia)) as [fr Efr].
      destruct (Hst _ _ Efr) as [-> _]. cbn [mbind option_bind]. rewrite (path_first _ _ _ _ _ Hp fr Efr). apply (rooted_via _ c d (set_level 0 (t_page root) c) d); [apply kept_refl|done|done|].
      by apply root_ready_ok.
Qed.

Lemma first_ok c d res : cur_ok c -> db_ok d -> rests c d -> eState c <> CURSOR_FAULT ->
  exists c' d', sqlite3BtreeFirst c d res = Some (SQLITE_OK, if bool_decide (entries ik root = []) then 1 else 0, c', d') /\ at_root c c' d d' /\
    match entries ik root with
    | [] => eState c' = CURSOR_INVALID /\ on c' d' [] height root [] []
    | x :: A => eState c' = CURSOR_VALID /\ at_entry c' d' x [] A
    end.
Proof using Q.
  intros Hc Hd Hr Hf. destruct (moveToRoot_ok c d Hc Hd Hr Hf) as (c1 & d1 & Hrt & Hres). unfold sqlite3BtreeFirst.
  destruct Hres as [(-> & -> & He & Ho)|(-> & He & E0 & fs & h & t & Ho & Hne & Ee)]; cbn [mbind option_bind].
  - exists c1, d1. split; [done|]. split; [done|]. by split.
  - pose proof Ho as [Hp Hd1 _ _ _ _ _ _]. destruct (path_tree d1 _ _ _ _ _ Hd1 Hp) as (_ & _ & Hlen). pose proof (dk_height _ Hd1).
    destruct (leftmost_ok h max_path c1 d1 fs t [] [] ltac:(change max_path with 21%nat; lia) Ho (ar_settled _ _ _ _ Hrt) E0 Hne) as (x & A & EA & c2 & d2 & -> & Hk & Hm & Ha).
    rewrite app_nil_r, Ee in EA. rewrite EA. cbn [mbind option_bind Z.eqb SQLITE_OK]. exists c2, d2. split; [done|]. pose proof (mv_settled _ _ Hm) as M5. destruct Hrt as [A1 A2 A3 A4 A5], Hm as [M1 M2 M3 M4 _ _ _].
    split; [|split; [congruence|done]]. constructor; try congruence; [by eapply kept_trans|by apply M5].
Qed.

Lemma last_ok c d res : cur_ok c -> db_ok d -> rests c d -> eState c <> CURSOR_FAULT ->
  exists c' d', btreeLast c d res = Some (SQLITE_OK, if bool_decide (entries ik root = []) then 1 else 0, c', d') /\ at_root c (set_AtLast false c') d d' /\
    (entries ik root = [] /\ eState c' = CURSOR_INVALID /\ on c' d' [] height root [] [] \/
     exists B x, entries ik root = B ++ [x] /\ eState c' = CURSOR_VALID /\ at_entry c' d' x B []).
Proof using Q.
  intros Hc Hd Hr Hf. destruct (moveToRoot_ok c d Hc Hd Hr Hf) as (c1 & d1 & Hrt & Hres). unfold btreeLast.
  destruct Hres as [(-> & -> & He & Ho)|(-> & He & E0 & fs & h & t & Ho & Hne & Ee)]; cbn [mbind option_bind].
  - exists c1, d1. split; [done|]. split; [by destruct Hrt|]. left. by split_and!.
  - pose proof Ho as [Hp Hd1 _ _ _ _ _ _]. destruct (path_tree d1 _ _ _ _ _ Hd1 Hp) as (_ & _ & Hlen). pose proof (dk_height _ Hd1).
    destruct (rightmost_ok h max_path c1 d1 fs t [] [] ltac:(change max_path with 21%nat; lia) Ho (ar_settled _ _ _ _ Hrt) Hne) as (B & x & EB & c2 & d2 & -> & Hk & Hm & Ha).
    cbn [app] in EB. rewrite Ee in EB. rewrite EB. cbn [mbind option_bind Z.eqb SQLITE_OK]. rewrite bool_decide_eq_false_2 by (by destruct B).
    exists (set_AtLast true c2), d2. split; [done|]. pose proof (mv_settled _ _ Hm) as M5. destruct Hrt as [A1 A2 A3 A4 A5], Hm as [M1 M2 M3 M4 _ _ _]. split.
    + constructor; cbn; try congruence; [by eapply kept_trans|by apply M5].
    + right. exists B, x. split; [done|]. split; [cbn; congruence|]. by apply (at_entry_same c2).
Qed.

(** ** The cell of the cursor, and pages that leave the cache *)

Definition current (c : Cursor) (d : Db) : option (list Z) := p ← page_of d (pPage c); read_cell (bt_shared (db_bt d)) p (ix c).

Lemma current_ok c d x B A : at_entry c d x B A -> current c d = Some x /\ entries ik root = B ++ x :: A.
Proof using.
  intros [(fs & h & t & L & R & Ho & Ex & Hpos)]. pose proof Ho as [Hp Hd _ _ _ _ _ _]. destruct (path_node d _ _ _ _ _ Hd Hp) as [Hn _]. split.
  - unfold current. destruct (on_page_of _ _ _ _ _ _ _ Ho) as [n ->]. cbn [mbind option_bind].
    change (read_cell _ (set_nFree n (t_mem t)) (ix c)) with (read_cell (bt_shared (db_bt d)) (t_mem t) (ix c)).
    apply (page_read _ _ _ (dk_shared _ Hd) (no_page _ _ _ Hn) _ _ Ex).
  - rewrite (path_entries d _ _ _ _ _ Hd Hp). destruct h as [|h].
    + destruct Hpos as [-> ->]. rewrite (leaf_entries d fs t L R Hd Hp). pose proof (zget_range _ _ _ Ex). rewrite zget_to_nat in Ex by lia.
      rewrite <- (take_drop_middle (t_cells t) _ _ Ex) at 1. by rewrite <- !app_assoc.
    + destruct Hpos as (Hik & k & Ek & -> & ->). rewrite (entries_kid ik t (path_count _ _ _ _ _ _ Hd Hp) _ k Ek). by rewrite <- !app_assoc.
Qed.

(** The pages the cursor has references to. *)
Definition in_use (c : Cursor) : list Z := if iPage c <? 0 then [] else pPage c :: take (Z.to_nat (iPage c)) (apPage c).

(** The page cache drops pages that nobody uses. *)
Definition evict (ps : gset Z) (c : Cursor) (d : Db) : Db :=
  let s := db_bt d in
  mkDb (mkBt (bt_shared s) (autoVacuum s) (bDoTruncate s) (nPage s) (bt_pages s) (bt_isInit s ∖ (ps ∖ list_to_set (in_use c))) (pHasContent s) (bt_alloc s) (pPager s)) (db_mem d).

Lemma path_prefix fs1 pg i fs2 : forall h t L R, path (fs1 ++ (pg, i) :: fs2) h t L R -> forall h' t' L' R', path fs1 h' t' L' R' -> pg = t_page t'.
Proof using.
  induction fs2 as [|[pg' i'] fs2 IH] using rev_ind; intros h t L R Hp h' t' L' R' Hp'.
  - apply path_up in Hp as (t0 & L0 & R0 & Hp0 & -> & _). by destruct (path_fun _ _ _ _ _ Hp0 _ _ _ _ Hp') as (_ & -> & _).
  - rewrite app_comm_cons, app_assoc in Hp. apply path_up in Hp as (t0 & L0 & R0 & Hp0 & _). by eapply IH.
Qed.

Lemma path_in_use c d fs h t L R : on c d fs h t L R -> forall fs1 fs2 h' t' L' R', fs = fs1 ++ fs2 -> path fs1 h' t' L' R' -> t_page t' ∈ in_use c.
Proof using.
  intros [Hp Hd Hc Hlev Hst Hpg _ _] fs1 fs2 h' t' L' R' E Hp1. unfold in_use. pose proof (zlen_nonneg fs). destruct (Z.ltb_spec (iPage c) 0); [lia|].
  destruct fs2 as [|[pg i] fs2].
  - rewrite app_nil_r in E. subst fs1. destruct (path_fun _ _ _ _ _ Hp _ _ _ _ Hp1) as (_ & -> & _). rewrite Hpg. apply list_elem_of_here.
  - subst fs. apply list_elem_of_further. rewrite (path_prefix _ _ _ _ _ _ _ _ Hp _ _ _ _ Hp1) in Hst.
    destruct (Hst (zlen fs1) (t_page t', i)) as [Ea _]; [rewrite zget_app_r, Z.sub_diag by lia; done|]. cbn [fst] in Ea.
    rewrite zlen_app, zlen_cons in Hlev. pose proof (zlen_nonneg fs1). pose proof (zlen_nonneg fs2). rewrite zget_to_nat in Ea by lia.
    apply (list_elem_of_lookup_2 _ (Z.to_nat (zlen fs1))). rewrite lookup_take_lt by lia. done.
Qed.

Lemma cached_evict ps c d t : cached d t -> t_page t ∈ in_use c -> cached (evict ps c d) t.
Proof using Q. intros [Hi Hm] Hu. split; [|done]. apply bool_decide_eq_true in Hi. apply bool_decide_eq_true. cbn [evict db_bt bt_isInit]. set_solver. Qed.

Lemma db_ok_evict ps c d : db_ok d -> db_ok (evict ps c d).
Proof using Q.
  intros [H1 H2 H3 H4 H5]. constructor; try done; [by apply (tree_same ik (db_bt d))|]. intros fs h t L R Hp Hi. pose proof Hi as Hi'. apply bool_decide_eq_true in Hi. cbn [evict db_bt bt_isInit] in Hi.
  destruct (H5 fs h t L R Hp) as [_ Hm]; [|by split]. apply bool_decide_eq_true. set_solver.
Qed.

Lemma on_evict ps c d fs h t L R : on c d fs h t L R -> on c (evict ps c d) fs h t L R.
Proof using Q.
  intros Ho. pose proof Ho as [Hp Hd Hc Hlev Hst Hpg Hk Hh]. constructor; try done; [by apply db_ok_evict|]. intros fs1 fs2 h' t' L' R' E Hp1.
  apply cached_evict; [by eapply Hh|by eapply path_in_use].
Qed.

(** * Walking through a tree *)

Inductive walk_op := WFirst | WLast | WNext | WPrevious | WEvict (ps : gset Z).

(** What one operation does. *)
Definition walk_step (o : walk_op) (c : Cursor) (d : Db) : option (Z * Cursor * Db) :=
  match o with
  | WFirst => '(rc, _, c, d) ← sqlite3BtreeFirst c d 0; Some (rc, c, d)
  | WLast => '(rc, _, c, d) ← sqlite3BtreeLast c d 0; Some (rc, c, d)
  | WNext => sqlite3BtreeNext c d
  | WPrevious => sqlite3BtreePrevious c d
  | WEvict ps => Some (SQLITE_OK, c, evict ps c d)
  end.

(** The result codes, and the cells at which the cursor is. *)
Fixpoint run_walk (ops : list walk_op) (c : Cursor) (d : Db) : option (list (Z * option (list Z))) :=
  match ops with
  | [] => Some []
  | WEvict ps :: ops => run_walk ops c (evict ps c d)
  | o :: ops =>
      '(rc, c, d) ← walk_step o c d;
      x ← (if sqlite3BtreeEof c then Some None else x ← current c d; Some (Some x));
      rs ← run_walk ops c d;
      Some ((rc, x) :: rs)
  end.

(** On a list, from the position [pos]. *)
Definition spec_walk_step (l : list (list Z)) (o : walk_op) (pos : option Z) : Z * option Z :=
  match o with
  | WFirst => (SQLITE_OK, if bool_decide (l = []) then None else Some 0)
  | WLast => (SQLITE_OK, if bool_decide (l = []) then None else Some (zlen l - 1))
  | WNext => match pos with Some i => if i + 1 <? zlen l then (SQLITE_OK, Some (i + 1)) else (SQLITE_DONE, None) | None => (SQLITE_DONE, None) end
  | WPrevious => match pos with Some i => if 0 <? i then (SQLITE_OK, Some (i - 1)) else (SQLITE_DONE, None) | None => (SQLITE_DONE, None) end
  | WEvict _ => (SQLITE_OK, pos)
  end.
Fixpoint spec_walk (l : list (list Z)) (ops : list walk_op) (pos : option Z) : list (Z * option (list Z)) :=
  match ops with
  | [] => []
  | WEvict _ :: ops => spec_walk l ops pos
  | o :: ops => let '(rc, pos) := spec_walk_step l o pos in (rc, i ← pos; l.[i]) :: spec_walk l ops pos
  end.

(** The cursor is at the position [pos]. *)
Definition walks (c : Cursor) (d : Db) (pos : option Z) : Prop :=
  cur_ok c /\ db_ok d /\
  match pos with
  | None => eState c = CURSOR_INVALID /\ rests c d
  | Some i => eState c = CURSOR_VALID /\ exists x B A, at_entry c d x B A /\ zlen B = i /\ (AtLast c = true -> A = [])
  end.

Lemma at_entry_rests c d x B A : at_entry c d x B A -> cur_ok c /\ db_ok d /\ rests c d.
Proof using. intros [(fs & h & t & L & R & Ho & _)]. split; [apply Ho|]. split; [apply Ho|]. right. by exists fs, h, t, L, R. Qed.

Lemma walks_rests c d pos : walks c d pos -> cur_ok c /\ db_ok d /\ rests c d /\ eState c <> CURSOR_FAULT.
Proof using.
  intros (Hc & Hd & Hp). split; [done|]. split; [done|]. destruct pos as [i|]; [|destruct Hp as [-> ?]; done].
  destruct Hp as (-> & x & B & A & Ha & _). destruct (at_entry_rests _ _ _ _ _ Ha) as (_ & _ & Hr). done.
Qed.

Lemma walks_evict ps c d pos : walks c d pos -> walks c (evict ps c d) pos.
Proof using Q.
  intros (Hc & Hd & Hp). split; [done|]. split; [by apply db_ok_evict|]. destruct pos as [i|].
  - destruct Hp as (He & x & B & A & [(fs & h & t & L & R & Ho & Hx)] & Hi). split; [done|]. exists x, B, A. split; [|done]. constructor. exists fs, h, t, L, R.
    split; [by apply on_evict|done].
  - destruct Hp as [He [Hi|(fs & h & t & L & R & Ho)]]; (split; [done|]); [by left|right]. exists fs, h, t, L, R. by apply on_evict.
Qed.

Lemma arrives_walks r c d x B A rc pos : arrives r c d x B A -> eState c = CURSOR_VALID -> AtLast c = false \/ A = [] -> rc = SQLITE_OK -> pos = Some (zlen B) ->
  exists c' d', r = Some (rc, c', d') /\ walks c' d' pos.
Proof using.
  intros (c' & d' & -> & _ & Hm & Ha) He Hal -> ->. exists c', d'. split; [done|]. destruct (at_entry_rests _ _ _ _ _ Ha) as (Hc & Hd & _). split; [done|]. split; [done|].
  split; [by rewrite (mv_eState _ _ Hm)|]. exists x, B, A. split; [done|]. split; [done|]. rewrite (mv_AtLast _ _ Hm). intros E. destruct Hal; congruence.
Qed.

Lemma ends_walks r c d rc pos : ends r c d -> rc = SQLITE_DONE -> pos = None -> exists c' d', r = Some (rc, c', d') /\ walks c' d' pos.
Proof using.
  intros (c' & d' & -> & _ & _ & He & Ho) -> ->. exists c', d'. split; [done|]. split; [apply Ho|]. split; [apply Ho|]. split; [done|]. right. by exists [], height, root, [], [].
Qed.

Lemma pos_entry c d x B A : at_entry c d x B A -> zlen (entries ik root) = zlen B + 1 + zlen A.
Proof using. intros Ha. destruct (current_ok _ _ _ _ _ Ha) as [_ ->]. rewrite zlen_app, zlen_cons. lia. Qed.

Lemma walks_at c d x B A pos : at_entry c d x B A -> eState c = CURSOR_VALID -> AtLast c = false \/ A = [] -> pos = Some (zlen B) -> walks c d pos.
Proof using.
  intros Ha He Hal ->. destruct (at_entry_rests _ _ _ _ _ Ha) as (Hc & Hd & _). split; [done|]. split; [done|]. split; [done|]. exists x, B, A.
  split; [done|]. split; [done|]. intros E. destruct Hal; congruence.
Qed.

Lemma walks_end c d pos : on c d [] height root [] [] -> eState c = CURSOR_INVALID -> pos = None -> walks c d pos.
Proof using. intros Ho He ->. split; [apply Ho|]. split; [apply Ho|]. split; [done|]. right. by exists [], height, root, [], []. Qed.

Lemma walk_first_ok c d pos : walks c d pos ->
  exists c' d', walk_step WFirst c d = Some (SQLITE_OK, c', d') /\ walks c' d' (if bool_decide (entries ik root = []) then None else Some 0).
Proof using Q.
  intros Hw. destruct (walks_rests _ _ _ Hw) as (Hc & Hd & Hr & Hf). destruct (first_ok c d 0 Hc Hd Hr Hf) as (c' & d' & E & Hrt & Hres). unfold walk_step. rewrite E.
  exists c', d'. split; [done|]. destruct (entries ik root) as [|x A].
  - destruct Hres as [He Ho]. by apply (walks_end _ _ _ Ho He).
  - destruct Hres as [He Ha]. apply (walks_at _ _ _ _ _ _ Ha); [done|left; apply Hrt|done].
Qed.

Lemma walk_last_ok c d pos : walks c d pos ->
  exists c' d', walk_step WLast c d = Some (SQLITE_OK, c', d') /\ walks c' d' (if bool_decide (entries ik root = []) then None else Some (zlen (entries ik root) - 1)).
Proof using Q.
  intros Hw. destruct (walks_rests _ _ _ Hw) as (Hc & Hd & Hr & Hf). unfold walk_step, sqlite3BtreeLast.
  destruct (bool_decide (eState c = CURSOR_VALID) && AtLast c) eqn:Eal.
  - apply andb_true_iff in Eal as [He%bool_decide_eq_true Hal]. exists c, d. split; [done|]. destruct Hw as (_ & _ & Hp). destruct pos as [i|]; [|destruct Hp; congruence].
    destruct Hp as (_ & x & B & A & Ha & _ & HA). rewrite (HA Hal) in Ha. pose proof (pos_entry _ _ _ _ _ Ha) as El. rewrite bool_decide_eq_false_2.
    + apply (walks_at _ _ _ _ _ _ Ha); [done|by right|]. f_equal. rewrite El. change (zlen []) with 0. lia.
    + intros E. rewrite E in El. change (zlen []) with 0 in El. pose proof (zlen_nonneg B). change (0 = zlen B + 1 + 0) in El. lia.
  - destruct (last_ok c d 0 Hc Hd Hr Hf) as (c' & d' & -> & _ & Hres). exists c', d'. split; [done|]. destruct Hres as [(-> & He & Ho)|(B & x & E & He & Ha)].
    + by apply walks_end.
    + rewrite E, bool_decide_eq_false_2 by (by destruct B). apply (walks_at _ _ _ _ _ _ Ha); [done|by right|]. f_equal. rewrite zlen_app. change (zlen [x]) with 1. lia.
Qed.

(** A cursor that points nowhere stays where it is. *)
Lemma restored_invalid skip c d : eState c = CURSOR_INVALID -> restored restoreCursorPosition skip c d = Some (inl (SQLITE_DONE, c, d)).
Proof using. intros He. unfold restored, restoreCursorPosition. rewrite He. cbn. by rewrite He. Qed.

Lemma walks_same c c' d pos : walks c d pos -> moved c c' ->
  (pgnoRoot c', pKeyInfo c', curPagerFlags c', aiIdx c', apPage c', iPage c', pPage c', curIntKey c', ix c') =
  (pgnoRoot c, pKeyInfo c, curPagerFlags c, aiIdx c, apPage c, iPage c, pPage c, curIntKey c, ix c) -> walks c' d pos.
Proof using.
  intros (Hc & Hd & Hp) Hm E. split; [injection E as E1 E2 E3 E4 E5 E6 E7 E8 E9; destruct Hc; constructor; congruence|]. split; [done|].
  rewrite (mv_eState _ _ Hm). destruct pos as [i|].
  - destruct Hp as (He & x & B & A & Ha & Hi). split; [done|]. exists x, B, A. split; [by apply (at_entry_same c)|]. by rewrite (mv_AtLast _ _ Hm).
  - destruct Hp as [He Hr]. split; [done|]. injection E as E1 E2 E3 E4 E5 E6 E7 E8 E9. destruct Hr as [Hi|(fs & h & t & L & R & Ho)]; [left; congruence|right].
    exists fs, h, t, L, R. apply (on_same c); [done|congruence].
Qed.

Lemma walk_next_ok c d pos : walks c d pos -> let '(rc, pos') := spec_walk_step (entries ik root) WNext pos in
  exists c' d', walk_step WNext c d = Some (rc, c', d') /\ walks c' d' pos'.
Proof using Q.
  intros Hw. unfold walk_step, sqlite3BtreeNext, spec_walk_step. destruct pos as [i|].
  - destruct Hw as (_ & _ & He & x & B & A & Ha & <- & Hal). pose proof (pos_entry _ _ _ _ _ Ha) as El. pose proof (next_ok 0 restoreCursorPosition c d x B A Ha He) as Hs.
    destruct A as [|y A].
    + change (zlen (@nil (list Z))) with 0 in El. destruct (Z.ltb_spec (zlen B + 1) (zlen (entries ik root))); [lia|]. by eapply ends_walks.
    + rewrite zlen_cons in El. pose proof (zlen_nonneg A). destruct (Z.ltb_spec (zlen B + 1) (zlen (entries ik root))); [|lia].
      eapply arrives_walks; [exact Hs|done| |done|by rewrite zlen_app]. left. destruct (AtLast c); [by specialize (Hal eq_refl)|done].
  - pose proof Hw as (_ & _ & He & _). set (c1 := forget_cell c). exists c1, d. split; [|by apply (walks_same c)].
    cbn [next_step]. fold c1. change (eState c1) with (eState c). rewrite bool_decide_eq_false_2 by congruence. cbn [negb]. unfold btreeNext. by rewrite restored_invalid.
Qed.

Lemma walk_previous_ok c d pos : walks c d pos -> let '(rc, pos') := spec_walk_step (entries ik root) WPrevious pos in
  exists c' d', walk_step WPrevious c d = Some (rc, c', d') /\ walks c' d' pos'.
Proof using Q.
  intros Hw. unfold walk_step, sqlite3BtreePrevious, spec_walk_step. destruct pos as [i|].
  - destruct Hw as (_ & _ & He & x & B & A & Ha & <- & Hal). destruct (previous_ok 0 restoreCursorPosition c d x B A Ha He) as [[-> Hs]|(B' & y & -> & Hs)].
    + cbn. by eapply ends_walks.
    + rewrite zlen_app. change (zlen [y]) with 1. pose proof (zlen_nonneg B'). destruct (Z.ltb_spec 0 (zlen B' + 1)); [|lia].
      eapply arrives_walks; [exact Hs|done|by left|done|]. f_equal. lia.
  - pose proof Hw as (_ & _ & He & _). set (c1 := set_AtLast false (forget_cell c)). exists c1, d. split.
    + cbn [previous_step]. fold c1. change (eState c1) with (eState c). rewrite bool_decide_eq_false_2 by congruence. cbn [negb orb]. unfold btreePrevious. by rewrite restored_invalid.
    + destruct Hw as (Hc & Hd & _ & Hr). split; [by destruct Hc|]. split; [done|]. split; [done|]. destruct Hr as [Hi|(fs & h & t & L & R & Ho)]; [by left|right].
      exists fs, h, t, L, R. by apply (on_same c).
Qed.

(** What the client sees of a position. *)
Lemma walks_seen c d pos : walks c d pos ->
  (if sqlite3BtreeEof c then Some None else x ← current c d; Some (Some x)) = Some (i ← pos; (entries ik root).[i]).
Proof using.
  intros (_ & _ & Hp). unfold sqlite3BtreeEof. destruct pos as [i|].
  - destruct Hp as (-> & x & B & A & Ha & <- & _). rewrite bool_decide_eq_true_2 by done. cbn [negb]. destruct (current_ok _ _ _ _ _ Ha) as [-> ->]. cbn [mbind option_bind].
    by rewrite zget_app_r, Z.sub_diag by lia.
  - destruct Hp as [-> _]. by rewrite bool_decide_eq_false_2.
Qed.

Lemma run_walk_ok ops : forall c d pos, walks c d pos -> run_walk ops c d = Some (spec_walk (entries ik root) ops pos).
Proof using Q.
  induction ops as [|o ops IH]; intros c d pos Hw; [done|].
  assert (Hstep : forall rc pos', (exists c' d', walk_step o c d = Some (rc, c', d') /\ walks c' d' pos') ->
    ('(rc, c, d) ← walk_step o c d; x ← (if sqlite3BtreeEof c then Some None else x ← current c d; Some (Some x)); rs ← run_walk ops c d; Some ((rc, x) :: rs)) =
    Some ((rc, i ← pos'; (entries ik root).[i]) :: spec_walk (entries ik root) ops pos')).
  { intros rc pos' (c' & d' & -> & Hw'). cbn [mbind option_bind]. pose proof (walks_seen _ _ _ Hw') as ->. cbn [mbind option_bind]. by rewrite (IH _ _ _ Hw'). }
  destruct o as [| | | |ps]; cbn [run_walk spec_walk spec_walk_step].
  - apply Hstep, (walk_first_ok _ _ _ Hw).
  - apply Hstep, (walk_last_ok _ _ _ Hw).
  - pose proof (walk_next_ok _ _ _ Hw) as Hn. cbn [spec_walk_step] in Hn. destruct pos as [i|]; [destruct (_ <? _)|]; by apply Hstep.
  - pose proof (walk_previous_ok _ _ _ Hw) as Hn. cbn [spec_walk_step] in Hn. destruct pos as [i|]; [destruct (_ <? _)|]; by apply Hstep.
  - by apply IH, walks_evict.
Qed.
(** A cursor in memory that holds the arrays. *)
Definition cursor_memory (c : Cursor) : Prop := zlen (aiIdx c) = BTCURSOR_MAX_DEPTH - 1 /\ zlen (apPage c) = BTCURSOR_MAX_DEPTH - 1.

Lemma btreeCursor_ok d wrFlag c : db_ok d -> cursor_memory c ->
  exists c', btreeCursor d (t_page root) wrFlag (negb ik) (sqlite3BtreeCursorZero c) = (SQLITE_OK, c') /\ cur_ok c' /\ iPage c' = -1 /\ eState c' = CURSOR_INVALID /\ Pinned c' = false.
Proof using.
  intros Hd [H1 H2]. destruct (path_node d _ _ _ _ _ Hd path_root) as [Hn _]. destruct (no_pgno _ _ _ Hn). unfold btreeCursor. destruct (Z.ltb_spec (t_page root) 1); [lia|].
  eexists. split; [done|]. split; [|done]. constructor; cbn; try done; [|by destruct wrFlag]. destruct (Z.eqb_spec (nPage (db_bt d)) 0); [lia|]. by rewrite andb_false_r.
Qed.

(** C17. A cursor walks through the entries of a tree, of a table or of an
    index, in order: whatever moves to the first, the last, the next and the
    previous entry are made, and whatever pages the cache drops meanwhile, each
    of them returns what it would on a list, ends, and leaves the cursor at the
    entry that a list would have there. *)
Theorem cursor_walks ops d wrFlag c : db_ok d -> cursor_memory c ->
  exists c', btreeCursor d (t_page root) wrFlag (negb ik) (sqlite3BtreeCursorZero c) = (SQLITE_OK, c') /\ run_walk ops c' d = Some (spec_walk (entries ik root) ops None).
Proof using Q.
  intros Hd Hc. destruct (btreeCursor_ok d wrFlag c Hd Hc) as (c' & E & Hcur & Hi & He & _). exists c'. split; [done|]. apply run_walk_ok. split; [done|]. split; [done|].
  split; [done|]. by left.
Qed.
End walk.
End tree.
