(* ===== verification/BtSeek.v ===== *)
(** Searching a table (btree.c): [sqlite3BtreeTableMoveto] finds a key or its
    neighbour; and cursors on a table, with saved positions, refine positions in
    a set of keys. *)
From Stdlib Require Import Sorting.Sorted.
From S2P Require Import Prelude.
From S2P Require Import Bits.
From S2P Require Import Varint.
From S2P Require Import Util.
From S2P Require Import Vfs.
From S2P Require Import Mem.
From S2P Require Import BtPage.
From S2P Require Import BtSpace.
From S2P Require Import BtDefrag.
From S2P Require Import BtCells.
From S2P Require Import BtList.
From S2P Require Import BtPages.
From S2P Require Import BtMove.
From S2P Require Import BtTree.
Open Scope Z_scope.

(** * The keys of the cells of a table *)

(** On a leaf, after the size of the payload, which takes less than nine bytes;
    on an interior page, after the number of the child. *)
Definition table_key (lf : bool) (c : list Z) : option Z :=
  if lf then
    '(n, _) ← varint_decode c;
    if n <=? 8 then '(_, k) ← varint_decode (drop (Z.to_nat n) c); Some (i64 k) else None
  else '(_, k) ← varint_decode (drop 4 c); Some (i64 k).

Lemma varint_decode_app c rest r : varint_decode c = Some r -> varint_decode (c ++ rest) = Some r.
Proof. apply varint_ref_app. Qed.

Lemma varint_decode_len c n v : varint_decode c = Some (n, v) -> 1 <= n <= 9 /\ n <= zlen c.
Proof.
  intros E. pose proof (varint_ref_len _ _ _ _ _ _ E). split; [lia|].
  assert (Hl : forall more len acc l, varint_ref more len acc l = Some (n, v) -> n - len + 1 <= zlen l); [|specialize (Hl _ _ _ _ E); lia].
  clear E. induction more as [|more IH]; intros len acc [|b l] E; cbn [varint_ref] in E; try done; rewrite zlen_cons; pose proof (zlen_nonneg l).
  - injection E as <- _. lia.
  - case_match; [injection E as <- _; lia|]. specialize (IH _ _ _ E). lia.
Qed.

(** The loop of the search ends with the varint. *)
Lemma skip_payload_decode more : forall fuel len acc data p n v pEnd, bytes_ok data -> 0 <= p -> varint_ref more len acc (drop (Z.to_nat p) data) = Some (n, v) ->
  n - len < Z.of_nat more -> n - len < Z.of_nat fuel -> p + (n - len) + 1 <= pEnd -> skip_payload_size fuel data p pEnd = Some (Some (p + (n - len) + 1)).
Proof.
  induction more as [|more IH]; intros fuel len acc data p n v pEnd Hb Hp E Hm Hf He;
    [destruct (drop _ _); cbn [varint_ref] in E; [done|injection E as <- _; lia]|].
  rewrite drop_step in E by done. destruct data.[p] as [b|] eqn:Eb; [|done]. cbn [varint_ref] in E. pose proof (Forall_zget _ _ _ _ Hb Eb) as Hbb.
  destruct (Z.ltb_spec b 128) as [Hlt|Hge].
  - injection E as <- _. destruct fuel as [|fuel]; [lia|]. cbn [skip_payload_size]. rewrite Eb. cbn [mbind option_bind].
    destruct (Z.leb_spec 0x80 b); [lia|]. do 2 f_equal. lia.
  - pose proof (varint_ref_len _ _ _ _ _ _ E). destruct fuel as [|fuel]; [lia|]. cbn [skip_payload_size]. rewrite Eb. cbn [mbind option_bind].
    destruct (Z.leb_spec 0x80 b); [|lia]. destruct (Z.geb_spec (p + 1) pEnd); [lia|].
    rewrite (IH fuel (len + 1) _ data (p + 1) n v pEnd Hb ltac:(lia) E) by lia. do 2 f_equal. lia.
Qed.

Lemma drop_cell data pc c : mem_read data pc (zlen c) = Some c -> forall i, 0 <= i -> exists rest, drop (Z.to_nat (pc + i)) data = drop (Z.to_nat i) c ++ rest.
Proof.
  intros E i Hi. pose proof E as (Hp & _ & _ & _)%mem_read_inv. unfold mem_read in E. destruct (_ && _ && _); [|done]. injection E as E. unfold slice in E.
  rewrite Z2Nat.inj_add, <- drop_drop by lia. rewrite <- (take_drop (Z.to_nat (zlen c)) (drop (Z.to_nat pc) data)), E.
  exists (drop (Z.to_nat i - length c) (drop (Z.to_nat (zlen c)) (drop (Z.to_nat pc) data))). apply drop_app.
Qed.

Section node.
Context {T : Type} (s : Bt T) (t : tree) (i : Z) (c : list Z) (k : Z).
Hypothesis Hb : bt_ok (bt_shared s).
Hypothesis Ht : node_ok true s t.
Hypothesis Hc : (t_cells t).[i] = Some c.
Hypothesis Hk : table_key (leaf (pgType (t_mem t))) c = Some k.

(** The page type of a table. *)
Lemma table_type : let ty := pgType (t_mem t) in intKeyLeaf ty = leaf ty /\ childPtrSize ty = (if leaf ty then 0 else 4) /\
  (leaf ty = true -> xParseCell ty = pc_Ptr) /\ type_ok (bt_shared s) ty.
Proof using Hb Ht.
  destruct (po_at _ _ _ (no_page _ _ _ Ht)) as (top & bs & items & Ha & _). pose proof (pa_type _ _ _ _ _ _ Ha) as Hty. pose proof (no_kind _ _ _ Ht) as Hi.
  cbv zeta. enough (intKeyLeaf (pgType (t_mem t)) = leaf (pgType (t_mem t)) /\ childPtrSize (pgType (t_mem t)) = (if leaf (pgType (t_mem t)) then 0 else 4) /\
    (leaf (pgType (t_mem t)) = true -> xParseCell (pgType (t_mem t)) = pc_Ptr)) by tauto.
  destruct (type_ok_cases _ _ Hty) as [E|[E|[E|E]]]; rewrite E in Hi |- *; cbn in Hi |- *; done.
Qed.

Lemma page_data : bytes_ok (aData (t_mem t)) /\ usableSize (bt_shared s) <= zlen (aData (t_mem t)).
Proof using Ht.
  destruct (po_at _ _ _ (no_page _ _ _ Ht)) as (top & bs & items & Ha & _). destruct (pa_space _ _ _ _ _ _ Ha) as [Hh Hu Hbd _ _ _ _ _].
  split; [done|lia].
Qed.

(** Where the cell is, and the varints in it. *)
Lemma cell_bytes_at : exists pc, findCell (t_mem t) i = Some pc /\ 0 <= pc /\ pc + zlen c <= usableSize (bt_shared s) /\
  forall j r, 0 <= j -> varint_decode (drop (Z.to_nat j) c) = Some r -> varint_decode (drop (Z.to_nat (pc + j)) (aData (t_mem t))) = Some r.
Proof using Hb Ht Hc.
  destruct (page_cell _ _ _ Hb (no_page _ _ _ Ht) i c Hc) as (pc & Hpc & Hpc0 & _ & _ & Hr & _ & _ & Hhi). exists pc. split_and!; try done.
  intros j r Hj E. destruct (drop_cell _ _ _ Hr j Hj) as [rest ->]. by apply varint_decode_app.
Qed.

Lemma search_key_ok : search_key (bt_shared s) (t_mem t) i = Some (Some k).
Proof using Hb Ht Hc Hk.
  destruct table_type as (Hil & Hcp & _ & _). destruct cell_bytes_at as (pc & Hpc & Hpc0 & Hhi & Hv). destruct page_data as [Hbd Hlen].
  unfold search_key. rewrite Hpc. cbn [mbind option_bind]. rewrite Hil, Hcp. unfold table_key in Hk. destruct (leaf (pgType (t_mem t))).
  - destruct (varint_decode c) as [[n v]|] eqn:E1; [|done]. cbn [mbind option_bind] in Hk. destruct (Z.leb_spec n 8); [|done].
    destruct (varint_decode_len _ _ _ E1) as [Hn1 Hn2]. destruct (varint_decode (drop (Z.to_nat n) c)) as [[m w]|] eqn:E2; [|done]. cbn [mbind option_bind] in Hk. injection Hk as <-.
    pose proof (Hv 0 _ ltac:(lia) E1) as E1'. rewrite Z.add_0_r in *.
    pose proof (varint_decode_len _ _ _ E2) as [_ Hn3]. unfold zlen in Hn2, Hn3. rewrite length_drop in Hn3. pose proof (bo_usable _ Hb). pose proof (bo_size _ Hb).
    assert (Hlc : n < Z.of_nat (length c)). { destruct (varint_decode_len _ _ _ E2) as [? _]. lia. }
    rewrite (skip_payload_decode 8 _ 1 0 _ pc n v); [|done|done|exact E1'|lia|unfold zlen in *; lia|unfold zlen in *; lia]. cbn [mbind option_bind].
    replace (pc + (n - 1) + 1) with (pc + n) by lia. rewrite getVarint_decode by (by apply Forall_drop). by rewrite (Hv n _ ltac:(lia) E2).
  - destruct (varint_decode (drop 4 c)) as [[m w]|] eqn:E2; [|done]. cbn [mbind option_bind] in *. injection Hk as <-.
    rewrite getVarint_decode by (by apply Forall_drop). by rewrite (Hv 4 _ ltac:(lia) E2).
Qed.

(** Parsing a cell of a leaf finds the key. *)
Lemma parse_leaf_key : leaf (pgType (t_mem t)) = true ->
  exists inf, btreeParseCell (bt_shared s) (t_mem t) i = Some inf /\ nKey inf = k /\ nSize inf <> 0.
Proof using Hb Ht Hc Hk.
  intros Hl. destruct table_type as (_ & _ & Hx & Hty). specialize (Hx Hl). destruct cell_bytes_at as (pc & Hpc & Hpc0 & Hhi & Hv). destruct page_data as [Hbd Hlen].
  unfold table_key in Hk. rewrite Hl in Hk. destruct (varint_decode c) as [[n v]|] eqn:E1; [|done]. cbn [mbind option_bind] in Hk. destruct (Z.leb_spec n 8); [|done].
  destruct (varint_decode_len _ _ _ E1) as [Hn1 Hn2]. destruct (varint_decode (drop (Z.to_nat n) c)) as [[m w]|] eqn:E2; [|done]. cbn [mbind option_bind] in Hk. injection Hk as <-.
  pose proof (Hv 0 _ ltac:(lia) E1) as E1'. rewrite Z.add_0_r in E1'. pose proof (Hv n _ ltac:(lia) E2) as E2'.
  assert (Hp : parseCell (bt_shared s) (pgType (t_mem t)) (aData (t_mem t)) pc =
    let '(nLocal, nSize) := parse_sizes (bt_shared s) (pgType (t_mem t)) pc (u32 v) (pc + n + m) in Some (mkCellInfo (i64 w) (pc + n + m) (u32 v) nLocal nSize)).
  { unfold parseCell. rewrite Hx. unfold btreeParseCellPtr. rewrite (payload_size_decode _ _ _ _ Hbd Hpc0 E1') by lia. cbn [mbind option_bind].
    rewrite parse_key_decode by (done || lia). by rewrite E2'. }
  unfold btreeParseCell. rewrite Hpc. cbn [mbind option_bind]. destruct (parse_sizes _ _ _ _ _) as [nl ns]. rewrite Hp. eexists. split; [done|]. split; [done|].
  destruct (parse_cell_ok _ _ Hb Hty _ _ _ Hbd Hpc0 Hp) as (sz & _ & Hs). destruct Hs as [Es Er _ _]. rewrite Es in Er. lia.
Qed.
End node.

(** * The binary search of a page *)

Section search.
Context (b : BtShared) (p : MemPage) (key : Z) (ks : list Z).
Hypothesis Hread : forall i k, ks.[i] = Some k -> search_key b p i = Some (Some k).
Hypothesis Hsort : forall i j k k', i < j -> ks.[i] = Some k -> ks.[j] = Some k' -> k < k'.

(** What the search of a page ends with. *)
Definition found (cmp idx lwr : Z) : Prop := exists k, ks.[idx] = Some k /\
  (cmp = 0 /\ k = key /\ (leaf (pgType p) = false -> lwr = idx) \/
   cmp = -1 /\ k < key /\ lwr = idx + 1 /\ (forall j k', idx < j -> ks.[j] = Some k' -> key < k') \/
   cmp = 1 /\ key < k /\ lwr = idx /\ (forall j k', j < idx -> ks.[j] = Some k' -> k' < key)).

Lemma shiftr_half a : Z.shiftr a 1 = a / 2.
Proof using. by rewrite Z.shiftr_div_pow2. Qed.

Lemma search_page_ok fuel : forall lwr upr idx, 0 <= lwr <= idx -> idx <= upr < zlen ks -> upr - lwr < Z.of_nat fuel ->
  (forall j k, j < lwr -> ks.[j] = Some k -> k < key) -> (forall j k, upr < j -> ks.[j] = Some k -> key < k) ->
  exists cmp idx' lwr', search_page fuel b p key lwr upr idx = Some (Some (cmp, idx', lwr')) /\ found cmp idx' lwr'.
Proof using Hread Hsort.
  induction fuel as [|fuel IH]; intros lwr upr idx Hl Hi Hf Hlo Hhi; [lia|]. cbn [search_page].
  destruct (zget_some ks idx ltac:(lia)) as [k Ek]. rewrite (Hread _ _ Ek). cbn [mbind option_bind]. rewrite shiftr_half.
  assert (Hmid : forall a c, a <= c -> a <= (a + c) / 2 <= c) by (intros a c Hac; split; [apply Z.div_le_lower_bound|apply Z.div_le_upper_bound]; lia).
  destruct (Z.ltb_spec k key) as [Hlt|Hge]; [|destruct (Z.gtb_spec k key) as [Hgt|Hle]].
  - destruct (Z.gtb_spec (idx + 1) upr).
    + exists (-1), idx, (idx + 1). split; [done|]. exists k. split; [done|]. right; left. split_and!; try done. intros j k' Hj. apply Hhi. lia.
    + apply IH; [pose proof (Hmid (idx + 1) upr); lia|pose proof (Hmid (idx + 1) upr); lia|lia| |done].
      intros j k' Hj Ek'. destruct (Z.eq_dec j idx) as [->|]; [congruence|]. pose proof (Hsort j idx k' k ltac:(lia) Ek' Ek). lia.
  - rewrite shiftr_half. destruct (Z.gtb_spec lwr (idx - 1)).
    + exists 1, idx, lwr. split; [done|]. exists k. split; [done|]. right; right. split_and!; try done; [lia|]. intros j k' Hj. apply Hlo. lia.
    + apply IH; [pose proof (Hmid lwr (idx - 1)); lia|pose proof (Hmid lwr (idx - 1)); lia|lia|done|].
      intros j k' Hj Ek'. destruct (Z.eq_dec j idx) as [->|]; [assert (k = k') by congruence; lia|]. pose proof (Hsort idx j k k' ltac:(lia) Ek Ek'). lia.
  - assert (k = key) as -> by lia. exists 0, idx, (if leaf (pgType p) then lwr else idx). split; [done|]. exists key. split; [done|]. left.
    split; [done|]. split; [done|]. by intros ->.
Qed.
End search.

(** * Trees in order *)

Definition in_range (lo hi : Z) (x : list Z) : Prop := exists k, table_key true x = Some k /\ lo < k <= hi.

(** The keys of [t] are above [lo] and at most [hi]; those of an interior page
    separate its children. *)
Fixpoint ordered (h : nat) (lo hi : Z) (t : tree) : Prop :=
  match h with
  | O => exists ks, mapM (table_key true) (t_cells t) = Some ks /\ StronglySorted Z.lt ks /\ Forall (fun k => lo < k <= hi) ks
  | S h => exists ss, mapM (table_key false) (t_cells t) = Some ss /\ StronglySorted Z.lt ss /\ Forall (fun k => lo <= k <= hi) ss /\
      forall i k, (t_kids t).[i] = Some k -> ordered h (if i =? 0 then lo else default lo ss.[i - 1]) (default hi ss.[i]) k
  end.

Lemma sorted_zget ks : StronglySorted Z.lt ks -> forall i j k k', i < j -> ks.[i] = Some k -> ks.[j] = Some k' -> k < k'.
Proof.
  induction 1 as [|x ks Hs IH Hx]; intros i j k k' Hij Ei Ej; pose proof (zget_range _ _ _ Ei) as Hi; pose proof (zget_range _ _ _ Ej) as Hj; [change (zlen (@nil Z)) with 0 in *; lia|].
  rewrite zlen_cons in *. rewrite zget_cons_pos in Ej by lia. destruct (Z.eq_dec i 0) as [->|].
  - injection Ei as <-. apply (Forall_zget _ _ _ _ Hx Ej).
  - rewrite zget_cons_pos in Ei by lia. eapply (IH (i - 1) (j - 1)); [lia|done|done].
Qed.

Lemma mapM_zget {A B} (f : A -> option B) l : forall ks, mapM f l = Some ks -> zlen ks = zlen l /\ forall i k, ks.[i] = Some k -> exists c, l.[i] = Some c /\ f c = Some k.
Proof.
  intros ks E. apply mapM_Some in E. pose proof (Forall2_length E) as El. split; [unfold zlen; lia|]. intros i k Ek.
  pose proof (zget_range _ _ _ Ek). rewrite zget_to_nat in Ek by lia. destruct (Forall2_lookup_r _ _ _ _ _ E Ek) as (c & Ec & Hc). exists c. by rewrite zget_to_nat by lia.
Qed.

(** A list of cells with increasing keys. *)
Definition sorted_cells (l : list (list Z)) (ks : list Z) : Prop := mapM (table_key true) l = Some ks /\ StronglySorted Z.lt ks.

Lemma mapM_snoc {A B} (f : A -> option B) l1 l2 k1 k2 : mapM f l1 = Some k1 -> mapM f l2 = Some k2 -> mapM f (l1 ++ l2) = Some (k1 ++ k2).
Proof. rewrite !mapM_Some. apply Forall2_app. Qed.

Lemma StronglySorted_join (l1 l2 : list Z) : StronglySorted Z.lt l1 -> StronglySorted Z.lt l2 -> (forall x y, x ∈ l1 -> y ∈ l2 -> x < y) -> StronglySorted Z.lt (l1 ++ l2).
Proof.
  induction 1 as [|x l1 Hs IH Hx]; intros H2 Hc; [done|]. cbn [app]. constructor.
  - apply IH; [done|]. intros a y Ha. apply Hc. by apply list_elem_of_further.
  - apply list.Forall_app. split; [done|]. apply list.Forall_forall. intros y Hy. apply Hc; [apply list_elem_of_here|done].
Qed.

Lemma sorted_elem l ks k : mapM (table_key true) l = Some ks -> k ∈ ks -> exists x, x ∈ l /\ table_key true x = Some k.
Proof.
  intros [_ Hm]%mapM_zget [i Ei]%elem_of_zget. destruct (Hm i k Ei) as (c & Ec & Hc). exists c. split; [by eapply zget_elem_of|done].
Qed.

Lemma sorted_app l1 l2 k1 k2 : sorted_cells l1 k1 -> sorted_cells l2 k2 ->
  (forall x y kx ky, x ∈ l1 -> y ∈ l2 -> table_key true x = Some kx -> table_key true y = Some ky -> kx < ky) -> sorted_cells (l1 ++ l2) (k1 ++ k2).
Proof.
  intros [M1 S1] [M2 S2] Hc. split; [by apply mapM_snoc|]. apply StronglySorted_join; [done|done|]. intros kx ky Hx Hy.
  destruct (sorted_elem _ _ _ M1 Hx) as (x & Ix & Ex). destruct (sorted_elem _ _ _ M2 Hy) as (y & Iy & Ey). by apply (Hc x y).
Qed.

Section kids.
Context (t : tree).

Lemma before_elem i x : x ∈ before_kid true t i -> exists j k, j < i /\ (t_kids t).[j] = Some k /\ x ∈ entries true k.
Proof using.
  unfold before_kid. rewrite list_elem_of_join. intros (l & Hx & Hl). apply list_elem_of_lookup in Hl as [n Hn]. rewrite lookup_zip_with_Some in Hn.
  destruct Hn as (k & c & -> & Hk & _). apply lookup_take_Some in Hk as [Hk Hn]. exists (Z.of_nat n), k. split; [lia|]. split; [by rewrite zget_to_nat, Nat2Z.id by lia|].
  unfold sep in Hx. by rewrite app_nil_r in Hx.
Qed.

Lemma after_elem i x : 0 <= i -> x ∈ after_kid true t i -> exists j k, i < j /\ (t_kids t).[j] = Some k /\ x ∈ entries true k.
Proof using.
  intros Hi. unfold after_kid. rewrite list_elem_of_join. intros (l & Hx & Hl). apply list_elem_of_lookup in Hl as [n Hn]. rewrite lookup_zip_with_Some in Hn.
  destruct Hn as (k & c & -> & Hk & _). rewrite lookup_drop in Hk. exists (i + 1 + Z.of_nat n), k. split; [lia|]. split; [|done].
  rewrite zget_to_nat by lia. rewrite <- Hk. f_equal. lia.
Qed.

Context (h : nat) (lo hi : Z) (ss : list Z).
Hypothesis Hlen : zlen (t_kids t) = zlen ss + 1.
Hypothesis Hss : StronglySorted Z.lt ss.
Hypothesis Hr : Forall (fun k => lo <= k <= hi) ss.
Hypothesis Hin : forall i k x, (t_kids t).[i] = Some k -> x ∈ entries true k -> in_range (if i =? 0 then lo else default lo ss.[i - 1]) (default hi ss.[i]) x.

(** The keys of the children lie between the keys of the page. *)
Lemma kid_range i k x : (t_kids t).[i] = Some k -> x ∈ entries true k -> in_range lo hi x.
Proof using Hlen Hr Hin.
  intros Ek Hx. pose proof (zget_range _ _ _ Ek). destruct (Hin i k x Ek Hx) as (kx & E & Hlo & Hhi). exists kx. split; [done|]. split.
  - destruct (Z.eqb_spec i 0); [done|]. destruct ss.[i - 1] as [s|] eqn:Es; [|done]. pose proof (Forall_zget _ _ _ _ Hr Es). cbn in *. lia.
  - destruct ss.[i] as [s|] eqn:Es; [|done]. pose proof (Forall_zget _ _ _ _ Hr Es). cbn in *. lia.
Qed.

(** Up to the key after a child, and above the one before. *)
Lemma kid_upto i k x s : (t_kids t).[i] = Some k -> x ∈ entries true k -> ss.[i] = Some s -> exists kx, table_key true x = Some kx /\ kx <= s.
Proof using Hin. intros Ek Hx Es. destruct (Hin i k x Ek Hx) as (kx & E & Hlo & Hhi). rewrite Es in Hhi. by exists kx. Qed.

Lemma kid_above i k x s : (t_kids t).[i] = Some k -> x ∈ entries true k -> ss.[i - 1] = Some s -> exists kx, table_key true x = Some kx /\ s < kx.
Proof using Hin.
  intros Ek Hx Es. destruct (Hin i k x Ek Hx) as (kx & E & Hlo & Hhi). pose proof (zget_range _ _ _ Es). destruct (Z.eqb_spec i 0); [lia|]. rewrite Es in Hlo. by exists kx.
Qed.

Lemma kids_apart i j k k' x y kx ky : i < j -> (t_kids t).[i] = Some k -> (t_kids t).[j] = Some k' -> x ∈ entries true k -> y ∈ entries true k' ->
  table_key true x = Some kx -> table_key true y = Some ky -> kx < ky.
Proof using Hlen Hss Hin.
  intros Hij Ek Ek' Hx Hy Ex Ey. pose proof (zget_range _ _ _ Ek). pose proof (zget_range _ _ _ Ek').
  destruct (zget_some ss i ltac:(lia)) as [s Es]. destruct (zget_some ss (j - 1) ltac:(lia)) as [s' Es'].
  destruct (kid_upto i k x s Ek Hx Es) as (k1 & E1 & H1). destruct (kid_above j k' y s' Ek' Hy Es') as (k2 & E2 & H2).
  assert (s <= s') by (destruct (Z.eq_dec i (j - 1)) as [E|]; [rewrite E in Es; assert (s = s') by congruence; lia|pose proof (sorted_zget ss Hss i (j - 1) s s' ltac:(lia) Es Es'); lia]).
  assert (kx = k1) by congruence. assert (ky = k2) by congruence. lia.
Qed.
End kids.

Section ordered.
Context {T : Type} {P : Pager T} (s : Bt T).

Lemma ordered_in h : forall lo hi t, tree_ok true s h t -> ordered h lo hi t -> forall x, x ∈ entries true t -> in_range lo hi x.
Proof using.
  induction h as [|h IH]; intros lo hi t [Hn Hk] Ho x Hx.
  - destruct t as [pg p cs ks]. cbn in *. subst ks. destruct Ho as (ks & Hm & _ & Hf). apply mapM_Some in Hm.
    apply list_elem_of_lookup in Hx as [i Hi]. destruct (Forall2_lookup_l _ _ _ _ _ Hm Hi) as (k & Ek & E). exists k. split; [done|].
    rewrite list.Forall_forall in Hf. apply Hf. by eapply list_elem_of_lookup_2.
  - destruct Hk as [Hne Hk], Ho as (ss & Hm & Hss & Hf & Ho). destruct (mapM_zget _ _ _ Hm) as [El _]. pose proof (no_kids _ _ _ Hn Hne) as Hcount.
    assert (Hkid : exists i k, (t_kids t).[i] = Some k /\ x ∈ entries true k).
    { destruct (kid_some t Hcount 0) as [k0 E0]; [pose proof (zlen_nonneg (t_cells t)); lia|]. rewrite (entries_kid true t Hcount 0 k0 E0) in Hx.
      rewrite before_first in Hx. cbn [app] in Hx. apply elem_of_app in Hx as [Hx|Hx]; [by exists 0, k0|]. destruct (after_elem t 0 x ltac:(lia) Hx) as (j & k & _ & Ek & Hk'). by exists j, k. }
    destruct Hkid as (i & k & Ek & Hxk). apply (kid_range t lo hi ss) with (i := i) (k := k); try done; [lia|].
    intros i' k' x' Ek' Hx'. eapply IH; [|by apply Ho|done]. by destruct (Forall_zget _ _ _ _ Hk Ek').
Qed.

Lemma ordered_kids h lo hi t ss : tree_ok true s (S h) t -> ordered (S h) lo hi t -> mapM (table_key false) (t_cells t) = Some ss ->
  zlen (t_kids t) = zlen ss + 1 /\ StronglySorted Z.lt ss /\ forall i k x, (t_kids t).[i] = Some k -> x ∈ entries true k ->
    in_range (if i =? 0 then lo else default lo ss.[i - 1]) (default hi ss.[i]) x.
Proof using.
  intros [Hn [Hne Hk]] (ss' & Hm' & Hss & Hf & Ho) Hm. rewrite Hm in Hm'. injection Hm' as <-. destruct (mapM_zget _ _ _ Hm) as [El _].
  pose proof (no_kids _ _ _ Hn Hne). split; [lia|]. split; [done|]. intros i k x Ek Hx. eapply ordered_in; [|by apply Ho|done]. by destruct (Forall_zget _ _ _ _ Hk Ek).
Qed.

Lemma ordered_sorted h : forall lo hi t, tree_ok true s h t -> ordered h lo hi t -> exists ks, sorted_cells (entries true t) ks.
Proof using.
  induction h as [|h IH]; intros lo hi t Ht Ho.
  - destruct Ht as [_ Hk]. destruct t as [pg p cs ks]. cbn in *. subst ks. destruct Ho as (ks & Hm & Hs & _). by exists ks.
  - pose proof Ho as (ss & Hm & _). destruct (ordered_kids _ _ _ _ _ Ht Ho Hm) as (Hlen & Hss & Hin). pose proof (mapM_zget _ _ _ Hm) as [El _].
    destruct Ht as [Hn [Hne Hk]]. pose proof (no_kids _ _ _ Hn Hne) as Hcount. destruct Ho as (ss' & Hm' & _ & _ & Ho). rewrite Hm in Hm'. injection Hm' as <-.
    assert (Hsub : forall i k, (t_kids t).[i] = Some k -> exists ks, sorted_cells (entries true k) ks).
    { intros i k Ek. eapply IH; [|by apply Ho]. by destruct (Forall_zget _ _ _ _ Hk Ek). }
    assert (Hapart : forall i k k1 k2, (t_kids t).[i] = Some k -> sorted_cells (before_kid true t i) k1 -> sorted_cells (entries true k) k2 ->
      sorted_cells (before_kid true t i ++ entries true k) (k1 ++ k2)).
    { intros i k k1 k2 Ek H1 H2. apply sorted_app; [done|done|]. intros x y kx ky Hx Hy Ex Ey. destruct (before_elem t i x Hx) as (j & k' & Hj & Ek' & Hx').
      by apply (kids_apart t lo hi ss Hlen Hss Hin j i k' k x y). }
    assert (Hpre : forall n, Z.of_nat n <= zlen (t_cells t) -> exists ks, sorted_cells (before_kid true t (Z.of_nat n)) ks).
    { induction n as [|n IHn]; intros Hn'; [exists []; split; [done|constructor]|]. destruct (IHn ltac:(lia)) as [k1 H1].
      destruct (kid_some t Hcount (Z.of_nat n) ltac:(lia)) as [k Ek]. destruct (zget_some (t_cells t) (Z.of_nat n) ltac:(lia)) as [c Ec]. destruct (Hsub _ _ Ek) as [k2 H2].
      replace (Z.of_nat (S n)) with (Z.of_nat n + 1) by lia. rewrite (before_next true t _ k c Ek Ec). unfold sep. rewrite app_nil_r. eexists. by apply Hapart. }
    pose proof (zlen_nonneg (t_cells t)). destruct (kid_some t Hcount (zlen (t_cells t)) ltac:(lia)) as [k Ek]. destruct (Hsub _ _ Ek) as [k2 H2].
    destruct (Hpre (length (t_cells t))) as [k1 H1]; [unfold zlen; lia|]. change (Z.of_nat (length (t_cells t))) with (zlen (t_cells t)) in H1.
    rewrite (entries_kid true t Hcount _ k Ek), after_last, app_nil_r by lia. eexists. by apply Hapart.
Qed.
End ordered.

(** * Down to a leaf *)

Definition below (key : Z) (l : list (list Z)) : Prop := forall x, x ∈ l -> exists k, table_key true x = Some k /\ k < key.
Definition above (key : Z) (l : list (list Z)) : Prop := forall x, x ∈ l -> exists k, table_key true x = Some k /\ key < k.

Lemma below_app key l1 l2 : below key l1 -> below key l2 -> below key (l1 ++ l2).
Proof. intros H1 H2 x [Hx|Hx]%elem_of_app; [by apply H1|by apply H2]. Qed.
Lemma above_app key l1 l2 : above key l1 -> above key l2 -> above key (l1 ++ l2).
Proof. intros H1 H2 x [Hx|Hx]%elem_of_app; [by apply H1|by apply H2]. Qed.

Lemma found_sides p key ks cmp idx lwr : StronglySorted Z.lt ks -> found p key ks cmp idx lwr ->
  (forall j k, j < idx -> ks.[j] = Some k -> k < key) /\ (forall j k, idx < j -> ks.[j] = Some k -> key < k).
Proof.
  intros Hs (k & Ek & Hc). split; intros j k' Hj Ek'.
  - pose proof (sorted_zget ks Hs j idx k' k Hj Ek' Ek). destruct Hc as [(_ & -> & _)|[(_ & ? & _)|(_ & _ & _ & Hlo)]]; [lia|lia|by apply (Hlo j)].
  - pose proof (sorted_zget ks Hs idx j k k' Hj Ek Ek'). destruct Hc as [(_ & -> & _)|[(_ & _ & _ & Hhi)|(_ & ? & _)]]; [lia|by apply (Hhi j)|lia].
Qed.

Lemma found_child p key ks cmp idx lwr : StronglySorted Z.lt ks -> found p key ks cmp idx lwr -> leaf (pgType p) = false ->
  0 <= lwr <= zlen ks /\ (forall j k, j < lwr -> ks.[j] = Some k -> k < key) /\ (forall j k, lwr <= j -> ks.[j] = Some k -> key <= k).
Proof.
  intros Hs Hf Hl. pose proof Hf as (k & Ek & Hc). destruct (found_sides _ _ _ _ _ _ Hs Hf) as [Hlo Hhi]. pose proof (zget_range _ _ _ Ek).
  destruct Hc as [(_ & -> & E)|[(_ & Hk & -> & _)|(_ & Hk & -> & _)]]; [rewrite (E Hl)|..]; (split; [lia|split]); intros j k' Hj Ek'; try by eauto.
  - destruct (Z.eq_dec j idx) as [->|]; [assert (k' = key) by congruence; lia|]. pose proof (Hhi j k' ltac:(lia) Ek'). lia.
  - destruct (Z.eq_dec j idx) as [->|]; [congruence|]. apply (Hlo j); [lia|done].
  - pose proof (Hhi j k' ltac:(lia) Ek'). lia.
  - destruct (Z.eq_dec j idx) as [->|]; [assert (k' = k) by congruence; lia|]. pose proof (Hhi j k' ltac:(lia) Ek'). lia.
Qed.

Lemma cells_sides cs ks key i : mapM (table_key true) cs = Some ks -> 0 <= i ->
  (forall j k, j < i -> ks.[j] = Some k -> k < key) -> (forall j k, i < j -> ks.[j] = Some k -> key < k) ->
  below key (take (Z.to_nat i) cs) /\ above key (drop (S (Z.to_nat i)) cs).
Proof.
  intros Hm Hi Hlo Hhi. apply mapM_Some in Hm. split; intros x Hx; apply list_elem_of_lookup in Hx as [n Hn].
  - apply lookup_take_Some in Hn as [Hn Hlt]. destruct (Forall2_lookup_l _ _ _ _ _ Hm Hn) as (k & Ek & E). exists k. split; [done|]. apply (Hlo (Z.of_nat n)); [lia|].
    by rewrite zget_to_nat, Nat2Z.id by lia.
  - rewrite lookup_drop in Hn. destruct (Forall2_lookup_l _ _ _ _ _ Hm Hn) as (k & Ek & E). exists k. split; [done|]. apply (Hhi (i + 1 + Z.of_nat n)); [lia|].
    rewrite zget_to_nat by lia. rewrite <- Ek. f_equal. lia.
Qed.

Lemma search_page_nFree b p key n fuel : forall lwr upr idx, search_page fuel b (set_nFree n p) key lwr upr idx = search_page fuel b p key lwr upr idx.
Proof.
  induction fuel as [|fuel IH]; intros lwr upr idx; [done|]. cbn [search_page]. change (search_key b (set_nFree n p) idx) with (search_key b p idx).
  destruct (search_key b p idx) as [[k|]|]; [|done|done]. cbn [mbind option_bind]. by rewrite !IH.
Qed.

Section down.
Context {T : Type} {P : Pager T} {Q : QuietPager T} (height : nat) (root : tree) (key biasRight : Z).
Abbreviation Db := (Db T).
Abbreviation on := (on true height root).
Abbreviation path := (path true height root).
Abbreviation at_entry := (at_entry true height root).
Abbreviation kept := (kept true height root).
Abbreviation db_ok := (db_ok true height root).
Abbreviation cur_ok := (cur_ok true root).
Abbreviation rests := (rests true height root).
Context (lo0 hi0 : Z).
Hypothesis Hord : ordered height lo0 hi0 root.
Hypothesis Hbias : biasRight = 0 \/ biasRight = 1.

Lemma path_ordered fs h t L R : path fs h t L R -> exists lo hi, ordered h lo hi t.
Proof using Hord.
  induction 1 as [|fs h t L R i k Hp (lo & hi & ss & _ & _ & _ & Ho) Ek]; [by exists lo0, hi0|]. eexists _, _. by apply (Ho i).
Qed.

(** The marks of a cursor, which a search leaves alone. *)
Definition marks (c : Cursor) : CursorState * bool * bool * Z := (eState c, AtLast c, Pinned c, skipNext c).

(** What is known of the cell: its key, when it is said to be known. *)
Definition knows (c : Cursor) (k : Z) : Prop := (nSize (info c) <> 0 \/ ValidNKey c = true) -> nKey (info c) = k.

(** The cursor is at the entry with the key [k], which is [key] or next to it. *)
Definition lands (c0 c : Cursor) (d0 d : Db) (res : Z) : Prop := exists x B A k,
  kept d0 d /\ marks c = marks c0 /\ at_entry c d x B A /\ table_key true x = Some k /\ below key B /\ above key A /\
  (res = 0 /\ k = key \/ res = -1 /\ k < key \/ res = 1 /\ key < k) /\ knows c k /\ nSize (info c) = 0 /\ (res <> 0 -> ValidNKey c = false).

Lemma search_start n : 0 < n -> 0 <= Z.shiftr (n - 1) (1 - biasRight) <= n - 1.
Proof using Hbias.
  intros Hn. rewrite Z.shiftr_div_pow2 by (destruct Hbias; lia). destruct Hbias as [-> | ->]; cbn [Z.sub Z.pow Z.pow_pos Pos.iter Z.add Z.opp Z.mul].
  - change (2 ^ (1 - 0)) with 2. split; [apply Z.div_pos; lia|apply Z.div_le_upper_bound; lia].
  - change (2 ^ (1 - 1)) with 1. rewrite Z.div_1_r. lia.
Qed.

Lemma node_search (c : Cursor) (d : Db) fs h t L R ks : on c d fs h t L R -> t_cells t <> [] -> mapM (table_key (leaf (pgType (t_mem t)))) (t_cells t) = Some ks -> StronglySorted Z.lt ks ->
  exists cmp idx lwr, search_page (Z.to_nat (nCell (t_mem t)) + 1) (bt_shared (db_bt d)) (t_mem t) key 0 (nCell (t_mem t) - 1) (Z.shiftr (nCell (t_mem t) - 1) (1 - biasRight)) =
    Some (Some (cmp, idx, lwr)) /\ found (t_mem t) key ks cmp idx lwr.
Proof using Hbias.
  intros Ho Hne Hm Hs. pose proof Ho as [Hp Hd _ _ _ _ _ _]. destruct (path_node _ _ _ d _ _ _ _ _ Hd Hp) as [Hn _]. destruct (mapM_zget _ _ _ Hm) as [El Hget].
  rewrite (node_nCell _ _ _ Hn). pose proof (zlen_pos _ Hne) as Hpos. pose proof (search_start _ Hpos).
  apply search_page_ok; try lia.
  - intros i k Ek. destruct (Hget i k Ek) as (x & Ex & Hk). by apply (search_key_ok _ _ _ x _ (dk_shared _ _ _ _ Hd) Hn).
  - by apply sorted_zget.
  - intros j k Hj Ek. apply zget_range in Ek. lia.
  - intros j k Hj Ek. apply zget_range in Ek. lia.
Qed.

Lemma search_leaf (c : Cursor) (d : Db) fs t L R pRes fuel : on c d fs O t L R -> t_cells t <> [] -> settled c -> below key L -> above key R ->
  exists res c', search_down (S fuel) c d key biasRight pRes = Some (SQLITE_OK, res, c', d) /\ lands c c' d d res.
Proof using Hord Hbias.
  intros Ho Hne [Hs1 Hs2] HL HR. pose proof Ho as [Hp Hd _ _ _ _ _ _]. destruct (leaf_page _ _ _ _ _ _ _ _ _ Ho) as (Hl & Hnc & _ & Hmax & _).
  destruct (path_ordered _ _ _ _ _ Hp) as (lo & hi & ks & Hm & Hs & _). rewrite <- Hl in Hm at 1.
  destruct (node_search c d fs O t L R ks Ho Hne Hm Hs) as (cmp & idx & lwr & Es & Hf). cbn [search_down]. destruct (on_page_of _ _ _ _ _ _ _ _ _ _ Ho) as [n ->]. cbn [mbind option_bind].
  change (nCell (set_nFree n (t_mem t))) with (nCell (t_mem t)).
  rewrite search_page_nFree, Es. cbn [mbind option_bind]. change (pgType (set_nFree n (t_mem t))) with (pgType (t_mem t)). rewrite Hl.
  destruct (found_sides _ _ _ _ _ _ Hs Hf) as [Hlo Hhi]. destruct Hf as (k & Ek & Hc). destruct (mapM_zget _ _ _ Hm) as [El Hget]. destruct (Hget idx k Ek) as (x & Ex & Hk).
  pose proof (zget_range _ _ _ Ex). rewrite u16_small by lia. rewrite Hl in Hk, Hm. destruct (cells_sides _ _ key idx Hm ltac:(lia) Hlo Hhi) as [HB HA].
  pose proof (leaf_entry true height root (set_ix idx c) d fs t L R idx x ltac:(by eapply on_same) Ex eq_refl) as Ha.
  destruct (Z.eqb_spec cmp 0) as [->|Hc0]; eexists _, _; (split; [reflexivity|]); exists x, (L ++ take (Z.to_nat idx) (t_cells t)), (drop (S (Z.to_nat idx)) (t_cells t) ++ R), k;
    (split; [apply kept_refl|]).
  - destruct Hc as [(_ & -> & _)|[(? & _)|(? & _)]]; [|lia|lia]. split; [done|]. split; [by apply (at_entry_same _ _ _ (set_ix idx c))|]. split; [done|].
    split; [by apply below_app|]. split; [by apply above_app|]. split; [by left|]. split; [done|]. done.
  - split; [done|]. split; [by apply (at_entry_same _ _ _ (set_ix idx c))|]. split; [done|]. split; [by apply below_app|]. split; [by apply above_app|].
    split; [destruct Hc as [(? & _)|[(-> & ? & _)|(-> & ? & _)]]; [done|right; by left|right; by right]|]. cbn. split; [|done]. unfold knows. cbn. rewrite Hs1. intros [?|?]; done.
Qed.

Lemma lands_via c0 c1 c d0 d1 d res : kept d0 d1 -> marks c1 = marks c0 -> lands c1 c d1 d res -> lands c0 c d0 d res.
Proof using.
  intros Hk Hm (x & B & A & k & Hk' & Hm' & Hr). exists x, B, A, k. split; [by eapply kept_trans|]. split; [congruence|done].
Qed.

(** The children before and after the one that is entered. *)
Lemma node_sides (c : Cursor) (d : Db) fs h t L R ss i : on c d fs (S h) t L R -> mapM (table_key false) (t_cells t) = Some ss -> 0 <= i <= zlen ss ->
  (forall j k, j < i -> ss.[j] = Some k -> k < key) -> (forall j k, i <= j -> ss.[j] = Some k -> key <= k) ->
  below key (before_kid true t i) /\ above key (after_kid true t i).
Proof using Hord.
  intros Ho Hm Hi Hlo Hhi. pose proof Ho as [Hp Hd _ _ _ _ _ _]. destruct (path_ordered _ _ _ _ _ Hp) as (lo & hi & Hot).
  destruct (path_tree _ _ _ d _ _ _ _ _ Hd Hp) as (Ht & _). destruct (ordered_kids _ _ _ _ _ _ Ht Hot Hm) as (Hlen & Hss & Hin). split; intros x Hx.
  - destruct (before_elem t i x Hx) as (j & k & Hj & Ek & Hxk). pose proof (zget_range _ _ _ Ek). destruct (zget_some ss j ltac:(lia)) as [sj Esj].
    destruct (kid_upto t lo hi ss Hin j k x sj Ek Hxk Esj) as (kx & E & Hle). exists kx. split; [done|]. pose proof (Hlo j sj Hj Esj). lia.
  - destruct (after_elem t i x ltac:(lia) Hx) as (j & k & Hj & Ek & Hxk). pose proof (zget_range _ _ _ Ek). destruct (zget_some ss (j - 1) ltac:(lia)) as [sj Esj].
    destruct (kid_above t lo hi ss Hin j k x sj Ek Hxk Esj) as (kx & E & Hlt). exists kx. split; [done|]. pose proof (Hhi (j - 1) sj ltac:(lia) Esj). lia.
Qed.

Lemma moved_marks c c' : moved c c' -> marks c' = marks c.
Proof using. intros [E1 E2 E3 E4 _ _ _]. unfold marks. congruence. Qed.

Lemma search_down_ok pRes h : forall fuel (c : Cursor) (d : Db) fs t L R, (h < fuel)%nat -> on c d fs h t L R -> t_cells t <> [] -> settled c -> below key L -> above key R ->
  exists res c' d', search_down fuel c d key biasRight pRes = Some (SQLITE_OK, res, c', d') /\ lands c c' d d' res.
Proof using Q Hord Hbias.
  induction h as [|h IH]; intros fuel c d fs t L R Hf Ho Hne Hs HL HR; (destruct fuel as [|fuel]; [lia|]).
  { destruct (search_leaf c d fs t L R pRes fuel Ho Hne Hs HL HR) as (res & c' & E & Hl). by exists res, c', d. }
  pose proof Ho as [Hp Hd _ _ _ _ _ _]. destruct (inner_page _ _ _ _ _ _ _ _ _ _ Ho) as (Hl & Hnc & _ & Hmax & Hcount & _ & Hn & Hb).
  destruct (path_ordered _ _ _ _ _ Hp) as (lo & hi & Hot). pose proof Hot as (ss & Hm & Hss & _). rewrite <- Hl in Hm at 1.
  destruct (node_search c d fs (S h) t L R ss Ho Hne Hm Hss) as (cmp & idx & lwr & Es & Hf'). rewrite Hl in Hm. destruct (mapM_zget _ _ _ Hm) as [El _].
  destruct (found_child _ _ _ _ _ _ Hss Hf' Hl) as (Hlwr & Hlo & Hhi). destruct (node_sides c d fs h t L R ss lwr Ho Hm Hlwr Hlo Hhi) as [HB HA].
  destruct (kid_some t Hcount lwr ltac:(lia)) as [k Ek]. cbn [search_down]. destruct (on_page_of _ _ _ _ _ _ _ _ _ _ Ho) as [n ->]. cbn [mbind option_bind].
  change (nCell (set_nFree n (t_mem t))) with (nCell (t_mem t)). rewrite search_page_nFree, Es. cbn [mbind option_bind].
  change (pgType (set_nFree n (t_mem t))) with (pgType (t_mem t)). rewrite Hl, Hnc.
  assert (Ech : (if lwr >=? zlen (t_cells t) then right_child (set_nFree n (t_mem t)) else cell_child (set_nFree n (t_mem t)) lwr) = Some (t_page k)).
  { destruct (node_kid _ _ _ Hb Hn lwr k Ek) as [[E Hr]|[Hlt Hcc]]; destruct (Z.geb_spec lwr (zlen (t_cells t))); try lia; done. }
  rewrite Ech. cbn [mbind option_bind]. rewrite u16_small by lia. set (c1 := set_ix lwr c). assert (Ho1 : on c1 d fs (S h) t L R) by (by eapply on_same).
  destruct (moveToChild_ok _ _ _ c1 d fs h t L R lwr k Ho1 Ek eq_refl) as (c2 & d2 & -> & Hk2 & Hm2 & Hs2 & _ & Ho2). cbn [mbind option_bind Z.eqb SQLITE_OK].
  assert (Hne2 : t_cells k <> []) by (pose proof Ho2 as [Hp2 Hd2 _ _ _ _ _ _]; destruct (path_tree _ _ _ d2 _ _ _ _ _ Hd2 Hp2) as (_ & Hne2 & _); apply Hne2; by destruct fs).
  destruct (IH fuel c2 d2 _ k _ _ ltac:(lia) Ho2 Hne2 Hs2) as (res & c' & d' & E & Hla); [by apply below_app|by apply above_app|].
  exists res, c', d'. split; [done|]. apply (lands_via c c2 c' d d2); [done|by rewrite (moved_marks _ _ Hm2)|done].
Qed.

(** From the root: the table is empty, or the cursor lands at an entry. *)
Definition sought (r : option (Z * Z * Cursor * Db)) (c : Cursor) (d : Db) : Prop := exists res c' d', r = Some (SQLITE_OK, res, c', d') /\ kept d d' /\
  Pinned c' = Pinned c /\ skipNext c' = skipNext c /\ AtLast c' = false /\
  (entries true root = [] /\ res = -1 /\ eState c' = CURSOR_INVALID /\ on c' d' [] height root [] [] \/
   eState c' = CURSOR_VALID /\ lands c' c' d d' res).

Lemma search_root_ok pRes c d : cur_ok c -> db_ok d -> rests c d -> eState c <> CURSOR_FAULT -> sought (search_root c d key biasRight pRes) c d.
Proof using Q Hord Hbias.
  intros Hc Hd Hr Hf. destruct (moveToRoot_ok _ _ _ c d Hc Hd Hr Hf) as (c1 & d1 & [A1 A2 A3 A4 A5] & Hres). unfold search_root.
  destruct Hres as [(-> & Ee & He & Ho)|(-> & He & E0 & fs & h & t & Ho & Hne & Ee)]; cbn [mbind option_bind].
  - exists (-1), c1, d1. do 5 (split; [done|]). by left.
  - pose proof Ho as [Hp Hd1 _ _ _ _ _ _]. destruct (path_tree _ _ _ d1 _ _ _ _ _ Hd1 Hp) as (_ & _ & Hlen). pose proof (dk_height _ _ _ _ Hd1). cbn [Z.eqb SQLITE_OK].
    destruct (search_down_ok pRes h max_path c1 d1 fs t [] [] ltac:(change max_path with 21%nat; lia) Ho Hne A5) as (res & c' & d' & -> & Hl);
      [by intros x ?%elem_of_nil|by intros x ?%elem_of_nil|].
    pose proof Hl as (x & B & A & k & Hk & Hm & Hrest). unfold marks in Hm. injection Hm as M1 M2 M3 M4. exists res, c', d'. split; [done|].
    split; [by eapply kept_trans|]. do 3 (split; [congruence|]). right. split; [congruence|]. exists x, B, A, k. split; [by eapply kept_trans|]. by split.
Qed.
End down.
